(* ===== verification/_CoqProject ===== *)
-Q . S2P
Prelude.v
Core.v
Session.v
Storage.v
Attestation.v
Threshold.v
Randomness.v
Registry.v
Dctls.v
Network.v
Mtls.v
Errors.v
Frost.v
Verify.v
Sha256Gadget.v
HmacGadget.v
CoSnark.v
FrostAux.v
Dkg.v
DkgNode.v
DkgCeremony.v
DkgHonest.v
FrostKeys.v
Secp.v
SecpDkg.v
Coordinator.v
NodeTransport.v
AuxServer.v
FrostRun.v
OnChain.v
DxDctls.v
TlsEngine.v
RcPhase.v
ZkBackends.v
Json.v
Os.v
Wire.v
ProverCircuits.v
ProverProcess.v
ProverClient.v
ProverMpc.v
Pipeline.v
Ceremony.v
Http.v
CoordinatorMain.v
Deployment.v
Harness.v
Requests.v
VkExport.v
MpcGroth.v
