(* ===== verification/Prelude.v ===== *)
(** * Verification of collusion-resistant zkTLS attestation with co-SNARKs

    This library models the Rust workspace under [src/crates/] and proves its
    components correct. A prover has a TLS response attested by a quorum of
    verifiers. A coordinator opens a session, obtains session randomness, runs
    an attestation engine that commits to query and response, and collects
    approvals of the resulting envelope, as Ed25519 partial signatures or as a
    FROST threshold signature made with auxiliary nodes in two rounds. A
    zero-knowledge proof ties the MAC key of the TLS session to the two parties'
    shares and to the pre-master secret; it can be made by a separate prover
    process, alone or as two parties. The keys of a group come from a trusted
    dealer or from a distributed key generation; approvals can be carried to a
    smart contract.

    ** Files and the code they model

    Foundations
    - [Prelude]: results, stateful computations, machine integers kept at their
      width, fixed-size byte arrays, encodings, hexadecimal text, shared tactics.
    - [Core] ([core/src/hash.rs], [ids.rs], [types.rs]): identifiers, canonical
      hashing with domain tags and length prefixes, quorums.
    - [Errors] ([node/src/error.rs] and the [Display] instances of all errors).
    - [Json], [Os]: JSON as serde_json reads and derives it, lines of text, the
      file system, paths and numbers, as far as the programs use them.

    Sessions, evidence and approvals
    - [Session] ([attestation/src/session.rs]): the session state machine, as
      methods and as a step relation, and the session context with its digest.
    - [Storage] ([storage/src/]): the trait [SessionStore] as a class, its
      documented contract as an abstract store, the in-memory and the SQLite
      store, and the class [StoreSpec] by which clients rely on the contract.
    - [Attestation] ([crypto/src/transcript.rs], [attestation/src/statement.rs],
      [engine.rs], [envelope.rs]): commitments, statements, packages, envelopes.
    - [Threshold] ([crypto/src/threshold.rs]): aggregation and verification of
      approvals made of Ed25519 signatures.
    - [Randomness] ([crypto/src/randomness.rs]): the prototype DVRF and the
      verification of the secp256k1 engine.
    - [Registry] ([crypto/src/participant_registry.rs]): admission of
      participants across epochs.
    - [Dctls] ([attestation/src/dctls.rs], [engine.rs]): handshake, query and
      response proofs and their consistency checks.
    - [DxDctls] ([attestation/src/deco_dx_dctls.rs], [distefano_dx_dctls.rs]):
      the two full protocols, for TLS 1.2 and 1.3.
    - [TlsEngine] ([attestation/src/tls_engine.rs], [tls_2pc.rs],
      [zk_backend.rs], [tls12_session.rs]): engines on live connections.
    - [Verify] ([attestation/src/verify.rs], [node/src/auxiliary.rs]): the checks
      of an auxiliary verifier before it signs.
    - [OnChain] ([attestation/src/onchain.rs], [onchain_secp256k1.rs]): the two
      attestation formats for contracts and their verification.

    Threshold signatures and keys
    - [Frost], [FrostKeys] ([crypto/src/frost_adapter.rs], [dvrf.rs]): the FROST
      adapter, the DVRF built on it, the dealer and the exported key material.
    - [Dkg], [DkgNode] ([crypto/src/dkg.rs], [dkg_announce.rs], [dkg_encrypt.rs],
      [node/src/dkg_node.rs]): the parts of key generation, the state machine of
      a participant and the ceremonies; [DkgCeremony] and [DkgHonest] hold their
      simulations and the completion of honest runs.
    - [Secp], [SecpDkg] ([crypto/src/frost_secp256k1_adapter.rs],
      [dkg_secp256k1.rs], [dvrf_secp256k1.rs]): the same over secp256k1.
    - [RcPhase] ([attestation/src/rc_phase.rs]): randomness creation on top.

    Nodes and their communication
    - [Network] ([network/src/]): framing, signed envelopes, the in-memory
      transport, and the messages of the FROST protocols.
    - [Wire] ([network/src/messages.rs], [codec.rs], [signed_envelope.rs]): the
      JSON form of those messages, an instance of the interface [SerdeJson]
      Network and its clients are built on.
    - [Mtls] ([network/src/mtls.rs]): cluster certificates and configurations.
    - [FrostAux] ([node/src/frost_aux.rs]): the auxiliary node with its nonce
      caches; its calls interleave at the critical sections of its mutexes.
    - [Coordinator] ([node/src/coordinator.rs], [transport.rs]): preparation of a
      session and every attestation protocol, against the class of transports.
    - [NodeTransport] ([node/src/transport.rs], [auth.rs],
      [handshake_binding.rs]): the plain, signed and mutual-TLS transports, the
      handlers of the servers, the handshake-binding protocol.
    - [AuxServer] ([node/src/transport.rs]): start, accept loop and shutdown of
      the servers as concurrent steps.
    - [FrostRun]: completion of honest runs, from the shares of the dealer through
      adapter, nodes and transports to the envelope of the coordinator.
    - [Ceremony] ([node/src/bin/dkg_ceremony.rs], [aux_node.rs]), [Http] and
      [CoordinatorMain] ([node/src/bin/coordinator.rs]): the processes, from
      their configuration files to the answered request.
    - [Deployment]: their composition, from the key ceremony over nodes behind TCP
      servers to the coordinator's answer with a verifying envelope.
    - [Requests]: the accept loop of the coordinator and the interleavings of its
      threads.

    Proofs
    - [Sha256Gadget], [HmacGadget] ([zk/src/sha256_gadget.rs],
      [hmac_sha256_gadget.rs], [tls12_hmac.rs]): SHA-256, HMAC and TLS-PRF as
      circuits and natively, against FIPS 180-4, RFC 2104 and RFC 5246, which
      the modules [Fips] and [Rfc] state independently of the code.
    - [CoSnark] ([zk/src/tls_prf_circuit.rs], [co_snark.rs], [co_snark_split.rs],
      [mimc.rs]): packing into the scalar field of BN254, the circuits, proof
      generation and verification, the two-party variant, the backends.
    - [ZkBackends] ([zk/src/circuit.rs], [backend.rs], [tls_session_binding.rs]):
      the Groth16 backend of handshake proofs and the binding of record MACs.
    - [VkExport] ([zk/src/vk_export.rs]): verifying keys for the contracts.
    - [ProverCircuits], [ProverProcess] ([co-snark-prover/src/]): the circuits,
      messages and modes of the prover process; [ProverClient]
      ([zk/src/co_snark_distributed.rs]) its clients; [ProverMpc] the composition
      of client, coordinator and party.
    - [Pipeline] ([bench/src/bin/bench_full_pipeline.rs]): all phases over
      secp256k1 as one run, with each of its executors.
    - [Harness] ([testing/src/fixtures.rs], [node/src/bin/gen_test_vectors.rs]):
      the deterministic wiring of coordinator and nodes, and a Schnorr signature
      for the tests of the contract.
    - [MpcGroth] ([co-snark-prover/src/mpc_groth/]): witness map and Groth16
      prover over an arbitrary field, in MathComp.

    ** How the code is modelled

    A fallible function returns [result E A]; a method that changes state
    through [&self] is a [stres S E A], a function from the state to the new
    state and a result, so that the state left behind by an error is explicit.
    Panics and exits are error values of their own where the code can reach
    them. Integers are [uint w], integers below [2 ^ w], with wrapping,
    saturating and truncating operations written out; lengths converted with
    [as u64] or [as u32] are reduced accordingly. Hash maps are finite maps; the
    two tables of the SQLite store are maps with their key constraints. Hashes
    are computed over the exact bytes the code absorbs, so binding theorems
    conclude with equality of the fields or a SHA-256 collision between two named
    inputs. Concurrency is a step relation with its reachable states (the critical
    sections of a node, the threads of a server) or a sequence of events that
    interleaves programs (the requests to the coordinator) or critical sections (the
    in-memory store). Operations on circuit variables are functions of the values
    their constraints force. The TLS-PRF circuit of [CoSnark], which allocates the
    randoms twice, is synthesized under an assignment of values to its allocations
    ([synth]); the others under the values of their fields.

    Code outside the repository is a class: [Sha256] (crate sha2), [HmacSha256],
    [Ed25519], [FrostEd25519] with [FrostDkg], [FrostDealer] and
    [FrostSigning], [FrostSecp256k1], [DkgCipher], [Groth16], [Snark], [Groth377], [X25519],
    [ArkBits] (bit and byte variables of ark-r1cs-std), [Dalek], [K256] with
    [K256Arithmetic], [Keccak256], [Rcgen], [Rustls], [Base64], [SerdeJson], [SerdeText],
    [FileSystem], and for the MathComp file [EvaluationDomain] and [ArkOps].
    Their laws are documented behaviour: signatures made verify, aggregated FROST
    signatures verify, honest key generation yields one group key, serialization
    is inverted, Diffie-Hellman agrees, Groth16 is complete, a certificate chain
    leads to a trust anchor. The theorems that need sha2 to be FIPS 180-4 and
    hmac to be RFC 2104 say so as hypotheses. Clocks, random generators, sockets
    and fresh identifiers are arguments. Every theorem listed with a hypothesis
    has a witness that applies it to concrete values with concrete instances of
    the classes.

    ** What the theorems show

    - Sessions and stores: methods refine the state machine, Finalized is reached
      only through all phases, no sequence of calls changes a session more than four
      times; both stores implement one contract, so that they are observationally
      equivalent and give replay protection to every client, for identifiers that are
      not removed, in memory also for interleaved calls, but for the approvals of a
      session that ends between check and recording.
    - Digests: canonical hashing is unambiguous; session, transcript, package and
      evidence digests bind their fields up to collisions, also those of the DECO and
      Distefano proofs; what the envelope digest binds is characterized exactly.
    - Approvals: aggregated approvals come from distinct eligible signers with
      valid signatures; FROST approvals verify and are bound to their envelope;
      both formats for contracts decode what they encode.
    - Registry: epochs grow; a removed participant is refused until its key is
      rotated.
    - Key generation: successful calls on a node follow the protocol, and what a
      failing call leaves behind is determined; encrypted,
      authenticated and networked ceremonies have the outcome of the plain one;
      honest ceremonies complete with one group key, over both curves.
    - Auxiliary nodes: what is checked before a commitment is given out, and
      that in every interleaving the nonces of a round are used once, for the
      signers and the message agreed on.
    - Coordinator: success means a verifying envelope and exactly one finalized
      session, failure leaves other sessions alone, honest runs succeed (with
      prototype signers, and with the shares of a dealer over any transport), and
      a registry gates signing. These are proved for every store that implements
      the contract, by simulation against the abstract store.
    - Communication: calls over every transport have the effect of calls in the
      process; the signed server acts only on fresh envelopes of registered
      senders; nodes of a cluster accept exactly certificates of their authority;
      a server stops when told to; messages are read in every JSON form serde
      admits.
    - Processes: a key ceremony deploys a group that comes up, every request to
      the coordinator gets one response and the outcome of an attestation, and a
      deployed group of honest nodes answers requests with verifying envelopes;
      concurrent requests have the outcomes they would have alone;
      the pipeline from key generation to the encoding for the contract completes
      with results that verify.
    - Circuits: the SHA-256, HMAC and PRF circuits compute the standards; the
      assignments that satisfy the TLS-PRF circuit are characterized, those of the
      prover and any others, in which the two stages of the PRF may use different
      randoms; proofs of honest executions verify, in both modes and split.
    - Prover: one response per request line, both clients agree, two-party
      proving proves the relation of the circuit; the witness map computes the
      quotient polynomial and the Groth16 prover is complete.
    - Theorems about undesired behaviour (a signature counted twice, races of
      two critical sections, exchangeable MAC keys, evidence of another session)
      state what the code does; they are the evidence for reported findings.

    ** Fuel and bounds

    Loops are structural, with these exceptions: padding is bounded by the 64
    residues of a length; the PRF loops by the requested number of bytes, since
    each iteration appends 32; [trim_loop] by the length of the text, of which
    each step removes a character; the loops reading an HTTP request by the size
    of the buffer and by the data that arrives. In each of these a theorem gives
    the complete result, so the fuel is enough. [rerandomize_proof] redraws zero
    factors for a given number of rounds, and its theorem gives a result for
    every number that reaches the first usable draw.
    [vec_fits] is the bound of [2 ^ 63] bytes Rust puts on a vector.

    ** What is not modelled

    The programs that time single parts ([bench/], but for the pipeline) and the
    tests, which only call what is modelled; five message types no code uses; the
    contracts, which are not
    Rust, and the submodule of collaborative proofs, which is not part of the
    sources. Log output, the simulated latency of the prover and the heartbeat of
    a node have no effect on results and are left out. A circuit is modelled by
    the values its variables must take, not by its constraint matrices; panics inside
    the external provers are not represented;
    soundness and zero knowledge of Groth16 and hiding of commitments are not
    stated; unforgeability appears only as a hypothesis where a theorem says so. *)

From Stdlib Require Import StrictProp ZArith Lia Ascii.
From stdpp Require Export base numbers gmap list strings pretty sorting.

#[export] Set Default Proof Using "Type".
Open Scope Z_scope.

(** ** Fallible computations: Rust's [Result] *)

Inductive result (E A : Type) : Type :=
  | Ok (a : A)
  | Err (e : E).
Arguments Ok {E A} a.
Arguments Err {E A} e.

#[export] Instance result_ret E : MRet (result E) := fun A a => Ok a.
#[export] Instance result_bind E : MBind (result E) :=
  fun A B f m => match m with Ok a => f a | Err e => Err e end.
#[export] Instance result_fmap E : FMap (result E) :=
  fun A B f m => match m with Ok a => Ok (f a) | Err e => Err e end.

#[export] Instance result_eq_dec E A `{EqDecision E, EqDecision A} : EqDecision (result E A).
Proof. solve_decision. Defined.

(** [opt.ok_or(e)] *)
Definition ok_or {E A} (e : E) (o : option A) : result E A :=
  match o with Some a => Ok a | None => Err e end.

(** [r.map_err(f)] *)
Definition map_err {E F A} (f : E -> F) (r : result E A) : result F A :=
  match r with Ok a => Ok a | Err e => Err (f e) end.

(** [if !b { return Err(e) }] *)
Definition ensure {E} (e : E) (b : bool) : result E unit :=
  if b then Ok tt else Err e.

(** Where the code can panic ([expect], an index out of range), the error side
    says which of the two happened. *)
Inductive failure (E : Type) : Type :=
  | Fails (e : E)
  | Panics (msg : string).
Arguments Fails {E} e.
Arguments Panics {E} msg.

(** [r?] in a computation that can panic. *)
Definition fails {E A} (r : result E A) : result (failure E) A :=
  match r with Ok a => Ok a | Err e => Err (Fails e) end.

Definition is_ok {E A} (r : result E A) : bool :=
  match r with Ok _ => true | Err _ => false end.

(** [iter.map(f).collect::<Result<Vec<_>, _>>()] : stops at the first error. *)
Fixpoint try_map {E A B} (f : A -> result E B) (l : list A) : result E (list B) :=
  match l with
  | [] => Ok []
  | x :: l' => y ← f x; ys ← try_map f l'; Ok (y :: ys)
  end.

(** [for x in l { acc = f(acc, x)?; }] *)
Fixpoint try_fold {E A B} (f : B -> A -> result E B) (acc : B) (l : list A) : result E B :=
  match l with
  | [] => Ok acc
  | x :: l' => acc' ← f acc x; try_fold f acc' l'
  end.

(** [r.unwrap_or(d)] *)
Definition unwrap_or {E A} (d : A) (r : result E A) : A :=
  match r with Ok a => a | Err _ => d end.

Lemma is_ok_exists {E A} (r : result E A) : is_ok r = true -> exists a, r = Ok a.
Proof. destruct r; [by eexists | done]. Qed.
Lemma is_ok_unwrap {E A} (d : A) (r : result E A) : is_ok r = true -> r = Ok (unwrap_or d r).
Proof. by destruct r. Qed.

Section result_lemmas.
Context {E : Type}.

Lemma bind_Ok {A B} (m : result E A) (f : A -> result E B) b :
  m ≫= f = Ok b <-> exists a, m = Ok a /\ f a = Ok b.
Proof. destruct m; simpl; split; [eauto | by intros (? & [= <-] & ?) | done | by intros (? & ? & ?)]. Qed.

Lemma bind_Err {A B} (m : result E A) (f : A -> result E B) e :
  m ≫= f = Err e <-> m = Err e \/ exists a, m = Ok a /\ f a = Err e.
Proof. destruct m; simpl; naive_solver. Qed.

Lemma ensure_Ok (e : E) b u : ensure e b = Ok u <-> b = true.
Proof. destruct b, u; simpl; naive_solver. Qed.

Lemma ok_or_Ok {A} (e : E) (o : option A) a : ok_or e o = Ok a <-> o = Some a.
Proof. destruct o; simpl; naive_solver. Qed.

Lemma map_err_Ok {F A} (f : E -> F) (r : result E A) a : map_err f r = Ok a <-> r = Ok a.
Proof. destruct r; simpl; naive_solver. Qed.

Lemma fails_Ok {A} (r : result E A) a : fails r = Ok a <-> r = Ok a.
Proof. destruct r; simpl; naive_solver. Qed.

Lemma try_map_Ok {A B} (f : A -> result E B) l ys :
  try_map f l = Ok ys <-> Forall2 (fun x y => f x = Ok y) l ys.
Proof.
  revert ys; induction l as [|x l IH]; intros ys; simpl.
  - split; [intros [= <-]; constructor | inversion 1; done].
  - rewrite bind_Ok; setoid_rewrite bind_Ok; split.
    + intros (y & Hy & ys' & Hys & [= <-]); constructor; [done | by apply IH].
    + inversion 1 as [|?????? H2]; subst. eexists; split; [done|].
      eexists; split; [by apply IH | done].
Qed.

Lemma try_map_length {A B} (f : A -> result E B) l ys :
  try_map f l = Ok ys -> length ys = length l.
Proof. intros H%try_map_Ok. symmetry. by eapply Forall2_length. Qed.

Lemma try_fold_app {A B} (f : B -> A -> result E B) acc l1 l2 :
  try_fold f acc (l1 ++ l2) = (acc' ← try_fold f acc l1; try_fold f acc' l2).
Proof.
  revert acc; induction l1 as [|x l1 IH]; intros acc; simpl; [done|].
  destruct (f acc x); simpl; auto.
Qed.

(** Invariant rule for [for] loops that may return early. *)
Lemma try_fold_inv {A B} (P : B -> Prop) (f : B -> A -> result E B) l acc b :
  P acc ->
  (forall acc x acc', x ∈ l -> P acc -> f acc x = Ok acc' -> P acc') ->
  try_fold f acc l = Ok b -> P b.
Proof.
  revert acc; induction l as [|x l IH]; intros acc H0 Hstep; simpl.
  - by intros [= <-].
  - intros (acc' & Hf & Hrest)%bind_Ok. eapply IH; [| |done].
    + eapply Hstep; [by constructor | done..].
    + intros; eapply Hstep; [by constructor | done..].
Qed.
End result_lemmas.

Lemma filter_id {A} (P : A -> Prop) `{!forall x, Decision (P x)} (l : list A) :
  (forall x, x ∈ l -> P x) -> filter P l = l.
Proof.
  induction l as [|x l IH]; intros HP; [done|].
  rewrite filter_cons_True by (apply HP; by constructor).
  f_equal. apply IH. intros y Hy. apply HP. by constructor.
Qed.

(** ** Collecting a sequence of entries into a map, later ones replacing earlier ones *)

Section foldl_insert.
Context {K A : Type} `{Countable K}.
Implicit Types (l : list (K * A)) (m : gmap K A).

Lemma foldl_insert_lookup l m k :
  k ∉ l.*1 -> foldl (fun m p => <[p.1 := p.2]> m) m l !! k = m !! k.
Proof.
  revert m. induction l as [|[j a] l IH]; intros m; csimpl; [done|]. rewrite not_elem_of_cons. intros [Hj Hk].
  rewrite IH by done. cbn [fst snd]. by rewrite lookup_insert_ne.
Qed.

Lemma foldl_insert_elem l m k a :
  NoDup l.*1 -> (k, a) ∈ l -> foldl (fun m p => <[p.1 := p.2]> m) m l !! k = Some a.
Proof.
  revert m. induction l as [|[j b] l IH]; intros m; csimpl; [by intros _ ?%elem_of_nil|].
  rewrite NoDup_cons. intros [Hj Hnd]. rewrite elem_of_cons. intros [[= -> ->]|Hin]; [|by apply IH].
  rewrite foldl_insert_lookup by done. apply lookup_insert_eq.
Qed.

Lemma foldl_insert_map m : foldl (fun m p => <[p.1 := p.2]> m) ∅ (map_to_list m) = m.
Proof.
  apply map_eq. intros k. destruct (m !! k) as [a|] eqn:Hk.
  - apply foldl_insert_elem; [apply NoDup_fst_map_to_list | by apply elem_of_map_to_list].
  - rewrite foldl_insert_lookup; [apply lookup_empty|].
    intros ([j a] & -> & Hin%elem_of_map_to_list)%list_elem_of_fmap. cbn [fst] in Hk. by rewrite Hk in Hin.
Qed.
(** Entries computed from the elements of a list. *)
Lemma foldl_insert_of {B} (f : B -> K) (g : B -> A) (l : list B) m :
  foldl (fun m b => <[f b := g b]> m) m l = foldl (fun m p => <[p.1 := p.2]> m) m ((fun b => (f b, g b)) <$> l).
Proof. revert m. induction l as [|b l IH]; intros m; [done|]. apply IH. Qed.

Lemma foldl_insert_of_lookup {B} (f : B -> K) (g : B -> A) (l : list B) b :
  NoDup (f <$> l) -> b ∈ l -> (foldl (fun m b => <[f b := g b]> m) ∅ l : gmap K A) !! f b = Some (g b).
Proof.
  intros Hnd Hb. rewrite foldl_insert_of. apply foldl_insert_elem.
  - by rewrite <- list_fmap_compose.
  - apply list_elem_of_fmap. by exists b.
Qed.

Lemma foldl_insert_of_dom {B} (f : B -> K) (g : B -> A) (l : list B) m :
  dom (foldl (fun m b => <[f b := g b]> m) m l) = dom m ∪ list_to_set (f <$> l).
Proof. revert m. induction l as [|b l IH]; intros m; csimpl; [set_solver|]. rewrite IH. set_solver. Qed.
End foldl_insert.

(** Decompose a successful run into the successes of its steps. *)
Ltac inv_ok :=
  repeat match goal with
  | H : Ok _ = Ok _ |- _ => injection H as H; try subst
  | H : Err _ = Ok _ |- _ => discriminate H
  | H : Ok _ = Err _ |- _ => discriminate H
  | H : mbind _ _ = Ok _ |- _ =>
      let a := fresh "a" in let H1 := fresh "Hok" in let H2 := fresh "Hok" in
      apply bind_Ok in H as (a & H1 & H2)
  | H : ensure _ _ = Ok _ |- _ => apply ensure_Ok in H
  | H : ok_or _ _ = Ok _ |- _ => apply ok_or_Ok in H
  | H : map_err _ _ = Ok _ |- _ => apply map_err_Ok in H
  | H : fails _ = Ok _ |- _ => apply fails_Ok in H
  end.

(** ** Stateful fallible computations: methods taking [&self] with interior
    mutability. The state survives an [Err], as it does in the code. *)

Definition stres (S E A : Type) : Type := S -> S * result E A.

Section stres.
Context {S E : Type}.
Definition sret {A} (a : A) : stres S E A := fun s => (s, Ok a).
Definition serr {A} (e : E) : stres S E A := fun s => (s, Err e).
Definition sbind {A B} (m : stres S E A) (f : A -> stres S E B) : stres S E B :=
  fun s => match m s with
           | (s', Ok a) => f a s'
           | (s', Err e) => (s', Err e)
           end.
Definition slift {A} (r : result E A) : stres S E A := fun s => (s, r).

Definition smap_err {F A} (f : F -> E) (m : stres S F A) : stres S E A :=
  fun s => let '(s', r) := m s in (s', map_err f r).

(** [for x in l { f(x)?; }] *)
Fixpoint sfor {A} (l : list A) (f : A -> stres S E unit) : stres S E unit :=
  match l with
  | [] => sret tt
  | x :: l' => sbind (f x) (fun _ => sfor l' f)
  end.

Lemma sbind_Ok {A B} (m : stres S E A) (f : A -> stres S E B) s s' b :
  sbind m f s = (s', Ok b) <-> exists s1 a, m s = (s1, Ok a) /\ f a s1 = (s', Ok b).
Proof. unfold sbind. destruct (m s) as [s1 []]; naive_solver. Qed.

Lemma run_ok_unwrap {A} (d : A) (r : S * result E A) : is_ok r.2 = true -> r = (r.1, Ok (unwrap_or d r.2)).
Proof. destruct r as [s []]; [done|]. by intros [=]. Qed.
Lemma slift_Ok {A} (r : result E A) s s' a :
  slift r s = (s', Ok a) <-> s' = s /\ r = Ok a.
Proof. unfold slift. naive_solver. Qed.
End stres.
Arguments stres : clear implicits.

Declare Scope stres_scope.
Delimit Scope stres_scope with stres.
Notation "x <-- m ;; k" := (sbind m (fun x => k))
  (at level 60, m at next level, right associativity) : stres_scope.
Notation "m ;;; k" := (sbind m (fun _ => k))
  (at level 60, right associativity) : stres_scope.

(** ** Machine integers and fixed-size arrays *)

(** A boolean side condition carried by a value without affecting its equality:
    the width of an integer and the length of an array are part of the Rust type. *)
Definition SIs_true (b : bool) : SProp := if b then sUnit else sEmpty.

Definition SIs_true_intro (b : bool) : b = true -> SIs_true b :=
  match b with
  | true => fun _ => stt
  | false => fun H => match diff_false_true H with end
  end.

Lemma SIs_true_elim b : SIs_true b -> b = true.
Proof. destruct b; simpl; [done | intros []]. Qed.

Definition in_range (w : positive) (z : Z) : bool := (0 <=? z) && (z <? 2 ^ Z.pos w).

Record uint (w : positive) := MkU { uval : Z; uval_ok : SIs_true (in_range w uval) }.
Arguments MkU {w} uval uval_ok.
Arguments uval {w} u.

Abbreviation u8 := (uint 8).
Abbreviation u16 := (uint 16).
Abbreviation u32 := (uint 32).
Abbreviation u64 := (uint 64).
(** [usize] on the 64-bit targets the crates are built for. *)
Abbreviation usize := (uint 64) (only parsing).

Lemma uint_eq {w} (a b : uint w) : uval a = uval b -> a = b.
Proof. destruct a, b; simpl. by intros ->. Qed.

Lemma uval_range {w} (a : uint w) : 0 <= uval a < 2 ^ Z.pos w.
Proof. destruct a as [z Hz]; simpl. apply SIs_true_elim in Hz. unfold in_range in Hz. lia. Qed.

Lemma in_range_mod w z : in_range w (z mod 2 ^ Z.pos w) = true.
Proof. unfold in_range. pose proof (Z.mod_pos_bound z (2 ^ Z.pos w)). lia. Qed.

(** [z as uN] : truncation to the width. *)
Definition u_of_Z (w : positive) (z : Z) : uint w :=
  MkU (z mod 2 ^ Z.pos w) (SIs_true_intro _ (in_range_mod w z)).

Lemma uval_of_Z w z : uval (u_of_Z w z) = z mod 2 ^ Z.pos w.
Proof. done. Qed.

Lemma uval_of_Z_small w z : 0 <= z < 2 ^ Z.pos w -> uval (u_of_Z w z) = z.
Proof. intros. rewrite uval_of_Z. by apply Z.mod_small. Qed.

Lemma u_of_Z_uval {w} (a : uint w) : u_of_Z w (uval a) = a.
Proof. apply uint_eq, uval_of_Z_small, uval_range. Qed.

(** Widening casts of 16-bit integers ([as u64]) lose nothing. *)
Lemma u16_as_u64_inj (a b : uint 16) : u_of_Z 64 (uval a) = u_of_Z 64 (uval b) -> a = b.
Proof.
  intros Hab%(f_equal uval). apply uint_eq. pose proof (uval_range a). pose proof (uval_range b).
  rewrite !uval_of_Z_small in Hab by lia. done.
Qed.

#[export] Instance uint_eq_dec w : EqDecision (uint w).
Proof.
  refine (fun a b => cast_if (decide (uval a = uval b))).
  - by apply uint_eq.
  - abstract congruence.
Defined.
#[export] Instance uint_countable w : Countable (uint w) :=
  inj_countable' uval (u_of_Z w) u_of_Z_uval.
#[export] Instance uint_inhabited w : Inhabited (uint w) := populate (u_of_Z w 0).

Section uint_ops.
Context {w : positive}.
Definition u_eqb (a b : uint w) : bool := uval a =? uval b.
Definition u_ltb (a b : uint w) : bool := uval a <? uval b.
Definition u_leb (a b : uint w) : bool := uval a <=? uval b.
Definition u_max : Z := 2 ^ Z.pos w - 1.
Definition u_min (a b : uint w) : uint w := if u_leb a b then a else b.
(** [a + b] in a release build: wraps around (the workspace's release profile
    does not enable overflow checks). *)
Definition u_add (a b : uint w) : uint w := u_of_Z w (uval a + uval b).
Definition u_saturating_add (a b : uint w) : uint w := u_of_Z w (Z.min (uval a + uval b) u_max).
Definition u_saturating_sub (a b : uint w) : uint w := u_of_Z w (Z.max (uval a - uval b) 0).

Lemma uval_saturating_sub a b : uval (u_saturating_sub a b) = Z.max (uval a - uval b) 0.
Proof. apply uval_of_Z_small. pose proof (uval_range a). pose proof (uval_range b). lia. Qed.

Lemma uval_saturating_add a b :
  uval (u_saturating_add a b) = Z.min (uval a + uval b) u_max.
Proof.
  apply uval_of_Z_small. unfold u_max. pose proof (uval_range a). pose proof (uval_range b). lia.
Qed.

Lemma uval_min a b : uval (u_min a b) = Z.min (uval a) (uval b).
Proof. unfold u_min, u_leb. destruct (Z.leb_spec (uval a) (uval b)); lia. Qed.

Lemma u_eqb_eq a b : u_eqb a b = true <-> a = b.
Proof. unfold u_eqb. rewrite Z.eqb_eq. split; [apply uint_eq | congruence]. Qed.
End uint_ops.

(** [Vec::len] as a machine integer. *)
Definition len64 {A} (l : list A) : u64 := u_of_Z 64 (Z.of_nat (length l)).

(** No Rust allocation exceeds [isize::MAX] bytes, so every [Vec] fits. *)
Definition vec_fits {A} (l : list A) : Prop := Z.of_nat (length l) < 2 ^ 63.

Lemma uval_len64 {A} (l : list A) : vec_fits l -> uval (len64 l) = Z.of_nat (length l).
Proof. intros H. apply uval_of_Z_small. unfold vec_fits in H. lia. Qed.

Lemma len64_inj {A} (l k : list A) :
  vec_fits l -> vec_fits k -> len64 l = len64 k -> length l = length k.
Proof. intros Hl Hk Heq%(f_equal uval). rewrite !uval_len64 in Heq by done. lia. Qed.

(** ** Bytes *)

Abbreviation bytes := (list u8).
Definition byte (z : Z) : u8 := u_of_Z 8 z.

(** [v.to_be_bytes()] for an [n]-byte integer. *)
Fixpoint be_bytes (n : nat) (z : Z) : bytes :=
  match n with
  | O => []
  | S m => byte (z / 256 ^ Z.of_nat m) :: be_bytes m z
  end.

(** [uN::from_be_bytes]. *)
Definition be_val (l : bytes) : Z := fold_left (fun acc b => acc * 256 + uval b) l 0.

Lemma length_be_bytes n z : length (be_bytes n z) = n.
Proof. induction n; simpl; congruence. Qed.

Lemma be_val_acc l acc :
  fold_left (fun acc b => acc * 256 + uval b) l acc = acc * 256 ^ Z.of_nat (length l) + be_val l.
Proof.
  unfold be_val. revert acc; induction l as [|b l IH]; intros acc; simpl length; cbn [fold_left].
  - cbn. lia.
  - rewrite IH, (IH (0 * 256 + _)), Nat2Z.inj_succ, Z.pow_succ_r by lia. lia.
Qed.

Lemma be_val_cons b l : be_val (b :: l) = uval b * 256 ^ Z.of_nat (length l) + be_val l.
Proof. unfold be_val at 1. cbn [fold_left]. rewrite be_val_acc. lia. Qed.

Lemma be_val_be_bytes n z : be_val (be_bytes n z) = z mod 256 ^ Z.of_nat n.
Proof.
  induction n as [|n IH]; [by rewrite Z.mod_1_r|].
  cbn [be_bytes]. rewrite be_val_cons, length_be_bytes, IH. unfold byte.
  rewrite uval_of_Z, Nat2Z.inj_succ, Z.pow_succ_r by lia.
  change (2 ^ 8) with 256. rewrite (Z.mul_comm 256).
  rewrite Z.rem_mul_r by lia. lia.
Qed.

Lemma be_val_range l : 0 <= be_val l < 256 ^ Z.of_nat (length l).
Proof.
  induction l as [|b l IH]; [cbn; lia|].
  rewrite be_val_cons. simpl length. rewrite Nat2Z.inj_succ, Z.pow_succ_r by lia.
  pose proof (uval_range b). change (2 ^ 8) with 256 in *. nia.
Qed.

Lemma be_bytes_inj n a b :
  0 <= a < 256 ^ Z.of_nat n -> 0 <= b < 256 ^ Z.of_nat n -> be_bytes n a = be_bytes n b -> a = b.
Proof.
  intros Ha Hb Heq%(f_equal be_val). rewrite !be_val_be_bytes in Heq.
  by rewrite !Z.mod_small in Heq.
Qed.

Definition u64_be (v : u64) : bytes := be_bytes 8 (uval v).
Definition u32_be (v : u32) : bytes := be_bytes 4 (uval v).

Lemma u64_be_inj a b : u64_be a = u64_be b -> a = b.
Proof.
  intros H. apply uint_eq, (be_bytes_inj 8);
    [exact (uval_range a) | exact (uval_range b) | exact H].
Qed.
Lemma u32_be_inj a b : u32_be a = u32_be b -> a = b.
Proof.
  intros H. apply uint_eq, (be_bytes_inj 4);
    [exact (uval_range a) | exact (uval_range b) | exact H].
Qed.
Lemma length_u64_be v : length (u64_be v) = 8%nat.
Proof. apply length_be_bytes. Qed.
Lemma length_u32_be v : length (u32_be v) = 4%nat.
Proof. apply length_be_bytes. Qed.

(** [u8] exclusive or. *)
Definition u8_xor (a b : u8) : u8 := byte (Z.lxor (uval a) (uval b)).

Lemma lxor_range (n a b : Z) :
  0 <= n -> 0 <= a < 2 ^ n -> 0 <= b < 2 ^ n -> 0 <= Z.lxor a b < 2 ^ n.
Proof.
  intros Hn Ha Hb. assert (H0 : 0 <= Z.lxor a b) by (apply Z.lxor_nonneg; lia).
  split; [done|]. destruct (decide (Z.lxor a b = 0)) as [->|Hne]; [lia|].
  apply Z.log2_lt_pow2; [lia|].
  pose proof (Z.log2_lxor a b ltac:(lia) ltac:(lia)) as Hl.
  assert (Hlog : forall c, 0 <= c < 2 ^ n -> Z.log2 c < n \/ c = 0).
  { intros c Hc. destruct (decide (c = 0)); [by right|left]. apply Z.log2_lt_pow2; lia. }
  destruct (Hlog a Ha) as [?| ->], (Hlog b Hb) as [?| ->];
    rewrite ?Z.lxor_0_l, ?Z.lxor_0_r in *; lia.
Qed.

Lemma uval_xor a b : uval (u8_xor a b) = Z.lxor (uval a) (uval b).
Proof. apply uval_of_Z_small, lxor_range; [lia | apply (uval_range a) | apply (uval_range b)]. Qed.

#[export] Instance u8_xor_comm : Comm (=) u8_xor.
Proof. intros a b. apply uint_eq. rewrite !uval_xor. apply Z.lxor_comm. Qed.
#[export] Instance u8_xor_assoc : Assoc (=) u8_xor.
Proof. intros a b c. apply uint_eq. rewrite !uval_xor. symmetry. apply Z.lxor_assoc. Qed.
Lemma u8_xor_diag a : u8_xor a a = byte 0.
Proof. apply uint_eq. by rewrite uval_xor, Z.lxor_nilpotent. Qed.
Lemma u8_xor_0_l a : u8_xor (byte 0) a = a.
Proof. apply uint_eq. rewrite uval_xor. apply Z.lxor_0_l. Qed.
Lemma u8_xor_0_r a : u8_xor a (byte 0) = a.
Proof. rewrite (comm u8_xor). apply u8_xor_0_l. Qed.

(** Fixed-size byte arrays [[u8; n]]. *)
Record array (n : nat) := MkArr { arr : bytes; arr_ok : SIs_true (length arr =? n)%nat }.
Arguments MkArr {n} arr arr_ok.
Arguments arr {n} a.

Lemma array_eq {n} (a b : array n) : arr a = arr b -> a = b.
Proof. destruct a, b; simpl. by intros ->. Qed.

Lemma length_arr {n} (a : array n) : length (arr a) = n.
Proof. destruct a as [l Hl]; simpl. apply SIs_true_elim in Hl. by apply Nat.eqb_eq. Qed.

Lemma length_pad n (l : bytes) : (length (take n (l ++ replicate n (byte 0))) =? n)%nat = true.
Proof. apply Nat.eqb_eq. rewrite length_take, length_app, length_replicate. lia. Qed.

(** Copy of [l] into an [n]-byte array: the identity on [n]-byte slices; shorter
    ones are completed with zeros, longer ones cut. *)
Definition to_array (n : nat) (l : bytes) : array n :=
  MkArr (take n (l ++ replicate n (byte 0))) (SIs_true_intro _ (length_pad n l)).

Lemma arr_to_array n l : length l = n -> arr (to_array n l) = l.
Proof. intros <-. simpl. by rewrite take_app_length. Qed.

Lemma to_array_arr {n} (a : array n) : to_array n (arr a) = a.
Proof. apply array_eq, arr_to_array, length_arr. Qed.

(** [slice.try_into::<[u8; n]>()] *)
Definition try_into (n : nat) (l : bytes) : option (array n) :=
  if (length l =? n)%nat then Some (to_array n l) else None.

Lemma try_into_arr {n} (a : array n) : try_into n (arr a) = Some a.
Proof. unfold try_into. by rewrite length_arr, Nat.eqb_refl, to_array_arr. Qed.

Lemma try_into_Some n l a : try_into n l = Some a <-> l = arr a.
Proof.
  split; [|intros ->; apply try_into_arr]. unfold try_into.
  destruct (Nat.eqb_spec (length l) n); [|done]. intros [= <-]. by rewrite arr_to_array.
Qed.

#[export] Instance array_eq_dec n : EqDecision (array n).
Proof.
  refine (fun a b => cast_if (decide (arr a = arr b))).
  - by apply array_eq.
  - abstract congruence.
Defined.
#[export] Instance array_countable n : Countable (array n) :=
  inj_countable' arr (to_array n) to_array_arr.
#[export] Instance array_inhabited n : Inhabited (array n) := populate (to_array n []).

(** [[b; n]] *)
Definition array_repeat (n : nat) (b : u8) : array n := to_array n (replicate n b).

(** Pointwise exclusive or of two arrays, [for i in 0..n { r[i] = a[i] ^ b[i] }]. *)
Definition arr_xor {n} (a b : array n) : array n := to_array n (zip_with u8_xor (arr a) (arr b)).

Lemma arr_arr_xor {n} (a b : array n) : arr (arr_xor a b) = zip_with u8_xor (arr a) (arr b).
Proof. apply arr_to_array. rewrite length_zip_with, !length_arr. lia. Qed.

Lemma arr_repeat n b : arr (array_repeat n b) = replicate n b.
Proof. apply arr_to_array, length_replicate. Qed.

#[export] Instance arr_xor_comm n : Comm (=) (@arr_xor n).
Proof.
  intros a b. apply array_eq. rewrite !arr_arr_xor.
  generalize (arr a) (arr b). intros l; induction l as [|x l IH]; intros [|y k]; simpl; try done.
  rewrite (comm u8_xor x y). f_equal. apply IH.
Qed.

#[export] Instance arr_xor_assoc n : Assoc (=) (@arr_xor n).
Proof.
  intros a b c. apply array_eq. rewrite !arr_arr_xor.
  generalize (arr a) (arr b) (arr c).
  intros l; induction l as [|x l IH]; intros [|y k] [|z m]; simpl; try done.
  rewrite (assoc u8_xor). f_equal. apply IH.
Qed.

Lemma arr_xor_diag {n} (a : array n) : arr_xor a a = array_repeat n (byte 0).
Proof.
  apply array_eq. rewrite arr_arr_xor, arr_repeat.
  replace (replicate n (byte 0)) with (replicate (length (arr a)) (byte 0)) by (by rewrite length_arr).
  induction (arr a) as [|x l IH]; simpl; [done|]. by rewrite u8_xor_diag, IH.
Qed.

Lemma arr_xor_0_l {n} (a : array n) : arr_xor (array_repeat n (byte 0)) a = a.
Proof.
  apply array_eq. rewrite arr_arr_xor, arr_repeat.
  replace (replicate n (byte 0)) with (replicate (length (arr a)) (byte 0)) by (by rewrite length_arr).
  induction (arr a) as [|x l IH]; simpl; [done|]. by rewrite u8_xor_0_l, IH.
Qed.

Lemma arr_xor_cancel_l {n} (a b : array n) : arr_xor a (arr_xor a b) = b.
Proof. by rewrite (assoc arr_xor), arr_xor_diag, arr_xor_0_l. Qed.

(** ** Strings *)

Definition u8_of_ascii (c : ascii) : u8 := byte (Z.of_N (N_of_ascii c)).

(** [s.as_bytes()] *)
Definition string_bytes (s : string) : bytes := u8_of_ascii <$> String.list_ascii_of_string s.

Lemma u8_of_ascii_inj c d : u8_of_ascii c = u8_of_ascii d -> c = d.
Proof.
  intros H%(f_equal uval). unfold u8_of_ascii, byte in H.
  pose proof (N_ascii_bounded c). pose proof (N_ascii_bounded d).
  rewrite !uval_of_Z_small in H by (change (2 ^ 8) with 256; lia).
  rewrite <- (ascii_N_embedding c), <- (ascii_N_embedding d). f_equal. lia.
Qed.
#[export] Instance u8_of_ascii_Inj : Inj (=) (=) u8_of_ascii.
Proof. exact u8_of_ascii_inj. Qed.

Lemma string_bytes_inj s t : string_bytes s = string_bytes t -> s = t.
Proof.
  unfold string_bytes. intros H.
  rewrite <- (String.string_of_list_ascii_of_string s), <- (String.string_of_list_ascii_of_string t).
  f_equal. by apply (inj (fmap u8_of_ascii)) in H.
Qed.

(** Lower-case hexadecimal, two digits per byte ([hex::encode], [format!("{b:02x}")]). *)
Definition hex_char (z : Z) : ascii :=
  ascii_of_N (Z.to_N (if z <? 10 then 48 + z else 87 + z)).

Fixpoint hex_encode (l : bytes) : string :=
  match l with
  | [] => EmptyString
  | b :: l' => String (hex_char (uval b / 16)) (String (hex_char (uval b mod 16)) (hex_encode l'))
  end.

(** Value of a hexadecimal digit, either case. *)
Definition hex_digit (c : ascii) : option Z :=
  let n := Z.of_N (N_of_ascii c) in
  if (48 <=? n) && (n <=? 57) then Some (n - 48)
  else if (97 <=? n) && (n <=? 102) then Some (n - 87)
  else if (65 <=? n) && (n <=? 70) then Some (n - 55)
  else None.

Lemma hex_digit_char z : 0 <= z < 16 -> hex_digit (hex_char z) = Some z.
Proof.
  intros Hz.
  assert (HF : Forall (fun z => hex_digit (hex_char z) = Some z) (seqZ 0 16))
    by (apply (bool_decide_unpack _); vm_compute; exact I).
  rewrite Forall_forall in HF. apply HF, elem_of_seqZ. lia.
Qed.

(** [hex::decode]: an even number of digits, in either case. *)
Fixpoint hex_decode (s : string) : result string bytes :=
  match s with
  | EmptyString => Ok []
  | String _ EmptyString => Err "Odd number of digits"
  | String a (String b s') =>
      match hex_digit a, hex_digit b with
      | Some x, Some y => l ← hex_decode s'; Ok (byte (x * 16 + y) :: l)
      | _, _ => Err "Invalid character"
      end
  end.

Lemma hex_decode_encode l : hex_decode (hex_encode l) = Ok l.
Proof.
  induction l as [|b l IH]; [done|]. cbn [hex_encode hex_decode]. pose proof (uval_range b).
  change (2 ^ Z.pos 8) with 256 in *.
  pose proof (Z.div_mod (uval b) 16). pose proof (Z.mod_pos_bound (uval b) 16).
  rewrite (hex_digit_char (uval b / 16)), (hex_digit_char (uval b mod 16)) by lia.
  rewrite IH. cbn [mbind result_bind]. do 2 f_equal. apply uint_eq. unfold byte.
  rewrite uval_of_Z_small by (change (2 ^ 8) with 256; pose proof (Z.div_mod (uval b) 16); lia).
  pose proof (Z.div_mod (uval b) 16). lia.
Qed.

Lemma length_hex_encode l : String.length (hex_encode l) = (2 * length l)%nat.
Proof. induction l as [|b l IH]; simpl; [done|]. rewrite IH. lia. Qed.

(** ** Unambiguous concatenation *)

Create Rewrite HintDb len.
#[export] Hint Rewrite @length_arr length_u64_be length_u32_be @length_app : len.

Ltac solve_len := autorewrite with len; simpl; try done; lia.

(** A byte string preceded by its length as a big-endian [u64]. *)
Definition enc_bytes (l : bytes) : bytes := u64_be (len64 l) ++ l.

Lemma enc_bytes_inj l k r s :
  vec_fits l -> vec_fits k -> enc_bytes l ++ r = enc_bytes k ++ s -> l = k /\ r = s.
Proof.
  intros Hl Hk. unfold enc_bytes. rewrite <- !(assoc_L (++)). intros H.
  apply app_inj_1 in H as [Hlen H]; [|by rewrite !length_u64_be].
  apply u64_be_inj, len64_inj in Hlen; [|done..].
  by apply app_inj_1 in H.
Qed.

(** The elements of a sequence of arrays of one size, one after the other. *)
Lemma concat_fixed_inj {A n} (f : A -> array n) (l k : list A) r s :
  length l = length k ->
  concat ((arr ∘ f) <$> l) ++ r = concat ((arr ∘ f) <$> k) ++ s ->
  f <$> l = f <$> k /\ r = s.
Proof.
  revert k; induction l as [|x l IH]; intros [|y k]; simpl; try done.
  intros [= Hlen]. rewrite <- !(assoc_L (++)). intros H.
  apply app_inj_1 in H as [Hx H]; [|by rewrite !length_arr].
  apply IH in H as [Hl ->]; [|done]. apply array_eq in Hx. split; [|done]. by f_equal.
Qed.

(** Types represented by a fixed number of bytes. *)
Class AsBytes (T : Type) (n : nat) := {
  as_bytes : T -> array n;
  from_bytes : array n -> T;
  from_as_bytes x : from_bytes (as_bytes x) = x;
  as_from_bytes a : as_bytes (from_bytes a) = a
}.
#[export] Hint Mode AsBytes ! - : typeclass_instances.

#[export] Instance as_bytes_Inj `{AsBytes T n} : Inj (=) (=) (as_bytes (T:=T)).
Proof. intros x y Hxy. by rewrite <- (from_as_bytes x), Hxy, from_as_bytes. Qed.

Lemma as_bytes_arr_inj `{AsBytes T n} (x y : T) : arr (as_bytes x) = arr (as_bytes y) -> x = y.
Proof. intros Hxy%array_eq. by apply (inj (as_bytes (T:=T))). Qed.

Definition AsBytes_countable `{AsBytes T n} `{EqDecision T} : Countable T :=
  inj_countable' (as_bytes (T:=T)) from_bytes from_as_bytes.

(** The first byte string of a concatenation, when its length is known. *)
Ltac split_app H :=
  repeat match type of H with
  | ?a ++ _ = ?b ++ _ =>
      let H1 := fresh "Henc" in
      apply app_inj_1 in H as [H1 H]; [|solve_len]
  end.

(** Turn equalities of encodings into equalities of the encoded values. *)
Ltac simplify_enc :=
  repeat match goal with
  | H : arr (as_bytes _) = arr (as_bytes _) |- _ => apply as_bytes_arr_inj in H
  | H : arr _ = arr _ |- _ => apply array_eq in H
  | H : u64_be _ = u64_be _ |- _ => apply u64_be_inj in H
  | H : u32_be _ = u32_be _ |- _ => apply u32_be_inj in H
  | H : string_bytes _ = string_bytes _ |- _ => apply string_bytes_inj in H
  end.

(** ** JSON *)

(** [serde_json] for one type: the external crate, with the law that decoding
    inverts encoding. *)
Class SerdeJson (T : Type) := {
  json_to_vec : T -> result string bytes;
  json_from_slice : bytes -> result string T;
  json_roundtrip v b : json_to_vec v = Ok b -> json_from_slice b = Ok v
}.

(** ** Encodings of the instances *)

(** The bits of a number, from which [Countable] values are recovered. *)
Fixpoint pos_bytes (p : positive) : bytes :=
  match p with
  | xH => []
  | xO p => byte 0 :: pos_bytes p
  | xI p => byte 1 :: pos_bytes p
  end.
Fixpoint bytes_pos (l : bytes) : positive :=
  match l with
  | [] => xH
  | b :: l => if uval b =? 0 then xO (bytes_pos l) else xI (bytes_pos l)
  end.
Lemma bytes_pos_bytes p : bytes_pos (pos_bytes p) = p.
Proof.
  induction p as [p IH|p IH|]; cbn [pos_bytes bytes_pos]; [| |done].
  - change (uval (byte 1) =? 0) with false. by rewrite IH.
  - change (uval (byte 0) =? 0) with true. by rewrite IH.
Qed.
