(* ===== verification/Core.v ===== *)
(** * Core domain types

    Models the crate [tls-attestation-core]: identifiers ([ids.rs]), canonical
    hashing ([hash.rs]) and quorum specifications, nonces, epochs and timestamps
    ([types.rs], [error.rs]).

    SHA-256 itself is the external crate [sha2]; it is the class [Sha256], a
    function from byte strings to 32-byte arrays of which nothing else is
    assumed. A streaming hasher is modelled by the bytes it has absorbed.
    Binding theorems name the two byte strings that collide when two different
    inputs have the same digest. *)

From S2P Require Import Prelude.

(** ** Identifiers (ids.rs) *)

Record SessionId := MkSessionId { SessionId_0 : array 16 }.
Record VerifierId := MkVerifierId { VerifierId_0 : array 32 }.
Record ProverId := MkProverId { ProverId_0 : array 32 }.
Record RandomnessId := MkRandomnessId { RandomnessId_0 : array 16 }.
(** types.rs: a session nonce *)
Record Nonce := MkNonce { Nonce_0 : array 32 }.
(** hash.rs: a 32-byte digest *)
Record DigestBytes := MkDigestBytes { DigestBytes_0 : array 32 }.

#[export] Program Instance SessionId_bytes : AsBytes SessionId 16 :=
  {| as_bytes := SessionId_0; from_bytes := MkSessionId |}.
Solve All Obligations with by intros [].
#[export] Program Instance VerifierId_bytes : AsBytes VerifierId 32 :=
  {| as_bytes := VerifierId_0; from_bytes := MkVerifierId |}.
Solve All Obligations with by intros [].
#[export] Program Instance ProverId_bytes : AsBytes ProverId 32 :=
  {| as_bytes := ProverId_0; from_bytes := MkProverId |}.
Solve All Obligations with by intros [].
#[export] Program Instance RandomnessId_bytes : AsBytes RandomnessId 16 :=
  {| as_bytes := RandomnessId_0; from_bytes := MkRandomnessId |}.
Solve All Obligations with by intros [].
#[export] Program Instance Nonce_bytes : AsBytes Nonce 32 :=
  {| as_bytes := Nonce_0; from_bytes := MkNonce |}.
Solve All Obligations with by intros [].
#[export] Program Instance DigestBytes_bytes : AsBytes DigestBytes 32 :=
  {| as_bytes := DigestBytes_0; from_bytes := MkDigestBytes |}.
Solve All Obligations with by intros [].

#[export] Instance SessionId_eq_dec : EqDecision SessionId.
Proof. solve_decision. Defined.
#[export] Instance VerifierId_eq_dec : EqDecision VerifierId.
Proof. solve_decision. Defined.
#[export] Instance ProverId_eq_dec : EqDecision ProverId.
Proof. solve_decision. Defined.
#[export] Instance RandomnessId_eq_dec : EqDecision RandomnessId.
Proof. solve_decision. Defined.
#[export] Instance Nonce_eq_dec : EqDecision Nonce.
Proof. solve_decision. Defined.
#[export] Instance DigestBytes_eq_dec : EqDecision DigestBytes.
Proof. solve_decision. Defined.
#[export] Instance SessionId_countable : Countable SessionId := AsBytes_countable.
#[export] Instance VerifierId_countable : Countable VerifierId := AsBytes_countable.

(** [Display] of identifiers. *)
Definition SessionId_to_string (id : SessionId) : string :=
  "session:" +:+ hex_encode (arr (as_bytes id)).
Definition VerifierId_to_string (id : VerifierId) : string :=
  "verifier:" +:+ hex_encode (take 8 (arr (as_bytes id))).

(** ** Epochs and timestamps (types.rs) *)

Record Epoch := MkEpoch { Epoch_0 : u64 }.
Record UnixTimestamp := MkUnixTimestamp { UnixTimestamp_0 : u64 }.

#[export] Instance Epoch_eq_dec : EqDecision Epoch.
Proof. solve_decision. Defined.
#[export] Instance UnixTimestamp_eq_dec : EqDecision UnixTimestamp.
Proof. solve_decision. Defined.

Definition Epoch_GENESIS : Epoch := MkEpoch (u_of_Z 64 0).

(** [now.0 > self.0] *)
Definition has_expired (self now : UnixTimestamp) : bool :=
  u_ltb (UnixTimestamp_0 self) (UnixTimestamp_0 now).

(** ** Canonical hashing (hash.rs) *)

(** The external SHA-256 implementation. *)
Class Sha256 := sha256_digest : bytes -> array 32.

Definition DigestBytes_ZERO : DigestBytes := MkDigestBytes (array_repeat 32 (byte 0)).

Definition xor_with (self other : DigestBytes) : DigestBytes :=
  MkDigestBytes (arr_xor (DigestBytes_0 self) (DigestBytes_0 other)).

(** Domain tag: [len_be32(domain) || domain_bytes]. *)
Definition domain_prefix (domain : string) : bytes :=
  let tag := string_bytes domain in
  u32_be (u_of_Z 32 (Z.of_nat (length tag))) ++ tag.

(** A hasher is the sequence of bytes absorbed so far. *)
Record CanonicalHasher := MkHasher { inner : bytes }.

Definition CanonicalHasher_new (domain : string) : CanonicalHasher :=
  MkHasher (domain_prefix domain).
Definition update (data : bytes) (h : CanonicalHasher) : CanonicalHasher :=
  MkHasher (inner h ++ data).
Definition update_bytes (data : bytes) (h : CanonicalHasher) : CanonicalHasher :=
  update data (update (u64_be (len64 data)) h).
Definition update_fixed {n} (data : array n) (h : CanonicalHasher) : CanonicalHasher :=
  update (arr data) h.
Definition update_u64 (v : u64) (h : CanonicalHasher) : CanonicalHasher := update (u64_be v) h.
Definition update_u32 (v : u32) (h : CanonicalHasher) : CanonicalHasher := update (u32_be v) h.
Definition update_bool (v : bool) (h : CanonicalHasher) : CanonicalHasher :=
  update [byte (if v then 1 else 0)] h.
Definition update_digest (d : DigestBytes) (h : CanonicalHasher) : CanonicalHasher :=
  update (arr (as_bytes d)) h.

Section Sha.
Context {Hs : Sha256}.

Definition sha256 (data : bytes) : DigestBytes := MkDigestBytes (sha256_digest data).

Definition sha256_tagged (domain : string) (data : bytes) : DigestBytes :=
  sha256 (domain_prefix domain ++ data).

Definition finalize (h : CanonicalHasher) : DigestBytes := sha256 (inner h).

Definition VerifierId_from_public_key (pk_bytes : bytes) : VerifierId :=
  MkVerifierId (sha256_digest pk_bytes).
Definition ProverId_from_public_key (pk_bytes : bytes) : ProverId :=
  MkProverId (sha256_digest pk_bytes).

(** Two different byte strings with one digest. *)
Definition collision (x y : bytes) : Prop := x <> y /\ sha256_digest x = sha256_digest y.

Lemma sha256_eq_or_collision x y : sha256 x = sha256 y -> x = y \/ collision x y.
Proof. intros [= Hxy]. destruct (decide (x = y)); [by left | right; by split]. Qed.

Lemma finalize_eq_or_collision h k :
  finalize h = finalize k -> inner h = inner k \/ collision (inner h) (inner k).
Proof. apply sha256_eq_or_collision. Qed.

(** One of the listed pairs of byte strings is a collision. *)
Definition collides (l : list (bytes * bytes)) : Prop := Exists (fun p => collision p.1 p.2) l.

Lemma finalize_eq_or_collides h k l :
  finalize h = finalize k -> (inner h, inner k) ∈ l -> inner h = inner k \/ collides l.
Proof.
  intros [?|Hc]%finalize_eq_or_collision Hin; [by left|right].
  apply Exists_exists. by eexists.
Qed.
End Sha.

(** One hash of a chain of hashes: its digests are equal, so its inputs are, or
    the goal holds by the collision at position [i] of the list. *)
Ltac open_digest Heq i :=
  lazymatch goal with |- _ \/ collides ?l =>
    apply (fun h k Hhk => finalize_eq_or_collides h k l Hhk) in Heq;
    [destruct Heq as [Heq|?]; [|by right] | by apply list_elem_of_lookup; exists i]
  end.

(** Feeding a hasher, in the order of the code. *)
Notation "h |>> f" := (f h) (at level 61, left associativity, only parsing).

(** The domain string of a Rust literal is far below [2^32] bytes. *)
Definition domain_fits (d : string) : Prop := Z.of_nat (length (string_bytes d)) < 2 ^ 32.

(** Domain separation: absorbed data determines the domain it was tagged with. *)
Lemma domain_prefix_inj d1 d2 r s :
  domain_fits d1 -> domain_fits d2 ->
  domain_prefix d1 ++ r = domain_prefix d2 ++ s -> d1 = d2 /\ r = s.
Proof.
  unfold domain_fits, domain_prefix. intros H1 H2. rewrite <- !(assoc_L (++)). intros H.
  apply app_inj_1 in H as [Hlen H]; [|by rewrite !length_u32_be].
  apply u32_be_inj, (f_equal uval) in Hlen. rewrite !uval_of_Z_small in Hlen by lia.
  apply app_inj_1 in H as [Hd ->]; [|lia]. by apply string_bytes_inj in Hd.
Qed.

(** Expose the bytes absorbed by a hasher as a right-nested concatenation. *)
Ltac unfold_hasher H :=
  unfold CanonicalHasher_new, update_bytes, update_fixed, update_u64, update_u32, update_bool,
    update_digest, update in H;
  cbn [inner] in H;
  repeat rewrite <- (assoc_L (++)) in H.

(** Length-prefixed components of a preimage. *)
Ltac split_enc H :=
  repeat (match type of H with
  | u64_be (len64 ?l) ++ ?l ++ ?r = u64_be (len64 ?k) ++ ?k ++ ?s =>
      let H1 := fresh "Henc" in
      assert (H1 : enc_bytes l ++ r = enc_bytes k ++ s)
        by (unfold enc_bytes; rewrite <- !(assoc_L (++)); exact H);
      clear H; rename H1 into H;
      let H2 := fresh "Henc" in
      apply enc_bytes_inj in H as [H2 H]; [|done..]
  | u64_be (len64 ?l) ++ ?l = u64_be (len64 ?k) ++ ?k =>
      let H2 := fresh "Henc" in
      assert (H2 : l = k) by (apply (enc_bytes_inj l k [] []); [done..|];
        rewrite !app_nil_r; exact H);
      clear H
  | ?a ++ _ = ?b ++ _ =>
      let H1 := fresh "Henc" in
      apply app_inj_1 in H as [H1 H]; [|solve_len]
  end).

(** ** Quorum specifications (types.rs, error.rs) *)

Inductive CoreError :=
  | InvalidQuorum (reason : string)
  | Serialization (msg : string)
  | InvalidIdentifier (msg : string).

Record QuorumSpec := MkQuorumSpec { verifiers : list VerifierId; threshold : usize }.

#[export] Instance QuorumSpec_eq_dec : EqDecision QuorumSpec.
Proof. solve_decision. Defined.

Definition QuorumSpec_new (verifiers : list VerifierId) (threshold : usize)
    : result CoreError QuorumSpec :=
  if (length verifiers =? 0)%nat then
    Err (InvalidQuorum "verifier set must not be empty")
  else if uval threshold =? 0 then
    Err (InvalidQuorum "threshold must be at least 1")
  else if Z.of_nat (length verifiers) <? uval threshold then
    Err (InvalidQuorum ("threshold " +:+ pretty (uval threshold) +:+
           " exceeds verifier count " +:+ pretty (Z.of_nat (length verifiers))))
  else Ok (MkQuorumSpec verifiers threshold).

(** [slice.contains(x)] *)
Definition contains {A} `{EqDecision A} (l : list A) (x : A) : bool := bool_decide (x ∈ l).

Definition is_satisfied_by (self : QuorumSpec) (approvers : list VerifierId) : bool :=
  let count := length (filter (fun id => contains approvers id = true) (verifiers self)) in
  uval (threshold self) <=? Z.of_nat count.

Definition verifier_count (self : QuorumSpec) : nat := length (verifiers self).

(** ** Properties of canonical hashing *)

Section HashProps.
Context {Hs : Sha256}.

(** Hash of a list of variable-length fields under a domain. *)
Definition hash_fields (domain : string) (fs : list bytes) : CanonicalHasher :=
  fold_left (fun h f => update_bytes f h) fs (CanonicalHasher_new domain).

Lemma inner_update_fields fs h :
  inner (fold_left (fun h f => update_bytes f h) fs h) = inner h ++ concat (enc_bytes <$> fs).
Proof.
  revert h; induction fs as [|f fs IH]; intros h; simpl; [by rewrite app_nil_r|].
  rewrite IH. unfold enc_bytes. simpl. by rewrite <- !(assoc_L (++)).
Qed.

Lemma enc_bytes_not_nil l r : enc_bytes l ++ r <> [].
Proof. intros Hnil%(f_equal length). revert Hnil. unfold enc_bytes. autorewrite with len. simpl. lia. Qed.

Lemma concat_enc_bytes_inj fs gs :
  Forall vec_fits fs -> Forall vec_fits gs ->
  concat (enc_bytes <$> fs) = concat (enc_bytes <$> gs) -> fs = gs.
Proof.
  revert gs; induction fs as [|f fs IH]; intros [|g gs] Hfs Hgs; csimpl; intros Heq.
  - done.
  - by destruct (enc_bytes_not_nil g (concat (enc_bytes <$> gs))).
  - by destruct (enc_bytes_not_nil f (concat (enc_bytes <$> fs))).
  - inversion_clear Hfs; inversion_clear Hgs.
    apply enc_bytes_inj in Heq as [-> Heq]; [|done..]. f_equal. by apply IH.
Qed.

(** Canonical hashing is unambiguous: two sequences of variable-length
    fields, of any number of fields each and hashed under any two domain tags,
    have the same digest only when the tags and the sequences are equal, or
    else the two absorbed byte strings are a SHA-256 collision. Neither moving
    a field boundary nor reusing a digest under another domain is possible. *)
Theorem canonical_hash_binding d1 d2 fs gs :
  domain_fits d1 -> domain_fits d2 -> Forall vec_fits fs -> Forall vec_fits gs ->
  finalize (hash_fields d1 fs) = finalize (hash_fields d2 gs) ->
  (d1 = d2 /\ fs = gs) \/ collision (inner (hash_fields d1 fs)) (inner (hash_fields d2 gs)).
Proof.
  intros Hd1 Hd2 Hfs Hgs [Heq|Hc]%finalize_eq_or_collision; [left|by right].
  unfold hash_fields in Heq. rewrite !inner_update_fields in Heq.
  apply domain_prefix_inj in Heq as [-> Heq]; [|done..]. split; [done|].
  by apply concat_enc_bytes_inj.
Qed.
End HashProps.

(** A concrete (not cryptographic) digest for evaluating the definitions: the
    last 32 bytes of the input, most recent first. *)
Definition toy_sha256 : Sha256 := fun l => to_array 32 (reverse l).

Lemma canonical_hash_binding_witness :
  let fs := [string_bytes "ab"; string_bytes "c"] in
  finalize (Hs:=toy_sha256) (hash_fields "test/v1" fs)
    = finalize (Hs:=toy_sha256) (hash_fields "test/v1" fs) /\
  (("test/v1" = "test/v1" /\ fs = fs) \/
   collision (Hs:=toy_sha256) (inner (hash_fields "test/v1" fs)) (inner (hash_fields "test/v1" fs))).
Proof.
  split; [reflexivity|].
  apply (canonical_hash_binding (Hs:=toy_sha256) "test/v1" "test/v1");
    [vm_compute; reflexivity .. | | | reflexivity];
    repeat constructor; vm_compute; reflexivity.
Defined.

(** ** Properties of quorums *)

(** [is_satisfied_by] depends on the approvers as a set only. *)
#[export] Instance is_satisfied_by_proper (q : QuorumSpec) :
  Proper ((≡) ==> (=)) (is_satisfied_by q).
Proof.
  intros l k Hlk. unfold is_satisfied_by. do 3 f_equal.
  apply list_filter_iff. intros id. unfold contains. do 2 rewrite bool_decide_eq_true.
  apply Hlk.
Qed.

Lemma length_filter_mono {A} (P Q : A -> Prop) `{!forall x, Decision (P x), !forall x, Decision (Q x)} (l : list A) :
  (forall x, x ∈ l -> P x -> Q x) -> (length (filter P l) <= length (filter Q l))%nat.
Proof.
  induction l as [|x l IH]; intros HPQ; [done|].
  assert (IH' : (length (filter P l) <= length (filter Q l))%nat).
  { apply IH. intros y Hy. apply HPQ. by constructor. }
  rewrite !filter_cons. destruct (decide (P x)) as [HP|]; destruct (decide (Q x)) as [HQ|HQ]; cbn [length]; try lia.
  destruct HQ. apply HPQ; [by constructor|done].
Qed.

(** Only eligible approvers count. *)
Lemma is_satisfied_by_mono q l k :
  (forall v, v ∈ verifiers q -> v ∈ l -> v ∈ k) -> is_satisfied_by q l = true -> is_satisfied_by q k = true.
Proof.
  unfold is_satisfied_by, contains. rewrite !Z.leb_le. intros Hsub Hl. etrans; [exact Hl|].
  apply Nat2Z.inj_le, length_filter_mono. intros v Hv. rewrite !bool_decide_eq_true. by apply Hsub.
Qed.

(** [QuorumSpec::new] accepts exactly the specifications with a threshold
    between one and the number of listed verifiers, and returns them unchanged;
    in particular it rejects an empty verifier list. *)
Theorem quorum_new_spec vs t q :
  QuorumSpec_new vs t = Ok q <->
  q = MkQuorumSpec vs t /\ 1 <= uval t <= Z.of_nat (length vs).
Proof.
  unfold QuorumSpec_new. pose proof (uval_range t).
  destruct (Nat.eqb_spec (length vs) 0); [split; [done|lia]|].
  destruct (Z.eqb_spec (uval t) 0); [split; [done|lia]|].
  destruct (Z.ltb_spec (Z.of_nat (length vs)) (uval t)); [split; [done|lia]|].
  split; [intros [= <-]; split; [done|lia] | by intros [-> _]].
Qed.

(** When no verifier is listed twice, a quorum is satisfied exactly when at
    least [threshold] distinct eligible verifiers are among the approvers:
    approvals by outsiders and repeated approvals do not count. *)
Theorem quorum_counts_distinct_eligible q approvers :
  NoDup (verifiers q) ->
  is_satisfied_by q approvers = true <->
  uval (threshold q) <=
    Z.of_nat (size (list_to_set (verifiers q) ∩ list_to_set approvers : gset VerifierId)).
Proof.
  intros Hnd. unfold is_satisfied_by. rewrite Z.leb_le. f_equiv.
  replace (list_to_set (verifiers q) ∩ list_to_set approvers : gset VerifierId) with
    (list_to_set (filter (fun id => contains approvers id = true) (verifiers q)) : gset VerifierId).
  - rewrite size_list_to_set; [done|]. by apply NoDup_filter.
  - apply set_eq. intros id. unfold contains.
    rewrite elem_of_intersection, !elem_of_list_to_set, list_elem_of_filter, bool_decide_eq_true.
    tauto.
Qed.

(** Concrete identifiers for examples. *)
Definition vid (z : Z) : VerifierId := MkVerifierId (array_repeat 32 (byte z)).
Definition sid (z : Z) : SessionId := MkSessionId (array_repeat 16 (byte z)).
Definition digest (z : Z) : DigestBytes := MkDigestBytes (array_repeat 32 (byte z)).
Definition n64 (z : Z) : u64 := u_of_Z 64 z.

Lemma quorum_counts_distinct_eligible_witness :
  let q := MkQuorumSpec [vid 1; vid 2] (n64 2) in
  is_satisfied_by q [vid 2; vid 99; vid 1] = true <->
  uval (threshold q) <=
    Z.of_nat (size (list_to_set (verifiers q) ∩ list_to_set [vid 2; vid 99; vid 1] : gset VerifierId)).
Proof.
  apply (quorum_counts_distinct_eligible (MkQuorumSpec [vid 1; vid 2] (n64 2))).
  apply (bool_decide_unpack _). vm_compute. exact I.
Defined.

(** The constructor does not reject repeated verifiers, and a repeated
    verifier is counted once per occurrence: for every verifier [v] the
    specification 2-of-[v, v] is accepted and satisfied by [v] alone, although
    the documentation promises that each verifier counts at most once. *)
Theorem quorum_duplicate_verifier_counts_twice v :
  exists q, QuorumSpec_new [v; v] (n64 2) = Ok q /\ is_satisfied_by q [v] = true.
Proof.
  exists (MkQuorumSpec [v; v] (n64 2)). split; [done|].
  unfold is_satisfied_by, contains. cbn [verifiers].
  do 2 (rewrite filter_cons_True by (apply bool_decide_eq_true; by constructor)).
  done.
Qed.
