(* ===== verification/Session.v ===== *)
(** * Attestation sessions

    Models [attestation/src/session.rs]: the session state machine, the
    immutable session context with its canonical digest, and the session
    record. [AttestationError] is the error type of the crate ([error.rs]).

    The state machine is also given as a step relation [step], which the methods
    refine; reachable states and terminal states are theorems about it, termination
    is one about sequences of calls of the methods. *)

From S2P Require Import Prelude Core.

(** ** Errors (error.rs) *)

Inductive AttestationError :=
  | Core (e : CoreError)
  | InvalidTransition (from to : string)
  | SessionExpired
  | RandomnessBindingMismatch (reason : string)
  | TranscriptMismatch (reason : string)
  | StatementDigestMismatch
  | PackageDigestMismatch
  | EvidenceVerificationFailed (reason : string)
  | QuorumNotSatisfied (need have : nat)
  | UnknownSession
  | DuplicateSession
  | SessionAlreadyTerminal
  | DuplicateVerifierApproval (verifier_id : string)
  | TlsConnection (reason : string)
  | AttestationCrypto (msg : string).

(** ** Session states *)

Inductive SessionState :=
  | Pending
  | Active
  | Attesting
  | Collecting
  | Finalized
  | Expired
  | Failed (reason : string).

#[export] Instance SessionState_eq_dec : EqDecision SessionState.
Proof. solve_decision. Defined.

Definition is_terminal (self : SessionState) : bool :=
  match self with Finalized | Expired | Failed _ => true | _ => false end.

Definition SessionState_name (self : SessionState) : string :=
  match self with
  | Pending => "Pending"
  | Active => "Active"
  | Attesting => "Attesting"
  | Collecting => "Collecting"
  | Finalized => "Finalized"
  | Expired => "Expired"
  | Failed _ => "Failed"
  end.

Definition can_transition_to (self next : SessionState) : bool :=
  if is_terminal self then false
  else match self, next with
       | Pending, Active => true
       | Active, Attesting => true
       | Attesting, Collecting => true
       | Collecting, Finalized => true
       | _, Expired => true
       | _, Failed _ => true
       | _, _ => false
       end.

(** ** Session context *)

Record SessionContext := MkSessionContext {
  session_id : SessionId;
  prover_id : ProverId;
  coordinator_id : VerifierId;
  quorum : QuorumSpec;
  epoch : Epoch;
  created_at : UnixTimestamp;
  expires_at : UnixTimestamp;
  nonce : Nonce;
  session_digest : DigestBytes
}.

#[export] Instance SessionContext_eq_dec : EqDecision SessionContext.
Proof. solve_decision. Defined.

(** The fields absorbed for the context digest, after the domain tag. *)
Definition session_fields (sid : SessionId) (pid : ProverId) (cid : VerifierId) (q : QuorumSpec)
    (ep : Epoch) (ca ea : UnixTimestamp) (n : Nonce) (h : CanonicalHasher) : CanonicalHasher :=
  let h := update_fixed (as_bytes sid) h in
  let h := update_fixed (as_bytes pid) h in
  let h := update_fixed (as_bytes cid) h in
  let h := update_u64 (Epoch_0 ep) h in
  let h := update_u64 (UnixTimestamp_0 ca) h in
  let h := update_u64 (UnixTimestamp_0 ea) h in
  let h := update_fixed (as_bytes n) h in
  let h := update_u64 (threshold q) h in
  let h := update_u64 (len64 (verifiers q)) h in
  fold_left (fun h v => update_fixed (as_bytes v) h) (verifiers q) h.

Section SessionContext.
Context {Hs : Sha256}.

Definition session_preimage (sid : SessionId) (pid : ProverId) (cid : VerifierId)
    (q : QuorumSpec) (ep : Epoch) (ca ea : UnixTimestamp) (n : Nonce) : CanonicalHasher :=
  session_fields sid pid cid q ep ca ea n
    (CanonicalHasher_new "tls-attestation/session-context/v1").

Definition SessionContext_compute_digest (sid : SessionId) (pid : ProverId) (cid : VerifierId)
    (q : QuorumSpec) (ep : Epoch) (ca ea : UnixTimestamp) (n : Nonce) : DigestBytes :=
  finalize (session_preimage sid pid cid q ep ca ea n).

Definition SessionContext_new (sid : SessionId) (pid : ProverId) (cid : VerifierId)
    (q : QuorumSpec) (ep : Epoch) (ca ea : UnixTimestamp) (n : Nonce) : SessionContext :=
  let ea :=
    if u_leb (UnixTimestamp_0 ea) (UnixTimestamp_0 ca)
    then MkUnixTimestamp (u_saturating_add (UnixTimestamp_0 ca) (u_of_Z 64 1))
    else ea in
  {| session_id := sid; prover_id := pid; coordinator_id := cid; quorum := q;
     epoch := ep; created_at := ca; expires_at := ea; nonce := n;
     session_digest := SessionContext_compute_digest sid pid cid q ep ca ea n |}.

(** The digest recomputed from the fields of a context. *)
Definition context_digest (sc : SessionContext) : DigestBytes :=
  SessionContext_compute_digest (session_id sc) (prover_id sc) (coordinator_id sc) (quorum sc)
    (epoch sc) (created_at sc) (expires_at sc) (nonce sc).

Definition context_preimage (sc : SessionContext) : bytes :=
  inner (session_preimage (session_id sc) (prover_id sc) (coordinator_id sc) (quorum sc)
    (epoch sc) (created_at sc) (expires_at sc) (nonce sc)).
End SessionContext.

Definition is_expired (self : SessionContext) (now : UnixTimestamp) : bool :=
  has_expired (expires_at self) now.

(** ** Sessions *)

Record Session := MkSession { context : SessionContext; state : SessionState }.

Definition set_state (self : Session) (s : SessionState) : Session :=
  {| context := context self; state := s |}.

Definition Session_new (context : SessionContext) : Session :=
  {| context := context; state := Pending |}.

(** [&mut self] methods return the updated session. *)
Definition transition (self : Session) (next_state : SessionState)
    : Session * result AttestationError unit :=
  if negb (can_transition_to (state self) next_state) then
    (self, Err (InvalidTransition (SessionState_name (state self)) (SessionState_name next_state)))
  else (set_state self next_state, Ok tt).

Definition expire (self : Session) : Session :=
  if negb (is_terminal (state self)) then set_state self Expired else self.

Definition fail (self : Session) (reason : string) : Session :=
  if negb (is_terminal (state self)) then set_state self (Failed reason) else self.

(** ** The state machine as a step relation *)

Inductive step : SessionState -> SessionState -> Prop :=
  | step_activate : step Pending Active
  | step_attest : step Active Attesting
  | step_collect : step Attesting Collecting
  | step_finalize : step Collecting Finalized
  | step_expire s : is_terminal s = false -> step s Expired
  | step_fail s reason : is_terminal s = false -> step s (Failed reason).

#[export] Hint Constructors step : core.

Lemma can_transition_step s s' : can_transition_to s s' = true <-> step s s'.
Proof.
  split.
  - destruct s, s'; simpl; try discriminate; auto.
  - destruct 1 as [ | | | | s Ht | s r Ht]; try done; by destruct s.
Qed.

(** The mutating methods of a session, one call each. *)
Inductive session_call : Session -> Session -> Prop :=
  | call_transition ss next : session_call ss (transition ss next).1
  | call_expire ss : session_call ss (expire ss)
  | call_fail ss reason : session_call ss (fail ss reason).

(** Remaining steps of the protocol: strictly decreasing along [step]. *)
Definition rank (s : SessionState) : nat :=
  match s with
  | Pending => 4 | Active => 3 | Attesting => 2 | Collecting => 1 | _ => 0
  end.

(** A run of the state machine with the states it visits. *)
Inductive run : SessionState -> list SessionState -> SessionState -> Prop :=
  | run_nil s : run s [] s
  | run_cons s s1 tr s' : step s s1 -> run s1 tr s' -> run s (s1 :: tr) s'.

Lemma step_rank s s' : step s s' -> (rank s' < rank s)%nat.
Proof. destruct 1 as [ | | | | s Ht | s r Ht]; simpl; try lia; destruct s; simpl in *; lia || done. Qed.

Lemma terminal_no_step s s' : is_terminal s = true -> ~ step s s'.
Proof. intros Ht Hs%can_transition_step. unfold can_transition_to in Hs. by rewrite Ht in Hs. Qed.

Lemma run_from_terminal s tr s' : is_terminal s = true -> run s tr s' -> tr = [] /\ s' = s.
Proof. intros Ht Hr. destruct Hr as [|s s1 tr s' Hs]; [done|]. by apply terminal_no_step in Hs. Qed.

(** C17. The mutating methods of a session implement the state machine: a call
    never changes the context, and changes the state only by a step of the
    machine; a terminal session is never changed again, whatever the sequence
    of calls. *)
Theorem session_methods_refine_machine ss ss' :
  session_call ss ss' ->
  context ss' = context ss /\
  (ss' = ss \/ step (state ss) (state ss')) /\
  (forall ss'', is_terminal (state ss') = true -> rtc session_call ss' ss'' -> ss'' = ss').
Proof.
  assert (Hone : forall a b, session_call a b ->
    context b = context a /\ (b = a \/ step (state a) (state b))).
  { destruct 1 as [a next|a|a reason].
    - unfold transition. destruct (can_transition_to (state a) next) eqn:E; simpl; [|by auto].
      split; [done|right]. by apply can_transition_step.
    - unfold expire. destruct (is_terminal (state a)) eqn:E; simpl; auto.
    - unfold fail. destruct (is_terminal (state a)) eqn:E; simpl; auto. }
  intros Hc. destruct (Hone _ _ Hc) as [? ?]. repeat split; [done..|].
  intros ss'' Ht Hr. induction Hr as [|x y z Hxy _ IH]; [done|].
  destruct (Hone _ _ Hxy) as [_ [->|Hs]]; [by auto|].
  by apply terminal_no_step in Hs.
Qed.

(** A session that ends up finalized has gone through every protocol phase
    in order: the only run from [Pending] to [Finalized] activates the session,
    attests, collects approvals and finalizes. *)
Theorem finalized_only_by_full_run tr :
  run Pending tr Finalized <-> tr = [Active; Attesting; Collecting; Finalized].
Proof.
  split; [|by intros ->; repeat (econstructor; [by auto|]); constructor].
  assert (Hdead : forall s tr', run s tr' Finalized -> s = Expired \/ (exists r, s = Failed r) -> False).
  { intros s tr' Hr [->|[r ->]]; by apply run_from_terminal in Hr as [_ ?]. }
  assert (Hstep : forall s nxt tr', run s tr' Finalized -> s <> Finalized ->
    (forall s', step s s' -> s' = nxt \/ s' = Expired \/ exists r, s' = Failed r) ->
    exists tr2, tr' = nxt :: tr2 /\ run nxt tr2 Finalized).
  { intros s nxt tr' Hr Hne Hnext. inversion Hr as [|? s1 tr2 ? Hs Hr2]; subst; [done|].
    destruct (Hnext _ Hs) as [->|Hx]; [eauto|]. by destruct (Hdead _ _ Hr2). }
  intros Hr.
  apply (Hstep _ Active) in Hr as (tr1 & -> & Hr); [|done|inversion 1; eauto].
  apply (Hstep _ Attesting) in Hr as (tr2 & -> & Hr); [|done|inversion 1; eauto].
  apply (Hstep _ Collecting) in Hr as (tr3 & -> & Hr); [|done|inversion 1; eauto].
  apply (Hstep _ Finalized) in Hr as (tr4 & -> & Hr); [|done|inversion 1; eauto].
  by apply run_from_terminal in Hr as [-> _].
Qed.

(** *** Sequences of calls *)

Inductive session_method :=
  | MTransition (next : SessionState)
  | MExpire
  | MFail (reason : string).

Definition session_apply (ss : Session) (c : session_method) : Session :=
  match c with
  | MTransition next => (transition ss next).1
  | MExpire => expire ss
  | MFail reason => fail ss reason
  end.

(** The number of calls of a sequence that change the state. *)
Fixpoint changes (cs : list session_method) (ss : Session) : nat :=
  match cs with
  | [] => 0
  | c :: cs' => let ss' := session_apply ss c in
      (if bool_decide (state ss' = state ss) then 0 else 1) + changes cs' ss'
  end.

(** A call leaves the session as it is or lowers its rank. *)
Lemma session_apply_rank ss c :
  session_apply ss c = ss \/ (rank (state (session_apply ss c)) < rank (state ss))%nat.
Proof.
  destruct c as [next| |reason]; cbn [session_apply].
  - unfold transition. destruct (can_transition_to (state ss) next) eqn:E; [right|by left].
    by apply step_rank, can_transition_step.
  - unfold expire. destruct (is_terminal (state ss)) eqn:E; [by left|right]. apply step_rank. by constructor.
  - unfold fail. destruct (is_terminal (state ss)) eqn:E; [by left|right]. apply step_rank. by constructor.
Qed.

(** C18. Every session stops. Whatever sequence of [transition], [expire] and [fail] is
    called on a session, at most [rank] of the calls change its state, at most four
    for a new session; the four transitions of the protocol are such calls and
    finalize it. A session that is not terminal can always be ended, by [expire] as
    well as by [fail]; on a terminal one every transition is refused. *)
Theorem session_machine_terminates ss cs ctx next reason :
  (changes cs ss <= rank (state ss))%nat /\
  (changes cs (Session_new ctx) <= 4)%nat /\
  (let full := MTransition <$> [Active; Attesting; Collecting; Finalized] in
   changes full (Session_new ctx) = 4%nat /\ state (foldl session_apply (Session_new ctx) full) = Finalized) /\
  is_terminal (state (expire ss)) = true /\ is_terminal (state (fail ss reason)) = true /\
  (is_terminal (state ss) = true <-> forall st, is_ok (transition ss st).2 = false) /\
  (is_terminal (state ss) = true -> (transition ss next).1 = ss).
Proof.
  assert (Hbound : forall ss, (changes cs ss <= rank (state ss))%nat).
  { clear. induction cs as [|c cs IH]; intros ss; [cbn; lia|]. cbn [changes]. specialize (IH (session_apply ss c)).
    destruct (session_apply_rank ss c) as [Heq|Hlt]; [rewrite Heq in *; by rewrite bool_decide_eq_true_2|].
    case_bool_decide; lia. }
  split_and!; [apply Hbound|apply Hbound|done|unfold expire; by destruct ss as [? []]|unfold fail; by destruct ss as [? []]| |].
  - split.
    + intros Ht st. unfold transition, can_transition_to. by rewrite Ht.
    + intros Hno. specialize (Hno Expired). unfold transition, can_transition_to in Hno.
      destruct (is_terminal (state ss)) eqn:E; [done|]. destruct (state ss); done.
  - intros Ht. unfold transition, can_transition_to. by rewrite Ht.
Qed.

(** ** The context digest *)

Lemma inner_fold_fixed `{AsBytes T n} (vs : list T) h :
  inner (fold_left (fun h v => update_fixed (as_bytes v) h) vs h)
  = inner h ++ concat ((arr ∘ as_bytes) <$> vs).
Proof.
  revert h; induction vs as [|v vs IH]; intros h; simpl; [by rewrite app_nil_r|].
  rewrite IH. simpl. by rewrite <- (assoc_L (++)).
Qed.

Lemma inner_session_fields sid pid cid q ep ca ea n h :
  inner (session_fields sid pid cid q ep ca ea n h) =
  inner h ++ arr (as_bytes sid) ++ arr (as_bytes pid) ++ arr (as_bytes cid) ++
  u64_be (Epoch_0 ep) ++ u64_be (UnixTimestamp_0 ca) ++ u64_be (UnixTimestamp_0 ea) ++
  arr (as_bytes n) ++ u64_be (threshold q) ++ u64_be (len64 (verifiers q)) ++
  concat ((arr ∘ as_bytes) <$> verifiers q).
Proof.
  unfold session_fields. rewrite inner_fold_fixed.
  unfold update_fixed, update_u64, update. cbn [inner]. by rewrite <- !(assoc_L (++)).
Qed.

(** The fields of a context without its digest. *)
Definition same_fields (a b : SessionContext) : Prop :=
  session_id a = session_id b /\ prover_id a = prover_id b /\
  coordinator_id a = coordinator_id b /\ quorum a = quorum b /\ epoch a = epoch b /\
  created_at a = created_at b /\ expires_at a = expires_at b /\ nonce a = nonce b.

(** The encoding of the session fields is unambiguous, whatever follows it. *)
Lemma session_fields_inj sa sb r s h :
  vec_fits (verifiers (quorum sa)) -> vec_fits (verifiers (quorum sb)) ->
  inner (session_fields (session_id sa) (prover_id sa) (coordinator_id sa) (quorum sa) (epoch sa)
           (created_at sa) (expires_at sa) (nonce sa) h) ++ r =
  inner (session_fields (session_id sb) (prover_id sb) (coordinator_id sb) (quorum sb) (epoch sb)
           (created_at sb) (expires_at sb) (nonce sb) h) ++ s ->
  same_fields sa sb /\ r = s.
Proof.
  intros Ha Hb. rewrite !inner_session_fields, <- !(assoc_L (++)). intros H.
  apply (inj (inner h ++.)) in H. split_app H. simplify_enc.
  apply concat_fixed_inj in H as [Hvs ->]; [|by apply len64_inj].
  apply (inj (fmap as_bytes)) in Hvs. unfold same_fields.
  destruct sa as [????? ? ? ? ?], sb as [????? ? ? ? ?]; simpl in *.
  repeat match goal with x : Epoch |- _ => destruct x | x : UnixTimestamp |- _ => destruct x
    | x : QuorumSpec |- _ => destruct x end; simpl in *. by subst.
Qed.

Lemma context_preimage_inj a b :
  vec_fits (verifiers (quorum a)) -> vec_fits (verifiers (quorum b)) ->
  context_preimage a = context_preimage b -> same_fields a b.
Proof.
  intros Ha Hb Heq. unfold context_preimage, session_preimage in Heq.
  rewrite <- (app_nil_r (inner _)) in Heq.
  rewrite <- (app_nil_r (inner (session_fields (session_id b) _ _ _ _ _ _ _ _))) in Heq.
  by apply session_fields_inj in Heq as [? _].
Qed.

Section ContextDigest.
Context {Hs : Sha256}.

(** The session digest binds every field of the context: contexts with the
    same digest agree on the session and prover identifiers, the coordinator,
    the whole quorum specification, the epoch, both timestamps and the nonce,
    or their encodings are a SHA-256 collision. *)
Theorem session_digest_binding a b :
  vec_fits (verifiers (quorum a)) -> vec_fits (verifiers (quorum b)) ->
  context_digest a = context_digest b ->
  same_fields a b \/ collision (context_preimage a) (context_preimage b).
Proof.
  intros Ha Hb [Heq|Hc]%finalize_eq_or_collision; [left|by right]. by apply context_preimage_inj.
Qed.

(** C19. A new context carries the digest of its own fields and the requested times,
    except that an expiry that is not after the creation is replaced by the second
    after it. It is not expired at its creation. Its lifetime is positive exactly
    if it is created before the largest 64-bit timestamp; at that one the sum
    saturates, and creation and expiry are the same second. *)
Theorem session_context_new_wf sid pid cid q ep ca ea n :
  let sc := SessionContext_new sid pid cid q ep ca ea n in
  let created := uval (UnixTimestamp_0 ca) in
  let requested := uval (UnixTimestamp_0 ea) in
  let expires := uval (UnixTimestamp_0 (expires_at sc)) in
  session_digest sc = context_digest sc /\
  created_at sc = ca /\
  expires = (if created <? requested then requested else Z.min (created + 1) (2 ^ 64 - 1)) /\
  is_expired sc ca = false /\
  (created < expires <-> created < 2 ^ 64 - 1) /\
  (created = 2 ^ 64 - 1 -> expires = created).
Proof.
  unfold SessionContext_new, is_expired, has_expired, u_leb, u_ltb.
  cbn [created_at expires_at session_digest].
  pose proof (uval_range (UnixTimestamp_0 ca)). pose proof (uval_range (UnixTimestamp_0 ea)).
  destruct (Z.leb_spec (uval (UnixTimestamp_0 ea)) (uval (UnixTimestamp_0 ca))) as [Hle|Hlt]; cbn [UnixTimestamp_0].
  - rewrite uval_saturating_add, (uval_of_Z_small 64 1) by lia. unfold u_max.
    rewrite (proj2 (Z.ltb_ge _ _)) by lia. split_and!; [done|done|lia|apply Z.ltb_ge; lia|lia|lia].
  - rewrite (proj2 (Z.ltb_lt _ _)) by lia. split_and!; [done|done|done|apply Z.ltb_ge; lia|lia|lia].
Qed.
End ContextDigest.

(** ** Concrete instances *)

Definition ts (z : Z) : UnixTimestamp := MkUnixTimestamp (n64 z).

Definition example_context : SessionContext :=
  SessionContext_new (Hs:=toy_sha256) (sid 7) (MkProverId (array_repeat 32 (byte 8))) (vid 1)
    (MkQuorumSpec [vid 1; vid 2; vid 3] (n64 2)) (MkEpoch (n64 5)) (ts 1000) (ts 1600)
    (MkNonce (array_repeat 32 (byte 9))).

Lemma session_methods_refine_machine_witness :
  let ss := Session_new example_context in
  session_call ss (transition ss Active).1 /\
  context (transition ss Active).1 = context ss /\
  ((transition ss Active).1 = ss \/ step (state ss) (state (transition ss Active).1)).
Proof.
  split; [constructor|].
  destruct (session_methods_refine_machine (Session_new example_context)
    (transition (Session_new example_context) Active).1) as (? & ? & _); [constructor|].
  split; assumption.
Defined.

Lemma session_digest_binding_witness :
  context_digest (Hs:=toy_sha256) example_context = context_digest (Hs:=toy_sha256) example_context /\
  (same_fields example_context example_context \/
   collision (Hs:=toy_sha256) (context_preimage example_context) (context_preimage example_context)).
Proof.
  split; [reflexivity|].
  apply (session_digest_binding (Hs:=toy_sha256) example_context example_context);
    [vm_compute; reflexivity .. | reflexivity].
Defined.
