(* ===== verification/Storage.v ===== *)
(** * Session stores

    Models the crate [tls-attestation-storage]: the trait [SessionStore]
    ([traits.rs]), the in-memory store ([memory.rs]) and the SQLite store
    ([sqlite.rs]), with the error type of [error.rs].

    [SessionStore] is a class of operations. [StoreSpec] is the contract the
    trait documents, stated on an abstract store that maps a session identifier
    to a session and the set of verifiers that approved it. Both
    implementations are proved to refine it, so clients of the class (the
    coordinator) get the theorems about the abstract store for either of them.

    Every method is one critical section, except [record_approval] of the
    in-memory store, which checks the session under one lock and records the
    approval under another: it is the composition of [mem_approval_check] and
    [mem_approval_commit], what another thread can do between the two is a
    theorem of its own, and replay protection is also proved for sequences of
    critical sections ([store_section]) of concurrent calls.

    Of SQLite the model keeps the two tables and their PRIMARY KEY, UNIQUE and
    FOREIGN KEY constraints; I/O failures of the database are left out.
    [serde_json] is the class [SessionJson]. *)

From Stdlib Require Import Ascii.
From S2P Require Import Prelude Core Session.

(** ** Errors (error.rs) *)

Inductive StorageError :=
  | NotFound
  | AlreadyExists
  | SessionTerminated
  | DuplicateApproval (verifier_id : string)
  | Io (msg : string).

#[export] Instance StorageError_eq_dec : EqDecision StorageError.
Proof. solve_decision. Defined.

(** ** The trait (traits.rs) *)

Class SessionStore (S : Type) := {
  insert : Session -> stres S StorageError unit;
  get : SessionId -> S -> result StorageError Session;
  update_state : SessionId -> SessionState -> stres S StorageError unit;
  record_approval : SessionId -> VerifierId -> stres S StorageError unit;
  has_approved : SessionId -> VerifierId -> S -> bool;
  remove : SessionId -> stres S StorageError unit;
  store_contains : SessionId -> S -> bool
}.

(** ** The documented contract *)

(** The abstract store: sessions with the verifiers that approved them. *)
Abbreviation store_spec := (gmap SessionId (Session * gset VerifierId)).

Definition spec_insert (ss : Session) : stres store_spec StorageError unit := fun m =>
  match m !! session_id (context ss) with
  | Some _ => (m, Err AlreadyExists)
  | None => (<[session_id (context ss) := (ss, ∅)]> m, Ok tt)
  end.

Definition spec_get (id : SessionId) (m : store_spec) : result StorageError Session :=
  fst <$> ok_or NotFound (m !! id).

Definition spec_update_state (id : SessionId) (st : SessionState)
    : stres store_spec StorageError unit := fun m =>
  match m !! id with
  | None => (m, Err NotFound)
  | Some (ss, vs) =>
      if is_terminal (state ss) then (m, Err SessionTerminated)
      else (<[id := (set_state ss st, vs)]> m, Ok tt)
  end.

Definition spec_record_approval (id : SessionId) (v : VerifierId)
    : stres store_spec StorageError unit := fun m =>
  match m !! id with
  | None => (m, Err NotFound)
  | Some (ss, vs) =>
      if is_terminal (state ss) then (m, Err SessionTerminated)
      else if bool_decide (v ∈ vs) then (m, Err (DuplicateApproval (VerifierId_to_string v)))
      else (<[id := (ss, {[v]} ∪ vs)]> m, Ok tt)
  end.

Definition spec_has_approved (id : SessionId) (v : VerifierId) (m : store_spec) : bool :=
  match m !! id with Some (_, vs) => bool_decide (v ∈ vs) | None => false end.

Definition spec_remove (id : SessionId) : stres store_spec StorageError unit := fun m =>
  (delete id m, Ok tt).

Definition spec_contains (id : SessionId) (m : store_spec) : bool := bool_decide (is_Some (m !! id)).

#[export] Instance SpecStore : SessionStore store_spec := {|
  insert := spec_insert;
  get := spec_get;
  update_state := spec_update_state;
  record_approval := spec_record_approval;
  has_approved := spec_has_approved;
  remove := spec_remove;
  store_contains := spec_contains
|}.

(** [r] simulates [m] at related states: same result, related final states. *)
Definition simulates {S A} (R : S -> store_spec -> Prop)
    (impl : stres S StorageError A) (spec : stres store_spec StorageError A) : Prop :=
  forall s m, R s m -> R (impl s).1 (spec m).1 /\ (impl s).2 = (spec m).2.

(** What a correct implementation promises its clients. *)
Class StoreSpec (S : Type) `{SessionStore S} := {
  store_rel : S -> store_spec -> Prop;
  insert_spec ss : simulates store_rel (insert ss) (spec_insert ss);
  get_spec id s m : store_rel s m -> get id s = spec_get id m;
  update_state_spec id st : simulates store_rel (update_state id st) (spec_update_state id st);
  record_approval_spec id v :
    simulates store_rel (record_approval id v) (spec_record_approval id v);
  has_approved_spec id v s m : store_rel s m -> has_approved id v s = spec_has_approved id v m;
  remove_spec id : simulates store_rel (remove id) (spec_remove id);
  contains_spec id s m : store_rel s m -> store_contains id s = spec_contains id m
}.

(** ** The in-memory store (memory.rs) *)

Record InMemorySessionStore := MkMem {
  sessions : gmap SessionId Session;
  approvals : gmap SessionId (gset VerifierId)
}.

Definition InMemorySessionStore_new : InMemorySessionStore := MkMem ∅ ∅.

Definition mem_insert (ss : Session) : stres InMemorySessionStore StorageError unit := fun s =>
  let id := session_id (context ss) in
  if bool_decide (is_Some (sessions s !! id)) then (s, Err AlreadyExists)
  else (MkMem (<[id := ss]> (sessions s))
              (match approvals s !! id with
               | Some _ => approvals s           (* [entry(..).or_default()] *)
               | None => <[id := ∅]> (approvals s)
               end), Ok tt).

Definition mem_get (id : SessionId) (s : InMemorySessionStore) : result StorageError Session :=
  ok_or NotFound (sessions s !! id).

Definition mem_update_state (id : SessionId) (st : SessionState)
    : stres InMemorySessionStore StorageError unit := fun s =>
  match sessions s !! id with
  | None => (s, Err NotFound)
  | Some ss =>
      if is_terminal (state ss) then (s, Err SessionTerminated)
      else (MkMem (<[id := set_state ss st]> (sessions s)) (approvals s), Ok tt)
  end.

(** First critical section of [record_approval]: the session exists and is not
    terminal. *)
Definition mem_approval_check (id : SessionId) (s : InMemorySessionStore)
    : result StorageError unit :=
  ss ← ok_or NotFound (sessions s !! id);
  if is_terminal (state ss) then Err SessionTerminated else Ok tt.

(** Second critical section: the verifier is added to the approval set. *)
Definition mem_approval_commit (id : SessionId) (v : VerifierId)
    : stres InMemorySessionStore StorageError unit := fun s =>
  match approvals s !! id with
  | None => (s, Err NotFound)
  | Some set =>
      if bool_decide (v ∈ set) then (s, Err (DuplicateApproval (VerifierId_to_string v)))
      else (MkMem (sessions s) (<[id := {[v]} ∪ set]> (approvals s)), Ok tt)
  end.

Definition mem_record_approval (id : SessionId) (v : VerifierId)
    : stres InMemorySessionStore StorageError unit := fun s =>
  match mem_approval_check id s with
  | Err e => (s, Err e)
  | Ok _ => mem_approval_commit id v s
  end.

Definition mem_has_approved (id : SessionId) (v : VerifierId) (s : InMemorySessionStore) : bool :=
  match approvals s !! id with Some set => bool_decide (v ∈ set) | None => false end.

Definition mem_remove (id : SessionId) : stres InMemorySessionStore StorageError unit := fun s =>
  (MkMem (delete id (sessions s)) (delete id (approvals s)), Ok tt).

Definition mem_contains (id : SessionId) (s : InMemorySessionStore) : bool :=
  bool_decide (is_Some (sessions s !! id)).

#[export] Instance MemStore : SessionStore InMemorySessionStore := {|
  insert := mem_insert;
  get := mem_get;
  update_state := mem_update_state;
  record_approval := mem_record_approval;
  has_approved := mem_has_approved;
  remove := mem_remove;
  store_contains := mem_contains
|}.

(** Every session has its approval set, and no approval set is left without its
    session: the two maps together are the abstract store. *)
Definition mem_rel (s : InMemorySessionStore) (m : store_spec) : Prop :=
  (forall id, sessions s !! id = fst <$> m !! id) /\
  (forall id, approvals s !! id = snd <$> m !! id).

Lemma mem_rel_new : mem_rel InMemorySessionStore_new ∅.
Proof. by split; intros id; rewrite !lookup_empty. Qed.

Lemma mem_rel_lookup s m id : mem_rel s m ->
  (m !! id = None /\ sessions s !! id = None /\ approvals s !! id = None) \/
  (exists ss vs, m !! id = Some (ss, vs) /\ sessions s !! id = Some ss /\ approvals s !! id = Some vs).
Proof.
  intros [Hs Ha]. rewrite (Hs id), (Ha id).
  destruct (m !! id) as [[ss vs]|]; simpl; [right|left]; eauto.
Qed.

Lemma mem_rel_insert s m id ss vs :
  mem_rel s m ->
  mem_rel (MkMem (<[id := ss]> (sessions s)) (<[id := vs]> (approvals s))) (<[id := (ss, vs)]> m).
Proof.
  intros [Hs Ha]. split; intros id'; simpl;
    (destruct (decide (id = id')) as [->|]; simplify_map_eq; [done | by auto]).
Qed.

Lemma mem_insert_sim ss : simulates mem_rel (mem_insert ss) (spec_insert ss).
Proof.
  intros s m HR. unfold mem_insert, spec_insert.
  destruct (mem_rel_lookup s m (session_id (context ss)) HR) as [(-> & -> & ->)|(ss' & vs & -> & -> & ->)].
  - rewrite bool_decide_eq_false_2 by (by intros []). split; [by apply mem_rel_insert | done].
  - rewrite bool_decide_eq_true_2 by eauto. done.
Qed.

Lemma mem_update_state_sim id st : simulates mem_rel (mem_update_state id st) (spec_update_state id st).
Proof.
  intros s m HR. unfold mem_update_state, spec_update_state.
  destruct (mem_rel_lookup s m id HR) as [(-> & -> & Ha)|(ss & vs & -> & -> & Ha)]; [done|].
  destruct (is_terminal (state ss)); [done|]. split; [|done]. simpl.
  rewrite <- (insert_id (approvals s) id vs) by done. by apply mem_rel_insert.
Qed.

Lemma mem_record_approval_sim id v :
  simulates mem_rel (mem_record_approval id v) (spec_record_approval id v).
Proof.
  intros s m HR. unfold mem_record_approval, mem_approval_check, mem_approval_commit,
    spec_record_approval.
  destruct (mem_rel_lookup s m id HR) as [(-> & -> & Ha)|(ss & vs & -> & Hs & Ha)]; [done|].
  rewrite Hs. simpl. destruct (is_terminal (state ss)); [done|].
  rewrite Ha. case_bool_decide; [done|]. split; [|done]. simpl.
  rewrite <- (insert_id (sessions s) id ss) by done. by apply mem_rel_insert.
Qed.

Lemma mem_remove_sim id : simulates mem_rel (mem_remove id) (spec_remove id).
Proof.
  intros s m [Hs Ha]. split; [|done]. split; intros id'; simpl;
    (destruct (decide (id = id')) as [->|]; simplify_map_eq; [done | by auto]).
Qed.

Lemma mem_queries id v s m : mem_rel s m ->
  mem_get id s = spec_get id m /\ mem_has_approved id v s = spec_has_approved id v m /\
  mem_contains id s = spec_contains id m.
Proof.
  intros HR. unfold mem_get, mem_has_approved, mem_contains, spec_get, spec_has_approved,
    spec_contains.
  by destruct (mem_rel_lookup s m id HR) as [(-> & -> & ->)|(ss & vs & -> & -> & ->)].
Qed.

#[export] Instance MemStoreSpec : StoreSpec InMemorySessionStore := {|
  store_rel := mem_rel;
  insert_spec := mem_insert_sim;
  get_spec id s m HR := proj1 (mem_queries id (vid 0) s m HR);
  update_state_spec := mem_update_state_sim;
  record_approval_spec := mem_record_approval_sim;
  has_approved_spec id v s m HR := proj1 (proj2 (mem_queries id v s m HR));
  remove_spec := mem_remove_sim;
  contains_spec id s m HR := proj2 (proj2 (mem_queries id (vid 0) s m HR))
|}.

(** The in-memory store implements the contract of [SessionStore]: each
    operation returns the result the abstract store prescribes on every branch
    (replay of a session, terminal session, duplicate approval, unknown
    session) and keeps the two maps consistent with it. *)
Theorem memory_store_refines_contract :
  mem_rel InMemorySessionStore_new ∅ /\
  (forall ss, simulates mem_rel (insert ss) (spec_insert ss)) /\
  (forall id st, simulates mem_rel (update_state id st) (spec_update_state id st)) /\
  (forall id v, simulates mem_rel (record_approval id v) (spec_record_approval id v)) /\
  (forall id, simulates mem_rel (remove id) (spec_remove id)) /\
  (forall id v s m, mem_rel s m ->
     get id s = spec_get id m /\ has_approved id v s = spec_has_approved id v m /\
     store_contains id s = spec_contains id m).
Proof.
  split_and!; [exact mem_rel_new | exact mem_insert_sim | exact mem_update_state_sim
    | exact mem_record_approval_sim | exact mem_remove_sim |].
  intros id v s m HR. by apply mem_queries.
Qed.

(** [record_approval] of the in-memory store is not atomic: the terminal
    check and the recording are two critical sections, and when another thread
    finalizes the session between them the approval is recorded in a session
    that is already terminal, which the contract (and [record_approval] run on
    its own) refuses with [SessionTerminated]. *)
Theorem memory_approval_race s id v ss vs :
  sessions s !! id = Some ss -> state ss = Collecting -> approvals s !! id = Some vs -> v ∉ vs ->
  exists s1 s2,
    mem_approval_check id s = Ok tt /\
    mem_update_state id Finalized s = (s1, Ok tt) /\
    mem_approval_commit id v s1 = (s2, Ok tt) /\
    mem_has_approved id v s2 = true /\
    (exists ss2, mem_get id s2 = Ok ss2 /\ is_terminal (state ss2) = true) /\
    mem_record_approval id v s1 = (s1, Err SessionTerminated).
Proof.
  intros Hs Hst Ha Hv.
  unfold mem_record_approval, mem_approval_check, mem_update_state, mem_approval_commit,
    mem_has_approved, mem_get.
  rewrite Hs. simpl. rewrite Hst. simpl. do 2 eexists.
  split; [done|]. split; [done|]. simpl. rewrite Ha, bool_decide_eq_false_2 by done.
  split; [done|]. cbn [sessions approvals]. rewrite !lookup_insert_eq.
  rewrite bool_decide_eq_true_2 by set_solver. cbn. eauto.
Qed.

(** Between threads that work on different sessions the two sections act as one
    call: when nobody touched the session in between, an approval that passed the
    check is recorded as by a call at the time of the commit, and one that failed it
    is refused as by a call at the time of the check. *)
Lemma approval_two_sections id v s s' :
  sessions s' !! id = sessions s !! id ->
  (mem_approval_check id s = Ok tt -> mem_record_approval id v s' = mem_approval_commit id v s') /\
  (forall e, mem_approval_check id s = Err e -> mem_record_approval id v s = (s, Err e)).
Proof.
  intros Heq. unfold mem_record_approval. split; [|by intros e ->].
  intros Hc. replace (mem_approval_check id s') with (mem_approval_check id s); [by rewrite Hc|].
  unfold mem_approval_check. by rewrite Heq.
Qed.

Definition example_store (st : SessionState) (vs : gset VerifierId) : InMemorySessionStore :=
  MkMem {[ sid 7 := MkSession example_context st ]} {[ sid 7 := vs ]}.

Lemma memory_approval_race_witness :
  exists s1 s2,
    mem_approval_check (sid 7) (example_store Collecting ∅) = Ok tt /\
    mem_update_state (sid 7) Finalized (example_store Collecting ∅) = (s1, Ok tt) /\
    mem_approval_commit (sid 7) (vid 1) s1 = (s2, Ok tt) /\
    mem_has_approved (sid 7) (vid 1) s2 = true /\
    (exists ss2, mem_get (sid 7) s2 = Ok ss2 /\ is_terminal (state ss2) = true) /\
    mem_record_approval (sid 7) (vid 1) s1 = (s1, Err SessionTerminated).
Proof.
  apply (memory_approval_race (example_store Collecting ∅) (sid 7) (vid 1)
    (MkSession example_context Collecting) ∅).
  - apply lookup_singleton_eq.
  - reflexivity.
  - apply lookup_singleton_eq.
  - apply not_elem_of_empty.
Defined.

(** ** The SQLite store (sqlite.rs) *)

(** [serde_json] on sessions: serialization of the derived implementation
    succeeds and deserialization inverts it. *)
Class SessionJson := {
  to_json : Session -> result string string;
  from_json : string -> result string Session;
  json_roundtrip ss : exists j, to_json ss = Ok j /\ from_json j = Ok ss
}.

(** The database: table [sessions] (primary key [session_id]) and table
    [approvals] (unique pairs, with a foreign key to [sessions]). *)
Record SqliteSessionStore := MkSql {
  t_sessions : gmap string (string * Z);
  t_approvals : gset (string * string)
}.

Definition Sqlite_open : SqliteSessionStore := MkSql ∅ ∅.

Definition encode_session_id (id : SessionId) : string := hex_encode (arr (as_bytes id)).
Definition encode_verifier_id (id : VerifierId) : string := hex_encode (arr (as_bytes id)).

(** [std::str::from_utf8] on two bytes. *)
Definition utf8_pair (c d : ascii) : bool :=
  let m := Z.of_N (N_of_ascii c) in let n := Z.of_N (N_of_ascii d) in
  ((m <? 128) && (n <? 128)) || ((194 <=? m) && (m <=? 223) && (128 <=? n) && (n <=? 191)).

(** [u8::from_str_radix] on two characters: a leading [+] is accepted. *)
Definition from_str_radix16 (c d : ascii) : option u8 :=
  if bool_decide (c = "+"%char) then byte <$> hex_digit d
  else hi ← hex_digit c; lo ← hex_digit d; Some (byte (16 * hi + lo)).

Fixpoint decode_chunks (s : string) : result StorageError bytes :=
  match s with
  | String c (String d rest) =>
      if negb (utf8_pair c d) then Err (Io "non-UTF8 in session_id hex")
      else match from_str_radix16 c d with
           | None => Err (Io ("invalid hex byte '" +:+ String c (String d EmptyString) +:+
                              "': invalid digit found in string"))
           | Some b => bs ← decode_chunks rest; Ok (b :: bs)
           end
  | _ => Ok []
  end.

Definition decode_session_id (s : string) : result StorageError SessionId :=
  if negb (String.length s =? 32)%nat then
    Err (Io ("session_id hex must be 32 chars, got " +:+ pretty (Z.of_nat (String.length s))))
  else bs ← decode_chunks s; Ok (MkSessionId (to_array 16 bs)).

Definition is_terminal_by_hex (s : SqliteSessionStore) (id_hex : string)
    : result StorageError bool :=
  row ← ok_or NotFound (t_sessions s !! id_hex);
  Ok (negb (snd row =? 0)).

Definition b2z (b : bool) : Z := if b then 1 else 0.

Section Sqlite.
Context `{SessionJson}.

Definition sql_insert (ss : Session) : stres SqliteSessionStore StorageError unit := fun s =>
  let id_hex := encode_session_id (session_id (context ss)) in
  match to_json ss with
  | Err e => (s, Err (Io e))
  | Ok json =>
      match t_sessions s !! id_hex with
      | Some _ => (s, Err AlreadyExists)     (* PRIMARY KEY violation *)
      | None => (MkSql (<[id_hex := (json, b2z (is_terminal (state ss)))]> (t_sessions s))
                       (t_approvals s), Ok tt)
      end
  end.

Definition sql_get (id : SessionId) (s : SqliteSessionStore) : result StorageError Session :=
  row ← ok_or NotFound (t_sessions s !! encode_session_id id);
  map_err Io (from_json (fst row)).

Definition sql_update_state (id : SessionId) (st : SessionState)
    : stres SqliteSessionStore StorageError unit := fun s =>
  let id_hex := encode_session_id id in
  match is_terminal_by_hex s id_hex with
  | Err e => (s, Err e)
  | Ok true => (s, Err SessionTerminated)
  | Ok false =>
      match t_sessions s !! id_hex with
      | None => (s, Err (Io "Query returned no rows"))
      | Some (json, _) =>
          match from_json json with
          | Err e => (s, Err (Io e))
          | Ok ss =>
              match to_json (set_state ss st) with
              | Err e => (s, Err (Io e))
              | Ok updated_json =>
                  (MkSql (<[id_hex := (updated_json, b2z (is_terminal st))]> (t_sessions s))
                         (t_approvals s), Ok tt)
              end
          end
      end
  end.

Definition sql_record_approval (id : SessionId) (v : VerifierId)
    : stres SqliteSessionStore StorageError unit := fun s =>
  let id_hex := encode_session_id id in
  let vid_hex := encode_verifier_id v in
  match is_terminal_by_hex s id_hex with
  | Err e => (s, Err e)
  | Ok true => (s, Err SessionTerminated)
  | Ok false =>
      if bool_decide ((id_hex, vid_hex) ∈ t_approvals s)              (* UNIQUE *)
         || negb (bool_decide (is_Some (t_sessions s !! id_hex)))     (* FOREIGN KEY *)
      then (s, Err (DuplicateApproval (VerifierId_to_string v)))
      else (MkSql (t_sessions s) ({[(id_hex, vid_hex)]} ∪ t_approvals s), Ok tt)
  end.

Definition sql_has_approved (id : SessionId) (v : VerifierId) (s : SqliteSessionStore) : bool :=
  let count := size (filter (fun row => row = (encode_session_id id, encode_verifier_id v))
                            (t_approvals s)) in
  (0 <? count)%nat.

Definition sql_remove (id : SessionId) : stres SqliteSessionStore StorageError unit := fun s =>
  let id_hex := encode_session_id id in
  let apps := filter (fun row => row.1 <> id_hex) (t_approvals s) in
  (MkSql (delete id_hex (t_sessions s)) apps, Ok tt).

Definition sql_contains (id : SessionId) (s : SqliteSessionStore) : bool :=
  bool_decide (is_Some (t_sessions s !! encode_session_id id)).

Definition all_session_ids (s : SqliteSessionStore) : result StorageError (list SessionId) :=
  Ok (omap (fun row => match decode_session_id row.1 with Ok id => Some id | Err _ => None end)
           (map_to_list (t_sessions s))).

#[export] Instance SqlStore : SessionStore SqliteSessionStore := {|
  insert := sql_insert;
  get := sql_get;
  update_state := sql_update_state;
  record_approval := sql_record_approval;
  has_approved := sql_has_approved;
  remove := sql_remove;
  store_contains := sql_contains
|}.
End Sqlite.

(** *** Hexadecimal keys *)

Lemma hex_char_ascii z : 0 <= z < 16 ->
  Z.of_N (N_of_ascii (hex_char z)) < 128 /\ hex_char z <> "+"%char.
Proof.
  intros Hz.
  assert (HF : Forall (fun z => Z.of_N (N_of_ascii (hex_char z)) < 128 /\ hex_char z <> "+"%char)
                 (seqZ 0 16))
    by (apply (bool_decide_unpack _); vm_compute; exact I).
  rewrite Forall_forall in HF. apply HF, elem_of_seqZ. lia.
Qed.

Lemma decode_chunks_hex l : decode_chunks (hex_encode l) = Ok l.
Proof.
  induction l as [|b l IH]; [done|]. cbn [hex_encode decode_chunks].
  pose proof (uval_range b) as Hb. change (2 ^ 8) with 256 in Hb.
  assert (Hhi : 0 <= uval b / 16 < 16) by (split; [apply Z.div_pos | apply Z.div_lt_upper_bound]; lia).
  assert (Hlo : 0 <= uval b mod 16 < 16) by (apply Z.mod_pos_bound; lia).
  destruct (hex_char_ascii _ Hhi) as [Hhi7 Hplus], (hex_char_ascii _ Hlo) as [Hlo7 _].
  assert (Hutf : utf8_pair (hex_char (uval b / 16)) (hex_char (uval b mod 16)) = true).
  { unfold utf8_pair. apply orb_true_intro; left. apply andb_true_intro; split; by apply Z.ltb_lt. }
  assert (Hradix : from_str_radix16 (hex_char (uval b / 16)) (hex_char (uval b mod 16)) = Some b).
  { unfold from_str_radix16. rewrite bool_decide_eq_false_2 by done.
    rewrite !hex_digit_char by done. simpl. f_equal. apply uint_eq. unfold byte.
    rewrite uval_of_Z_small by (change (2 ^ 8) with 256; lia).
    symmetry. apply Z.div_mod. lia. }
  rewrite Hutf, Hradix, IH. done.
Qed.

Lemma hex_encode_inj l k : hex_encode l = hex_encode k -> l = k.
Proof. intros H%(f_equal decode_chunks). rewrite !decode_chunks_hex in H. by injection H. Qed.

Lemma decode_encode_session_id id : decode_session_id (encode_session_id id) = Ok id.
Proof.
  unfold decode_session_id, encode_session_id. rewrite length_hex_encode, length_arr.
  cbn [negb Nat.eqb Nat.mul Nat.add].
  rewrite decode_chunks_hex. simpl. f_equal. destruct id as [a]; simpl. by rewrite to_array_arr.
Qed.

#[export] Instance encode_session_id_inj : Inj (=) (=) encode_session_id.
Proof. intros a b H%(f_equal decode_session_id). rewrite !decode_encode_session_id in H. by injection H. Qed.
#[export] Instance encode_verifier_id_inj : Inj (=) (=) encode_verifier_id.
Proof. intros a b H%hex_encode_inj. by apply as_bytes_arr_inj in H. Qed.

(** *** Refinement of the contract *)

Section SqliteRefinement.
Context `{SessionJson}.

Record sql_rel (s : SqliteSessionStore) (m : store_spec) : Prop := {
  rel_none id : m !! id = None -> t_sessions s !! encode_session_id id = None;
  rel_some id ss vs : m !! id = Some (ss, vs) ->
    exists j, t_sessions s !! encode_session_id id = Some (j, b2z (is_terminal (state ss))) /\
              from_json j = Ok ss;
  rel_app id v : (encode_session_id id, encode_verifier_id v) ∈ t_approvals s <->
    exists ss vs, m !! id = Some (ss, vs) /\ v ∈ vs;
  rel_keys k row : t_sessions s !! k = Some row -> exists id, k = encode_session_id id
}.

Lemma sql_rel_open : sql_rel Sqlite_open ∅.
Proof.
  split; simpl; [done | done | | done].
  intros id v. split; [set_solver | intros (? & ? & Hl & _)]. by rewrite lookup_empty in Hl.
Qed.

Lemma b2z_flag b : negb (b2z b =? 0) = b.
Proof. by destruct b. Qed.

(** The row of a session replaced or added. *)
Lemma sql_rel_put s m id ss vs j :
  sql_rel s m -> from_json j = Ok ss ->
  (m !! id = None /\ vs = ∅ \/ exists ss0, m !! id = Some (ss0, vs)) ->
  sql_rel (MkSql (<[encode_session_id id := (j, b2z (is_terminal (state ss)))]> (t_sessions s))
                 (t_approvals s))
          (<[id := (ss, vs)]> m).
Proof.
  intros HR Hj Hold. split; simpl.
  - intros id' Hn. apply lookup_insert_None in Hn as [Hn Hne].
    rewrite lookup_insert_ne by (by intros ->%encode_session_id_inj). by apply (rel_none s m HR).
  - intros id' ss' vs' Hl. destruct (decide (id = id')) as [->|Hne].
    + rewrite lookup_insert_eq in Hl. rewrite lookup_insert_eq. injection Hl as <- <-. eauto.
    + rewrite lookup_insert_ne in Hl by done.
      rewrite lookup_insert_ne by (by intros ?%encode_session_id_inj). by apply (rel_some s m HR) in Hl.
  - intros id' v. rewrite (rel_app s m HR).
    destruct (decide (id = id')) as [->|Hne].
    + rewrite lookup_insert_eq. destruct Hold as [[Hn ->]|[ss0 Hs]].
      * rewrite Hn. split; [by intros (? & ? & ? & ?)|].
        intros (? & ? & [= <- <-] & []%elem_of_empty).
      * rewrite Hs. naive_solver.
    + by rewrite lookup_insert_ne.
  - intros k row Hk. destruct (decide (k = encode_session_id id)) as [->|Hne]; [by eauto|].
    rewrite lookup_insert_ne in Hk by done. by apply (rel_keys s m HR) in Hk.
Qed.

Lemma sql_insert_sim ss : simulates sql_rel (sql_insert ss) (spec_insert ss).
Proof.
  intros s m HR. unfold sql_insert, spec_insert.
  destruct (json_roundtrip ss) as (j & -> & Hj).
  destruct (m !! session_id (context ss)) as [[ss' vs]|] eqn:Hm.
  - destruct (rel_some s m HR _ _ _ Hm) as (j' & -> & _). done.
  - rewrite (rel_none s m HR _ Hm). split; [|done]. eapply sql_rel_put; eauto.
Qed.

Lemma is_terminal_by_hex_rel s m id : sql_rel s m ->
  is_terminal_by_hex s (encode_session_id id) =
  (row ← ok_or NotFound (m !! id); Ok (is_terminal (state row.1))).
Proof.
  intros HR. unfold is_terminal_by_hex. destruct (m !! id) as [[ss vs]|] eqn:Hm.
  - destruct (rel_some s m HR _ _ _ Hm) as (j & -> & _). simpl. by rewrite b2z_flag.
  - by rewrite (rel_none s m HR _ Hm).
Qed.

Lemma sql_update_state_sim id st : simulates sql_rel (sql_update_state id st) (spec_update_state id st).
Proof.
  intros s m HR. unfold sql_update_state, spec_update_state.
  rewrite (is_terminal_by_hex_rel s m id HR).
  destruct (m !! id) as [[ss vs]|] eqn:Hm; [|done]. simpl.
  destruct (is_terminal (state ss)); [done|].
  destruct (rel_some s m HR _ _ _ Hm) as (j & -> & ->).
  destruct (json_roundtrip (set_state ss st)) as (j' & -> & Hj').
  split; [|done]. eapply (sql_rel_put s m id (set_state ss st)); eauto.
Qed.

Lemma sql_record_approval_sim id v :
  simulates sql_rel (sql_record_approval id v) (spec_record_approval id v).
Proof.
  intros s m HR. unfold sql_record_approval, spec_record_approval.
  rewrite (is_terminal_by_hex_rel s m id HR).
  destruct (m !! id) as [[ss vs]|] eqn:Hm; [|done]. simpl.
  destruct (is_terminal (state ss)); [done|].
  destruct (rel_some s m HR _ _ _ Hm) as (j & Hrow & Hj).
  rewrite Hrow, (bool_decide_eq_true_2 (is_Some _)) by eauto. rewrite orb_false_r.
  assert (Hin : (encode_session_id id, encode_verifier_id v) ∈ t_approvals s <-> v ∈ vs).
  { rewrite (rel_app s m HR), Hm. naive_solver. }
  rewrite (bool_decide_ext _ _ Hin). case_bool_decide as Hv; [done|].
  split; [|done]. split; simpl.
  - intros id' Hn. apply lookup_insert_None in Hn as [Hn _]. by apply (rel_none s m HR).
  - intros id' ss' vs' Hl. destruct (decide (id = id')) as [->|Hne].
    + rewrite lookup_insert_eq in Hl. injection Hl as <- <-. eauto.
    + rewrite lookup_insert_ne in Hl by done. by apply (rel_some s m HR) in Hl.
  - intros id' v'. rewrite elem_of_union, elem_of_singleton, (rel_app s m HR).
    destruct (decide (id = id')) as [->|Hne].
    + rewrite lookup_insert_eq, Hm. split.
      * intros [[= Hvv]|(? & ? & [= <- <-] & ?)];
          [apply encode_verifier_id_inj in Hvv as ->|]; do 2 eexists; (split; [done|set_solver]).
      * intros (? & ? & [= <- <-] & [->%elem_of_singleton|?]%elem_of_union); [by left|right; eauto].
    + rewrite lookup_insert_ne by done. split; [|by right].
      intros [[= ->%encode_session_id_inj _]|?]; done.
  - apply (rel_keys s m HR).
Qed.

Lemma sql_remove_sim id : simulates sql_rel (sql_remove id) (spec_remove id).
Proof.
  intros s m HR. split; [|done]. split; simpl.
  - intros id' Hn. apply lookup_delete_None in Hn as [->|Hn]; [by rewrite lookup_delete_eq|].
    apply lookup_delete_None. right. by apply (rel_none s m HR).
  - intros id' ss vs [Hne Hl]%lookup_delete_Some. rewrite lookup_delete_ne by (by intros ?%encode_session_id_inj).
    by apply (rel_some s m HR) in Hl.
  - intros id' v. rewrite elem_of_filter, (rel_app s m HR). simpl.
    setoid_rewrite lookup_delete_Some. split.
    + intros [Hne (ss & vs & Hl & Hv)]. exists ss, vs. split_and!; [by intros -> | done..].
    + intros (ss & vs & [Hne Hl] & Hv). split; [by intros ?%encode_session_id_inj | eauto].
  - intros k row [_ Hk]%lookup_delete_Some. by apply (rel_keys s m HR) in Hk.
Qed.

Lemma sql_queries id v s m : sql_rel s m ->
  sql_get id s = spec_get id m /\ sql_has_approved id v s = spec_has_approved id v m /\
  sql_contains id s = spec_contains id m.
Proof.
  intros HR. unfold sql_get, sql_has_approved, sql_contains, spec_get, spec_has_approved,
    spec_contains.
  set (P := fun row => row = (encode_session_id id, encode_verifier_id v)).
  assert (Hcount : (0 <? size (filter P (t_approvals s)))%nat
    = bool_decide ((encode_session_id id, encode_verifier_id v) ∈ t_approvals s)).
  { case_bool_decide as Hin.
    - apply Nat.ltb_lt, Nat.neq_0_lt_0. intros Hsz%size_empty_inv.
      apply (not_elem_of_empty (C:=gset (string * string)) (encode_session_id id, encode_verifier_id v)).
      rewrite <- Hsz. by apply elem_of_filter.
    - apply Nat.ltb_ge. replace (filter P (t_approvals s)) with (∅ : gset (string * string));
        [by rewrite size_empty|].
      apply set_eq. intros row. rewrite elem_of_filter. unfold P. split; [set_solver|].
      by intros [-> ?]. }
  rewrite Hcount. destruct (m !! id) as [[ss vs]|] eqn:Hm.
  - destruct (rel_some s m HR _ _ _ Hm) as (j & -> & Hj). simpl. rewrite Hj.
    split_and!; [done | | done].
    apply bool_decide_ext. rewrite (rel_app s m HR), Hm. naive_solver.
  - rewrite (rel_none s m HR _ Hm). split_and!; [done | | done].
    apply bool_decide_eq_false_2. rewrite (rel_app s m HR), Hm. naive_solver.
Qed.

#[export] Instance SqlStoreSpec : StoreSpec SqliteSessionStore := {|
  store_rel := sql_rel;
  insert_spec := sql_insert_sim;
  get_spec id s m HR := proj1 (sql_queries id (vid 0) s m HR);
  update_state_spec := sql_update_state_sim;
  record_approval_spec := sql_record_approval_sim;
  has_approved_spec id v s m HR := proj1 (proj2 (sql_queries id v s m HR));
  remove_spec := sql_remove_sim;
  contains_spec id s m HR := proj2 (proj2 (sql_queries id (vid 0) s m HR))
|}.

(** [all_session_ids] of the SQLite store returns every stored session
    identifier exactly once and nothing else: decoding the hexadecimal keys
    loses no session. *)
Theorem sqlite_all_session_ids s m :
  sql_rel s m ->
  exists ids, all_session_ids s = Ok ids /\ NoDup ids /\ (forall id, id ∈ ids <-> is_Some (m !! id)).
Proof.
  intros HR. unfold all_session_ids. eexists; split; [done|].
  set (dec := fun row : string * (string * Z) =>
    match decode_session_id row.1 with Ok id => Some id | Err _ => None end).
  assert (Hdec : forall row, row ∈ map_to_list (t_sessions s) ->
    exists id, dec row = Some id /\ row.1 = encode_session_id id).
  { intros [k row] Hk%elem_of_map_to_list.
    destruct (rel_keys s m HR k row Hk) as [id ->]. exists id. split; [|done].
    unfold dec. cbn [fst]. by rewrite decode_encode_session_id. }
  assert (Hmap : encode_session_id <$> omap dec (map_to_list (t_sessions s))
    = (map_to_list (t_sessions s)).*1).
  { revert Hdec. induction (map_to_list (t_sessions s)) as [|row l IH]; intros Hdec; [done|].
    destruct (Hdec row) as (id & Hid & Hk); [by constructor|]. csimpl. rewrite Hid, Hk. csimpl.
    f_equal. apply IH. intros row' Hin. apply Hdec. by constructor. }
  split.
  - apply (NoDup_fmap_1 encode_session_id). rewrite Hmap. apply NoDup_fst_map_to_list.
  - intros id. transitivity (is_Some (t_sessions s !! encode_session_id id)).
    + rewrite <- (list_elem_of_fmap_inj encode_session_id), Hmap, list_elem_of_fmap. split.
      * intros ([k row] & Hk & Hin%elem_of_map_to_list). simpl in Hk. rewrite Hk. eauto.
      * intros [row Hrow]. exists (encode_session_id id, row). split; [done|].
        by apply elem_of_map_to_list.
    + destruct (m !! id) as [[ss vs]|] eqn:Hm.
      * destruct (rel_some s m HR _ _ _ Hm) as (j & -> & _). naive_solver.
      * rewrite (rel_none s m HR _ Hm). by split; intros [].
Qed.
End SqliteRefinement.

(** ** Clients of the interface *)

(** One call of the trait with its observable result. *)
Inductive store_op :=
  | OInsert (ss : Session)
  | OGet (id : SessionId)
  | OUpdate (id : SessionId) (st : SessionState)
  | OApprove (id : SessionId) (v : VerifierId)
  | OHasApproved (id : SessionId) (v : VerifierId)
  | ORemove (id : SessionId)
  | OContains (id : SessionId).

Inductive store_obs :=
  | RUnit (r : result StorageError unit)
  | RSession (r : result StorageError Session)
  | RBool (b : bool).

Definition exec_op `{SessionStore St} (o : store_op) (s : St) : St * store_obs :=
  match o with
  | OInsert ss => let '(s', r) := insert ss s in (s', RUnit r)
  | OGet id => (s, RSession (get id s))
  | OUpdate id st => let '(s', r) := update_state id st s in (s', RUnit r)
  | OApprove id v => let '(s', r) := record_approval id v s in (s', RUnit r)
  | OHasApproved id v => (s, RBool (has_approved id v s))
  | ORemove id => let '(s', r) := remove id s in (s', RUnit r)
  | OContains id => (s, RBool (store_contains id s))
  end.

Fixpoint exec_ops `{SessionStore St} (os : list store_op) (s : St) : St * list store_obs :=
  match os with
  | [] => (s, [])
  | o :: os' =>
      let '(s1, r) := exec_op o s in
      let '(s2, rs) := exec_ops os' s1 in (s2, r :: rs)
  end.

Lemma exec_op_refines `{StoreSpec St} o s m :
  store_rel s m ->
  store_rel (exec_op o s).1 (exec_op o m).1 /\ (exec_op o s).2 = (exec_op o m).2.
Proof.
  intros HR. destruct o as [ss|id|id st|id v|id v|id|id]; cbn.
  - pose proof (insert_spec ss s m HR). destruct (insert ss s), (spec_insert ss m).
    simpl in *. intuition congruence.
  - split; [done|]. f_equal. by apply get_spec.
  - pose proof (update_state_spec id st s m HR).
    destruct (update_state id st s), (spec_update_state id st m). simpl in *. intuition congruence.
  - pose proof (record_approval_spec id v s m HR).
    destruct (record_approval id v s), (spec_record_approval id v m). simpl in *. intuition congruence.
  - split; [done|]. f_equal. by apply has_approved_spec.
  - pose proof (remove_spec id s m HR). destruct (remove id s). simpl in *. intuition congruence.
  - split; [done|]. f_equal. by apply contains_spec.
Qed.

Lemma exec_ops_refines `{StoreSpec St} os s m :
  store_rel s m ->
  store_rel (exec_ops os s).1 (exec_ops os m).1 /\ (exec_ops os s).2 = (exec_ops os m).2.
Proof.
  revert s m. induction os as [|o os IH]; intros s m HR; [done|]. cbn.
  destruct (exec_op_refines o s m HR) as [HR1 Hobs].
  destruct (exec_op o s) as [s1 r1], (exec_op o m) as [m1 r2]. simpl in *.
  destruct (IH _ _ HR1) as [HR2 Hrs].
  destruct (exec_ops os s1), (exec_ops os m1). simpl in *. split; [done | congruence].
Qed.

(** C16. The two stores are interchangeable: for every sequence of calls from an
    empty store, the in-memory and the SQLite implementation return the same
    results, call by call. *)
Theorem stores_observationally_equivalent `{SessionJson} (os : list store_op) :
  (exec_ops os InMemorySessionStore_new).2 = (exec_ops os Sqlite_open).2.
Proof.
  destruct (exec_ops_refines (H0:=MemStoreSpec) os InMemorySessionStore_new ∅ mem_rel_new) as [_ ->].
  by destruct (exec_ops_refines (H0:=SqlStoreSpec) os Sqlite_open ∅ sql_rel_open) as [_ ->].
Qed.

(** *** Replay protection *)

(** Concurrent calls of the in-memory store interleave at its critical sections:
    [record_approval] has two, the check of the session and the recording; every other
    call has one, which holds all the locks it needs. *)
Inductive store_section :=
  | SCall (o : store_op)
  | SCheck (id : SessionId) (v : VerifierId)
  | SCommit (id : SessionId) (v : VerifierId).

Definition mem_section (x : store_section) (s : InMemorySessionStore) : InMemorySessionStore * store_obs :=
  match x with
  | SCall o => exec_op o s
  | SCheck id _ => (s, RUnit (mem_approval_check id s))
  | SCommit id v => let '(s', r) := mem_approval_commit id v s in (s', RUnit r)
  end.

(** Section by section, whatever calls they belong to. *)
Fixpoint exec_sections {S} (exec : store_section -> S -> S * store_obs) (xs : list store_section) (s : S) : S * list store_obs :=
  match xs with
  | [] => (s, [])
  | x :: xs' =>
      let '(s1, r) := exec x s in
      let '(s2, rs) := exec_sections exec xs' s1 in (s2, r :: rs)
  end.

(** The sections on the abstract store: the recording does not look at the state. *)
Definition spec_commit (id : SessionId) (v : VerifierId) : stres store_spec StorageError unit := fun m =>
  match m !! id with
  | None => (m, Err NotFound)
  | Some (ss, vs) =>
      if bool_decide (v ∈ vs) then (m, Err (DuplicateApproval (VerifierId_to_string v)))
      else (<[id := (ss, {[v]} ∪ vs)]> m, Ok tt)
  end.
Definition spec_check (id : SessionId) (m : store_spec) : result StorageError unit :=
  p ← ok_or NotFound (m !! id);
  if is_terminal (state p.1) then Err SessionTerminated else Ok tt.
Definition spec_section (x : store_section) (m : store_spec) : store_spec * store_obs :=
  match x with
  | SCall o => exec_op o m
  | SCheck id _ => (m, RUnit (spec_check id m))
  | SCommit id v => let '(m', r) := spec_commit id v m in (m', RUnit r)
  end.

Definition inserts_ok (id : SessionId) (x : store_section) (r : store_obs) : bool :=
  match x, r with
  | SCall (OInsert ss), RUnit (Ok _) => bool_decide (session_id (context ss) = id)
  | _, _ => false
  end.
Definition approves_ok (id : SessionId) (v : VerifierId) (x : store_section) (r : store_obs) : bool :=
  match x, r with
  | SCall (OApprove id' v'), RUnit (Ok _) | SCommit id' v', RUnit (Ok _) => bool_decide (id' = id /\ v' = v)
  | _, _ => false
  end.
Definition removes (id : SessionId) (x : store_section) : bool :=
  match x with SCall (ORemove id') => bool_decide (id' = id) | _ => false end.

Definition count_ok (P : store_section -> store_obs -> bool) (xs : list store_section) (rs : list store_obs) : nat :=
  length (filter (fun p => P p.1 p.2 = true) (zip xs rs)).
Definition removals (id : SessionId) (xs : list store_section) : nat := length (filter (fun x => removes id x = true) xs).

(** Recording changes the approvals of its session only. *)
Lemma spec_commit_lookup id v id' m :
  (spec_commit id' v m).1 !! id = m !! id \/
  (id' = id /\ exists ss vs, m !! id = Some (ss, vs) /\ (v ∉ vs) /\ (spec_commit id' v m).2 = Ok tt /\
   (spec_commit id' v m).1 !! id = Some (ss, {[v]} ∪ vs)).
Proof.
  unfold spec_commit. destruct (m !! id') as [[ss vs]|] eqn:Hm; [|by left]. case_bool_decide as Hv; [by left|]. cbn [fst snd].
  destruct (decide (id' = id)) as [->|Hne]; [right|left; by rewrite lookup_insert_ne].
  split; [done|]. exists ss, vs. by rewrite lookup_insert_eq.
Qed.
Lemma spec_commit_Ok id v m : (spec_commit id v m).2 = Ok tt ->
  exists ss vs, m !! id = Some (ss, vs) /\ (v ∉ vs) /\ (spec_commit id v m).1 = <[id := (ss, {[v]} ∪ vs)]> m.
Proof. unfold spec_commit. destruct (m !! id) as [[ss vs]|]; [|done]. case_bool_decide; [done|]. eauto. Qed.

(** An approval recorded in one go is one that passed the check. *)
Lemma spec_approval_sections id v m :
  spec_record_approval id v m = match spec_check id m with Ok _ => spec_commit id v m | Err e => (m, Err e) end.
Proof.
  unfold spec_record_approval, spec_check, spec_commit. destruct (m !! id) as [[ss vs]|]; [|done]. cbn [ok_or mbind result_bind fst].
  by destruct (is_terminal (state ss)).
Qed.

(** Successful inserts of [id] are possible only while [id] is absent, and make
    it present; the same for approvals. *)
Lemma spec_step_insert id x (m : store_spec) :
  removes id x = false ->
  (inserts_ok id x (spec_section x m).2 = true -> m !! id = None) /\
  (inserts_ok id x (spec_section x m).2 = true \/ is_Some (m !! id) -> is_Some ((spec_section x m).1 !! id)).
Proof.
  assert (Hcommit : forall id' v, is_Some (m !! id) -> is_Some ((spec_commit id' v m).1 !! id)).
  { intros id' v Hs. destruct (spec_commit_lookup id v id' m) as [->|(_ & ss & vs & _ & _ & _ & ->)]; eauto. }
  intros Hno. destruct x as [[ss|id'|id' st|id' v|id' v|id'|id']|id' v|id' v]; cbn in *.
  - unfold spec_insert. destruct (m !! session_id (context ss)) as [?|] eqn:Hm; cbn.
    + split; [done|]. intros [|]; done.
    + rewrite bool_decide_eq_true. split; [by intros <-|].
      destruct (decide (session_id (context ss) = id)) as [<-|Hne]; [rewrite lookup_insert_eq; eauto|].
      rewrite lookup_insert_ne by done. naive_solver.
  - naive_solver.
  - unfold spec_update_state. destruct (m !! id') as [[ss vs]|] eqn:Hm; cbn; [|naive_solver].
    destruct (is_terminal (state ss)); cbn; [naive_solver|]. split; [done|].
    intros [|Hs]; [done|]. destruct (decide (id' = id)) as [->|]; simplify_map_eq; eauto.
  - rewrite spec_approval_sections. destruct (spec_check id' m); cbn; [|naive_solver].
    pose proof (Hcommit id' v). destruct (spec_commit id' v m). naive_solver.
  - naive_solver.
  - apply bool_decide_eq_false in Hno. split; [done|]. intros [|Hs]; [done|]. by rewrite lookup_delete_ne.
  - naive_solver.
  - naive_solver.
  - pose proof (Hcommit id' v). destruct (spec_commit id' v m). naive_solver.
Qed.

Lemma spec_commit_approve id v id' v' m :
  (bool_decide (id' = id /\ v' = v) = true -> (spec_commit id' v' m).2 = Ok tt -> spec_has_approved id v m = false) /\
  ((bool_decide (id' = id /\ v' = v) = true /\ (spec_commit id' v' m).2 = Ok tt) \/ spec_has_approved id v m = true ->
   spec_has_approved id v (spec_commit id' v' m).1 = true).
Proof.
  unfold spec_has_approved. rewrite bool_decide_eq_true. split.
  - intros [-> ->] (ss & vs & -> & Hv & _)%spec_commit_Ok. by apply bool_decide_eq_false_2.
  - intros [[[-> ->] (ss & vs & _ & _ & ->)%spec_commit_Ok]|Hold].
    + rewrite lookup_insert_eq. apply bool_decide_eq_true_2. set_solver.
    + destruct (spec_commit_lookup id v' id' m) as [->|(_ & ss & vs & Hm & _ & _ & ->)]; [done|].
      rewrite Hm, bool_decide_eq_true in Hold. apply bool_decide_eq_true_2. set_solver.
Qed.

Lemma spec_step_approve id v x (m : store_spec) :
  removes id x = false ->
  (approves_ok id v x (spec_section x m).2 = true -> spec_has_approved id v m = false) /\
  (approves_ok id v x (spec_section x m).2 = true \/ spec_has_approved id v m = true ->
   spec_has_approved id v (spec_section x m).1 = true).
Proof.
  intros Hno. destruct x as [[ss|id'|id' st|id' v'|id' v'|id'|id']|id' v'|id' v']; cbn in *.
  - unfold spec_insert, spec_has_approved.
    destruct (m !! session_id (context ss)) as [?|] eqn:Hm; cbn; [naive_solver|]. split; [done|].
    destruct (decide (session_id (context ss) = id)) as [<-|Hne]; [rewrite Hm; naive_solver|].
    rewrite lookup_insert_ne by done. naive_solver.
  - naive_solver.
  - unfold spec_update_state, spec_has_approved.
    destruct (m !! id') as [[ss vs]|] eqn:Hm; cbn; [|naive_solver].
    destruct (is_terminal (state ss)); cbn; [naive_solver|]. split; [done|].
    intros [|Hs]; [done|]. destruct (decide (id' = id)) as [->|]; by simplify_map_eq.
  - rewrite spec_approval_sections. destruct (spec_check id' m); cbn; [|naive_solver].
    destruct (spec_commit_approve id v id' v' m) as [H1 H2]. destruct (spec_commit id' v' m) as [m' [[]|e]]; naive_solver.
  - naive_solver.
  - apply bool_decide_eq_false in Hno. split; [done|]. unfold spec_has_approved. intros [|Hs]; [done|].
    by rewrite lookup_delete_ne.
  - naive_solver.
  - naive_solver.
  - destruct (spec_commit_approve id v id' v' m) as [H1 H2]. destruct (spec_commit id' v' m) as [m' [[]|e]]; naive_solver.
Qed.

(** A terminal session keeps its state; only a recording can add to its approvals. *)
Lemma spec_step_terminal id x (m : store_spec) ss vs :
  removes id x = false -> m !! id = Some (ss, vs) -> is_terminal (state ss) = true ->
  exists vs', (spec_section x m).1 !! id = Some (ss, vs') /\ ((forall v, x <> SCommit id v) -> vs' = vs).
Proof.
  intros Hno Hm Ht. destruct x as [[ss'|id'|id' st|id' v'|id' v'|id'|id']|id' v'|id' v']; cbn in *; try (by exists vs).
  - exists vs. unfold spec_insert. destruct (m !! session_id (context ss')) eqn:Hm'; cbn; [done|].
    rewrite lookup_insert_ne; [done|]. congruence.
  - exists vs. unfold spec_update_state. destruct (m !! id') as [[ss' vs']|] eqn:Hm'; cbn; [|done].
    destruct (is_terminal (state ss')) eqn:Ht'; cbn; [done|].
    rewrite lookup_insert_ne; [done|]. congruence.
  - exists vs. unfold spec_record_approval. destruct (m !! id') as [[ss' vs']|] eqn:Hm'; cbn; [|done].
    destruct (is_terminal (state ss')) eqn:Ht'; cbn; [done|]. case_bool_decide; cbn; [done|].
    rewrite lookup_insert_ne; [done|]. congruence.
  - apply bool_decide_eq_false in Hno. exists vs. by rewrite lookup_delete_ne.
  - destruct (spec_commit_lookup id v' id' m) as [Heq|(Hid & ss0 & vs0 & Hm0 & _ & _ & Heq)];
      destruct (spec_commit id' v' m) as [m' r]; cbn in *; rewrite Heq; [by exists vs|].
    rewrite Hm in Hm0. injection Hm0 as <- <-. eexists. split; [done|]. intros Hne. subst id'. by destruct (Hne v').
Qed.

(** If an event is possible only in states without a mark, and the event and
    the mark both lead to marked states unless the session is removed, it happens
    at most once more than the session is removed. *)
Lemma count_between_removals id (P : store_section -> store_obs -> bool) (mark : store_spec -> bool) xs m :
  (forall x m, removes id x = false ->
    (P x (spec_section x m).2 = true -> mark m = false) /\
    (P x (spec_section x m).2 = true \/ mark m = true -> mark (spec_section x m).1 = true)) ->
  (forall x r, removes id x = true -> P x r = false) ->
  (count_ok P xs (exec_sections spec_section xs m).2 <= (if mark m then 0 else 1) + removals id xs)%nat.
Proof.
  intros Hstep Hrem. revert m. induction xs as [|x xs IH]; intros m; [unfold count_ok; simpl; lia|].
  cbn [exec_sections]. specialize (Hstep x m). specialize (IH (spec_section x m).1).
  destruct (spec_section x m) as [m1 r]. cbn [fst snd] in *.
  destruct (exec_sections spec_section xs m1) as [m2 rs]. cbn [fst snd] in *.
  unfold count_ok, removals in *. cbn [zip_with]. rewrite !filter_cons.
  case_decide as HP; case_decide as Hx; cbn [fst snd length] in *.
  - rewrite (Hrem x r Hx) in HP. done.
  - apply not_true_is_false in Hx. destruct (Hstep Hx) as [H1 H2]. rewrite (H1 HP). rewrite (H2 (or_introl HP)) in IH. lia.
  - destruct (mark m), (mark m1); lia.
  - apply not_true_is_false in Hx. destruct (Hstep Hx) as [H1 H2].
    destruct (mark m); [rewrite (H2 (or_intror eq_refl)) in IH; lia|]. etrans; [exact IH|]. destruct (mark m1); lia.
Qed.

Lemma terminal_frozen id xs (m : store_spec) ss vs :
  removals id xs = 0%nat -> m !! id = Some (ss, vs) -> is_terminal (state ss) = true ->
  exists vs', (exec_sections spec_section xs m).1 !! id = Some (ss, vs') /\ (Forall (fun x => forall v, x <> SCommit id v) xs -> vs' = vs).
Proof.
  unfold removals. revert m vs. induction xs as [|x xs IH]; intros m vs Hno Hm Ht; [by exists vs|].
  rewrite filter_cons in Hno. case_decide as Hx; [done|]. apply not_true_is_false in Hx.
  destruct (spec_step_terminal id x m ss vs Hx Hm Ht) as (vs1 & Hm1 & Hv1). cbn [exec_sections].
  destruct (spec_section x m) as [m1 r]. destruct (IH m1 vs1 Hno Hm1 Ht) as (vs2 & Hm2 & Hv2).
  destruct (exec_sections spec_section xs m1) as [m2 rs]. exists vs2. split; [done|]. intros Hall. inv Hall.
  rewrite Hv2 by done. by apply Hv1.
Qed.

(** Calls are sections that are not divided. *)
Lemma exec_ops_sections os (m : store_spec) : exec_ops os m = exec_sections spec_section (SCall <$> os) m.
Proof.
  revert m. induction os as [|o os IH]; intros m; [done|]. cbn [exec_ops fmap list_fmap exec_sections spec_section].
  destruct (exec_op o m) as [m1 r]. by rewrite IH.
Qed.

Lemma mem_section_sim x s m : mem_rel s m ->
  mem_rel (mem_section x s).1 (spec_section x m).1 /\ (mem_section x s).2 = (spec_section x m).2.
Proof.
  intros HR. destruct x as [o|id v|id v]; cbn [mem_section spec_section].
  - apply (exec_op_refines (H0:=MemStoreSpec) o s m HR).
  - split; [done|]. unfold mem_approval_check, spec_check.
    by destruct (mem_rel_lookup s m id HR) as [(-> & -> & _)|(ss & vs & -> & -> & _)].
  - unfold mem_approval_commit, spec_commit.
    destruct (mem_rel_lookup s m id HR) as [(-> & Hs & ->)|(ss & vs & -> & Hs & ->)]; [done|].
    case_bool_decide; [done|]. split; [|done]. cbn [fst]. rewrite <- (insert_id (sessions s) id ss) by done. by apply mem_rel_insert.
Qed.
Lemma mem_sections_sim xs s m : mem_rel s m ->
  mem_rel (exec_sections mem_section xs s).1 (exec_sections spec_section xs m).1 /\
  (exec_sections mem_section xs s).2 = (exec_sections spec_section xs m).2.
Proof.
  revert s m. induction xs as [|x xs IH]; intros s m HR; [done|]. cbn [exec_sections].
  destruct (mem_section_sim x s m HR) as [HR1 Hr]. destruct (mem_section x s) as [s1 r], (spec_section x m) as [m1 r']. cbn [fst snd] in *.
  destruct (IH s1 m1 HR1) as [HR2 Hrs]. destruct (exec_sections mem_section xs s1), (exec_sections spec_section xs m1).
  cbn [fst snd] in *. split; congruence.
Qed.

Lemma spec_replay_protection id v xs m :
  let rs := (exec_sections spec_section xs m).2 in
  (count_ok (inserts_ok id) xs rs <= 1 + removals id xs)%nat /\ (count_ok (approves_ok id v) xs rs <= 1 + removals id xs)%nat.
Proof.
  split.
  - etrans; [apply (count_between_removals id _ (spec_contains id))|destruct (spec_contains id m); lia].
    + intros x m' Hx. unfold spec_contains. rewrite bool_decide_eq_false, !bool_decide_eq_true.
      destruct (spec_step_insert id x m' Hx) as [H1 H2]. split; [|done]. intros Hi. rewrite (H1 Hi). by intros [].
    + by intros [[]| |] r.
  - etrans; [apply (count_between_removals id _ (spec_has_approved id v))|destruct (spec_has_approved id v m); lia].
    + intros x m' Hx. by apply spec_step_approve.
    + by intros [[]| |] r.
Qed.

(** C8. Replay protection. (1) For every implementation of the contract and every sequence of calls:
    a session identifier is inserted, and an approval of it by one verifier
    recorded, at most once more often than it is removed, so at most once
    where it is not removed; and then a session that is terminal keeps its state and its
    approvals. (2) For the in-memory store also when calls of several threads
    interleave at its critical sections, in every order of the sections, except that a
    terminal session may then still gain approvals, from recordings whose check came
    before. *)
Theorem store_replay_protection id v :
  (forall `{StoreSpec St} (s : St) m os, store_rel s m ->
     let '(s', rs) := exec_ops os s in let xs := SCall <$> os in
     (count_ok (inserts_ok id) xs rs <= 1 + removals id xs)%nat /\
     (count_ok (approves_ok id v) xs rs <= 1 + removals id xs)%nat /\
     (removals id xs = 0%nat -> forall ss, get id s = Ok ss -> is_terminal (state ss) = true ->
        get id s' = Ok ss /\ has_approved id v s' = has_approved id v s)) /\
  (forall s m xs, mem_rel s m ->
     let '(s', rs) := exec_sections mem_section xs s in
     (count_ok (inserts_ok id) xs rs <= 1 + removals id xs)%nat /\
     (count_ok (approves_ok id v) xs rs <= 1 + removals id xs)%nat /\
     (removals id xs = 0%nat -> forall ss, get id s = Ok ss -> is_terminal (state ss) = true ->
        get id s' = Ok ss /\
        (Forall (fun x => forall v, x <> SCommit id v) xs -> has_approved id v s' = has_approved id v s))).
Proof.
  split.
  - intros St St_ops Spec s m os HR. destruct (exec_ops_refines os s m HR) as [HR' Hrs].
    destruct (exec_ops os s) as [s' rs]. cbn [fst snd] in HR', Hrs. subst rs. rewrite exec_ops_sections in *. cbv zeta.
    destruct (spec_replay_protection id v (SCall <$> os) m) as [H1 H2]. split_and!; [done..|].
    intros Hno ss Hget Ht. rewrite (get_spec id s m HR) in Hget. rewrite (get_spec id s' _ HR'), (has_approved_spec id v s' _ HR'),
      (has_approved_spec id v s m HR). unfold spec_get in *. destruct (m !! id) as [[ss0 vs]|] eqn:Hm; simplify_eq/=.
    destruct (terminal_frozen id (SCall <$> os) m ss vs Hno Hm Ht) as (vs' & Hm' & Hvs). unfold spec_has_approved.
    rewrite Hm', Hm, Hvs; [done|]. apply Forall_fmap, Forall_true. done.
  - intros s m xs HR. destruct (mem_sections_sim xs s m HR) as [HR' Hrs].
    destruct (exec_sections mem_section xs s) as [s' rs]. cbn [fst snd] in HR', Hrs. subst rs.
    destruct (spec_replay_protection id v xs m) as [H1 H2]. split_and!; [done..|].
    intros Hno ss Hget Ht. rewrite (get_spec (StoreSpec:=MemStoreSpec) id s m HR) in Hget.
    rewrite (get_spec (StoreSpec:=MemStoreSpec) id s' _ HR'), (has_approved_spec (StoreSpec:=MemStoreSpec) id v s' _ HR'),
      (has_approved_spec (StoreSpec:=MemStoreSpec) id v s m HR). unfold spec_get in *. destruct (m !! id) as [[ss0 vs]|] eqn:Hm; simplify_eq/=.
    destruct (terminal_frozen id xs m ss vs Hno Hm Ht) as (vs' & Hm' & Hvs). unfold spec_has_approved.
    rewrite Hm', Hm. split; [done|]. intros Hall. by rewrite Hvs.
Qed.

(** A removed identifier can be inserted again: nothing remembers it. *)
Theorem removed_id_is_recycled `{StoreSpec St} (s : St) m ss :
  store_rel s m -> m !! session_id (context ss) = None ->
  (exec_ops [OInsert ss; ORemove (session_id (context ss)); OContains (session_id (context ss)); OInsert ss] s).2
  = [RUnit (Ok tt); RUnit (Ok tt); RBool false; RUnit (Ok tt)].
Proof.
  intros HR Hm. destruct (exec_ops_refines [OInsert ss; ORemove (session_id (context ss)); OContains (session_id (context ss)); OInsert ss] s m HR) as [_ ->].
  cbn. unfold spec_insert at 1. rewrite Hm. cbn. unfold spec_insert, spec_contains. rewrite lookup_delete_eq. cbn.
  done.
Qed.

(** ** Concrete instances *)

(** Two threads record the approval of one verifier and a third finalizes the session
    between their checks and their recordings; then it is inserted again. *)
Lemma store_replay_protection_witness :
  let s := example_store Collecting ∅ in
  let xs := [SCheck (sid 7) (vid 1); SCheck (sid 7) (vid 1); SCall (OUpdate (sid 7) Finalized);
             SCommit (sid 7) (vid 1); SCommit (sid 7) (vid 1); SCall (OInsert (Session_new example_context))] in
  let '(s', rs) := exec_sections mem_section xs s in
  rs = [RUnit (Ok tt); RUnit (Ok tt); RUnit (Ok tt); RUnit (Ok tt);
        RUnit (Err (DuplicateApproval (VerifierId_to_string (vid 1)))); RUnit (Err AlreadyExists)] /\
  (count_ok (inserts_ok (sid 7)) xs rs <= 1)%nat /\ (count_ok (approves_ok (sid 7) (vid 1)) xs rs <= 1)%nat.
Proof.
  intros s xs. assert (HR : mem_rel s {[ sid 7 := (MkSession example_context Collecting, ∅) ]}).
  { apply (mem_rel_insert _ _ (sid 7) (MkSession example_context Collecting) ∅ mem_rel_new). }
  pose proof (proj2 (store_replay_protection (sid 7) (vid 1)) s _ xs HR) as Hw.
  assert (Hrs : (exec_sections mem_section xs s).2 = [RUnit (Ok tt); RUnit (Ok tt); RUnit (Ok tt); RUnit (Ok tt);
        RUnit (Err (DuplicateApproval (VerifierId_to_string (vid 1)))); RUnit (Err AlreadyExists)]) by (vm_compute; reflexivity).
  destruct (exec_sections mem_section xs s) as [s' rs]. cbn [snd] in Hrs. destruct Hw as (H1 & H2 & _).
  exact (conj Hrs (conj H1 H2)).
Defined.

(** A serializer of sessions for which the round trip holds: the binary digits
    of an injective encoding. *)
#[export] Instance ProverId_countable : Countable ProverId := AsBytes_countable.
#[export] Instance Nonce_countable : Countable Nonce := AsBytes_countable.
#[export] Instance DigestBytes_countable : Countable DigestBytes := AsBytes_countable.

#[export] Instance SessionState_countable : Countable SessionState.
Proof.
  refine (inj_countable'
    (fun s => match s with
      | Pending => inl 0%nat | Active => inl 1%nat | Attesting => inl 2%nat
      | Collecting => inl 3%nat | Finalized => inl 4%nat | Expired => inl 5%nat
      | Failed r => inr r end)
    (fun x => match x with
      | inl 0%nat => Pending | inl 1%nat => Active | inl 2%nat => Attesting
      | inl 3%nat => Collecting | inl 4%nat => Finalized | inl _ => Expired
      | inr r => Failed r end) _).
  by intros [].
Defined.

#[export] Instance Session_eq_dec : EqDecision Session.
Proof. solve_decision. Defined.

#[export] Instance Session_countable : Countable Session.
Proof.
  refine (inj_countable'
    (fun s => let c := context s in
      (state s, session_id c, prover_id c, coordinator_id c, verifiers (quorum c),
       threshold (quorum c), Epoch_0 (epoch c), UnixTimestamp_0 (created_at c),
       UnixTimestamp_0 (expires_at c), nonce c, session_digest c))
    (fun '(st, a, b, c, vs, t, e, ca, ea, n, d) =>
      MkSession (MkSessionContext a b c (MkQuorumSpec vs t) (MkEpoch e) (MkUnixTimestamp ca)
        (MkUnixTimestamp ea) n d) st) _).
  by intros [[??? [] [] [] [] ??] ?].
Defined.

Fixpoint bin_string (p : positive) : string :=
  match p with
  | xH => EmptyString
  | xO p => String "0" (bin_string p)
  | xI p => String "1" (bin_string p)
  end.
Fixpoint bin_parse (s : string) : positive :=
  match s with
  | EmptyString => xH
  | String c s => if bool_decide (c = "0"%char) then xO (bin_parse s) else xI (bin_parse s)
  end.
Lemma bin_parse_string p : bin_parse (bin_string p) = p.
Proof. induction p as [p IH|p IH|]; simpl; rewrite ?IH; done. Qed.

Definition binary_json : SessionJson.
Proof.
  refine {| to_json ss := Ok (bin_string (encode ss));
            from_json j := ok_or "invalid" (decode (bin_parse j)) |}.
  intros ss. eexists; split; [done|]. by rewrite bin_parse_string, decode_encode.
Defined.

Lemma sqlite_all_session_ids_witness :
  let s := (sql_insert (H:=binary_json) (Session_new example_context) Sqlite_open).1 in
  exists ids, all_session_ids s = Ok ids /\ NoDup ids /\
    (forall id, id ∈ ids <-> is_Some ((spec_insert (Session_new example_context) ∅).1 !! id)).
Proof.
  apply (sqlite_all_session_ids (H:=binary_json)).
  apply (sql_insert_sim (H:=binary_json)), sql_rel_open.
Defined.

Lemma stores_observationally_equivalent_witness :
  let os := [OInsert (Session_new example_context); OUpdate (sid 7) Active; OGet (sid 7)] in
  (exec_ops os InMemorySessionStore_new).2 = (exec_ops (H:=SqlStore (H:=binary_json)) os Sqlite_open).2.
Proof. apply (stores_observationally_equivalent (H:=binary_json)). Defined.
