(* ===== verification/Attestation.v ===== *)
(** * Transcript commitments, statements, attestation packages and envelopes

    Models [crypto/src/transcript.rs], [attestation/src/statement.rs],
    [attestation/src/engine.rs] (evidence, packages, the engine trait and the
    prototype engine) and [attestation/src/envelope.rs], with the threshold
    approval type of [crypto/src/threshold.rs] that an envelope carries.

    Each digest is defined from the hasher state it finalizes ([..._hasher]), so
    that binding theorems can name the absorbed bytes. *)

From S2P Require Import Prelude Core Session.

(** ** Transcript commitments (transcript.rs) *)

Record TranscriptCommitment := MkTranscriptCommitment { role : string; tc_digest : DigestBytes }.

#[export] Instance TranscriptCommitment_eq_dec : EqDecision TranscriptCommitment.
Proof. solve_decision. Defined.

Record TranscriptCommitments := MkTranscriptCommitments {
  tc_query : TranscriptCommitment;
  tc_response : TranscriptCommitment;
  session_transcript_digest : DigestBytes
}.

#[export] Instance TranscriptCommitments_eq_dec : EqDecision TranscriptCommitments.
Proof. solve_decision. Defined.

Definition commitment_hasher (role : string) (sid : SessionId) (rand : DigestBytes) (data : bytes)
    : CanonicalHasher :=
  let domain := "tls-attestation/transcript/" +:+ role +:+ "/v1" in
  let h := CanonicalHasher_new domain in
  let h := update_fixed (as_bytes sid) h in
  let h := update_digest rand h in
  update_bytes data h.

Definition session_transcript_hasher (sid : SessionId) (q r : DigestBytes) : CanonicalHasher :=
  let h := CanonicalHasher_new "tls-attestation/session-transcript/v1" in
  let h := update_fixed (as_bytes sid) h in
  let h := update_digest q h in
  update_digest r h.

Section Transcript.
Context {Hs : Sha256}.

Definition TranscriptCommitment_compute (role : string) (sid : SessionId) (rand : DigestBytes)
    (data : bytes) : TranscriptCommitment :=
  {| role := role; tc_digest := finalize (commitment_hasher role sid rand data) |}.

Definition TranscriptCommitment_verify (self : TranscriptCommitment) (sid : SessionId)
    (rand : DigestBytes) (data : bytes) : bool :=
  let expected := TranscriptCommitment_compute (role self) sid rand data in
  bool_decide (tc_digest self = tc_digest expected).

Definition TranscriptCommitments_build (sid : SessionId) (rand : DigestBytes)
    (query response : bytes) : TranscriptCommitments :=
  let query_commitment := TranscriptCommitment_compute "query" sid rand query in
  let response_commitment := TranscriptCommitment_compute "response" sid rand response in
  {| tc_query := query_commitment;
     tc_response := response_commitment;
     session_transcript_digest :=
       finalize (session_transcript_hasher sid (tc_digest query_commitment)
                   (tc_digest response_commitment)) |}.
End Transcript.

(** ** Statements (statement.rs) *)

Record StatementPayload := MkStatementPayload {
  content : bytes;
  derivation_tag : string;
  statement_digest : DigestBytes
}.

Definition statement_hasher (tag : string) (std : DigestBytes) (content : bytes) : CanonicalHasher :=
  let h := CanonicalHasher_new "tls-attestation/statement/v1" in
  let h := update_bytes (string_bytes tag) h in
  let h := update_digest std h in
  update_bytes content h.

Section Statement.
Context {Hs : Sha256}.

Definition derive_statement_digest (tag : string) (std : DigestBytes) (content : bytes)
    : DigestBytes :=
  finalize (statement_hasher tag std content).

Definition StatementPayload_new (content : bytes) (tag : string) (std : DigestBytes)
    : StatementPayload :=
  {| content := content; derivation_tag := tag;
     statement_digest := derive_statement_digest tag std content |}.

Definition StatementPayload_verify_digest (self : StatementPayload) (std : DigestBytes) : bool :=
  let expected := derive_statement_digest (derivation_tag self) std (content self) in
  bool_decide (statement_digest self = expected).
End Statement.

(** ** Evidence and packages (engine.rs) *)

Definition PROTOTYPE_ENGINE_TAG : string := "prototype-attestation/v1".

Record ExportableEvidence := MkExportableEvidence {
  engine_tag : string;
  ev_bytes : bytes;
  evidence_digest : DigestBytes
}.

Record CoordinatorEvidence := MkCoordinatorEvidence {
  ce_engine_tag : string;
  ce_evidence_digest : DigestBytes;
  ce_package_digest : DigestBytes
}.

Record AttestationPackage := MkAttestationPackage {
  session_context : SessionContext;
  randomness_value : DigestBytes;
  transcript_commitments : TranscriptCommitments;
  evidence : ExportableEvidence;
  package_digest : DigestBytes
}.

Definition evidence_hasher (tag : string) (bs : bytes) : CanonicalHasher :=
  let h := CanonicalHasher_new "tls-attestation/evidence/v1" in
  let h := update_bytes (string_bytes tag) h in
  update_bytes bs h.

Definition package_hasher (sd rand std ed : DigestBytes) : CanonicalHasher :=
  let h := CanonicalHasher_new "tls-attestation/attestation-package/v1" in
  let h := update_digest sd h in
  let h := update_digest rand h in
  let h := update_digest std h in
  update_digest ed h.

(** [format!] of the prototype engine's evidence. *)
Definition prototype_evidence_bytes (sid : SessionId) (query response : bytes) : bytes :=
  let q := String (Ascii.ascii_of_N 34) EmptyString in
  string_bytes
    ("{" +:+ q +:+ "engine" +:+ q +:+ ":" +:+ q +:+ "prototype" +:+ q +:+ "," +:+
     q +:+ "query_len" +:+ q +:+ ":" +:+ pretty (Z.of_nat (length query)) +:+ "," +:+
     q +:+ "response_len" +:+ q +:+ ":" +:+ pretty (Z.of_nat (length response)) +:+ "," +:+
     q +:+ "session_id" +:+ q +:+ ":" +:+ q +:+ SessionId_to_string sid +:+ q +:+ "}").

(** The trait [AttestationEngine]. *)
Class AttestationEngine := execute :
  SessionContext -> DigestBytes -> bytes -> bytes ->
  result AttestationError (TranscriptCommitments * ExportableEvidence).

Section Engine.
Context {Hs : Sha256}.

Definition ExportableEvidence_new (tag : string) (bs : bytes) : ExportableEvidence :=
  {| engine_tag := tag; ev_bytes := bs; evidence_digest := finalize (evidence_hasher tag bs) |}.

Definition AttestationPackage_compute_digest (sd rand std ed : DigestBytes) : DigestBytes :=
  finalize (package_hasher sd rand std ed).

Definition AttestationPackage_build (sc : SessionContext) (rand : DigestBytes)
    (tc : TranscriptCommitments) (ev : ExportableEvidence) : AttestationPackage :=
  {| session_context := sc; randomness_value := rand; transcript_commitments := tc;
     evidence := ev;
     package_digest := AttestationPackage_compute_digest (session_digest sc) rand
       (session_transcript_digest tc) (evidence_digest ev) |}.

Definition PrototypeAttestationEngine : AttestationEngine :=
  fun session randomness query response =>
    let tc := TranscriptCommitments_build (session_id session) randomness query response in
    let evidence_bytes := prototype_evidence_bytes (session_id session) query response in
    Ok (tc, ExportableEvidence_new PROTOTYPE_ENGINE_TAG evidence_bytes).
End Engine.

(** ** Envelopes (envelope.rs) *)

(** [ThresholdApproval] of [crypto/src/threshold.rs]. *)
Record ThresholdApproval := MkThresholdApproval {
  ta_quorum : QuorumSpec;
  signers : list VerifierId;
  signatures : list (VerifierId * bytes);
  signed_digest : DigestBytes
}.

Record RandomnessBinding := MkRandomnessBinding {
  rb_id : RandomnessId;
  rb_value : DigestBytes;
  rb_epoch : Epoch;
  rb_session_binding : DigestBytes
}.

Record AttestationEnvelope := MkAttestationEnvelope {
  env_session : SessionContext;
  env_randomness : RandomnessBinding;
  env_transcript : TranscriptCommitments;
  env_statement : StatementPayload;
  env_coordinator_evidence : CoordinatorEvidence;
  env_threshold_approval : ThresholdApproval;
  envelope_digest : DigestBytes
}.

Definition envelope_hasher (s : SessionContext) (r : RandomnessBinding)
    (t : TranscriptCommitments) (st : StatementPayload) (ce : CoordinatorEvidence)
    : CanonicalHasher :=
  let h := CanonicalHasher_new "tls-attestation/envelope/v1" in
  let h := session_fields (session_id s) (prover_id s) (coordinator_id s) (quorum s) (epoch s)
             (created_at s) (expires_at s) (nonce s) h in
  let h := update_fixed (as_bytes (rb_id r)) h in
  let h := update_digest (rb_value r) h in
  let h := update_u64 (Epoch_0 (rb_epoch r)) h in
  let h := update_digest (rb_session_binding r) h in
  let h := update_digest (tc_digest (tc_query t)) h in
  let h := update_digest (tc_digest (tc_response t)) h in
  let h := update_digest (session_transcript_digest t) h in
  let h := update_bytes (string_bytes (derivation_tag st)) h in
  let h := update_digest (statement_digest st) h in
  let h := update_bytes (string_bytes (ce_engine_tag ce)) h in
  let h := update_digest (ce_evidence_digest ce) h in
  update_digest (ce_package_digest ce) h.

Section Envelope.
Context {Hs : Sha256}.

Definition AttestationEnvelope_compute_digest (s : SessionContext) (r : RandomnessBinding)
    (t : TranscriptCommitments) (st : StatementPayload) (ce : CoordinatorEvidence)
    : DigestBytes :=
  finalize (envelope_hasher s r t st ce).

Definition AttestationEnvelope_assemble (s : SessionContext) (r : RandomnessBinding)
    (t : TranscriptCommitments) (st : StatementPayload) (ce : CoordinatorEvidence)
    (ta : ThresholdApproval) : AttestationEnvelope :=
  {| env_session := s; env_randomness := r; env_transcript := t; env_statement := st;
     env_coordinator_evidence := ce; env_threshold_approval := ta;
     envelope_digest := AttestationEnvelope_compute_digest s r t st ce |}.

Definition AttestationEnvelope_verify_digest (self : AttestationEnvelope) : bool :=
  let expected := AttestationEnvelope_compute_digest (env_session self) (env_randomness self)
    (env_transcript self) (env_statement self) (env_coordinator_evidence self) in
  bool_decide (envelope_digest self = expected).
End Envelope.

(** ** Binding properties *)

(** The fixed domain tags of the modelled hashes. *)
Lemma role_domain_fits (role : string) :
  Z.of_nat (length (string_bytes role)) < 2 ^ 31 ->
  domain_fits ("tls-attestation/transcript/" +:+ role +:+ "/v1").
Proof.
  unfold domain_fits, string_bytes. rewrite !length_fmap.
  intros Hr.
  assert (Happ : forall s t, length (String.list_ascii_of_string (s +:+ t))
    = (length (String.list_ascii_of_string s) + length (String.list_ascii_of_string t))%nat).
  { induction s as [|c s IH]; intros t; simpl; [done|]. by rewrite IH. }
  rewrite !Happ.
  change (length (String.list_ascii_of_string "tls-attestation/transcript/")) with 27%nat.
  change (length (String.list_ascii_of_string "/v1")) with 3%nat. lia.
Qed.

Lemma string_length_app s t : String.length (s +:+ t) = (String.length s + String.length t)%nat.
Proof. induction s as [|c s IH]; simpl; [done|]. by rewrite IH. Qed.

Lemma string_app_inj_l s t u : s +:+ t = s +:+ u -> t = u.
Proof. induction s as [|c s IH]; [done|]. intros [= Heq]. by apply IH. Qed.

Lemma string_app_inj_r s t u : s +:+ u = t +:+ u -> s = t.
Proof.
  intros Heq. assert (Hlen : String.length s = String.length t).
  { apply (f_equal String.length) in Heq. rewrite !string_length_app in Heq. lia. }
  revert t Heq Hlen. induction s as [|c s IH]; intros [|d t]; simpl; try done.
  intros [= -> Heq] [= Hlen]. f_equal. by apply IH.
Qed.

Section Binding.
Context {Hs : Sha256}.

Lemma commitment_hasher_binding role1 role2 s1 s2 r1 r2 d1 d2 :
  Z.of_nat (length (string_bytes role1)) < 2 ^ 31 ->
  Z.of_nat (length (string_bytes role2)) < 2 ^ 31 ->
  vec_fits d1 -> vec_fits d2 ->
  finalize (commitment_hasher role1 s1 r1 d1) = finalize (commitment_hasher role2 s2 r2 d2) ->
  (role1 = role2 /\ s1 = s2 /\ r1 = r2 /\ d1 = d2) \/
  collision (inner (commitment_hasher role1 s1 r1 d1)) (inner (commitment_hasher role2 s2 r2 d2)).
Proof.
  intros Hr1 Hr2 Hd1 Hd2 [Heq|Hc]%finalize_eq_or_collision; [left|by right].
  unfold commitment_hasher in Heq. unfold_hasher Heq.
  apply domain_prefix_inj in Heq as [Hdom Heq]; [|by apply role_domain_fits..].
  split_enc Heq. simplify_enc. apply string_app_inj_l, string_app_inj_r in Hdom. by subst.
Qed.

(** A transcript commitment binds its role, session, randomness and data:
    two commitments with the same digest agree on all four, or their absorbed
    bytes collide. A commitment cannot be reused for the other role, another
    session or another randomness value. *)
Theorem transcript_commitment_binding role1 role2 s1 s2 r1 r2 d1 d2 :
  Z.of_nat (length (string_bytes role1)) < 2 ^ 31 ->
  Z.of_nat (length (string_bytes role2)) < 2 ^ 31 ->
  vec_fits d1 -> vec_fits d2 ->
  tc_digest (TranscriptCommitment_compute role1 s1 r1 d1)
    = tc_digest (TranscriptCommitment_compute role2 s2 r2 d2) ->
  (role1 = role2 /\ s1 = s2 /\ r1 = r2 /\ d1 = d2) \/
  collision (inner (commitment_hasher role1 s1 r1 d1)) (inner (commitment_hasher role2 s2 r2 d2)).
Proof. by apply commitment_hasher_binding. Qed.

(** The session transcript digest binds the query and the response: for
    commitments built in one call, equal transcript digests mean equal
    sessions, randomness, queries and responses, or a collision of one of the
    three hashes involved. *)
Theorem transcript_digest_binding s1 s2 r1 r2 q1 q2 a1 a2 :
  vec_fits q1 -> vec_fits q2 -> vec_fits a1 -> vec_fits a2 ->
  let t1 := TranscriptCommitments_build s1 r1 q1 a1 in
  let t2 := TranscriptCommitments_build s2 r2 q2 a2 in
  session_transcript_digest t1 = session_transcript_digest t2 ->
  (s1 = s2 /\ r1 = r2 /\ q1 = q2 /\ a1 = a2) \/
  collision (inner (session_transcript_hasher s1 (tc_digest (tc_query t1)) (tc_digest (tc_response t1))))
            (inner (session_transcript_hasher s2 (tc_digest (tc_query t2)) (tc_digest (tc_response t2)))) \/
  collision (inner (commitment_hasher "query" s1 r1 q1)) (inner (commitment_hasher "query" s2 r2 q2)) \/
  collision (inner (commitment_hasher "response" s1 r1 a1)) (inner (commitment_hasher "response" s2 r2 a2)).
Proof.
  intros Hq1 Hq2 Ha1 Ha2 t1 t2 [Heq|Hc]%finalize_eq_or_collision; [|by auto].
  unfold session_transcript_hasher in Heq. unfold_hasher Heq.
  apply (inj (domain_prefix _ ++.)) in Heq. split_app Heq. simplify_enc. clear Henc.
  destruct (commitment_hasher_binding "query" "query" s1 s2 r1 r2 q1 q2)
    as [(_ & -> & -> & ->)|?]; [by vm_compute | by vm_compute | done.. | |by auto].
  destruct (commitment_hasher_binding "response" "response" s2 s2 r2 r2 a1 a2)
    as [(_ & _ & _ & ->)|?]; [by vm_compute | by vm_compute | done.. | by auto | by auto].
Qed.

Lemma statement_hasher_binding t1 t2 d1 d2 c1 c2 :
  vec_fits (string_bytes t1) -> vec_fits (string_bytes t2) -> vec_fits c1 -> vec_fits c2 ->
  finalize (statement_hasher t1 d1 c1) = finalize (statement_hasher t2 d2 c2) ->
  (t1 = t2 /\ d1 = d2 /\ c1 = c2) \/
  collision (inner (statement_hasher t1 d1 c1)) (inner (statement_hasher t2 d2 c2)).
Proof.
  intros ???? [Heq|Hc]%finalize_eq_or_collision; [left|by right].
  unfold statement_hasher in Heq. unfold_hasher Heq.
  apply (inj (domain_prefix _ ++.)) in Heq. split_enc Heq. by simplify_enc.
Qed.

Lemma package_hasher_binding s1 s2 r1 r2 t1 t2 e1 e2 :
  finalize (package_hasher s1 r1 t1 e1) = finalize (package_hasher s2 r2 t2 e2) ->
  (s1 = s2 /\ r1 = r2 /\ t1 = t2 /\ e1 = e2) \/
  collision (inner (package_hasher s1 r1 t1 e1)) (inner (package_hasher s2 r2 t2 e2)).
Proof.
  intros [Heq|Hc]%finalize_eq_or_collision; [left|by right].
  unfold package_hasher in Heq. unfold_hasher Heq.
  apply (inj (domain_prefix _ ++.)) in Heq. split_enc Heq. by simplify_enc.
Qed.

Lemma evidence_hasher_binding t1 t2 b1 b2 :
  vec_fits (string_bytes t1) -> vec_fits (string_bytes t2) -> vec_fits b1 -> vec_fits b2 ->
  finalize (evidence_hasher t1 b1) = finalize (evidence_hasher t2 b2) ->
  (t1 = t2 /\ b1 = b2) \/
  collision (inner (evidence_hasher t1 b1)) (inner (evidence_hasher t2 b2)).
Proof.
  intros ???? [Heq|Hc]%finalize_eq_or_collision; [left|by right].
  unfold evidence_hasher in Heq. unfold_hasher Heq.
  apply (inj (domain_prefix _ ++.)) in Heq. split_enc Heq. by simplify_enc.
Qed.

(** Everything the envelope digest covers. *)
Definition envelope_agree (a b : AttestationEnvelope) : Prop :=
  same_fields (env_session a) (env_session b) /\
  env_randomness a = env_randomness b /\
  tc_digest (tc_query (env_transcript a)) = tc_digest (tc_query (env_transcript b)) /\
  tc_digest (tc_response (env_transcript a)) = tc_digest (tc_response (env_transcript b)) /\
  session_transcript_digest (env_transcript a) = session_transcript_digest (env_transcript b) /\
  derivation_tag (env_statement a) = derivation_tag (env_statement b) /\
  statement_digest (env_statement a) = statement_digest (env_statement b) /\
  env_coordinator_evidence a = env_coordinator_evidence b.

Definition envelope_preimage (e : AttestationEnvelope) : bytes :=
  inner (envelope_hasher (env_session e) (env_randomness e) (env_transcript e) (env_statement e)
           (env_coordinator_evidence e)).

Definition statement_preimage (e : AttestationEnvelope) : bytes :=
  inner (statement_hasher (derivation_tag (env_statement e)) (session_transcript_digest (env_transcript e))
           (content (env_statement e))).

(** No vector of the envelope exceeds the largest allocation. *)
Definition envelope_fits (e : AttestationEnvelope) : Prop :=
  vec_fits (verifiers (quorum (env_session e))) /\
  vec_fits (string_bytes (derivation_tag (env_statement e))) /\
  vec_fits (string_bytes (ce_engine_tag (env_coordinator_evidence e))).

(** The envelope with everything replaced that its digest does not cover. *)
Definition with_uncovered (content' : bytes) (role_q role_r : string) (sd : DigestBytes) (ta : ThresholdApproval)
    (e : AttestationEnvelope) : AttestationEnvelope :=
  let s := env_session e in
  let t := env_transcript e in
  {| env_session :=
       {| session_id := session_id s; prover_id := prover_id s; coordinator_id := coordinator_id s; quorum := quorum s;
          epoch := epoch s; created_at := created_at s; expires_at := expires_at s; nonce := nonce s;
          session_digest := sd |};
     env_randomness := env_randomness e;
     env_transcript :=
       {| tc_query := MkTranscriptCommitment role_q (tc_digest (tc_query t));
          tc_response := MkTranscriptCommitment role_r (tc_digest (tc_response t));
          session_transcript_digest := session_transcript_digest t |};
     env_statement := MkStatementPayload content' (derivation_tag (env_statement e)) (statement_digest (env_statement e));
     env_coordinator_evidence := env_coordinator_evidence e;
     env_threshold_approval := ta;
     envelope_digest := envelope_digest e |}.

Lemma envelope_hasher_binding a b :
  envelope_fits a -> envelope_fits b -> envelope_preimage a = envelope_preimage b -> envelope_agree a b.
Proof.
  intros (Ha1 & Ha2 & Ha3) (Hb1 & Hb2 & Hb3) Heq. unfold envelope_preimage, envelope_hasher in Heq.
  set (h := CanonicalHasher_new "tls-attestation/envelope/v1") in Heq.
  unfold_hasher Heq. apply session_fields_inj in Heq as [Hsess Heq]; [|done..].
  split_enc Heq. simplify_enc. unfold envelope_agree.
  destruct a as [? [? ? [?] ?] ? ? [] ? ?], b as [? [? ? [?] ?] ? ? [] ? ?]; simpl in *.
  subst. by split_and!.
Qed.

Lemma envelope_agree_preimage a b : envelope_agree a b -> envelope_preimage a = envelope_preimage b.
Proof.
  intros ((S1 & S2 & S3 & S4 & S5 & S6 & S7 & S8) & H0 & H1 & H2 & H3 & H4 & H5 & H6).
  unfold envelope_preimage, envelope_hasher. cbv zeta. by rewrite S1, S2, S3, S4, S5, S6, S7, S8, H0, H1, H2, H3, H4, H5, H6.
Qed.

(** The digests in a statement and a session context that pass their own checks cover
    what the envelope digest leaves out of them. *)
Lemma agreed_statements a b :
  envelope_agree a b ->
  vec_fits (string_bytes (derivation_tag (env_statement a))) -> vec_fits (string_bytes (derivation_tag (env_statement b))) ->
  vec_fits (content (env_statement a)) -> vec_fits (content (env_statement b)) ->
  StatementPayload_verify_digest (env_statement a) (session_transcript_digest (env_transcript a)) = true ->
  StatementPayload_verify_digest (env_statement b) (session_transcript_digest (env_transcript b)) = true ->
  env_statement a = env_statement b \/ collision (statement_preimage a) (statement_preimage b).
Proof.
  intros (_ & _ & _ & _ & _ & Htag & Hd & _) Ht1 Ht2 Hc1 Hc2. unfold StatementPayload_verify_digest.
  rewrite !bool_decide_eq_true. intros Ha Hb. rewrite Ha, Hb in Hd.
  destruct (statement_hasher_binding _ _ _ _ _ _ Ht1 Ht2 Hc1 Hc2 Hd) as [(_ & _ & Hc)|Hc]; [left|by right].
  destruct (env_statement a), (env_statement b); cbn in *. congruence.
Qed.

Lemma agreed_contexts a b :
  envelope_agree a b ->
  session_digest (env_session a) = context_digest (env_session a) ->
  session_digest (env_session b) = context_digest (env_session b) -> env_session a = env_session b.
Proof.
  intros [Hf _] Ha Hb. unfold context_digest in *. destruct Hf as (H1 & H2 & H3 & H4 & H5 & H6 & H7 & H8).
  rewrite H1, H2, H3, H4, H5, H6, H7, H8 in Ha. destruct (env_session a), (env_session b); cbn in *. congruence.
Qed.

(** C11. What the envelope digest binds, exactly. Two envelopes that pass
    [verify_digest] have the same digest if and only if they agree on the fields of
    the session, the randomness binding, the digests of the transcript, the tag
    and digest of the statement and the coordinator evidence, or their encodings are
    a SHA-256 collision. The content of the statement is bound through its digest when
    both statements pass their own check, and the session digest when it is the one
    computed from the context. Without these checks nothing else is bound: the
    content, the roles of the commitments, the session digest and the threshold
    approval can be replaced by any others and the envelope still verifies, with the
    same digest. *)
Theorem envelope_digest_binding a b :
  envelope_fits a -> envelope_fits b ->
  AttestationEnvelope_verify_digest a = true -> AttestationEnvelope_verify_digest b = true ->
  (envelope_digest a = envelope_digest b <->
     envelope_agree a b \/ collision (envelope_preimage a) (envelope_preimage b)) /\
  (envelope_digest a = envelope_digest b ->
   vec_fits (content (env_statement a)) -> vec_fits (content (env_statement b)) ->
   StatementPayload_verify_digest (env_statement a) (session_transcript_digest (env_transcript a)) = true ->
   StatementPayload_verify_digest (env_statement b) (session_transcript_digest (env_transcript b)) = true ->
   env_statement a = env_statement b \/ collision (envelope_preimage a) (envelope_preimage b) \/
   collision (statement_preimage a) (statement_preimage b)) /\
  (envelope_digest a = envelope_digest b ->
   session_digest (env_session a) = context_digest (env_session a) ->
   session_digest (env_session b) = context_digest (env_session b) ->
   env_session a = env_session b \/ collision (envelope_preimage a) (envelope_preimage b)) /\
  (forall content' role_q role_r sd ta, AttestationEnvelope_verify_digest (with_uncovered content' role_q role_r sd ta a) = true).
Proof.
  intros Hfa Hfb Ha Hb.
  assert (Hbind : envelope_digest a = envelope_digest b ->
    envelope_agree a b \/ collision (envelope_preimage a) (envelope_preimage b)).
  { unfold AttestationEnvelope_verify_digest in *. rewrite bool_decide_eq_true in Ha, Hb. rewrite Ha, Hb.
    intros [Heq|Hc]%finalize_eq_or_collision; [left|by right]. by apply envelope_hasher_binding. }
  split_and!.
  - split; [exact Hbind|]. unfold AttestationEnvelope_verify_digest in Ha, Hb. rewrite bool_decide_eq_true in Ha, Hb.
    rewrite Ha, Hb. intros Hag. assert (Hc : sha256_digest (envelope_preimage a) = sha256_digest (envelope_preimage b)).
    { destruct Hag as [->%envelope_agree_preimage|[_ Hc]]; [done|exact Hc]. }
    exact (f_equal MkDigestBytes Hc).
  - intros [Hag|Hc]%Hbind Hca Hcb Hva Hvb; [|by auto]. destruct Hfa as (_ & Hta & _), Hfb as (_ & Htb & _).
    destruct (agreed_statements a b Hag); auto.
  - intros [Hag|Hc]%Hbind Hsa Hsb; [left|by right]. by apply agreed_contexts.
  - intros. exact Ha.
Qed.

Lemma assemble_verify_digest s r t st ce ta :
  AttestationEnvelope_verify_digest (AttestationEnvelope_assemble s r t st ce ta) = true.
Proof. by apply bool_decide_eq_true. Qed.

Lemma statement_new_verify content tag std :
  StatementPayload_verify_digest (StatementPayload_new content tag std) std = true.
Proof. by apply bool_decide_eq_true. Qed.

Lemma commitments_build_consistent sid rand q r :
  session_transcript_digest (TranscriptCommitments_build sid rand q r) =
  finalize (session_transcript_hasher sid
    (tc_digest (tc_query (TranscriptCommitments_build sid rand q r)))
    (tc_digest (tc_response (TranscriptCommitments_build sid rand q r)))).
Proof. done. Qed.
End Binding.

(** ** Concrete instances *)

Lemma transcript_commitment_binding_witness :
  tc_digest (TranscriptCommitment_compute (Hs:=toy_sha256) "query" (sid 7) (digest 1) (string_bytes "GET"))
    = tc_digest (TranscriptCommitment_compute (Hs:=toy_sha256) "query" (sid 7) (digest 1) (string_bytes "GET")) /\
  (("query" = "query" /\ sid 7 = sid 7 /\ digest 1 = digest 1 /\ string_bytes "GET" = string_bytes "GET") \/
   collision (Hs:=toy_sha256) (inner (commitment_hasher "query" (sid 7) (digest 1) (string_bytes "GET")))
     (inner (commitment_hasher "query" (sid 7) (digest 1) (string_bytes "GET")))).
Proof.
  split; [reflexivity|].
  apply (transcript_commitment_binding (Hs:=toy_sha256)); [by vm_compute..|reflexivity].
Defined.

Lemma transcript_digest_binding_witness :
  let t := TranscriptCommitments_build (Hs:=toy_sha256) (sid 7) (digest 1)
             (string_bytes "GET") (string_bytes "200") in
  (sid 7 = sid 7 /\ digest 1 = digest 1 /\ string_bytes "GET" = string_bytes "GET" /\
   string_bytes "200" = string_bytes "200") \/
  collision (Hs:=toy_sha256)
    (inner (session_transcript_hasher (sid 7) (tc_digest (tc_query t)) (tc_digest (tc_response t))))
    (inner (session_transcript_hasher (sid 7) (tc_digest (tc_query t)) (tc_digest (tc_response t)))) \/
  collision (Hs:=toy_sha256) (inner (commitment_hasher "query" (sid 7) (digest 1) (string_bytes "GET")))
    (inner (commitment_hasher "query" (sid 7) (digest 1) (string_bytes "GET"))) \/
  collision (Hs:=toy_sha256) (inner (commitment_hasher "response" (sid 7) (digest 1) (string_bytes "200")))
    (inner (commitment_hasher "response" (sid 7) (digest 1) (string_bytes "200"))).
Proof.
  apply (transcript_digest_binding (Hs:=toy_sha256) (sid 7) (sid 7) (digest 1) (digest 1)
    (string_bytes "GET") (string_bytes "GET") (string_bytes "200") (string_bytes "200"));
    [by vm_compute..|reflexivity].
Defined.

Definition example_envelope : AttestationEnvelope :=
  let tc := TranscriptCommitments_build (Hs:=toy_sha256) (sid 7) (digest 1)
              (string_bytes "GET") (string_bytes "200") in
  AttestationEnvelope_assemble (Hs:=toy_sha256) example_context
    (MkRandomnessBinding (MkRandomnessId (array_repeat 16 (byte 3))) (digest 1) (MkEpoch (n64 5)) (digest 2))
    tc
    (StatementPayload_new (Hs:=toy_sha256) (string_bytes "200") "http" (session_transcript_digest tc))
    (MkCoordinatorEvidence PROTOTYPE_ENGINE_TAG (digest 4) (digest 5))
    (MkThresholdApproval (quorum example_context) [] [] (digest 6)).

Lemma envelope_digest_binding_witness :
  AttestationEnvelope_verify_digest (Hs:=toy_sha256) example_envelope = true /\
  (envelope_digest example_envelope = envelope_digest example_envelope <->
   envelope_agree example_envelope example_envelope \/
   collision (Hs:=toy_sha256) (envelope_preimage example_envelope) (envelope_preimage example_envelope)) /\
  AttestationEnvelope_verify_digest (Hs:=toy_sha256)
    (with_uncovered (string_bytes "500") "response" "query" (digest 9)
       (MkThresholdApproval (quorum example_context) [] [] (digest 7)) example_envelope) = true.
Proof.
  assert (Hfit : envelope_fits example_envelope) by (repeat split; by vm_compute).
  destruct (envelope_digest_binding (Hs:=toy_sha256) example_envelope example_envelope Hfit Hfit
    (assemble_verify_digest _ _ _ _ _ _) (assemble_verify_digest _ _ _ _ _ _)) as (Hiff & _ & _ & Hfree).
  split_and!; [apply assemble_verify_digest|exact Hiff|apply Hfree].
Defined.
