(* ===== verification/Threshold.v ===== *)
(** * Threshold approvals

    Models [crypto/src/threshold.rs] (key pairs, partial signatures, aggregation
    and verification of threshold approvals) with the error type of
    [crypto/src/error.rs].

    Ed25519 is the external crate [ed25519-dalek]: the class [Ed25519], whose
    only law is that honest signatures verify. *)

From S2P Require Import Prelude Core Session Attestation.

(** ** Errors (error.rs) *)

Inductive CryptoError :=
  | RandomnessVerificationFailed (reason : string)
  | InsufficientContributions (need got : Z)
  | SignatureVerificationFailed (reason : string)
  | InsufficientSignatures (need got : Z)
  | UnknownVerifier (id : string)
  | CryptoTranscriptMismatch
  | InvalidKeyMaterial (msg : string)
  | SigningFailed (msg : string)
  | AggregationFailed (msg : string)
  | DkgAnnouncement (msg : string).

(** ** Ed25519 *)

Class Ed25519 := {
  SigningKey : Type;
  VerifyingKey : Type;
  ed_from_seed : array 32 -> SigningKey;
  ed_verifying_key : SigningKey -> VerifyingKey;
  ed_key_bytes : VerifyingKey -> array 32;
  ed_sign : SigningKey -> bytes -> array 64;
  ed_verify : VerifyingKey -> bytes -> array 64 -> bool;
  ed_sign_verify sk m : ed_verify (ed_verifying_key sk) m (ed_sign sk m) = true
}.

(** [Signature::from_slice]: any 64 bytes. *)
Definition Signature_from_slice (bs : bytes) : option (array 64) := try_into 64 bs.

Section Threshold.
Context {Hs : Sha256} {Ed : Ed25519}.

Record VerifierKeyPair := MkVerifierKeyPair { kp_verifier_id : VerifierId; signing_key : SigningKey }.

Definition VerifierKeyPair_from_signing_key (sk : SigningKey) : VerifierKeyPair :=
  {| kp_verifier_id := VerifierId_from_public_key (arr (ed_key_bytes (ed_verifying_key sk)));
     signing_key := sk |}.
Definition VerifierKeyPair_from_seed (seed : array 32) : VerifierKeyPair :=
  VerifierKeyPair_from_signing_key (ed_from_seed seed).
Definition kp_verifying_key (kp : VerifierKeyPair) : VerifyingKey :=
  ed_verifying_key (signing_key kp).
Definition sign_raw (kp : VerifierKeyPair) (data : bytes) : array 64 :=
  ed_sign (signing_key kp) data.

Record PartialSignature := MkPartialSignature { ps_verifier_id : VerifierId; ps_bytes : bytes }.

(** The trait [ThresholdSigner]. *)
Record ThresholdSigner := MkThresholdSigner {
  sign_partial : bytes -> result CryptoError PartialSignature;
  signer_verifier_id : VerifierId
}.

Definition PrototypeThresholdSigner (kp : VerifierKeyPair) : ThresholdSigner :=
  {| sign_partial payload :=
       Ok {| ps_verifier_id := kp_verifier_id kp; ps_bytes := arr (ed_sign (signing_key kp) payload) |};
     signer_verifier_id := kp_verifier_id kp |}.

Definition approval_signed_digest (envelope_digest : DigestBytes) : DigestBytes :=
  sha256_tagged "tls-attestation/threshold-approval/v1" (arr (as_bytes envelope_digest)).

(** [public_keys.iter().find(|(id, _)| id == v).map(|(_, vk)| vk)] *)
Definition find_key (public_keys : list (VerifierId * VerifyingKey)) (v : VerifierId)
    : option VerifyingKey :=
  snd <$> List.find (fun p => bool_decide (p.1 = v)) public_keys.

(** The checks of one signature: known key, well-formed, valid. *)
Definition check_signature (public_keys : list (VerifierId * VerifyingKey)) (d : DigestBytes)
    (v : VerifierId) (sig_bytes : bytes) : result CryptoError unit :=
  vk ← ok_or (UnknownVerifier (VerifierId_to_string v)) (find_key public_keys v);
  sig ← ok_or (SignatureVerificationFailed "malformed signature: signature error")
              (Signature_from_slice sig_bytes);
  if ed_verify vk (arr (as_bytes d)) sig then Ok tt
  else Err (SignatureVerificationFailed
              ("signature from " +:+ VerifierId_to_string v +:+ " is invalid")).

(** One iteration of the validation loop of [aggregate_signatures]. *)
Definition aggregate_step (quorum : QuorumSpec) (public_keys : list (VerifierId * VerifyingKey))
    (d : DigestBytes) (valid : list (VerifierId * bytes)) (partial : PartialSignature)
    : result CryptoError (list (VerifierId * bytes)) :=
  let v := ps_verifier_id partial in
  if negb (contains (verifiers quorum) v) then Ok valid
  else
    _ ← check_signature public_keys d v (ps_bytes partial);
    if contains valid.*1 v then Ok valid else Ok (valid ++ [(v, ps_bytes partial)]).

Definition aggregate_signatures (partials : list PartialSignature) (quorum : QuorumSpec)
    (envelope_digest : DigestBytes) (public_keys : list (VerifierId * VerifyingKey))
    : result CryptoError ThresholdApproval :=
  let signed_digest := approval_signed_digest envelope_digest in
  valid ← try_fold (aggregate_step quorum public_keys signed_digest) [] partials;
  let signers := valid.*1 in
  if negb (is_satisfied_by quorum signers) then
    Err (InsufficientSignatures (uval (threshold quorum)) (Z.of_nat (length signers)))
  else Ok {| ta_quorum := quorum; signers := signers; signatures := valid;
             signed_digest := signed_digest |}.

(** One iteration of the counting loop of [verify_threshold_approval]. *)
Definition verify_step (approval : ThresholdApproval)
    (public_keys : list (VerifierId * VerifyingKey)) (valid_count : Z)
    (entry : VerifierId * bytes) : result CryptoError Z :=
  if negb (contains (verifiers (ta_quorum approval)) entry.1) then Ok valid_count
  else
    _ ← check_signature public_keys (signed_digest approval) entry.1 entry.2;
    Ok (valid_count + 1).

Definition verify_threshold_approval (approval : ThresholdApproval)
    (envelope_digest : DigestBytes) (public_keys : list (VerifierId * VerifyingKey))
    : result CryptoError unit :=
  if negb (bool_decide (signed_digest approval = approval_signed_digest envelope_digest)) then
    Err (SignatureVerificationFailed "signed_digest does not match envelope_digest")
  else
    valid_count ← try_fold (verify_step approval public_keys) 0 (signatures approval);
    if negb (is_satisfied_by (ta_quorum approval) (signers approval))
       || (valid_count <? uval (threshold (ta_quorum approval)))
    then Err (InsufficientSignatures (uval (threshold (ta_quorum approval))) valid_count)
    else Ok tt.
End Threshold.

(** ** Properties *)

Section ThresholdProps.
Context {Hs : Sha256} {Ed : Ed25519}.
Implicit Types (pks : list (VerifierId * VerifyingKey)) (q : QuorumSpec).

(** A signature over digest [d] that the key registered for [v] accepts. *)
Definition valid_signature pks (d : DigestBytes) (p : VerifierId * bytes) : Prop :=
  exists vk sig, find_key pks p.1 = Some vk /\ p.2 = arr sig /\
    ed_verify vk (arr (as_bytes d)) sig = true.

Lemma check_signature_Ok pks d v bs u :
  check_signature pks d v bs = Ok u <-> valid_signature pks d (v, bs).
Proof.
  unfold check_signature, valid_signature, Signature_from_slice. cbn [fst snd]. split.
  - intros (vk & Hvk%ok_or_Ok & Hrest)%bind_Ok.
    apply bind_Ok in Hrest as (sig & Hsig%ok_or_Ok & Hv).
    destruct (ed_verify _ _ _) eqn:Hver; [|done]. apply try_into_Some in Hsig. eauto.
  - intros (vk & sig & -> & -> & Hv). cbn -[as_bytes].
    rewrite try_into_arr. cbn -[as_bytes]. rewrite Hv. by destruct u.
Qed.

(** Invariant of the validation loop. *)
Definition valid_set q pks d (valid : list (VerifierId * bytes)) : Prop :=
  NoDup valid.*1 /\
  Forall (fun p => p.1 ∈ verifiers q /\ valid_signature pks d p) valid.

Lemma aggregate_step_inv q pks d valid p valid' :
  valid_set q pks d valid -> aggregate_step q pks d valid p = Ok valid' -> valid_set q pks d valid'.
Proof.
  intros [Hnd Hall]. unfold aggregate_step, contains.
  case_bool_decide as Hin; simpl; [|by intros [= <-]].
  intros (u & Hsig%check_signature_Ok & Hok)%bind_Ok.
  case_bool_decide as Hv; inv_ok; [done|]. split.
  - rewrite fmap_app. apply NoDup_app. split_and!; [done| |by apply NoDup_singleton].
    simpl. intros x Hx ->%list_elem_of_singleton. done.
  - apply Forall_app. split; [done|]. by repeat constructor.
Qed.

Lemma aggregate_inv q pks d partials valid :
  try_fold (aggregate_step q pks d) [] partials = Ok valid -> valid_set q pks d valid.
Proof.
  apply try_fold_inv; [by split; constructor|].
  intros acc p acc' _. apply aggregate_step_inv.
Qed.

(** Counting distinct signers: all of them are eligible, so a satisfied quorum
    has at least [threshold] of them when no verifier is listed twice. *)
Lemma satisfied_length q ids :
  NoDup (verifiers q) -> is_satisfied_by q ids = true -> NoDup ids ->
  uval (threshold q) <= Z.of_nat (length ids).
Proof.
  intros Hq Hsat Hids. unfold is_satisfied_by in Hsat. apply Z.leb_le in Hsat.
  etrans; [exact Hsat|]. apply Nat2Z.inj_le, submseteq_length, NoDup_submseteq.
  - by apply NoDup_filter.
  - intros v. unfold contains. rewrite list_elem_of_filter, bool_decide_eq_true. tauto.
Qed.

Lemma aggregate_valid partials q env pks ta :
  aggregate_signatures partials q env pks = Ok ta ->
  ta_quorum ta = q /\
  signed_digest ta = approval_signed_digest env /\
  signers ta = (signatures ta).*1 /\
  NoDup (signers ta) /\
  Forall (fun p => p.1 ∈ verifiers q /\ valid_signature pks (approval_signed_digest env) p)
    (signatures ta) /\
  is_satisfied_by q (signers ta) = true /\
  (NoDup (verifiers q) -> uval (threshold q) <= Z.of_nat (length (signers ta))).
Proof.
  unfold aggregate_signatures. intros (valid & Hvalid%aggregate_inv & Hok)%bind_Ok.
  destruct Hvalid as [Hnd Hall].
  destruct (is_satisfied_by q valid.*1) eqn:Hsat; cbn [negb] in Hok; inv_ok.
  cbn [ta_quorum signed_digest signers signatures].
  split_and!; [done.. | exact Hsat | intros Hq; by apply satisfied_length].
Qed.

(** C7. Soundness of aggregation: an approval produced by
    [aggregate_signatures] is for the given quorum and the digest derived from
    the envelope, its signers are distinct, eligible and the authors of its
    signatures, every signature verifies under the signer's registered key,
    and the signers satisfy the quorum; with no verifier listed twice there
    are at least [threshold] of them. *)
Theorem aggregate_sound partials q env pks ta :
  aggregate_signatures partials q env pks = Ok ta ->
  ta_quorum ta = q /\
  signed_digest ta = approval_signed_digest env /\
  signers ta = (signatures ta).*1 /\
  NoDup (signers ta) /\
  Forall (fun p => p.1 ∈ verifiers q /\ valid_signature pks (approval_signed_digest env) p)
    (signatures ta) /\
  is_satisfied_by q (signers ta) = true /\
  (NoDup (verifiers q) -> uval (threshold q) <= Z.of_nat (length (signers ta))).
Proof. apply aggregate_valid. Qed.

Lemma verify_loop_Ok ta pks entries n :
  Forall (fun p => p.1 ∈ verifiers (ta_quorum ta) /\ valid_signature pks (signed_digest ta) p) entries ->
  try_fold (verify_step ta pks) n entries = Ok (n + Z.of_nat (length entries)).
Proof.
  intros Hall. revert n. induction Hall as [|p entries [Hin Hv] _ IH]; intros n; simpl.
  - f_equal. lia.
  - destruct p as [v bs]. unfold verify_step at 2, contains.
    rewrite bool_decide_eq_true_2 by done. cbn [negb fst snd].
    rewrite (proj2 (check_signature_Ok pks (signed_digest ta) v bs tt) Hv).
    cbn [mbind result_bind]. rewrite IH. f_equal. lia.
Qed.

Lemma aggregate_accepted partials q env pks ta :
  NoDup (verifiers q) ->
  aggregate_signatures partials q env pks = Ok ta ->
  verify_threshold_approval ta env pks = Ok tt.
Proof.
  unfold aggregate_signatures. intros Hq (valid & [Hnd Hall]%aggregate_inv & Hok)%bind_Ok.
  destruct (is_satisfied_by q valid.*1) eqn:Hsat; cbn [negb] in Hok; inv_ok.
  unfold verify_threshold_approval. cbn [signed_digest ta_quorum signers signatures].
  rewrite bool_decide_eq_true_2 by done. simpl.
  rewrite verify_loop_Ok by done. simpl. rewrite Hsat. simpl.
  pose proof (satisfied_length q valid.*1 Hq Hsat Hnd) as Hlen. rewrite length_fmap in Hlen.
  by rewrite (proj2 (Z.ltb_ge _ _)) by lia.
Qed.

(** Approvals produced by [aggregate_signatures] pass
    [verify_threshold_approval] against the same envelope digest and keys,
    provided no verifier is listed twice in the quorum. *)
Theorem aggregate_then_verify partials q env pks ta :
  NoDup (verifiers q) ->
  aggregate_signatures partials q env pks = Ok ta ->
  verify_threshold_approval ta env pks = Ok tt.
Proof. apply aggregate_accepted. Qed.

(** Aggregation succeeds when every eligible partial is valid and their authors
    satisfy the quorum. *)
Lemma aggregate_loop_honest q pks d partials valid :
  Forall (fun p => ps_verifier_id p ∈ verifiers q -> valid_signature pks d (ps_verifier_id p, ps_bytes p)) partials ->
  exists valid', try_fold (aggregate_step q pks d) valid partials = Ok valid' /\
    (forall v, v ∈ verifiers q -> v ∈ valid.*1 \/ v ∈ ps_verifier_id <$> partials -> v ∈ valid'.*1).
Proof.
  intros Hall. revert valid. induction Hall as [|p partials Hp _ IH]; intros valid; cbn [try_fold].
  { exists valid. split; [done|]. intros v _ [?|?%elem_of_nil]; done. }
  assert (Hstep : exists valid1, aggregate_step q pks d valid p = Ok valid1 /\
    forall v, v ∈ verifiers q -> v ∈ valid.*1 \/ v = ps_verifier_id p -> v ∈ valid1.*1).
  { unfold aggregate_step, contains. case_bool_decide as Hin; cbn [negb].
    - rewrite (proj2 (check_signature_Ok pks d _ _ tt) (Hp Hin)). cbn [mbind result_bind].
      case_bool_decide as Hv; eexists; (split; [done|]); intros v _ [?| ->]; try done;
        rewrite fmap_app; apply elem_of_app; [by left|right; by constructor].
    - eexists. split; [done|]. intros v Hv [?| ->]; done. }
  destruct Hstep as (valid1 & -> & H1). cbn [mbind result_bind].
  destruct (IH valid1) as (valid' & -> & H2). exists valid'. split; [done|].
  intros v Hv [Hin|Hin]; [apply H2; [done|left]; apply H1; auto|].
  rewrite fmap_cons in Hin. apply elem_of_cons in Hin as [->|Hin]; apply H2; auto.
Qed.

Lemma aggregate_honest q pks env partials :
  Forall (fun p => ps_verifier_id p ∈ verifiers q ->
            valid_signature pks (approval_signed_digest env) (ps_verifier_id p, ps_bytes p)) partials ->
  is_satisfied_by q (ps_verifier_id <$> partials) = true ->
  exists ta, aggregate_signatures partials q env pks = Ok ta.
Proof.
  intros (valid & Hv & Hsub)%(fun H => aggregate_loop_honest _ _ _ _ [] H) Hsat.
  unfold aggregate_signatures. rewrite Hv. cbn [mbind result_bind].
  rewrite (is_satisfied_by_mono q (ps_verifier_id <$> partials) valid.*1); [by eexists| |done].
  intros v Hvq Hin. apply Hsub; auto.
Qed.

Lemma verify_loop_inv ta pks entries n m :
  try_fold (verify_step ta pks) n entries = Ok m ->
  let eligible := filter (fun p => p.1 ∈ verifiers (ta_quorum ta)) entries in
  m = n + Z.of_nat (length eligible) /\ Forall (valid_signature pks (signed_digest ta)) eligible.
Proof.
  revert n. induction entries as [|[v bs] entries IH]; intros n; simpl.
  - intros [= <-]. split; [lia|constructor].
  - intros (n' & Hstep & Hrest)%bind_Ok. unfold verify_step, contains in Hstep. cbn [fst snd] in Hstep.
    rewrite filter_cons. cbn [fst]. case_bool_decide as Hin; simpl in Hstep.
    + rewrite decide_True by done. apply bind_Ok in Hstep as (u & Hsig%check_signature_Ok & [= <-]).
      destruct (IH _ Hrest) as [-> Hall]. split; [simpl; lia | by constructor].
    + rewrite decide_False by done. injection Hstep as <-. by apply IH.
Qed.

(** What a verified approval guarantees when no author appears twice among
    its signatures: at least [threshold] distinct verifiers of the approval's
    quorum signed the digest derived from the envelope. *)
Theorem verify_sound_without_repetition ta env pks :
  NoDup (signatures ta).*1 ->
  verify_threshold_approval ta env pks = Ok tt ->
  exists S : gset VerifierId,
    uval (threshold (ta_quorum ta)) <= Z.of_nat (size S) /\
    forall v, v ∈ S -> v ∈ verifiers (ta_quorum ta) /\
      exists bs, valid_signature pks (approval_signed_digest env) (v, bs).
Proof.
  unfold verify_threshold_approval. intros Hnd.
  case_bool_decide as Hd; simpl; [|done]. intros (n & Hloop & Hok)%bind_Ok.
  apply verify_loop_inv in Hloop as [-> Hall].
  destruct (is_satisfied_by _ _); [|done]. simpl in Hok.
  set (eligible := filter (fun p => p.1 ∈ verifiers (ta_quorum ta)) (signatures ta)) in *.
  destruct (Z.ltb_spec (0 + Z.of_nat (length eligible)) (uval (threshold (ta_quorum ta))))
    as [|Hlen]; [done|].
  exists (list_to_set eligible.*1). split.
  - rewrite size_list_to_set, length_fmap; [lia|].
    eapply sublist_NoDup; [exact Hnd | apply fmap_sublist, sublist_filter].
  - intros v ([v' bs] & -> & Hin)%elem_of_list_to_set%list_elem_of_fmap.
    rewrite Forall_forall in Hall. pose proof (Hall _ Hin) as Hv. rewrite Hd in Hv.
    apply list_elem_of_filter in Hin as [Hin _]. eauto.
Qed.

(** A single signature defeats the threshold: given any quorum with at
    least [threshold] listed verifiers and one eligible verifier with one valid
    signature, the approval that repeats this signature [threshold] times and
    lists all verifiers as signers passes [verify_threshold_approval]. Neither
    the repetition nor the difference between [signers] and the authors of the
    signatures is checked. *)
Theorem verify_accepts_repeated_signature q env pks v bs :
  uval (threshold q) <= Z.of_nat (length (verifiers q)) ->
  v ∈ verifiers q ->
  valid_signature pks (approval_signed_digest env) (v, bs) ->
  verify_threshold_approval
    {| ta_quorum := q; signers := verifiers q;
       signatures := replicate (Z.to_nat (uval (threshold q))) (v, bs);
       signed_digest := approval_signed_digest env |} env pks = Ok tt.
Proof.
  intros Hle Hin Hv. unfold verify_threshold_approval.
  cbn [signed_digest ta_quorum signers signatures].
  rewrite bool_decide_eq_true_2 by done. simpl.
  rewrite verify_loop_Ok by (apply Forall_replicate; by split). simpl.
  rewrite length_replicate, Z2Nat.id by (pose proof (uval_range (threshold q)); lia).
  unfold is_satisfied_by. rewrite Z.ltb_irrefl, orb_false_r.
  replace (filter _ (verifiers q)) with (verifiers q).
  - by rewrite (proj2 (Z.leb_le _ _)) by lia.
  - symmetry. apply filter_id. intros x Hx. by apply bool_decide_eq_true.
Qed.

(** Verification takes the quorum from the approval itself: for every
    envelope digest the approval with an empty quorum, threshold zero and no
    signature at all is accepted. The caller has to compare the approval's
    quorum with the session's, since neither this function nor the envelope
    digest does. *)
Theorem verify_trusts_embedded_quorum env pks :
  verify_threshold_approval
    {| ta_quorum := MkQuorumSpec [] (n64 0); signers := []; signatures := [];
       signed_digest := approval_signed_digest env |} env pks = Ok tt.
Proof.
  unfold verify_threshold_approval. cbn [signed_digest ta_quorum signers signatures].
  by rewrite bool_decide_eq_true_2.
Qed.
End ThresholdProps.

(** ** Concrete instances *)

(** A signature scheme with public verification that satisfies the law: the
    signature is the key followed by the message. *)
Definition toy_ed25519 : Ed25519.
Proof.
  refine {| SigningKey := array 32; VerifyingKey := array 32;
            ed_from_seed := id; ed_verifying_key := id; ed_key_bytes := id;
            ed_sign sk m := to_array 64 (arr sk ++ m);
            ed_verify vk m s := bool_decide (s = to_array 64 (arr vk ++ m)) |}.
  intros sk m. by apply bool_decide_eq_true.
Defined.

Definition toy_kp (z : Z) : VerifierKeyPair (Ed:=toy_ed25519) :=
  VerifierKeyPair_from_seed (Hs:=toy_sha256) (Ed:=toy_ed25519) (array_repeat 32 (byte z)).
Definition toy_keys : list (VerifierId * VerifyingKey (Ed25519:=toy_ed25519)) :=
  (fun z => (kp_verifier_id (toy_kp z), kp_verifying_key (toy_kp z))) <$> [1; 2; 3].
Definition toy_quorum : QuorumSpec := MkQuorumSpec toy_keys.*1 (n64 2).

(** The partial signature of verifier [z] over the approval digest of [env]. *)
Definition toy_partial (env : DigestBytes) (z : Z) : PartialSignature :=
  MkPartialSignature (kp_verifier_id (toy_kp z))
    (arr (sign_raw (toy_kp z) (arr (as_bytes (approval_signed_digest (Hs:=toy_sha256) env))))).

Definition toy_approval (env : DigestBytes) : ThresholdApproval :=
  match aggregate_signatures (Hs:=toy_sha256) (Ed:=toy_ed25519)
          [toy_partial env 1; toy_partial env 3; toy_partial env 1] toy_quorum env toy_keys with
  | Ok ta => ta
  | Err _ => MkThresholdApproval toy_quorum [] [] env
  end.

Lemma aggregate_sound_witness :
  aggregate_signatures (Hs:=toy_sha256) (Ed:=toy_ed25519)
    [toy_partial (digest 9) 1; toy_partial (digest 9) 3; toy_partial (digest 9) 1]
    toy_quorum (digest 9) toy_keys = Ok (toy_approval (digest 9)) /\
  NoDup (signers (toy_approval (digest 9))).
Proof.
  assert (Hok : aggregate_signatures (Hs:=toy_sha256) (Ed:=toy_ed25519)
    [toy_partial (digest 9) 1; toy_partial (digest 9) 3; toy_partial (digest 9) 1]
    toy_quorum (digest 9) toy_keys = Ok (toy_approval (digest 9))) by (vm_compute; reflexivity).
  split; [exact Hok|].
  destruct (aggregate_sound (Hs:=toy_sha256) (Ed:=toy_ed25519) _ _ _ _ _ Hok) as (_ & _ & _ & Hnd & _).
  exact Hnd.
Defined.

Lemma aggregate_then_verify_witness :
  verify_threshold_approval (Hs:=toy_sha256) (Ed:=toy_ed25519) (toy_approval (digest 9)) (digest 9) toy_keys
  = Ok tt.
Proof.
  apply (aggregate_then_verify (Hs:=toy_sha256) (Ed:=toy_ed25519)
    [toy_partial (digest 9) 1; toy_partial (digest 9) 3; toy_partial (digest 9) 1] toy_quorum).
  - apply (bool_decide_unpack _). vm_compute. exact I.
  - vm_compute. reflexivity.
Defined.

Lemma verify_sound_without_repetition_witness :
  exists S : gset VerifierId,
    uval (threshold (ta_quorum (toy_approval (digest 9)))) <= Z.of_nat (size S) /\
    forall v, v ∈ S -> v ∈ verifiers (ta_quorum (toy_approval (digest 9))) /\
      exists bs, valid_signature (Ed:=toy_ed25519) toy_keys
        (approval_signed_digest (Hs:=toy_sha256) (digest 9)) (v, bs).
Proof.
  apply (verify_sound_without_repetition (Hs:=toy_sha256) (Ed:=toy_ed25519)).
  - apply (bool_decide_unpack _). vm_compute. exact I.
  - vm_compute. reflexivity.
Defined.

Lemma verify_accepts_repeated_signature_witness :
  verify_threshold_approval (Hs:=toy_sha256) (Ed:=toy_ed25519)
    {| ta_quorum := toy_quorum; signers := verifiers toy_quorum;
       signatures := replicate 2 (ps_verifier_id (toy_partial (digest 9) 1), ps_bytes (toy_partial (digest 9) 1));
       signed_digest := approval_signed_digest (Hs:=toy_sha256) (digest 9) |} (digest 9) toy_keys = Ok tt.
Proof.
  apply (verify_accepts_repeated_signature (Hs:=toy_sha256) (Ed:=toy_ed25519) toy_quorum (digest 9) toy_keys
    (ps_verifier_id (toy_partial (digest 9) 1)) (ps_bytes (toy_partial (digest 9) 1))).
  - vm_compute. discriminate.
  - apply (bool_decide_unpack _). vm_compute. exact I.
  - exists (kp_verifying_key (toy_kp 1)),
      (sign_raw (toy_kp 1) (arr (as_bytes (approval_signed_digest (Hs:=toy_sha256) (digest 9))))).
    split_and!; [vm_compute; reflexivity | reflexivity | vm_compute; reflexivity].
Defined.
