(* ===== verification/Randomness.v ===== *)
(** * Distributed randomness

    Models [crypto/src/randomness.rs]: the trait [RandomnessEngine], the
    hash-and-xor engine [PrototypeDvrf], and the verification of the secp256k1
    engine (its generation belongs to the group-based DVRF, not modelled here).

    The identifier drawn by [RandomnessId::new_random] is an argument. *)

From S2P Require Import Prelude Core Session Attestation Threshold.

Record PartialRandomness := MkPartialRandomness {
  pr_verifier_id : VerifierId;
  contribution : DigestBytes
}.

Record RandomnessOutput := MkRandomnessOutput {
  ro_id : RandomnessId;
  ro_session_id : SessionId;
  ro_epoch : Epoch;
  ro_value : DigestBytes;
  partials : list PartialRandomness;
  ro_session_binding : DigestBytes
}.

(** The trait [RandomnessEngine]; the first argument of [generate] is the
    entropy of the output's identifier. *)
Class RandomnessEngine := {
  generate : RandomnessId -> SessionId -> Nonce -> Epoch -> list VerifierId ->
             result CryptoError RandomnessOutput;
  verify_randomness : RandomnessOutput -> Nonce -> result CryptoError unit
}.

Record PrototypeDvrf := MkPrototypeDvrf { secrets : gmap VerifierId (array 32) }.

(** Lexicographic order of byte strings ([Ord] of arrays). *)
Fixpoint bytes_leb (l k : bytes) : bool :=
  match l, k with
  | [], _ => true
  | _ :: _, [] => false
  | x :: l', y :: k' => u_ltb x y || (u_eqb x y && bytes_leb l' k')
  end.

Definition partial_le (p q : PartialRandomness) : Prop :=
  bytes_leb (arr (as_bytes (pr_verifier_id p))) (arr (as_bytes (pr_verifier_id q))) = true.

#[export] Instance partial_le_dec : RelDecision partial_le.
Proof. intros p q. unfold partial_le. apply _. Defined.

Definition contribution_hasher (sid : SessionId) (n : Nonce) (v : VerifierId) (secret : array 32)
    : CanonicalHasher :=
  let h := CanonicalHasher_new "tls-attestation/dvrf-contribution/v1" in
  let h := update_fixed (as_bytes sid) h in
  let h := update_fixed (as_bytes n) h in
  let h := update_fixed (as_bytes v) h in
  update_fixed secret h.

Definition session_binding_hasher (sid : SessionId) (n : Nonce) : CanonicalHasher :=
  let h := CanonicalHasher_new "tls-attestation/session-binding/v1" in
  let h := update_fixed (as_bytes sid) h in
  update_fixed (as_bytes n) h.

Section Dvrf.
Context {Hs : Sha256}.

Definition compute_contribution (sid : SessionId) (n : Nonce) (v : VerifierId)
    (secret : array 32) : DigestBytes :=
  finalize (contribution_hasher sid n v secret).

Definition combine (ps : list PartialRandomness) : DigestBytes :=
  let sorted := merge_sort partial_le ps in
  let xor_result := fold_left (fun acc p => xor_with acc (contribution p)) sorted DigestBytes_ZERO in
  sha256_tagged "tls-attestation/dvrf-combine/v1" (arr (as_bytes xor_result)).

(** The contribution of one participant. *)
Definition dvrf_partial (self : PrototypeDvrf) (sid : SessionId) (n : Nonce) (v : VerifierId)
    : result CryptoError PartialRandomness :=
  secret ← ok_or (UnknownVerifier (VerifierId_to_string v)) (secrets self !! v);
  Ok (MkPartialRandomness v (compute_contribution sid n v secret)).

Definition dvrf_generate (self : PrototypeDvrf) (rid : RandomnessId) (sid : SessionId) (n : Nonce)
    (epoch : Epoch) (participants : list VerifierId) : result CryptoError RandomnessOutput :=
  if (length participants =? 0)%nat then Err (InsufficientContributions 1 0)
  else
    ps ← try_map (dvrf_partial self sid n) participants;
    let value := combine ps in
    let session_binding := finalize (session_binding_hasher sid n) in
    Ok {| ro_id := rid; ro_session_id := sid; ro_epoch := epoch; ro_value := value;
          partials := ps; ro_session_binding := session_binding |}.

(** Recomputation of one partial during verification. *)
Definition dvrf_recompute (self : PrototypeDvrf) (sid : SessionId) (n : Nonce)
    (p : PartialRandomness) : result CryptoError PartialRandomness :=
  let v := pr_verifier_id p in
  secret ← ok_or (UnknownVerifier (VerifierId_to_string v)) (secrets self !! v);
  let expected := compute_contribution sid n v secret in
  if negb (bool_decide (contribution p = expected)) then
    Err (RandomnessVerificationFailed
           ("contribution from " +:+ VerifierId_to_string v +:+ " is incorrect"))
  else Ok (MkPartialRandomness v expected).

Definition dvrf_verify (self : PrototypeDvrf) (output : RandomnessOutput) (n : Nonce)
    : result CryptoError unit :=
  let expected_binding := finalize (session_binding_hasher (ro_session_id output) n) in
  if negb (bool_decide (ro_session_binding output = expected_binding)) then
    Err (RandomnessVerificationFailed "session binding mismatch")
  else
    recomputed ← try_map (dvrf_recompute self (ro_session_id output) n) (partials output);
    let expected_value := combine recomputed in
    if negb (bool_decide (ro_value output = expected_value)) then
      Err (RandomnessVerificationFailed "combined randomness value is incorrect")
    else Ok tt.

Definition PrototypeDvrf_engine (self : PrototypeDvrf) : RandomnessEngine :=
  {| generate := dvrf_generate self; verify_randomness := dvrf_verify self |}.

(** [Secp256k1DvrfEngine::derive_alpha] and [Secp256k1DvrfEngine::verify]. *)
Definition derive_alpha (sid : SessionId) (n : Nonce) : DigestBytes :=
  let h := CanonicalHasher_new "secp256k1-dvrf/alpha/v1" in
  let h := update_fixed (as_bytes sid) h in
  finalize (update_fixed (as_bytes n) h).

Definition secp256k1_verify (output : RandomnessOutput) (n : Nonce) : result CryptoError unit :=
  let expected_binding := finalize (session_binding_hasher (ro_session_id output) n) in
  if negb (bool_decide (ro_session_binding output = expected_binding)) then
    Err (RandomnessVerificationFailed "session binding mismatch")
  else Ok tt.

(** ** Properties *)

(** Exclusive or of all contributions, in any order. *)
Definition xor_all (ps : list PartialRandomness) : DigestBytes :=
  fold_left (fun acc p => xor_with acc (contribution p)) ps DigestBytes_ZERO.

Lemma xor_fold_perm ps qs acc :
  ps ≡ₚ qs ->
  fold_left (fun acc p => xor_with acc (contribution p)) ps acc =
  fold_left (fun acc p => xor_with acc (contribution p)) qs acc.
Proof.
  intros Hp. revert acc. induction Hp as [|p ps qs _ IH|p q ps|ps qs rs _ IH1 _ IH2]; intros acc; simpl.
  - done.
  - apply IH.
  - f_equal. destruct acc as [a], p as [? [b]], q as [? [c]]. unfold xor_with. simpl. f_equal.
    by rewrite <- !(assoc arr_xor), (comm arr_xor c b).
  - by rewrite IH1.
Qed.

Lemma combine_xor_all ps :
  combine ps = sha256_tagged "tls-attestation/dvrf-combine/v1" (arr (as_bytes (xor_all ps))).
Proof. unfold combine. f_equal. do 2 f_equal. apply xor_fold_perm, merge_sort_Permutation. Qed.

Lemma combine_perm ps qs : ps ≡ₚ qs -> combine ps = combine qs.
Proof. intros Hp. rewrite !combine_xor_all. unfold xor_all. by rewrite (xor_fold_perm ps qs). Qed.

#[export] Instance combine_proper : Proper ((≡ₚ) ==> (=)) combine.
Proof. intros ps qs. apply combine_perm. Qed.

Lemma dvrf_recompute_partial self sid n v p :
  dvrf_partial self sid n v = Ok p -> dvrf_recompute self sid n p = Ok p.
Proof.
  unfold dvrf_partial, dvrf_recompute. intros (s & Hsec%ok_or_Ok & [= <-])%bind_Ok. cbn [pr_verifier_id].
  rewrite Hsec. cbn. by rewrite bool_decide_eq_true_2.
Qed.

Lemma dvrf_recompute_Ok self sid n p p' :
  dvrf_recompute self sid n p = Ok p' ->
  p' = p /\ exists secret, secrets self !! pr_verifier_id p = Some secret /\
    contribution p = compute_contribution sid n (pr_verifier_id p) secret.
Proof.
  unfold dvrf_recompute. intros (s & Hsec%ok_or_Ok & Hok)%bind_Ok.
  case_bool_decide as Hc; simpl in Hok; [|done]. injection Hok as <-.
  destruct p as [v c]. simpl in *. subst c. eauto.
Qed.

Lemma dvrf_generate_correct self rid sid n epoch participants out :
  dvrf_generate self rid sid n epoch participants = Ok out ->
  ro_session_binding out = finalize (session_binding_hasher sid n) /\
  try_map (dvrf_recompute self sid n) (partials out) = Ok (partials out) /\
  ro_value out = combine (partials out) /\
  ro_session_id out = sid /\
  Forall2 (fun v p => dvrf_partial self sid n v = Ok p) participants (partials out).
Proof.
  unfold dvrf_generate. destruct (length participants =? 0)%nat; [done|].
  intros (ps & Hps & [= <-])%bind_Ok. apply try_map_Ok in Hps.
  cbn [partials ro_session_binding ro_value ro_session_id]. split_and!; try done.
  apply try_map_Ok. induction Hps as [|v p l ps Hp _ IH]; constructor; [|done].
  by eapply dvrf_recompute_partial.
Qed.

(** With a secret for every participant the engine delivers. *)
Lemma dvrf_generate_total self rid sid n epoch participants :
  participants <> [] -> (forall v, v ∈ participants -> is_Some (secrets self !! v)) ->
  exists ro, dvrf_generate self rid sid n epoch participants = Ok ro.
Proof.
  intros Hne Hsec. unfold dvrf_generate. destruct (Nat.eqb_spec (length participants) 0) as [Hl|_]; [by destruct participants|].
  assert (H : forall l, (forall v, v ∈ l -> v ∈ participants) -> exists ps, try_map (dvrf_partial self sid n) l = Ok ps).
  { induction l as [|v l IH]; intros Hl; [by eexists|]. destruct IH as [ps Hps]; [intros; apply Hl; by right|].
    destruct (Hsec v) as [s Hs']; [apply Hl, list_elem_of_here|].
    assert (Hp : exists p, dvrf_partial self sid n v = Ok p) by (unfold dvrf_partial; rewrite Hs'; by eexists).
    destruct Hp as [p Hp]. cbn [try_map]. rewrite Hp. cbn [mbind result_bind]. rewrite Hps. by eexists. }
  destruct (H participants) as [ps Hps]; [done|]. rewrite Hps. by eexists.
Qed.

(** The outputs of the prototype DVRF verify: whatever [generate] returns is
    accepted by [verify] of the same engine for the same nonce, and names the
    requested participants in order. *)
Theorem dvrf_generate_verify self rid sid n epoch participants out :
  dvrf_generate self rid sid n epoch participants = Ok out ->
  dvrf_verify self out n = Ok tt /\ pr_verifier_id <$> partials out = participants.
Proof.
  intros (Hb & Hre & Hv & Hsid & Hps)%dvrf_generate_correct. split.
  - unfold dvrf_verify. rewrite Hsid, Hb, bool_decide_eq_true_2 by done. cbn [negb].
    rewrite Hre. cbn. by rewrite bool_decide_eq_true_2.
  - clear -Hps. induction Hps as [|v p l ps Hp _ IH]; csimpl; [done|]. rewrite IH. f_equal.
    unfold dvrf_partial in Hp. by apply bind_Ok in Hp as (? & _ & [= <-]).
Qed.

(** A verified output: its contributions are the ones the registered secrets
    give for its session and nonce, and its value is their combination. *)
Lemma dvrf_verify_Ok self out n :
  dvrf_verify self out n = Ok tt ->
  ro_session_binding out = finalize (session_binding_hasher (ro_session_id out) n) /\
  Forall (fun p => exists secret, secrets self !! pr_verifier_id p = Some secret /\
    contribution p = compute_contribution (ro_session_id out) n (pr_verifier_id p) secret)
    (partials out) /\
  ro_value out = combine (partials out).
Proof.
  unfold dvrf_verify. case_bool_decide as Hb; simpl; [|done].
  intros (ps & Hps%try_map_Ok & Hok)%bind_Ok. case_bool_decide as Hv; simpl in Hok; [|done].
  assert (Hsame : ps = partials out /\ Forall (fun p => exists secret,
    secrets self !! pr_verifier_id p = Some secret /\
    contribution p = compute_contribution (ro_session_id out) n (pr_verifier_id p) secret)
    (partials out)).
  { clear Hv. induction Hps as [|p p' l ps [-> Hsec]%dvrf_recompute_Ok _ [-> IH]]; [done|].
    split; [done|]. by constructor. }
  destruct Hsame as [-> HF]. by split_and!.
Qed.

(** Uniqueness of the randomness: two outputs that verify under the same
    engine for the same nonce, session and set of participants, in whatever
    order the contributions were collected, have the same value and the same
    session binding. *)
Theorem dvrf_output_unique self out1 out2 n :
  dvrf_verify self out1 n = Ok tt -> dvrf_verify self out2 n = Ok tt ->
  ro_session_id out1 = ro_session_id out2 ->
  pr_verifier_id <$> partials out1 ≡ₚ pr_verifier_id <$> partials out2 ->
  ro_value out1 = ro_value out2 /\ ro_session_binding out1 = ro_session_binding out2.
Proof.
  intros (Hb1 & HF1 & Hv1)%dvrf_verify_Ok (Hb2 & HF2 & Hv2)%dvrf_verify_Ok Hsid Hperm.
  split; [|by rewrite Hb1, Hb2, Hsid]. rewrite Hv1, Hv2. apply combine_perm.
  set (mk := fun v => MkPartialRandomness v
    (match secrets self !! v with
     | Some s => compute_contribution (ro_session_id out1) n v s
     | None => DigestBytes_ZERO end)).
  assert (Hmk : forall ps, Forall (fun p => exists secret, secrets self !! pr_verifier_id p = Some secret /\
    contribution p = compute_contribution (ro_session_id out1) n (pr_verifier_id p) secret) ps ->
    ps = mk <$> (pr_verifier_id <$> ps)).
  { induction 1 as [|[v c] ps (s & Hsec & Hc) _ IH]; csimpl; [done|]. rewrite <- IH. f_equal.
    unfold mk. simpl in *. by rewrite Hsec, Hc. }
  rewrite <- Hsid in HF2. rewrite (Hmk _ HF1), (Hmk _ HF2). by rewrite Hperm.
Qed.

Lemma xor_with_self_inverse a b : xor_with (xor_with a b) b = a.
Proof.
  destruct a as [a], b as [b]. unfold xor_with. simpl. f_equal.
  by rewrite <- (assoc arr_xor), arr_xor_diag, (comm arr_xor), arr_xor_0_l.
Qed.

Lemma xor_all_doubled ps : xor_all (ps ++ ps) = DigestBytes_ZERO.
Proof.
  unfold xor_all. generalize DigestBytes_ZERO. induction ps as [|p ps IH]; intros acc; [done|].
  rewrite (xor_fold_perm ((p :: ps) ++ p :: ps) (p :: p :: ps ++ ps)).
  - simpl. rewrite IH. apply xor_with_self_inverse.
  - simpl. f_equiv. symmetry. apply Permutation_middle.
Qed.

(** Contributions of a participant listed twice cancel out: when every
    participant appears twice, the randomness is one constant, whatever the
    session, the nonce and the secrets are. [generate] does not reject repeated
    participants, and neither does the quorum they are taken from. *)
Theorem dvrf_repeated_participants_constant self rid sid n epoch vs out :
  dvrf_generate self rid sid n epoch (vs ++ vs) = Ok out ->
  ro_value out = sha256_tagged "tls-attestation/dvrf-combine/v1" (arr (as_bytes DigestBytes_ZERO)).
Proof.
  unfold dvrf_generate. destruct (length (vs ++ vs) =? 0)%nat; [done|].
  intros (ps & Hps%try_map_Ok & [= <-])%bind_Ok. cbn [ro_value].
  apply Forall2_app_inv_l in Hps as (ps1 & ps2 & H1 & H2 & ->).
  assert (Heq : ps1 = ps2).
  { clear -H1 H2. revert ps2 H2. induction H1 as [|v p vs ps Hp _ IH]; intros ps2 H2.
    - by inversion H2.
    - inversion H2 as [|? p2 ? ps2' Hp2 H2']; subst. f_equal; [congruence | by apply IH]. }
  subst ps2. by rewrite combine_xor_all, xor_all_doubled.
Qed.

(** Verification by the secp256k1 engine depends on the session binding only. *)
Lemma secp256k1_verify_Ok out n :
  secp256k1_verify out n = Ok tt <->
  ro_session_binding out = finalize (session_binding_hasher (ro_session_id out) n).
Proof. unfold secp256k1_verify. by case_bool_decide. Qed.

(** The two engines do not accept the same outputs: the output obtained
    from one of the prototype engine by replacing its value by any other value
    is accepted by the verification of the secp256k1 engine and rejected by that
    of the prototype engine. The former checks the session binding and nothing
    that depends on the random value. *)
Theorem secp256k1_verify_accepts_any_value self rid sid n epoch participants out value :
  dvrf_generate self rid sid n epoch participants = Ok out ->
  value <> ro_value out ->
  let forged := {| ro_id := rid; ro_session_id := sid; ro_epoch := epoch; ro_value := value;
    partials := partials out; ro_session_binding := ro_session_binding out |} in
  secp256k1_verify forged n = Ok tt /\
  dvrf_verify self forged n
    = Err (RandomnessVerificationFailed "combined randomness value is incorrect").
Proof.
  intros Hgen Hne forged.
  pose proof (dvrf_generate_correct _ _ _ _ _ _ _ Hgen) as (Hb & Hre & Hv & _).
  split; [by apply secp256k1_verify_Ok|].
  unfold dvrf_verify. cbn [forged ro_session_binding ro_session_id partials ro_value].
  rewrite bool_decide_eq_true_2 by done. cbn [negb]. rewrite Hre. cbn.
  rewrite bool_decide_eq_false_2; [done|]. by rewrite <- Hv.
Qed.
End Dvrf.

(** ** Concrete instances *)

Definition toy_dvrf : PrototypeDvrf :=
  MkPrototypeDvrf (list_to_map ((fun z => (vid z, array_repeat 32 (byte (z + 100)))) <$> [1; 2; 3])).
Definition toy_nonce : Nonce := MkNonce (array_repeat 32 (byte 7)).
Definition toy_rid : RandomnessId := MkRandomnessId (array_repeat 16 (byte 5)).

Definition toy_randomness (vs : list VerifierId) : RandomnessOutput :=
  match dvrf_generate (Hs:=toy_sha256) toy_dvrf toy_rid (sid 4) toy_nonce Epoch_GENESIS vs with
  | Ok out => out
  | Err _ => MkRandomnessOutput toy_rid (sid 0) Epoch_GENESIS DigestBytes_ZERO [] DigestBytes_ZERO
  end.

Lemma dvrf_generate_verify_witness :
  dvrf_verify (Hs:=toy_sha256) toy_dvrf (toy_randomness [vid 2; vid 1]) toy_nonce = Ok tt /\
  pr_verifier_id <$> partials (toy_randomness [vid 2; vid 1]) = [vid 2; vid 1].
Proof.
  apply (dvrf_generate_verify (Hs:=toy_sha256) toy_dvrf toy_rid (sid 4) toy_nonce Epoch_GENESIS).
  vm_compute. reflexivity.
Defined.

Lemma dvrf_output_unique_witness :
  ro_value (toy_randomness [vid 2; vid 1]) = ro_value (toy_randomness [vid 1; vid 2]) /\
  ro_session_binding (toy_randomness [vid 2; vid 1]) = ro_session_binding (toy_randomness [vid 1; vid 2]).
Proof.
  apply (dvrf_output_unique (Hs:=toy_sha256) toy_dvrf _ _ toy_nonce);
    [vm_compute; reflexivity .. |].
  replace (pr_verifier_id <$> partials (toy_randomness [vid 2; vid 1])) with [vid 2; vid 1]
    by (vm_compute; reflexivity).
  replace (pr_verifier_id <$> partials (toy_randomness [vid 1; vid 2])) with [vid 1; vid 2]
    by (vm_compute; reflexivity).
  constructor.
Defined.

Lemma dvrf_repeated_participants_constant_witness :
  ro_value (toy_randomness ([vid 3; vid 1] ++ [vid 3; vid 1])) =
  sha256_tagged (Hs:=toy_sha256) "tls-attestation/dvrf-combine/v1" (arr (as_bytes DigestBytes_ZERO)).
Proof.
  apply (dvrf_repeated_participants_constant (Hs:=toy_sha256) toy_dvrf toy_rid (sid 4) toy_nonce
    Epoch_GENESIS [vid 3; vid 1]).
  vm_compute. reflexivity.
Defined.

Lemma secp256k1_verify_accepts_any_value_witness :
  secp256k1_verify (Hs:=toy_sha256)
    {| ro_id := toy_rid; ro_session_id := sid 4; ro_epoch := Epoch_GENESIS; ro_value := digest 1;
       partials := partials (toy_randomness [vid 2]);
       ro_session_binding := ro_session_binding (toy_randomness [vid 2]) |} toy_nonce = Ok tt.
Proof.
  apply (secp256k1_verify_accepts_any_value (Hs:=toy_sha256) toy_dvrf toy_rid (sid 4) toy_nonce
    Epoch_GENESIS [vid 2] (toy_randomness [vid 2]) (digest 1)).
  - vm_compute. reflexivity.
  - apply (bool_decide_unpack _). vm_compute. exact I.
Defined.
