(* ===== verification/Registry.v ===== *)
(** * Participant registry

    Models [crypto/src/participant_registry.rs]: immutable snapshots of the
    authorised participants, the admission check of ceremonies and the updates
    (revocation, retirement, key rotation) that return a new snapshot at a higher
    epoch. A [HashMap] is a finite map; the order in which its values are
    enumerated is that of [map_to_list], which no theorem depends on. *)

From S2P Require Import Prelude Core Session Attestation Threshold.

Record RegistryEpoch := MkRegistryEpoch { RegistryEpoch_0 : u64 }.

#[export] Instance RegistryEpoch_eq_dec : EqDecision RegistryEpoch.
Proof. solve_decision. Defined.

Definition RegistryEpoch_GENESIS : RegistryEpoch := MkRegistryEpoch (u_of_Z 64 0).
Definition RegistryEpoch_next (self : RegistryEpoch) : RegistryEpoch :=
  MkRegistryEpoch (u_add (RegistryEpoch_0 self) (u_of_Z 64 1)).
(** [a <= b] *)
Definition epoch_leb (a b : RegistryEpoch) : bool := u_leb (RegistryEpoch_0 a) (RegistryEpoch_0 b).

Inductive ParticipantStatus := PActive | PRevoked | PRetired.

#[export] Instance ParticipantStatus_eq_dec : EqDecision ParticipantStatus.
Proof. solve_decision. Defined.

Definition status_is_active (self : ParticipantStatus) : bool :=
  match self with PActive => true | _ => false end.

Inductive RegistryError :=
  | UnknownParticipant (id : VerifierId)
  | RevokedParticipant (id : VerifierId)
  | RetiredParticipant (id : VerifierId)
  | EpochMismatch (expected actual : RegistryEpoch)
  | DuplicateParticipant (id : VerifierId)
  | EmptyRegistry
  | StaleRotationEpoch (current new : RegistryEpoch)
  | RevocationTargetUnknown (id : VerifierId)
  | AlreadyRevoked (id : VerifierId)
  | RotationTargetUnknown (id : VerifierId)
  | VerifierIdMismatch (claimed derived : VerifierId).

Section Registry.
Context {Hs : Sha256} {Ed : Ed25519}.

Record RegisteredParticipant := MkRegisteredParticipant {
  rp_verifier_id : VerifierId;
  rp_signing_key : VerifyingKey;
  status : ParticipantStatus;
  added_at_epoch : RegistryEpoch
}.

Record ParticipantRegistry := MkParticipantRegistry {
  reg_epoch : RegistryEpoch;
  participants : gmap VerifierId RegisteredParticipant
}.

Definition RegisteredParticipant_active (id : VerifierId) (key : VerifyingKey)
    (epoch : RegistryEpoch) : RegisteredParticipant :=
  {| rp_verifier_id := id; rp_signing_key := key; status := PActive; added_at_epoch := epoch |}.

Definition from_signing_key (key : VerifyingKey) (epoch : RegistryEpoch) : RegisteredParticipant :=
  RegisteredParticipant_active (VerifierId_from_public_key (arr (ed_key_bytes key))) key epoch.

Definition validate_key_consistency (self : RegisteredParticipant) : result RegistryError unit :=
  let derived := VerifierId_from_public_key (arr (ed_key_bytes (rp_signing_key self))) in
  if negb (bool_decide (derived = rp_verifier_id self)) then
    Err (VerifierIdMismatch (rp_verifier_id self) derived)
  else Ok tt.

Definition rp_is_active (self : RegisteredParticipant) : bool := status_is_active (status self).

(** One entry of the loop of [ParticipantRegistry::new]. *)
Definition registry_add (ps : gmap VerifierId RegisteredParticipant) (entry : RegisteredParticipant)
    : result RegistryError (gmap VerifierId RegisteredParticipant) :=
  match ps !! rp_verifier_id entry with
  | Some _ => Err (DuplicateParticipant (rp_verifier_id entry))
  | None => Ok (<[rp_verifier_id entry := entry]> ps)
  end.

Definition ParticipantRegistry_new (epoch : RegistryEpoch) (entries : list RegisteredParticipant)
    : result RegistryError ParticipantRegistry :=
  ps ← try_fold registry_add ∅ entries;
  if (size ps =? 0)%nat then Err EmptyRegistry
  else Ok {| reg_epoch := epoch; participants := ps |}.

Definition new_validated (epoch : RegistryEpoch) (entries : list RegisteredParticipant)
    : result RegistryError ParticipantRegistry :=
  _ ← try_fold (fun (_ : unit) entry => validate_key_consistency entry) tt entries;
  ParticipantRegistry_new epoch entries.

Definition from_key_pairs (epoch : RegistryEpoch) (key_pairs : list VerifierKeyPair)
    : result RegistryError ParticipantRegistry :=
  let entries := (fun kp => {| rp_verifier_id := kp_verifier_id kp;
                               rp_signing_key := kp_verifying_key kp;
                               status := PActive; added_at_epoch := epoch |}) <$> key_pairs in
  ParticipantRegistry_new epoch entries.

Definition participant_count (self : ParticipantRegistry) : nat := size (participants self).

(** [self.participants.values().filter(|p| p.is_active())] *)
Definition active_values (self : ParticipantRegistry) : list RegisteredParticipant :=
  filter (fun p => rp_is_active p = true) (map_to_list (participants self)).*2.

Definition active_count (self : ParticipantRegistry) : nat := length (active_values self).
Definition registry_get (self : ParticipantRegistry) (id : VerifierId) : option RegisteredParticipant :=
  participants self !! id.

Definition get_active (self : ParticipantRegistry) (id : VerifierId)
    : result RegistryError RegisteredParticipant :=
  match participants self !! id with
  | None => Err (UnknownParticipant id)
  | Some p => match status p with
              | PActive => Ok p
              | PRevoked => Err (RevokedParticipant id)
              | PRetired => Err (RetiredParticipant id)
              end
  end.

Definition active_participant_ids (self : ParticipantRegistry) : list VerifierId :=
  rp_verifier_id <$> active_values self.
Definition active_verifier_keys (self : ParticipantRegistry) : list (VerifierId * VerifyingKey) :=
  (fun p => (rp_verifier_id p, rp_signing_key p)) <$> active_values self.

Definition check_ceremony_admission (self : ParticipantRegistry) (expected_epoch : RegistryEpoch)
    (ceremony_participants : list VerifierId) : result RegistryError unit :=
  if negb (bool_decide (expected_epoch = reg_epoch self)) then
    Err (EpochMismatch expected_epoch (reg_epoch self))
  else
    try_fold (fun (_ : unit) id => _ ← get_active self id; Ok tt) tt ceremony_participants.

(** [e.status = st; e.added_at_epoch = new_epoch] *)
Definition set_status (st : ParticipantStatus) (new_epoch : RegistryEpoch)
    (e : RegisteredParticipant) : RegisteredParticipant :=
  {| rp_verifier_id := rp_verifier_id e; rp_signing_key := rp_signing_key e;
     status := st; added_at_epoch := new_epoch |}.

Definition with_revocation (self : ParticipantRegistry) (target : VerifierId)
    (new_epoch : RegistryEpoch) : result RegistryError ParticipantRegistry :=
  if epoch_leb new_epoch (reg_epoch self) then Err (StaleRotationEpoch (reg_epoch self) new_epoch)
  else
    entry ← ok_or (RevocationTargetUnknown target) (participants self !! target);
    if bool_decide (status entry = PRevoked) then Err (AlreadyRevoked target)
    else Ok {| reg_epoch := new_epoch;
               participants := alter (set_status PRevoked new_epoch) target (participants self) |}.

Definition with_retirement (self : ParticipantRegistry) (target : VerifierId)
    (new_epoch : RegistryEpoch) : result RegistryError ParticipantRegistry :=
  if epoch_leb new_epoch (reg_epoch self) then Err (StaleRotationEpoch (reg_epoch self) new_epoch)
  else if negb (bool_decide (is_Some (participants self !! target))) then
    Err (RevocationTargetUnknown target)
  else Ok {| reg_epoch := new_epoch;
             participants := alter (set_status PRetired new_epoch) target (participants self) |}.

Definition set_key (key : VerifyingKey) (new_epoch : RegistryEpoch)
    (e : RegisteredParticipant) : RegisteredParticipant :=
  {| rp_verifier_id := rp_verifier_id e; rp_signing_key := key;
     status := PActive; added_at_epoch := new_epoch |}.

Definition with_key_rotation (self : ParticipantRegistry) (target : VerifierId)
    (new_signing_key : VerifyingKey) (new_epoch : RegistryEpoch)
    : result RegistryError ParticipantRegistry :=
  if epoch_leb new_epoch (reg_epoch self) then Err (StaleRotationEpoch (reg_epoch self) new_epoch)
  else if negb (bool_decide (is_Some (participants self !! target))) then
    Err (RotationTargetUnknown target)
  else Ok {| reg_epoch := new_epoch;
             participants := alter (set_key new_signing_key new_epoch) target (participants self) |}.
End Registry.

(** ** Snapshots as a transition system *)

Section RegistryProps.
Context {Hs : Sha256} {Ed : Ed25519}.
Implicit Types (r : ParticipantRegistry) (id : VerifierId).

(** The updates of a registry. *)
Inductive update_op :=
  | Revoke (target : VerifierId)
  | Retire (target : VerifierId)
  | Rotate (target : VerifierId) (key : VerifyingKey).

Definition op_target (o : update_op) : VerifierId :=
  match o with Revoke t | Retire t | Rotate t _ => t end.
Definition op_status (o : update_op) : ParticipantStatus :=
  match o with Revoke _ => PRevoked | Retire _ => PRetired | Rotate _ _ => PActive end.
(** The new version of the target's entry. *)
Definition op_entry (o : update_op) (e : RegistryEpoch) : RegisteredParticipant -> RegisteredParticipant :=
  match o with
  | Revoke _ => set_status PRevoked e
  | Retire _ => set_status PRetired e
  | Rotate _ k => set_key k e
  end.

Definition apply_update r (o : update_op) (e : RegistryEpoch) : result RegistryError ParticipantRegistry :=
  match o with
  | Revoke t => with_revocation r t e
  | Retire t => with_retirement r t e
  | Rotate t k => with_key_rotation r t k e
  end.

(** [r] is updated to [r'] by the listed operations, each with its new epoch. *)
Inductive registry_run : ParticipantRegistry -> list (update_op * RegistryEpoch) -> ParticipantRegistry -> Prop :=
  | run_nil r : registry_run r [] r
  | run_cons r o e r1 ops r2 :
      apply_update r o e = Ok r1 -> registry_run r1 ops r2 -> registry_run r ((o, e) :: ops) r2.

(** The well-formedness of a snapshot: entries are stored under their own
    identifier and there is at least one. *)
Definition registry_wf r : Prop :=
  participants r <> ∅ /\ map_Forall (fun id p => rp_verifier_id p = id) (participants r).

(** Every identifier is the hash of the registered key. *)
Definition key_consistent r : Prop :=
  map_Forall (fun id p => id = VerifierId_from_public_key (arr (ed_key_bytes (rp_signing_key p))))
    (participants r).

Lemma epoch_leb_false a b :
  epoch_leb a b = false <-> uval (RegistryEpoch_0 b) < uval (RegistryEpoch_0 a).
Proof. unfold epoch_leb, u_leb. rewrite Z.leb_gt. done. Qed.

(** What a successful update does, and to which snapshots it applies. *)
Lemma apply_update_Ok r o e r' :
  apply_update r o e = Ok r' <->
  uval (RegistryEpoch_0 (reg_epoch r)) < uval (RegistryEpoch_0 e) /\
  (exists p, participants r !! op_target o = Some p /\ (status p = PRevoked -> op_status o <> PRevoked)) /\
  r' = {| reg_epoch := e; participants := alter (op_entry o e) (op_target o) (participants r) |}.
Proof.
  rewrite <- epoch_leb_false.
  destruct o as [t|t|t k]; simpl; unfold with_revocation, with_retirement, with_key_rotation;
    destruct (epoch_leb e (reg_epoch r)); try (by split; [|intros (? & _)]).
  - destruct (participants r !! t) as [p|]; cbn [ok_or mbind result_bind];
      [|by split; [|intros (_ & (? & ? & _) & _)]].
    case_bool_decide; naive_solver.
  - case_bool_decide as Ht; [destruct Ht|]; naive_solver eauto.
  - case_bool_decide as Ht; [destruct Ht|]; naive_solver eauto.
Qed.

Lemma op_entry_id o e p : rp_verifier_id (op_entry o e p) = rp_verifier_id p.
Proof. by destruct o. Qed.
Lemma op_entry_status o e p : status (op_entry o e p) = op_status o.
Proof. by destruct o. Qed.

Lemma apply_update_wf r o e r' : apply_update r o e = Ok r' -> registry_wf r -> registry_wf r'.
Proof.
  intros (_ & (p & Hp & _) & ->)%apply_update_Ok [Hne Hwf]. split; simpl.
  - intros He. apply (f_equal (fun m => m !! op_target o)) in He.
    by rewrite lookup_alter_eq, Hp, lookup_empty in He.
  - intros id q. destruct (decide (op_target o = id)) as [<-|Hid].
    + rewrite lookup_alter_eq, Hp. intros [= <-]. rewrite op_entry_id. by apply Hwf.
    + rewrite lookup_alter_ne by done. apply Hwf.
Qed.

Lemma get_active_Ok r id p :
  get_active r id = Ok p <-> participants r !! id = Some p /\ status p = PActive.
Proof.
  unfold get_active. destruct (participants r !! id) as [q|]; [|by split; [|intros []]].
  destruct (status q) eqn:Hq; (split; [try by intros [= <-] | intros [[= <-] ?]; congruence]).
Qed.

Lemma admission_Ok r e ids :
  check_ceremony_admission r e ids = Ok tt <->
  e = reg_epoch r /\ Forall (fun id => exists p, participants r !! id = Some p /\ status p = PActive) ids.
Proof.
  unfold check_ceremony_admission. case_bool_decide as He; cbn; [|naive_solver].
  trans (Forall (fun id => exists p, participants r !! id = Some p /\ status p = PActive) ids); [|naive_solver].
  induction ids as [|id ids IH]; simpl; [by split|]. rewrite Forall_cons, <- IH. clear IH.
  split.
  - intros (u & (p & Hp%get_active_Ok & _)%bind_Ok & Hrest)%bind_Ok. destruct u. eauto.
  - intros [(p & Hp%get_active_Ok) Hrest]. by rewrite Hp.
Qed.

(** Construction keeps exactly the given entries. *)
Lemma registry_add_fresh ps entries ps' p :
  try_fold registry_add ps entries = Ok ps' -> p ∈ entries -> ps !! rp_verifier_id p = None.
Proof.
  revert ps. induction entries as [|x entries IH]; intros ps; [by intros _ ?%elem_of_nil|].
  simpl. intros (ps1 & Hadd & Hrest)%bind_Ok Hin. unfold registry_add in Hadd.
  destruct (ps !! rp_verifier_id x) eqn:Hx; [done|]. injection Hadd as <-.
  apply elem_of_cons in Hin as [->|Hin]; [done|].
  specialize (IH _ Hrest Hin). by apply lookup_insert_None in IH as [? _].
Qed.

Lemma registry_add_fold ps entries ps' :
  try_fold registry_add ps entries = Ok ps' ->
  map_Forall (fun id p => rp_verifier_id p = id) ps ->
  map_Forall (fun id p => rp_verifier_id p = id) ps' /\
  NoDup (rp_verifier_id <$> entries) /\
  forall p, ps' !! rp_verifier_id p = Some p <-> ps !! rp_verifier_id p = Some p \/ p ∈ entries.
Proof.
  revert ps. induction entries as [|x entries IH]; intros ps; simpl.
  - intros [= <-] Hwf. split_and!; [done|constructor|]. intros p. rewrite elem_of_nil. tauto.
  - intros (ps1 & Hadd & Hrest)%bind_Ok Hwf. unfold registry_add in Hadd.
    destruct (ps !! rp_verifier_id x) eqn:Hx; [done|]. injection Hadd as <-.
    destruct (IH _ Hrest) as (Hwf' & Hnd & Hiff).
    { by apply map_Forall_insert_2. }
    split_and!; [done| |].
    + constructor; [|done]. intros (y & Hy & Hin)%list_elem_of_fmap.
      pose proof (registry_add_fresh _ _ _ y Hrest Hin) as Hn.
      by rewrite <- Hy, lookup_insert_eq in Hn.
    + intros p. rewrite Hiff, elem_of_cons, lookup_insert. case_decide as Hid; [|naive_solver].
      rewrite <- Hid, Hx. naive_solver.
Qed.

Lemma registry_new_Ok e entries r :
  ParticipantRegistry_new e entries = Ok r ->
  registry_wf r /\ reg_epoch r = e /\ NoDup (rp_verifier_id <$> entries) /\
  forall p, participants r !! rp_verifier_id p = Some p <-> p ∈ entries.
Proof.
  unfold ParticipantRegistry_new. intros (ps & Hps & Hok)%bind_Ok.
  destruct (Nat.eqb_spec (size ps) 0) as [|Hsz]; [done|]. injection Hok as <-.
  apply registry_add_fold in Hps as (Hwf & Hnd & Hiff); [|by apply map_Forall_empty].
  split_and!; simpl; [ |done|done|].
  - split; [|done]. simpl. intros ->. by rewrite map_size_empty in Hsz.
  - intros p. rewrite Hiff, lookup_empty. naive_solver.
Qed.

Lemma registry_new_accepts e entries :
  entries <> [] -> NoDup (rp_verifier_id <$> entries) -> exists r, ParticipantRegistry_new e entries = Ok r.
Proof.
  intros Hne Hnd. unfold ParticipantRegistry_new.
  assert (Hgen : forall ps, (forall p, p ∈ entries -> ps !! rp_verifier_id p = None) ->
    exists ps', try_fold registry_add ps entries = Ok ps' /\ (size ps <= size ps')%nat /\
      (entries <> [] -> size ps' <> 0%nat)).
  { clear Hne. induction entries as [|x entries IH]; intros ps Hfresh; simpl; [naive_solver lia|].
    inversion_clear Hnd as [|? ? Hx Hnd'].
    assert (registry_add ps x = Ok (<[rp_verifier_id x:=x]> ps)) as ->.
    { unfold registry_add. by rewrite Hfresh by constructor. }
    cbn [mbind result_bind].
    destruct (IH Hnd' (<[rp_verifier_id x:=x]> ps)) as (ps' & -> & Hsz & _).
    { intros p Hp. rewrite lookup_insert_ne by (intros Heq; apply Hx; rewrite Heq; by apply list_elem_of_fmap_2).
      apply Hfresh. by constructor. }
    rewrite map_size_insert_None in Hsz by (apply Hfresh; constructor).
    exists ps'. naive_solver lia. }
  destruct (Hgen ∅) as (ps & -> & _ & Hsz); [by intros; apply lookup_empty|].
  cbn [mbind result_bind]. rewrite (proj2 (Nat.eqb_neq _ _)) by auto. eauto.
Qed.

(** Construction is a round trip: [ParticipantRegistry::new] accepts exactly
    the non-empty lists of entries with distinct identifiers, and the registry
    it returns finds under an identifier precisely the listed entry with that
    identifier. *)
Theorem registry_new_roundtrip e entries :
  (is_ok (ParticipantRegistry_new e entries) = true <->
     entries <> [] /\ NoDup (rp_verifier_id <$> entries)) /\
  (forall r, ParticipantRegistry_new e entries = Ok r ->
     registry_wf r /\ reg_epoch r = e /\
     forall p, registry_get r (rp_verifier_id p) = Some p <-> p ∈ entries).
Proof.
  split; [split|].
  - destruct (ParticipantRegistry_new e entries) as [r|] eqn:Hnew; [|done]. intros _.
    pose proof (registry_new_Ok _ _ _ Hnew) as (_ & _ & Hnd & _). split; [|done].
    intros ->. done.
  - intros [Hne Hnd]. by destruct (registry_new_accepts e entries Hne Hnd) as [r ->].
  - intros r (Hwf & He & _ & Hiff)%registry_new_Ok. done.
Qed.

Lemma registry_run_snoc r ops1 ops2 r' :
  registry_run r (ops1 ++ ops2) r' -> exists r1, registry_run r ops1 r1 /\ registry_run r1 ops2 r'.
Proof.
  revert r. induction ops1 as [|[o e] ops1 IH]; intros r; simpl; [eauto using run_nil|].
  inversion_clear 1 as [|? ? ? rm ? ? Happ Hrun]. destruct (IH _ Hrun) as (r1 & H1 & H2).
  eauto using run_cons.
Qed.

(** The status of an entry is that of the last update of it. *)
Fixpoint last_status (id : VerifierId) (ops : list (update_op * RegistryEpoch)) (st : ParticipantStatus) : ParticipantStatus :=
  match ops with
  | [] => st
  | (o, _) :: ops' => last_status id ops' (if decide (op_target o = id) then op_status o else st)
  end.

Lemma run_last_status r ops r' id p : registry_run r ops r' -> participants r !! id = Some p ->
  exists p', participants r' !! id = Some p' /\ status p' = last_status id ops (status p).
Proof.
  intros Hrun. revert p. induction Hrun as [|r o e r1 ops r2 Happ _ IH]; intros p Hp; [eauto|]. cbn [last_status].
  apply apply_update_Ok in Happ as (_ & _ & ->). cbn [participants] in IH. case_decide as Ht.
  - subst id. destruct (IH (op_entry o e p)) as (p' & Hp' & Hst); [by rewrite lookup_alter_eq, Hp|].
    exists p'. by rewrite op_entry_status in Hst.
  - apply (IH p). by rewrite lookup_alter_ne.
Qed.

(** The last update of [id] is a rotation of its key. *)
Definition rotated_last (id : VerifierId) (ops : list (update_op * RegistryEpoch)) : Prop :=
  exists a k e b, ops = a ++ (Rotate id k, e) :: b /\ Forall (fun oe => op_target oe.1 <> id) b.

Lemma last_status_other id ops st : Forall (fun oe => op_target oe.1 <> id) ops -> last_status id ops st = st.
Proof. revert st. induction ops as [|[o e] ops IH]; intros st Hall; [done|]. inv Hall. cbn. rewrite decide_False by done. by apply IH. Qed.
Lemma last_status_active id ops st : st <> PActive -> last_status id ops st = PActive <-> rotated_last id ops.
Proof.
  intros Hst. split.
  - induction ops as [|[o e] ops IH] using rev_ind; [done|]. intros Hlast.
    assert (Hsnoc : forall l st, last_status id (l ++ [(o, e)]) st = if decide (op_target o = id) then op_status o else last_status id l st).
    { clear. induction l as [|[o' e'] l IHl]; intros st; [done|]. cbn. apply IHl. }
    rewrite Hsnoc in Hlast. case_decide as Ht.
    + destruct o as [t|t|t k]; [done..|]. cbn in Ht. subst t. by exists ops, k, e, [].
    + destruct (IH Hlast) as (a & k & e' & b & -> & Hb). exists a, k, e', (b ++ [(o, e)]). rewrite <- (assoc_L (++)).
      split; [done|]. apply Forall_app. split; [done|]. by constructor.
  - intros (a & k & e & b & -> & Hb). clear Hst. revert st. induction a as [|[o' e'] a IH]; intros st; cbn; [|apply IH].
    rewrite decide_True by done. by apply last_status_other.
Qed.

(** C21. Re-admission of a removed participant. After a revocation or retirement the
    participant is in the registry, whatever updates follow, and is
    refused by every ceremony that names it unless its last update is a rotation of its
    key; in that case it is admitted again. A rotation is possible at every later
    epoch, so neither removal is final: [with_key_rotation] sets the status to active
    without looking at it. *)
Theorem removed_participant_not_admitted r ops1 o e ops2 r' :
  registry_run r (ops1 ++ (o, e) :: ops2) r' ->
  op_status o <> PActive ->
  let id := op_target o in
  (~ rotated_last id ops2 -> forall epoch ids, id ∈ ids -> check_ceremony_admission r' epoch ids <> Ok tt) /\
  (rotated_last id ops2 <-> check_ceremony_admission r' (reg_epoch r') [id] = Ok tt) /\
  (forall k e', uval (RegistryEpoch_0 (reg_epoch r')) < uval (RegistryEpoch_0 e') ->
     exists r'', with_key_rotation r' id k e' = Ok r'' /\ check_ceremony_admission r'' e' [id] = Ok tt).
Proof.
  intros (r1 & _ & Hrun)%registry_run_snoc Ho id.
  inversion_clear Hrun as [|? ? ? r2 ? ? Happ Hrest]. apply apply_update_Ok in Happ as (_ & (q & Hq & _) & ->).
  destruct (run_last_status _ _ _ id (op_entry o e q) Hrest) as (p & Hp & Hst).
  { cbn [participants]. subst id. by rewrite lookup_alter_eq, Hq. }
  rewrite op_entry_status in Hst. assert (Hact : status p = PActive <-> rotated_last id ops2) by (rewrite Hst; by apply last_status_active).
  split_and!.
  - intros Hno epoch ids Hin (_ & Hall)%admission_Ok. rewrite Forall_forall in Hall. destruct (Hall _ Hin) as (p' & Hp' & Hact').
    rewrite Hp in Hp'. injection Hp' as <-. by apply Hno, Hact.
  - rewrite <- Hact, admission_Ok, Forall_singleton. split; [eauto|]. intros (_ & p' & Hp' & Hact').
    rewrite Hp in Hp'. by injection Hp' as <-.
  - intros k e' Hlt. change (with_key_rotation r' id k e') with (apply_update r' (Rotate id k) e').
    eexists. split; [apply apply_update_Ok; split_and!; [done|by exists p|reflexivity]|].
    apply admission_Ok. split; [done|]. apply Forall_singleton. cbn [participants op_target op_entry].
    rewrite lookup_alter_eq, Hp. by eexists.
Qed.

Lemma registry_run_epoch r ops r' :
  registry_run r ops r' ->
  uval (RegistryEpoch_0 (reg_epoch r)) + Z.of_nat (length ops) <= uval (RegistryEpoch_0 (reg_epoch r')).
Proof.
  induction 1 as [|r o e r1 ops r2 Happ _ IH]; simpl; [lia|].
  apply apply_update_Ok in Happ as (Hlt & _ & ->). simpl in IH. lia.
Qed.

(** C40. Snapshots are versioned: along any sequence of updates the epoch grows by
    at least one per update, the entries stay keyed by their identifiers and
    non-empty, and a ceremony admitted by one snapshot is refused by every other
    snapshot reached from it, with the two epochs in the error. *)
Theorem registry_epochs_monotone r ops r' epoch ids :
  registry_run r ops r' -> registry_wf r ->
  uval (RegistryEpoch_0 (reg_epoch r)) + Z.of_nat (length ops) <= uval (RegistryEpoch_0 (reg_epoch r')) /\
  registry_wf r' /\
  (check_ceremony_admission r epoch ids = Ok tt -> ops <> [] ->
   check_ceremony_admission r' epoch ids = Err (EpochMismatch epoch (reg_epoch r'))).
Proof.
  intros Hrun Hwf. pose proof (registry_run_epoch _ _ _ Hrun) as Hep. split_and!; [done| |].
  - clear Hep. induction Hrun; eauto using apply_update_wf.
  - intros [-> _]%admission_Ok Hne. unfold check_ceremony_admission.
    rewrite bool_decide_eq_false_2; [done|]. intros Heq. rewrite <- Heq in Hep.
    destruct ops; simpl in Hep; [done|lia].
Qed.

Lemma active_values_elem r p :
  registry_wf r ->
  p ∈ active_values r <-> get_active r (rp_verifier_id p) = Ok p.
Proof.
  intros [_ Hwf]. unfold active_values. rewrite list_elem_of_filter, get_active_Ok, list_elem_of_fmap.
  unfold rp_is_active, status_is_active. split.
  - intros (Hact & [id q] & -> & Hin%elem_of_map_to_list). simpl in *.
    rewrite (Hwf _ _ Hin). split; [done|]. by destruct (status q).
  - intros [Hp ->]. split; [done|]. exists (rp_verifier_id p, p). split; [done|].
    by apply elem_of_map_to_list.
Qed.

Lemma active_ids_NoDup r : registry_wf r -> NoDup (active_participant_ids r).
Proof.
  intros [_ Hwf]. unfold active_participant_ids, active_values.
  eapply sublist_NoDup; [|apply fmap_sublist, sublist_filter].
  rewrite <- list_fmap_compose.
  replace ((rp_verifier_id ∘ snd) <$> map_to_list (participants r)) with (map_to_list (participants r)).*1;
    [apply NoDup_fst_map_to_list|].
  apply list_fmap_ext. intros i [id p] Hi. simpl. symmetry.
  apply Hwf, elem_of_map_to_list. by eapply list_elem_of_lookup_2.
Qed.

(** The keys handed to signature verification are those of the admissible
    participants: in a well-formed snapshot [active_verifier_keys] holds exactly
    one key per participant that a ceremony bound to the snapshot's epoch
    admits, and it is that participant's registered key. *)
Theorem active_keys_are_admissible r id key :
  registry_wf r ->
  NoDup (active_verifier_keys r).*1 /\
  ((id, key) ∈ active_verifier_keys r <->
   check_ceremony_admission r (reg_epoch r) [id] = Ok tt /\
   exists p, registry_get r id = Some p /\ rp_signing_key p = key).
Proof.
  intros Hwf. split.
  - unfold active_verifier_keys. rewrite <- list_fmap_compose. by apply active_ids_NoDup.
  - unfold active_verifier_keys. rewrite list_elem_of_fmap, admission_Ok, Forall_singleton.
    unfold registry_get. split.
    + intros (p & [= -> ->] & (Hp & Hact)%active_values_elem%get_active_Ok); [eauto 10|done].
    + intros ((_ & p & Hp & Hact) & q & Hq & <-). rewrite Hp in Hq. injection Hq as <-.
      destruct Hwf as [Hne Hid]. pose proof (Hid _ _ Hp) as Heq. exists p.
      rewrite Heq. split; [done|]. apply active_values_elem; [by split|].
      apply get_active_Ok. by rewrite Heq.
Qed.

Lemma validated_key_consistent e entries r :
  new_validated e entries = Ok r -> key_consistent r.
Proof.
  unfold new_validated. intros (u & Hval & (Hwf & _ & _ & Hiff)%registry_new_Ok)%bind_Ok.
  assert (HF : Forall (fun p => rp_verifier_id p
    = VerifierId_from_public_key (arr (ed_key_bytes (rp_signing_key p)))) entries).
  { clear Hiff. induction entries as [|x entries IH]; [constructor|].
    simpl in Hval. apply bind_Ok in Hval as ([] & Hx & Hval). constructor; [|by apply IH].
    unfold validate_key_consistency in Hx. by case_bool_decide. }
  intros id p Hp. rewrite Forall_forall in HF. destruct Hwf as [_ Hwf].
  pose proof (Hwf _ _ Hp) as <-. apply HF, Hiff, Hp.
Qed.

(** Key consistency: a registry built by [new_validated] maps every
    identifier to a key whose hash it is, revocations and retirements keep this,
    and a key rotation keeps it only when the new key hashes to the old
    identifier, that is when it is the old key or collides with it. Rotation
    does not run [validate_key_consistency]. *)
Theorem key_rotation_breaks_consistency e entries r ops r1 t key e' r' p :
  new_validated e entries = Ok r ->
  registry_run r ops r1 -> (forall t k e, (Rotate t k, e) ∉ ops) ->
  with_key_rotation r1 t key e' = Ok r' ->
  registry_get r1 t = Some p ->
  key_consistent r1 /\
  (key_consistent r' ->
   arr (ed_key_bytes key) = arr (ed_key_bytes (rp_signing_key p)) \/
   collision (arr (ed_key_bytes key)) (arr (ed_key_bytes (rp_signing_key p)))).
Proof.
  intros Hkc%validated_key_consistent Hrun Hno (_ & _ & ->)%(apply_update_Ok r1 (Rotate t key)) Hp.
  assert (Hkc1 : key_consistent r1).
  { induction Hrun as [|r o e1 r1 ops r2 Happ _ IH]; [done|].
    apply IH; [ |intros t' k' e2 Hin; apply (Hno t' k' e2); by constructor|done].
    apply apply_update_Ok in Happ as (_ & _ & ->). intros id q. simpl.
    destruct (decide (op_target o = id)) as [Ht|Ht].
    - rewrite Ht, lookup_alter_eq, fmap_Some. intros (q' & Hq' & ->).
      destruct o as [?|?|t' k']; [apply (Hkc _ _ Hq') ..|].
      exfalso. apply (Hno t' k' e1). constructor.
    - rewrite lookup_alter_ne by done. apply Hkc. }
  split; [done|]. intros Hkc'.
  assert (Hnew : participants {| reg_epoch := e'; participants :=
    alter (set_key key e') t (participants r1) |} !! t = Some (set_key key e' p)).
  { simpl. unfold registry_get in Hp. by rewrite lookup_alter_eq, Hp. }
  pose proof (Hkc' _ _ Hnew) as H2. pose proof (Hkc1 _ _ Hp) as H1. simpl in H2. rewrite H2 in H1.
  injection H1 as H1. destruct (decide (arr (ed_key_bytes key) = arr (ed_key_bytes (rp_signing_key p))));
    [by left | by right].
Qed.
End RegistryProps.

(** ** Concrete instances *)

Definition toy_entries : list (RegisteredParticipant (Ed:=toy_ed25519)) :=
  (fun z => from_signing_key (Hs:=toy_sha256) (Ed:=toy_ed25519) (array_repeat 32 (byte z))
              RegistryEpoch_GENESIS) <$> [1; 2; 3].
Definition toy_registry : ParticipantRegistry (Ed:=toy_ed25519) :=
  unwrap_or (MkParticipantRegistry (Ed:=toy_ed25519) RegistryEpoch_GENESIS ∅)
    (new_validated (Hs:=toy_sha256) (Ed:=toy_ed25519) RegistryEpoch_GENESIS toy_entries).
Definition ep (z : Z) : RegistryEpoch := MkRegistryEpoch (n64 z).

Definition toy_update (r : ParticipantRegistry (Ed:=toy_ed25519)) (o : update_op (Ed:=toy_ed25519))
    (e : RegistryEpoch) : ParticipantRegistry (Ed:=toy_ed25519) :=
  unwrap_or r (apply_update (Ed:=toy_ed25519) r o e).

Definition toy_registry1 : ParticipantRegistry (Ed:=toy_ed25519) :=
  toy_update toy_registry (Revoke (vid 2)) (ep 1).
Definition toy_registry2 : ParticipantRegistry (Ed:=toy_ed25519) :=
  toy_update toy_registry1 (Retire (vid 3)) (ep 5).

Lemma toy_registry_run :
  registry_run (Ed:=toy_ed25519) toy_registry ([] ++ [(Revoke (vid 2), ep 1); (Retire (vid 3), ep 5)]) toy_registry2.
Proof.
  apply run_cons with toy_registry1; [apply is_ok_unwrap; vm_compute; reflexivity|].
  apply run_cons with toy_registry2; [apply is_ok_unwrap; vm_compute; reflexivity | apply run_nil].
Qed.

Lemma toy_registry_new :
  new_validated (Hs:=toy_sha256) (Ed:=toy_ed25519) RegistryEpoch_GENESIS toy_entries = Ok toy_registry.
Proof. apply is_ok_unwrap. vm_compute. reflexivity. Qed.

Lemma toy_registry_wf : registry_wf (Ed:=toy_ed25519) toy_registry.
Proof.
  apply (registry_new_Ok (Ed:=toy_ed25519) RegistryEpoch_GENESIS toy_entries).
  pose proof toy_registry_new as Hnew. unfold new_validated in Hnew. by apply bind_Ok in Hnew as (_ & _ & Hnew).
Qed.

(** Verifier 2 is revoked and stays out; its key is rotated and it is back. *)
Lemma removed_participant_not_admitted_witness :
  check_ceremony_admission toy_registry2 (ep 5) [vid 1; vid 2] <> Ok tt /\
  exists r'', with_key_rotation (Ed:=toy_ed25519) toy_registry2 (vid 2) (array_repeat 32 (byte 9)) (ep 6) = Ok r'' /\
    check_ceremony_admission r'' (ep 6) [vid 2] = Ok tt.
Proof.
  destruct (removed_participant_not_admitted (Ed:=toy_ed25519) toy_registry [] (Revoke (vid 2)) (ep 1)
    [(Retire (vid 3), ep 5)] toy_registry2) as (Hout & _ & Hback).
  - exact toy_registry_run.
  - discriminate.
  - split.
    + apply Hout.
      * intros (a & k & e & b & Heq & _). destruct a as [|x [|y a]]; discriminate Heq.
      * apply (bool_decide_unpack _). vm_compute. exact I.
    + apply Hback. vm_compute. reflexivity.
Defined.

Lemma registry_epochs_monotone_witness :
  check_ceremony_admission toy_registry2 RegistryEpoch_GENESIS [vid 1; vid 2]
    = Err (EpochMismatch RegistryEpoch_GENESIS (reg_epoch toy_registry2)).
Proof.
  apply (registry_epochs_monotone (Ed:=toy_ed25519) toy_registry _ _ RegistryEpoch_GENESIS [vid 1; vid 2]
    toy_registry_run toy_registry_wf); [vm_compute; reflexivity | discriminate].
Defined.

Lemma active_keys_are_admissible_witness :
  (vid 3, array_repeat 32 (byte 3)) ∈ active_verifier_keys (Ed:=toy_ed25519) toy_registry.
Proof.
  apply (active_keys_are_admissible (Ed:=toy_ed25519) toy_registry (vid 3) (array_repeat 32 (byte 3)) toy_registry_wf).
  split; [vm_compute; reflexivity|]. eexists. split; [vm_compute; reflexivity | vm_compute; reflexivity].
Defined.

(** Verifier 1 rotates to the key of verifier 9. *)
Lemma key_rotation_breaks_consistency_witness :
  key_consistent (Hs:=toy_sha256) (Ed:=toy_ed25519) toy_registry2 /\
  (key_consistent (Hs:=toy_sha256) (Ed:=toy_ed25519)
     (toy_update toy_registry2 (Rotate (Ed:=toy_ed25519) (vid 1) (array_repeat 32 (byte 9))) (ep 6)) ->
   arr (array_repeat 32 (byte 9)) = arr (array_repeat 32 (byte 1)) \/
   collision (Hs:=toy_sha256) (arr (array_repeat 32 (byte 9))) (arr (array_repeat 32 (byte 1)))).
Proof.
  apply (key_rotation_breaks_consistency (Hs:=toy_sha256) (Ed:=toy_ed25519) RegistryEpoch_GENESIS
    toy_entries toy_registry [(Revoke (vid 2), ep 1); (Retire (vid 3), ep 5)] toy_registry2 (vid 1)
    (array_repeat 32 (byte 9)) (ep 6) _
    (MkRegisteredParticipant (Ed:=toy_ed25519) (vid 1) (array_repeat 32 (byte 1)) PActive RegistryEpoch_GENESIS)).
  - exact toy_registry_new.
  - exact toy_registry_run.
  - intros t k e Hin. apply (list_elem_of_fmap_2 fst) in Hin. simpl in Hin.
    apply elem_of_cons in Hin as [|Hin%list_elem_of_singleton]; discriminate.
  - apply (is_ok_unwrap toy_registry2). vm_compute. reflexivity.
  - vm_compute. reflexivity.
Defined.
