(* ===== verification/Dctls.v ===== *)
(** * The dx-DCTLS proof layer

    Models [attestation/src/dctls.rs] (handshake, query and proof-generation
    commitments, their verification and the transcript binding) and the engine
    [PrototypeDctlsEngine] of [attestation/src/engine.rs].

    The wall clock read by [verify_hsp_proof] is the argument [now_secs];
    [serde_json::to_vec] is the argument [to_vec] of the engine. *)

From S2P Require Import Prelude Core Session Attestation.

Inductive DctlsError :=
  | RandMismatch
  | CommitmentMismatch (which : string)
  | ProofBindingMismatch (which : string)
  | CertHashMismatch
  | UnknownEngineTag (tag : string)
  | ZkProofFailed (msg : string).

Definition DCTLS_ENGINE_TAG : string := "dx-dctls/commitment-v1".

Record SessionParamsSecret := MkSPS { sps_dvrf_exporter : DigestBytes; sps_session_nonce : DigestBytes }.
Record SessionParamsPublic := MkSPP {
  spp_server_cert_hash : DigestBytes;
  spp_tls_version : u16;
  spp_server_name : string;
  spp_established_at : u64
}.

Record HSPProof := MkHSPProof {
  hsp_session_id : SessionId;
  hsp_rand_value : DigestBytes;
  hsp_dvrf_exporter : DigestBytes;
  hsp_commitment : DigestBytes;
  hsp_server_cert_hash : DigestBytes;
  handshake_transcript_hash : DigestBytes;
  hsp_tls_version : u16;
  hsp_server_name : string;
  hsp_established_at : u64;
  hsp_engine_tag : string;
  zk_proof : option bytes;
  zk_binding : option DigestBytes
}.

Record QueryRecord := MkQueryRecord {
  qr_session_id : SessionId;
  qr_rand_value : DigestBytes;
  query_commitment : DigestBytes;
  response_commitment : DigestBytes;
  transcript_commitment : DigestBytes
}.

Record Statement := MkStatement {
  st_content : bytes;
  st_derivation_tag : string;
  st_statement_digest : DigestBytes
}.

Record PGPProof := MkPGPProof {
  pgp_session_id : SessionId;
  pgp_statement : Statement;
  pgp_commitment : DigestBytes;
  hsp_proof_digest : DigestBytes;
  qp_transcript_commitment : DigestBytes
}.

Record TranscriptBinding := MkTranscriptBinding {
  tb_session_id : SessionId;
  tb_rand_value : DigestBytes;
  tb_hsp_commitment : DigestBytes;
  tb_qp_transcript_commitment : DigestBytes;
  tb_pgp_commitment : DigestBytes;
  binding_digest : DigestBytes
}.

Record DctlsEvidence := MkDctlsEvidence {
  hsp_proof : HSPProof;
  query_record : QueryRecord;
  pgp_proof : PGPProof
}.

(** ** Hash inputs *)

Definition hsp_ht_hasher (cert : DigestBytes) (version : u16) (name : string) (at_ : u64) : CanonicalHasher :=
  let h := CanonicalHasher_new "tls-attestation/hsp-ht/v1" in
  let h := update_digest cert h in
  let h := update_u64 (u_of_Z 64 (uval version)) h in
  let h := update_bytes (string_bytes name) h in
  update_u64 at_ h.

Definition hsp_hasher (sid : SessionId) (rand exporter cert ht : DigestBytes) : CanonicalHasher :=
  let h := CanonicalHasher_new "tls-attestation/hsp/v1" in
  let h := update_fixed (as_bytes sid) h in
  let h := update_digest rand h in
  let h := update_digest exporter h in
  let h := update_digest cert h in
  update_digest ht h.

Definition hsp_proof_hasher (p : HSPProof) : CanonicalHasher :=
  let h := CanonicalHasher_new "tls-attestation/hsp-proof/v1" in
  let h := update_fixed (as_bytes (hsp_session_id p)) h in
  let h := update_digest (hsp_rand_value p) h in
  let h := update_digest (hsp_commitment p) h in
  let h := update_digest (hsp_server_cert_hash p) h in
  update_digest (handshake_transcript_hash p) h.

Definition qp_hasher (domain : string) (sid : SessionId) (rand : DigestBytes) (data : bytes) : CanonicalHasher :=
  let h := CanonicalHasher_new domain in
  let h := update_fixed (as_bytes sid) h in
  let h := update_digest rand h in
  update_bytes data h.

Definition qp_transcript_hasher (q r : DigestBytes) : CanonicalHasher :=
  let h := CanonicalHasher_new "tls-attestation/qp-transcript/v1" in
  let h := update_digest q h in
  update_digest r h.

Definition pgp_statement_hasher (tag : string) (tc : DigestBytes) (content : bytes) : CanonicalHasher :=
  let h := CanonicalHasher_new "tls-attestation/pgp-statement/v1" in
  let h := update_bytes (string_bytes tag) h in
  let h := update_digest tc h in
  update_bytes content h.

Definition pgp_hasher (sid : SessionId) (rand tc stmt hsp : DigestBytes) : CanonicalHasher :=
  let h := CanonicalHasher_new "tls-attestation/pgp/v1" in
  let h := update_fixed (as_bytes sid) h in
  let h := update_digest rand h in
  let h := update_digest tc h in
  let h := update_digest stmt h in
  update_digest hsp h.

Definition binding_hasher (hsp : HSPProof) (qr : QueryRecord) (pgp : PGPProof) : CanonicalHasher :=
  let h := CanonicalHasher_new "tls-attestation/transcript-binding/v1" in
  let h := update_fixed (as_bytes (hsp_session_id hsp)) h in
  let h := update_digest (hsp_rand_value hsp) h in
  let h := update_digest (hsp_commitment hsp) h in
  let h := update_digest (transcript_commitment qr) h in
  update_digest (pgp_commitment pgp) h.

(** [{:?}] of a string (escapes of ASCII characters). *)
Definition quote : Ascii.ascii := Ascii.ascii_of_N 34.
Definition hex_lower (n : N) : string :=
  let d z := String (hex_char z) EmptyString in
  if (n <? 16)%N then d (Z.of_N n) else d (Z.of_N (n / 16)) +:+ d (Z.of_N (n mod 16)).
Definition escape_debug (c : Ascii.ascii) : string :=
  let n := Ascii.N_of_ascii c in
  let esc k := String (Ascii.ascii_of_N 92) (String (Ascii.ascii_of_N k) EmptyString) in
  if (n =? 34)%N then esc 34%N
  else if (n =? 92)%N then esc 92%N
  else if (n =? 10)%N then esc 110%N
  else if (n =? 13)%N then esc 114%N
  else if (n =? 9)%N then esc 116%N
  else if (n =? 0)%N then esc 48%N
  else if (n <? 32)%N || (n =? 127)%N then "\u{" +:+ hex_lower n +:+ "}"
  else String c EmptyString.
Fixpoint escape_str (s : string) : string :=
  match s with EmptyString => EmptyString | String c s' => escape_debug c +:+ escape_str s' end.
Definition str_debug (s : string) : string :=
  String quote (escape_str s) +:+ String quote EmptyString.

Definition HSP_PROOF_MAX_AGE_SECS : Z := 24 * 3600.

Section Dctls.
Context {Hs : Sha256}.

(** ** Handshake phase *)

Definition compute_handshake_transcript_hash (cert : DigestBytes) (version : u16) (name : string)
    (at_ : u64) : DigestBytes :=
  finalize (hsp_ht_hasher cert version name at_).

Definition HSPProof_compute_commitment (sid : SessionId) (rand exporter cert ht : DigestBytes) : DigestBytes :=
  finalize (hsp_hasher sid rand exporter cert ht).

Definition HSPProof_generate (sid : SessionId) (rand : DigestBytes) (sps : SessionParamsSecret)
    (spp : SessionParamsPublic) : HSPProof :=
  let ht := compute_handshake_transcript_hash (spp_server_cert_hash spp) (spp_tls_version spp)
    (spp_server_name spp) (spp_established_at spp) in
  {| hsp_session_id := sid; hsp_rand_value := rand; hsp_dvrf_exporter := sps_dvrf_exporter sps;
     hsp_commitment := HSPProof_compute_commitment sid rand (sps_dvrf_exporter sps)
       (spp_server_cert_hash spp) ht;
     hsp_server_cert_hash := spp_server_cert_hash spp;
     handshake_transcript_hash := ht;
     hsp_tls_version := spp_tls_version spp; hsp_server_name := spp_server_name spp;
     hsp_established_at := spp_established_at spp; hsp_engine_tag := DCTLS_ENGINE_TAG;
     zk_proof := None; zk_binding := None |}.

Definition proof_digest (self : HSPProof) : DigestBytes := finalize (hsp_proof_hasher self).

Definition verify_hsp_proof (now_secs : u64) (proof : HSPProof) (expected_rand expected_cert : DigestBytes)
    : result DctlsError unit :=
  if negb (bool_decide (hsp_engine_tag proof = DCTLS_ENGINE_TAG)) then
    Err (CommitmentMismatch ("engine_tag mismatch: expected " +:+ str_debug DCTLS_ENGINE_TAG +:+
           ", got " +:+ str_debug (hsp_engine_tag proof)))
  else if negb (bool_decide (hsp_rand_value proof = expected_rand)) then Err RandMismatch
  else if negb (bool_decide (hsp_server_cert_hash proof = expected_cert)) then Err CertHashMismatch
  else if bool_decide (is_Some (zk_proof proof)) then
    Err (CommitmentMismatch ("zk_proof present but no verifying key supplied — " +:+
           "use verify_hsp_proof_with_zk instead"))
  else if (0 <? uval (hsp_established_at proof)) && (uval (hsp_established_at proof) <? uval now_secs)
          && (HSP_PROOF_MAX_AGE_SECS <? uval now_secs - uval (hsp_established_at proof)) then
    Err (CommitmentMismatch ("HSP proof has expired (established_at=" +:+
           pretty (uval (hsp_established_at proof)) +:+ ", age=" +:+
           pretty (uval now_secs - uval (hsp_established_at proof)) +:+ "s, max=" +:+
           pretty HSP_PROOF_MAX_AGE_SECS +:+ "s)"))
  else if negb (bool_decide (handshake_transcript_hash proof =
                  compute_handshake_transcript_hash (hsp_server_cert_hash proof)
                    (hsp_tls_version proof) (hsp_server_name proof) (hsp_established_at proof))) then
    Err (CommitmentMismatch "handshake_transcript_hash")
  else if negb (bool_decide (hsp_commitment proof =
                  HSPProof_compute_commitment (hsp_session_id proof) (hsp_rand_value proof)
                    (hsp_dvrf_exporter proof) (hsp_server_cert_hash proof)
                    (handshake_transcript_hash proof))) then
    Err (CommitmentMismatch "HSP commitment")
  else Ok tt.

(** The verifier of Groth16 proofs of this crate is a stub that always fails. *)
Definition verify_groth16_hsp_bytes (pvk_bytes proof_bytes public_input_bytes : bytes)
    : result string unit :=
  Err "verify_groth16_hsp_bytes: not wired — integrate via node crate".

Definition verify_hsp_proof_with_zk (proof : HSPProof) (expected_rand expected_cert : DigestBytes)
    (pvk_bytes : bytes) : result DctlsError unit :=
  if negb (bool_decide (hsp_rand_value proof = expected_rand)) then Err RandMismatch
  else if negb (bool_decide (hsp_server_cert_hash proof = expected_cert)) then Err CertHashMismatch
  else if negb (bool_decide (handshake_transcript_hash proof =
                  compute_handshake_transcript_hash (hsp_server_cert_hash proof)
                    (hsp_tls_version proof) (hsp_server_name proof) (hsp_established_at proof))) then
    Err (CommitmentMismatch "handshake_transcript_hash")
  else if negb (bool_decide (hsp_commitment proof =
                  HSPProof_compute_commitment (hsp_session_id proof) (hsp_rand_value proof)
                    (hsp_dvrf_exporter proof) (hsp_server_cert_hash proof)
                    (handshake_transcript_hash proof))) then
    Err (CommitmentMismatch "HSP commitment")
  else
    zk_bytes ← ok_or (CommitmentMismatch "zk_proof missing") (zk_proof proof);
    binding ← ok_or (CommitmentMismatch "zk_binding missing") (zk_binding proof);
    map_err (fun e => CommitmentMismatch ("ZK proof invalid: " +:+ e))
      (verify_groth16_hsp_bytes pvk_bytes zk_bytes (arr (as_bytes binding))).

(** ** Query phase *)

Definition query_hasher := qp_hasher "tls-attestation/query-commitment/v1".
Definition response_hasher := qp_hasher "tls-attestation/response-commitment/v1".

Definition QueryRecord_build (sid : SessionId) (rand : DigestBytes) (query response : bytes) : QueryRecord :=
  let qc := finalize (query_hasher sid rand query) in
  let rc := finalize (response_hasher sid rand response) in
  {| qr_session_id := sid; qr_rand_value := rand; query_commitment := qc; response_commitment := rc;
     transcript_commitment := finalize (qp_transcript_hasher qc rc) |}.

Definition verify_query_record (record : QueryRecord) (query response : bytes) : result DctlsError unit :=
  if negb (bool_decide (query_commitment record =
             finalize (query_hasher (qr_session_id record) (qr_rand_value record) query))) then
    Err (CommitmentMismatch "query commitment")
  else if negb (bool_decide (response_commitment record =
             finalize (response_hasher (qr_session_id record) (qr_rand_value record) response))) then
    Err (CommitmentMismatch "response commitment")
  else if negb (bool_decide (transcript_commitment record =
             finalize (qp_transcript_hasher (query_commitment record) (response_commitment record)))) then
    Err (CommitmentMismatch "QP transcript commitment")
  else Ok tt.

(** ** Proof generation phase *)

Definition Statement_derive (content : bytes) (tag : string) (tc : DigestBytes) : Statement :=
  {| st_content := content; st_derivation_tag := tag;
     st_statement_digest := finalize (pgp_statement_hasher tag tc content) |}.

Definition PGPProof_compute_commitment (sid : SessionId) (rand tc stmt hsp : DigestBytes) : DigestBytes :=
  finalize (pgp_hasher sid rand tc stmt hsp).

Definition PGPProof_generate (sid : SessionId) (rand : DigestBytes) (qp : QueryRecord)
    (statement : Statement) (hsp : HSPProof) : PGPProof :=
  {| pgp_session_id := sid; pgp_statement := statement;
     pgp_commitment := PGPProof_compute_commitment sid rand (transcript_commitment qp)
       (st_statement_digest statement) (hsp_commitment hsp);
     hsp_proof_digest := proof_digest hsp;
     qp_transcript_commitment := transcript_commitment qp |}.

Definition signing_preimage (self : PGPProof) : DigestBytes :=
  let h := CanonicalHasher_new "tls-attestation/signing-preimage/v1" in
  let h := update_digest (pgp_commitment self) h in
  finalize (update_digest (hsp_proof_digest self) h).

Definition verify_pgp_proof (proof : PGPProof) (rand : DigestBytes) (hsp : HSPProof) : result DctlsError unit :=
  if negb (bool_decide (pgp_commitment proof =
             PGPProof_compute_commitment (pgp_session_id proof) rand (qp_transcript_commitment proof)
               (st_statement_digest (pgp_statement proof)) (hsp_commitment hsp))) then
    Err (CommitmentMismatch "PGP commitment")
  else if negb (bool_decide (hsp_proof_digest proof = proof_digest hsp)) then
    Err (ProofBindingMismatch "HSP proof digest")
  else if negb (bool_decide (st_statement_digest (pgp_statement proof) =
             finalize (pgp_statement_hasher (st_derivation_tag (pgp_statement proof))
               (qp_transcript_commitment proof) (st_content (pgp_statement proof))))) then
    Err (CommitmentMismatch "statement digest")
  else Ok tt.

(** ** Transcript binding *)

Definition TranscriptBinding_build (hsp : HSPProof) (qr : QueryRecord) (pgp : PGPProof) : TranscriptBinding :=
  {| tb_session_id := hsp_session_id hsp; tb_rand_value := hsp_rand_value hsp;
     tb_hsp_commitment := hsp_commitment hsp;
     tb_qp_transcript_commitment := transcript_commitment qr;
     tb_pgp_commitment := pgp_commitment pgp;
     binding_digest := finalize (binding_hasher hsp qr pgp) |}.

Definition verify_transcript_consistency (hsp : HSPProof) (qr : QueryRecord) (pgp : PGPProof)
    : result DctlsError TranscriptBinding :=
  if negb (bool_decide (hsp_session_id hsp = qr_session_id qr)) then
    Err (ProofBindingMismatch "HSP session_id does not match QP session_id")
  else if negb (bool_decide (hsp_session_id hsp = pgp_session_id pgp)) then
    Err (ProofBindingMismatch "HSP session_id does not match PGP session_id")
  else if negb (bool_decide (hsp_rand_value hsp = qr_rand_value qr)) then Err RandMismatch
  else if negb (bool_decide (qp_transcript_commitment pgp = transcript_commitment qr)) then
    Err (ProofBindingMismatch "PGP qp_transcript_commitment does not match QP transcript")
  else if negb (bool_decide (hsp_proof_digest pgp = proof_digest hsp)) then
    Err (ProofBindingMismatch "PGP hsp_proof_digest does not match HSP proof")
  else Ok (TranscriptBinding_build hsp qr pgp).

Definition DctlsEvidence_digest (self : DctlsEvidence) : DigestBytes :=
  let h := CanonicalHasher_new "tls-attestation/dctls-evidence/v1" in
  let h := update_digest (proof_digest (hsp_proof self)) h in
  let h := update_digest (transcript_commitment (query_record self)) h in
  finalize (update_digest (pgp_commitment (pgp_proof self)) h).

Definition verify_all (now_secs : u64) (self : DctlsEvidence) (rand cert : DigestBytes)
    (query response : bytes) : result DctlsError TranscriptBinding :=
  _ ← verify_hsp_proof now_secs (hsp_proof self) rand cert;
  _ ← verify_query_record (query_record self) query response;
  _ ← verify_pgp_proof (pgp_proof self) rand (hsp_proof self);
  verify_transcript_consistency (hsp_proof self) (query_record self) (pgp_proof self).

(** ** The prototype engine (engine.rs) *)

Definition prototype_exporter (sid : SessionId) (rand : DigestBytes) : DigestBytes :=
  let h := CanonicalHasher_new "tls-attestation/prototype-exporter/v1" in
  let h := update_fixed (as_bytes sid) h in
  finalize (update_digest rand h).
Definition prototype_session_nonce (sid : SessionId) : DigestBytes :=
  let h := CanonicalHasher_new "tls-attestation/prototype-session-nonce/v1" in
  finalize (update_fixed (as_bytes sid) h).

Definition execute_dctls (to_vec : DctlsEvidence -> option bytes) (session : SessionContext)
    (randomness : DigestBytes) (query response : bytes) (server_cert_hash : DigestBytes)
    : result AttestationError (TranscriptCommitments * ExportableEvidence * DctlsEvidence) :=
  let sid := session_id session in
  let sps := {| sps_dvrf_exporter := prototype_exporter sid randomness;
                sps_session_nonce := prototype_session_nonce sid |} in
  let spp := {| spp_server_cert_hash := server_cert_hash; spp_tls_version := u_of_Z 16 772;
                spp_server_name := "prototype-server/" +:+ SessionId_to_string sid;
                spp_established_at := UnixTimestamp_0 (created_at session) |} in
  let hsp := HSPProof_generate sid randomness sps spp in
  let qr := QueryRecord_build sid randomness query response in
  let tc := TranscriptCommitments_build sid randomness query response in
  let statement := Statement_derive (string_bytes "attested-session")
    "dx-dctls/prototype-statement/v1" (transcript_commitment qr) in
  let pgp := PGPProof_generate sid randomness qr statement hsp in
  let dctls_evidence := MkDctlsEvidence hsp qr pgp in
  let evidence_bytes := default (string_bytes "{}") (to_vec dctls_evidence) in
  Ok (tc, ExportableEvidence_new DCTLS_ENGINE_TAG evidence_bytes, dctls_evidence).

Definition PrototypeDctlsEngine (to_vec : DctlsEvidence -> option bytes) : AttestationEngine :=
  fun session randomness query response =>
    r ← execute_dctls to_vec session randomness query response DigestBytes_ZERO;
    let '(tc, ev, _) := r in Ok (tc, ev).
End Dctls.

(** ** Properties *)

Section DctlsProps.
Context {Hs : Sha256}.

(** The conditions under which a handshake proof is accepted. *)
Definition hsp_valid (now_secs : u64) (p : HSPProof) (rand cert : DigestBytes) : Prop :=
  hsp_engine_tag p = DCTLS_ENGINE_TAG /\ hsp_rand_value p = rand /\ hsp_server_cert_hash p = cert /\
  zk_proof p = None /\
  (uval (hsp_established_at p) = 0 \/
   uval now_secs <= uval (hsp_established_at p) + HSP_PROOF_MAX_AGE_SECS) /\
  handshake_transcript_hash p = compute_handshake_transcript_hash (hsp_server_cert_hash p)
    (hsp_tls_version p) (hsp_server_name p) (hsp_established_at p) /\
  hsp_commitment p = HSPProof_compute_commitment (hsp_session_id p) (hsp_rand_value p)
    (hsp_dvrf_exporter p) (hsp_server_cert_hash p) (handshake_transcript_hash p).

Lemma verify_hsp_proof_Ok now p rand cert :
  verify_hsp_proof now p rand cert = Ok tt <-> hsp_valid now p rand cert.
Proof.
  unfold verify_hsp_proof, hsp_valid.
  case_bool_decide as H1; cbn [negb]; [|by split; [|intros (?&?)]].
  case_bool_decide as H2; cbn [negb]; [|by split; [|intros (?&?&?)]].
  case_bool_decide as H3; cbn [negb]; [|by split; [|intros (?&?&?&?)]].
  case_bool_decide as H4; cbn [negb];
    [split; [done|]; intros (?&?&?&Hn&_); rewrite Hn in H4; by destruct H4|].
  apply eq_None_not_Some in H4.
  destruct (((0 <? uval (hsp_established_at p)) && (uval (hsp_established_at p) <? uval now))
    && (HSP_PROOF_MAX_AGE_SECS <? uval now - uval (hsp_established_at p))) eqn:Hage.
  { unfold HSP_PROOF_MAX_AGE_SECS in *. split; [done|]. intros (_&_&_&_&?&_). lia. }
  case_bool_decide as H5; cbn [negb]; [|by split; [|intros (?&?&?&?&?&?&?)]].
  case_bool_decide as H6; cbn [negb]; [|by split; [|intros (?&?&?&?&?&?&?)]].
  split; [|done]. intros _. split_and!; try done.
  pose proof (uval_range (hsp_established_at p)). unfold HSP_PROOF_MAX_AGE_SECS in *. lia.
Qed.

Lemma verify_query_record_Ok r q a :
  verify_query_record r q a = Ok tt <->
  query_commitment r = finalize (query_hasher (qr_session_id r) (qr_rand_value r) q) /\
  response_commitment r = finalize (response_hasher (qr_session_id r) (qr_rand_value r) a) /\
  transcript_commitment r = finalize (qp_transcript_hasher (query_commitment r) (response_commitment r)).
Proof. unfold verify_query_record. repeat case_bool_decide; cbn [negb]; naive_solver. Qed.

Lemma verify_pgp_proof_Ok p rand hsp :
  verify_pgp_proof p rand hsp = Ok tt <->
  pgp_commitment p = PGPProof_compute_commitment (pgp_session_id p) rand (qp_transcript_commitment p)
    (st_statement_digest (pgp_statement p)) (hsp_commitment hsp) /\
  hsp_proof_digest p = proof_digest hsp /\
  st_statement_digest (pgp_statement p) = finalize (pgp_statement_hasher
    (st_derivation_tag (pgp_statement p)) (qp_transcript_commitment p) (st_content (pgp_statement p))).
Proof. unfold verify_pgp_proof. repeat case_bool_decide; cbn [negb]; naive_solver. Qed.

Lemma verify_transcript_consistency_Ok hsp qr pgp b :
  verify_transcript_consistency hsp qr pgp = Ok b <->
  b = TranscriptBinding_build hsp qr pgp /\
  hsp_session_id hsp = qr_session_id qr /\ hsp_session_id hsp = pgp_session_id pgp /\
  hsp_rand_value hsp = qr_rand_value qr /\
  qp_transcript_commitment pgp = transcript_commitment qr /\ hsp_proof_digest pgp = proof_digest hsp.
Proof. unfold verify_transcript_consistency. repeat case_bool_decide; cbn [negb]; naive_solver. Qed.

Lemma verify_all_Ok now ev rand cert q a b :
  verify_all now ev rand cert q a = Ok b <->
  verify_hsp_proof now (hsp_proof ev) rand cert = Ok tt /\
  verify_query_record (query_record ev) q a = Ok tt /\
  verify_pgp_proof (pgp_proof ev) rand (hsp_proof ev) = Ok tt /\
  verify_transcript_consistency (hsp_proof ev) (query_record ev) (pgp_proof ev) = Ok b.
Proof.
  unfold verify_all. do 3 setoid_rewrite bind_Ok. split.
  - by intros ([] & H1 & [] & H2 & [] & H3 & H4).
  - intros (-> & -> & -> & ->). eauto 10.
Qed.

(** Freshness and completeness of the handshake check: a proof is accepted
    exactly when it carries the engine tag, the expected randomness and
    certificate, no ZK proof, the right transcript hash and commitment, and was
    established at most 24 hours ago; a proof established in the future, or
    without a time ([established_at = 0]), never expires. *)
Theorem verify_hsp_proof_spec now p rand cert :
  verify_hsp_proof now p rand cert = Ok tt <->
  hsp_engine_tag p = DCTLS_ENGINE_TAG /\ hsp_rand_value p = rand /\ hsp_server_cert_hash p = cert /\
  zk_proof p = None /\
  (uval (hsp_established_at p) = 0 \/
   uval now <= uval (hsp_established_at p) + HSP_PROOF_MAX_AGE_SECS) /\
  handshake_transcript_hash p = compute_handshake_transcript_hash (hsp_server_cert_hash p)
    (hsp_tls_version p) (hsp_server_name p) (hsp_established_at p) /\
  hsp_commitment p = HSPProof_compute_commitment (hsp_session_id p) (hsp_rand_value p)
    (hsp_dvrf_exporter p) (hsp_server_cert_hash p) (handshake_transcript_hash p).
Proof. apply verify_hsp_proof_Ok. Qed.

(** Completeness: the evidence produced by [execute_dctls] passes
    [verify_all] for the same randomness, certificate, query and response, at
    every time up to 24 hours after the session was created, and the binding
    returned is the one of its three proofs. *)
Theorem execute_dctls_verifies to_vec session rand query response cert now :
  uval now <= uval (UnixTimestamp_0 (created_at session)) + HSP_PROOF_MAX_AGE_SECS ->
  exists tc ev dev,
    execute_dctls to_vec session rand query response cert = Ok (tc, ev, dev) /\
    tc = TranscriptCommitments_build (session_id session) rand query response /\
    verify_all now dev rand cert query response
      = Ok (TranscriptBinding_build (hsp_proof dev) (query_record dev) (pgp_proof dev)).
Proof.
  intros Hage. eexists _, _, _. split; [reflexivity|]. split; [done|].
  apply verify_all_Ok. split_and!.
  - apply verify_hsp_proof_Ok. unfold hsp_valid. cbn [hsp_proof]. split_and!; try done. by right.
  - by apply verify_query_record_Ok.
  - by apply verify_pgp_proof_Ok.
  - by apply verify_transcript_consistency_Ok.
Qed.

(** Injectivity of the hash inputs. *)
Lemma hsp_ht_hasher_inj c1 c2 v1 v2 n1 n2 a1 a2 :
  vec_fits (string_bytes n1) -> vec_fits (string_bytes n2) ->
  inner (hsp_ht_hasher c1 v1 n1 a1) = inner (hsp_ht_hasher c2 v2 n2 a2) ->
  c1 = c2 /\ v1 = v2 /\ n1 = n2 /\ a1 = a2.
Proof.
  intros Hn1 Hn2 Heq. unfold hsp_ht_hasher in Heq. unfold_hasher Heq.
  apply (inj (domain_prefix _ ++.)) in Heq. split_enc Heq. simplify_enc.
  split_and!; try done. by apply u16_as_u64_inj.
Qed.

Lemma hsp_hasher_inj s1 s2 r1 r2 e1 e2 c1 c2 t1 t2 :
  inner (hsp_hasher s1 r1 e1 c1 t1) = inner (hsp_hasher s2 r2 e2 c2 t2) ->
  s1 = s2 /\ r1 = r2 /\ e1 = e2 /\ c1 = c2 /\ t1 = t2.
Proof.
  intros Heq. unfold hsp_hasher in Heq. unfold_hasher Heq.
  apply (inj (domain_prefix _ ++.)) in Heq. split_app Heq. by simplify_enc.
Qed.

Lemma qp_hasher_inj d s1 s2 r1 r2 q1 q2 :
  vec_fits q1 -> vec_fits q2 ->
  inner (qp_hasher d s1 r1 q1) = inner (qp_hasher d s2 r2 q2) -> s1 = s2 /\ r1 = r2 /\ q1 = q2.
Proof.
  intros Hq1 Hq2 Heq. unfold qp_hasher in Heq. unfold_hasher Heq.
  apply (inj (domain_prefix _ ++.)) in Heq. split_enc Heq. by simplify_enc.
Qed.

Lemma qp_transcript_hasher_inj q1 q2 r1 r2 :
  inner (qp_transcript_hasher q1 r1) = inner (qp_transcript_hasher q2 r2) -> q1 = q2 /\ r1 = r2.
Proof.
  intros Heq. unfold qp_transcript_hasher in Heq. unfold_hasher Heq.
  apply (inj (domain_prefix _ ++.)) in Heq. split_app Heq. by simplify_enc.
Qed.

Lemma pgp_statement_hasher_inj t1 t2 d1 d2 c1 c2 :
  vec_fits (string_bytes t1) -> vec_fits (string_bytes t2) -> vec_fits c1 -> vec_fits c2 ->
  inner (pgp_statement_hasher t1 d1 c1) = inner (pgp_statement_hasher t2 d2 c2) ->
  t1 = t2 /\ d1 = d2 /\ c1 = c2.
Proof.
  intros ???? Heq. unfold pgp_statement_hasher in Heq. unfold_hasher Heq.
  apply (inj (domain_prefix _ ++.)) in Heq. split_enc Heq. by simplify_enc.
Qed.

Lemma pgp_hasher_inj s1 s2 r1 r2 t1 t2 d1 d2 h1 h2 :
  inner (pgp_hasher s1 r1 t1 d1 h1) = inner (pgp_hasher s2 r2 t2 d2 h2) ->
  s1 = s2 /\ r1 = r2 /\ t1 = t2 /\ d1 = d2 /\ h1 = h2.
Proof.
  intros Heq. unfold pgp_hasher in Heq. unfold_hasher Heq.
  apply (inj (domain_prefix _ ++.)) in Heq. split_app Heq. by simplify_enc.
Qed.

Lemma binding_hasher_inj h1 h2 q1 q2 p1 p2 :
  inner (binding_hasher h1 q1 p1) = inner (binding_hasher h2 q2 p2) ->
  hsp_commitment h1 = hsp_commitment h2 /\
  transcript_commitment q1 = transcript_commitment q2 /\ pgp_commitment p1 = pgp_commitment p2.
Proof.
  intros Heq. unfold binding_hasher in Heq. unfold_hasher Heq.
  apply (inj (domain_prefix _ ++.)) in Heq. split_app Heq. by simplify_enc.
Qed.

(** Everything that is hashed on the way from the session data to the binding
    digest of evidence [ev] for [query] and [response]. *)
Definition evidence_preimages (ev : DctlsEvidence) (query response : bytes) : list bytes :=
  let hsp := hsp_proof ev in let qr := query_record ev in let pgp := pgp_proof ev in
  [inner (binding_hasher hsp qr pgp);
   inner (hsp_hasher (hsp_session_id hsp) (hsp_rand_value hsp) (hsp_dvrf_exporter hsp)
            (hsp_server_cert_hash hsp) (handshake_transcript_hash hsp));
   inner (hsp_ht_hasher (hsp_server_cert_hash hsp) (hsp_tls_version hsp) (hsp_server_name hsp)
            (hsp_established_at hsp));
   inner (qp_transcript_hasher (query_commitment qr) (response_commitment qr));
   inner (query_hasher (qr_session_id qr) (qr_rand_value qr) query);
   inner (response_hasher (qr_session_id qr) (qr_rand_value qr) response);
   inner (pgp_hasher (pgp_session_id pgp) (hsp_rand_value hsp) (qp_transcript_commitment pgp)
            (st_statement_digest (pgp_statement pgp)) (hsp_commitment hsp));
   inner (pgp_statement_hasher (st_derivation_tag (pgp_statement pgp)) (qp_transcript_commitment pgp)
            (st_content (pgp_statement pgp)))].

Definition evidence_fits (ev : DctlsEvidence) : Prop :=
  vec_fits (string_bytes (hsp_server_name (hsp_proof ev))) /\
  vec_fits (string_bytes (st_derivation_tag (pgp_statement (pgp_proof ev)))) /\
  vec_fits (st_content (pgp_statement (pgp_proof ev))).

(** The binding digest fixes the whole session: two pieces of evidence that
    verify and have the same binding digest agree on the session, the
    randomness, the TLS exporter, the certificate, the TLS version, server name
    and time of the handshake, the query, the response and the attested
    statement, or one of the eight hashes on the way collides. *)
Theorem transcript_binding_digest_binding now1 now2 ev1 ev2 rand1 rand2 cert1 cert2 q1 q2 a1 a2 b1 b2 :
  evidence_fits ev1 -> evidence_fits ev2 ->
  vec_fits q1 -> vec_fits q2 -> vec_fits a1 -> vec_fits a2 ->
  verify_all now1 ev1 rand1 cert1 q1 a1 = Ok b1 ->
  verify_all now2 ev2 rand2 cert2 q2 a2 = Ok b2 ->
  binding_digest b1 = binding_digest b2 ->
  (hsp_session_id (hsp_proof ev1) = hsp_session_id (hsp_proof ev2) /\ rand1 = rand2 /\ cert1 = cert2 /\
   hsp_dvrf_exporter (hsp_proof ev1) = hsp_dvrf_exporter (hsp_proof ev2) /\
   hsp_tls_version (hsp_proof ev1) = hsp_tls_version (hsp_proof ev2) /\
   hsp_server_name (hsp_proof ev1) = hsp_server_name (hsp_proof ev2) /\
   hsp_established_at (hsp_proof ev1) = hsp_established_at (hsp_proof ev2) /\
   q1 = q2 /\ a1 = a2 /\ pgp_statement (pgp_proof ev1) = pgp_statement (pgp_proof ev2)) \/
  collides (zip (evidence_preimages ev1 q1 a1) (evidence_preimages ev2 q2 a2)).
Proof.
  intros (Hn1 & Ht1 & Hc1) (Hn2 & Ht2 & Hc2) Hq1 Hq2 Ha1 Ha2
    (Hh1 & Hqr1 & Hp1 & Hb1)%verify_all_Ok (Hh2 & Hqr2 & Hp2 & Hb2)%verify_all_Ok Hd.
  apply verify_hsp_proof_Ok in Hh1 as (_ & Hr1 & Hcert1 & _ & _ & Hht1 & Hcom1).
  apply verify_hsp_proof_Ok in Hh2 as (_ & Hr2 & Hcert2 & _ & _ & Hht2 & Hcom2).
  apply verify_query_record_Ok in Hqr1 as (Hqc1 & Hrc1 & Htc1), Hqr2 as (Hqc2 & Hrc2 & Htc2).
  apply verify_pgp_proof_Ok in Hp1 as (Hpc1 & _ & Hst1), Hp2 as (Hpc2 & _ & Hst2).
  apply verify_transcript_consistency_Ok in Hb1 as (-> & _), Hb2 as (-> & _).
  rewrite <- Hr1 in Hpc1. rewrite <- Hr2 in Hpc2.
  cbn [TranscriptBinding_build binding_digest] in Hd. open_digest Hd 0%nat.
  apply binding_hasher_inj in Hd as (Hcom & Htc & Hpc).
  rewrite Hcom1, Hcom2 in Hcom. open_digest Hcom 1%nat.
  apply hsp_hasher_inj in Hcom as (Hsid & Hr & Hexp & Hcert & Hht).
  rewrite Hht1, Hht2 in Hht. open_digest Hht 2%nat.
  apply hsp_ht_hasher_inj in Hht as (_ & Hver & Hname & Hat); [|done..].
  rewrite Htc1, Htc2 in Htc. open_digest Htc 3%nat.
  apply qp_transcript_hasher_inj in Htc as (Hqc & Hrc).
  rewrite Hqc1, Hqc2 in Hqc. open_digest Hqc 4%nat.
  apply qp_hasher_inj in Hqc as (_ & _ & Hq); [|done..].
  rewrite Hrc1, Hrc2 in Hrc. open_digest Hrc 5%nat.
  apply qp_hasher_inj in Hrc as (_ & _ & Ha); [|done..].
  rewrite Hpc1, Hpc2 in Hpc. open_digest Hpc 6%nat.
  apply pgp_hasher_inj in Hpc as (_ & _ & _ & Hst & _).
  pose proof Hst as Hst'. rewrite Hst1, Hst2 in Hst. open_digest Hst 7%nat.
  apply pgp_statement_hasher_inj in Hst as (Htag & _ & Hcont); [|done..].
  left. split_and!; try congruence.
  destruct (pgp_statement (pgp_proof ev1)), (pgp_statement (pgp_proof ev2)). simpl in *. congruence.
Qed.
End DctlsProps.

(** ** Concrete instances *)

Definition example_dctls : DctlsEvidence :=
  match execute_dctls (Hs:=toy_sha256) (fun _ => None) example_context (digest 1)
          (string_bytes "GET /") (string_bytes "200") (digest 2) with
  | Ok (_, _, dev) => dev
  | Err _ => MkDctlsEvidence
      (HSPProof_generate (Hs:=toy_sha256) (sid 0) (digest 0) (MkSPS (digest 0) (digest 0))
         (MkSPP (digest 0) (u_of_Z 16 0) "" (n64 0)))
      (QueryRecord_build (Hs:=toy_sha256) (sid 0) (digest 0) [] [])
      (MkPGPProof (sid 0) (MkStatement [] "" (digest 0)) (digest 0) (digest 0) (digest 0))
  end.

Lemma execute_dctls_verifies_witness :
  exists tc ev dev,
    execute_dctls (Hs:=toy_sha256) (fun _ => None) example_context (digest 1)
      (string_bytes "GET /") (string_bytes "200") (digest 2) = Ok (tc, ev, dev) /\
    tc = TranscriptCommitments_build (Hs:=toy_sha256) (session_id example_context) (digest 1)
           (string_bytes "GET /") (string_bytes "200") /\
    verify_all (Hs:=toy_sha256) (n64 1500) dev (digest 1) (digest 2)
      (string_bytes "GET /") (string_bytes "200")
      = Ok (TranscriptBinding_build (Hs:=toy_sha256) (hsp_proof dev) (query_record dev) (pgp_proof dev)).
Proof.
  apply (execute_dctls_verifies (Hs:=toy_sha256)). vm_compute. discriminate.
Defined.

Lemma transcript_binding_digest_binding_witness :
  let b := TranscriptBinding_build (Hs:=toy_sha256) (hsp_proof example_dctls)
             (query_record example_dctls) (pgp_proof example_dctls) in
  verify_all (Hs:=toy_sha256) (n64 1500) example_dctls (digest 1) (digest 2)
    (string_bytes "GET /") (string_bytes "200") = Ok b /\
  (string_bytes "GET /" = string_bytes "GET /" \/
   collides (Hs:=toy_sha256) (zip (evidence_preimages example_dctls (string_bytes "GET /") (string_bytes "200"))
     (evidence_preimages example_dctls (string_bytes "GET /") (string_bytes "200")))).
Proof.
  intros b.
  assert (Hb : verify_all (Hs:=toy_sha256) (n64 1500) example_dctls (digest 1) (digest 2)
    (string_bytes "GET /") (string_bytes "200") = Ok b) by (vm_compute; reflexivity).
  split; [exact Hb|].
  assert (Hfits : evidence_fits example_dctls) by (split_and!; vm_compute; reflexivity).
  destruct (transcript_binding_digest_binding (Hs:=toy_sha256) (n64 1500) (n64 1500) example_dctls
    example_dctls (digest 1) (digest 1) (digest 2) (digest 2) (string_bytes "GET /") (string_bytes "GET /")
    (string_bytes "200") (string_bytes "200") b b Hfits Hfits) as [(_&_&_&_&_&_&_&Hq&_)|Hc];
    [by vm_compute | by vm_compute | by vm_compute | by vm_compute | exact Hb | exact Hb | reflexivity | |].
  - left. exact Hq.
  - right. exact Hc.
Defined.
