(* ===== verification/Network.v ===== *)
(** * Network layer

    Models the crate [tls-attestation-network]: length-prefixed frames
    ([codec.rs]), signed envelopes ([signed_envelope.rs]), the in-memory
    transport ([transport.rs]), the messages of the FROST and handshake-binding
    rounds ([messages.rs]) and the error type ([error.rs]).

    A [Write] sink is the sequence of bytes written so far and a [Read] source
    the bytes still to be read; both are reliable, so the only I/O error is the
    end of the input. The clock read by [seal] is an argument. *)

From S2P Require Import Prelude Core Session Attestation Threshold Registry.

Inductive NetworkError :=
  | RecipientNotFound (id : string)
  | ChannelClosed
  | NetSerialization (msg : string)
  | NetTimeout
  | AuthFailed (msg : string).

(** ** Messages (messages.rs) *)

Record FrostRound1Request := MkFrostRound1Request {
  f1_session_id : SessionId;
  f1_coordinator_id : VerifierId;
  f1_signed_digest : DigestBytes;
  f1_envelope_digest : DigestBytes;
  f1_signer_set : list VerifierId;
  f1_round_expires_at : UnixTimestamp;
  f1_registry_epoch : RegistryEpoch;
  f1_hsp_proof_bytes : bytes;
  f1_hsp_pvk_bytes : bytes;
  f1_dctls_evidence_bytes : bytes;
  f1_rand_value_bytes : bytes;
  f1_server_cert_hash_bytes : bytes
}.

Record FrostRound1Response := MkFrostRound1Response {
  f1r_session_id : SessionId; f1r_verifier_id : VerifierId; f1r_commitment_bytes : bytes }.

Record FrostRound2Request := MkFrostRound2Request {
  f2_session_id : SessionId;
  f2_coordinator_id : VerifierId;
  f2_signing_package_bytes : bytes;
  f2_signer_set : list VerifierId
}.

Record FrostRound2Response := MkFrostRound2Response {
  f2r_session_id : SessionId; f2r_verifier_id : VerifierId; f2r_signature_share_bytes : bytes }.

Record HandshakeBindingRound1Request := MkHandshakeBindingRound1Request {
  hb1_session_id : SessionId;
  hb1_coordinator_id : VerifierId;
  hb1_binding_input : DigestBytes;
  hb1_signer_set : list VerifierId;
  hb1_round_expires_at : UnixTimestamp;
  hb1_registry_epoch : RegistryEpoch
}.

Record HandshakeBindingRound1Response := MkHandshakeBindingRound1Response {
  hb1r_session_id : SessionId; hb1r_verifier_id : VerifierId; hb1r_commitment_bytes : bytes }.

Record HandshakeBindingRound2Request := MkHandshakeBindingRound2Request {
  hb2_session_id : SessionId;
  hb2_coordinator_id : VerifierId;
  hb2_signing_package_bytes : bytes;
  hb2_signer_set : list VerifierId
}.

Record HandshakeBindingRound2Response := MkHandshakeBindingRound2Response {
  hb2r_session_id : SessionId; hb2r_verifier_id : VerifierId; hb2r_signature_share_bytes : bytes }.

(** ** Frames (codec.rs) *)

Inductive NodeRequest :=
  | ReqFrostRound1 (m : FrostRound1Request)
  | ReqFrostRound2 (m : FrostRound2Request)
  | ReqHandshakeBindingRound1 (m : HandshakeBindingRound1Request)
  | ReqHandshakeBindingRound2 (m : HandshakeBindingRound2Request).

Inductive NodeResponse :=
  | RespFrostRound1 (m : FrostRound1Response)
  | RespFrostRound2 (m : FrostRound2Response)
  | RespHandshakeBindingRound1 (m : HandshakeBindingRound1Response)
  | RespHandshakeBindingRound2 (m : HandshakeBindingRound2Response)
  | RespError (reason : string).

Definition MAX_FRAME_BYTES : Z := 4 * 1024 * 1024.

(** [sink.write_all(data)] *)
Definition write_all (data : bytes) : stres bytes NetworkError unit := fun sink => (sink ++ data, Ok tt).

(** [source.read_exact(n)]: the bytes read and the rest. *)
Definition read_exact (n : nat) (source : bytes) : option (bytes * bytes) :=
  if (n <=? length source)%nat then Some (take n source, drop n source) else None.

Section Codec.
Context `{J : SerdeJson T}.
Local Open Scope stres_scope.

Definition write_frame (value : T) : stres bytes NetworkError unit :=
  json <-- slift (map_err NetSerialization (json_to_vec value)) ;;
  let len := u_of_Z 32 (Z.of_nat (length json)) in
  if MAX_FRAME_BYTES <? uval len then
    serr (NetSerialization ("frame too large: " +:+ pretty (uval len) +:+ " bytes (max " +:+
            pretty MAX_FRAME_BYTES +:+ ")"))
  else
    write_all (u32_be len) ;;;
    write_all json.

(** On success the rest of the source is returned with the value; after an
    error the position of the source is left open. *)
Definition read_frame (source : bytes) : result NetworkError (T * bytes) :=
  match read_exact 4 source with
  | None => Err ChannelClosed
  | Some (len_buf, rest) =>
      let len := be_val len_buf in
      if MAX_FRAME_BYTES <? len then
        Err (NetSerialization ("incoming frame too large: " +:+ pretty len +:+ " bytes (max " +:+
               pretty MAX_FRAME_BYTES +:+ ")"))
      else
        match read_exact (Z.to_nat len) rest with
        | None => Err (NetSerialization "failed to fill whole buffer")
        | Some (body, rest') =>
            v ← map_err (fun e => NetSerialization ("JSON decode: " +:+ e)) (json_from_slice body);
            Ok (v, rest')
        end
  end.

(** Reading [n] frames one after the other. *)
Fixpoint read_frames (n : nat) (source : bytes) : result NetworkError (list T * bytes) :=
  match n with
  | O => Ok ([], source)
  | S m => r ← read_frame source; r' ← read_frames m r.2; Ok (r.1 :: r'.1, r'.2)
  end.
End Codec.

(** ** Signed envelopes (signed_envelope.rs) *)

Definition TIMESTAMP_TOLERANCE_SECS : Z := 30.
Definition DOMAIN : bytes := string_bytes "tls-attestation/signed-envelope/v1" ++ [byte 0].

Record SignedEnvelope := MkSignedEnvelope {
  sender_id : VerifierId;
  timestamp : u64;
  payload : bytes;
  signature : array 64
}.

Definition signing_bytes (sender_id : VerifierId) (timestamp : u64) (payload : bytes) : bytes :=
  DOMAIN ++ arr (as_bytes sender_id) ++ u64_be timestamp ++ payload.

Section SignedEnvelope.
Context {Ed : Ed25519} `{J : SerdeJson T}.

Definition seal (current_unix_secs : u64) (sender_id : VerifierId) (signing_key : SigningKey) (message : T)
    : result NetworkError SignedEnvelope :=
  payload ← map_err (fun e => NetSerialization ("seal: serialize payload: " +:+ e)) (json_to_vec message);
  let timestamp := current_unix_secs in
  let to_sign := signing_bytes sender_id timestamp payload in
  let sig := ed_sign signing_key to_sign in
  Ok {| sender_id := sender_id; timestamp := timestamp; payload := payload; signature := sig |}.

Record EnvelopeKeyRegistry := MkEnvelopeKeyRegistry { keys : gmap VerifierId VerifyingKey }.

(** [entries.into_iter().collect()]: a later entry replaces an earlier one. *)
Definition EnvelopeKeyRegistry_new (entries : list (VerifierId * VerifyingKey)) : EnvelopeKeyRegistry :=
  MkEnvelopeKeyRegistry (fold_left (fun m p => <[p.1 := p.2]> m) entries ∅).

Definition EnvelopeKeyRegistry_len (self : EnvelopeKeyRegistry) : nat := size (keys self).
Definition EnvelopeKeyRegistry_is_empty (self : EnvelopeKeyRegistry) : bool := (EnvelopeKeyRegistry_len self =? 0)%nat.
Definition lookup_key (self : EnvelopeKeyRegistry) (id : VerifierId) : option VerifyingKey := keys self !! id.

Definition open (self : SignedEnvelope) (registry : EnvelopeKeyRegistry) (now : u64) : result NetworkError T :=
  verifying_key ← ok_or (AuthFailed ("unknown sender: " +:+ VerifierId_to_string (sender_id self)))
                    (lookup_key registry (sender_id self));
  let age := u_saturating_sub now (timestamp self) in
  let skew := u_saturating_sub (timestamp self) now in
  if (TIMESTAMP_TOLERANCE_SECS <? uval age) || (TIMESTAMP_TOLERANCE_SECS <? uval skew) then
    Err (AuthFailed ("timestamp out of range: envelope_ts=" +:+ pretty (uval (timestamp self)) +:+
           " now=" +:+ pretty (uval now) +:+ " (tolerance=" +:+ pretty TIMESTAMP_TOLERANCE_SECS +:+ "s)"))
  else
    let to_sign := signing_bytes (sender_id self) (timestamp self) (payload self) in
    if negb (ed_verify verifying_key to_sign (signature self)) then
      Err (AuthFailed "signature verification failed")
    else
      map_err (fun e => NetSerialization ("open: deserialize payload: " +:+ e))
        (json_from_slice (payload self)).
End SignedEnvelope.

(** ** In-memory transport (transport.rs) *)

Record InMemoryTransport := MkInMemoryTransport { queues : gmap VerifierId (list bytes) }.

(** The trait [Transport]. *)
Class Transport (St : Type) := {
  send : VerifierId -> bytes -> stres St NetworkError unit;
  receive : VerifierId -> stres St NetworkError (list bytes)
}.

Definition register (id : VerifierId) (self : InMemoryTransport) : InMemoryTransport :=
  match queues self !! id with
  | Some _ => self
  | None => MkInMemoryTransport (<[id := []]> (queues self))
  end.

Definition mem_send (to : VerifierId) (payload : bytes) : stres InMemoryTransport NetworkError unit :=
  fun self => match queues self !! to with
  | None => (self, Err (RecipientNotFound (VerifierId_to_string to)))
  | Some queue => (MkInMemoryTransport (<[to := queue ++ [payload]]> (queues self)), Ok tt)
  end.

Definition mem_receive (id : VerifierId) : stres InMemoryTransport NetworkError (list bytes) :=
  fun self => match queues self !! id with
  | None => (self, Err (RecipientNotFound (VerifierId_to_string id)))
  | Some msgs => (MkInMemoryTransport (<[id := []]> (queues self)), Ok msgs)
  end.

#[export] Instance InMemory_Transport : Transport InMemoryTransport :=
  {| send := mem_send; receive := mem_receive |}.

(** ** Properties of frames *)

Section CodecProps.
Context `{J : SerdeJson T}.

Lemma read_exact_app l rest n : n = length l -> read_exact n (l ++ rest) = Some (l, rest).
Proof.
  intros ->. unfold read_exact. rewrite length_app, (proj2 (Nat.leb_le _ _)) by lia.
  by rewrite take_app_length, drop_app_length.
Qed.

Lemma be_val_u32_be (v : u32) : be_val (u32_be v) = uval v.
Proof.
  unfold u32_be. rewrite be_val_be_bytes, Z.mod_small; [done|]. apply (uval_range v).
Qed.

(** The bytes a successful [write_frame] appends. *)
Lemma write_frame_Ok v sink sink' :
  write_frame v sink = (sink', Ok tt) <->
  exists json, json_to_vec v = Ok json /\
    Z.of_nat (length json) mod 2 ^ 32 <= MAX_FRAME_BYTES /\
    sink' = sink ++ u32_be (u_of_Z 32 (Z.of_nat (length json))) ++ json.
Proof.
  unfold write_frame, sbind, slift, serr, write_all. destruct (json_to_vec v) as [json|e]; cbn [map_err].
  - rewrite uval_of_Z.
    destruct (Z.ltb_spec MAX_FRAME_BYTES (Z.of_nat (length json) mod 2 ^ Z.pos 32)) as [Hlt|Hle].
    + split; [done|]. intros (? & [= <-] & ? & _). lia.
    + rewrite <- (assoc_L (++)). split; [intros [= <-]; eauto | by intros (? & [= <-] & _ & ->)].
  - split; [done|]. by intros (? & ? & _).
Qed.

Lemma read_write_frame json rest v :
  Z.of_nat (length json) <= MAX_FRAME_BYTES -> json_to_vec v = Ok json ->
  read_frame (u32_be (u_of_Z 32 (Z.of_nat (length json))) ++ json ++ rest) = Ok (v, rest).
Proof.
  intros Hlen Hjson. unfold read_frame. rewrite read_exact_app by (by rewrite length_u32_be).
  rewrite be_val_u32_be. unfold MAX_FRAME_BYTES in *. rewrite uval_of_Z_small by lia.
  rewrite (proj2 (Z.ltb_ge _ _)) by lia. rewrite read_exact_app by lia.
  by rewrite (json_roundtrip _ _ Hjson).
Qed.

(** Frames are self-delimiting: after writing any sequence of messages, whose
    encodings are shorter than 4 GiB, reading as many frames returns exactly
    these messages in order and leaves the bytes that follow untouched, for
    every continuation of the stream. *)
Theorem frames_roundtrip vs sink sink' :
  Forall (fun v => forall json, json_to_vec v = Ok json -> Z.of_nat (length json) < 2 ^ 32) vs ->
  sfor vs write_frame sink = (sink', Ok tt) ->
  exists wire, sink' = sink ++ wire /\
    forall rest, read_frames (length vs) (wire ++ rest) = Ok (vs, rest).
Proof.
  intros Hall. revert sink. induction Hall as [|v vs Hv _ IH]; intros sink; cbn [sfor].
  - intros [= <-]. exists []. by rewrite app_nil_r.
  - intros (s1 & [] & (json & Hjson & Hlen & ->)%write_frame_Ok & Hrest)%sbind_Ok.
    rewrite Z.mod_small in Hlen by (specialize (Hv _ Hjson); lia).
    apply IH in Hrest as (wire & -> & Hread).
    eexists. split; [by rewrite <- (assoc_L (++))|]. intros rest. cbn [length read_frames].
    rewrite <- !(assoc_L (++)), (read_write_frame json _ v) by done. cbn [mbind result_bind snd fst].
    by rewrite Hread.
Qed.

(** The size limit of [write_frame] is checked after the length is cut to 32
    bits: a message whose encoding has [2^32 + k] bytes, with [k] within the
    limit, is written with the length [k], and a reader takes the first [k]
    bytes of it for the frame and the rest for further frames. *)
Theorem write_frame_truncates_length v json sink :
  json_to_vec v = Ok json ->
  2 ^ 32 <= Z.of_nat (length json) -> Z.of_nat (length json) mod 2 ^ 32 <= MAX_FRAME_BYTES ->
  let k := Z.to_nat (Z.of_nat (length json) mod 2 ^ 32) in
  exists wire, write_frame v sink = (sink ++ wire, Ok tt) /\ (k < length json)%nat /\
    forall r, read_frame wire = Ok r <-> json_from_slice (take k json) = Ok r.1 /\ r.2 = drop k json.
Proof.
  intros Hjson Hbig Hlen k. eexists. split; [apply write_frame_Ok; by eauto|].
  assert (Hk : (k < length json)%nat) by (unfold k; pose proof (Z.mod_pos_bound (Z.of_nat (length json)) (2 ^ 32)); lia).
  split; [done|]. intros [v' rest]. unfold read_frame.
  rewrite read_exact_app by (by rewrite length_u32_be). rewrite be_val_u32_be, uval_of_Z.
  change (2 ^ Z.pos 32) with (2 ^ 32). rewrite (proj2 (Z.ltb_ge _ _)) by lia. fold k.
  unfold read_exact. rewrite (proj2 (Nat.leb_le _ _)) by lia. cbn [fst snd].
  destruct (json_from_slice (take k json)); cbn; naive_solver.
Qed.
End CodecProps.

(** ** Properties of signed envelopes *)

Section EnvelopeProps.
Context {Ed : Ed25519} `{J : SerdeJson T}.

Lemma signing_bytes_inj s1 s2 t1 t2 p1 p2 :
  signing_bytes s1 t1 p1 = signing_bytes s2 t2 p2 -> s1 = s2 /\ t1 = t2 /\ p1 = p2.
Proof.
  unfold signing_bytes. intros Heq%(inj (DOMAIN ++.)). split_app Heq. by simplify_enc.
Qed.

(** The timestamp is within the tolerance of the clock. *)
Definition timely (now : u64) (env : SignedEnvelope) : Prop :=
  Z.abs (uval now - uval (timestamp env)) <= TIMESTAMP_TOLERANCE_SECS.

Lemma open_Ok (env : SignedEnvelope) reg now (m : T) :
  open env reg now = Ok m <->
  timely now env /\
  exists vk, keys reg !! sender_id env = Some vk /\
    ed_verify vk (signing_bytes (sender_id env) (timestamp env) (payload env)) (signature env) = true /\
    json_from_slice (payload env) = Ok m.
Proof.
  unfold open, lookup_key, timely. destruct (keys reg !! sender_id env) as [vk|]; cbn [ok_or mbind result_bind];
    [|by split; [|intros (_ & ? & ? & _)]].
  rewrite !uval_saturating_sub. unfold TIMESTAMP_TOLERANCE_SECS.
  destruct (_ || _) eqn:Ht; [split; [done|]; intros [? _]; lia|].
  destruct (ed_verify vk _ _) eqn:Hver; cbn [negb].
  - rewrite map_err_Ok. split; [|by intros (_ & ? & [= <-] & _ & ?)].
    intros Hm. split; [lia|]. eauto.
  - split; [done|]. intros (_ & ? & [= <-] & ? & _). congruence.
Qed.

(** Authenticity of envelopes: an opened envelope has a registered sender,
    whose key verifies a signature over bytes that determine sender, timestamp
    and payload, and a timestamp within 30 seconds of the clock. *)
Theorem open_authentic (env : SignedEnvelope) reg now (m : T) :
  open env reg now = Ok m ->
  Z.abs (uval now - uval (timestamp env)) <= TIMESTAMP_TOLERANCE_SECS /\
  json_from_slice (payload env) = Ok m /\
  exists vk signed, lookup_key reg (sender_id env) = Some vk /\ ed_verify vk signed (signature env) = true /\
    forall s t p, signed = signing_bytes s t p -> s = sender_id env /\ t = timestamp env /\ p = payload env.
Proof.
  intros [Ht (vk & Hvk & Hver & Hm)]%open_Ok. split_and!; [done..|].
  eexists vk, _. split_and!; [done..|]. intros s t p Heq%signing_bytes_inj. naive_solver.
Qed.

Lemma sealed_open_iff ts sender sk (m : T) env reg now :
  seal ts sender sk m = Ok env -> lookup_key reg sender = Some (ed_verifying_key sk) ->
  Z.abs (uval now - uval ts) <= TIMESTAMP_TOLERANCE_SECS <-> open env reg now = Ok m.
Proof.
  unfold seal. intros (p & Hp%map_err_Ok & [= <-])%bind_Ok Hkey.
  rewrite open_Ok. cbn [sender_id timestamp payload signature]. unfold timely. cbn [timestamp].
  split; [|by intros []]. intros Ht. split; [done|].
  exists (ed_verifying_key sk). split_and!; [done | apply ed_sign_verify | by apply json_roundtrip].
Qed.

Lemma sealed_opens ts sender sk (m : T) env reg :
  seal ts sender sk m = Ok env -> lookup_key reg sender = Some (ed_verifying_key sk) ->
  forall now, Z.abs (uval now - uval ts) <= TIMESTAMP_TOLERANCE_SECS -> open env reg now = Ok m.
Proof. intros Hseal Hkey now. by apply (sealed_open_iff ts sender sk m env reg now). Qed.

(** A sealed message opens to itself at every time within the tolerance of
    its timestamp, however often: nothing is recorded, so the same envelope is
    accepted again as long as the window lasts. *)
Theorem seal_open_roundtrip ts sender sk (m : T) env reg :
  seal ts sender sk m = Ok env ->
  lookup_key reg sender = Some (ed_verifying_key sk) ->
  sender_id env = sender /\ timestamp env = ts /\
  forall now, Z.abs (uval now - uval ts) <= TIMESTAMP_TOLERANCE_SECS <-> open env reg now = Ok m.
Proof.
  intros Hseal Hkey. split_and!; [..|intros now; by apply (sealed_open_iff ts sender sk m env reg now)];
    unfold seal in Hseal; by apply bind_Ok in Hseal as (p & _ & [= <-]).
Qed.
End EnvelopeProps.

(** ** Properties of the transport *)

Section TransportProps.

Inductive transport_op := OpRegister (id : VerifierId) | OpSend (to : VerifierId) (msg : bytes) | OpReceive (id : VerifierId).

(** One call: the new state and the messages it delivered. *)
Definition transport_step (t : InMemoryTransport) (o : transport_op) : InMemoryTransport * list bytes :=
  match o with
  | OpRegister id => (register id t, [])
  | OpSend to msg => ((mem_send to msg t).1, [])
  | OpReceive id => let '(t', r) := mem_receive id t in (t', match r with Ok ms => ms | Err _ => [] end)
  end.

(** Messages delivered to [id], and messages successfully sent to [id], in order. *)
Fixpoint delivered (id : VerifierId) (t : InMemoryTransport) (ops : list transport_op) : list bytes :=
  match ops with
  | [] => []
  | o :: ops' => let '(t', ms) := transport_step t o in
                 (match o with OpReceive i => if bool_decide (i = id) then ms else [] | _ => [] end)
                 ++ delivered id t' ops'
  end.
Fixpoint accepted (id : VerifierId) (t : InMemoryTransport) (ops : list transport_op) : list bytes :=
  match ops with
  | [] => []
  | o :: ops' => (match o with
                  | OpSend to msg => if bool_decide (to = id) && is_ok (mem_send to msg t).2 then [msg] else []
                  | _ => [] end)
                 ++ accepted id (transport_step t o).1 ops'
  end.
Definition run_ops (t : InMemoryTransport) (ops : list transport_op) : InMemoryTransport :=
  fold_left (fun t o => (transport_step t o).1) ops t.

Definition queue_of (t : InMemoryTransport) (id : VerifierId) : list bytes := default [] (queues t !! id).

(** The transport is a reliable ordered queue per recipient: for every
    sequence of calls, the messages delivered to a recipient followed by those
    still queued are the messages queued at the start followed by those whose
    sending succeeded, in order, none lost, repeated or delivered elsewhere. *)
Theorem transport_fifo id ops t :
  delivered id t ops ++ queue_of (run_ops t ops) id = queue_of t id ++ accepted id t ops.
Proof.
  revert t. induction ops as [|o ops IH]; intros t; cbn [delivered accepted run_ops fold_left].
  - by rewrite app_nil_r.
  - destruct (transport_step t o) as [t' ms] eqn:Hstep. cbn [fst]. fold (run_ops t' ops).
    rewrite <- (assoc_L (++)), IH, !(assoc_L (++)). f_equal.
    destruct o as [i|to msg|i]; cbn in Hstep.
    + injection Hstep as <- <-. rewrite app_nil_r. cbn. unfold queue_of, register.
      destruct (queues t !! i) eqn:Hi; [done|]. cbn. rewrite lookup_insert. case_decide; [|done].
      subst. by rewrite Hi.
    + unfold mem_send in *. destruct (queues t !! to) as [q|] eqn:Hto; cbn in *; injection Hstep as <- <-;
        unfold queue_of; cbn; [|by rewrite andb_false_r, app_nil_r].
      rewrite andb_true_r, lookup_insert. case_bool_decide; [subst; rewrite decide_True by done; by rewrite Hto|].
      rewrite decide_False by done. by rewrite app_nil_r.
    + unfold mem_receive in Hstep. destruct (queues t !! i) as [q|] eqn:Hi; injection Hstep as <- <-;
        rewrite app_nil_r; unfold queue_of; cbn; [|by case_bool_decide].
      rewrite lookup_insert. case_bool_decide; [subst; rewrite decide_True by done; by rewrite Hi, app_nil_r|].
      by rewrite decide_False.
Qed.
End TransportProps.

(** ** Concrete instances *)

Definition toy_json : SerdeJson bytes.
Proof. refine {| json_to_vec := Ok; json_from_slice := Ok |}. by intros v b [= ->]. Defined.

Lemma frames_roundtrip_witness :
  exists wire, [byte 9; byte 0; byte 0; byte 0; byte 2; byte 65; byte 66; byte 0; byte 0; byte 0; byte 0]
    = [byte 9] ++ wire /\
  forall rest, read_frames (J:=toy_json) 2 (wire ++ rest) = Ok ([string_bytes "AB"; []], rest).
Proof.
  apply (frames_roundtrip (J:=toy_json) [string_bytes "AB"; []] [byte 9]).
  - repeat constructor; intros json [= <-]; vm_compute; reflexivity.
  - vm_compute. reflexivity.
Defined.

(** A message type with one value, whose encoding has [2^32 + 2] bytes. *)
Definition huge_json : SerdeJson unit.
Proof.
  refine {| json_to_vec _ := Ok (replicate (Z.to_nat (2 ^ 32 + 2)) (byte 48)); json_from_slice _ := Ok tt |}.
  by intros [] b _.
Defined.

Lemma write_frame_truncates_length_witness :
  exists wire, write_frame (J:=huge_json) tt [] = ([] ++ wire, Ok tt).
Proof.
  destruct (write_frame_truncates_length (J:=huge_json) tt _ [] eq_refl) as (wire & Hw & _).
  - rewrite length_replicate, Z2Nat.id by lia. lia.
  - rewrite length_replicate, Z2Nat.id by lia. unfold MAX_FRAME_BYTES. vm_compute. discriminate.
  - exists wire. exact Hw.
Defined.

Definition toy_envelope : SignedEnvelope :=
  unwrap_or (MkSignedEnvelope (vid 0) (n64 0) [] (array_repeat 64 (byte 0)))
    (seal (Ed:=toy_ed25519) (J:=toy_json) (n64 1000) (vid 1) (array_repeat 32 (byte 1)) (string_bytes "hi")).
Definition toy_key_registry : EnvelopeKeyRegistry (Ed:=toy_ed25519) :=
  EnvelopeKeyRegistry_new (Ed:=toy_ed25519) [(vid 1, array_repeat 32 (byte 1))].

Lemma open_authentic_witness :
  Z.abs (uval (n64 1020) - uval (timestamp toy_envelope)) <= TIMESTAMP_TOLERANCE_SECS.
Proof.
  apply (open_authentic (Ed:=toy_ed25519) (J:=toy_json) toy_envelope toy_key_registry (n64 1020) (string_bytes "hi")).
  vm_compute. reflexivity.
Defined.

Lemma seal_open_roundtrip_witness :
  Z.abs (uval (n64 990) - uval (n64 1000)) <= TIMESTAMP_TOLERANCE_SECS <->
  open (Ed:=toy_ed25519) (J:=toy_json) toy_envelope toy_key_registry (n64 990) = Ok (string_bytes "hi").
Proof.
  apply (seal_open_roundtrip (Ed:=toy_ed25519) (J:=toy_json) (n64 1000) (vid 1) (array_repeat 32 (byte 1))).
  - vm_compute. reflexivity.
  - vm_compute. reflexivity.
Defined.
