(* ===== verification/Mtls.v ===== *)
(** * Mutual TLS of a cluster

    Models [network/src/mtls.rs]: the certificate authority of a cluster, the
    certificates it issues to the nodes, and the configurations of rustls built
    from them.

    rcgen and rustls are the classes [Rcgen] and [Rustls]; keys and signatures
    are random, so a generated key and the randomness of a signature are
    arguments. [X509] names what a DER certificate says and [X509Laws] what the
    documentation of the two crates promises: a signed certificate carries the
    parameters it was made from and verifies under the key of its issuer, and a
    chain is accepted when it leads to a trust anchor. A configuration is the
    trust anchors, the chain and the key it was built with. *)

From S2P Require Import Prelude Core Network.

(** ** rcgen *)

Inductive IsCa := NoCa | Ca.
Inductive KeyUsagePurpose := KeyCertSign | CrlSign.
Inductive ExtendedKeyUsagePurpose := ServerAuth | ClientAuth.
Inductive SanType := DnsName (name : string).
Inductive DnType := CommonName.
Definition DistinguishedName : Type := list (DnType * string).

(** Times are Unix seconds. *)
Record CertificateParams := MkCertificateParams {
  cp_not_before : Z;
  cp_not_after : Z;
  cp_is_ca : IsCa;
  cp_key_usages : list KeyUsagePurpose;
  cp_extended_key_usages : list ExtendedKeyUsagePurpose;
  cp_subject_alt_names : list SanType;
  cp_distinguished_name : DistinguishedName
}.

#[export] Instance IsCa_eq_dec : EqDecision IsCa.
Proof. solve_decision. Defined.
#[export] Instance KeyUsagePurpose_eq_dec : EqDecision KeyUsagePurpose.
Proof. solve_decision. Defined.
#[export] Instance ExtendedKeyUsagePurpose_eq_dec : EqDecision ExtendedKeyUsagePurpose.
Proof. solve_decision. Defined.
#[export] Instance SanType_eq_dec : EqDecision SanType.
Proof. solve_decision. Defined.
#[export] Instance DnType_eq_dec : EqDecision DnType.
Proof. solve_decision. Defined.
#[export] Instance CertificateParams_eq_dec : EqDecision CertificateParams.
Proof. solve_decision. Defined.

Class Rcgen := {
  KeyPair : Type;
  Issuer : Type;
  params_default : CertificateParams;
  serialize_pem : KeyPair -> string;
  from_pem : string -> result string KeyPair;
  dns_name : string -> result string string;
  self_signed : CertificateParams -> KeyPair -> bytes -> result string bytes;
  from_ca_cert_der : bytes -> KeyPair -> result string Issuer;
  signed_by : CertificateParams -> KeyPair -> Issuer -> bytes -> result string bytes
}.

(** ** rustls *)

Definition RootCertStore : Type := list bytes.
Definition PrivateKeyDer : Type := bytes.
Record ServerConfig := MkServerConfig {
  sc_client_roots : RootCertStore;
  sc_cert_chain : list bytes;
  sc_private_key : PrivateKeyDer
}.
Record ClientConfig := MkClientConfig {
  cc_roots : RootCertStore;
  cc_cert_chain : list bytes;
  cc_private_key : PrivateKeyDer
}.

Class Rustls := {
  (** [RootCertStore::add]: the check of the certificate *)
  trust_anchor : bytes -> result string unit;
  (** [WebPkiClientVerifier::builder(roots).build()] *)
  client_verifier : RootCertStore -> result string unit;
  (** [rustls_pemfile::private_key] *)
  pem_private_key : string -> result string (option PrivateKeyDer);
  (** the check of chain and key in [with_single_cert] and [with_client_auth_cert] *)
  certified_key : list bytes -> PrivateKeyDer -> result string unit;
  (** what the verifiers of a configuration check in a handshake *)
  verify_for_usage : RootCertStore -> list bytes -> ExtendedKeyUsagePurpose -> Z -> bool;
  verify_server_name : bytes -> string -> bool
}.

Definition store_add {Ru : Rustls} (der : bytes) (store : RootCertStore) : result string RootCertStore :=
  _ ← trust_anchor der; Ok (store ++ [der]).

(** ** The bundles *)

Record MtlsCaBundle := MkMtlsCaBundle { ca_cert : bytes; ca_key_pem : string }.
Record MtlsNodeBundle := MkMtlsNodeBundle { mn_cert_der : bytes; mn_key_pem : string; mn_ca_cert_der : bytes }.

Definition ser (what : string) (e : string) : NetworkError := NetSerialization (what +:+ e).

Section Bundles.
Context {Rc : Rcgen} {Ru : Rustls}.

Definition ca_params : CertificateParams := {|
  cp_not_before := cp_not_before params_default;
  cp_not_after := cp_not_after params_default;
  cp_is_ca := Ca;
  cp_key_usages := [KeyCertSign; CrlSign];
  cp_extended_key_usages := cp_extended_key_usages params_default;
  cp_subject_alt_names := cp_subject_alt_names params_default;
  cp_distinguished_name := [(CommonName, "tls-attestation cluster CA")]
|}.

Definition generate (generated : result string KeyPair) (rnd : bytes) : result NetworkError MtlsCaBundle :=
  key_pair ← map_err (ser "CA key gen: ") generated;
  cert ← map_err (ser "CA self-sign: ") (self_signed ca_params key_pair rnd);
  Ok {| ca_cert := cert; ca_key_pem := serialize_pem key_pair |}.

Definition node_params (name common_name : string) : CertificateParams := {|
  cp_not_before := cp_not_before params_default;
  cp_not_after := cp_not_after params_default;
  cp_is_ca := NoCa;
  cp_key_usages := cp_key_usages params_default;
  cp_extended_key_usages := [ServerAuth; ClientAuth];
  cp_subject_alt_names := [DnsName name];
  cp_distinguished_name := [(CommonName, common_name)]
|}.

Definition issue_node_bundle (self : MtlsCaBundle) (common_name : string) (generated : result string KeyPair) (rnd : bytes)
    : result NetworkError MtlsNodeBundle :=
  ca_key ← map_err (ser "CA key load: ") (from_pem (ca_key_pem self));
  issuer ← map_err (ser "CA issuer: ") (from_ca_cert_der (ca_cert self) ca_key);
  node_key ← map_err (ser "node key gen: ") generated;
  name ← map_err (ser "SAN: ") (dns_name "localhost");
  node_cert ← map_err (ser "node sign: ") (signed_by (node_params name common_name) node_key issuer rnd);
  Ok {| mn_cert_der := node_cert; mn_key_pem := serialize_pem node_key; mn_ca_cert_der := ca_cert self |}.

Definition root_store (self : MtlsCaBundle) : result NetworkError RootCertStore :=
  map_err (ser "root store: ") (store_add (ca_cert self) []).

Definition private_key (self : MtlsNodeBundle) : result NetworkError PrivateKeyDer :=
  key ← map_err (ser "parse key: ") (pem_private_key (mn_key_pem self));
  ok_or (NetSerialization "no private key in PEM") key.

Definition server_config (self : MtlsNodeBundle) : result NetworkError ServerConfig :=
  let cert_chain := [mn_cert_der self] in
  key ← private_key self;
  roots ← map_err (ser "server root store: ") (store_add (mn_ca_cert_der self) []);
  _ ← map_err (ser "client verifier: ") (client_verifier roots);
  _ ← map_err (ser "server TLS config: ") (certified_key cert_chain key);
  Ok {| sc_client_roots := roots; sc_cert_chain := cert_chain; sc_private_key := key |}.

Definition client_config (self : MtlsNodeBundle) : result NetworkError ClientConfig :=
  let cert_chain := [mn_cert_der self] in
  key ← private_key self;
  roots ← map_err (ser "client root store: ") (store_add (mn_ca_cert_der self) []);
  _ ← map_err (ser "client TLS config: ") (certified_key cert_chain key);
  Ok {| cc_roots := roots; cc_cert_chain := cert_chain; cc_private_key := key |}.

Definition server_name : string := "localhost".

(** What the two sides of a handshake check of the chain of the other. *)
Definition client_accepts (cc : ClientConfig) (name : string) (now : Z) (chain : list bytes) : bool :=
  match chain with
  | [] => false
  | cert :: _ => verify_for_usage (cc_roots cc) chain ServerAuth now && verify_server_name cert name
  end.
Definition server_accepts (sc : ServerConfig) (now : Z) (chain : list bytes) : bool :=
  match chain with
  | [] => false
  | _ :: _ => verify_for_usage (sc_client_roots sc) chain ClientAuth now
  end.
End Bundles.

(** ** Certificates *)

(** What a certificate says: its parameters, its key and the name of its issuer. *)
Record Certificate (K : Type) := MkCertificate {
  ce_params : CertificateParams;
  ce_key : K;
  ce_issuer : DistinguishedName
}.
Arguments MkCertificate {K}.
Arguments ce_params {K}.
Arguments ce_key {K}.
Arguments ce_issuer {K}.

Class X509 (Rc : Rcgen) := {
  PublicKey : Type;
  public_key : KeyPair -> PublicKey;
  key_der : KeyPair -> PrivateKeyDer;
  issuer_key : Issuer -> KeyPair;
  issuer_name : Issuer -> DistinguishedName;
  parse_cert : bytes -> option (Certificate PublicKey);
  signature_ok : bytes -> PublicKey -> bool
}.

Section Path.
Context {Rc : Rcgen} {X : X509 Rc}.

Definition issued_under (der : bytes) (c a : Certificate PublicKey) : Prop :=
  ce_issuer c = cp_distinguished_name (ce_params a) /\ signature_ok der (ce_key a) = true.

Definition usable (c : Certificate PublicKey) (usage : ExtendedKeyUsagePurpose) (now : Z) : Prop :=
  cp_is_ca (ce_params c) = NoCa /\
  cp_not_before (ce_params c) <= now <= cp_not_after (ce_params c) /\
  (cp_extended_key_usages (ce_params c) = [] \/ usage ∈ cp_extended_key_usages (ce_params c)).

(** A chain from a certificate to a trust anchor; its intermediate certificates
    are authorities. *)
Inductive path (roots inter : list bytes) : bytes -> Certificate PublicKey -> Prop :=
  | path_anchor der c root a : root ∈ roots -> parse_cert root = Some a ->
      parse_cert der = Some c -> issued_under der c a -> path roots inter der c
  | path_intermediate der c i a : i ∈ inter -> parse_cert i = Some a -> cp_is_ca (ce_params a) = Ca ->
      path roots inter i a -> parse_cert der = Some c -> issued_under der c a -> path roots inter der c.
End Path.

Class X509Laws {Rc : Rcgen} {Ru : Rustls} (X : X509 Rc) : Prop := {
  default_validity : cp_not_before params_default = 157766400 /\ cp_not_after params_default = 67090118400;
  pem_roundtrip k : from_pem (serialize_pem k) = Ok k;
  pem_key k : pem_private_key (serialize_pem k) = Ok (Some (key_der k));
  dns_name_spec s name : dns_name s = Ok name -> name = s;
  self_signed_spec p k rnd der : self_signed p k rnd = Ok der ->
    parse_cert der = Some (MkCertificate p (public_key k) (cp_distinguished_name p)) /\
    signature_ok der (public_key k) = true;
  issuer_spec der k i c : from_ca_cert_der der k = Ok i -> parse_cert der = Some c ->
    issuer_key i = k /\ issuer_name i = cp_distinguished_name (ce_params c);
  signed_by_spec p k i rnd der : signed_by p k i rnd = Ok der ->
    parse_cert der = Some (MkCertificate p (public_key k) (issuer_name i)) /\
    signature_ok der (public_key (issuer_key i)) = true;
  trust_anchor_spec der c : parse_cert der = Some c -> trust_anchor der = Ok tt;
  client_verifier_spec roots : roots <> [] -> client_verifier roots = Ok tt;
  certified_key_spec der c k : parse_cert der = Some c -> ce_key c = public_key k ->
    certified_key [der] (key_der k) = Ok tt;
  verify_complete roots root a der c usage now :
    root ∈ roots -> parse_cert root = Some a -> parse_cert der = Some c -> issued_under der c a ->
    usable c usage now -> verify_for_usage roots [der] usage now = true;
  verify_sound roots der inter usage now : verify_for_usage roots (der :: inter) usage now = true ->
    exists c, path roots inter der c /\ usable c usage now;
  verify_name_spec der c name : parse_cert der = Some c ->
    (verify_server_name der name = true <-> DnsName name ∈ cp_subject_alt_names (ce_params c))
}.

(** ** Properties *)

Section Cluster.
Context {Rc : Rcgen} {Ru : Rustls} {X : X509 Rc} {XL : X509Laws X}.

(** The certificates an authority has given to nodes. *)
Definition member (ca : MtlsCaBundle) (der : bytes) : Prop :=
  exists common_name generated rnd b, issue_node_bundle ca common_name generated rnd = Ok b /\ mn_cert_der b = der.

(** The key of an authority has signed its own certificate and those of its
    nodes, and nothing else verifies under it. *)
Definition signs_members_only (ca : MtlsCaBundle) (k : KeyPair) : Prop :=
  forall der, signature_ok der (public_key k) = true -> der = ca_cert ca \/ member ca der.

Lemma generate_Ok k rnd ca : generate (Ok k) rnd = Ok ca ->
  ca_key_pem ca = serialize_pem k /\
  parse_cert (ca_cert ca) = Some (MkCertificate ca_params (public_key k) (cp_distinguished_name ca_params)).
Proof using All.
  unfold generate. cbn [map_err mbind result_bind]. intros (der & Hd%map_err_Ok & [= <-])%bind_Ok.
  cbn [ca_key_pem ca_cert]. split; [done|]. by apply self_signed_spec in Hd as [? _].
Qed.

(** What an issued bundle holds. *)
Lemma issue_Ok k rnd ca common_name generated rnd' b :
  generate (Ok k) rnd = Ok ca -> issue_node_bundle ca common_name generated rnd' = Ok b ->
  mn_ca_cert_der b = ca_cert ca /\
  exists nk, mn_key_pem b = serialize_pem nk /\
    parse_cert (mn_cert_der b) = Some (MkCertificate (node_params "localhost" common_name) (public_key nk)
                                         (cp_distinguished_name ca_params)) /\
    signature_ok (mn_cert_der b) (public_key k) = true.
Proof using All.
  intros [Hpem Hca]%generate_Ok Hb. unfold issue_node_bundle in Hb. rewrite Hpem, pem_roundtrip in Hb.
  cbn [map_err mbind result_bind] in Hb.
  apply bind_Ok in Hb as (i & Hi%map_err_Ok & (nk & Hnk%map_err_Ok & (name & Hn%map_err_Ok & Hb)%bind_Ok)%bind_Ok).
  apply bind_Ok in Hb as (der & Hd%map_err_Ok & [= <-]). apply dns_name_spec in Hn as ->.
  destruct (issuer_spec _ _ _ _ Hi Hca) as [Hk Hname]. cbn [ce_params] in Hname.
  apply signed_by_spec in Hd as [Hp Hs]. rewrite Hk in Hs. rewrite Hname in Hp.
  split; [done|]. exists nk. by split_and!.
Qed.

(** The configurations of an issued bundle build. *)
Lemma configs_build k rnd ca common_name generated rnd' b :
  generate (Ok k) rnd = Ok ca -> issue_node_bundle ca common_name generated rnd' = Ok b ->
  exists key, server_config b = Ok (MkServerConfig [ca_cert ca] [mn_cert_der b] key) /\
              client_config b = Ok (MkClientConfig [ca_cert ca] [mn_cert_der b] key).
Proof using All.
  intros Hg Hb. destruct (issue_Ok _ _ _ _ _ _ _ Hg Hb) as (Hca & nk & Hpem & Hc & _).
  apply generate_Ok in Hg as [_ Hg]. exists (key_der nk). unfold server_config, client_config, private_key, store_add.
  rewrite Hca, Hpem, pem_key, (trust_anchor_spec _ _ Hg). cbn [map_err mbind result_bind ok_or app].
  rewrite client_verifier_spec by done. by rewrite (certified_key_spec _ _ nk Hc).
Qed.

(** An issued certificate is accepted for both usages. *)
Lemma member_verifies k rnd ca common_name generated rnd' b usage now :
  generate (Ok k) rnd = Ok ca -> issue_node_bundle ca common_name generated rnd' = Ok b ->
  157766400 <= now <= 67090118400 -> verify_for_usage [ca_cert ca] [mn_cert_der b] usage now = true.
Proof using All.
  intros Hg Hb Hnow. destruct (issue_Ok _ _ _ _ _ _ _ Hg Hb) as (_ & nk & _ & Hc & Hs).
  apply generate_Ok in Hg as [_ Hg]. eapply verify_complete; [by apply list_elem_of_singleton|done|done| |].
  - by split.
  - destruct default_validity as [H1 H2]. unfold usable. cbn [ce_params node_params cp_is_ca cp_not_before cp_not_after
      cp_extended_key_usages]. rewrite H1, H2. split_and!; [done|lia|lia|right]. destruct usage; set_solver.
Qed.

(** Every certificate on a path to the authority is signed with its key: no node
    certificate can stand in the middle. *)
Lemma path_signed k rnd ca inter der c : generate (Ok k) rnd = Ok ca -> signs_members_only ca k ->
  path [ca_cert ca] inter der c -> signature_ok der (public_key k) = true.
Proof using All.
  intros Hg Hu. pose proof (generate_Ok _ _ _ Hg) as [_ Hca].
  induction 1 as [der c root a Hr Ha _ [_ Hs]|der c i a _ Ha Hisca _ IH _ [_ Hs]].
  - apply list_elem_of_singleton in Hr as ->. rewrite Hca in Ha. by injection Ha as <-.
  - apply Hu in IH as [->|(cn & g & r & b & Hb & <-)].
    + rewrite Hca in Ha. by injection Ha as <-.
    + destruct (issue_Ok _ _ _ _ _ _ _ Hg Hb) as (_ & nk & _ & Hc & _). rewrite Hc in Ha. by injection Ha as <-.
Qed.

Lemma verified_member k rnd ca der inter usage now :
  generate (Ok k) rnd = Ok ca -> signs_members_only ca k ->
  verify_for_usage [ca_cert ca] (der :: inter) usage now = true -> member ca der.
Proof using All.
  intros Hg Hu (c & Hp & (Hn & _))%verify_sound. pose proof (path_signed _ _ _ _ _ _ Hg Hu Hp) as [->|?]%Hu; [|done].
  destruct (generate_Ok _ _ _ Hg) as [_ Hca].
  assert (Some c = parse_cert (ca_cert ca)) as Hc by (by inversion Hp).
  rewrite Hca in Hc. by injection Hc as ->.
Qed.

(** C27. Nodes of a cluster authenticate each other and nobody else: bundles issued
    by a generated authority build both configurations; a client and a server
    with such bundles accept each other's chain, under the name every client
    uses, between 1975 and 4096; and as long as the key of the authority has
    signed nothing else, whatever chain either side accepts, with intermediate
    certificates or without, begins with a certificate the authority issued to
    a node. *)
Theorem mtls_cluster_membership k rnd ca cn1 g1 r1 b1 cn2 g2 r2 b2 :
  generate (Ok k) rnd = Ok ca ->
  issue_node_bundle ca cn1 g1 r1 = Ok b1 -> issue_node_bundle ca cn2 g2 r2 = Ok b2 ->
  exists cc sc, client_config b1 = Ok cc /\ server_config b2 = Ok sc /\ is_ok (root_store ca) = true /\
    (forall now, 157766400 <= now <= 67090118400 ->
       client_accepts cc server_name now (sc_cert_chain sc) = true /\
       server_accepts sc now (cc_cert_chain cc) = true) /\
    (signs_members_only ca k -> forall now chain,
       client_accepts cc server_name now chain = true \/ server_accepts sc now chain = true ->
       exists der inter, chain = der :: inter /\ member ca der).
Proof using All.
  intros Hg H1 H2. destruct (configs_build _ _ _ _ _ _ _ Hg H1) as (key1 & _ & ->).
  destruct (configs_build _ _ _ _ _ _ _ Hg H2) as (key2 & -> & _). do 2 eexists. split_and!; [done|done| | |].
  - unfold root_store, store_add. apply generate_Ok in Hg as [_ Hg]. by rewrite (trust_anchor_spec _ _ Hg).
  - intros now Hnow. cbn [client_accepts server_accepts sc_cert_chain cc_cert_chain cc_roots sc_client_roots].
    rewrite (member_verifies _ _ _ _ _ _ _ ServerAuth now Hg H2 Hnow), (member_verifies _ _ _ _ _ _ _ ClientAuth now Hg H1 Hnow).
    split; [|done]. destruct (issue_Ok _ _ _ _ _ _ _ Hg H2) as (_ & nk & _ & Hc & _).
    cbn [andb]. apply (verify_name_spec _ _ _ Hc). cbn [ce_params node_params cp_subject_alt_names]. set_solver.
  - intros Hu now [|der inter] Hacc; [by destruct Hacc|]. exists der, inter. split; [done|].
    cbn [client_accepts server_accepts cc_roots sc_client_roots] in Hacc.
    destruct Hacc as [[Hv _]%andb_prop|Hv]; by apply (verified_member _ _ _ _ _ _ _ Hg Hu) in Hv.
Qed.
End Cluster.

(** ** An instance

    Keys are names; a certificate holds the common name of a node, or none for an
    authority, its key and the key that signed it. *)

Section Toy.

Definition toy_content : Type := option string * string * string.
Definition toy_enc (t : toy_content) : bytes := pos_bytes (encode t).
Definition toy_dec (der : bytes) : option toy_content :=
  t ← decode (bytes_pos der);
  if bool_decide (toy_enc t = der) then
    match t with
    | (None, key, signer) => if bool_decide (key = signer) then Some t else None
    | (Some _, _, _) => Some t
    end
  else None.

Definition toy_params (name : option string) : CertificateParams := {|
  cp_not_before := 157766400;
  cp_not_after := 67090118400;
  cp_is_ca := match name with None => Ca | Some _ => NoCa end;
  cp_key_usages := match name with None => [KeyCertSign; CrlSign] | Some _ => [] end;
  cp_extended_key_usages := match name with None => [] | Some _ => [ServerAuth; ClientAuth] end;
  cp_subject_alt_names := match name with None => [] | Some _ => [DnsName "localhost"] end;
  cp_distinguished_name := [(CommonName, match name with None => "tls-attestation cluster CA" | Some n => n end)]
|}.
Definition toy_name (p : CertificateParams) : option (option string) :=
  if bool_decide (p = toy_params None) then Some None
  else match cp_distinguished_name p with
       | [(CommonName, n)] => if bool_decide (p = toy_params (Some n)) then Some (Some n) else None
       | _ => None
       end.

#[local] Instance toy_rcgen : Rcgen := {|
  KeyPair := string;
  Issuer := string;
  params_default := MkCertificateParams 157766400 67090118400 NoCa [] [] [] [(CommonName, "rcgen self signed cert")];
  serialize_pem k := k;
  from_pem s := Ok s;
  dns_name s := Ok s;
  self_signed p k _ := match toy_name p with Some None => Ok (toy_enc (None, k, k)) | _ => Err "unsupported" end;
  from_ca_cert_der der k := match toy_dec der with Some (None, _, _) => Ok k | _ => Err "not an authority" end;
  signed_by p k i _ := match toy_name p with Some (Some n) => Ok (toy_enc (Some n, k, i)) | _ => Err "unsupported" end
|}.

#[local] Instance toy_x509 : X509 toy_rcgen := {|
  PublicKey := string;
  public_key k := k;
  key_der _ := [];
  issuer_key i := i;
  issuer_name _ := cp_distinguished_name (toy_params None);
  parse_cert der := '(name, key, _) ← toy_dec der;
    Some (MkCertificate (toy_params name) key (cp_distinguished_name (toy_params None)));
  signature_ok der key := match toy_dec der with Some (_, _, signer) => bool_decide (signer = key) | None => false end
|}.

Definition toy_anchors (der : bytes) (roots : RootCertStore) : bool :=
  existsb (fun root => match toy_dec root with
                       | Some (n, key, _) => bool_decide (cp_distinguished_name (toy_params n) =
                           cp_distinguished_name (toy_params None)) && signature_ok (X509:=toy_x509) der key
                       | None => false
                       end) roots.

#[local] Instance toy_rustls : Rustls := {|
  trust_anchor _ := Ok tt;
  client_verifier _ := Ok tt;
  pem_private_key _ := Ok (Some []);
  certified_key _ _ := Ok tt;
  verify_for_usage roots chain _ now :=
    match chain with
    | [der] => match toy_dec der with
               | Some (Some _, _, _) => (157766400 <=? now) && (now <=? 67090118400) && toy_anchors der roots
               | _ => false
               end
    | _ => false
    end;
  verify_server_name der name :=
    match toy_dec der with Some (Some _, _, _) => bool_decide (name = "localhost") | _ => false end
|}.

Lemma toy_dec_enc_node n k i : toy_dec (toy_enc (Some n, k, i)) = Some (Some n, k, i).
Proof.
  unfold toy_dec, toy_enc. rewrite bytes_pos_bytes, decode_encode. cbn [mbind option_bind].
  by rewrite bool_decide_eq_true_2.
Qed.
Lemma toy_dec_enc_ca k : toy_dec (toy_enc (None, k, k)) = Some (None, k, k).
Proof.
  unfold toy_dec, toy_enc. rewrite bytes_pos_bytes, decode_encode. cbn [mbind option_bind].
  by rewrite !bool_decide_eq_true_2.
Qed.
Lemma toy_dec_Some der t : toy_dec der = Some t ->
  der = toy_enc t /\ match t with (None, key, signer) => key = signer | _ => True end.
Proof.
  unfold toy_dec. destruct (decode _) as [t'|]; [|done]. cbn [mbind option_bind].
  destruct (bool_decide_reflect (toy_enc t' = der)) as [<-|]; [|done].
  destruct t' as [[[n|] key] signer]; [by intros [= <-]|].
  destruct (bool_decide_reflect (key = signer)) as [->|]; [|done]. by intros [= <-].
Qed.
Lemma toy_name_Some p n : toy_name p = Some n -> p = toy_params n.
Proof.
  unfold toy_name. destruct (bool_decide_reflect (p = toy_params None)) as [->|]; [by intros [= <-]|].
  destruct (cp_distinguished_name p) as [|[[] m] [|? ?]]; [done| |done].
  destruct (bool_decide_reflect (p = toy_params (Some m))) as [->|]; [by intros [= <-]|done].
Qed.
Lemma toy_name_node n : toy_name (toy_params (Some n)) = Some (Some n).
Proof.
  unfold toy_name. rewrite bool_decide_eq_false_2 by done. cbn [toy_params cp_distinguished_name].
  by rewrite bool_decide_eq_true_2.
Qed.
Lemma toy_parse der c : parse_cert der = Some c <-> exists n k s, toy_dec der = Some (n, k, s) /\
  c = MkCertificate (toy_params n) k (cp_distinguished_name (toy_params None)).
Proof.
  cbn [parse_cert toy_x509]. destruct (toy_dec der) as [[[n k] s]|]; cbn [mbind option_bind]; split.
  - intros [= <-]. by exists n, k, s.
  - by intros (? & ? & ? & [= <- <- <-] & ->).
  - done.
  - by intros (? & ? & ? & ? & _).
Qed.

Lemma toy_verify_complete roots root a der c usage now :
  root ∈ roots -> parse_cert root = Some a -> parse_cert der = Some c -> issued_under der c a ->
  usable c usage now -> verify_for_usage roots [der] usage now = true.
Proof.
  intros Hr (an & ak & sg & Ha & ->)%toy_parse (n & k & s & Hc & ->)%toy_parse [Hdn Hs] (Hnca & Hnow & _).
  cbn [verify_for_usage toy_rustls]. rewrite Hc. destruct n as [n|]; [|done]. cbn in Hnow.
  rewrite !andb_true_iff. split_and!; [lia..|]. unfold toy_anchors. apply existsb_exists. exists root.
  split; [by apply list_elem_of_In|]. cbn [ce_issuer ce_params] in Hdn. rewrite Ha, andb_true_iff. split; [|exact Hs].
  by apply bool_decide_eq_true_2.
Qed.
Lemma toy_verify_sound roots der inter usage now : verify_for_usage roots (der :: inter) usage now = true ->
  exists c, path roots inter der c /\ usable c usage now.
Proof.
  cbn [verify_for_usage toy_rustls]. destruct inter as [|? ?]; [|done].
  destruct (toy_dec der) as [[[[n|] k] s]|] eqn:Hd; [|done..]. rewrite !andb_true_iff. intros [Hnow Hr].
  unfold toy_anchors in Hr. apply existsb_exists in Hr as (root & Hr%list_elem_of_In & Ha).
  destruct (toy_dec root) as [[[an ak] sg]|] eqn:Hroot; [|done]. apply andb_prop in Ha as [Hdn Hs].
  exists (MkCertificate (toy_params (Some n)) k (cp_distinguished_name (toy_params None))). split.
  - eapply (path_anchor _ _ _ _ root); [done|apply toy_parse; by exists an, ak, sg|apply toy_parse; by exists (Some n), k, s|].
    split; [|done]. apply bool_decide_eq_true_1 in Hdn. cbn [ce_issuer ce_params]. done.
  - unfold usable. cbn [ce_params toy_params cp_is_ca cp_not_before cp_not_after cp_extended_key_usages].
    split_and!; [done|lia|lia|right]. destruct usage; set_solver.
Qed.

#[local] Instance toy_x509_laws : X509Laws toy_x509.
Proof.
  split.
  - done.
  - done.
  - done.
  - by intros s name [= <-].
  - intros p k rnd der. cbn [self_signed toy_rcgen]. destruct (toy_name p) as [[n|]|] eqn:Hp; [done| |done].
    intros [= <-]. apply toy_name_Some in Hp as ->. cbn [parse_cert signature_ok toy_x509].
    rewrite toy_dec_enc_ca. split; [done|]. by apply bool_decide_eq_true_2.
  - intros der k i c Hi (n & ck & s & Hc & ->)%toy_parse. cbn [from_ca_cert_der toy_rcgen] in Hi. rewrite Hc in Hi.
    destruct n as [n|]; [done|]. by injection Hi as <-.
  - intros p k i rnd der. cbn [signed_by toy_rcgen]. destruct (toy_name p) as [[n|]|] eqn:Hp; [|done..].
    intros [= <-]. apply toy_name_Some in Hp as ->. cbn [parse_cert signature_ok toy_x509].
    rewrite toy_dec_enc_node. split; [done|]. by apply bool_decide_eq_true_2.
  - done.
  - done.
  - done.
  - apply toy_verify_complete.
  - apply toy_verify_sound.
  - intros der c name (n & k & s & Hc & ->)%toy_parse. cbn [verify_server_name toy_rustls]. rewrite Hc.
    destruct n as [n|]; cbn [ce_params toy_params cp_subject_alt_names]; [rewrite bool_decide_eq_true|]; set_solver.
Qed.

Definition ex_ca : MtlsCaBundle := MkMtlsCaBundle (toy_enc (None, "ca", "ca")) "ca".
Definition ex_bundle (n : string) : MtlsNodeBundle := MkMtlsNodeBundle (toy_enc (Some n, n, "ca")) n (ca_cert ex_ca).

Lemma ex_issue n k rnd : issue_node_bundle ex_ca n (Ok k) rnd =
  Ok (MkMtlsNodeBundle (toy_enc (Some n, k, "ca")) k (ca_cert ex_ca)).
Proof.
  unfold issue_node_bundle. cbn [ca_key_pem ex_ca from_pem toy_rcgen map_err mbind result_bind from_ca_cert_der ca_cert].
  rewrite toy_dec_enc_ca. cbn [map_err mbind result_bind dns_name signed_by toy_rcgen].
  change (node_params "localhost" n) with (toy_params (Some n)). by rewrite toy_name_node.
Qed.

Lemma ex_signs_members_only : signs_members_only ex_ca ("ca" : KeyPair).
Proof.
  intros der. cbn [signature_ok toy_x509]. destruct (toy_dec der) as [[[n k] s]|] eqn:Hd; [|done].
  intros ->%bool_decide_eq_true_1. apply toy_dec_Some in Hd as [-> Hn]. destruct n as [n|].
  - right. exists n, (Ok k), [], (MkMtlsNodeBundle (toy_enc (Some n, k, "ca")) k (ca_cert ex_ca)).
    split; [apply ex_issue|done].
  - left. by rewrite Hn.
Qed.

Lemma ex_not_member : ~ member ex_ca (toy_enc (Some "node", "node", "other")).
Proof.
  intros (cn & [k|e] & r & b & Hb & Hder).
  - rewrite ex_issue in Hb. injection Hb as <-. cbn [mn_cert_der] in Hder. apply (f_equal toy_dec) in Hder.
    by rewrite !toy_dec_enc_node in Hder.
  - unfold issue_node_bundle in Hb. cbn [ca_key_pem ex_ca from_pem toy_rcgen map_err mbind result_bind from_ca_cert_der ca_cert] in Hb.
    by rewrite toy_dec_enc_ca in Hb.
Qed.

Definition ex_stranger : list bytes := [toy_enc (Some "node", "node", "other")].
Lemma mtls_cluster_membership_witness : exists cc sc,
  (client_config (ex_bundle "coordinator") = Ok cc /\ server_config (ex_bundle "node") = Ok sc) /\
  (client_accepts cc server_name 1700000000 (sc_cert_chain sc) = true /\ ~ member ex_ca (toy_enc (Some "node", "node", "other")) /\
   server_accepts sc 1700000000 ex_stranger = false).
Proof.
  destruct (mtls_cluster_membership (XL:=toy_x509_laws) ("ca" : @KeyPair toy_rcgen) [] ex_ca "coordinator" (Ok "coordinator")
    [] (ex_bundle "coordinator") "node" (Ok "node") [] (ex_bundle "node")) as (cc & sc & Hc & Hs & _ & Hacc & Hm).
  - reflexivity.
  - apply ex_issue.
  - apply ex_issue.
  - exists cc, sc. split_and!; [done|done|by apply Hacc| |].
    + apply ex_not_member.
    + destruct (server_accepts sc 1700000000 ex_stranger) eqn:Ha; [|done].
      destruct (Hm ex_signs_members_only 1700000000 ex_stranger (or_intror Ha)) as (der & inter & [= <- <-] & Hmem).
      by apply ex_not_member in Hmem.
Defined.
End Toy.
