(* ===== verification/Errors.v ===== *)
(** * Error messages

    The error type of the node crate ([node/src/error.rs]), which wraps those of
    the other crates, and the texts ([Display]) of all of them: they become the
    reasons recorded in failed sessions. *)

From S2P Require Import Prelude Core Session Storage Attestation Threshold Registry Dctls Network.

Definition CoreError_to_string (e : CoreError) : string :=
  match e with
  | InvalidQuorum reason => "invalid quorum: " +:+ reason
  | Serialization msg => "serialization error: " +:+ msg
  | InvalidIdentifier msg => "invalid identifier: " +:+ msg
  end.

Definition AttestationError_to_string (e : AttestationError) : string :=
  match e with
  | Session.Core e => "session error: " +:+ CoreError_to_string e
  | InvalidTransition from to => "invalid state transition: cannot move from " +:+ from +:+ " to " +:+ to
  | SessionExpired => "session expired"
  | RandomnessBindingMismatch reason => "randomness binding mismatch: " +:+ reason
  | TranscriptMismatch reason => "transcript commitment mismatch: " +:+ reason
  | StatementDigestMismatch => "statement digest mismatch"
  | PackageDigestMismatch => "package digest mismatch"
  | EvidenceVerificationFailed reason => "evidence verification failed: " +:+ reason
  | QuorumNotSatisfied need have =>
      "quorum not satisfied: need " +:+ pretty (Z.of_nat need) +:+ ", have " +:+ pretty (Z.of_nat have)
  | UnknownSession => "unknown session"
  | DuplicateSession => "replay detected: session ID already exists"
  | SessionAlreadyTerminal => "replay detected: session is already in a terminal state"
  | DuplicateVerifierApproval v =>
      "replay detected: verifier '" +:+ v +:+ "' already approved this session"
  | TlsConnection reason => "TLS connection error: " +:+ reason
  | AttestationCrypto msg => "cryptographic operation failed: " +:+ msg
  end.

Definition CryptoError_to_string (e : CryptoError) : string :=
  match e with
  | RandomnessVerificationFailed reason => "randomness verification failed: " +:+ reason
  | InsufficientContributions need got =>
      "insufficient contributions: need " +:+ pretty need +:+ ", got " +:+ pretty got
  | SignatureVerificationFailed reason => "signature verification failed: " +:+ reason
  | InsufficientSignatures need got =>
      "insufficient partial signatures: need " +:+ pretty need +:+ ", got " +:+ pretty got
  | UnknownVerifier id => "unknown verifier: " +:+ id
  | CryptoTranscriptMismatch => "transcript commitment mismatch"
  | InvalidKeyMaterial msg => "invalid key material: " +:+ msg
  | SigningFailed msg => "signing failed: " +:+ msg
  | AggregationFailed msg => "threshold aggregation failed: " +:+ msg
  | DkgAnnouncement msg => "DKG key-announcement error: " +:+ msg
  end.

Definition StorageError_to_string (e : StorageError) : string :=
  match e with
  | NotFound => "session not found"
  | AlreadyExists => "session already exists (replay protection)"
  | SessionTerminated => "session is in a terminal state and cannot be modified"
  | DuplicateApproval v => "verifier '" +:+ v +:+ "' has already approved this session"
  | Io msg => "storage I/O error: " +:+ msg
  end.

Definition NetworkError_to_string (e : NetworkError) : string :=
  match e with
  | RecipientNotFound id => "recipient not found: " +:+ id
  | ChannelClosed => "channel closed"
  | NetSerialization msg => "serialization error: " +:+ msg
  | NetTimeout => "send timeout"
  | AuthFailed msg => "authentication failed: " +:+ msg
  end.

Definition RegistryEpoch_to_string (e : RegistryEpoch) : string :=
  "registry-epoch:" +:+ pretty (uval (RegistryEpoch_0 e)).
(** [{:?}] of a registry epoch. *)
Definition RegistryEpoch_debug (e : RegistryEpoch) : string :=
  "RegistryEpoch(" +:+ pretty (uval (RegistryEpoch_0 e)) +:+ ")".

Definition RegistryError_to_string (e : RegistryError) : string :=
  let v := VerifierId_to_string in
  let ep := RegistryEpoch_to_string in
  match e with
  | UnknownParticipant id => "participant " +:+ v id +:+ " is not in the registry"
  | RevokedParticipant id =>
      "participant " +:+ v id +:+ " has been revoked and is not eligible for new ceremonies"
  | RetiredParticipant id => "participant " +:+ v id +:+ " has retired and is not eligible for new ceremonies"
  | EpochMismatch expected actual => "registry epoch mismatch: expected " +:+ ep expected +:+ ", got " +:+ ep actual
  | DuplicateParticipant id =>
      "participant " +:+ v id +:+ " appears more than once — registry entries must be unique"
  | EmptyRegistry => "registry must contain at least one participant"
  | StaleRotationEpoch current new =>
      "epoch " +:+ ep new +:+ " is not strictly greater than the current registry epoch " +:+ ep current +:+
      " — registry epochs must advance monotonically"
  | RevocationTargetUnknown id => "cannot revoke participant " +:+ v id +:+ ": not in registry"
  | AlreadyRevoked id => "participant " +:+ v id +:+ " is already revoked"
  | RotationTargetUnknown id => "cannot rotate key for participant " +:+ v id +:+ ": not in registry"
  | VerifierIdMismatch claimed derived =>
      "VerifierId/VerifyingKey mismatch: claimed " +:+ v claimed +:+
      ", derived SHA-256(signing_key) = " +:+ v derived
  end.

Definition DctlsError_to_string (e : DctlsError) : string :=
  match e with
  | RandMismatch => "DVRF randomness mismatch"
  | CommitmentMismatch which => "commitment mismatch: " +:+ which
  | ProofBindingMismatch which => "proof binding mismatch: " +:+ which
  | CertHashMismatch => "certificate hash mismatch"
  | UnknownEngineTag tag => "unknown engine tag: " +:+ tag
  | ZkProofFailed msg => "ZK proof failed: " +:+ msg
  end.

(** ** Errors of the node crate *)

Inductive NodeError :=
  | NodeAttestation (e : AttestationError)
  | NodeCrypto (e : CryptoError)
  | NodeNetwork (e : NetworkError)
  | NodeStorage (e : StorageError)
  | QuorumNotMet (received required : Z)
  | NoResponse (msg : string)
  | SessionNotFound (msg : string)
  | FrostProtocol (msg : string)
  | DkgProtocol (msg : string)
  | DkgKeyAnnouncement (msg : string)
  | SigningAdmission (msg : string).

Definition NodeError_to_string (e : NodeError) : string :=
  match e with
  | NodeAttestation e => "attestation error: " +:+ AttestationError_to_string e
  | NodeCrypto e => "crypto error: " +:+ CryptoError_to_string e
  | NodeNetwork e => "network error: " +:+ NetworkError_to_string e
  | NodeStorage e => "storage error: " +:+ StorageError_to_string e
  | QuorumNotMet received required =>
      "quorum not met: received " +:+ pretty received +:+ " of " +:+ pretty required +:+ " approvals"
  | NoResponse msg => "no response from verifier: " +:+ msg
  | SessionNotFound msg => "session not found: " +:+ msg
  | FrostProtocol msg => "FROST protocol violation: " +:+ msg
  | DkgProtocol msg => "DKG protocol error: " +:+ msg
  | DkgKeyAnnouncement msg => "DKG key-announcement error: " +:+ msg
  | SigningAdmission msg => "signing admission error: " +:+ msg
  end.
