(* ===== verification/Frost.v ===== *)
(** * FROST threshold signatures

    Models [crypto/src/frost_adapter.rs] (participants, round-1 and round-2
    messages, signing packages, aggregation, approvals, the in-process protocol)
    and [crypto/src/dvrf.rs] (the DVRF built on them).

    The ciphersuite is the external crate [frost-ed25519]: the class
    [FrostEd25519]. Its laws are that a signing package returns the message it
    was made with, that keys and signatures survive serialization, and that
    [aggregate] only returns signatures that verify under the group key.
    A random generator is a value of [Rng]; the calls that read the OS generator
    take it as an argument. *)

From S2P Require Import Prelude Core Session Attestation Threshold Errors.

Class FrostEd25519 := {
  Identifier : Type;
  Identifier_eq_dec :: EqDecision Identifier;
  Identifier_countable :: Countable Identifier;
  KeyPackage : Type;
  PublicKeyPackage : Type;
  SigningNonces : Type;
  SigningCommitments : Type;
  SignatureShare : Type;
  SigningPackage : Type;
  FrostVerifyingKey : Type;
  FrostSignature : Type;
  Rng : Type;
  StdRng_from_seed : array 32 -> Rng;
  frost_commit : KeyPackage -> Rng -> SigningNonces * SigningCommitments;
  frost_sign : SigningPackage -> SigningNonces -> KeyPackage -> result string SignatureShare;
  frost_aggregate : SigningPackage -> gmap Identifier SignatureShare -> PublicKeyPackage ->
    result string FrostSignature;
  SigningPackage_new : gmap Identifier SigningCommitments -> bytes -> SigningPackage;
  SigningPackage_message : SigningPackage -> bytes;
  group_vk : PublicKeyPackage -> FrostVerifyingKey;
  vk_serialize : FrostVerifyingKey -> array 32;
  vk_deserialize : array 32 -> result string FrostVerifyingKey;
  sig_serialize : FrostSignature -> array 64;
  sig_deserialize : array 64 -> result string FrostSignature;
  frost_verify : FrostVerifyingKey -> bytes -> FrostSignature -> result string unit;
  key_package_json : KeyPackage -> bytes;
  commitments_json :: SerdeJson SigningCommitments;
  share_json :: SerdeJson SignatureShare;
  package_json :: SerdeJson SigningPackage;
  message_new cs m : SigningPackage_message (SigningPackage_new cs m) = m;
  vk_roundtrip vk : vk_deserialize (vk_serialize vk) = Ok vk;
  sig_roundtrip sig : sig_deserialize (sig_serialize sig) = Ok sig;
  aggregate_verifies pkg shares pk sig :
    frost_aggregate pkg shares pk = Ok sig ->
    frost_verify (group_vk pk) (SigningPackage_message pkg) sig = Ok tt
}.

Section Adapter.
Context {Hs : Sha256} {Fr : FrostEd25519}.

(** ** Data *)

Record FrostSigningNonces := MkFrostSigningNonces { nonces_0 : SigningNonces }.
Record FrostCommitment := MkFrostCommitment { fc_identifier : Identifier; fc_inner : SigningCommitments }.
Record FrostSignatureShare := MkFrostSignatureShare { fs_identifier : Identifier; fs_inner : SignatureShare }.
Record FrostSigningPackage := MkFrostSigningPackage { fsp_inner : SigningPackage }.
Record FrostGroupKey := MkFrostGroupKey {
  pub_key_package : PublicKeyPackage;
  verifier_to_id : gmap VerifierId Identifier
}.
Record FrostParticipant := MkFrostParticipant {
  key_package : KeyPackage;
  fp_identifier : Identifier;
  fp_verifier_id : VerifierId
}.
Record FrostThresholdApproval := MkFrostThresholdApproval {
  fta_signed_digest : DigestBytes;
  aggregate_signature_bytes : array 64;
  group_verifying_key_bytes : array 32
}.

Definition verifier_to_identifier (self : FrostGroupKey) (v : VerifierId) : option Identifier :=
  verifier_to_id self !! v.
Definition verifying_key_bytes (self : FrostGroupKey) : array 32 :=
  vk_serialize (group_vk (pub_key_package self)).

(** ** Rounds *)

Definition round1 (self : FrostParticipant) (rng : Rng) : FrostSigningNonces * FrostCommitment :=
  let '(nonces, commitments) := frost_commit (key_package self) rng in
  (MkFrostSigningNonces nonces, MkFrostCommitment (fp_identifier self) commitments).

Definition dvrf_nonce_seed (self : FrostParticipant) (alpha : bytes) : array 32 :=
  let key_bytes := key_package_json (key_package self) in
  sha256_digest (string_bytes "tls-attestation/dvrf-nonce-seed/v1" ++ [byte 0] ++
    u64_be (len64 key_bytes) ++ key_bytes ++ u64_be (len64 alpha) ++ alpha).

Definition round1_dvrf (self : FrostParticipant) (alpha : bytes) : FrostSigningNonces * FrostCommitment :=
  round1 self (StdRng_from_seed (dvrf_nonce_seed self alpha)).

Definition round2 (self : FrostParticipant) (signing_package : FrostSigningPackage)
    (nonces : FrostSigningNonces) : result CryptoError FrostSignatureShare :=
  map_err SigningFailed
    (share ← frost_sign (fsp_inner signing_package) (nonces_0 nonces) (key_package self);
     Ok (MkFrostSignatureShare (fp_identifier self) share)).

(** ** Wire encodings *)

Definition commitment_to_bytes (self : FrostCommitment) : result CryptoError bytes :=
  map_err (fun e => AggregationFailed ("SigningCommitments serialization failed: " +:+ e))
    (json_to_vec (fc_inner self)).
Definition commitment_from_bytes (bs : bytes) (v : VerifierId) (group_key : FrostGroupKey)
    : result CryptoError FrostCommitment :=
  identifier ← ok_or (UnknownVerifier (VerifierId_to_string v)) (verifier_to_identifier group_key v);
  inner ← map_err (fun e => AggregationFailed ("commitment deserialization failed: " +:+ e))
            (json_from_slice bs);
  Ok (MkFrostCommitment identifier inner).
Definition share_to_bytes (self : FrostSignatureShare) : result CryptoError bytes :=
  map_err (fun e => AggregationFailed ("SignatureShare serialization failed: " +:+ e))
    (json_to_vec (fs_inner self)).
Definition share_from_bytes (bs : bytes) (v : VerifierId) (group_key : FrostGroupKey)
    : result CryptoError FrostSignatureShare :=
  identifier ← ok_or (UnknownVerifier (VerifierId_to_string v)) (verifier_to_identifier group_key v);
  inner ← map_err (fun e => AggregationFailed ("signature share deserialization failed: " +:+ e))
            (json_from_slice bs);
  Ok (MkFrostSignatureShare identifier inner).
Definition package_to_bytes (self : FrostSigningPackage) : result CryptoError bytes :=
  map_err (fun e => AggregationFailed ("SigningPackage serialization failed: " +:+ e))
    (json_to_vec (fsp_inner self)).
Definition package_from_bytes (bs : bytes) : result CryptoError FrostSigningPackage :=
  inner ← map_err (fun e => AggregationFailed ("signing package deserialization failed: " +:+ e))
            (json_from_slice bs);
  Ok (MkFrostSigningPackage inner).
Definition message_bytes (self : FrostSigningPackage) : bytes := SigningPackage_message (fsp_inner self).

(** ** Aggregation *)

Definition build_signing_package (collected : list (VerifierId * bytes)) (signed_digest : DigestBytes)
    (group_key : FrostGroupKey) : result CryptoError (FrostSigningPackage * bytes) :=
  commitments_map ← try_fold (fun m p =>
      commitment ← commitment_from_bytes p.2 p.1 group_key;
      Ok (<[fc_identifier commitment := fc_inner commitment]> m)) ∅ collected;
  let signing_package := MkFrostSigningPackage
    (SigningPackage_new commitments_map (arr (as_bytes signed_digest))) in
  package_bytes ← package_to_bytes signing_package;
  Ok (signing_package, package_bytes).

Definition aggregate_signature_shares (signing_package : FrostSigningPackage)
    (shares : list (VerifierId * bytes)) (group_key : FrostGroupKey) (signed_digest : DigestBytes)
    : result CryptoError FrostThresholdApproval :=
  shares_map ← try_fold (fun m p =>
      share ← share_from_bytes p.2 p.1 group_key;
      Ok (<[fs_identifier share := fs_inner share]> m)) ∅ shares;
  signature ← map_err AggregationFailed
    (frost_aggregate (fsp_inner signing_package) shares_map (pub_key_package group_key));
  Ok {| fta_signed_digest := signed_digest; aggregate_signature_bytes := sig_serialize signature;
        group_verifying_key_bytes := verifying_key_bytes group_key |}.

(** Both rounds in one process; [rngs] supplies the generator of each signer. *)
Definition frost_collect_approval (rngs : nat -> Rng) (signers : list FrostParticipant)
    (signed_digest : DigestBytes) (group_key : FrostGroupKey) (quorum : QuorumSpec)
    : result CryptoError FrostThresholdApproval :=
  if Z.of_nat (length signers) <? uval (threshold quorum) then
    Err (InsufficientSignatures (uval (threshold quorum)) (Z.of_nat (length signers)))
  else
    r1 ← try_fold (fun acc '(idx, signer) =>
      frost_id ← ok_or (UnknownVerifier (VerifierId_to_string (fp_verifier_id signer)))
                   (verifier_to_identifier group_key (fp_verifier_id signer));
      let '(nonces, commitment) := round1 signer (rngs idx) in
      Ok (<[frost_id := fc_inner commitment]> acc.1, acc.2 ++ [(frost_id, signer, nonces)]))
      (∅, []) (zip (seq 0 (length signers)) signers);
    let '(commitments_map, nonces_store) := r1 in
    let signing_package := MkFrostSigningPackage
      (SigningPackage_new commitments_map (arr (as_bytes signed_digest))) in
    shares_map ← try_fold (fun m '(frost_id, signer, nonces) =>
      share ← round2 signer signing_package nonces;
      Ok (<[frost_id := fs_inner share]> m)) ∅ nonces_store;
    signature ← map_err AggregationFailed
      (frost_aggregate (fsp_inner signing_package) shares_map (pub_key_package group_key));
    Ok {| fta_signed_digest := signed_digest; aggregate_signature_bytes := sig_serialize signature;
          group_verifying_key_bytes := verifying_key_bytes group_key |}.

(** ** Approvals *)

Definition verify_signature (self : FrostThresholdApproval) : result CryptoError unit :=
  vk ← map_err (fun e => SignatureVerificationFailed ("invalid group verifying key: " +:+ e))
         (vk_deserialize (group_verifying_key_bytes self));
  sig ← map_err (fun e => SignatureVerificationFailed ("malformed aggregate signature: " +:+ e))
          (sig_deserialize (aggregate_signature_bytes self));
  map_err (fun _ => SignatureVerificationFailed "FROST aggregate signature is invalid")
    (frost_verify vk (arr (as_bytes (fta_signed_digest self))) sig).

Definition verify_binding (self : FrostThresholdApproval) (envelope_digest : DigestBytes)
    : result CryptoError unit :=
  let expected := approval_signed_digest envelope_digest in
  if negb (bool_decide (fta_signed_digest self = expected)) then
    Err (SignatureVerificationFailed
           "FrostThresholdApproval: signed_digest does not match envelope_digest")
  else Ok tt.
End Adapter.

(** ** The DVRF (dvrf.rs) *)

Record DvRFInput := MkDvRFInput { alpha : DigestBytes }.

Record DvRFProof := MkDvRFProof {
  aggregate_signature : array 64;
  group_verifying_key : array 32;
  alpha_bytes : array 32
}.

Record DvRFOutput := MkDvRFOutput { dvrf_value : DigestBytes; dvrf_proof : DvRFProof }.

Inductive DvRFError :=
  | InsufficientShares (needed got : Z)
  | VerificationFailed (reason : string)
  | EvaluationFailed (msg : string).

Definition DvRFError_to_string (e : DvRFError) : string :=
  match e with
  | InsufficientShares needed got => "insufficient shares: need " +:+ pretty needed +:+ ", got " +:+ pretty got
  | VerificationFailed reason => "DVRF verification failed: " +:+ reason
  | EvaluationFailed msg => "DVRF evaluation failed: " +:+ msg
  end.

Definition dvrf_output_hasher (sig : array 64) : CanonicalHasher :=
  update_fixed sig (CanonicalHasher_new "tls-attestation/dvrf-output/v1").

Definition dvrf_input_hasher (sid : SessionId) (pid : ProverId) (n : Nonce) (e : Epoch)
    (quorum_hash : DigestBytes) : CanonicalHasher :=
  let h := CanonicalHasher_new "tls-attestation/dvrf-input/v1" in
  let h := update_fixed (as_bytes sid) h in
  let h := update_fixed (as_bytes pid) h in
  let h := update_fixed (as_bytes n) h in
  let h := update_u64 (Epoch_0 e) h in
  update_digest quorum_hash h.

Section DvRF.
Context {Hs : Sha256} {Fr : FrostEd25519}.

Definition DvRFInput_for_session (sid : SessionId) (pid : ProverId) (n : Nonce) (e : Epoch)
    (quorum_hash : DigestBytes) : DvRFInput :=
  MkDvRFInput (finalize (dvrf_input_hasher sid pid n e quorum_hash)).

(** [.map_err(|e| DvRFError::EvaluationFailed(e.to_string()))] *)
Definition eval_err {A} (r : result CryptoError A) : result DvRFError A :=
  map_err (fun e => EvaluationFailed (CryptoError_to_string e)) r.

Definition FrostDvRF_evaluate (group_key : FrostGroupKey)
    (input : DvRFInput) (participants : list FrostParticipant) : result DvRFError DvRFOutput :=
  if (length participants =? 0)%nat then Err (InsufficientShares 1 0)
  else
    let round1_outputs := (fun p => round1_dvrf p (arr (as_bytes (alpha input)))) <$> participants in
    commitment_pairs ← eval_err (try_map (fun '(p, (_, commitment)) =>
        b ← commitment_to_bytes commitment; Ok (fp_verifier_id p, b))
      (zip participants round1_outputs));
    pkg ← eval_err (build_signing_package commitment_pairs (alpha input) group_key);
    let signing_package := pkg.1 in
    share_entries ← try_map (fun '(participant, (nonces, _)) =>
        share ← eval_err (round2 participant signing_package nonces);
        share_bytes ← eval_err (share_to_bytes share);
        Ok (fp_verifier_id participant, share_bytes))
      (zip participants round1_outputs);
    frost_approval ← eval_err (aggregate_signature_shares signing_package share_entries group_key (alpha input));
    let sig_bytes := aggregate_signature_bytes frost_approval in
    Ok {| dvrf_value := finalize (dvrf_output_hasher sig_bytes);
          dvrf_proof := {| aggregate_signature := sig_bytes;
                           group_verifying_key := verifying_key_bytes group_key;
                           alpha_bytes := as_bytes (alpha input) |} |}.

Definition FrostDvRF_verify (input : DvRFInput) (output : DvRFOutput) : result DvRFError unit :=
  if negb (bool_decide (alpha_bytes (dvrf_proof output) = as_bytes (alpha input))) then
    Err (VerificationFailed "proof alpha_bytes does not match provided DVRF input α")
  else
    vk ← map_err VerificationFailed (vk_deserialize (group_verifying_key (dvrf_proof output)));
    sig ← map_err VerificationFailed (sig_deserialize (aggregate_signature (dvrf_proof output)));
    _ ← map_err VerificationFailed (frost_verify vk (arr (as_bytes (alpha input))) sig);
    let expected_value := finalize (dvrf_output_hasher (aggregate_signature (dvrf_proof output))) in
    if negb (bool_decide (dvrf_value output = expected_value)) then
      Err (VerificationFailed "DVRF output value does not match signature hash")
    else Ok tt.
End DvRF.

(** ** Properties *)

Section FrostProps.
Context {Hs : Sha256} {Fr : FrostEd25519}.

(** An aggregated signature over the message of [pkg] verifies as an approval. *)
Lemma aggregated_verify_signature pkg shares gk sig d :
  frost_aggregate pkg shares (pub_key_package gk) = Ok sig ->
  SigningPackage_message pkg = arr (as_bytes d) ->
  verify_signature {| fta_signed_digest := d; aggregate_signature_bytes := sig_serialize sig;
    group_verifying_key_bytes := verifying_key_bytes gk |} = Ok tt.
Proof.
  intros Hagg Hmsg. unfold verify_signature, verifying_key_bytes.
  cbn [group_verifying_key_bytes aggregate_signature_bytes fta_signed_digest].
  rewrite vk_roundtrip. cbn [map_err mbind result_bind]. rewrite sig_roundtrip.
  cbn [map_err mbind result_bind]. by rewrite <- Hmsg, (aggregate_verifies _ _ _ _ Hagg).
Qed.

Lemma build_signing_package_message collected d gk pkg bs :
  build_signing_package collected d gk = Ok (pkg, bs) ->
  message_bytes pkg = arr (as_bytes d) /\ package_from_bytes bs = Ok pkg.
Proof.
  unfold build_signing_package.
  intros (m & _ & (b & Hb%map_err_Ok & [= <- <-])%bind_Ok)%bind_Ok.
  split; [apply message_new|]. unfold package_from_bytes. by rewrite (json_roundtrip _ _ Hb).
Qed.

Lemma aggregate_signature_shares_Ok pkg shares gk d a :
  aggregate_signature_shares pkg shares gk d = Ok a ->
  exists sig m, frost_aggregate (fsp_inner pkg) m (pub_key_package gk) = Ok sig /\
    a = {| fta_signed_digest := d; aggregate_signature_bytes := sig_serialize sig;
           group_verifying_key_bytes := verifying_key_bytes gk |}.
Proof.
  unfold aggregate_signature_shares.
  intros (m & _ & (sig & Hsig%map_err_Ok & [= <-])%bind_Ok)%bind_Ok. eauto.
Qed.

(** Soundness of the two-round protocol: when a signing package built for a
    digest is aggregated for the same digest, the approval verifies under the
    group key it names, which is the given one, and is bound to every envelope
    whose approval digest is the signed digest; the participants receive the
    package that was built, with that digest as its message. *)
Theorem frost_rounds_sound collected shares gk d pkg bs a :
  build_signing_package collected d gk = Ok (pkg, bs) ->
  aggregate_signature_shares pkg shares gk d = Ok a ->
  package_from_bytes bs = Ok pkg /\ message_bytes pkg = arr (as_bytes d) /\
  verify_signature a = Ok tt /\ group_verifying_key_bytes a = verifying_key_bytes gk /\
  forall e, verify_binding a e = Ok tt <-> d = approval_signed_digest e.
Proof.
  intros [Hmsg Hbytes]%build_signing_package_message (sig & m & Hsig & ->)%aggregate_signature_shares_Ok.
  split_and!; try done.
  - by eapply aggregated_verify_signature.
  - intros e. unfold verify_binding. cbn [fta_signed_digest]. by case_bool_decide.
Qed.

Lemma frost_collect_approval_valid rngs signers d gk q a :
  frost_collect_approval rngs signers d gk q = Ok a ->
  verify_signature a = Ok tt /\ fta_signed_digest a = d /\
  group_verifying_key_bytes a = verifying_key_bytes gk /\
  uval (threshold q) <= Z.of_nat (length signers) /\
  Forall (fun s => is_Some (verifier_to_identifier gk (fp_verifier_id s))) signers.
Proof.
  unfold frost_collect_approval.
  destruct (Z.ltb_spec (Z.of_nat (length signers)) (uval (threshold q))) as [|Hle]; [done|].
  intros ([cm ns] & Hr1 & Hok)%bind_Ok.
  apply bind_Ok in Hok as (sm & _ & (sig & Hsig%map_err_Ok & [= <-])%bind_Ok).
  cbn [fta_signed_digest group_verifying_key_bytes]. split_and!; try done.
  - eapply aggregated_verify_signature; [exact Hsig | apply message_new].
  - clear -Hr1. generalize dependent (∅ : gmap Identifier SigningCommitments, @nil (Identifier * FrostParticipant * FrostSigningNonces)).
    generalize 0%nat. induction signers as [|s signers IH]; intros k acc Hr1; [constructor|].
    cbn [length seq zip zip_with try_fold] in Hr1.
    apply bind_Ok in Hr1 as (acc' & (i & Hi%ok_or_Ok & _)%bind_Ok & Hrest).
    constructor; [by eexists | by eapply IH].
Qed.

(** The in-process protocol has the same guarantee, and only runs with at
    least [threshold] signers, all known to the group key. *)
Theorem frost_collect_approval_sound rngs signers d gk q a :
  frost_collect_approval rngs signers d gk q = Ok a ->
  verify_signature a = Ok tt /\ fta_signed_digest a = d /\
  group_verifying_key_bytes a = verifying_key_bytes gk /\
  uval (threshold q) <= Z.of_nat (length signers) /\
  Forall (fun s => is_Some (verifier_to_identifier gk (fp_verifier_id s))) signers.
Proof. apply frost_collect_approval_valid. Qed.

(** DVRF outputs verify: whatever [evaluate] returns for an input and a group
    key is accepted by [verify] for that input. The group key is no argument of
    [verify], which takes it from the proof: outputs evaluated under any other
    group key are accepted for the same input as well. *)
Theorem dvrf_evaluate_verifies gk input participants out :
  FrostDvRF_evaluate gk input participants = Ok out ->
  FrostDvRF_verify input out = Ok tt /\
  group_verifying_key (dvrf_proof out) = verifying_key_bytes gk.
Proof.
  unfold FrostDvRF_evaluate. destruct (length participants =? 0)%nat; [done|].
  intros (cps & _ & Hok)%bind_Ok. apply bind_Ok in Hok as ([pkg bs] & Hpkg%map_err_Ok & Hok).
  apply bind_Ok in Hok as (shares & _ & Hok). apply bind_Ok in Hok as (a & Ha%map_err_Ok & [= <-]).
  apply build_signing_package_message in Hpkg as [Hmsg _].
  apply aggregate_signature_shares_Ok in Ha as (sig & m & Hsig & ->).
  split; [|done]. unfold FrostDvRF_verify.
  cbn [dvrf_proof alpha_bytes group_verifying_key aggregate_signature dvrf_value aggregate_signature_bytes].
  rewrite bool_decide_eq_true_2 by done. cbn [negb]. unfold verifying_key_bytes. rewrite vk_roundtrip.
  cbn [map_err mbind result_bind]. rewrite sig_roundtrip. cbn [map_err mbind result_bind].
  unfold message_bytes in Hmsg. cbn [fst] in Hsig.
  rewrite <- Hmsg, (aggregate_verifies _ _ _ _ Hsig). cbn [map_err mbind result_bind].
  by rewrite bool_decide_eq_true_2.
Qed.
End FrostProps.

(** ** A concrete instance *)

(** Signatures are the group key followed by the message; nonces, commitments and
    shares are the random bytes; two shares are needed. *)
Definition bytes_json : SerdeJson bytes.
Proof. refine {| json_to_vec := Ok; json_from_slice := Ok |}. by intros v b [= ->]. Defined.

Definition toy_frost_on (I : Type) `{Countable I} : FrostEd25519.
Proof.
  refine {| Identifier := I; KeyPackage := array 32; PublicKeyPackage := array 32;
            SigningNonces := bytes; SigningCommitments := bytes; SignatureShare := bytes;
            SigningPackage := bytes; FrostVerifyingKey := array 32; FrostSignature := array 64;
            Rng := bytes; StdRng_from_seed := arr; frost_commit kp r := (r, r);
            frost_sign pkg nonces kp := Ok nonces;
            frost_aggregate pkg shares pk :=
              if (2 <=? size shares)%nat then Ok (to_array 64 (arr pk ++ pkg))
              else Err "Incorrect number of shares.";
            SigningPackage_new cs m := m; SigningPackage_message := id; group_vk := id;
            vk_serialize := id; vk_deserialize := Ok; sig_serialize := id; sig_deserialize := Ok;
            frost_verify vk m s := if bool_decide (s = to_array 64 (arr vk ++ m)) then Ok tt
                                   else Err "Invalid signature.";
            key_package_json := arr;
            commitments_json := bytes_json; share_json := bytes_json; package_json := bytes_json |}.
  - done.
  - done.
  - done.
  - intros pkg shares pk sig. destruct (2 <=? size shares)%nat; [|done]. intros [= <-].
    by rewrite bool_decide_eq_true_2.
Defined.

Definition toy_frost : FrostEd25519 := toy_frost_on nat.

Definition toy_group (z : Z) : FrostGroupKey (Fr:=toy_frost) :=
  MkFrostGroupKey (Fr:=toy_frost) (array_repeat 32 (byte z))
    (list_to_map ((fun i => (vid (Z.of_nat i), i)) <$> [1; 2; 3]%nat)).
Definition toy_participant (z : Z) (i : nat) : FrostParticipant (Fr:=toy_frost) :=
  MkFrostParticipant (Fr:=toy_frost) (array_repeat 32 (byte z)) i (vid (Z.of_nat i)).

Definition toy_dvrf_input : DvRFInput := MkDvRFInput (digest 77).
(** The output for group key [z]. *)
Definition toy_dvrf_output (z : Z) : DvRFOutput :=
  unwrap_or (MkDvRFOutput (digest 0) (MkDvRFProof (array_repeat 64 (byte 0)) (array_repeat 32 (byte 0)) (array_repeat 32 (byte 0))))
    (FrostDvRF_evaluate (Hs:=toy_sha256) (Fr:=toy_frost) (toy_group z) toy_dvrf_input
       [toy_participant z 1; toy_participant z 3]).

Lemma frost_rounds_sound_witness :
  let pkg := MkFrostSigningPackage (Fr:=toy_frost) (arr (as_bytes (digest 5))) in
  verify_signature (Fr:=toy_frost)
    {| fta_signed_digest := digest 5;
       aggregate_signature_bytes := to_array 64 (arr (array_repeat 32 (byte 3)) ++ arr (as_bytes (digest 5)));
       group_verifying_key_bytes := array_repeat 32 (byte 3) |} = Ok tt.
Proof.
  intros pkg.
  apply (frost_rounds_sound (Hs:=toy_sha256) (Fr:=toy_frost) [(vid 1, [byte 1]); (vid 2, [byte 2])]
    [(vid 1, [byte 1]); (vid 2, [byte 2])] (toy_group 3) (digest 5) pkg (arr (as_bytes (digest 5))));
    vm_compute; reflexivity.
Defined.

Lemma frost_collect_approval_sound_witness :
  verify_signature (Fr:=toy_frost)
    {| fta_signed_digest := digest 5;
       aggregate_signature_bytes := to_array 64 (arr (array_repeat 32 (byte 3)) ++ arr (as_bytes (digest 5)));
       group_verifying_key_bytes := array_repeat 32 (byte 3) |} = Ok tt.
Proof.
  apply (frost_collect_approval_sound (Fr:=toy_frost) (fun i => [byte (Z.of_nat i)])
    [toy_participant 3 1; toy_participant 3 2] (digest 5) (toy_group 3) (MkQuorumSpec [] (n64 2))).
  vm_compute. reflexivity.
Defined.

(** Outputs under two group keys are accepted for one input. *)
Lemma dvrf_evaluate_verifies_witness :
  FrostDvRF_verify (Hs:=toy_sha256) (Fr:=toy_frost) toy_dvrf_input (toy_dvrf_output 3) = Ok tt /\
  FrostDvRF_verify (Hs:=toy_sha256) (Fr:=toy_frost) toy_dvrf_input (toy_dvrf_output 4) = Ok tt.
Proof.
  split.
  - apply (dvrf_evaluate_verifies (Hs:=toy_sha256) (Fr:=toy_frost) (toy_group 3) toy_dvrf_input
      [toy_participant 3 1; toy_participant 3 3]). apply is_ok_unwrap. vm_compute. reflexivity.
  - apply (dvrf_evaluate_verifies (Hs:=toy_sha256) (Fr:=toy_frost) (toy_group 4) toy_dvrf_input
      [toy_participant 4 1; toy_participant 4 3]). apply is_ok_unwrap. vm_compute. reflexivity.
Defined.
