(* ===== verification/Verify.v ===== *)
(** * Auxiliary verification

    Models [attestation/src/verify.rs] (the checks of an auxiliary verifier, with
    and without the proof chain) and [node/src/auxiliary.rs] (check, then
    sign). *)

From S2P Require Import Prelude Core Session Storage Attestation Threshold Dctls Network Errors Frost.

(** ** Auxiliary verifier (verify.rs) *)

Record VerificationPolicy := MkVerificationPolicy {
  allowed_engine_tags : list string;
  allowed_statement_tags : list string;
  max_session_duration_secs : u64
}.

Definition VerificationPolicy_permissive : VerificationPolicy :=
  {| allowed_engine_tags := ["prototype-attestation/v1"; "dx-dctls/commitment-v1"];
     allowed_statement_tags := [];
     max_session_duration_secs := u_of_Z 64 3600 |}.

Record VerificationResult := MkVerificationResult {
  vr_verifier_id : VerifierId;
  vr_package_digest : DigestBytes;
  approved : bool;
  failure_reason : option string
}.

Record AuxiliaryVerifier := MkAuxiliaryVerifier { av_verifier_id : VerifierId; policy : VerificationPolicy }.

Section Verifier.
Context {Hs : Sha256}.

(** The closure [fail] of the checks. *)
Definition check_fail (self : AuxiliaryVerifier) (package : AttestationPackage) (reason : string)
    : VerificationResult :=
  {| vr_verifier_id := av_verifier_id self; vr_package_digest := package_digest package;
     approved := false; failure_reason := Some reason |}.
Definition check_pass (self : AuxiliaryVerifier) (package : AttestationPackage) : VerificationResult :=
  {| vr_verifier_id := av_verifier_id self; vr_package_digest := package_digest package;
     approved := true; failure_reason := None |}.

Definition check (self : AuxiliaryVerifier) (package : AttestationPackage)
    (statement : StatementPayload) (now : UnixTimestamp) : VerificationResult :=
  let fail := check_fail self package in
  let sc := session_context package in
  let tc := transcript_commitments package in
  let ev := evidence package in
  (* check 1 *)
  if is_expired sc now then fail "session has expired"
  (* check 2 *)
  else if negb (bool_decide (session_digest sc = finalize (session_preimage (session_id sc) (prover_id sc)
                  (coordinator_id sc) (quorum sc) (epoch sc) (created_at sc) (expires_at sc) (nonce sc)))) then
    fail "session digest mismatch"
  (* check 3 *)
  else if negb (StatementPayload_verify_digest statement (session_transcript_digest tc)) then
    fail "statement digest does not match transcript"
  (* check 4 *)
  else if negb (bool_decide (package_digest package =
                  AttestationPackage_compute_digest (session_digest sc) (randomness_value package)
                    (session_transcript_digest tc) (evidence_digest ev))) then
    fail "package digest mismatch"
  (* check 5 *)
  else if negb (contains (allowed_engine_tags (policy self)) (engine_tag ev)) then
    fail ("engine tag '" +:+ engine_tag ev +:+ "' is not in policy")
  (* check 6 *)
  else if negb (length (allowed_statement_tags (policy self)) =? 0)%nat
          && negb (contains (allowed_statement_tags (policy self)) (derivation_tag statement)) then
    fail ("statement tag '" +:+ derivation_tag statement +:+ "' is not in policy")
  else
  (* check 7 *)
  let duration := u_saturating_sub (UnixTimestamp_0 (expires_at sc)) (UnixTimestamp_0 (created_at sc)) in
  if u_ltb (max_session_duration_secs (policy self)) duration then
    fail ("session duration " +:+ pretty (uval duration) +:+ "s exceeds policy maximum " +:+
          pretty (uval (max_session_duration_secs (policy self))) +:+ "s")
  (* check 8 *)
  else if negb (bool_decide (session_transcript_digest tc =
                  finalize (session_transcript_hasher (session_id sc) (tc_digest (tc_query tc))
                              (tc_digest (tc_response tc))))) then
    fail "session transcript digest is inconsistent with query/response commitments"
  (* check 9 *)
  else if negb (bool_decide (evidence_digest ev =
                  finalize (evidence_hasher (engine_tag ev) (ev_bytes ev)))) then
    fail "evidence digest is inconsistent with engine tag and bytes"
  else check_pass self package.

Definition check_full {Fr : FrostEd25519} (now_secs : u64) (self : AuxiliaryVerifier)
    (package : AttestationPackage) (statement : StatementPayload) (dctls_evidence : DctlsEvidence)
    (dvrf_output : DvRFOutput) (dvrf_input : DvRFInput) (server_cert_hash : DigestBytes)
    (query response : bytes) (now : UnixTimestamp) : VerificationResult :=
  let basic := check self package statement now in
  if negb (approved basic) then basic
  else
  let fail := check_fail self package in
  (* check 10 *)
  match FrostDvRF_verify dvrf_input dvrf_output with
  | Err e => fail ("DVRF proof verification failed: " +:+ DvRFError_to_string e)
  | Ok _ =>
  (* check 11 *)
  match verify_hsp_proof now_secs (hsp_proof dctls_evidence) (dvrf_value dvrf_output) server_cert_hash with
  | Err e => fail ("HSP proof verification failed: " +:+ DctlsError_to_string e)
  | Ok _ =>
  (* check 12 *)
  match verify_query_record (query_record dctls_evidence) query response with
  | Err e => fail ("QP proof verification failed: " +:+ DctlsError_to_string e)
  | Ok _ =>
  (* check 13 *)
  match verify_pgp_proof (pgp_proof dctls_evidence) (dvrf_value dvrf_output) (hsp_proof dctls_evidence) with
  | Err e => fail ("PGP proof verification failed: " +:+ DctlsError_to_string e)
  | Ok _ =>
  (* check 14 *)
  if negb (bool_decide (randomness_value package = dvrf_value dvrf_output)) then
    fail "package randomness_value does not match DVRF output"
  else
  (* check 15 *)
  match verify_transcript_consistency (hsp_proof dctls_evidence) (query_record dctls_evidence)
          (pgp_proof dctls_evidence) with
  | Err e => fail ("transcript binding consistency check failed: " +:+ DctlsError_to_string e)
  | Ok _ => check_pass self package
  end end end end end.
End Verifier.

(** ** Auxiliary verifier node (auxiliary.rs) *)

Section Node.
Context {Hs : Sha256} {Ed : Ed25519}.

Record AuxiliaryVerifierNode := MkAuxNode { verifier : AuxiliaryVerifier; signer : ThresholdSigner }.

Definition AuxiliaryVerifierNode_new (signer : ThresholdSigner) (p : VerificationPolicy) : AuxiliaryVerifierNode :=
  {| verifier := MkAuxiliaryVerifier (signer_verifier_id signer) p; signer := signer |}.

Definition verify_and_sign (self : AuxiliaryVerifierNode) (package : AttestationPackage)
    (statement : StatementPayload) (claimed_envelope_digest : DigestBytes) (now : UnixTimestamp)
    : result NodeError PartialSignature :=
  let result := check (verifier self) package statement now in
  if negb (approved result) then
    Err (NodeAttestation (EvidenceVerificationFailed (default EmptyString (failure_reason result))))
  else
    let signed_digest := approval_signed_digest claimed_envelope_digest in
    map_err NodeCrypto (sign_partial (signer self) (arr (as_bytes signed_digest))).
End Node.

(** ** Properties *)

Section VerifyProps.
Context {Hs : Sha256}.

(** The nine conditions of [check]. *)
Record package_ok (pol : VerificationPolicy) (p : AttestationPackage) (st : StatementPayload)
    (now : UnixTimestamp) : Prop := {
  ok_expiry : uval (UnixTimestamp_0 now) <= uval (UnixTimestamp_0 (expires_at (session_context p)));
  ok_session : session_digest (session_context p) = context_digest (session_context p);
  ok_statement : statement_digest st = derive_statement_digest (derivation_tag st)
    (session_transcript_digest (transcript_commitments p)) (content st);
  ok_package : package_digest p = AttestationPackage_compute_digest (session_digest (session_context p))
    (randomness_value p) (session_transcript_digest (transcript_commitments p)) (evidence_digest (evidence p));
  ok_engine : engine_tag (evidence p) ∈ allowed_engine_tags pol;
  ok_tag : allowed_statement_tags pol = [] \/ derivation_tag st ∈ allowed_statement_tags pol;
  ok_duration : uval (UnixTimestamp_0 (expires_at (session_context p)))
    - uval (UnixTimestamp_0 (created_at (session_context p))) <= uval (max_session_duration_secs pol);
  ok_transcript : session_transcript_digest (transcript_commitments p) =
    finalize (session_transcript_hasher (session_id (session_context p))
      (tc_digest (tc_query (transcript_commitments p))) (tc_digest (tc_response (transcript_commitments p))));
  ok_evidence : evidence_digest (evidence p) =
    finalize (evidence_hasher (engine_tag (evidence p)) (ev_bytes (evidence p)))
}.

Lemma check_approved_iff v p st now : approved (check v p st now) = true <-> package_ok (policy v) p st now.
Proof.
  assert (Hnil : forall l : list string, (length l =? 0)%nat = true <-> l = []).
  { intros [|]; simpl; split; done. }
  unfold check, is_expired, has_expired, u_ltb.
  destruct (Z.ltb_spec (uval (UnixTimestamp_0 (expires_at (session_context p)))) (uval (UnixTimestamp_0 now)))
    as [|H1]; [split; [done | intros []; lia]|].
  case_bool_decide as H2; cbn [negb]; [|split; [done | by intros []]].
  destruct (StatementPayload_verify_digest _ _) eqn:H3; cbn [negb].
  2:{ split; [done|]. intros []. apply not_true_iff_false in H3. exfalso. apply H3. by apply bool_decide_eq_true. }
  case_bool_decide as H4; cbn [negb]; [|split; [done | by intros []]].
  unfold contains. case_bool_decide as H5; cbn [negb]; [|split; [done | by intros []]].
  destruct (length (allowed_statement_tags (policy v)) =? 0)%nat eqn:H6; cbn [negb andb];
    [apply Hnil in H6 | case_bool_decide as H6'; cbn [negb];
       [|split; [done|]; intros [????? [Hn| ] ???]; [apply Hnil in Hn; congruence | done]]].
  all: destruct (Z.ltb_spec (uval (max_session_duration_secs (policy v)))
      (uval (u_saturating_sub (UnixTimestamp_0 (expires_at (session_context p)))
        (UnixTimestamp_0 (created_at (session_context p)))))) as [H7|H7]; rewrite uval_saturating_sub in H7;
    [split; [done | intros []; pose proof (uval_range (max_session_duration_secs (policy v))); lia]|].
  all: case_bool_decide as H8; cbn [negb]; [|split; [done | by intros []]].
  all: case_bool_decide as H9; cbn [negb]; [|split; [done | by intros []]].
  all: split; [|done]; intros _; constructor; try done; [by apply bool_decide_eq_true in H3 | by auto | lia].
Qed.

(** What an auxiliary verifier checks: [check] approves exactly the packages
    and statements that satisfy its nine conditions, namely the session is not
    expired, its digest, the statement digest, the package digest, the
    transcript digest and the evidence digest are the ones recomputed from the
    package, the engine tag is allowed, the statement tag is allowed or no tag
    is listed, and the session is not longer than the policy permits. *)
Theorem check_spec v p st now :
  approved (check v p st now) = true <-> package_ok (policy v) p st now.
Proof. apply check_approved_iff. Qed.

(** Completeness: a package assembled from a fresh session context, the
    output of the prototype engine and a derived statement is approved until
    the session expires, when the policy allows the engine, the tag and the
    duration. *)
Theorem check_accepts_honest_package v sid pid cid q ep ca ea n rand query response content_ tag tc ev now :
  let sc := SessionContext_new sid pid cid q ep ca ea n in
  PrototypeAttestationEngine sc rand query response = Ok (tc, ev) ->
  PROTOTYPE_ENGINE_TAG ∈ allowed_engine_tags (policy v) ->
  (allowed_statement_tags (policy v) = [] \/ tag ∈ allowed_statement_tags (policy v)) ->
  uval (UnixTimestamp_0 (expires_at sc)) - uval (UnixTimestamp_0 ca) <= uval (max_session_duration_secs (policy v)) ->
  uval (UnixTimestamp_0 now) <= uval (UnixTimestamp_0 (expires_at sc)) ->
  approved (check v (AttestationPackage_build sc rand tc ev)
    (StatementPayload_new content_ tag (session_transcript_digest tc)) now) = true.
Proof.
  intros sc [= <- <-] Heng Htag Hdur Hexp. apply check_approved_iff. by constructor.
Qed.

(** No vector of the package exceeds the largest allocation. *)
Definition package_fits (p : AttestationPackage) : Prop :=
  vec_fits (verifiers (quorum (session_context p))) /\
  vec_fits (string_bytes (engine_tag (evidence p))) /\ vec_fits (ev_bytes (evidence p)).

Definition package_preimages (p : AttestationPackage) : list bytes :=
  let sc := session_context p in let tc := transcript_commitments p in
  [inner (package_hasher (session_digest sc) (randomness_value p) (session_transcript_digest tc)
            (evidence_digest (evidence p)));
   context_preimage sc;
   inner (session_transcript_hasher (session_id sc) (tc_digest (tc_query tc)) (tc_digest (tc_response tc)));
   inner (evidence_hasher (engine_tag (evidence p)) (ev_bytes (evidence p)))].

(** The package digest identifies the package: two approved packages with
    the same digest agree on every field of the session context, the
    randomness, the query and response digests and the raw evidence, or one of
    the four recomputed hashes collides. *)
Theorem approved_package_digest_binding v1 v2 p1 p2 st1 st2 now1 now2 :
  package_fits p1 -> package_fits p2 ->
  approved (check v1 p1 st1 now1) = true -> approved (check v2 p2 st2 now2) = true ->
  package_digest p1 = package_digest p2 ->
  (session_context p1 = session_context p2 /\ randomness_value p1 = randomness_value p2 /\
   tc_digest (tc_query (transcript_commitments p1)) = tc_digest (tc_query (transcript_commitments p2)) /\
   tc_digest (tc_response (transcript_commitments p1)) = tc_digest (tc_response (transcript_commitments p2)) /\
   evidence p1 = evidence p2) \/
  collides (zip (package_preimages p1) (package_preimages p2)).
Proof.
  intros (Hv1 & Ht1 & Hb1) (Hv2 & Ht2 & Hb2) Hc1%check_approved_iff Hc2%check_approved_iff Hd.
  rewrite (ok_package _ _ _ _ Hc1), (ok_package _ _ _ _ Hc2) in Hd. open_digest Hd 0%nat.
  unfold package_hasher in Hd. unfold_hasher Hd. apply (inj (domain_prefix _ ++.)) in Hd.
  split_app Hd. simplify_enc. rename Henc into Hsess, Henc0 into Hrand, Henc1 into Htr, Hd into Hev.
  pose proof Hsess as Hsd. rewrite (ok_session _ _ _ _ Hc1), (ok_session _ _ _ _ Hc2) in Hsess.
  open_digest Hsess 1%nat. apply context_preimage_inj in Hsess; [|done..].
  rewrite (ok_transcript _ _ _ _ Hc1), (ok_transcript _ _ _ _ Hc2) in Htr. open_digest Htr 2%nat.
  unfold session_transcript_hasher in Htr. unfold_hasher Htr. apply (inj (domain_prefix _ ++.)) in Htr.
  split_app Htr. simplify_enc.
  pose proof Hev as Hed. rewrite (ok_evidence _ _ _ _ Hc1), (ok_evidence _ _ _ _ Hc2) in Hev.
  open_digest Hev 3%nat. unfold evidence_hasher in Hev. unfold_hasher Hev.
  apply (inj (domain_prefix _ ++.)) in Hev. split_enc Hev. simplify_enc. left. split_and!; try done.
  - destruct (session_context p1), (session_context p2). unfold same_fields in Hsess. simpl in *.
    destruct_and? Hsess. by subst.
  - destruct (evidence p1), (evidence p2). simpl in *. by subst.
Qed.

(** ** The proof chain *)

Context {Fr : FrostEd25519}.

Lemma check_full_approved_iff now_secs v p st ev out inp cert q a now :
  approved (check_full now_secs v p st ev out inp cert q a now) = true <->
  approved (check v p st now) = true /\ FrostDvRF_verify inp out = Ok tt /\
  randomness_value p = dvrf_value out /\
  exists b, verify_all now_secs ev (dvrf_value out) cert q a = Ok b.
Proof.
  setoid_rewrite verify_all_Ok. unfold check_full.
  destruct (approved (check v p st now)) eqn:Hc; cbn [negb]; [|rewrite Hc; naive_solver].
  destruct (FrostDvRF_verify inp out) as [[]|] eqn:H10; [|naive_solver].
  destruct (verify_hsp_proof _ _ _ _) as [[]|] eqn:H11; [|naive_solver].
  destruct (verify_query_record _ _ _) as [[]|] eqn:H12; [|naive_solver].
  destruct (verify_pgp_proof _ _ _) as [[]|] eqn:H13; [|naive_solver].
  case_bool_decide as H14; cbn [negb]; [|naive_solver].
  destruct (verify_transcript_consistency _ _ _) as [b|] eqn:H15; [|naive_solver].
  split; [|done]. intros _. eauto 10.
Qed.

(** [check_full] is the conjunction of [check], the DVRF verification, the
    verification of the evidence chain and the equality of the package's
    randomness with the DVRF output. Nothing ties the evidence to the package's
    session: evidence accepted with one package is accepted with every other
    package that passes [check] with the same randomness, whatever its session,
    its transcript commitments and its statement are. *)
Theorem check_full_evidence_transferable now_secs v p1 st1 p2 st2 ev out inp cert q a now :
  approved (check_full now_secs v p1 st1 ev out inp cert q a now) = true ->
  approved (check v p2 st2 now) = true ->
  randomness_value p2 = randomness_value p1 ->
  approved (check_full now_secs v p2 st2 ev out inp cert q a now) = true.
Proof.
  rewrite !check_full_approved_iff. intros (_ & Hd & Hr & Hall) Hc Heq. by rewrite Heq.
Qed.

(** C20. What [check_full] does guarantee: the evidence belongs to one session
    and to the package's randomness, commits to the given query and response,
    and its randomness is the hash of a signature over the given input by the
    key named in the proof. *)
Theorem check_full_sound now_secs v p st ev out inp cert q a now :
  approved (check_full now_secs v p st ev out inp cert q a now) = true ->
  package_ok (policy v) p st now /\
  hsp_session_id (hsp_proof ev) = qr_session_id (query_record ev) /\
  hsp_session_id (hsp_proof ev) = pgp_session_id (pgp_proof ev) /\
  hsp_rand_value (hsp_proof ev) = randomness_value p /\
  qr_rand_value (query_record ev) = randomness_value p /\
  query_commitment (query_record ev) =
    finalize (query_hasher (hsp_session_id (hsp_proof ev)) (randomness_value p) q) /\
  response_commitment (query_record ev) =
    finalize (response_hasher (hsp_session_id (hsp_proof ev)) (randomness_value p) a) /\
  qp_transcript_commitment (pgp_proof ev) = transcript_commitment (query_record ev) /\
  randomness_value p = finalize (dvrf_output_hasher (aggregate_signature (dvrf_proof out))) /\
  exists vk sig, vk_deserialize (group_verifying_key (dvrf_proof out)) = Ok vk /\
    sig_deserialize (aggregate_signature (dvrf_proof out)) = Ok sig /\
    frost_verify vk (arr (as_bytes (alpha inp))) sig = Ok tt.
Proof.
  intros (Hc%check_approved_iff & Hd & -> & b & Hall)%check_full_approved_iff.
  apply verify_all_Ok in Hall as (Hh & Hq & Hp & Hb).
  apply verify_hsp_proof_Ok in Hh as (_ & Hr & _).
  apply verify_query_record_Ok in Hq as (Hqc & Hrc & _).
  apply verify_transcript_consistency_Ok in Hb as (_ & Hs1 & Hs2 & Hrr & Htc & _).
  unfold FrostDvRF_verify in Hd. case_bool_decide as Ha; cbn [negb] in Hd; [|done].
  apply bind_Ok in Hd as (vk & Hvk%map_err_Ok & Hd). apply bind_Ok in Hd as (sig & Hsig%map_err_Ok & Hd).
  apply bind_Ok in Hd as ([] & Hver%map_err_Ok & Hd). case_bool_decide as Hv; cbn [negb] in Hd; [|done].
  split_and!; try done; try congruence. eauto.
Qed.

End VerifyProps.

Section NodeProps.
Context {Hs : Sha256} {Ed : Ed25519}.

Lemma verify_and_sign_Ok kp pol p st d now ps :
  verify_and_sign (AuxiliaryVerifierNode_new (PrototypeThresholdSigner kp) pol) p st d now = Ok ps <->
  package_ok pol p st now /\
  ps = {| ps_verifier_id := kp_verifier_id kp;
          ps_bytes := arr (sign_raw kp (arr (as_bytes (approval_signed_digest d)))) |}.
Proof.
  unfold verify_and_sign. cbn [AuxiliaryVerifierNode_new verifier signer].
  pose proof (check_approved_iff (MkAuxiliaryVerifier (kp_verifier_id kp) pol) p st now) as Hiff.
  cbn [policy] in Hiff. rewrite <- Hiff. cbn [PrototypeThresholdSigner signer_verifier_id sign_partial].
  destruct (approved _); cbn [negb map_err]; split.
  - by intros [= <-].
  - by intros [_ ->].
  - done.
  - by intros [].
Qed.

(** An auxiliary node signs exactly when its nine checks pass, and its partial
    signature is one that aggregation accepts under the node's key; the digest it
    signs is the one the coordinator claims. For one approved package the node
    signs every claimed envelope digest, since it neither computes the envelope
    digest nor compares it with the claim. *)
Theorem aux_node_signs_claimed_digest kp pol p st now pks :
  find_key pks (kp_verifier_id kp) = Some (kp_verifying_key kp) ->
  let node := AuxiliaryVerifierNode_new (PrototypeThresholdSigner kp) pol in
  (forall d ps, verify_and_sign node p st d now = Ok ps ->
     package_ok pol p st now /\ ps_verifier_id ps = kp_verifier_id kp /\
     valid_signature pks (approval_signed_digest d) (ps_verifier_id ps, ps_bytes ps)) /\
  (package_ok pol p st now -> forall d, exists ps, verify_and_sign node p st d now = Ok ps).
Proof.
  intros Hkey node. split.
  - intros d ps [Hok ->]%verify_and_sign_Ok. split_and!; [done..|].
    eexists _, _. split_and!; [exact Hkey | reflexivity | apply ed_sign_verify].
  - intros Hok d. eexists. apply verify_and_sign_Ok. by split.
Qed.
End NodeProps.

(** ** Concrete instances *)

Definition permissive_verifier : AuxiliaryVerifier := MkAuxiliaryVerifier (vid 1) VerificationPolicy_permissive.

Definition example_package : AttestationPackage :=
  AttestationPackage_build (Hs:=toy_sha256) example_context (digest 1)
    (TranscriptCommitments_build (Hs:=toy_sha256) (session_id example_context) (digest 1)
       (string_bytes "GET /") (string_bytes "200"))
    (ExportableEvidence_new (Hs:=toy_sha256) PROTOTYPE_ENGINE_TAG
       (prototype_evidence_bytes (session_id example_context) (string_bytes "GET /") (string_bytes "200"))).
Definition example_statement : StatementPayload :=
  StatementPayload_new (Hs:=toy_sha256) (string_bytes "200") "http"
    (session_transcript_digest (transcript_commitments example_package)).
Definition example_now : UnixTimestamp := created_at example_context.

Lemma check_accepts_honest_package_witness :
  approved (check (Hs:=toy_sha256) permissive_verifier example_package example_statement example_now) = true.
Proof.
  apply (check_accepts_honest_package (Hs:=toy_sha256) permissive_verifier (session_id example_context)
    (prover_id example_context) (coordinator_id example_context) (quorum example_context)
    (epoch example_context) (created_at example_context) (expires_at example_context) (nonce example_context)
    (digest 1) (string_bytes "GET /") (string_bytes "200") (string_bytes "200") "http").
  - reflexivity.
  - apply (bool_decide_unpack _). vm_compute. exact I.
  - left. reflexivity.
  - vm_compute. discriminate.
  - vm_compute. discriminate.
Defined.

Lemma approved_package_digest_binding_witness :
  approved (check (Hs:=toy_sha256) permissive_verifier example_package example_statement example_now) = true /\
  (session_context example_package = session_context example_package \/
   collides (Hs:=toy_sha256) (zip (package_preimages example_package) (package_preimages example_package))).
Proof.
  assert (Hc : approved (check (Hs:=toy_sha256) permissive_verifier example_package example_statement
    example_now) = true) by (vm_compute; reflexivity).
  assert (Hfits : package_fits example_package) by (split_and!; vm_compute; reflexivity).
  split; [exact Hc|].
  destruct (approved_package_digest_binding (Hs:=toy_sha256) permissive_verifier permissive_verifier
    example_package example_package example_statement example_statement example_now example_now
    Hfits Hfits Hc Hc eq_refl) as [(Hsc & _)|Hcol]; [left; exact Hsc | right; exact Hcol].
Defined.

(** A context for session [z], a package for it and evidence for it, all with the
    randomness of [toy_dvrf_output 3]. *)
Definition session_ctx (z : Z) : SessionContext :=
  SessionContext_new (Hs:=toy_sha256) (sid z) (prover_id example_context) (coordinator_id example_context)
    (quorum example_context) (epoch example_context) (created_at example_context)
    (expires_at example_context) (nonce example_context).
Definition session_package (z : Z) : AttestationPackage :=
  AttestationPackage_build (Hs:=toy_sha256) (session_ctx z) (dvrf_value (toy_dvrf_output 3))
    (TranscriptCommitments_build (Hs:=toy_sha256) (sid z) (dvrf_value (toy_dvrf_output 3))
       (string_bytes "GET /") (string_bytes "200"))
    (ExportableEvidence_new (Hs:=toy_sha256) PROTOTYPE_ENGINE_TAG []).
Definition session_statement (z : Z) : StatementPayload :=
  StatementPayload_new (Hs:=toy_sha256) (string_bytes "200") "http"
    (session_transcript_digest (transcript_commitments (session_package z))).
Definition session_evidence (z : Z) : DctlsEvidence :=
  match execute_dctls (Hs:=toy_sha256) (fun _ => None) (session_ctx z) (dvrf_value (toy_dvrf_output 3))
          (string_bytes "GET /") (string_bytes "200") (digest 2) with
  | Ok (_, _, dev) => dev
  | Err _ => example_dctls
  end.

Lemma session_evidence_checked :
  approved (check_full (Hs:=toy_sha256) (Fr:=toy_frost) (n64 1500) permissive_verifier (session_package 1)
    (session_statement 1) (session_evidence 1) (toy_dvrf_output 3) toy_dvrf_input (digest 2)
    (string_bytes "GET /") (string_bytes "200") example_now) = true.
Proof. vm_compute. reflexivity. Qed.

(** Evidence of session 1 accepted for the package of session 2. *)
Lemma check_full_evidence_transferable_witness :
  hsp_session_id (hsp_proof (session_evidence 1)) <> session_id (session_context (session_package 2)) /\
  approved (check_full (Hs:=toy_sha256) (Fr:=toy_frost) (n64 1500) permissive_verifier (session_package 2)
    (session_statement 2) (session_evidence 1) (toy_dvrf_output 3) toy_dvrf_input (digest 2)
    (string_bytes "GET /") (string_bytes "200") example_now) = true.
Proof.
  split; [apply (bool_decide_unpack _); vm_compute; exact I|].
  apply (check_full_evidence_transferable (Hs:=toy_sha256) (Fr:=toy_frost) (n64 1500) permissive_verifier
    (session_package 1) (session_statement 1)).
  - exact session_evidence_checked.
  - vm_compute. reflexivity.
  - reflexivity.
Defined.

Lemma check_full_sound_witness :
  hsp_rand_value (hsp_proof (session_evidence 1)) = randomness_value (session_package 1).
Proof.
  apply (check_full_sound (Hs:=toy_sha256) (Fr:=toy_frost) (n64 1500) permissive_verifier (session_package 1)
    (session_statement 1) (session_evidence 1) (toy_dvrf_output 3) toy_dvrf_input (digest 2)
    (string_bytes "GET /") (string_bytes "200") example_now session_evidence_checked).
Defined.

Lemma aux_node_signs_claimed_digest_witness :
  exists ps, verify_and_sign (Hs:=toy_sha256)
    (AuxiliaryVerifierNode_new (PrototypeThresholdSigner (toy_kp 1)) VerificationPolicy_permissive)
    example_package example_statement (digest 66) example_now = Ok ps.
Proof.
  apply (aux_node_signs_claimed_digest (Hs:=toy_sha256) (Ed:=toy_ed25519) (toy_kp 1)
    VerificationPolicy_permissive example_package example_statement example_now toy_keys).
  - vm_compute. reflexivity.
  - apply (check_approved_iff (Hs:=toy_sha256) permissive_verifier). vm_compute. reflexivity.
Defined.
