(* ===== verification/Sha256Gadget.v ===== *)
(** * SHA-256 as a circuit

    Models [zk/src/sha256_gadget.rs] and proves it equal to a definition of
    SHA-256 after FIPS 180-4.

    The variables of a constraint system come from the external crate
    [ark-r1cs-std]: the class [ArkBits]. A variable is considered under an
    assignment that satisfies the constraints the crate's operations add, so it has
    a value and bits; the laws state what the crate documents for each operation:
    the result of an operation has the value computed from its arguments in every
    such assignment, and a new witness variable has the value it is assigned. The
    gadgets of this file are functions of variables, so what is proved of them
    holds for every assignment; circuits that allocate witnesses are run under an
    assignment ([HmacGadget], [CoSnark]). The constraint system handle is left out. *)

From S2P Require Import Prelude.

(** ** Bits *)

(** Value of a little-endian bit string. *)
Fixpoint bits_val (l : list bool) : Z :=
  match l with [] => 0 | b :: l' => Z.b2z b + 2 * bits_val l' end.

Lemma bits_val_range l : 0 <= bits_val l < 2 ^ Z.of_nat (length l).
Proof.
  induction l as [|b l IH]; cbn [bits_val length]; [simpl; lia|].
  rewrite Nat2Z.inj_succ, Z.pow_succ_r by lia. destruct b; cbn [Z.b2z]; lia.
Qed.

Lemma testbit_bits_val l i : Z.testbit (bits_val l) (Z.of_nat i) = nth i l false.
Proof.
  revert i; induction l as [|b l IH]; intros i; cbn [bits_val].
  - rewrite Z.bits_0. by destruct i.
  - rewrite Z.add_comm. destruct i as [|i]; cbn [nth].
    + by rewrite Z.testbit_0_r.
    + by rewrite Nat2Z.inj_succ, Z.testbit_succ_r, IH by lia.
Qed.

Lemma bits_val_ext l x : 0 <= x ->
  (forall i, nth i l false = Z.testbit x (Z.of_nat i)) -> bits_val l = x.
Proof.
  intros Hx Hl. apply Z.bits_inj'. intros i Hi. rewrite <- (Z2Nat.id i) by done.
  by rewrite testbit_bits_val, Hl.
Qed.

Lemma bits_val_app l k : bits_val (l ++ k) = bits_val l + 2 ^ Z.of_nat (length l) * bits_val k.
Proof.
  induction l as [|b l IH]; cbn [bits_val app length]; [simpl; lia|].
  rewrite IH, Nat2Z.inj_succ, Z.pow_succ_r by lia. lia.
Qed.

Lemma bits_val_false n : bits_val (replicate n false) = 0.
Proof. induction n as [|n IH]; cbn [replicate bits_val]; [done|]. rewrite IH. done. Qed.

Lemma bits_val_and l k : length l = length k ->
  bits_val (zip_with andb l k) = Z.land (bits_val l) (bits_val k).
Proof.
  intros Hlen. apply bits_val_ext.
  - apply Z.land_nonneg. left. apply bits_val_range.
  - intros i. rewrite Z.land_spec, !testbit_bits_val.
    revert i k Hlen. induction l as [|b l IH]; intros i [|c k]; simpl; intros Hlen; try done.
    + by destruct i.
    + injection Hlen as Hlen. destruct i; [done|]. by apply IH.
Qed.

Lemma bits_val_not l : bits_val (negb <$> l) = 2 ^ Z.of_nat (length l) - 1 - bits_val l.
Proof.
  induction l as [|b l IH]; csimpl; [done|]. rewrite IH, Nat2Z.inj_succ, Z.pow_succ_r by lia.
  destruct b; cbn [negb Z.b2z]; lia.
Qed.

Lemma bits_val_drop n l : bits_val (drop n l) = bits_val l / 2 ^ Z.of_nat n.
Proof.
  revert l; induction n as [|n IH]; intros l.
  - by rewrite Z.pow_0_r, Z.div_1_r.
  - destruct l as [|b l]; cbn [drop bits_val]; [by rewrite Z.div_0_l by lia|].
    rewrite IH, Nat2Z.inj_succ, Z.pow_succ_r by lia.
    rewrite <- Z.div_div by lia. f_equal.
    apply (Z.div_unique _ _ _ (Z.b2z b)); [destruct b; simpl; lia | lia].
Qed.

(** ** Circuit variables (ark-r1cs-std) *)

(** Rotation of a 32-bit word to the right. *)
Definition rotr32 (x : Z) (n : nat) : Z :=
  x / 2 ^ Z.of_nat n + (x mod 2 ^ Z.of_nat n) * 2 ^ (32 - Z.of_nat n).

Definition Z_sum (l : list Z) : Z := fold_right Z.add 0 l.

Class ArkBits := {
  UInt32 : Type;
  u32_value : UInt32 -> u32;
  u32_to_bits_le : UInt32 -> list bool;
  u32_from_bits_le : list bool -> UInt32;
  u32_xor : UInt32 -> UInt32 -> UInt32;
  u32_rotr : UInt32 -> nat -> UInt32;
  u32_addmany : list UInt32 -> UInt32;
  u32_constant : u32 -> UInt32;
  u32_new_witness : u32 -> UInt32;
  UInt8 : Type;
  u8_value : UInt8 -> u8;
  u8_to_bits_le : UInt8 -> list bool;
  u8_from_bits_le : list bool -> UInt8;
  u8_xor_var : UInt8 -> UInt8 -> UInt8;
  u8_constant : u8 -> UInt8;
  u8_new_witness : u8 -> UInt8;
  u32_bits_length x : length (u32_to_bits_le x) = 32%nat;
  u32_bits_value x : bits_val (u32_to_bits_le x) = uval (u32_value x);
  u32_from_bits_value l : length l = 32%nat -> uval (u32_value (u32_from_bits_le l)) = bits_val l;
  u32_xor_value a b : uval (u32_value (u32_xor a b)) = Z.lxor (uval (u32_value a)) (uval (u32_value b));
  u32_rotr_value a n : (n < 32)%nat -> uval (u32_value (u32_rotr a n)) = rotr32 (uval (u32_value a)) n;
  u32_addmany_value l : (2 <= length l <= 10)%nat ->
    uval (u32_value (u32_addmany l)) = Z_sum ((fun x => uval (u32_value x)) <$> l) mod 2 ^ 32;
  u32_constant_value c : u32_value (u32_constant c) = c;
  u32_witness_value c : u32_value (u32_new_witness c) = c;
  u8_bits_length x : length (u8_to_bits_le x) = 8%nat;
  u8_bits_value x : bits_val (u8_to_bits_le x) = uval (u8_value x);
  u8_from_bits_value l : length l = 8%nat -> uval (u8_value (u8_from_bits_le l)) = bits_val l;
  u8_xor_value a b : u8_value (u8_xor_var a b) = u8_xor (u8_value a) (u8_value b);
  u8_constant_value c : u8_value (u8_constant c) = c;
  u8_witness_value c : u8_value (u8_new_witness c) = c
}.

(** ** The gadget (sha256_gadget.rs) *)

Definition SHA256_H : list u32 := u_of_Z 32 <$>
  [0x6a09e667; 0xbb67ae85; 0x3c6ef372; 0xa54ff53a; 0x510e527f; 0x9b05688c; 0x1f83d9ab; 0x5be0cd19].

(** Row by row. *)
Definition SHA256_K : list u32 := u_of_Z 32 <$> concat [
   [0x428a2f98; 0x71374491; 0xb5c0fbcf; 0xe9b5dba5];
   [0x3956c25b; 0x59f111f1; 0x923f82a4; 0xab1c5ed5];
   [0xd807aa98; 0x12835b01; 0x243185be; 0x550c7dc3];
   [0x72be5d74; 0x80deb1fe; 0x9bdc06a7; 0xc19bf174];
   [0xe49b69c1; 0xefbe4786; 0x0fc19dc6; 0x240ca1cc];
   [0x2de92c6f; 0x4a7484aa; 0x5cb0a9dc; 0x76f988da];
   [0x983e5152; 0xa831c66d; 0xb00327c8; 0xbf597fc7];
   [0xc6e00bf3; 0xd5a79147; 0x06ca6351; 0x14292967];
   [0x27b70a85; 0x2e1b2138; 0x4d2c6dfc; 0x53380d13];
   [0x650a7354; 0x766a0abb; 0x81c2c92e; 0x92722c85];
   [0xa2bfe8a1; 0xa81a664b; 0xc24b8b70; 0xc76c51a3];
   [0xd192e819; 0xd6990624; 0xf40e3585; 0x106aa070];
   [0x19a4c116; 0x1e376c08; 0x2748774c; 0x34b0bcb5];
   [0x391c0cb3; 0x4ed8aa4a; 0x5b9cca4f; 0x682e6ff3];
   [0x748f82ee; 0x78a5636f; 0x84c87814; 0x8cc70208];
   [0x90befffa; 0xa4506ceb; 0xbef9a3f7; 0xc67178f2]].

(** [while padded.len() % 64 != 56 { padded.push(0) }]: at most 63 zeros. *)
Fixpoint pad_zeros (fuel : nat) (padded : bytes) : bytes :=
  match fuel with
  | O => padded
  | S f => if negb (length padded mod 64 =? 56)%nat then pad_zeros f (padded ++ [byte 0]) else padded
  end.

Definition sha256_pad (msg : bytes) : bytes :=
  let bit_len := Z.of_nat (length msg) * 8 in
  pad_zeros 64 (msg ++ [byte 0x80]) ++ u64_be (u_of_Z 64 bit_len).

(** [&padded[b*64 .. (b+1)*64]] for [b in 0..num_blocks]. *)
Definition block_at {A} (padded : list A) (b : nat) : list A := take 64 (drop (b * 64) padded).

(** [&block[4*i .. 4*i+4]] *)
Definition word_at {A} (block : list A) (i : nat) : list A := take 4 (drop (4 * i) block).

Definition parse_block_native (block : bytes) : list u32 :=
  (fun i => u_of_Z 32 (be_val (word_at block i))) <$> seq 0 16.

Section Gadget.
Context {Ark : ArkBits}.

Definition zero32 : UInt32 := u32_constant (u_of_Z 32 0).

Definition shr32 (x : UInt32) (n : nat) : UInt32 :=
  let bits := u32_to_bits_le x in
  u32_from_bits_le ((fun i => if (i <? 32 - n)%nat then nth (i + n) bits false else false) <$> seq 0 32).

Definition and32 (a b : UInt32) : UInt32 :=
  u32_from_bits_le (zip_with andb (u32_to_bits_le a) (u32_to_bits_le b)).

Definition not32 (x : UInt32) : UInt32 := u32_from_bits_le (negb <$> u32_to_bits_le x).

Definition ch (e f g : UInt32) : UInt32 :=
  let ef := and32 e f in
  let ne_g := and32 (not32 e) g in
  u32_xor ef ne_g.

Definition maj (a b c : UInt32) : UInt32 :=
  let ab := and32 a b in
  let ac := and32 a c in
  let bc := and32 b c in
  u32_xor (u32_xor ab ac) bc.

Definition sigma_upper_0 (a : UInt32) : UInt32 := u32_xor (u32_xor (u32_rotr a 2) (u32_rotr a 13)) (u32_rotr a 22).
Definition sigma_upper_1 (e : UInt32) : UInt32 := u32_xor (u32_xor (u32_rotr e 6) (u32_rotr e 11)) (u32_rotr e 25).
Definition sigma_lower_0 (x : UInt32) : UInt32 := u32_xor (u32_xor (u32_rotr x 7) (u32_rotr x 18)) (shr32 x 3).
Definition sigma_lower_1 (x : UInt32) : UInt32 := u32_xor (u32_xor (u32_rotr x 17) (u32_rotr x 19)) (shr32 x 10).

(** The working variables [a..h], and the state words. *)
Record vars (W : Type) := MkVars { va : W; vb : W; vc : W; vd : W; ve : W; vf : W; vg : W; vh : W }.
Global Arguments MkVars {W} va vb vc vd ve vf vg vh.
Global Arguments va {W} v.
Global Arguments vb {W} v.
Global Arguments vc {W} v.
Global Arguments vd {W} v.
Global Arguments ve {W} v.
Global Arguments vf {W} v.
Global Arguments vg {W} v.
Global Arguments vh {W} v.

Definition vars_list {W} (s : vars W) : list W := [va s; vb s; vc s; vd s; ve s; vf s; vg s; vh s].
Definition vars_map {A B} (f : A -> B) (s : vars A) : vars B :=
  MkVars (f (va s)) (f (vb s)) (f (vc s)) (f (vd s)) (f (ve s)) (f (vf s)) (f (vg s)) (f (vh s)).

(** Message schedule: [for i in 16..64 { w.push(...) }]. *)
Definition schedule_step (w : list UInt32) (i : nat) : list UInt32 :=
  let s1 := sigma_lower_1 (nth (i - 2) w zero32) in
  let s0 := sigma_lower_0 (nth (i - 15) w zero32) in
  w ++ [u32_addmany [s1; nth (i - 7) w zero32; s0; nth (i - 16) w zero32]].
Definition schedule (block : list UInt32) : list UInt32 := fold_left schedule_step (seq 16 48) block.

Definition round_step (w : list UInt32) (s : vars UInt32) (i : nat) : vars UInt32 :=
  let ki := u32_constant (nth i SHA256_K (u_of_Z 32 0)) in
  let s1 := sigma_upper_1 (ve s) in
  let ch_ := ch (ve s) (vf s) (vg s) in
  let t1 := u32_addmany [vh s; s1; ch_; ki; nth i w zero32] in
  let s0 := sigma_upper_0 (va s) in
  let maj_ := maj (va s) (vb s) (vc s) in
  let t2 := u32_addmany [s0; maj_] in
  {| vh := vg s; vg := vf s; vf := ve s; ve := u32_addmany [vd s; t1];
     vd := vc s; vc := vb s; vb := va s; va := u32_addmany [t1; t2] |}.

Definition sha256_compress (state : vars UInt32) (block : list UInt32) : vars UInt32 :=
  let w := schedule block in
  let s := fold_left (round_step w) (seq 0 64) state in
  MkVars (u32_addmany [va state; va s]) (u32_addmany [vb state; vb s])
    (u32_addmany [vc state; vc s]) (u32_addmany [vd state; vd s])
    (u32_addmany [ve state; ve s]) (u32_addmany [vf state; vf s])
    (u32_addmany [vg state; vg s]) (u32_addmany [vh state; vh s]).

Definition initial_state : vars UInt32 :=
  let h i := u32_constant (nth i SHA256_H (u_of_Z 32 0)) in
  MkVars (h 0%nat) (h 1%nat) (h 2%nat) (h 3%nat) (h 4%nat) (h 5%nat) (h 6%nat) (h 7%nat).

Definition sha256_gadget (msg : bytes) : vars UInt32 :=
  let padded := sha256_pad msg in
  let num_blocks := (length padded / 64)%nat in
  fold_left (fun state b =>
    let native_words := parse_block_native (block_at padded b) in
    let block_vars := u32_new_witness <$> native_words in
    sha256_compress state block_vars) (seq 0 num_blocks) initial_state.

Definition state_to_bytes (state : vars UInt32) : bytes :=
  concat ((fun w => u32_be (u32_value w)) <$> vars_list state).

Definition word_byte_vars (word : UInt32) : list UInt8 :=
  let bits := u32_to_bits_le word in
  (fun byte_idx => u8_from_bits_le ((fun bit => nth (byte_idx * 8 + bit) bits false) <$> seq 0 8))
    <$> [3; 2; 1; 0]%nat.
Definition state_to_byte_vars (state : vars UInt32) : list UInt8 :=
  concat (word_byte_vars <$> vars_list state).

(** The word of four byte variables, most significant first. *)
Definition block_word (block_byte_vars : list UInt8) (w : nat) : UInt32 :=
  let b0 := u8_to_bits_le (nth (4 * w) block_byte_vars (u8_constant (byte 0))) in
  let b1 := u8_to_bits_le (nth (4 * w + 1) block_byte_vars (u8_constant (byte 0))) in
  let b2 := u8_to_bits_le (nth (4 * w + 2) block_byte_vars (u8_constant (byte 0))) in
  let b3 := u8_to_bits_le (nth (4 * w + 3) block_byte_vars (u8_constant (byte 0))) in
  u32_from_bits_le (b3 ++ b2 ++ b1 ++ b0).

Definition sha256_from_byte_vars (input_vars : list UInt8) : list UInt8 :=
  let native_bytes := u8_value <$> input_vars in
  let padded := sha256_pad native_bytes in
  let num_blocks := (length padded / 64)%nat in
  let n_real := length input_vars in
  let padded_vars := input_vars ++ (u8_constant <$> drop n_real padded) in
  let state := fold_left (fun state b =>
      let block_byte_vars := block_at padded_vars b in
      sha256_compress state (block_word block_byte_vars <$> seq 0 16))
    (seq 0 num_blocks) initial_state in
  state_to_byte_vars state.
End Gadget.

(** ** SHA-256 after FIPS 180-4 *)

Module Fips.
(** Functions on 32-bit words (section 4.1.2). *)
Definition Ch (x y z : Z) : Z := Z.lxor (Z.land x y) (Z.land (2 ^ 32 - 1 - x) z).
Definition Maj (x y z : Z) : Z := Z.lxor (Z.lxor (Z.land x y) (Z.land x z)) (Z.land y z).
Definition shr (x : Z) (n : nat) : Z := x / 2 ^ Z.of_nat n.
Definition Sigma0 (x : Z) : Z := Z.lxor (Z.lxor (rotr32 x 2) (rotr32 x 13)) (rotr32 x 22).
Definition Sigma1 (x : Z) : Z := Z.lxor (Z.lxor (rotr32 x 6) (rotr32 x 11)) (rotr32 x 25).
Definition sigma0 (x : Z) : Z := Z.lxor (Z.lxor (rotr32 x 7) (rotr32 x 18)) (shr x 3).
Definition sigma1 (x : Z) : Z := Z.lxor (Z.lxor (rotr32 x 17) (rotr32 x 19)) (shr x 10).
Definition add (l : list Z) : Z := Z_sum l mod 2 ^ 32.

(** Constants (sections 4.2.2 and 5.3.3): the first 32 bits of the fractional
    parts of the cube roots of the first 64 primes, and of the square roots of
    the first 8. *)
Definition is_prime (n : nat) : bool := forallb (fun d => negb (n mod d =? 0)%nat) (seq 2 (n - 2)).
Definition first_primes (n : nat) : list Z := Z.of_nat <$> take n (List.filter is_prime (seq 2 310)).
(** The integer cube root of a number below [2 ^ 105], bit by bit. *)
Definition icbrt (n : Z) : Z :=
  fold_left (fun r b => let r' := r + 2 ^ Z.of_nat b in if r' ^ 3 <=? n then r' else r) (rev (seq 0 35)) 0.
Definition K : list Z := Eval vm_compute in (fun p => icbrt (p * 2 ^ 96) mod 2 ^ 32) <$> first_primes 64.
Definition initial_words : list Z := Eval vm_compute in (fun p => Z.sqrt (p * 2 ^ 64) mod 2 ^ 32) <$> first_primes 8.

(** Padding to a multiple of 512 bits (section 5.1.1). *)
Definition pad (msg : bytes) : bytes :=
  let l := Z.of_nat (length msg) in
  msg ++ [byte 0x80] ++ replicate (Z.to_nat ((55 - l) mod 64)) (byte 0) ++ be_bytes 8 (8 * l mod 2 ^ 64).

(** Message schedule (section 6.2.2, step 1), newest word first. *)
Fixpoint expand (n : nat) (w : list Z) : list Z :=
  match n with
  | O => w
  | S m => expand m (add [sigma1 (nth 1 w 0); nth 6 w 0; sigma0 (nth 14 w 0); nth 15 w 0] :: w)
  end.

(** One round (step 3). *)
Definition round (w : list Z) (s : vars Z) (t : nat) : vars Z :=
  let T1 := add [vh s; Sigma1 (ve s); Ch (ve s) (vf s) (vg s); nth t K 0; nth t w 0] in
  let T2 := add [Sigma0 (va s); Maj (va s) (vb s) (vc s)] in
  MkVars (add [T1; T2]) (va s) (vb s) (vc s) (add [vd s; T1]) (ve s) (vf s) (vg s).

Definition compress (H : vars Z) (block : list Z) : vars Z :=
  let w := rev (expand 48 (rev block)) in
  let s := fold_left (round w) (seq 0 64) H in
  MkVars (add [va H; va s]) (add [vb H; vb s]) (add [vc H; vc s]) (add [vd H; vd s])
    (add [ve H; ve s]) (add [vf H; vf s]) (add [vg H; vg s]) (add [vh H; vh s]).

Definition H0 : vars Z :=
  let h i := nth i initial_words 0 in
  MkVars (h 0%nat) (h 1%nat) (h 2%nat) (h 3%nat) (h 4%nat) (h 5%nat) (h 6%nat) (h 7%nat).

Definition block_words (block : bytes) : list Z := (fun t => be_val (word_at block t)) <$> seq 0 16.

Definition hash_state (msg : bytes) : vars Z :=
  let M := pad msg in
  fold_left (fun H i => compress H (block_words (block_at M i))) (seq 0 (length M / 64)) H0.

Definition sha256 (msg : bytes) : bytes := concat (be_bytes 4 <$> vars_list (hash_state msg)).
End Fips.

(** ** Correctness of the gadget *)

Lemma SHA256_K_fips : uval <$> SHA256_K = Fips.K.
Proof. vm_compute. reflexivity. Qed.
Lemma SHA256_H_fips : uval <$> SHA256_H = Fips.initial_words.
Proof. vm_compute. reflexivity. Qed.

Lemma nth_fmap_seq {A} (f : nat -> A) n i d : nth i (f <$> seq 0 n) d = if (i <? n)%nat then f i else d.
Proof.
  rewrite nth_lookup, list_lookup_fmap. destruct (Nat.ltb_spec i n).
  - by rewrite lookup_seq_lt.
  - by rewrite lookup_seq_ge.
Qed.

Lemma nth_fmap_default {A B} (f : A -> B) l i d : nth i (f <$> l) (f d) = f (nth i l d).
Proof. rewrite !nth_lookup, list_lookup_fmap. by destruct (l !! i). Qed.

Lemma fmap_concat {A B} (f : A -> B) (l : list (list A)) :
  f <$> concat l = concat (fmap (M:=list) f <$> l).
Proof. induction l as [|x l IH]; csimpl; [done|]. by rewrite <- IH, fmap_app. Qed.

Lemma take4_nth {A} (l : list A) k d :
  (k + 4 <= length l)%nat ->
  take 4 (drop k l) = [nth k l d; nth (k + 1) l d; nth (k + 2) l d; nth (k + 3) l d].
Proof.
  revert k. induction l as [|x l IH]; intros k Hk; [simpl in Hk; lia|].
  destruct k as [|k]; [|simpl; apply IH; simpl in Hk; lia].
  do 3 (destruct l as [|? l]; [simpl in Hk; lia|]). done.
Qed.

Lemma be_val_4 a b c d :
  be_val [a; b; c; d] = uval a * 2 ^ 24 + uval b * 2 ^ 16 + uval c * 2 ^ 8 + uval d.
Proof. rewrite !be_val_cons. cbn. lia. Qed.

(** *** Padding *)

Lemma pad_zeros_spec fuel l :
  (Z.to_nat ((56 - Z.of_nat (length l)) mod 64) <= fuel)%nat ->
  pad_zeros fuel l = l ++ replicate (Z.to_nat ((56 - Z.of_nat (length l)) mod 64)) (byte 0).
Proof.
  revert l. induction fuel as [|fuel IH]; intros l Hf; cbn [pad_zeros].
  - replace (Z.to_nat _) with 0%nat by lia. by rewrite app_nil_r.
  - assert (Hmod : Z.of_nat (length l mod 64) = Z.of_nat (length l) mod 64) by (by rewrite Nat2Z.inj_mod).
    destruct (Nat.eqb_spec (length l mod 64) 56) as [Heq|Hne]; cbn [negb].
    + assert (Hk : (56 - Z.of_nat (length l)) mod 64 = 0) by (rewrite Zminus_mod, <- Hmod, Heq; done).
      by rewrite Hk, app_nil_r.
    + assert (Hk : (56 - Z.of_nat (length l)) mod 64 <> 0).
      { intros H0. apply Hne, Nat2Z.inj. rewrite Hmod.
        rewrite Zminus_mod in H0. pose proof (Z.mod_pos_bound (Z.of_nat (length l)) 64).
        change (56 mod 64) with 56 in H0. apply Z.mod_divide in H0 as [k Hk]; lia. }
      assert (Hs : (56 - Z.of_nat (length (l ++ [byte 0]))) mod 64 = (56 - Z.of_nat (length l)) mod 64 - 1).
      { rewrite length_app, Nat2Z.inj_add. change (Z.of_nat (length [byte 0])) with 1.
        pose proof (Z.mod_pos_bound (56 - Z.of_nat (length l)) 64).
        symmetry. apply (Z.mod_unique _ _ ((56 - Z.of_nat (length l)) / 64)); [lia|].
        pose proof (Z.div_mod (56 - Z.of_nat (length l)) 64). lia. }
      rewrite IH by (rewrite Hs; lia). rewrite Hs, <- (assoc_L (++)). f_equal.
      pose proof (Z.mod_pos_bound (56 - Z.of_nat (length l)) 64).
      replace (Z.to_nat ((56 - Z.of_nat (length l)) mod 64))
        with (S (Z.to_nat ((56 - Z.of_nat (length l)) mod 64 - 1))) by lia. done.
Qed.

Lemma sha256_pad_fips msg : sha256_pad msg = Fips.pad msg.
Proof.
  unfold sha256_pad, Fips.pad.
  assert (Hm : (56 - Z.of_nat (length (msg ++ [byte 128]))) mod 64 = (55 - Z.of_nat (length msg)) mod 64).
  { rewrite length_app, Nat2Z.inj_add. change (Z.of_nat (length [byte 128])) with 1. f_equal. lia. }
  pose proof (Z.mod_pos_bound (55 - Z.of_nat (length msg)) 64).
  rewrite pad_zeros_spec by lia. rewrite Hm, <- !(assoc_L (++)). do 3 f_equal.
  unfold u64_be. rewrite uval_of_Z. f_equal. f_equal. lia.
Qed.

Lemma length_pad_fips msg : exists n, length (Fips.pad msg) = (64 * n)%nat /\ (0 < n)%nat.
Proof.
  unfold Fips.pad. rewrite !length_app, length_replicate, length_be_bytes. simpl length.
  pose proof (Z.mod_pos_bound (55 - Z.of_nat (length msg)) 64).
  pose proof (Z.div_mod (55 - Z.of_nat (length msg)) 64).
  exists (Z.to_nat (1 - (55 - Z.of_nat (length msg)) / 64)). lia.
Qed.

(** A block inside the padded message is complete. *)
Lemma length_block_at {A} (l : list A) n b : length l = (64 * n)%nat -> (b < n)%nat -> length (block_at l b) = 64%nat.
Proof. intros Hl Hb. unfold block_at. rewrite length_take, length_drop. lia. Qed.

Lemma block_at_fmap {A B} (f : A -> B) l b : f <$> block_at l b = block_at (f <$> l) b.
Proof. unfold block_at. by rewrite fmap_take, fmap_drop. Qed.

Section GadgetProps.
Context {Ark : ArkBits}.

(** The value of a word variable. *)
Definition wval (x : UInt32) : Z := uval (u32_value x).

Lemma wval_range x : 0 <= wval x < 2 ^ 32.
Proof. apply uval_range. Qed.

Lemma wval_xor a b : wval (u32_xor a b) = Z.lxor (wval a) (wval b).
Proof. apply u32_xor_value. Qed.
Lemma wval_and a b : wval (and32 a b) = Z.land (wval a) (wval b).
Proof.
  unfold wval, and32. rewrite u32_from_bits_value.
  - by rewrite bits_val_and, !u32_bits_value by (by rewrite !u32_bits_length).
  - by rewrite length_zip_with, !u32_bits_length.
Qed.
Lemma wval_not a : wval (not32 a) = 2 ^ 32 - 1 - wval a.
Proof.
  unfold wval, not32. rewrite u32_from_bits_value by (by rewrite length_fmap, u32_bits_length).
  by rewrite bits_val_not, u32_bits_length, u32_bits_value.
Qed.
Lemma wval_shr a n : wval (shr32 a n) = Fips.shr (wval a) n.
Proof.
  unfold wval, shr32, Fips.shr. rewrite u32_from_bits_value by (by rewrite length_fmap, length_seq).
  rewrite <- u32_bits_value. apply bits_val_ext.
  - apply Z.div_pos; [apply bits_val_range | lia].
  - intros i. rewrite nth_fmap_seq, Z.div_pow2_bits, <- Nat2Z.inj_add, testbit_bits_val by lia.
    pose proof (u32_bits_length a) as Hlen.
    destruct (Nat.ltb_spec i 32), (Nat.ltb_spec i (32 - n)); try done; symmetry; apply nth_overflow; lia.
Qed.
Lemma wval_rotr a n : (n < 32)%nat -> wval (u32_rotr a n) = rotr32 (wval a) n.
Proof. apply u32_rotr_value. Qed.
Lemma wval_addmany l : (2 <= length l <= 10)%nat -> wval (u32_addmany l) = Fips.add (wval <$> l).
Proof. apply u32_addmany_value. Qed.
Lemma wval_constant c : wval (u32_constant c) = uval c.
Proof. unfold wval. by rewrite u32_constant_value. Qed.

Lemma wval_ch e f g : wval (ch e f g) = Fips.Ch (wval e) (wval f) (wval g).
Proof. unfold ch, Fips.Ch. by rewrite wval_xor, !wval_and, wval_not. Qed.
Lemma wval_maj a b c : wval (maj a b c) = Fips.Maj (wval a) (wval b) (wval c).
Proof. unfold maj, Fips.Maj. by rewrite !wval_xor, !wval_and. Qed.
Lemma wval_Sigma0 a : wval (sigma_upper_0 a) = Fips.Sigma0 (wval a).
Proof. unfold sigma_upper_0, Fips.Sigma0. by rewrite !wval_xor, !wval_rotr by lia. Qed.
Lemma wval_Sigma1 a : wval (sigma_upper_1 a) = Fips.Sigma1 (wval a).
Proof. unfold sigma_upper_1, Fips.Sigma1. by rewrite !wval_xor, !wval_rotr by lia. Qed.
Lemma wval_sigma0 a : wval (sigma_lower_0 a) = Fips.sigma0 (wval a).
Proof. unfold sigma_lower_0, Fips.sigma0. by rewrite !wval_xor, !wval_rotr, wval_shr by lia. Qed.
Lemma wval_sigma1 a : wval (sigma_lower_1 a) = Fips.sigma1 (wval a).
Proof. unfold sigma_lower_1, Fips.sigma1. by rewrite !wval_xor, !wval_rotr, wval_shr by lia. Qed.

Lemma wval_nth w i : nth i (wval <$> w) 0 = wval (nth i w zero32).
Proof. rewrite <- (nth_fmap_default wval w i zero32). f_equal. unfold zero32. by rewrite wval_constant. Qed.

(** The schedule is the expansion of the standard, with the list reversed. *)
Lemma schedule_expand n w :
  (16 <= length w)%nat ->
  wval <$> fold_left schedule_step (seq (length w) n) w = rev (Fips.expand n (rev (wval <$> w))).
Proof.
  revert w. induction n as [|n IH]; intros w Hw; cbn [seq fold_left Fips.expand].
  - by rewrite rev_involutive.
  - replace (S (length w)) with (length (schedule_step w (length w)))
      by (unfold schedule_step; rewrite length_app; simpl; lia).
    rewrite IH by (unfold schedule_step; rewrite length_app; simpl; lia). do 2 f_equal.
    unfold schedule_step at 1. rewrite fmap_app, rev_app_distr. csimpl. f_equal.
    rewrite wval_addmany by (simpl; lia). csimpl. rewrite wval_sigma1, wval_sigma0.
    rewrite !rev_nth by (rewrite length_fmap; lia). rewrite length_fmap, !wval_nth.
    repeat f_equal; lia.
Qed.

Lemma round_step_value w s i :
  vars_map wval (round_step w s i) = Fips.round (wval <$> w) (vars_map wval s) i.
Proof.
  assert (Hk : nth i Fips.K 0 = uval (nth i SHA256_K (u_of_Z 32 0)))
    by (rewrite <- SHA256_K_fips; apply (nth_fmap_default uval SHA256_K i (u_of_Z 32 0))).
  unfold round_step, Fips.round, vars_map. cbn [va vb vc vd ve vf vg vh]. rewrite Hk.
  rewrite !wval_addmany by (simpl; lia). csimpl. rewrite !wval_addmany by (simpl; lia). csimpl.
  by rewrite wval_Sigma1, wval_ch, wval_Sigma0, wval_maj, wval_constant, wval_nth.
Qed.

Lemma rounds_value w s l :
  vars_map wval (fold_left (round_step w) l s) = fold_left (Fips.round (wval <$> w)) l (vars_map wval s).
Proof. revert s. induction l as [|i l IH]; intros s; cbn [fold_left]; [done|]. by rewrite IH, round_step_value. Qed.

Lemma sha256_compress_value state block :
  length block = 16%nat ->
  vars_map wval (sha256_compress state block) = Fips.compress (vars_map wval state) (wval <$> block).
Proof.
  intros Hlen. unfold sha256_compress, Fips.compress, schedule.
  pose proof (schedule_expand 48 block ltac:(lia)) as Hw. rewrite Hlen in Hw.
  rewrite <- Hw, <- rounds_value. unfold vars_map. cbn [va vb vc vd ve vf vg vh].
  by rewrite !wval_addmany by (simpl; lia).
Qed.

Lemma initial_state_value : vars_map wval initial_state = Fips.H0.
Proof.
  assert (Hh : forall i, nth i Fips.initial_words 0 = uval (nth i SHA256_H (u_of_Z 32 0)))
    by (intros i; rewrite <- SHA256_H_fips; apply (nth_fmap_default uval SHA256_H i (u_of_Z 32 0))).
  unfold initial_state, Fips.H0, vars_map. cbn [va vb vc vd ve vf vg vh]. by rewrite !wval_constant, !Hh.
Qed.

(** *** Bytes and words *)

Lemma word_byte_vars_value w : u8_value <$> word_byte_vars w = u32_be (u32_value w).
Proof.
  assert (Hb : forall k, u8_value (u8_from_bits_le
    ((fun bit => nth (k * 8 + bit) (u32_to_bits_le w) false) <$> seq 0 8)) = byte (wval w / 256 ^ Z.of_nat k)).
  { intros k. apply uint_eq. rewrite u8_from_bits_value by (by rewrite length_fmap, length_seq).
    unfold byte. rewrite uval_of_Z. unfold wval. rewrite <- u32_bits_value.
    change 256 with (2 ^ 8). rewrite <- Z.pow_mul_r by lia. change (Z.pos 8) with 8. apply bits_val_ext.
    - apply Z.mod_pos_bound. lia.
    - intros i. rewrite nth_fmap_seq. destruct (Nat.ltb_spec i 8).
      + rewrite Z.mod_pow2_bits_low, Z.div_pow2_bits by lia. rewrite <- testbit_bits_val. f_equal. lia.
      + by rewrite Z.mod_pow2_bits_high by lia. }
  unfold word_byte_vars. rewrite <- list_fmap_compose.
  rewrite (list_fmap_ext _ (fun k => byte (wval w / 256 ^ Z.of_nat k))) by (intros; apply Hb). done.
Qed.

Lemma state_to_byte_vars_value state : u8_value <$> state_to_byte_vars state = state_to_bytes state.
Proof.
  unfold state_to_byte_vars, state_to_bytes. rewrite fmap_concat, <- list_fmap_compose.
  f_equal. apply list_fmap_ext. intros _ w _. apply word_byte_vars_value.
Qed.

Lemma state_to_bytes_value state : state_to_bytes state = concat (be_bytes 4 <$> vars_list (vars_map wval state)).
Proof. done. Qed.

Lemma block_word_value vs w :
  length vs = 64%nat -> (w < 16)%nat -> wval (block_word vs w) = be_val (word_at (u8_value <$> vs) w).
Proof.
  intros Hlen Hw. unfold block_word, wval, word_at.
  rewrite u32_from_bits_value by (by rewrite !length_app, !u8_bits_length).
  rewrite !bits_val_app, !u8_bits_length, !u8_bits_value.
  rewrite (take4_nth _ _ (u8_value (u8_constant (byte 0)))) by (rewrite length_fmap; lia).
  rewrite !nth_fmap_default, be_val_4. lia.
Qed.

Lemma block_words_value vs :
  length vs = 64%nat -> wval <$> (block_word vs <$> seq 0 16) = Fips.block_words (u8_value <$> vs).
Proof.
  intros Hlen. unfold Fips.block_words. rewrite <- list_fmap_compose.
  apply list_fmap_ext. intros i t Ht. apply lookup_seq in Ht as [-> Ht]. simpl.
  rewrite block_word_value by lia. done.
Qed.

Lemma parse_block_value block :
  length block = 64%nat -> wval <$> (u32_new_witness <$> parse_block_native block) = Fips.block_words block.
Proof.
  intros Hlen. unfold parse_block_native, Fips.block_words. rewrite <- !list_fmap_compose.
  apply list_fmap_ext. intros i t Ht. apply lookup_seq in Ht as [-> Ht]. simpl. unfold wval.
  rewrite u32_witness_value. apply uval_of_Z_small.
  assert (Hl : length (word_at block i) = 4%nat) by (unfold word_at; rewrite length_take, length_drop; lia).
  pose proof (be_val_range (word_at block i)) as Hr. rewrite Hl in Hr. exact Hr.
Qed.

(** Absorbing the blocks of a padded message, given how each block is read. *)
Lemma absorb_value (read : nat -> list UInt32) M n :
  (forall b, (b < n)%nat -> length (read b) = 16%nat /\ wval <$> read b = Fips.block_words (block_at M b)) ->
  vars_map wval (fold_left (fun state b => sha256_compress state (read b)) (seq 0 n) initial_state) =
  fold_left (fun H i => Fips.compress H (Fips.block_words (block_at M i))) (seq 0 n) Fips.H0.
Proof.
  induction n as [|n IH]; intros Hread; [apply initial_state_value|].
  rewrite seq_S, !fold_left_app. cbn [fold_left]. rewrite Nat.add_0_l.
  destruct (Hread n) as [Hlen Hval]; [lia|].
  rewrite sha256_compress_value by done. rewrite Hval. f_equal. apply IH. intros; apply Hread; lia.
Qed.

Lemma sha256_vars_fips vs : u8_value <$> sha256_from_byte_vars vs = Fips.sha256 (u8_value <$> vs).
Proof.
  unfold sha256_from_byte_vars, Fips.sha256, Fips.hash_state.
  rewrite state_to_byte_vars_value, state_to_bytes_value, sha256_pad_fips. do 3 f_equal.
  destruct (length_pad_fips (u8_value <$> vs)) as (n & Hn & _).
  assert (Hdiv : (length (Fips.pad (u8_value <$> vs)) / 64)%nat = n)
    by (rewrite Hn, Nat.mul_comm; by apply Nat.div_mul).
  rewrite Hdiv.
  set (padded_vars := vs ++ (u8_constant <$> drop (length vs) (Fips.pad (u8_value <$> vs)))).
  assert (Hpv : u8_value <$> padded_vars = Fips.pad (u8_value <$> vs)).
  { unfold padded_vars. rewrite fmap_app, <- list_fmap_compose.
    rewrite (list_fmap_ext (u8_value ∘ u8_constant) id) by (intros; apply u8_constant_value).
    rewrite list_fmap_id. unfold Fips.pad. rewrite drop_app_ge by (by rewrite length_fmap).
    by rewrite length_fmap, Nat.sub_diag. }
  apply absorb_value. intros b Hb.
  assert (Hlen : length (block_at padded_vars b) = 64%nat)
    by (apply (length_block_at _ n); [by rewrite <- (length_fmap u8_value), Hpv | done]).
  split; [by rewrite length_fmap, length_seq|]. by rewrite block_words_value, block_at_fmap, Hpv.
Qed.

(** C10. The circuit for SHA-256 is SHA-256: for byte variables of any number, in
    every satisfying assignment, the output variables of
    [sha256_from_byte_vars] are the FIPS 180-4 hash of the input bytes. *)
Theorem sha256_circuit_correct vs : u8_value <$> sha256_from_byte_vars vs = Fips.sha256 (u8_value <$> vs).
Proof. apply sha256_vars_fips. Qed.

(** The gadget on native bytes also computes the FIPS 180-4 hash, so the two
    circuits agree on every message. *)
Theorem sha256_gadget_correct msg : state_to_bytes (sha256_gadget msg) = Fips.sha256 msg.
Proof.
  unfold sha256_gadget, Fips.sha256, Fips.hash_state. rewrite state_to_bytes_value, sha256_pad_fips.
  do 3 f_equal. destruct (length_pad_fips msg) as (n & Hn & _).
  rewrite Hn, Nat.mul_comm, Nat.div_mul by done.
  apply absorb_value. intros b Hb.
  assert (Hlen : length (block_at (Fips.pad msg) b) = 64%nat) by (by apply (length_block_at _ n)).
  split; [by unfold parse_block_native; rewrite !length_fmap, length_seq | by apply parse_block_value].
Qed.
End GadgetProps.

(** ** A concrete instance *)

(** Bits of a number, least significant first. *)
Definition bits_of (n : nat) (x : Z) : list bool := (fun i => Z.testbit x (Z.of_nat i)) <$> seq 0 n.

Lemma length_bits_of n x : length (bits_of n x) = n.
Proof. unfold bits_of. by rewrite length_fmap, length_seq. Qed.

Lemma bits_val_of n x : 0 <= x < 2 ^ Z.of_nat n -> bits_val (bits_of n x) = x.
Proof.
  intros Hx. apply bits_val_ext; [lia|]. intros i. unfold bits_of. rewrite nth_fmap_seq.
  destruct (Nat.ltb_spec i n); [done|]. symmetry.
  destruct (decide (x = 0)) as [->|]; [apply Z.bits_0|].
  apply Z.bits_above_log2; [lia|]. apply Z.log2_lt_pow2; [lia|].
  eapply Z.lt_le_trans; [apply Hx|]. apply Z.pow_le_mono_r; lia.
Qed.

Lemma rotr32_range x n : 0 <= x < 2 ^ 32 -> (n < 32)%nat -> 0 <= rotr32 x n < 2 ^ 32.
Proof.
  intros Hx Hn. unfold rotr32.
  assert (Hp : 2 ^ 32 = 2 ^ Z.of_nat n * 2 ^ (32 - Z.of_nat n)) by (rewrite <- Z.pow_add_r by lia; f_equal; lia).
  pose proof (Z.pow_pos_nonneg 2 (Z.of_nat n)). pose proof (Z.pow_pos_nonneg 2 (32 - Z.of_nat n)).
  pose proof (Z.mod_pos_bound x (2 ^ Z.of_nat n)).
  assert (0 <= x / 2 ^ Z.of_nat n < 2 ^ (32 - Z.of_nat n)).
  { split; [apply Z.div_pos; lia|]. apply Z.div_lt_upper_bound; lia. }
  nia.
Qed.

(** Variables that are their own values. *)
Definition value_ark : ArkBits.
Proof.
  refine {| UInt32 := u32; u32_value := id; u32_to_bits_le x := bits_of 32 (uval x);
            u32_from_bits_le l := u_of_Z 32 (bits_val l);
            u32_xor a b := u_of_Z 32 (Z.lxor (uval a) (uval b));
            u32_rotr a n := u_of_Z 32 (rotr32 (uval a) n);
            u32_addmany l := u_of_Z 32 (Z_sum (uval <$> l));
            u32_constant := id; u32_new_witness := id;
            UInt8 := u8; u8_value := id; u8_to_bits_le x := bits_of 8 (uval x);
            u8_from_bits_le l := u_of_Z 8 (bits_val l);
            u8_xor_var := u8_xor; u8_constant := id; u8_new_witness := id |}; unfold id; try done.
  - intros x. apply bits_val_of, (uval_range x).
  - intros l Hl. apply uval_of_Z_small. pose proof (bits_val_range l) as Hr. by rewrite Hl in Hr.
  - intros a b. apply uval_of_Z_small, lxor_range; [lia | apply (uval_range a) | apply (uval_range b)].
  - intros a n Hn. apply uval_of_Z_small, rotr32_range; [apply (uval_range a) | done].
  - intros x. apply bits_val_of, (uval_range x).
  - intros l Hl. apply uval_of_Z_small. pose proof (bits_val_range l) as Hr. by rewrite Hl in Hr.
Defined.

(** The test vector "abc" of the standard. *)
Lemma fips_sha256_abc :
  uval <$> Fips.sha256 (string_bytes "abc") =
  [0xba; 0x78; 0x16; 0xbf; 0x8f; 0x01; 0xcf; 0xea; 0x41; 0x41; 0x40; 0xde; 0x5d; 0xae; 0x22; 0x23;
   0xb0; 0x03; 0x61; 0xa3; 0x96; 0x17; 0x7a; 0x9c; 0xb4; 0x10; 0xff; 0x61; 0xf2; 0x00; 0x15; 0xad].
Proof. vm_compute. reflexivity. Qed.

Lemma sha256_circuit_correct_witness :
  u8_value (ArkBits:=value_ark) <$> sha256_from_byte_vars (Ark:=value_ark) (string_bytes "abc")
  = Fips.sha256 (string_bytes "abc").
Proof. exact (sha256_circuit_correct (Ark:=value_ark) (string_bytes "abc")). Defined.

Lemma sha256_gadget_correct_witness :
  state_to_bytes (Ark:=value_ark) (sha256_gadget (Ark:=value_ark) []) = Fips.sha256 [].
Proof. exact (sha256_gadget_correct (Ark:=value_ark) []). Defined.
