(* ===== verification/HmacGadget.v ===== *)
(** * HMAC and the TLS 1.2 PRF, natively and as circuits

    Models [zk/src/hmac_sha256_gadget.rs] and [zk/src/tls12_hmac.rs]: HMAC-SHA256,
    the function P_SHA256 with its loop, the derivation of master secret, key
    block and MAC key, and the two-party sharing of the MAC key.

    Circuits that allocate witnesses run in the monad [synth] under an
    [assignment] of values to the witness variables in the order of their
    allocation: the values the program itself supplies, or any list of bytes. An
    allocation takes a value of its own from the list, so what is proved for every
    list speaks of what the constraints allow and not of what this prover does.

    The crates [sha2] and [hmac] are the classes [Sha256] and [HmacSha256]; that
    they implement FIPS 180-4 and RFC 2104 are the hypotheses [sha2_is_fips] and
    [hmac_is_rfc2104] of the theorems that compare circuits with native code.
    The [while] loops run with [output_len] units of fuel: each iteration appends
    32 bytes. *)

From S2P Require Import Prelude Core Sha256Gadget.

Inductive SynthesisError := AssignmentMissing.

(** ** Synthesis under an assignment *)

(** The values of the byte witnesses of a constraint system, in the order of their
    allocation: those the program passes to [new_witness], as when a proof is made
    by this code, or any others, as when a prover fills in the witness himself. *)
Inductive assignment := Own | Given (values : bytes).

(** Synthesis threads what is left of the assignment. *)
Definition synth (A : Type) : Type := assignment -> result SynthesisError (A * assignment).
#[export] Instance synth_ret : MRet synth := fun A a w => Ok (a, w).
#[export] Instance synth_bind : MBind synth := fun A B k m w =>
  match m w with Ok (a, w') => k a w' | Err e => Err e end.
Definition lift {A} (r : result SynthesisError A) : synth A := fun w =>
  match r with Ok a => Ok (a, w) | Err e => Err e end.

(** [UInt8::new_witness(cs, || Ok(b))]: a new variable of its own. *)
Definition alloc_witness {Ark : ArkBits} (b : u8) : synth UInt8 := fun w =>
  match w with
  | Own => Ok (u8_new_witness b, Own)
  | Given (x :: rest) => Ok (u8_new_witness x, Given rest)
  | Given [] => Err AssignmentMissing
  end.

(** [bytes.iter().map(|&b| UInt8::new_witness(cs.clone(), || Ok(b))).collect::<Result<_, _>>()?] *)
Fixpoint alloc_witnesses {Ark : ArkBits} (l : bytes) : synth (list UInt8) :=
  match l with
  | [] => mret []
  | b :: rest => v ← alloc_witness b; vs ← alloc_witnesses rest; mret (v :: vs)
  end.

(** [supplies w l x w']: an allocation of [l] takes the values [x] from [w] and
    leaves [w']. *)
Inductive supplies : assignment -> bytes -> bytes -> assignment -> Prop :=
  | supplies_own l : supplies Own l l Own
  | supplies_given l x rest : length x = length l -> supplies (Given (x ++ rest)) l x (Given rest).

Lemma alloc_supplies {Ark : ArkBits} w l x w' :
  supplies w l x w' -> exists vars, alloc_witnesses l w = Ok (vars, w') /\ u8_value <$> vars = x.
Proof.
  destruct 1 as [l|l x rest Hlen].
  - induction l as [|b l (vars & IH & Hv)]; [by exists []|]. exists (u8_new_witness b :: vars). split.
    + cbn [alloc_witnesses]. unfold mbind, synth_bind. cbn [alloc_witness]. by rewrite IH.
    + cbn [fmap list_fmap]. by rewrite u8_witness_value, <- Hv.
  - revert l Hlen. induction x as [|a x IH]; intros [|b l] Hlen; [by exists []|done..|].
    injection Hlen as Hlen.
    destruct (IH l Hlen) as (vars & IHr & Hv). exists (u8_new_witness a :: vars). split.
    + cbn [alloc_witnesses app]. unfold mbind, synth_bind. cbn [alloc_witness]. by rewrite IHr.
    + cbn [fmap list_fmap]. by rewrite u8_witness_value, <- Hv.
Qed.

Lemma alloc_inv {Ark : ArkBits} l values vars w' :
  alloc_witnesses l (Given values) = Ok (vars, w') ->
  exists x rest, values = x ++ rest /\ length x = length l /\ w' = Given rest.
Proof.
  revert values vars. induction l as [|b l IH]; intros values vars; cbn [alloc_witnesses].
  - intros [= _ <-]. by exists [], values.
  - unfold mbind, synth_bind. destruct values as [|a values]; [done|]. cbn [alloc_witness].
    destruct (alloc_witnesses l (Given values)) as [[vs w]|] eqn:Hr; [|done]. intros [= _ <-].
    destruct (IH _ _ Hr) as (x & rest & -> & Hlen & ->). exists (a :: x), rest. cbn. by rewrite Hlen.
Qed.

Lemma bind_inv {A B} (m : synth A) (k : A -> synth B) w r :
  (m ≫= k) w = Ok r -> exists a w', m w = Ok (a, w') /\ k a w' = Ok r.
Proof. unfold mbind, synth_bind. destruct (m w) as [[a w']|]; [eauto|done]. Qed.

Lemma lift_inv {A} (r : result SynthesisError A) w a w' : lift r w = Ok (a, w') -> r = Ok a /\ w' = w.
Proof. unfold lift. destruct r; [by intros [= -> ->]|done]. Qed.

Lemma bind_run {A B} (m : synth A) (k : A -> synth B) w a w' : m w = Ok (a, w') -> (m ≫= k) w = k a w'.
Proof. unfold mbind, synth_bind. by intros ->. Qed.

(** ** RFC 2104 and RFC 5246 *)

Module Rfc.
Definition hmac_key_block (key : bytes) : bytes :=
  let k := if (64 <? length key)%nat then Fips.sha256 key else key in
  k ++ replicate (64 - length k) (byte 0).

Definition hmac (key data : bytes) : bytes :=
  let k := hmac_key_block key in
  let ipad := u8_xor (byte 0x36) <$> k in
  let opad := u8_xor (byte 0x5c) <$> k in
  Fips.sha256 (opad ++ Fips.sha256 (ipad ++ data)).

(** A(i) of P_hash (RFC 5246, section 5). *)
Fixpoint A (secret seed : bytes) (i : nat) : bytes :=
  match i with O => seed | S j => hmac secret (A secret seed j) end.

Definition P_block (secret seed : bytes) (i : nat) : bytes := hmac secret (A secret seed i ++ seed).

(** The first [n] bytes of P_SHA256(secret, seed). *)
Definition P_sha256 (secret seed : bytes) (n : nat) : bytes :=
  take n (concat (P_block secret seed <$> seq 1 ((n + 31) / 32))).
End Rfc.

Arguments Fips.sha256 msg : simpl never.
Arguments Rfc.hmac key data : simpl never.
Arguments Rfc.P_block secret seed i : simpl never.

(** ** Native code (tls12_hmac.rs) *)

Class HmacSha256 := hmac_sha256 : bytes -> bytes -> array 32.

Record ProverMacKeyShare := MkProverMacKeyShare { pmk_0 : array 32 }.
Record VerifierMacKeyShare := MkVerifierMacKeyShare { vmk_0 : array 32 }.
Record MacKey := MkMacKey { mk_0 : array 32 }.
Record PreMasterSecret := MkPreMasterSecret { pms_0 : array 48 }.

(** [p_share] is what the generator fills in. *)
Definition split_mac_key (k_mac : MacKey) (p_share : array 32) : ProverMacKeyShare * VerifierMacKeyShare :=
  let v_share := arr_xor (mk_0 k_mac) p_share in
  (MkProverMacKeyShare p_share, MkVerifierMacKeyShare v_share).

Definition combine_mac_key_shares (p : ProverMacKeyShare) (v : VerifierMacKeyShare) : MacKey :=
  MkMacKey (arr_xor (pmk_0 p) (vmk_0 v)).

Section Native.
Context {Hm : HmacSha256}.

Fixpoint prf_loop (fuel : nat) (secret label_seed a output : bytes) (output_len : nat) : bytes :=
  match fuel with
  | O => output
  | S f =>
      if (length output <? output_len)%nat then
        let a := arr (hmac_sha256 secret a) in
        let output := output ++ arr (hmac_sha256 secret (a ++ label_seed)) in
        prf_loop f secret label_seed a output output_len
      else output
  end.

Definition tls_prf_sha256 (secret label seed : bytes) (output_len : nat) : bytes :=
  let label_seed := label ++ seed in
  take output_len (prf_loop output_len secret label_seed label_seed [] output_len).

Definition tls12_key_expansion (master_secret : array 48) (client_random server_random : array 32) : array 128 :=
  let seed := arr server_random ++ arr client_random in
  to_array 128 (tls_prf_sha256 (arr master_secret) (string_bytes "key expansion") seed 128).

Definition derive_k_mac_from_pms (pms : PreMasterSecret) (client_random server_random : array 32) : MacKey :=
  let cr_sr := arr client_random ++ arr server_random in
  let master_secret := to_array 48 (tls_prf_sha256 (arr (pms_0 pms)) (string_bytes "master secret") cr_sr 48) in
  let key_block := tls12_key_expansion master_secret client_random server_random in
  MkMacKey (to_array 32 (take 32 (arr key_block))).

(** The key derived with randoms [cr1] and [sr1] for the master secret and [sr2]
    and [cr2] for the key expansion. *)
Definition prf_key (pms : PreMasterSecret) (cr1 sr1 sr2 cr2 : array 32) : array 32 :=
  let master_secret :=
    to_array 48 (tls_prf_sha256 (arr (pms_0 pms)) (string_bytes "master secret") (arr cr1 ++ arr sr1) 48) in
  to_array 32 (take 32 (arr (tls12_key_expansion master_secret cr2 sr2))).

Lemma derive_prf_key pms cr sr : derive_k_mac_from_pms pms cr sr = MkMacKey (prf_key pms cr sr sr cr).
Proof. done. Qed.
End Native.

Lemma arr_of_length n (l : bytes) : length l = n -> exists a : array n, l = arr a.
Proof. intros Hl. exists (to_array n l). by rewrite arr_to_array. Qed.
Lemma lengths_arr {n} (a b : array n) : length (arr a) = length (arr b).
Proof. by rewrite !length_arr. Qed.

(** ** Circuits (hmac_sha256_gadget.rs) *)

Record Tls12KeyMaterial := MkTls12KeyMaterial {
  client_write_mac_key : array 32;
  server_write_mac_key : array 32;
  client_write_key : array 16;
  server_write_key : array 16
}.

Section Circuits.
Context {Ark : ArkBits} {Hs : Sha256}.

(** [hmac_sha256_gadget] hashes native bytes with the gadget. *)
Definition hmac_sha256_gadget (key data : bytes) : bytes :=
  let k_block :=
    if (64 <? length key)%nat then arr (sha256_digest key) ++ replicate 32 (byte 0)
    else key ++ replicate (64 - length key) (byte 0) in
  let ipad_key := (fun b => u8_xor b (byte 0x36)) <$> k_block in
  let opad_key := (fun b => u8_xor b (byte 0x5c)) <$> k_block in
  let inner_bytes := state_to_bytes (sha256_gadget (ipad_key ++ data)) in
  state_to_bytes (sha256_gadget (opad_key ++ inner_bytes)).

Definition hmac_sha256_gadget_constrained (key_vars data_vars : list UInt8)
    : result SynthesisError (list UInt8) :=
  if (64 <? length key_vars)%nat then Err AssignmentMissing
  else
    let k_padded := key_vars ++ replicate (64 - length key_vars) (u8_constant (byte 0)) in
    let ipad_key := (fun b => u8_xor_var b (u8_constant (byte 0x36))) <$> k_padded in
    let opad_key := (fun b => u8_xor_var b (u8_constant (byte 0x5c))) <$> k_padded in
    let inner_hash := sha256_from_byte_vars (ipad_key ++ data_vars) in
    Ok (sha256_from_byte_vars (opad_key ++ inner_hash)).

Fixpoint prf_constrained_loop (fuel : nat) (secret_vars label_and_seed_vars a_prev output : list UInt8)
    (output_len : nat) : result SynthesisError (list UInt8) :=
  match fuel with
  | O => Ok output
  | S f =>
      if (length output <? output_len)%nat then
        a_i ← hmac_sha256_gadget_constrained secret_vars a_prev;
        block_out ← hmac_sha256_gadget_constrained secret_vars (a_i ++ label_and_seed_vars);
        prf_constrained_loop f secret_vars label_and_seed_vars a_i (output ++ block_out) output_len
      else Ok output
  end.

Definition tls_prf_p_sha256_constrained (secret_vars label_and_seed_vars : list UInt8) (output_len : nat)
    : result SynthesisError (list UInt8) :=
  output ← prf_constrained_loop output_len secret_vars label_and_seed_vars label_and_seed_vars [] output_len;
  Ok (take output_len output).

Definition tls12_master_secret_constrained (pms_vars : list UInt8) (client_random server_random : array 32)
    : synth (list UInt8) :=
  let label_vars := u8_constant <$> string_bytes "master secret" in
  cr_vars ← alloc_witnesses (arr client_random);
  sr_vars ← alloc_witnesses (arr server_random);
  lift (tls_prf_p_sha256_constrained pms_vars (label_vars ++ cr_vars ++ sr_vars) 48).

Definition tls12_key_expansion_constrained (ms_vars : list UInt8) (client_random server_random : array 32)
    : synth (list UInt8) :=
  let label_vars := u8_constant <$> string_bytes "key expansion" in
  sr_vars ← alloc_witnesses (arr server_random);
  cr_vars ← alloc_witnesses (arr client_random);
  lift (tls_prf_p_sha256_constrained ms_vars (label_vars ++ sr_vars ++ cr_vars) 96).

(** The same functions with native bytes between the hashes. *)
Fixpoint prf_gadget_loop (fuel : nat) (secret label_and_seed a_prev output : bytes) (output_len : nat) : bytes :=
  match fuel with
  | O => output
  | S f =>
      if (length output <? output_len)%nat then
        let a_i := hmac_sha256_gadget secret a_prev in
        let block_out := hmac_sha256_gadget secret (a_i ++ label_and_seed) in
        prf_gadget_loop f secret label_and_seed a_i (output ++ block_out) output_len
      else output
  end.

Definition tls_prf_p_sha256_gadget (secret label_and_seed : bytes) (output_len : nat) : bytes :=
  take output_len (prf_gadget_loop output_len secret label_and_seed label_and_seed [] output_len).

Definition tls12_master_secret_gadget (pre_master_secret : bytes) (client_random server_random : array 32) : array 48 :=
  let label_seed := string_bytes "master secret" ++ arr client_random ++ arr server_random in
  to_array 48 (tls_prf_p_sha256_gadget pre_master_secret label_seed 48).

Definition tls12_key_expansion_gadget (master_secret : array 48) (client_random server_random : array 32)
    : Tls12KeyMaterial :=
  let label_seed := string_bytes "key expansion" ++ arr server_random ++ arr client_random in
  let key_block := tls_prf_p_sha256_gadget (arr master_secret) label_seed 96 in
  {| client_write_mac_key := to_array 32 (take 32 key_block);
     server_write_mac_key := to_array 32 (take 32 (drop 32 key_block));
     client_write_key := to_array 16 (take 16 (drop 64 key_block));
     server_write_key := to_array 16 (take 16 (drop 80 key_block)) |}.
End Circuits.

(** ** The loop of P_SHA256 *)

Lemma length_fips_sha256 msg : length (Fips.sha256 msg) = 32%nat.
Proof. unfold Fips.sha256. by generalize (Fips.hash_state msg). Qed.

Lemma length_rfc_hmac k d : length (Rfc.hmac k d) = 32%nat.
Proof. apply length_fips_sha256. Qed.

(** The state of the loop after [i] iterations. *)
Definition p_prefix (secret seed : bytes) (i : nat) : bytes := concat (Rfc.P_block secret seed <$> seq 1 i).

Lemma length_p_prefix secret seed i : length (p_prefix secret seed i) = (32 * i)%nat.
Proof.
  unfold p_prefix. enough (Hk : forall k, length (concat (Rfc.P_block secret seed <$> seq k i)) = (32 * i)%nat)
    by apply Hk.
  induction i as [|i IH]; intros k; [done|].
  change (Rfc.P_block secret seed <$> seq k (S i)) with
    (Rfc.P_block secret seed k :: (Rfc.P_block secret seed <$> seq (S k) i)).
  cbn [concat]. rewrite length_app, IH. unfold Rfc.P_block. rewrite length_rfc_hmac. lia.
Qed.

Lemma p_prefix_S secret seed i :
  p_prefix secret seed (S i) = p_prefix secret seed i ++ Rfc.P_block secret seed (S i).
Proof. unfold p_prefix. rewrite seq_S, fmap_app, concat_app. cbn [fmap list_fmap concat]. by rewrite app_nil_r. Qed.

Lemma p_prefix_take secret seed i j n :
  (i <= j)%nat -> (n <= 32 * i)%nat -> take n (p_prefix secret seed j) = take n (p_prefix secret seed i).
Proof.
  intros Hij Hn. induction Hij as [|j Hij IH]; [done|].
  rewrite p_prefix_S, take_app_le; [done|]. rewrite length_p_prefix. lia.
Qed.

Lemma P_sha256_prefix secret seed n i :
  (n <= 32 * i)%nat -> Rfc.P_sha256 secret seed n = take n (p_prefix secret seed i).
Proof.
  intros Hn. unfold Rfc.P_sha256. fold (p_prefix secret seed ((n + 31) / 32)).
  assert (Hk : (n <= 32 * ((n + 31) / 32))%nat).
  { pose proof (Nat.div_mod (n + 31) 32). pose proof (Nat.mod_upper_bound (n + 31) 32). lia. }
  assert (Hki : ((n + 31) / 32 <= i)%nat) by (apply Nat.lt_succ_r, Nat.Div0.div_lt_upper_bound; lia).
  symmetry. by apply p_prefix_take.
Qed.

(** A loop that repeats the body of P_SHA256 until [n] bytes are there, with any
    implementation [H] of HMAC that agrees with the RFC for this secret. *)
Fixpoint p_loop (H : bytes -> bytes) (fuel : nat) (seed a output : bytes) (n : nat) : bytes :=
  match fuel with
  | O => output
  | S f => if (length output <? n)%nat
           then p_loop H f seed (H a) (output ++ H (H a ++ seed)) n
           else output
  end.

Lemma p_loop_spec H secret seed n fuel i :
  (forall d, H d = Rfc.hmac secret d) -> (n <= 32 * (i + fuel))%nat ->
  exists j, p_loop H fuel seed (Rfc.A secret seed i) (p_prefix secret seed i) n = p_prefix secret seed j /\
    (n <= 32 * j)%nat.
Proof.
  intros HH. revert i. induction fuel as [|fuel IH]; intros i Hn; cbn [p_loop]; [exists i; split; [done|lia]|].
  destruct (Nat.ltb_spec (length (p_prefix secret seed i)) n) as [Hlt|Hge]; rewrite length_p_prefix in *;
    [|exists i; split; [done|lia]].
  specialize (IH (S i) ltac:(lia)). rewrite p_prefix_S in IH. cbn [Rfc.A] in IH.
  unfold Rfc.P_block in IH. cbn [Rfc.A] in IH. by rewrite !HH.
Qed.

(** With [n] units of fuel the loop produces the first [n] bytes of P_SHA256. *)
Lemma p_loop_correct H secret seed n :
  (forall d, H d = Rfc.hmac secret d) ->
  take n (p_loop H n seed seed [] n) = Rfc.P_sha256 secret seed n.
Proof.
  intros HH. destruct (p_loop_spec H secret seed n n 0 HH ltac:(lia)) as (j & Hj & Hn).
  change (p_prefix secret seed 0) with (@nil u8) in Hj. cbn [Rfc.A] in Hj. rewrite Hj. symmetry. by apply P_sha256_prefix.
Qed.

Lemma length_P_sha256 secret seed n : length (Rfc.P_sha256 secret seed n) = n.
Proof. rewrite (P_sha256_prefix _ _ _ n) by lia. rewrite length_take, length_p_prefix. lia. Qed.

Lemma P_sha256_take secret seed n m : (n <= m)%nat -> take n (Rfc.P_sha256 secret seed m) = Rfc.P_sha256 secret seed n.
Proof.
  intros Hn. rewrite (P_sha256_prefix _ _ m m), (P_sha256_prefix _ _ n m) by lia.
  rewrite take_take. f_equal. lia.
Qed.

(** ** Circuits against the standards and the native code *)

Section AllocTwo.
Context {Ark : ArkBits}.

(** Two arrays are allocated one after the other by both circuits. *)
Lemma master_secret_inv pms_vars cr sr values out w :
  tls12_master_secret_constrained pms_vars cr sr (Given values) = Ok (out, w) ->
  exists (cr1 sr1 : array 32) rest, values = arr cr1 ++ arr sr1 ++ rest /\ w = Given rest.
Proof.
  unfold tls12_master_secret_constrained. cbv zeta.
  intros (v1 & w1 & (x & r1 & -> & Hx & ->)%alloc_inv & (v2 & w2 & (y & r2 & -> & Hy & ->)%alloc_inv & [_ ->]%lift_inv)%bind_inv)%bind_inv.
  rewrite length_arr in Hx, Hy. apply arr_of_length in Hx as [cr1 ->]. apply arr_of_length in Hy as [sr1 ->]. eauto.
Qed.
Lemma key_expansion_inv ms_vars cr sr values out w :
  tls12_key_expansion_constrained ms_vars cr sr (Given values) = Ok (out, w) ->
  exists (sr2 cr2 : array 32) rest, values = arr sr2 ++ arr cr2 ++ rest /\ w = Given rest.
Proof.
  unfold tls12_key_expansion_constrained. cbv zeta.
  intros (v1 & w1 & (x & r1 & -> & Hx & ->)%alloc_inv & (v2 & w2 & (y & r2 & -> & Hy & ->)%alloc_inv & [_ ->]%lift_inv)%bind_inv)%bind_inv.
  rewrite length_arr in Hx, Hy. apply arr_of_length in Hx as [sr2 ->]. apply arr_of_length in Hy as [cr2 ->]. eauto.
Qed.
End AllocTwo.

Section HmacProps.
Context {Ark : ArkBits} {Hs : Sha256} {Hm : HmacSha256}.

(** What the crates [sha2] and [hmac] document. *)
Hypothesis sha2_is_fips : forall l, arr (sha256_digest l) = Fips.sha256 l.
Hypothesis hmac_is_rfc2104 : forall k d, arr (hmac_sha256 k d) = Rfc.hmac k d.

Lemma fmap_xor_comm (c : u8) (l : bytes) : (fun b => u8_xor b c) <$> l = u8_xor c <$> l.
Proof. apply list_fmap_ext. intros _ b _. apply (comm u8_xor). Qed.

Lemma hmac_gadget_rfc key data : hmac_sha256_gadget key data = Rfc.hmac key data.
Proof using sha2_is_fips.
  unfold hmac_sha256_gadget, Rfc.hmac. rewrite !sha256_gadget_correct, !fmap_xor_comm.
  replace (if (64 <? length key)%nat then arr (sha256_digest key) ++ replicate 32 (byte 0)
    else key ++ replicate (64 - length key) (byte 0)) with (Rfc.hmac_key_block key); [done|].
  unfold Rfc.hmac_key_block. destruct (64 <? length key)%nat; [|done].
  by rewrite length_fips_sha256, sha2_is_fips.
Qed.

Lemma fmap_xor_var (c : u8) (l : list UInt8) :
  u8_value <$> ((fun b => u8_xor_var b (u8_constant c)) <$> l) = u8_xor c <$> (u8_value <$> l).
Proof.
  rewrite <- !list_fmap_compose. apply list_fmap_ext. intros _ b _. simpl.
  by rewrite u8_xor_value, u8_constant_value, (comm u8_xor).
Qed.

Lemma hmac_constrained_rfc key data :
  (length key <= 64)%nat ->
  exists out, hmac_sha256_gadget_constrained key data = Ok out /\
    u8_value <$> out = Rfc.hmac (u8_value <$> key) (u8_value <$> data).
Proof.
  intros Hlen. unfold hmac_sha256_gadget_constrained.
  rewrite (proj2 (Nat.ltb_ge _ _)) by done. eexists. split; [reflexivity|].
  rewrite sha256_vars_fips, (fmap_app u8_value), sha256_vars_fips, (fmap_app u8_value), !fmap_xor_var.
  unfold Rfc.hmac, Rfc.hmac_key_block. rewrite length_fmap, (proj2 (Nat.ltb_ge _ _)) by done.
  by rewrite fmap_app, fmap_replicate, u8_constant_value, length_fmap.
Qed.

(** The HMAC circuits compute HMAC: with native bytes for every key; with byte
    variables for every key of at most 64 bytes, in every satisfying
    assignment, while longer keys are refused with an error. *)
Theorem hmac_circuits_correct key data key_vars data_vars :
  hmac_sha256_gadget key data = arr (hmac_sha256 key data) /\
  ((length key_vars <= 64)%nat ->
   exists out, hmac_sha256_gadget_constrained key_vars data_vars = Ok out /\
     u8_value <$> out = arr (hmac_sha256 (u8_value <$> key_vars) (u8_value <$> data_vars))) /\
  ((64 < length key_vars)%nat -> hmac_sha256_gadget_constrained key_vars data_vars = Err AssignmentMissing).
Proof using sha2_is_fips hmac_is_rfc2104.
  split; [by rewrite hmac_gadget_rfc|]. split.
  - intros Hlen. destruct (hmac_constrained_rfc key_vars data_vars Hlen) as (out & Hout & Hval).
    exists out. by rewrite Hval.
  - intros Hlen. unfold hmac_sha256_gadget_constrained. by rewrite (proj2 (Nat.ltb_lt _ _)).
Qed.

Lemma prf_native_rfc secret label seed n :
  tls_prf_sha256 secret label seed n = Rfc.P_sha256 secret (label ++ seed) n.
Proof using hmac_is_rfc2104.
  unfold tls_prf_sha256.
  assert (Hloop : forall fuel a output,
    prf_loop fuel secret (label ++ seed) a output n =
    p_loop (Rfc.hmac secret) fuel (label ++ seed) a output n).
  { induction fuel as [|fuel IH]; intros a output; cbn [prf_loop p_loop]; [done|].
    rewrite !hmac_is_rfc2104. destruct (length output <? n)%nat; [apply IH | done]. }
  rewrite Hloop. by apply p_loop_correct.
Qed.

Lemma prf_gadget_rfc secret seed n : tls_prf_p_sha256_gadget secret seed n = Rfc.P_sha256 secret seed n.
Proof using sha2_is_fips.
  unfold tls_prf_p_sha256_gadget.
  assert (Hloop : forall fuel a output,
    prf_gadget_loop fuel secret seed a output n = p_loop (Rfc.hmac secret) fuel seed a output n).
  { induction fuel as [|fuel IH]; intros a output; cbn [prf_gadget_loop p_loop]; [done|].
    rewrite !hmac_gadget_rfc. destruct (length output <? n)%nat; [apply IH | done]. }
  rewrite Hloop. by apply p_loop_correct.
Qed.

Lemma prf_constrained_rfc secret seed sec sd n :
  (length secret <= 64)%nat -> u8_value <$> secret = sec -> u8_value <$> seed = sd ->
  exists out, tls_prf_p_sha256_constrained secret seed n = Ok out /\
    u8_value <$> out = Rfc.P_sha256 sec sd n.
Proof.
  intros Hlen <- <-. unfold tls_prf_p_sha256_constrained.
  assert (Hloop : forall fuel a output, exists out,
    prf_constrained_loop fuel secret seed a output n = Ok out /\
    u8_value <$> out = p_loop (Rfc.hmac (u8_value <$> secret)) fuel (u8_value <$> seed)
      (u8_value <$> a) (u8_value <$> output) n).
  { induction fuel as [|fuel IH]; intros a output; cbn [prf_constrained_loop p_loop]; [eauto|].
    rewrite length_fmap. destruct (length output <? n)%nat; [|eauto].
    destruct (hmac_constrained_rfc secret a Hlen) as (a' & -> & Ha). cbn [mbind result_bind].
    destruct (hmac_constrained_rfc secret (a' ++ seed) Hlen) as (o & -> & Ho). cbn [mbind result_bind].
    destruct (IH a' (output ++ o)) as (out & -> & Hout). exists out. split; [done|].
    by rewrite Hout, fmap_app, Ho, fmap_app, Ha. }
  destruct (Hloop n seed []) as (out & -> & Hout). cbn [mbind result_bind].
  eexists. split; [reflexivity|]. rewrite fmap_take, Hout. by apply p_loop_correct.
Qed.

Lemma fmap_witness_value (l : bytes) : u8_value <$> (u8_new_witness <$> l) = l.
Proof.
  rewrite <- list_fmap_compose. etrans; [|apply list_fmap_id].
  apply list_fmap_ext. intros _ b _. apply u8_witness_value.
Qed.
Lemma fmap_constant_value (l : bytes) : u8_value <$> (u8_constant <$> l) = l.
Proof.
  rewrite <- list_fmap_compose. etrans; [|apply list_fmap_id].
  apply list_fmap_ext. intros _ b _. apply u8_constant_value.
Qed.

(** The three implementations of the TLS 1.2 PRF agree and terminate with
    exactly the requested number of bytes: the native one, the gadget on native
    bytes, and the circuit on byte variables for secrets of at most 64 bytes
    all return the first [n] bytes of P_SHA256 of RFC 5246. *)
Theorem tls_prf_implementations_agree secret_vars label seed n :
  (length secret_vars <= 64)%nat ->
  let secret := u8_value <$> secret_vars in
  tls_prf_sha256 secret label seed n = Rfc.P_sha256 secret (label ++ seed) n /\
  tls_prf_p_sha256_gadget secret (label ++ seed) n = tls_prf_sha256 secret label seed n /\
  length (tls_prf_sha256 secret label seed n) = n /\
  exists out, tls_prf_p_sha256_constrained secret_vars
      ((u8_constant <$> label) ++ (u8_new_witness <$> seed)) n = Ok out /\
    u8_value <$> out = tls_prf_sha256 secret label seed n.
Proof using sha2_is_fips hmac_is_rfc2104.
  intros Hlen secret. rewrite prf_gadget_rfc, !prf_native_rfc, length_P_sha256. split_and!; try done.
  apply prf_constrained_rfc; [done..|]. by rewrite fmap_app, fmap_constant_value, fmap_witness_value.
Qed.

Lemma seeded_prf_run secret sec label l1 l2 x1 x2 w w1 w2 n :
  (length secret <= 64)%nat -> u8_value <$> secret = sec -> supplies w l1 x1 w1 -> supplies w1 l2 x2 w2 ->
  exists out,
    (v1 ← alloc_witnesses l1; v2 ← alloc_witnesses l2;
     lift (tls_prf_p_sha256_constrained secret ((u8_constant <$> string_bytes label) ++ v1 ++ v2) n)) w = Ok (out, w2) /\
    u8_value <$> out = Rfc.P_sha256 sec (string_bytes label ++ x1 ++ x2) n.
Proof.
  intros Hlen Hsec (v1 & Hr1 & Hv1)%alloc_supplies (v2 & Hr2 & Hv2)%alloc_supplies.
  rewrite (bind_run _ _ _ _ _ Hr1), (bind_run _ _ _ _ _ Hr2).
  assert (Hseed : u8_value <$> ((u8_constant <$> string_bytes label) ++ v1 ++ v2) = string_bytes label ++ x1 ++ x2).
  { by rewrite fmap_app, (fmap_app u8_value v1), fmap_constant_value, Hv1, Hv2. }
  destruct (prf_constrained_rfc secret _ _ _ n Hlen Hsec Hseed) as (out & -> & Hout). by exists out.
Qed.

(** The two circuits run one after the other take four values for the randoms: each
    stage allocates its own copies. *)
Lemma k_mac_constrained pms_vars pms cr sr cr1 sr1 sr2 cr2 w w1 w2 w3 w4 :
  u8_value <$> pms_vars = arr (pms_0 pms) ->
  supplies w (arr cr) (arr cr1) w1 -> supplies w1 (arr sr) (arr sr1) w2 ->
  supplies w2 (arr sr) (arr sr2) w3 -> supplies w3 (arr cr) (arr cr2) w4 ->
  exists ms_vars kb_vars,
    tls12_master_secret_constrained pms_vars cr sr w = Ok (ms_vars, w2) /\
    tls12_key_expansion_constrained ms_vars cr sr w2 = Ok (kb_vars, w4) /\
    length kb_vars = 96%nat /\ u8_value <$> take 32 kb_vars = arr (prf_key pms cr1 sr1 sr2 cr2).
Proof using hmac_is_rfc2104.
  intros Hpms H1 H2 H3 H4. assert (Hlen : length pms_vars = 48%nat).
  { rewrite <- (length_fmap u8_value), Hpms. apply length_arr. }
  destruct (seeded_prf_run pms_vars _ "master secret" _ _ _ _ _ _ _ 48 ltac:(lia) Hpms H1 H2) as (ms & Hms & Hmsv).
  assert (Hmslen : length ms = 48%nat).
  { rewrite <- (length_fmap u8_value), Hmsv. apply length_P_sha256. }
  destruct (seeded_prf_run ms _ "key expansion" _ _ _ _ _ _ _ 96 ltac:(lia) Hmsv H3 H4) as (kb & Hkb & Hkbv).
  exists ms, kb. split_and!; [exact Hms|exact Hkb| |].
  - rewrite <- (length_fmap u8_value), Hkbv. apply length_P_sha256.
  - rewrite fmap_take, Hkbv. unfold prf_key, tls12_key_expansion.
    rewrite !prf_native_rfc. rewrite (arr_to_array 48) by apply length_P_sha256.
    rewrite (arr_to_array 128) by apply length_P_sha256.
    rewrite arr_to_array by (rewrite length_take, length_P_sha256; done).
    by rewrite !P_sha256_take by lia.
Qed.

(** C12. The circuit derives the MAC key the native code derives: from variables
    holding a pre-master secret, the master-secret circuit followed by the
    key-expansion circuit returns 96 variables, of which the first 32 hold
    [derive_k_mac_from_pms] of that secret and the same randoms. Under any other
    assignment of the randoms, of which each circuit allocates its own copies, they
    hold the key derived with the two pairs of randoms assigned. *)
Theorem circuit_derives_k_mac pms_vars pms client_random server_random :
  u8_value <$> pms_vars = arr (pms_0 pms) ->
  (exists ms_vars kb_vars,
    tls12_master_secret_constrained pms_vars client_random server_random Own = Ok (ms_vars, Own) /\
    tls12_key_expansion_constrained ms_vars client_random server_random Own = Ok (kb_vars, Own) /\
    length kb_vars = 96%nat /\
    u8_value <$> take 32 kb_vars = arr (mk_0 (derive_k_mac_from_pms pms client_random server_random))) /\
  (forall (cr1 sr1 sr2 cr2 : array 32) rest, exists ms_vars kb_vars w,
    tls12_master_secret_constrained pms_vars client_random server_random
      (Given (arr cr1 ++ arr sr1 ++ arr sr2 ++ arr cr2 ++ rest)) = Ok (ms_vars, w) /\
    tls12_key_expansion_constrained ms_vars client_random server_random w = Ok (kb_vars, Given rest) /\
    length kb_vars = 96%nat /\
    u8_value <$> take 32 kb_vars = arr (prf_key pms cr1 sr1 sr2 cr2)).
Proof using hmac_is_rfc2104.
  intros Hpms. split.
  - rewrite derive_prf_key. cbn [mk_0].
    exact (k_mac_constrained pms_vars pms client_random server_random client_random server_random server_random client_random
      _ _ _ _ _ Hpms (supplies_own _) (supplies_own _) (supplies_own _) (supplies_own _)).
  - intros cr1 sr1 sr2 cr2 rest.
    destruct (k_mac_constrained pms_vars pms client_random server_random cr1 sr1 sr2 cr2 _ _ _ _ _ Hpms
      (supplies_given _ _ (arr sr1 ++ arr sr2 ++ arr cr2 ++ rest) (lengths_arr _ _))
      (supplies_given _ _ _ (lengths_arr _ _)) (supplies_given _ _ _ (lengths_arr _ _))
      (supplies_given _ _ rest (lengths_arr _ _))) as (ms & kb & H). by exists ms, kb, (Given (arr sr2 ++ arr cr2 ++ rest)).
Qed.
End HmacProps.

(** Sharing of the MAC key is correct and hides it: combining the two shares
    returns the key, for every random string; and every verifier share arises
    for every key, so that one share alone excludes no key. *)
Theorem mac_key_sharing k r :
  (let '(p, v) := split_mac_key k r in combine_mac_key_shares p v = k) /\
  (forall v, exists! r', (split_mac_key k r').2 = v).
Proof.
  split.
  - destruct k as [k]. unfold split_mac_key, combine_mac_key_shares. cbn [pmk_0 vmk_0 mk_0]. f_equal.
    by rewrite (comm arr_xor k r), arr_xor_cancel_l.
  - intros [v]. exists (arr_xor (mk_0 k) v). unfold split_mac_key. cbn [snd]. split.
    + by rewrite arr_xor_cancel_l.
    + intros r' [= <-]. by rewrite arr_xor_cancel_l.
Qed.

(** ** Concrete instances *)

Definition fips_sha2 : Sha256 := fun l => to_array 32 (Fips.sha256 l).
Definition rfc_hmac : HmacSha256 := fun k d => to_array 32 (Rfc.hmac k d).

Lemma fips_sha2_law l : arr (sha256_digest (Sha256:=fips_sha2) l) = Fips.sha256 l.
Proof. apply arr_to_array, length_fips_sha256. Qed.
Lemma rfc_hmac_law k d : arr (hmac_sha256 (HmacSha256:=rfc_hmac) k d) = Rfc.hmac k d.
Proof. apply arr_to_array, length_rfc_hmac. Qed.

Lemma hmac_circuits_correct_witness :
  hmac_sha256_gadget (Ark:=value_ark) (Hs:=fips_sha2) (string_bytes "key") (string_bytes "data")
  = arr (hmac_sha256 (HmacSha256:=rfc_hmac) (string_bytes "key") (string_bytes "data")).
Proof.
  exact (proj1 (hmac_circuits_correct (Ark:=value_ark) (Hs:=fips_sha2) (Hm:=rfc_hmac) fips_sha2_law rfc_hmac_law
    (string_bytes "key") (string_bytes "data") [] [])).
Defined.

Lemma tls_prf_implementations_agree_witness :
  length (tls_prf_sha256 (Hm:=rfc_hmac) (string_bytes "secret") (string_bytes "label") [byte 1] 48) = 48%nat.
Proof.
  refine (proj1 (proj2 (proj2 (tls_prf_implementations_agree (Ark:=value_ark) (Hs:=fips_sha2) (Hm:=rfc_hmac)
    fips_sha2_law rfc_hmac_law (string_bytes "secret") (string_bytes "label") [byte 1] 48 _)))).
  vm_compute. lia.
Defined.

Lemma circuit_derives_k_mac_witness :
  let pms := MkPreMasterSecret (array_repeat 48 (byte 3)) in
  let r := array_repeat 32 (byte 1) in
  exists ms_vars kb_vars,
    tls12_master_secret_constrained (Ark:=value_ark) (arr (pms_0 pms)) r r Own = Ok (ms_vars, Own) /\
    tls12_key_expansion_constrained (Ark:=value_ark) ms_vars r r Own = Ok (kb_vars, Own) /\
    length kb_vars = 96%nat /\
    u8_value (ArkBits:=value_ark) <$> take 32 kb_vars = arr (mk_0 (derive_k_mac_from_pms (Hm:=rfc_hmac) pms r r)).
Proof.
  intros pms r.
  refine (proj1 (circuit_derives_k_mac (Ark:=value_ark) (Hm:=rfc_hmac) rfc_hmac_law (arr (pms_0 pms)) pms r r _)).
  vm_compute. reflexivity.
Defined.
