(* ===== verification/CoSnark.v ===== *)
(** * The co-SNARK layer

    Models [zk/src/tls_prf_circuit.rs] (packing of bytes into field elements and
    the two circuits), [zk/src/co_snark.rs] (proof generation and verification),
    [zk/src/co_snark_split.rs] (the two-party variant with masked shares) and
    [zk/src/mimc.rs].

    [TlsPrfCircuit] is synthesized under an assignment of its witness variables (see
    [HmacGadget]). [PgpBindingCircuit] allocates each field once, so its relation
    for all values of the fields is the one for all assignments.

    The scalar field of BN254 is modelled concretely. Groth16 is the external
    crate [ark-groth16]: the class [Groth16], whose laws are that serialization
    is inverted by deserialization and that proofs of satisfied circuits verify
    under the keys of one setup. X25519 is the class [X25519], with the
    agreement law of Diffie-Hellman. Randomness is an argument. *)

From S2P Require Import Prelude Core Sha256Gadget HmacGadget.

(** ** The scalar field of BN254 *)

Module Bn254.
Definition r : Z := 21888242871839275222246405745257275088548364400416034343698204186575808495617.

Record Fr := MkFr { fr_val : Z; fr_ok : SIs_true ((0 <=? fr_val) && (fr_val <? r)) }.

Lemma of_Z_ok z : (0 <=? z mod r) && (z mod r <? r) = true.
Proof. pose proof (Z.mod_pos_bound z r). unfold r in *. lia. Qed.

Definition of_Z (z : Z) : Fr := MkFr (z mod r) (SIs_true_intro _ (of_Z_ok z)).

Definition zero : Fr := of_Z 0.
Definition one : Fr := of_Z 1.
Definition add (a b : Fr) : Fr := of_Z (fr_val a + fr_val b).
Definition mul (a b : Fr) : Fr := of_Z (fr_val a * fr_val b).

Lemma Fr_eq a b : fr_val a = fr_val b -> a = b.
Proof. destruct a, b; simpl. by intros ->. Qed.
Lemma fr_val_range a : 0 <= fr_val a < r.
Proof. destruct a as [z Hz]; simpl. apply SIs_true_elim in Hz. lia. Qed.
Lemma of_Z_val a : of_Z (fr_val a) = a.
Proof. apply Fr_eq. simpl. apply Z.mod_small, fr_val_range. Qed.
Lemma of_Z_eq x y : of_Z x = of_Z y <-> x mod r = y mod r.
Proof. split; [by intros [= ?] | intros; by apply Fr_eq]. Qed.
Lemma add_of_Z x y : add (of_Z x) (of_Z y) = of_Z (x + y).
Proof. apply Fr_eq. simpl. symmetry. apply Zplus_mod. Qed.
Lemma mul_of_Z x y : mul (of_Z x) (of_Z y) = of_Z (x * y).
Proof. apply Fr_eq. simpl. symmetry. apply Zmult_mod. Qed.

#[export] Instance Fr_eq_dec : EqDecision Fr.
Proof.
  refine (fun a b => cast_if (decide (fr_val a = fr_val b))).
  - by apply Fr_eq.
  - abstract congruence.
Defined.

(** An element is [of_Z] of its value: reduces equations to integers. *)
Ltac to_Z := repeat match goal with a : Fr |- _ => rewrite <- (of_Z_val a); generalize (fr_val a); clear a; intros a end;
  repeat (rewrite add_of_Z || rewrite mul_of_Z).

Lemma add_comm a b : add a b = add b a.
Proof. to_Z. f_equal. lia. Qed.
Lemma add_cancel_r a b c : add a c = add b c <-> a = b.
Proof.
  split; [|by intros ->]. intros H%(f_equal fr_val). apply Fr_eq. revert H. simpl.
  pose proof (fr_val_range a). pose proof (fr_val_range b). intros Heq.
  rewrite <- (Z.mod_small (fr_val a) r), <- (Z.mod_small (fr_val b) r) by lia.
  replace (fr_val a) with (fr_val a + fr_val c - fr_val c) by lia.
  replace (fr_val b) with (fr_val b + fr_val c - fr_val c) by lia.
  by rewrite <- (Zminus_mod_idemp_l (fr_val a + _)), Heq, Zminus_mod_idemp_l.
Qed.
End Bn254.
Import Bn254.

(** Value of a little-endian byte string. *)
Definition le_val (l : bytes) : Z := fold_right (fun b acc => uval b + 256 * acc) 0 l.

(** [F::from_le_bytes_mod_order] *)
Definition from_le_bytes_mod_order (l : bytes) : Fr := of_Z (le_val l).

(** ** Packing (tls_prf_circuit.rs) *)

(** [b[31] &= 0x3F] *)
Definition clear_top_bits (b : bytes) : bytes := alter (fun x => byte (Z.land (uval x) 0x3F)) 31%nat b.

Definition bytes32_to_fr (bs : array 32) : Fr := from_le_bytes_mod_order (clear_top_bits (arr bs)).

Definition k_mac_commitment (k_mac : array 32) (rand_binding_fe : Fr) : Fr :=
  add (bytes32_to_fr k_mac) rand_binding_fe.

Definition pms_hash {Hs : Sha256} (pms : bytes) : Fr := bytes32_to_fr (sha256_digest pms).

(** [FpVar::from(bit)] *)
Definition bit_fe (b : bool) : Fr := if b then one else zero.

(** The loops of [pack_bytes_to_fpvar]: over the bits of a byte, which stops at
    254 bits, inside the loop over the bytes. *)
Fixpoint pack_bits (bits : list bool) (st : Fr * Fr * nat) : Fr * Fr * nat :=
  match bits with
  | [] => st
  | bit :: rest =>
      let '(result, coeff, bit_count) := st in
      if (254 <=? bit_count)%nat then st
      else pack_bits rest (add result (mul (bit_fe bit) coeff), add coeff coeff, S bit_count)
  end.

Definition pack_bytes_to_fpvar {Ark : ArkBits} (byte_vars : list UInt8) : Fr :=
  (fold_left (fun st b => pack_bits (u8_to_bits_le b) st) byte_vars (zero, one, 0%nat)).1.1.

(** ** Circuits *)

Record TlsPrfCircuit := MkTlsPrfCircuit {
  k_mac_commitment_fe : Fr;
  rand_binding_fe : Fr;
  pms_hash_fe : option Fr;
  k_mac_prover_share : array 32;
  k_mac_verifier_share : array 32;
  pre_master_secret : option bytes;
  c_client_random : option (array 32);
  c_server_random : option (array 32)
}.

Definition xor_shares (p v : array 32) : array 32 := arr_xor p v.

Definition TlsPrfCircuit_new (p v rand_binding : array 32) : TlsPrfCircuit :=
  let k_mac := xor_shares p v in
  let rand_fe := bytes32_to_fr rand_binding in
  {| k_mac_commitment_fe := k_mac_commitment k_mac rand_fe; rand_binding_fe := rand_fe;
     pms_hash_fe := None; k_mac_prover_share := p; k_mac_verifier_share := v;
     pre_master_secret := None; c_client_random := None; c_server_random := None |}.

Definition TlsPrfCircuit_with_tls_prf {Hs : Sha256} (p v rand_binding : array 32) (pms : bytes)
    (client_random server_random : array 32) : TlsPrfCircuit :=
  let k_mac := xor_shares p v in
  let rand_fe := bytes32_to_fr rand_binding in
  {| k_mac_commitment_fe := k_mac_commitment k_mac rand_fe; rand_binding_fe := rand_fe;
     pms_hash_fe := Some (pms_hash pms); k_mac_prover_share := p; k_mac_verifier_share := v;
     pre_master_secret := Some pms; c_client_random := Some client_random;
     c_server_random := Some server_random |}.

(** The public inputs of a circuit, in order, and the equalities it enforces. *)
Record synthesis := MkSynthesis { public_inputs : list Fr; equalities : list (Fr * Fr) }.

Section Synthesis.
Context {Ark : ArkBits}.

Definition TlsPrfCircuit_generate_constraints (self : TlsPrfCircuit) : synth synthesis :=
  let expected_commitment := k_mac_commitment_fe self in
  let rand_binding := rand_binding_fe self in
  p_vars ← alloc_witnesses (arr (k_mac_prover_share self));
  v_vars ← alloc_witnesses (arr (k_mac_verifier_share self));
  let xor_vars := zip_with u8_xor_var p_vars v_vars in
  let packed_k_mac := pack_bytes_to_fpvar xor_vars in
  let computed_commitment := add packed_k_mac rand_binding in
  match pre_master_secret self, c_client_random self, c_server_random self, pms_hash_fe self with
  | Some pms, Some cr, Some sr, Some expected_pms_hash =>
      pms_vars ← alloc_witnesses pms;
      let pms_hash_byte_vars := sha256_from_byte_vars pms_vars in
      let packed_pms_hash := pack_bytes_to_fpvar pms_hash_byte_vars in
      ms_vars ← tls12_master_secret_constrained pms_vars cr sr;
      key_block_vars ← tls12_key_expansion_constrained ms_vars cr sr;
      let derived_k_mac_vars := take 32 key_block_vars in
      let packed_derived := pack_bytes_to_fpvar derived_k_mac_vars in
      let derived_commitment := add packed_derived rand_binding in
      mret {| public_inputs := [expected_commitment; rand_binding; expected_pms_hash];
              equalities := [(computed_commitment, expected_commitment);
                             (packed_pms_hash, expected_pms_hash);
                             (derived_commitment, expected_commitment)] |}
  | _, _, _, _ =>
      mret {| public_inputs := [expected_commitment; rand_binding];
              equalities := [(computed_commitment, expected_commitment)] |}
  end.

(** The values of an assignment that have not been used. *)
Definition left_over (w : assignment) : bytes := match w with Own => [] | Given l => l end.

(** The assignment has a value for each witness variable of the circuit, no more,
    and the constraints hold under it. *)
Definition satisfies (c : TlsPrfCircuit) (w : assignment) : Prop :=
  exists s w', TlsPrfCircuit_generate_constraints c w = Ok (s, w') /\ left_over w' = [] /\
    Forall (fun p => p.1 = p.2) (equalities s).

(** The constraints hold for the values the circuit itself assigns. *)
Definition circuit_satisfied (c : TlsPrfCircuit) : Prop := satisfies c Own.
Definition circuit_inputs (c : TlsPrfCircuit) : list Fr :=
  match TlsPrfCircuit_generate_constraints c Own with Ok (s, _) => public_inputs s | Err _ => [] end.
End Synthesis.

Record PgpBindingCircuit := MkPgpBindingCircuit {
  query_commitment_fe : Fr;
  response_commitment_fe : Fr;
  transcript_commitment_fe : Fr;
  pgp_rand_binding_fe : Fr;
  query_hash : array 32;
  response_hash : array 32
}.

Definition pgp_transcript_commitment {Hs : Sha256} (qh rh : array 32) (rand_fe : Fr) : Fr :=
  add (bytes32_to_fr (sha256_digest (arr qh ++ arr rh))) rand_fe.

Definition PgpBindingCircuit_new {Hs : Sha256} (qh rh rand_binding : array 32) : PgpBindingCircuit :=
  let rand_fe := bytes32_to_fr rand_binding in
  {| query_commitment_fe := add (bytes32_to_fr qh) rand_fe;
     response_commitment_fe := add (bytes32_to_fr rh) rand_fe;
     transcript_commitment_fe := pgp_transcript_commitment qh rh rand_fe;
     pgp_rand_binding_fe := rand_fe; query_hash := qh; response_hash := rh |}.

Definition PgpBindingCircuit_generate_constraints {Ark : ArkBits} (self : PgpBindingCircuit) : synthesis :=
  let qh_vars := u8_new_witness <$> arr (query_hash self) in
  let rh_vars := u8_new_witness <$> arr (response_hash self) in
  let rand_binding := pgp_rand_binding_fe self in
  let digest_vars := sha256_from_byte_vars (qh_vars ++ rh_vars) in
  {| public_inputs := [query_commitment_fe self; response_commitment_fe self;
                       transcript_commitment_fe self; rand_binding];
     equalities := [(add (pack_bytes_to_fpvar qh_vars) rand_binding, query_commitment_fe self);
                    (add (pack_bytes_to_fpvar rh_vars) rand_binding, response_commitment_fe self);
                    (add (pack_bytes_to_fpvar digest_vars) rand_binding, transcript_commitment_fe self)] |}.

(** ** MiMC-7 (mimc.rs) *)

Definition MIMC_ROUNDS : nat := 91.

Definition mimc_constants {Hs : Sha256} : list Fr :=
  (fun i => from_le_bytes_mod_order (arr (sha256_digest
     (string_bytes "tls-attestation/mimc7/bn254/rc/v1" ++ reverse (be_bytes 4 (Z.of_nat i))))))
  <$> seq 0 MIMC_ROUNDS.

(** One round natively and in the circuit. *)
Definition mimc_round (key : Fr) (state c : Fr) : Fr :=
  let t := add (add state key) c in
  let t2 := mul t t in
  let t4 := mul t2 t2 in
  let t6 := mul t4 t2 in
  mul t6 t.
Definition mimc_round_gadget (key : Fr) (state c : Fr) : Fr :=
  let t := add (add state key) c in
  let t2 := mul t t in
  let t4 := mul t2 t2 in
  let t3 := mul t2 t in
  mul t4 t3.

(** [assert_eq!(constants.len(), MIMC_ROUNDS)] is a panic: [None]. *)
Definition mimc7_enc (msg key : Fr) (constants : list Fr) : option Fr :=
  if (length constants =? MIMC_ROUNDS)%nat
  then Some (add (fold_left (mimc_round key) constants msg) key) else None.
Definition mimc7_enc_gadget (msg key : Fr) (constants : list Fr) : option Fr :=
  if (length constants =? MIMC_ROUNDS)%nat
  then Some (add (fold_left (mimc_round_gadget key) constants msg) key) else None.

Fixpoint sponge_loop (enc : Fr -> Fr -> list Fr -> option Fr) (state : Fr) (inputs constants : list Fr) : option Fr :=
  match inputs with
  | [] => Some state
  | x :: rest => e ← enc (add state x) zero constants;
                 sponge_loop enc (add (add e state) x) rest constants
  end.
Definition mimc7_sponge (inputs constants : list Fr) : option Fr := sponge_loop mimc7_enc zero inputs constants.
Definition mimc7_sponge_gadget (inputs constants : list Fr) : option Fr :=
  sponge_loop mimc7_enc_gadget zero inputs constants.

Definition bytes31_to_fe (b : array 32) : Fr := from_le_bytes_mod_order (take 31 (arr b)).
Definition bytes16_to_fe (b : array 16) : Fr := from_le_bytes_mod_order (arr b).

(** ** Proofs (co_snark.rs) *)

Inductive CoSnarkError :=
  | CoSnarkSetup (msg : string)
  | CoSnarkProve (msg : string)
  | CoSnarkVerify
  | CoSnarkSerialize (msg : string).

Record HspProof := MkHspProof {
  groth16_bytes : bytes;
  k_mac_commitment_bytes : bytes;
  rand_binding_bytes : bytes;
  hsp_k_mac : array 32;
  pms_hash_bytes : bytes
}.

(** The crates [ark-groth16] and [ark-serialize], at the types used here. Every
    operation may report an error; the generator is an argument. *)
Class Groth16 := {
  Pk : Type;
  Vk : Type;
  Pvk : Type;
  Pf : Type;
  Rng : Type;
  circuit_specific_setup : TlsPrfCircuit -> Rng -> result string (Pk * Vk);
  process_vk : Vk -> result string Pvk;
  prove : Pk -> TlsPrfCircuit -> Rng -> result string Pf;
  verify_with_processed_vk : Pvk -> list Fr -> Pf -> result string bool;
  pf_serialize : Pf -> result string bytes;
  pf_deserialize : bytes -> result string Pf;
  fr_serialize : Fr -> result string bytes;
  fr_deserialize : bytes -> result string Fr;
  pvk_serialize : Pvk -> result string bytes;
  pvk_deserialize : bytes -> result string Pvk
}.

Section CoSnarkOps.
Context {Hs : Sha256} {G : Groth16}.

Record CoSnarkCrs := MkCoSnarkCrs { pk : Pk; pvk : Pvk }.

Definition TlsPrfCircuit_dummy : TlsPrfCircuit :=
  TlsPrfCircuit_new (array_repeat 32 (byte 1)) (array_repeat 32 (byte 2)) (array_repeat 32 (byte 0)).
Definition TlsPrfCircuit_dummy_full_prf : TlsPrfCircuit :=
  TlsPrfCircuit_with_tls_prf (array_repeat 32 (byte 1)) (array_repeat 32 (byte 2)) (array_repeat 32 (byte 0))
    (replicate 48 (byte 0)) (array_repeat 32 (byte 0)) (array_repeat 32 (byte 0)).

Definition setup_with (circuit : TlsPrfCircuit) (rng : Rng) : result CoSnarkError CoSnarkCrs :=
  keys ← map_err CoSnarkSetup (circuit_specific_setup circuit rng);
  pvk ← map_err CoSnarkSetup (process_vk keys.2);
  Ok {| pk := keys.1; pvk := pvk |}.
Definition CoSnarkCrs_setup (rng : Rng) : result CoSnarkError CoSnarkCrs :=
  setup_with TlsPrfCircuit_dummy rng.
Definition CoSnarkCrs_setup_mode2 (rng : Rng) : result CoSnarkError CoSnarkCrs :=
  setup_with TlsPrfCircuit_dummy_full_prf rng.

(** [expect] panics where serialization fails: [None]. *)
Definition CoSnarkCrs_verifying_key_bytes (self : CoSnarkCrs) : option bytes :=
  match pvk_serialize (pvk self) with Ok buf => Some buf | Err _ => None end.

Definition co_snark_execute (crs : CoSnarkCrs) (p_share : ProverMacKeyShare) (v_share : VerifierMacKeyShare)
    (rand_binding : array 32) (rng : Rng) : result CoSnarkError HspProof :=
  let k_mac := combine_mac_key_shares p_share v_share in
  let circuit := TlsPrfCircuit_new (pmk_0 p_share) (vmk_0 v_share) rand_binding in
  let commitment_fe := k_mac_commitment_fe circuit in
  let rand_fe := rand_binding_fe circuit in
  let pms_fe_opt := pms_hash_fe circuit in
  proof ← map_err CoSnarkProve (prove (pk crs) circuit rng);
  groth16_bytes ← map_err CoSnarkSerialize (pf_serialize proof);
  commitment_bytes ← map_err CoSnarkSerialize (fr_serialize commitment_fe);
  rand_bytes ← map_err CoSnarkSerialize (fr_serialize rand_fe);
  pms_hash_bytes ← match pms_fe_opt with
                   | Some pms_fe => map_err CoSnarkSerialize (fr_serialize pms_fe)
                   | None => Ok []
                   end;
  Ok {| groth16_bytes := groth16_bytes; k_mac_commitment_bytes := commitment_bytes;
        rand_binding_bytes := rand_bytes; hsp_k_mac := mk_0 k_mac; pms_hash_bytes := pms_hash_bytes |}.

Definition co_snark_execute_mode2 (crs : CoSnarkCrs) (p_share : ProverMacKeyShare) (v_share : VerifierMacKeyShare)
    (rand_binding : array 32) (pms : bytes) (client_random server_random : array 32) (rng : Rng)
    : result CoSnarkError HspProof :=
  let k_mac := combine_mac_key_shares p_share v_share in
  let circuit := TlsPrfCircuit_with_tls_prf (pmk_0 p_share) (vmk_0 v_share) rand_binding pms
                   client_random server_random in
  let commitment_fe := k_mac_commitment_fe circuit in
  let rand_fe := rand_binding_fe circuit in
  let pms_fe := pms_hash pms in
  proof ← map_err CoSnarkProve (prove (pk crs) circuit rng);
  groth16_bytes ← map_err CoSnarkSerialize (pf_serialize proof);
  commitment_bytes ← map_err CoSnarkSerialize (fr_serialize commitment_fe);
  rand_bytes ← map_err CoSnarkSerialize (fr_serialize rand_fe);
  pms_hash_bytes ← map_err CoSnarkSerialize (fr_serialize pms_fe);
  Ok {| groth16_bytes := groth16_bytes; k_mac_commitment_bytes := commitment_bytes;
        rand_binding_bytes := rand_bytes; hsp_k_mac := mk_0 k_mac; pms_hash_bytes := pms_hash_bytes |}.

Definition co_snark_verify (pvk : Pvk) (proof : HspProof) (expected_pms_hash : option Fr)
    : result CoSnarkError unit :=
  groth16_proof ← map_err (fun e => CoSnarkSerialize ("proof deserialize: " ++ e)) (pf_deserialize (groth16_bytes proof));
  commitment_fe ← map_err (fun e => CoSnarkSerialize ("commitment deserialize: " ++ e))
                    (fr_deserialize (k_mac_commitment_bytes proof));
  rand_fe ← map_err (fun e => CoSnarkSerialize ("rand deserialize: " ++ e)) (fr_deserialize (rand_binding_bytes proof));
  proof_pms_fe_opt ← match pms_hash_bytes proof with
                     | [] => Ok None
                     | b => pms_fe ← map_err (fun e => CoSnarkSerialize ("pms_hash deserialize: " ++ e)) (fr_deserialize b);
                            Ok (Some pms_fe)
                     end;
  let public_inputs := [commitment_fe; rand_fe] ++ option_list proof_pms_fe_opt in
  valid ← map_err CoSnarkProve (verify_with_processed_vk pvk public_inputs groth16_proof);
  _ ← ensure CoSnarkVerify valid;
  let expected_commitment := k_mac_commitment (hsp_k_mac proof) rand_fe in
  _ ← ensure CoSnarkVerify (bool_decide (expected_commitment = commitment_fe));
  match expected_pms_hash, proof_pms_fe_opt with
  | Some expected_fe, Some proof_fe => ensure CoSnarkVerify (bool_decide (proof_fe = expected_fe))
  | Some _, None => Err CoSnarkVerify
  | None, Some _ => Err CoSnarkVerify
  | None, None => Ok tt
  end.
End CoSnarkOps.

(** ** The two-party variant (co_snark_split.rs) *)

(** The crate [x25519-dalek]. *)
Class X25519 := {
  EphemeralSecret : Type;
  x_public : EphemeralSecret -> array 32;
  diffie_hellman : EphemeralSecret -> array 32 -> array 32;
  dh_agree s t : diffie_hellman s (x_public t) = diffie_hellman t (x_public s)
}.

Record MaskedShare := MkMaskedShare {
  dh_public_key : array 32;
  masked_bytes : array 32;
  auth_tag : array 32
}.

Section Split.
Context {Hs : Sha256} {G : Groth16} {X : X25519}.

(** [new] draws the secret, which is an argument. *)
Record CoSnarkParty := MkCoSnarkParty { dh_secret : EphemeralSecret; mac_share : array 32 }.

Definition public_key (self : CoSnarkParty) : array 32 := x_public (dh_secret self).

Definition nul : bytes := [byte 0].

Definition derive_mask (shared_secret : array 32) : array 32 :=
  sha256_digest (string_bytes "co-snark/dh-mask/v1" ++ nul ++ arr shared_secret).

Definition compute_auth_tag (shared_secret masked_bytes : array 32) : array 32 :=
  sha256_digest (string_bytes "co-snark/mask-auth/v1" ++ nul ++ arr shared_secret ++ arr masked_bytes).

Definition compute_masked_share (self : CoSnarkParty) (other_public_key : array 32) : MaskedShare :=
  let own_public_key := x_public (dh_secret self) in
  let shared := diffie_hellman (dh_secret self) other_public_key in
  let mask := derive_mask shared in
  let masked_bytes := arr_xor (mac_share self) mask in
  {| dh_public_key := own_public_key; masked_bytes := masked_bytes;
     auth_tag := compute_auth_tag shared masked_bytes |}.

Definition co_snark_combine (crs : CoSnarkCrs) (p_share v_share : MaskedShare) (p_dh_pk v_dh_pk : array 32)
    (rand_binding : array 32) (rng : Rng) : result CoSnarkError HspProof :=
  _ ← ensure (CoSnarkProve "prover share dh_public_key does not match announced p_dh_pk")
        (bool_decide (dh_public_key p_share = p_dh_pk));
  _ ← ensure (CoSnarkProve "verifier share dh_public_key does not match announced v_dh_pk")
        (bool_decide (dh_public_key v_share = v_dh_pk));
  let k_mac := arr_xor (masked_bytes p_share) (masked_bytes v_share) in
  let circuit := TlsPrfCircuit_new k_mac (array_repeat 32 (byte 0)) rand_binding in
  let commitment_fe := k_mac_commitment_fe circuit in
  let rand_fe := rand_binding_fe circuit in
  proof ← map_err CoSnarkProve (prove (pk crs) circuit rng);
  groth16_bytes ← map_err CoSnarkSerialize (pf_serialize proof);
  commitment_bytes ← map_err CoSnarkSerialize (fr_serialize commitment_fe);
  rand_bytes ← map_err CoSnarkSerialize (fr_serialize rand_fe);
  Ok {| groth16_bytes := groth16_bytes; k_mac_commitment_bytes := commitment_bytes;
        rand_binding_bytes := rand_bytes; hsp_k_mac := k_mac; pms_hash_bytes := [] |}.

(** [secret_p] and [secret_v] are what the two calls of [CoSnarkParty::new] draw. *)
Definition co_snark_execute_split (crs : CoSnarkCrs) (p_mac_share v_mac_share : array 32)
    (rand_binding : array 32) (secret_p secret_v : EphemeralSecret) (rng : Rng) : result CoSnarkError HspProof :=
  let party_p := MkCoSnarkParty secret_p p_mac_share in
  let party_v := MkCoSnarkParty secret_v v_mac_share in
  let pk_p := public_key party_p in
  let pk_v := public_key party_v in
  let masked_p := compute_masked_share party_p pk_v in
  let masked_v := compute_masked_share party_v pk_p in
  co_snark_combine crs masked_p masked_v pk_p pk_v rand_binding rng.
End Split.

(** ** The backends *)

Section Backends.
Context {Ark : ArkBits} {Hs : Sha256} {G : Groth16} {X : X25519}.

Record CoSnarkBackend := MkCoSnarkBackend { backend_crs : CoSnarkCrs }.
Definition CoSnarkBackend_setup (rng : Rng) : result CoSnarkError CoSnarkBackend :=
  crs ← CoSnarkCrs_setup rng; Ok (MkCoSnarkBackend crs).
Definition CoSnarkBackend_setup_mode2 (rng : Rng) : result CoSnarkError CoSnarkBackend :=
  crs ← CoSnarkCrs_setup_mode2 rng; Ok (MkCoSnarkBackend crs).
Definition CoSnarkBackend_execute (self : CoSnarkBackend) := co_snark_execute (backend_crs self).
Definition CoSnarkBackend_execute_mode2 (self : CoSnarkBackend) := co_snark_execute_mode2 (backend_crs self).
Definition CoSnarkBackend_verify (self : CoSnarkBackend) := co_snark_verify (pvk (backend_crs self)).

Record SplitCoSnarkBackend := MkSplitCoSnarkBackend { split_crs : CoSnarkCrs }.
Definition SplitCoSnarkBackend_setup (rng : Rng) : result CoSnarkError SplitCoSnarkBackend :=
  crs ← CoSnarkCrs_setup rng; Ok (MkSplitCoSnarkBackend crs).
Definition SplitCoSnarkBackend_execute_split (self : SplitCoSnarkBackend) := co_snark_execute_split (split_crs self).
Definition SplitCoSnarkBackend_verifying_key_bytes (self : SplitCoSnarkBackend) := CoSnarkCrs_verifying_key_bytes (split_crs self).
End Backends.

(** ** Packing in the circuit and natively *)

Lemma pack_bits_stop bits st : (254 <= st.2)%nat -> pack_bits bits st = st.
Proof.
  destruct st as [[result coeff] n]. cbn [snd]. intros Hn. destruct bits; [done|]. cbn [pack_bits].
  by rewrite (proj2 (Nat.leb_le 254 n)).
Qed.

Lemma pack_bits_app k l st : pack_bits (k ++ l) st = pack_bits l (pack_bits k st).
Proof.
  revert st. induction k as [|b k IH]; intros [[result coeff] n]; [done|]. cbn [pack_bits app].
  destruct (254 <=? n)%nat eqn:Hn; [|apply IH].
  apply Nat.leb_le in Hn. by rewrite pack_bits_stop.
Qed.

Lemma pack_bits_value bits s n :
  (n <= 254)%nat ->
  (pack_bits bits (of_Z s, of_Z (2 ^ Z.of_nat n), n)).1.1 = of_Z (s + 2 ^ Z.of_nat n * bits_val (take (254 - n) bits)).
Proof.
  revert s n. induction bits as [|b bits IH]; intros s n Hn.
  { rewrite take_nil. cbn. f_equal. lia. }
  cbn [pack_bits]. destruct (254 <=? n)%nat eqn:Hle.
  { apply Nat.leb_le in Hle. replace (254 - n)%nat with O by lia. cbn. f_equal. lia. }
  apply Nat.leb_gt in Hle. replace (254 - n)%nat with (S (254 - S n)) by lia. rewrite firstn_cons.
  assert (Hb : mul (bit_fe b) (of_Z (2 ^ Z.of_nat n)) = of_Z (Z.b2z b * 2 ^ Z.of_nat n)).
  { destruct b; [apply (mul_of_Z 1)|apply (mul_of_Z 0)]. }
  rewrite Hb, !add_of_Z. replace (2 ^ Z.of_nat n + 2 ^ Z.of_nat n) with (2 ^ Z.of_nat (S n)).
  2: { rewrite Nat2Z.inj_succ, Z.pow_succ_r by lia. lia. }
  rewrite IH by lia. f_equal. cbn [bits_val]. rewrite Nat2Z.inj_succ, Z.pow_succ_r by lia. destruct b; cbn [Z.b2z]; lia.
Qed.

Lemma bits_val_take n l : bits_val (take n l) = bits_val l mod 2 ^ Z.of_nat n.
Proof.
  destruct (decide (n <= length l)%nat) as [Hle|Hgt].
  - rewrite <- (take_drop n l) at 2. rewrite bits_val_app, length_take_le by done.
    rewrite Z.mul_comm, Z_mod_plus_full, Z.mod_small; [done|].
    pose proof (bits_val_range (take n l)) as Hr. by rewrite length_take_le in Hr.
  - rewrite take_ge by lia. pose proof (bits_val_range l). rewrite Z.mod_small; [done|].
    split; [lia|]. eapply Z.lt_le_trans; [apply bits_val_range|]. apply Z.pow_le_mono_r; lia.
Qed.

Lemma le_val_app l k : le_val (l ++ k) = le_val l + 256 ^ Z.of_nat (length l) * le_val k.
Proof.
  induction l as [|b l IH].
  { change (256 ^ Z.of_nat (length [])) with 1. change (le_val []) with 0. cbn [app]. lia. }
  cbn [app length]. unfold le_val in *. cbn [foldr]. rewrite IH, Nat2Z.inj_succ, Z.pow_succ_r by lia. lia.
Qed.

Lemma le_val_range l : 0 <= le_val l < 256 ^ Z.of_nat (length l).
Proof.
  induction l as [|b l IH]; [cbn; lia|]. unfold le_val in *. cbn [foldr length].
  rewrite Nat2Z.inj_succ, Z.pow_succ_r by lia. pose proof (uval_range b). lia.
Qed.

Lemma le_val_clear l : length l = 32%nat -> le_val (clear_top_bits l) = le_val l mod 2 ^ 254.
Proof.
  intros Hlen. destruct (lookup_lt_is_Some_2 l 31) as [b Hb]; [lia|]. unfold clear_top_bits.
  rewrite <- (take_drop_middle _ _ _ Hb). rewrite alter_app_r_alt by (rewrite length_take; lia).
  rewrite length_take_le by lia. cbn [alter list_alter Nat.sub]. rewrite drop_ge by lia.
  rewrite !le_val_app, length_take_le by lia.
  assert (Hbyte : uval (byte (Z.land (uval b) 0x3F)) = uval b mod 64).
  { change 0x3F with (Z.ones 6). rewrite Z.land_ones by lia. apply uval_of_Z_small.
    pose proof (Z.mod_pos_bound (uval b) (2 ^ 6)). change (2 ^ Z.pos 8) with 256. change (2 ^ 6) with 64 in *. lia. }
  assert (H1 : forall x, le_val [x] = uval x) by (intros; unfold le_val; cbn [foldr]; lia). rewrite !H1, Hbyte.
  pose proof (le_val_range (take 31 l)) as Hr. rewrite length_take_le in Hr by lia.
  change (256 ^ Z.of_nat 31) with (2 ^ 248) in *. rewrite (Z.div_mod (uval b) 64) at 2 by lia.
  apply Z.mod_unique_pos with (uval b / 64);
    [pose proof (Z.mod_pos_bound (uval b) 64) | ]; change (2 ^ 254) with (2 ^ 248 * 64); lia.
Qed.

Lemma bytes32_to_fr_eq a : bytes32_to_fr a = of_Z (le_val (arr a) mod 2 ^ 254).
Proof. unfold bytes32_to_fr, from_le_bytes_mod_order. by rewrite le_val_clear by apply length_arr. Qed.

Section Packing.
Context {Ark : ArkBits}.

Lemma bits_val_concat (vs : list UInt8) : bits_val (concat (u8_to_bits_le <$> vs)) = le_val (u8_value <$> vs).
Proof.
  induction vs as [|v vs IH]; [done|]. cbn [fmap list_fmap concat]. rewrite bits_val_app, u8_bits_length, u8_bits_value.
  unfold le_val in *. cbn [foldr]. rewrite <- IH. done.
Qed.

Lemma pack_bytes_concat vs st :
  fold_left (fun st b => pack_bits (u8_to_bits_le b) st) vs st = pack_bits (concat (u8_to_bits_le <$> vs)) st.
Proof.
  revert st. induction vs as [|v vs IH]; intros st; [done|].
  cbn [fold_left fmap list_fmap concat]. by rewrite IH, pack_bits_app.
Qed.

(** The circuit packs variables holding an array to the element the native code
    computes from the array. *)
Lemma pack_bytes_native vs (a : array 32) :
  u8_value <$> vs = arr a -> pack_bytes_to_fpvar vs = bytes32_to_fr a.
Proof.
  intros Hvs. unfold pack_bytes_to_fpvar. rewrite pack_bytes_concat.
  change zero with (of_Z 0). change one with (of_Z (2 ^ Z.of_nat 0)).
  rewrite pack_bits_value, bytes32_to_fr_eq by lia. f_equal.
  change (254 - 0)%nat with 254%nat. rewrite bits_val_take, bits_val_concat, Hvs. change (Z.of_nat 254) with 254. lia.
Qed.
End Packing.

(** ** The relation the circuits enforce *)

Section CircuitSpec.
Context {Ark : ArkBits} {Hs : Sha256} {Hm : HmacSha256}.

Hypothesis sha2_is_fips : forall l, arr (sha256_digest l) = Fips.sha256 l.
Hypothesis hmac_is_rfc2104 : forall k d, arr (hmac_sha256 k d) = Rfc.hmac k d.

Lemma pack_xor p_vars v_vars p v :
  u8_value <$> p_vars = arr p -> u8_value <$> v_vars = arr v ->
  pack_bytes_to_fpvar (zip_with u8_xor_var p_vars v_vars) = bytes32_to_fr (arr_xor p v).
Proof.
  intros Hp Hv. apply pack_bytes_native. rewrite arr_arr_xor, <- Hp, <- Hv. clear. revert v_vars.
  induction p_vars as [|a l IH]; intros [|b k]; [done..|]. cbn [fmap list_fmap zip_with].
  rewrite u8_xor_value. f_equal. apply IH.
Qed.

Lemma pack_witness (a : array 32) : pack_bytes_to_fpvar (u8_new_witness <$> arr a) = bytes32_to_fr a.
Proof. apply pack_bytes_native, fmap_witness_value. Qed.

Lemma pack_sha256 vs : pack_bytes_to_fpvar (sha256_from_byte_vars vs) = bytes32_to_fr (sha256_digest (u8_value <$> vs)).
Proof using sha2_is_fips. apply pack_bytes_native. by rewrite sha2_is_fips, sha256_vars_fips. Qed.

Lemma satisfies_Ok c w s w' : TlsPrfCircuit_generate_constraints c w = Ok (s, w') -> left_over w' = [] ->
  satisfies c w <-> Forall (fun p => p.1 = p.2) (equalities s).
Proof. intros Hc Hw. unfold satisfies. rewrite Hc. split; [by intros (s' & w'' & [= <- <-] & _ & H)|eauto]. Qed.

(** The relation the constraints express, on the values the assignment supplies. *)
Lemma circuit_mode1_run comm rand ph p0 v0 p v w w1 w2 :
  supplies w (arr p0) (arr p) w1 -> supplies w1 (arr v0) (arr v) w2 -> left_over w2 = [] ->
  satisfies (MkTlsPrfCircuit comm rand ph p0 v0 None None None) w <-> comm = k_mac_commitment (arr_xor p v) rand.
Proof.
  intros (pv & Hp & Hpv)%alloc_supplies (vv & Hv & Hvv)%alloc_supplies Hw. rewrite satisfies_Ok; [| |exact Hw].
  2: { unfold TlsPrfCircuit_generate_constraints. cbv zeta. rewrite (bind_run _ _ _ _ _ Hp), (bind_run _ _ _ _ _ Hv). reflexivity. }
  cbn [equalities]. rewrite Forall_singleton. cbn [fst snd k_mac_commitment_fe rand_binding_fe].
  rewrite (pack_xor _ _ _ _ Hpv Hvv). done.
Qed.

Lemma circuit_mode2_run comm rand ph p0 v0 pms0 cr sr p v pms cr1 sr1 sr2 cr2 w w1 w2 w3 w4 w5 w6 w7 :
  supplies w (arr p0) (arr p) w1 -> supplies w1 (arr v0) (arr v) w2 -> supplies w2 pms0 (arr (pms_0 pms)) w3 ->
  supplies w3 (arr cr) (arr cr1) w4 -> supplies w4 (arr sr) (arr sr1) w5 ->
  supplies w5 (arr sr) (arr sr2) w6 -> supplies w6 (arr cr) (arr cr2) w7 -> left_over w7 = [] ->
  satisfies (MkTlsPrfCircuit comm rand (Some ph) p0 v0 (Some pms0) (Some cr) (Some sr)) w <->
  comm = k_mac_commitment (arr_xor p v) rand /\ ph = pms_hash (arr (pms_0 pms)) /\
  bytes32_to_fr (arr_xor p v) = bytes32_to_fr (prf_key pms cr1 sr1 sr2 cr2).
Proof using sha2_is_fips hmac_is_rfc2104.
  intros (pv & Hp & Hpv)%alloc_supplies (vv & Hv & Hvv)%alloc_supplies (sv & Hp2 & Hsv)%alloc_supplies H1 H2 H3 H4 Hw.
  destruct (k_mac_constrained hmac_is_rfc2104 sv pms cr sr _ _ _ _ _ _ _ _ _ Hsv H1 H2 H3 H4) as (ms & kb & Hms & Hkb & _ & Hval).
  rewrite satisfies_Ok; [| |exact Hw].
  2: { unfold TlsPrfCircuit_generate_constraints.
       cbn [pre_master_secret c_client_random c_server_random pms_hash_fe k_mac_prover_share k_mac_verifier_share]. cbv zeta.
       rewrite (bind_run _ _ _ _ _ Hp), (bind_run _ _ _ _ _ Hv), (bind_run _ _ _ _ _ Hp2),
         (bind_run _ _ _ _ _ Hms), (bind_run _ _ _ _ _ Hkb). reflexivity. }
  cbn [equalities k_mac_commitment_fe rand_binding_fe].
  rewrite !Forall_cons, Forall_nil. cbn [fst snd].
  rewrite (pack_xor _ _ _ _ Hpv Hvv), pack_sha256, Hsv, (pack_bytes_native _ _ Hval).
  unfold k_mac_commitment, pms_hash. split.
  - intros (<- & <- & Hk & _). split_and!; [done..|]. symmetry. by apply add_cancel_r in Hk.
  - intros (-> & -> & Hk). split_and!; [done..| |done]. by rewrite Hk.
Qed.

Lemma circuit_mode1 comm rand p v ph :
  circuit_satisfied (MkTlsPrfCircuit comm rand ph p v None None None) <-> comm = k_mac_commitment (arr_xor p v) rand.
Proof. exact (circuit_mode1_run comm rand ph p v p v _ _ _ (supplies_own _) (supplies_own _) eq_refl). Qed.

Lemma circuit_mode2 comm rand p v ph pms cr sr :
  circuit_satisfied (MkTlsPrfCircuit comm rand (Some ph) p v (Some (arr (pms_0 pms))) (Some cr) (Some sr))
  <-> comm = k_mac_commitment (arr_xor p v) rand /\ ph = pms_hash (arr (pms_0 pms)) /\
      bytes32_to_fr (arr_xor p v) = bytes32_to_fr (mk_0 (derive_k_mac_from_pms pms cr sr)).
Proof using sha2_is_fips hmac_is_rfc2104.
  rewrite derive_prf_key. cbn [mk_0].
  exact (circuit_mode2_run comm rand ph p v (arr (pms_0 pms)) cr sr p v pms cr sr sr cr _ _ _ _ _ _ _ _
    (supplies_own _) (supplies_own _) (supplies_own _) (supplies_own _) (supplies_own _) (supplies_own _) (supplies_own _) eq_refl).
Qed.

(** What a satisfying assignment consists of. *)
Lemma mode1_values comm rand ph p0 v0 values :
  satisfies (MkTlsPrfCircuit comm rand ph p0 v0 None None None) (Given values) ->
  exists p v : array 32, values = arr p ++ arr v.
Proof.
  intros (s & w' & Hrun & Hw & _). revert Hrun. unfold TlsPrfCircuit_generate_constraints.
  cbn [pre_master_secret c_client_random c_server_random pms_hash_fe k_mac_prover_share k_mac_verifier_share]. cbv zeta.
  intros (v1 & w1 & (x & r1 & -> & Hx & ->)%alloc_inv & (v2 & w2 & (y & r2 & -> & Hy & ->)%alloc_inv & [= _ <-])%bind_inv)%bind_inv.
  cbn in Hw. subst r2. rewrite length_arr in Hx, Hy. apply arr_of_length in Hx as [p ->]. apply arr_of_length in Hy as [v ->].
  exists p, v. by rewrite app_nil_r.
Qed.

Lemma mode2_values comm rand ph p0 v0 (pms0 : array 48) cr sr values :
  satisfies (MkTlsPrfCircuit comm rand (Some ph) p0 v0 (Some (arr pms0)) (Some cr) (Some sr)) (Given values) ->
  exists (p v : array 32) (pms : array 48) (cr1 sr1 sr2 cr2 : array 32),
    values = arr p ++ arr v ++ arr pms ++ arr cr1 ++ arr sr1 ++ arr sr2 ++ arr cr2.
Proof.
  intros (s & w' & Hrun & Hw & _). revert Hrun. unfold TlsPrfCircuit_generate_constraints.
  cbn [pre_master_secret c_client_random c_server_random pms_hash_fe k_mac_prover_share k_mac_verifier_share]. cbv zeta.
  intros (v1 & w1 & (x & r1 & -> & Hx & ->)%alloc_inv & (v2 & w2 & (y & r2 & -> & Hy & ->)%alloc_inv & Hrun)%bind_inv)%bind_inv.
  destruct (bind_inv _ _ _ _ Hrun) as (v3 & w3 & (z & r3 & -> & Hz & ->)%alloc_inv &
    (ms & w4 & (cr1 & sr1 & r4 & -> & ->)%master_secret_inv & (kb & w5 & (sr2 & cr2 & r5 & -> & ->)%key_expansion_inv & [= _ <-])%bind_inv)%bind_inv).
  cbn in Hw. subst r5. rewrite length_arr in Hx, Hy. rewrite length_arr in Hz.
  apply arr_of_length in Hx as [p ->]. apply arr_of_length in Hy as [v ->]. apply arr_of_length in Hz as [pms ->].
  exists p, v, pms, cr1, sr1, sr2, cr2. by rewrite app_nil_r.
Qed.

Lemma mode1_given comm rand ph p0 v0 p v :
  satisfies (MkTlsPrfCircuit comm rand ph p0 v0 None None None) (Given (arr p ++ arr v))
  <-> comm = k_mac_commitment (arr_xor p v) rand.
Proof.
  rewrite <- (app_nil_r (arr v)).
  exact (circuit_mode1_run comm rand ph p0 v0 p v _ _ _
    (supplies_given _ _ (arr v ++ []) (lengths_arr _ _)) (supplies_given _ _ [] (lengths_arr _ _)) eq_refl).
Qed.

Lemma mode2_given comm rand ph p0 v0 (pms0 : PreMasterSecret) cr sr p v pms cr1 sr1 sr2 cr2 :
  satisfies (MkTlsPrfCircuit comm rand (Some ph) p0 v0 (Some (arr (pms_0 pms0))) (Some cr) (Some sr))
    (Given (arr p ++ arr v ++ arr (pms_0 pms) ++ arr cr1 ++ arr sr1 ++ arr sr2 ++ arr cr2)) <->
  comm = k_mac_commitment (arr_xor p v) rand /\ ph = pms_hash (arr (pms_0 pms)) /\
  bytes32_to_fr (arr_xor p v) = bytes32_to_fr (prf_key pms cr1 sr1 sr2 cr2).
Proof using sha2_is_fips hmac_is_rfc2104.
  rewrite <- (app_nil_r (arr cr2)).
  pose proof (fun x y : array 32 => supplies_given (arr x) (arr y)) as Hs32.
  exact (circuit_mode2_run comm rand ph p0 v0 (arr (pms_0 pms0)) cr sr p v pms cr1 sr1 sr2 cr2 _ _ _ _ _ _ _ _
    (Hs32 p0 p _ (lengths_arr _ _)) (Hs32 v0 v _ (lengths_arr _ _))
    (supplies_given (arr (pms_0 pms0)) (arr (pms_0 pms)) _ (lengths_arr _ _))
    (Hs32 cr cr1 _ (lengths_arr _ _)) (Hs32 sr sr1 _ (lengths_arr _ _))
    (Hs32 sr sr2 _ (lengths_arr _ _)) (Hs32 cr cr2 [] (lengths_arr _ _)) eq_refl).
Qed.

(** C9. What the circuits of the co-SNARK prove, for arbitrary public inputs and
    every assignment of the witness variables, whatever values the circuit was
    built with. Without a pre-master secret the satisfying assignments are exactly
    two shares such that the commitment is the packed XOR of the shares plus the
    randomness binding. With a 48-byte pre-master secret they are exactly two such
    shares, a secret of which the third public input is the packed SHA-256, and
    client and server randoms for each of the two stages of the TLS 1.2 PRF, such
    that the XOR of the shares packs to the same field element as the MAC key the
    stages derive from that secret and those randoms. For the values the circuit
    assigns itself, where both stages get the randoms of the session, that key is
    [derive_k_mac_from_pms]. *)
Theorem tls_prf_circuit_relation comm rand p v ph pms cr sr values :
  (satisfies (MkTlsPrfCircuit comm rand None p v None None None) (Given values) <->
   exists p' v' : array 32, values = arr p' ++ arr v' /\ comm = k_mac_commitment (arr_xor p' v') rand) /\
  (satisfies (MkTlsPrfCircuit comm rand (Some ph) p v (Some (arr (pms_0 pms))) (Some cr) (Some sr)) (Given values) <->
   exists (p' v' : array 32) pms' (cr1 sr1 sr2 cr2 : array 32),
     values = arr p' ++ arr v' ++ arr (pms_0 pms') ++ arr cr1 ++ arr sr1 ++ arr sr2 ++ arr cr2 /\
     comm = k_mac_commitment (arr_xor p' v') rand /\ ph = pms_hash (arr (pms_0 pms')) /\
     bytes32_to_fr (arr_xor p' v') = bytes32_to_fr (prf_key pms' cr1 sr1 sr2 cr2)) /\
  (circuit_satisfied (MkTlsPrfCircuit comm rand None p v None None None)
   <-> comm = k_mac_commitment (arr_xor p v) rand) /\
  (circuit_satisfied (MkTlsPrfCircuit comm rand (Some ph) p v (Some (arr (pms_0 pms))) (Some cr) (Some sr))
   <-> comm = k_mac_commitment (arr_xor p v) rand /\ ph = pms_hash (arr (pms_0 pms)) /\
       bytes32_to_fr (arr_xor p v) = bytes32_to_fr (mk_0 (derive_k_mac_from_pms pms cr sr))).
Proof using sha2_is_fips hmac_is_rfc2104.
  split_and!; [| |apply circuit_mode1|apply circuit_mode2].
  - split.
    + intros Hsat. destruct (mode1_values _ _ _ _ _ _ Hsat) as (p' & v' & ->). exists p', v'. split; [done|].
      by apply mode1_given in Hsat.
    + intros (p' & v' & -> & Hc). by apply mode1_given.
  - split.
    + intros Hsat. destruct (mode2_values _ _ _ _ _ _ _ _ _ Hsat) as (p' & v' & pms' & cr1 & sr1 & sr2 & cr2 & ->).
      exists p', v', (MkPreMasterSecret pms'), cr1, sr1, sr2, cr2. split; [done|]. by apply (mode2_given _ _ _ _ _ _ _ _ _ _ (MkPreMasterSecret pms')) in Hsat.
    + intros (p' & v' & pms' & cr1 & sr1 & sr2 & cr2 & -> & Hc). by apply mode2_given.
Qed.

(** The session's randoms are not public inputs, and each stage of the PRF has
    variables of its own for them: a prover who knows the pre-master secret can
    satisfy the circuit of any session for the key derived with any other randoms,
    different ones in each stage, under the same hash of the secret. *)
Theorem prf_circuit_randoms_unbound rand p v pms cr sr cr1 sr1 sr2 cr2 :
  exists values, satisfies
    (MkTlsPrfCircuit (k_mac_commitment (prf_key pms cr1 sr1 sr2 cr2) rand) rand (Some (pms_hash (arr (pms_0 pms)))) p v
       (Some (arr (pms_0 pms))) (Some cr) (Some sr)) (Given values).
Proof using sha2_is_fips hmac_is_rfc2104.
  exists (arr (array_repeat 32 (byte 0)) ++ arr (prf_key pms cr1 sr1 sr2 cr2) ++ arr (pms_0 pms) ++
     arr cr1 ++ arr sr1 ++ arr sr2 ++ arr cr2).
  apply mode2_given. by rewrite arr_xor_0_l.
Qed.

(** What the circuit binding a query and a response proves: its constraints
    hold exactly when the three public commitments are the packed query hash,
    response hash and SHA-256 of both, each plus the randomness binding; the
    circuit built from two hashes always satisfies them. *)
Theorem pgp_circuit_relation qc rc tc rand qh rh :
  (Forall (fun p => p.1 = p.2)
     (equalities (PgpBindingCircuit_generate_constraints (MkPgpBindingCircuit qc rc tc rand qh rh)))
   <-> qc = add (bytes32_to_fr qh) rand /\ rc = add (bytes32_to_fr rh) rand /\
       tc = pgp_transcript_commitment qh rh rand) /\
  (forall rb, Forall (fun p => p.1 = p.2)
     (equalities (PgpBindingCircuit_generate_constraints (PgpBindingCircuit_new qh rh rb)))).
Proof using sha2_is_fips.
  assert (Hiff : forall qc rc tc rand, Forall (fun p => p.1 = p.2)
     (equalities (PgpBindingCircuit_generate_constraints (MkPgpBindingCircuit qc rc tc rand qh rh)))
   <-> qc = add (bytes32_to_fr qh) rand /\ rc = add (bytes32_to_fr rh) rand /\
       tc = pgp_transcript_commitment qh rh rand); [|split; [apply Hiff|intros; by apply Hiff]].
  clear qc rc tc rand. intros qc rc tc rand.
  unfold PgpBindingCircuit_generate_constraints, pgp_transcript_commitment.
  cbn [equalities query_hash response_hash query_commitment_fe response_commitment_fe transcript_commitment_fe
       pgp_rand_binding_fe].
  rewrite !Forall_cons, Forall_nil. cbn [fst snd].
  rewrite !pack_witness, pack_sha256, fmap_app, !fmap_witness_value. intuition congruence.
Qed.
End CircuitSpec.

(** ** Proof generation and verification *)

(** The structure of the constraint system depends on the presence of the
    pre-master secret and on its length only. *)
Definition circuit_shape (c : TlsPrfCircuit) : option nat :=
  match pre_master_secret c, c_client_random c, c_server_random c, pms_hash_fe c with
  | Some pms, Some _, Some _, Some _ => Some (length pms)
  | _, _, _, _ => None
  end.

(** What [ark-groth16] and [ark-serialize] promise: serialization succeeds and
    is inverted by deserialization, field elements take 32 bytes, and a proof
    of a satisfied circuit, made under the proving key set up for a circuit of
    the same shape, verifies against the circuit's public inputs. *)
Class Groth16Laws {Ark : ArkBits} (G : Groth16) : Prop := {
  pf_roundtrip pf : exists b, pf_serialize pf = Ok b /\ pf_deserialize b = Ok pf;
  fr_roundtrip x : exists b, fr_serialize x = Ok b /\ length b = 32%nat /\ fr_deserialize b = Ok x;
  groth16_complete c0 c rng keys pvk rng' :
    circuit_specific_setup c0 rng = Ok keys -> process_vk keys.2 = Ok pvk ->
    circuit_shape c = circuit_shape c0 -> circuit_satisfied c ->
    exists pf, prove keys.1 c rng' = Ok pf /\ verify_with_processed_vk pvk (circuit_inputs c) pf = Ok true
}.

(** The public inputs of a circuit that can be synthesized. *)
Lemma satisfied_inputs {Ark : ArkBits} c : circuit_satisfied c ->
  circuit_inputs c = [k_mac_commitment_fe c; rand_binding_fe c] ++
    (if circuit_shape c is Some _ then option_list (pms_hash_fe c) else []).
Proof.
  intros (s & w' & Hrun & _). unfold circuit_inputs. rewrite Hrun. revert Hrun.
  unfold TlsPrfCircuit_generate_constraints, circuit_shape. cbv zeta.
  intros (pv & w1 & _ & (vv & w2 & _ & Hrun)%bind_inv)%bind_inv. revert Hrun.
  destruct (pre_master_secret c), (c_client_random c), (c_server_random c), (pms_hash_fe c); try (by intros [= <- <-]).
  intros (sv & w3 & _ & (ms & w4 & _ & (kb & w5 & _ & [= <- <-])%bind_inv)%bind_inv)%bind_inv. done.
Qed.

Section VerifySpec.
Context {G : Groth16}.

(** The third public input a proof carries. *)
Definition proof_pms (proof : HspProof) : result string (option Fr) :=
  match pms_hash_bytes proof with [] => Ok None | b => Some <$> fr_deserialize b end.

Lemma co_snark_verify_Ok pvk proof expected :
  co_snark_verify pvk proof expected = Ok tt <->
  exists pf comm rand, pf_deserialize (groth16_bytes proof) = Ok pf /\
    fr_deserialize (k_mac_commitment_bytes proof) = Ok comm /\
    fr_deserialize (rand_binding_bytes proof) = Ok rand /\
    proof_pms proof = Ok expected /\
    verify_with_processed_vk pvk ([comm; rand] ++ option_list expected) pf = Ok true /\
    comm = k_mac_commitment (hsp_k_mac proof) rand.
Proof.
  unfold co_snark_verify, proof_pms. split.
  - intros H. inv_ok. subst. exists a, a0, a1. rewrite bool_decide_eq_true in *.
    assert (Hpms : match pms_hash_bytes proof with [] => Ok None | b => Some <$> fr_deserialize b end = Ok expected
                   /\ a2 = expected).
    { destruct (pms_hash_bytes proof) as [|x b]; inv_ok; subst.
      - by destruct expected.
      - destruct expected; [|done]. inv_ok. rewrite bool_decide_eq_true in *. subst.
        match goal with E : fr_deserialize (_ :: _) = _ |- _ => by rewrite E end. }
    destruct Hpms as [Hpms ->]. by split_and!.
  - intros (pf & comm & rand & -> & -> & -> & Hpms & Hv & ->). cbn [map_err mbind result_bind].
    assert (Hopt : match pms_hash_bytes proof with
                   | [] => Ok None
                   | b => pms_fe ← map_err (fun e => CoSnarkSerialize ("pms_hash deserialize: " ++ e)) (fr_deserialize b);
                          Ok (Some pms_fe)
                   end = Ok expected).
    { destruct (pms_hash_bytes proof) as [|x b]; [by injection Hpms as <-|].
      destruct (fr_deserialize (x :: b)); [|done]. injection Hpms as <-. done. }
    rewrite Hopt. cbn [mbind result_bind]. rewrite Hv. cbn [map_err mbind result_bind ensure].
    rewrite bool_decide_eq_true_2 by done. cbn [mbind result_bind ensure].
    destruct expected; [|done]. by rewrite bool_decide_eq_true_2.
Qed.
End VerifySpec.

(** What acceptance of a handshake proof means: verification succeeds exactly
    when proof and public inputs decode, the Groth16 proof is valid for the
    commitment, the randomness and the expected pre-master-secret hash, the
    carried MAC key matches the commitment, and the proof carries a hash
    exactly when the caller expects one, the same one. *)
Theorem co_snark_verify_spec {G : Groth16} pvk proof expected :
  (co_snark_verify pvk proof expected = Ok tt <->
   exists pf comm rand, pf_deserialize (groth16_bytes proof) = Ok pf /\
     fr_deserialize (k_mac_commitment_bytes proof) = Ok comm /\
     fr_deserialize (rand_binding_bytes proof) = Ok rand /\
     proof_pms proof = Ok expected /\
     verify_with_processed_vk pvk ([comm; rand] ++ option_list expected) pf = Ok true /\
     comm = k_mac_commitment (hsp_k_mac proof) rand).
Proof. apply co_snark_verify_Ok. Qed.

(** The key with bit 255 flipped. *)
Definition flip_top (k : array 32) : array 32 :=
  to_array 32 (alter (fun x => u8_xor x (byte 128)) 31%nat (arr k)).

Lemma flip_top_arr k : arr (flip_top k) = alter (fun x => u8_xor x (byte 128)) 31%nat (arr k).
Proof. apply arr_to_array. by rewrite length_alter, length_arr. Qed.

Lemma flip_top_same k : bytes32_to_fr (flip_top k) = bytes32_to_fr k.
Proof.
  unfold bytes32_to_fr, clear_top_bits. rewrite flip_top_arr. f_equal. apply list_eq. intros i.
  destruct (decide (i = 31%nat)) as [->|Hi]; [|by rewrite !list_lookup_alter_ne by done].
  rewrite !list_lookup_alter_eq. destruct (arr k !! 31%nat) as [x|]; [|done]. cbn [fmap option_fmap option_map].
  do 2 f_equal. rewrite uval_xor. apply Z.bits_inj'. intros n Hn. rewrite !Z.land_spec, Z.lxor_spec.
  change 63 with (Z.ones 6). destruct (decide (n < 6)).
  - change (uval (byte 128)) with (2 ^ 7). rewrite Z.pow2_bits_false by lia. by rewrite xorb_false_r.
  - rewrite Z.ones_spec_high by lia. by rewrite !andb_false_r.
Qed.

Lemma flip_top_neq k : flip_top k <> k.
Proof.
  intros Heq%(f_equal arr). rewrite flip_top_arr in Heq.
  destruct (lookup_lt_is_Some_2 (arr k) 31) as [b Hb]; [rewrite length_arr; lia|].
  apply (f_equal (fun l => l !! 31%nat)) in Heq. rewrite list_lookup_alter_eq, Hb in Heq. injection Heq as Heq.
  apply (f_equal (u8_xor b)) in Heq. rewrite (assoc u8_xor), u8_xor_diag, u8_xor_0_l in Heq. done.
Qed.

(** The MAC key a proof carries can be exchanged without invalidating it:
    verification gives the same answer for any key that packs to the same field
    element, and for every key there is a different one that does. *)
Theorem co_snark_verify_k_mac_malleable {G : Groth16} pvk g c r k h expected :
  (forall k', bytes32_to_fr k' = bytes32_to_fr k ->
     co_snark_verify pvk (MkHspProof g c r k' h) expected = co_snark_verify pvk (MkHspProof g c r k h) expected) /\
  (exists k', k' <> k /\
     co_snark_verify pvk (MkHspProof g c r k' h) expected = co_snark_verify pvk (MkHspProof g c r k h) expected).
Proof.
  assert (Hsame : forall k', bytes32_to_fr k' = bytes32_to_fr k ->
     co_snark_verify pvk (MkHspProof g c r k' h) expected = co_snark_verify pvk (MkHspProof g c r k h) expected).
  { intros k' Hk. unfold co_snark_verify, k_mac_commitment. cbn [hsp_k_mac groth16_bytes k_mac_commitment_bytes
      rand_binding_bytes pms_hash_bytes]. by rewrite Hk. }
  split; [done|]. exists (flip_top k). split; [apply flip_top_neq | apply Hsame, flip_top_same].
Qed.

Section Completeness.
Context {Ark : ArkBits} {Hs : Sha256} {Hm : HmacSha256} {G : Groth16} {GL : Groth16Laws G}.

Lemma setup_with_Ok c0 rng crs : setup_with c0 rng = Ok crs ->
  exists keys, circuit_specific_setup c0 rng = Ok keys /\ process_vk keys.2 = Ok (pvk crs) /\ pk crs = keys.1.
Proof. unfold setup_with. intros H. inv_ok. subst. eauto. Qed.

(** A circuit of the right shape that is satisfied has a proof which, with the
    serialized public inputs, is accepted. *)
Lemma prove_accepted c0 rng crs c rng' :
  setup_with c0 rng = Ok crs -> circuit_shape c = circuit_shape c0 -> circuit_satisfied c ->
  exists pf g, prove (pk crs) c rng' = Ok pf /\ pf_serialize pf = Ok g /\ pf_deserialize g = Ok pf /\
    verify_with_processed_vk (pvk crs) (circuit_inputs c) pf = Ok true.
Proof using GL.
  intros (keys & Hset & Hvk & Hpk)%setup_with_Ok Hshape Hsat.
  destruct (groth16_complete _ c _ _ _ rng' Hset Hvk Hshape Hsat) as (pf & Hprove & Hver).
  destruct (pf_roundtrip pf) as (g & Hser & Hde). exists pf, g. by rewrite Hpk.
Qed.

Lemma co_snark_verify_mismatch pvk proof e e' :
  co_snark_verify pvk proof e = Ok tt -> e <> e' -> co_snark_verify pvk proof e' = Err CoSnarkVerify.
Proof.
  intros (pf & comm & rand & H1 & H2 & H3 & H4 & H5 & H6)%co_snark_verify_Ok Hne.
  unfold co_snark_verify. unfold proof_pms in H4. rewrite H1, H2, H3. cbn [map_err mbind result_bind].
  destruct (pms_hash_bytes proof) as [|x b].
  - injection H4 as <-. cbn [option_list app mbind result_bind] in *. rewrite H5. cbn [map_err mbind result_bind ensure].
    rewrite bool_decide_eq_true_2 by done. cbn [mbind result_bind ensure]. by destruct e'.
  - destruct (fr_deserialize (x :: b)); [|done]. injection H4 as <-. cbn [map_err option_list app mbind result_bind] in *.
    rewrite H5. cbn [map_err mbind result_bind ensure]. rewrite bool_decide_eq_true_2 by done.
    cbn [mbind result_bind ensure]. destruct e' as [x'|]; [|done]. by rewrite bool_decide_eq_false_2 by congruence.
Qed.

Lemma execute_accepted rng crs p v rb rng' :
  CoSnarkCrs_setup rng = Ok crs ->
  exists proof, co_snark_execute crs (MkProverMacKeyShare p) (MkVerifierMacKeyShare v) rb rng' = Ok proof /\
    hsp_k_mac proof = arr_xor p v /\ co_snark_verify (pvk crs) proof None = Ok tt.
Proof using Ark GL.
  intros Hcrs. destruct (prove_accepted _ _ _ (TlsPrfCircuit_new p v rb) rng' Hcrs eq_refl) as (pf & g & Hp & Hg & Hd & Hv).
  { by apply circuit_mode1. }
  rewrite satisfied_inputs in Hv by (by apply circuit_mode1).
  set (c := TlsPrfCircuit_new p v rb) in *.
  destruct (fr_roundtrip (k_mac_commitment_fe c)) as (cb & Hc & _ & Hcd).
  destruct (fr_roundtrip (rand_binding_fe c)) as (rbs & Hr & _ & Hrd).
  eexists. split_and!.
  - unfold co_snark_execute. cbn [pmk_0 vmk_0]. fold c. rewrite Hp. cbn [map_err mbind result_bind].
    rewrite Hg, Hc, Hr. cbn [map_err mbind result_bind pms_hash_fe c TlsPrfCircuit_new]. reflexivity.
  - done.
  - apply co_snark_verify_Ok. exists pf, (k_mac_commitment_fe c), (rand_binding_fe c). by split_and!.
Qed.

(** Completeness of the share-only co-SNARK: under the keys of one setup,
    execution succeeds for every pair of shares and every randomness, the proof
    carries the combined MAC key and is accepted by a verifier that expects no
    pre-master-secret hash, and is rejected by one that expects any. *)
Theorem co_snark_execute_verifies rng crs p v rb rng' :
  CoSnarkCrs_setup rng = Ok crs ->
  exists proof,
    co_snark_execute crs (MkProverMacKeyShare p) (MkVerifierMacKeyShare v) rb rng' = Ok proof /\
    hsp_k_mac proof = mk_0 (combine_mac_key_shares (MkProverMacKeyShare p) (MkVerifierMacKeyShare v)) /\
    co_snark_verify (pvk crs) proof None = Ok tt /\
    forall e, co_snark_verify (pvk crs) proof (Some e) = Err CoSnarkVerify.
Proof using Ark GL.
  intros Hcrs. destruct (execute_accepted _ _ p v rb rng' Hcrs) as (proof & He & Hk & Hv).
  exists proof. split_and!; [done..|]. intros e. by eapply co_snark_verify_mismatch.
Qed.

Hypothesis sha2_is_fips : forall l, arr (sha256_digest l) = Fips.sha256 l.
Hypothesis hmac_is_rfc2104 : forall k d, arr (hmac_sha256 k d) = Rfc.hmac k d.

(** Completeness of the co-SNARK bound to a TLS session: when the shares
    combine to the MAC key TLS 1.2 derives from the pre-master secret and the
    randoms, execution under session-mode keys succeeds, and the proof is accepted
    exactly by verifiers that expect the hash of that pre-master secret; a
    verifier that omits the hash or expects another one rejects it. *)
Theorem co_snark_mode2_verifies rng crs p v rb pms cr sr rng' :
  CoSnarkCrs_setup_mode2 rng = Ok crs ->
  combine_mac_key_shares (MkProverMacKeyShare p) (MkVerifierMacKeyShare v) = derive_k_mac_from_pms pms cr sr ->
  exists proof,
    co_snark_execute_mode2 crs (MkProverMacKeyShare p) (MkVerifierMacKeyShare v) rb (arr (pms_0 pms)) cr sr rng'
      = Ok proof /\
    hsp_k_mac proof = mk_0 (derive_k_mac_from_pms pms cr sr) /\
    forall e, co_snark_verify (pvk crs) proof e
              = if bool_decide (e = Some (pms_hash (arr (pms_0 pms)))) then Ok tt else Err CoSnarkVerify.
Proof using GL sha2_is_fips hmac_is_rfc2104.
  intros Hcrs Hk.
  set (c := TlsPrfCircuit_with_tls_prf p v rb (arr (pms_0 pms)) cr sr) in *.
  destruct (prove_accepted _ _ _ c rng' Hcrs) as (pf & g & Hp & Hg & Hd & Hv).
  { unfold circuit_shape. cbn. by rewrite length_arr. }
  { apply circuit_mode2; [done..|]. split_and!; [done..|]. by rewrite <- Hk. }
  rewrite satisfied_inputs in Hv by (apply circuit_mode2; [done..|]; split_and!; [done..|]; by rewrite <- Hk).
  destruct (fr_roundtrip (k_mac_commitment_fe c)) as (cb & Hc & _ & Hcd).
  destruct (fr_roundtrip (rand_binding_fe c)) as (rbs & Hr & _ & Hrd).
  destruct (fr_roundtrip (pms_hash (arr (pms_0 pms)))) as (pb & Hpb & Hlen & Hpd).
  eexists. split_and!.
  - unfold co_snark_execute_mode2. cbn [pmk_0 vmk_0]. fold c. rewrite Hp. cbn [map_err mbind result_bind].
    rewrite Hg, Hc, Hr, Hpb. cbn [map_err mbind result_bind]. reflexivity.
  - cbn [hsp_k_mac]. by rewrite Hk.
  - set (proof := MkHspProof _ _ _ _ _).
    assert (Hacc : co_snark_verify (pvk crs) proof (Some (pms_hash (arr (pms_0 pms)))) = Ok tt).
    { apply co_snark_verify_Ok. exists pf, (k_mac_commitment_fe c), (rand_binding_fe c). split_and!; try done.
      - unfold proof_pms, proof. cbn [pms_hash_bytes]. destruct pb; [done|]. by rewrite Hpd. }
    intros e. case_bool_decide as He; [by subst|]. by eapply co_snark_verify_mismatch.
Qed.
End Completeness.

(** ** The two-party variant *)

(** Masking does not change the result of the two-party protocol: with any
    two ephemeral secrets the masks cancel, so that it is an execution of the
    one-party protocol on the combined key and a zero share; under the keys of
    one setup it succeeds with the combined key and an accepted proof. *)
Theorem co_snark_split_correct {Ark : ArkBits} {Hs : Sha256} {G : Groth16} {GL : Groth16Laws G} {X : X25519}
    setup_rng crs p v rb sp sv rng :
  CoSnarkCrs_setup setup_rng = Ok crs ->
  co_snark_execute_split crs p v rb sp sv rng
  = co_snark_execute crs (MkProverMacKeyShare (arr_xor p v)) (MkVerifierMacKeyShare (array_repeat 32 (byte 0))) rb rng /\
  exists proof, co_snark_execute_split crs p v rb sp sv rng = Ok proof /\
    hsp_k_mac proof = arr_xor p v /\ co_snark_verify (pvk crs) proof None = Ok tt.
Proof.
  intros Hcrs.
  assert (Heq : co_snark_execute_split crs p v rb sp sv rng
    = co_snark_execute crs (MkProverMacKeyShare (arr_xor p v)) (MkVerifierMacKeyShare (array_repeat 32 (byte 0))) rb rng).
  { unfold co_snark_execute_split, co_snark_combine, co_snark_execute, compute_masked_share, public_key.
    cbn [dh_public_key masked_bytes dh_secret mac_share pmk_0 vmk_0 combine_mac_key_shares mk_0].
    rewrite !bool_decide_eq_true_2 by done. cbn [ensure mbind result_bind].
    rewrite (dh_agree sv sp). set (m := derive_mask _).
    replace (arr_xor (arr_xor p m) (arr_xor v m)) with (arr_xor p v).
    2: { rewrite (comm arr_xor v m), (comm arr_xor p m), <- (assoc arr_xor), (assoc arr_xor p m v), (comm arr_xor p m).
         by rewrite <- (assoc arr_xor m p v), arr_xor_cancel_l. }
    unfold combine_mac_key_shares. cbn [mk_0 pmk_0 vmk_0].
    replace (arr_xor (arr_xor p v) (array_repeat 32 (byte 0))) with (arr_xor p v); [done|].
    by rewrite (comm arr_xor (arr_xor p v)), arr_xor_0_l. }
  split; [done|]. rewrite Heq.
  destruct (execute_accepted _ _ (arr_xor p v) (array_repeat 32 (byte 0)) rb rng Hcrs) as (proof & He & Hk & Hv).
  exists proof. split_and!; [done| |done]. by rewrite Hk, (comm arr_xor), arr_xor_0_l.
Qed.

(** Backends set up with the same randomness have one key: the plain one accepts
    the proofs of the split one, on the combination of the shares. *)
Lemma split_backend_interoperates {Ark : ArkBits} {Hs : Sha256} {G : Groth16} {GL : Groth16Laws G} {X : X25519}
    setup_rng sb p v rb sp sv rng :
  SplitCoSnarkBackend_setup setup_rng = Ok sb ->
  exists b proof, CoSnarkBackend_setup setup_rng = Ok b /\
    SplitCoSnarkBackend_execute_split sb p v rb sp sv rng = Ok proof /\
    hsp_k_mac proof = arr_xor p v /\ CoSnarkBackend_verify b proof None = Ok tt.
Proof.
  intros (crs & Hcrs & [= <-])%bind_Ok. unfold CoSnarkBackend_setup. rewrite Hcrs.
  destruct (co_snark_split_correct setup_rng crs p v rb sp sv rng Hcrs) as (_ & proof & He & Hk & Hv).
  by exists (MkCoSnarkBackend crs), proof.
Qed.

(** ** MiMC *)

Lemma mul_assoc a b c : mul a (mul b c) = mul (mul a b) c.
Proof. to_Z. f_equal. lia. Qed.

(** The MiMC circuit computes the native hash, although it multiplies in a
    different order: block cipher and sponge agree on all inputs, and both
    reject a constant vector of the wrong length. *)
Theorem mimc_gadget_correct inputs constants :
  (forall msg key, mimc7_enc_gadget msg key constants = mimc7_enc msg key constants) /\
  mimc7_sponge_gadget inputs constants = mimc7_sponge inputs constants /\
  (length constants = MIMC_ROUNDS -> exists h, mimc7_sponge inputs constants = Some h).
Proof.
  assert (Henc : forall msg key, mimc7_enc_gadget msg key constants = mimc7_enc msg key constants).
  { intros msg key. unfold mimc7_enc_gadget, mimc7_enc. destruct (_ =? _)%nat; [|done]. do 2 f_equal.
    revert msg. induction constants as [|c cs IH]; intros msg; [done|]. cbn [fold_left]. rewrite IH. f_equal.
    unfold mimc_round, mimc_round_gadget. apply mul_assoc. }
  split; [done|]. unfold mimc7_sponge, mimc7_sponge_gadget. generalize zero. intros st. split.
  - revert st. induction inputs as [|x xs IH]; intros st; cbn [sponge_loop]; [done|].
    rewrite Henc. destruct (mimc7_enc _ _ _); [|done]. apply IH.
  - intros Hlen. revert st. induction inputs as [|x xs IH]; intros st; cbn [sponge_loop]; [eauto|].
    assert (Hsome : exists e, mimc7_enc (add st x) zero constants = Some e)
      by (unfold mimc7_enc; rewrite Hlen, Nat.eqb_refl; eauto).
    destruct Hsome as [e ->]. apply IH.
Qed.

(** ** Concrete instances *)

(** A proof system whose proofs are the encoded public inputs. *)
Definition toy_fr_bytes (x : Fr) : bytes := reverse (be_bytes 32 (fr_val x)).
Definition toy_prove {Ark : ArkBits} (c : TlsPrfCircuit) : result string bytes :=
  match TlsPrfCircuit_generate_constraints c Own with
  | Ok (s, _) => if forallb (fun p => bool_decide (p.1 = p.2)) (equalities s)
            then Ok (concat (toy_fr_bytes <$> public_inputs s)) else Err "unsatisfied"
  | Err _ => Err "synthesis"
  end.
Definition toy_groth16 {Ark : ArkBits} : Groth16 := {|
  Pk := unit; Vk := unit; Pvk := unit; Pf := bytes; Rng := unit;
  circuit_specific_setup _ _ := Ok (tt, tt);
  process_vk _ := Ok tt;
  prove _ c _ := toy_prove c;
  verify_with_processed_vk _ inputs pf := Ok (bool_decide (pf = concat (toy_fr_bytes <$> inputs)));
  pf_serialize := Ok; pf_deserialize := Ok;
  fr_serialize x := Ok (toy_fr_bytes x);
  fr_deserialize b := match try_into 32 b with
                      | Some a => Ok (of_Z (be_val (reverse (arr a))))
                      | None => Err "length"
                      end;
  pvk_serialize _ := Ok []; pvk_deserialize _ := Ok tt
|}.

Lemma toy_fr_roundtrip x :
  fr_deserialize (Groth16:=toy_groth16 (Ark:=value_ark)) (toy_fr_bytes x) = Ok x.
Proof.
  assert (Hlen : length (toy_fr_bytes x) = 32%nat) by (unfold toy_fr_bytes; by rewrite length_reverse, length_be_bytes).
  cbn [fr_deserialize toy_groth16]. rewrite <- (arr_to_array 32 _ Hlen), try_into_arr, arr_to_array by done.
  unfold toy_fr_bytes. rewrite reverse_involutive, be_val_be_bytes. f_equal. rewrite Z.mod_small; [apply of_Z_val|].
  pose proof (fr_val_range x). split; [lia|]. eapply Z.lt_trans; [apply fr_val_range|]. reflexivity.
Qed.

#[export] Instance toy_groth16_laws : Groth16Laws (Ark:=value_ark) (toy_groth16 (Ark:=value_ark)).
Proof.
  split.
  - intros pf. by exists pf.
  - intros x. exists (toy_fr_bytes x). split_and!; [done| |apply toy_fr_roundtrip].
    unfold toy_fr_bytes. by rewrite length_reverse, length_be_bytes.
  - intros c0 c rng keys pvk rng' _ _ _ (s & w & Hsyn & _ & Hall).
    exists (concat (toy_fr_bytes <$> public_inputs s)). cbn [prove verify_with_processed_vk toy_groth16].
    unfold toy_prove, circuit_inputs. rewrite Hsyn, bool_decide_eq_true_2 by done. split; [|done].
    replace (forallb _ _) with true; [done|]. symmetry. apply Is_true_eq_true, forallb_True.
    eapply Forall_impl; [exact Hall|]. intros p Hp. by apply bool_decide_pack.
Qed.

(** A key agreement in which the shared secret is the XOR of the public keys. *)
Program Definition toy_x25519 : X25519 := {|
  EphemeralSecret := array 32; x_public s := s; diffie_hellman s pk := arr_xor s pk
|}.
Next Obligation. intros s t. apply (comm arr_xor). Qed.

Definition toy_crs : CoSnarkCrs (G:=toy_groth16 (Ark:=value_ark)) := MkCoSnarkCrs (G:=toy_groth16 (Ark:=value_ark)) tt tt.
Definition a32 (z : Z) : array 32 := array_repeat 32 (byte z).

(** A circuit built for the randoms 4 and 5 is satisfied with the randoms 6 and 7 in
    the first stage of the PRF and 8 and 9 in the second. *)
Lemma tls_prf_circuit_relation_witness :
  let pms := MkPreMasterSecret (array_repeat 48 (byte 3)) in
  let key := prf_key (Hm:=rfc_hmac) pms (a32 6) (a32 7) (a32 8) (a32 9) in
  satisfies (Ark:=value_ark)
    (MkTlsPrfCircuit (k_mac_commitment (arr_xor key (a32 2)) zero) zero None (a32 0) (a32 0) None None None)
    (Given (arr key ++ arr (a32 2))) /\
  satisfies (Ark:=value_ark)
    (MkTlsPrfCircuit (k_mac_commitment (arr_xor (a32 0) key) zero) zero (Some (pms_hash (Hs:=fips_sha2) (arr (pms_0 pms))))
       (a32 1) (a32 2) (Some (arr (pms_0 pms))) (Some (a32 4)) (Some (a32 5)))
    (Given (arr (a32 0) ++ arr key ++ arr (pms_0 pms) ++ arr (a32 6) ++ arr (a32 7) ++ arr (a32 8) ++ arr (a32 9))).
Proof.
  intros pms key. split.
  - refine (proj2 (proj1 (tls_prf_circuit_relation (Ark:=value_ark) (Hs:=fips_sha2) (Hm:=rfc_hmac) fips_sha2_law
      rfc_hmac_law _ _ (a32 0) (a32 0) zero pms (a32 4) (a32 5) _)) _). by exists key, (a32 2).
  - refine (proj2 (proj1 (proj2 (tls_prf_circuit_relation (Ark:=value_ark) (Hs:=fips_sha2) (Hm:=rfc_hmac) fips_sha2_law
      rfc_hmac_law _ _ (a32 1) (a32 2) _ pms (a32 4) (a32 5) _))) _).
    exists (a32 0), key, pms, (a32 6), (a32 7), (a32 8), (a32 9). split_and!; [reflexivity..|].
    unfold a32 at 1. rewrite arr_xor_0_l. reflexivity.
Defined.

Lemma pgp_circuit_relation_witness :
  Forall (fun p => p.1 = p.2) (equalities (PgpBindingCircuit_generate_constraints (Ark:=value_ark)
    (PgpBindingCircuit_new (Hs:=fips_sha2) (a32 1) (a32 2) (a32 3)))).
Proof.
  exact (proj2 (pgp_circuit_relation (Ark:=value_ark) (Hs:=fips_sha2) fips_sha2_law zero zero zero zero
    (a32 1) (a32 2)) (a32 3)).
Defined.

Lemma co_snark_execute_verifies_witness :
  exists proof,
    co_snark_execute (G:=toy_groth16 (Ark:=value_ark)) toy_crs (MkProverMacKeyShare (a32 1)) (MkVerifierMacKeyShare (a32 2))
      (a32 3) tt = Ok proof /\ hsp_k_mac proof = a32 3.
Proof.
  destruct (co_snark_execute_verifies (Ark:=value_ark) (G:=toy_groth16 (Ark:=value_ark)) tt toy_crs (a32 1) (a32 2)
    (a32 3) tt eq_refl) as (proof & He & Hk & _).
  exists proof. split; [exact He|]. rewrite Hk. vm_compute. reflexivity.
Defined.

Lemma co_snark_mode2_verifies_witness :
  let pms := MkPreMasterSecret (array_repeat 48 (byte 3)) in
  exists proof,
    co_snark_execute_mode2 (Hs:=fips_sha2) (G:=toy_groth16 (Ark:=value_ark)) toy_crs
      (MkProverMacKeyShare (mk_0 (derive_k_mac_from_pms (Hm:=rfc_hmac) pms (a32 4) (a32 5))))
      (MkVerifierMacKeyShare (a32 0)) (a32 3) (arr (pms_0 pms)) (a32 4) (a32 5) tt = Ok proof /\
    co_snark_verify (G:=toy_groth16 (Ark:=value_ark)) tt proof None = Err CoSnarkVerify.
Proof.
  intros pms.
  destruct (co_snark_mode2_verifies (Ark:=value_ark) (Hs:=fips_sha2) (Hm:=rfc_hmac) (G:=toy_groth16 (Ark:=value_ark))
    fips_sha2_law rfc_hmac_law tt toy_crs
    (mk_0 (derive_k_mac_from_pms (Hm:=rfc_hmac) pms (a32 4) (a32 5))) (a32 0) (a32 3) pms (a32 4) (a32 5) tt)
    as (proof & He & _ & Hv).
  - reflexivity.
  - unfold combine_mac_key_shares. cbn [pmk_0 vmk_0]. rewrite (comm arr_xor). unfold a32. by rewrite arr_xor_0_l.
  - exists proof. split; [exact He|]. exact (Hv None).
Defined.

Lemma co_snark_split_correct_witness :
  exists proof,
    co_snark_execute_split (Hs:=fips_sha2) (G:=toy_groth16 (Ark:=value_ark)) (X:=toy_x25519) toy_crs
      (a32 1) (a32 2) (a32 3) (a32 7) (a32 9) tt = Ok proof /\ hsp_k_mac proof = a32 3.
Proof.
  destruct (co_snark_split_correct (Ark:=value_ark) (Hs:=fips_sha2) (G:=toy_groth16 (Ark:=value_ark)) (X:=toy_x25519) tt toy_crs
    (a32 1) (a32 2) (a32 3) (a32 7) (a32 9) tt eq_refl) as (_ & proof & He & Hk & _).
  exists proof. split; [exact He|]. rewrite Hk. vm_compute. reflexivity.
Defined.

Lemma mimc_gadget_correct_witness :
  exists h, mimc7_sponge [of_Z 1; of_Z 2] (mimc_constants (Hs:=toy_sha256)) = Some h.
Proof.
  apply (proj2 (proj2 (mimc_gadget_correct [of_Z 1; of_Z 2] (mimc_constants (Hs:=toy_sha256))))).
  reflexivity.
Defined.
