(* ===== verification/FrostAux.v ===== *)
(** * The auxiliary node of the distributed FROST protocol

    Models [node/src/frost_aux.rs]: the node's state with its two nonce caches,
    both rounds of the attestation protocol and of the handshake-binding
    protocol, and the assembly of signing packages. A node's methods take
    [&self] and run concurrently; each critical section of a mutex is one
    atomic step, and [handshake_binding_round1] has two.

    What a call reads from its environment is an argument: the random
    generator, the wall clock of [verify_hsp_proof] and the two monotonic
    instants of eviction and insertion. *)

From S2P Require Import Prelude Core Session Storage Attestation Threshold Registry Dctls Network Errors.
From S2P Require Import Sha256Gadget HmacGadget CoSnark Frost.

(** A monotonic instant, in nanoseconds. *)
Definition Instant : Type := Z.
(** [now.duration_since(earlier)], which saturates at zero. *)
Definition duration_since (now earlier : Instant) : Z := Z.max 0 (now - earlier).

Definition PENDING_TTL : Z := 300 * 10 ^ 9.

Section FrostAux.
Context {Hs : Sha256} {Ed : Ed25519} {Fr : FrostEd25519} {G : Groth16}.
Context {Jh : SerdeJson HspProof} {Je : SerdeJson DctlsEvidence}.
Local Open Scope stres_scope.

Record PendingRound := MkPendingRound {
  pr_nonces : FrostSigningNonces;
  pr_signer_set : list VerifierId;
  pr_signed_digest : DigestBytes;
  pr_registry_epoch : RegistryEpoch;
  pr_inserted_at : Instant
}.

Local Notation cache := (gmap SessionId PendingRound) (only parsing).

Definition evict_expired (now : Instant) (c : cache) : cache :=
  filter (fun kv => duration_since now (pr_inserted_at kv.2) < PENDING_TTL) c.

Record FrostAuxiliaryNode := MkFrostAuxiliaryNode {
  participant : FrostParticipant;
  node_registry : option ParticipantRegistry;
  pending : cache;
  hb_pending : cache
}.

Definition FrostAuxiliaryNode_new (p : FrostParticipant) : FrostAuxiliaryNode :=
  {| participant := p; node_registry := None; pending := ∅; hb_pending := ∅ |}.
Definition with_registry (p : FrostParticipant) (r : ParticipantRegistry) : FrostAuxiliaryNode :=
  {| participant := p; node_registry := Some r; pending := ∅; hb_pending := ∅ |}.

Definition node_verifier_id (self : FrostAuxiliaryNode) : VerifierId := fp_verifier_id (participant self).

Definition set_pending (c : cache) (n : FrostAuxiliaryNode) : FrostAuxiliaryNode :=
  {| participant := participant n; node_registry := node_registry n; pending := c; hb_pending := hb_pending n |}.
Definition set_hb_pending (c : cache) (n : FrostAuxiliaryNode) : FrostAuxiliaryNode :=
  {| participant := participant n; node_registry := node_registry n; pending := pending n; hb_pending := c |}.

(** What one call of a round-1 method reads from its environment. *)
Record Env := MkEnv {
  env_rng : Frost.Rng;
  env_now_secs : u64;
  env_evict_at : Instant;
  env_insert_at : Instant
}.

Definition CoSnarkError_debug (e : CoSnarkError) : string :=
  match e with
  | CoSnarkSetup m => "Setup(" +:+ str_debug m +:+ ")"
  | CoSnarkProve m => "Prove(" +:+ str_debug m +:+ ")"
  | CoSnarkVerify => "Verify"
  | CoSnarkSerialize m => "Serialize(" +:+ str_debug m +:+ ")"
  end.

(** ** Checks of round 1 *)

Definition check_signers (reg : ParticipantRegistry) (signers : list VerifierId)
    (err : VerifierId -> RegistryError -> NodeError) : result NodeError unit :=
  try_fold (fun _ vid => match get_active reg vid with Ok _ => Ok tt | Err e => Err (err vid e) end) tt signers.

(** Step 3 of [frost_round1]. *)
Definition check_registry (self : FrostAuxiliaryNode) (epoch : RegistryEpoch) (signers : list VerifierId)
    (mismatch : RegistryEpoch -> NodeError) (denied : VerifierId -> RegistryError -> NodeError)
    : result NodeError unit :=
  match node_registry self with
  | None => Ok tt
  | Some reg =>
      if negb (bool_decide (epoch = RegistryEpoch_GENESIS)) && negb (bool_decide (epoch = reg_epoch reg))
      then Err (mismatch (reg_epoch reg))
      else if negb (bool_decide (epoch = RegistryEpoch_GENESIS)) then check_signers reg signers denied
      else Ok tt
  end.

(** Step 5: the handshake proof. *)
Definition check_hsp (request : FrostRound1Request) : result NodeError unit :=
  let sid := SessionId_to_string (f1_session_id request) in
  match f1_hsp_proof_bytes request, f1_hsp_pvk_bytes request with
  | (_ :: _) as proof_bytes, (_ :: _) as pvk_bytes =>
      proof ← map_err (fun e => FrostProtocol ("π_HSP deserialization failed for session " +:+ sid +:+ ": " +:+ e))
                (json_from_slice proof_bytes);
      pvk ← map_err (fun e => FrostProtocol ("HSP verifying key deserialization failed for session " +:+ sid +:+
                                ": " +:+ e)) (pvk_deserialize pvk_bytes);
      map_err (fun e => FrostProtocol ("ZKP.Verify(π_HSP, rand) failed for session " +:+ sid +:+ ": " +:+
                          CoSnarkError_debug e)) (co_snark_verify pvk proof None)
  | _, _ => Ok tt
  end.

(** Step 5b: the DCTLS evidence. *)
Definition check_evidence (now_secs : u64) (request : FrostRound1Request) : result NodeError unit :=
  let sid := SessionId_to_string (f1_session_id request) in
  match f1_dctls_evidence_bytes request with
  | [] => Ok tt
  | evidence_bytes =>
      evidence ← map_err (fun e => FrostProtocol ("DctlsEvidence deserialization failed for session " +:+ sid +:+
                                     ": " +:+ e)) (json_from_slice (T:=DctlsEvidence) evidence_bytes);
      rand ← ok_or (FrostProtocol ("rand_value_bytes must be 32 bytes for session " +:+ sid))
               (try_into 32 (f1_rand_value_bytes request));
      let rand_value := MkDigestBytes rand in
      cert ← ok_or (FrostProtocol ("server_cert_hash_bytes must be 32 bytes for session " +:+ sid))
               (try_into 32 (f1_server_cert_hash_bytes request));
      let server_cert_hash := MkDigestBytes cert in
      _ ← map_err (fun e => FrostProtocol ("ZKP.Verify(π_DCTLS, rand): verify_hsp_proof failed for session " +:+ sid +:+
                              ": " +:+ DctlsError_to_string e))
            (verify_hsp_proof now_secs (hsp_proof evidence) rand_value server_cert_hash);
      _ ← map_err (fun e => FrostProtocol ("ZKP.Verify(π_pgp, b): verify_pgp_proof failed for session " +:+ sid +:+
                              ": " +:+ DctlsError_to_string e))
            (verify_pgp_proof (pgp_proof evidence) rand_value (hsp_proof evidence));
      _ ← map_err (fun e => FrostProtocol ("ZKP.Verify(π_DCTLS): transcript consistency failed for session " +:+ sid +:+
                              ": " +:+ DctlsError_to_string e))
            (verify_transcript_consistency (hsp_proof evidence) (query_record evidence) (pgp_proof evidence));
      Ok tt
  end.

(** Steps 1 to 5b, which read only the immutable part of the node. *)
Definition round1_checks (self : FrostAuxiliaryNode) (request : FrostRound1Request) (now : UnixTimestamp)
    (now_secs : u64) : result NodeError unit :=
  let sid := SessionId_to_string (f1_session_id request) in
  let my_id := node_verifier_id self in
  _ ← ensure (FrostProtocol ("round-1 request expired for session " +:+ sid +:+ ": expires_at=" +:+
                pretty (uval (UnixTimestamp_0 (f1_round_expires_at request))) +:+ " now=" +:+ pretty (uval (UnixTimestamp_0 now))))
        (negb (u_ltb (UnixTimestamp_0 (f1_round_expires_at request)) (UnixTimestamp_0 now)));
  _ ← ensure (FrostProtocol ("verifier " +:+ VerifierId_to_string my_id +:+
                " is not in the signer set for session " +:+ sid))
        (contains (f1_signer_set request) my_id);
  _ ← check_registry self (f1_registry_epoch request) (f1_signer_set request)
        (fun e => SigningAdmission ("registry epoch mismatch for session " +:+ sid +:+ ": request carries epoch " +:+
                    RegistryEpoch_debug (f1_registry_epoch request) +:+ ", registry is at epoch " +:+ RegistryEpoch_debug e))
        (fun vid e => SigningAdmission ("signing admission denied for session " +:+ sid +:+ ": signer " +:+
                    VerifierId_to_string vid +:+ " rejected by registry: " +:+ RegistryError_to_string e));
  _ ← ensure (FrostProtocol ("signed_digest mismatch in round-1 for session " +:+ sid +:+
                ": coordinator-supplied value does not equal approval_signed_digest(envelope_digest)"))
        (bool_decide (f1_signed_digest request = approval_signed_digest (f1_envelope_digest request)));
  _ ← check_hsp request;
  check_evidence now_secs request.

(** ** Rounds of the attestation protocol *)

(** [cache.insert(session_id, PendingRound { .. })] *)
Definition insert_round (sid : SessionId) (nonces : FrostSigningNonces) (signers : list VerifierId)
    (d : DigestBytes) (epoch : RegistryEpoch) (at_ : Instant) (c : cache) : cache :=
  <[sid := {| pr_nonces := nonces; pr_signer_set := signers; pr_signed_digest := d;
              pr_registry_epoch := epoch; pr_inserted_at := at_ |}]> c.

Definition frost_round1 (request : FrostRound1Request) (now : UnixTimestamp) (env : Env)
    : stres FrostAuxiliaryNode NodeError FrostRound1Response := fun self =>
  (slift (round1_checks self request now (env_now_secs env)) ;;;
   let '(nonces, commitment) := round1 (participant self) (env_rng env) in
   let commitment_bytes := commitment_to_bytes commitment in
   (fun self =>
      let c := evict_expired (env_evict_at env) (pending self) in
      match c !! f1_session_id request with
      | Some _ =>
          (set_pending c self,
           Err (FrostProtocol ("round-1 already completed for session " +:+
                  SessionId_to_string (f1_session_id request) +:+ " — refusing duplicate nonce generation")))
      | None =>
          (set_pending (insert_round (f1_session_id request) nonces (f1_signer_set request) (f1_signed_digest request)
                          (f1_registry_epoch request) (env_insert_at env) c) self, Ok tt)
      end) ;;;
   b <-- slift (map_err NodeCrypto commitment_bytes) ;;
   sret {| f1r_session_id := f1_session_id request; f1r_verifier_id := node_verifier_id self;
           f1r_commitment_bytes := b |}) self.

Definition frost_round2 (request : FrostRound2Request)
    : stres FrostAuxiliaryNode NodeError FrostRound2Response := fun self =>
  let sid := SessionId_to_string (f2_session_id request) in
  match pending self !! f2_session_id request with
  | None => (self, Err (FrostProtocol ("nonces missing for session " +:+ sid +:+
               " — round-1 may not have run, or the node restarted between rounds")))
  | Some p =>
      (slift
         (_ ← ensure (FrostProtocol ("signer-set mismatch for session " +:+ sid +:+
                       ": round-2 signer set differs from round-1 commitment"))
                (bool_decide (f2_signer_set request = pr_signer_set p));
          signing_package ← map_err NodeCrypto (package_from_bytes (f2_signing_package_bytes request));
          _ ← ensure (FrostProtocol ("signing package message mismatch for session " +:+ sid +:+
                       ": the message embedded in the signing package does not match the signed_digest committed to in round-1"))
                (bool_decide (message_bytes signing_package = arr (as_bytes (pr_signed_digest p))));
          share ← map_err NodeCrypto (round2 (participant self) signing_package (pr_nonces p));
          b ← map_err NodeCrypto (share_to_bytes share);
          Ok {| f2r_session_id := f2_session_id request; f2r_verifier_id := node_verifier_id self;
                f2r_signature_share_bytes := b |}))
        (set_pending (delete (f2_session_id request) (pending self)) self)
  end.

Definition pending_session_count (self : FrostAuxiliaryNode) : nat := size (pending self).

(** ** Rounds of the handshake-binding protocol *)

(** Up to and including the first critical section. *)
Definition hb_round1_guard (request : HandshakeBindingRound1Request) (now : UnixTimestamp)
    (self : FrostAuxiliaryNode) : result NodeError unit :=
  let sid := SessionId_to_string (hb1_session_id request) in
  let my_id := node_verifier_id self in
  _ ← ensure (FrostProtocol ("handshake-binding round-1 expired for session " +:+ sid +:+ ": expires_at=" +:+
                pretty (uval (UnixTimestamp_0 (hb1_round_expires_at request))) +:+ " now=" +:+ pretty (uval (UnixTimestamp_0 now))))
        (negb (u_ltb (UnixTimestamp_0 (hb1_round_expires_at request)) (UnixTimestamp_0 now)));
  _ ← ensure (FrostProtocol ("verifier " +:+ VerifierId_to_string my_id +:+
                " not in signer set for handshake-binding session " +:+ sid))
        (contains (hb1_signer_set request) my_id);
  _ ← check_registry self (hb1_registry_epoch request) (hb1_signer_set request)
        (fun e => SigningAdmission ("registry epoch mismatch in handshake-binding for session " +:+ sid +:+
                    ":                      request=" +:+ RegistryEpoch_debug (hb1_registry_epoch request) +:+
                    ", registry=" +:+ RegistryEpoch_debug e))
        (fun vid e => SigningAdmission ("handshake-binding admission denied for session " +:+ sid +:+
                    ":                              signer " +:+ VerifierId_to_string vid +:+ " rejected: " +:+ RegistryError_to_string e));
  ensure (FrostProtocol ("handshake-binding round-1 already completed for session " +:+ sid))
    (bool_decide (hb_pending self !! hb1_session_id request = None)).

(** The second critical section: eviction and insertion, without a check. *)
Definition hb_round1_insert (request : HandshakeBindingRound1Request) (env : Env) (self : FrostAuxiliaryNode)
    : FrostAuxiliaryNode :=
  let nonces := (round1 (participant self) (env_rng env)).1 in
  set_hb_pending
    (insert_round (hb1_session_id request) nonces (hb1_signer_set request) (hb1_binding_input request)
       (hb1_registry_epoch request) (env_insert_at env) (evict_expired (env_evict_at env) (hb_pending self))) self.

(** What the method returns after the second section. *)
Definition hb_round1_response (request : HandshakeBindingRound1Request) (env : Env) (self : FrostAuxiliaryNode)
    : result NodeError HandshakeBindingRound1Response :=
  b ← map_err NodeCrypto (commitment_to_bytes (round1 (participant self) (env_rng env)).2);
  Ok {| hb1r_session_id := hb1_session_id request; hb1r_verifier_id := node_verifier_id self;
        hb1r_commitment_bytes := b |}.

(** The whole method, undisturbed. *)
Definition handshake_binding_round1 (request : HandshakeBindingRound1Request) (now : UnixTimestamp) (env : Env)
    : stres FrostAuxiliaryNode NodeError HandshakeBindingRound1Response := fun self =>
  match hb_round1_guard request now self with
  | Err e => (self, Err e)
  | Ok _ => (hb_round1_insert request env self, hb_round1_response request env self)
  end.

Definition handshake_binding_round2 (request : HandshakeBindingRound2Request)
    : stres FrostAuxiliaryNode NodeError HandshakeBindingRound2Response := fun self =>
  let sid := SessionId_to_string (hb2_session_id request) in
  match hb_pending self !! hb2_session_id request with
  | None => (self, Err (FrostProtocol ("handshake-binding nonces missing for session " +:+ sid +:+
               " —                      round-1 may not have run or node restarted")))
  | Some p =>
      (slift
         (_ ← ensure (FrostProtocol ("handshake-binding signer-set mismatch for session " +:+ sid))
                (bool_decide (hb2_signer_set request = pr_signer_set p));
          signing_package ← map_err NodeCrypto (package_from_bytes (hb2_signing_package_bytes request));
          _ ← ensure (FrostProtocol ("handshake-binding message mismatch for session " +:+ sid +:+
                       ":                  signing package does not embed the binding_input from round-1"))
                (bool_decide (message_bytes signing_package = arr (as_bytes (pr_signed_digest p))));
          share ← map_err NodeCrypto (round2 (participant self) signing_package (pr_nonces p));
          b ← map_err NodeCrypto (share_to_bytes share);
          Ok {| hb2r_session_id := hb2_session_id request; hb2r_verifier_id := node_verifier_id self;
                hb2r_signature_share_bytes := b |}))
        (set_hb_pending (delete (hb2_session_id request) (hb_pending self)) self)
  end.

(** ** Signing packages *)

Definition assemble_signing_package_from_responses (responses : list FrostRound1Response)
    (signed_digest : DigestBytes) (group_key : FrostGroupKey) : result NodeError (FrostSigningPackage * bytes) :=
  let collected := (fun r => (f1r_verifier_id r, f1r_commitment_bytes r)) <$> responses in
  map_err NodeCrypto (build_signing_package collected signed_digest group_key).

Definition assemble_hb_signing_package_from_responses (responses : list HandshakeBindingRound1Response)
    (binding_input : DigestBytes) (group_key : FrostGroupKey) : result NodeError (FrostSigningPackage * bytes) :=
  let collected := (fun r => (hb1r_verifier_id r, hb1r_commitment_bytes r)) <$> responses in
  map_err NodeCrypto (build_signing_package collected binding_input group_key).
End FrostAux.

(** ** Interleavings *)

Section System.
Context {Hs : Sha256} {Ed : Ed25519} {Fr : FrostEd25519} {G : Groth16}.
Context {Jh : SerdeJson HspProof} {Je : SerdeJson DctlsEvidence}.

(** Atomic steps of the calls in progress. A thread that has passed the guard
    of [handshake_binding_round1] is between its two critical sections. *)
Inductive Action :=
  | ARound1 (req : FrostRound1Request) (now : UnixTimestamp) (env : Env)
  | ARound2 (req : FrostRound2Request)
  | AHbGuard (tid : nat) (req : HandshakeBindingRound1Request) (now : UnixTimestamp)
  | AHbInsert (tid : nat) (env : Env)
  | AHbRound2 (req : HandshakeBindingRound2Request).

Record Sys := MkSys {
  sys_node : FrostAuxiliaryNode;
  sys_threads : gmap nat HandshakeBindingRound1Request
}.

Definition step (s : Sys) (a : Action) : Sys :=
  let n := sys_node s in
  match a with
  | ARound1 req now env => MkSys (frost_round1 req now env n).1 (sys_threads s)
  | ARound2 req => MkSys (frost_round2 req n).1 (sys_threads s)
  | AHbGuard tid req now =>
      match hb_round1_guard req now n with
      | Ok _ => MkSys n (<[tid := req]> (sys_threads s))
      | Err _ => s
      end
  | AHbInsert tid env =>
      match sys_threads s !! tid with
      | Some req => MkSys (hb_round1_insert req env n) (delete tid (sys_threads s))
      | None => s
      end
  | AHbRound2 req => MkSys (handshake_binding_round2 req n).1 (sys_threads s)
  end.

Definition run (n : FrostAuxiliaryNode) (acts : list Action) : Sys := fold_left step acts (MkSys n ∅).

Definition is_round2 (sid : SessionId) (a : Action) : Prop :=
  match a with ARound2 req => f2_session_id req = sid | _ => False end.
Definition is_hb_round2 (sid : SessionId) (a : Action) : Prop :=
  match a with AHbRound2 req => hb2_session_id req = sid | _ => False end.

(** ** What the operations do to the caches *)

Lemma round1_pair self env :
  round1 (participant self) env = ((round1 (participant self) env).1, (round1 (participant self) env).2).
Proof. by destruct (round1 _ _). Qed.

(** The effect of [frost_round1] on the node. *)
Lemma frost_round1_state req now env n :
  let n' := (frost_round1 req now env n).1 in
  let c := evict_expired (env_evict_at env) (pending n) in
  n' = n \/
  round1_checks n req now (env_now_secs env) = Ok tt /\
  ((is_Some (c !! f1_session_id req) /\ n' = set_pending c n) \/
   (c !! f1_session_id req = None /\
    n' = set_pending (insert_round (f1_session_id req) (round1 (participant n) (env_rng env)).1 (f1_signer_set req)
           (f1_signed_digest req) (f1_registry_epoch req) (env_insert_at env) c) n)).
Proof.
  intros n' c. subst n'. unfold frost_round1, sbind, slift.
  destruct (round1_checks n req now (env_now_secs env)) as [[]|e]; [|by left]. right. split; [done|].
  rewrite round1_pair. cbn [fst snd]. fold c. destruct (c !! f1_session_id req) eqn:Hc; cbn [fst snd].
  - left. eauto.
  - right. split; [done|]. by destruct (commitment_to_bytes _).
Qed.

Lemma frost_round2_state req n :
  (frost_round2 req n).1 = n /\ pending n !! f2_session_id req = None \/
  (frost_round2 req n).1 = set_pending (delete (f2_session_id req) (pending n)) n.
Proof. unfold frost_round2. destruct (pending n !! f2_session_id req); [by right|by left]. Qed.

Lemma hb_round2_state req n :
  (handshake_binding_round2 req n).1 = n /\ hb_pending n !! hb2_session_id req = None \/
  (handshake_binding_round2 req n).1 = set_hb_pending (delete (hb2_session_id req) (hb_pending n)) n.
Proof. unfold handshake_binding_round2. destruct (hb_pending n !! hb2_session_id req); [by right|by left]. Qed.

Lemma evict_lookup now c sid p :
  evict_expired now c !! sid = Some p <-> c !! sid = Some p /\ duration_since now (pr_inserted_at p) < PENDING_TTL.
Proof. unfold evict_expired. apply (map_lookup_filter_Some (M:=gmap SessionId)). Qed.

Lemma run_snoc n acts a : run n (acts ++ [a]) = step (run n acts) a.
Proof. unfold run. by rewrite fold_left_app. Qed.

(** Identity and registry of the node do not change. *)
Lemma step_immutable s a :
  participant (sys_node (step s a)) = participant (sys_node s) /\
  node_registry (sys_node (step s a)) = node_registry (sys_node s).
Proof.
  destruct a as [req now env|req|tid req now|tid env|req]; cbn [step].
  - destruct (frost_round1_state req now env (sys_node s)) as [H|(_ & [[_ H]|[_ H]])]; cbn [sys_node]; by rewrite H.
  - destruct (frost_round2_state req (sys_node s)) as [[H _]|H]; cbn [sys_node]; by rewrite H.
  - by destruct (hb_round1_guard _ _ _).
  - by destruct (sys_threads s !! tid).
  - destruct (hb_round2_state req (sys_node s)) as [[H _]|H]; cbn [sys_node]; by rewrite H.
Qed.

Lemma run_participant n acts : participant (sys_node (run n acts)) = participant n.
Proof.
  induction acts as [|a acts IH] using rev_ind; [done|]. rewrite run_snoc, <- IH. apply step_immutable.
Qed.
End System.

(** ** Admission to round 1 *)

Section Admission.
Context {Hs : Sha256} {Ed : Ed25519} {Fr : FrostEd25519} {G : Groth16}.
Context {Jh : SerdeJson HspProof} {Je : SerdeJson DctlsEvidence}.

Lemma check_signers_Ok reg signers err :
  check_signers reg signers err = Ok tt <-> Forall (fun v => is_ok (get_active reg v) = true) signers.
Proof.
  unfold check_signers. induction signers as [|v vs IH]; cbn [try_fold]; [by split; [constructor|]|].
  rewrite Forall_cons, <- IH. destruct (get_active reg v); cbn [mbind result_bind is_ok]; [tauto|].
  split; [done | by intros [? _]].
Qed.

(** The registry policy a request satisfies. *)
Definition registry_admits (r : option ParticipantRegistry) (epoch : RegistryEpoch) (signers : list VerifierId) : Prop :=
  forall reg, r = Some reg -> epoch <> RegistryEpoch_GENESIS ->
    epoch = reg_epoch reg /\ Forall (fun v => is_ok (get_active reg v) = true) signers.

Lemma check_registry_Ok self epoch signers e1 e2 :
  check_registry self epoch signers e1 e2 = Ok tt <-> registry_admits (node_registry self) epoch signers.
Proof.
  unfold check_registry, registry_admits. destruct (node_registry self) as [reg|]; [|by split; [intros _ ? [=]|]].
  case_bool_decide as Hg; cbn [negb andb]; [by split; [intros _ ? _ []|]|].
  case_bool_decide as He; cbn [negb andb].
  - rewrite check_signers_Ok. split; [by intros H ? [= <-] _|]. intros H. by apply H.
  - split; [done|]. intros H. by destruct (H reg).
Qed.

(** The handshake-proof policy. *)
Definition hsp_admits (req : FrostRound1Request) : Prop :=
  f1_hsp_proof_bytes req <> [] -> f1_hsp_pvk_bytes req <> [] ->
  exists proof pvk, json_from_slice (f1_hsp_proof_bytes req) = Ok proof /\
    pvk_deserialize (f1_hsp_pvk_bytes req) = Ok pvk /\
    co_snark_verify pvk proof None = Ok tt /\ pms_hash_bytes proof = [].

Lemma check_hsp_Ok req : check_hsp req = Ok tt -> hsp_admits req.
Proof.
  unfold check_hsp, hsp_admits. intros H Hp Hv.
  destruct (f1_hsp_proof_bytes req) as [|x xs]; [done|]. destruct (f1_hsp_pvk_bytes req) as [|y ys]; [done|].
  inv_ok. exists a, a0. split_and!; [done..|].
  match goal with E : co_snark_verify _ _ _ = _ |- _ => apply co_snark_verify_Ok in E as (_ & _ & _ & _ & _ & _ & E & _) end.
  unfold proof_pms in *. destruct (pms_hash_bytes a) as [|z zs]; [done|]. by destruct (fr_deserialize (z :: zs)).
Qed.

(** The evidence policy. *)
Definition evidence_admits (now_secs : u64) (req : FrostRound1Request) : Prop :=
  f1_dctls_evidence_bytes req <> [] ->
  exists ev rand cert, json_from_slice (f1_dctls_evidence_bytes req) = Ok ev /\
    f1_rand_value_bytes req = arr rand /\ f1_server_cert_hash_bytes req = arr cert /\
    verify_hsp_proof now_secs (hsp_proof ev) (MkDigestBytes rand) (MkDigestBytes cert) = Ok tt /\
    verify_pgp_proof (pgp_proof ev) (MkDigestBytes rand) (hsp_proof ev) = Ok tt /\
    is_ok (verify_transcript_consistency (hsp_proof ev) (query_record ev) (pgp_proof ev)) = true.

Lemma check_evidence_Ok now_secs req : check_evidence now_secs req = Ok tt -> evidence_admits now_secs req.
Proof.
  unfold check_evidence, evidence_admits. intros H He.
  destruct (f1_dctls_evidence_bytes req) as [|x xs]; [done|]. inv_ok.
  repeat match goal with H : try_into 32 _ = Some _ |- _ => apply try_into_Some in H end.
  exists a, a0, a1. repeat match goal with u : unit |- _ => destruct u end. split_and!; try done.
  match goal with E : verify_transcript_consistency _ _ _ = _ |- _ => by rewrite E end.
Qed.

Lemma round1_checks_Ok self req now now_secs :
  round1_checks self req now now_secs = Ok tt ->
  uval (UnixTimestamp_0 now) <= uval (UnixTimestamp_0 (f1_round_expires_at req)) /\
  node_verifier_id self ∈ f1_signer_set req /\
  registry_admits (node_registry self) (f1_registry_epoch req) (f1_signer_set req) /\
  f1_signed_digest req = approval_signed_digest (f1_envelope_digest req) /\
  hsp_admits req /\ evidence_admits now_secs req.
Proof.
  unfold round1_checks. intros H. inv_ok. repeat match goal with u : unit |- _ => destruct u end.
  unfold contains in *. rewrite bool_decide_eq_true in *. split_and!; try done.
  - unfold u_ltb in *. lia.
  - by eapply check_registry_Ok.
  - by apply check_hsp_Ok.
  - by apply check_evidence_Ok.
Qed.

(** C13. What a node has checked when it answers round 1: the request has not
    expired, names this node among the signers, satisfies the registry policy
    (unless it carries the genesis epoch or the node has no registry), asks for
    the approval digest of the envelope digest, and every handshake proof and
    DCTLS evidence it carries verifies, the handshake proof without a
    pre-master-secret hash; no round of the session is pending after eviction,
    and the nonces of exactly this request are cached under it. *)
Theorem frost_round1_admission self req now env self' resp :
  frost_round1 req now env self = (self', Ok resp) ->
  uval (UnixTimestamp_0 now) <= uval (UnixTimestamp_0 (f1_round_expires_at req)) /\
  node_verifier_id self ∈ f1_signer_set req /\
  registry_admits (node_registry self) (f1_registry_epoch req) (f1_signer_set req) /\
  f1_signed_digest req = approval_signed_digest (f1_envelope_digest req) /\
  hsp_admits req /\ evidence_admits (env_now_secs env) req /\
  evict_expired (env_evict_at env) (pending self) !! f1_session_id req = None /\
  pending self' = <[f1_session_id req := MkPendingRound (round1 (participant self) (env_rng env)).1
                      (f1_signer_set req) (f1_signed_digest req) (f1_registry_epoch req) (env_insert_at env)]>
                    (evict_expired (env_evict_at env) (pending self)) /\
  hb_pending self' = hb_pending self.
Proof.
  intros Hrun. pose proof Hrun as Hrun'. unfold frost_round1, sbind, slift in Hrun'.
  destruct (round1_checks self req now (env_now_secs env)) as [[]|e] eqn:Hchk; [|done].
  destruct (round1_checks_Ok _ _ _ _ Hchk) as (? & ? & ? & ? & ? & ?). split_and!; try done; revert Hrun';
    rewrite round1_pair; cbn [fst snd]; destruct (_ !! f1_session_id req) eqn:Hc; try done;
    destruct (commitment_to_bytes _); cbn [map_err]; try done; by intros [= <- _].
Qed.
End Admission.

(** ** Single use of nonces *)

Section SingleUse.
Context {Hs : Sha256} {Ed : Ed25519} {Fr : FrostEd25519} {G : Groth16}.
Context {Jh : SerdeJson HspProof} {Je : SerdeJson DctlsEvidence}.
Context (node : FrostAuxiliaryNode).

(** [p] was cached by an admitted round-1 call of [acts], and no round 2 of the
    session came after it. *)
Definition cached_by (acts : list Action) (sid : SessionId) (p : PendingRound) : Prop :=
  exists pre req now env mid,
    acts = pre ++ ARound1 req now env :: mid /\ f1_session_id req = sid /\
    round1_checks (sys_node (run node pre)) req now (env_now_secs env) = Ok tt /\
    p = MkPendingRound (round1 (participant node) (env_rng env)).1 (f1_signer_set req) (f1_signed_digest req)
          (f1_registry_epoch req) (env_insert_at env) /\
    Forall (fun a => ~ is_round2 sid a) mid.

Definition hb_cached_by (acts : list Action) (sid : SessionId) (p : PendingRound) : Prop :=
  exists pre tid req env mid,
    acts = pre ++ AHbInsert tid env :: mid /\ sys_threads (run node pre) !! tid = Some req /\
    hb1_session_id req = sid /\
    p = MkPendingRound (round1 (participant node) (env_rng env)).1 (hb1_signer_set req) (hb1_binding_input req)
          (hb1_registry_epoch req) (env_insert_at env) /\
    Forall (fun a => ~ is_hb_round2 sid a) mid.

Lemma cached_by_snoc acts sid p a : cached_by acts sid p -> ~ is_round2 sid a -> cached_by (acts ++ [a]) sid p.
Proof.
  intros (pre & req & now & env & mid & -> & Hsid & Hchk & Hp & Hmid) Ha.
  exists pre, req, now, env, (mid ++ [a]). rewrite <- (assoc_L (++)). split_and!; try done.
  apply Forall_app. by rewrite Forall_singleton.
Qed.

Lemma hb_cached_by_snoc acts sid p a :
  hb_cached_by acts sid p -> ~ is_hb_round2 sid a -> hb_cached_by (acts ++ [a]) sid p.
Proof.
  intros (pre & tid & req & env & mid & -> & Ht & Hsid & Hp & Hmid) Ha.
  exists pre, tid, req, env, (mid ++ [a]). rewrite <- (assoc_L (++)). split_and!; try done.
  apply Forall_app. by rewrite Forall_singleton.
Qed.

(** Only the operations of its protocol touch a cache. *)
Lemma step_pending s a :
  match a with ARound1 _ _ _ | ARound2 _ => True | _ => pending (sys_node (step s a)) = pending (sys_node s) end.
Proof.
  destruct a as [| |tid req now|tid env|req]; cbn [step]; try done.
  - by destruct (hb_round1_guard _ _ _).
  - by destruct (sys_threads s !! tid).
  - destruct (hb_round2_state req (sys_node s)) as [[H _]|H]; cbn [sys_node]; by rewrite H.
Qed.

Lemma step_hb_pending s a :
  match a with AHbInsert _ _ | AHbRound2 _ => True | _ => hb_pending (sys_node (step s a)) = hb_pending (sys_node s) end.
Proof.
  destruct a as [req now env|req|tid req now| |]; cbn [step]; try done.
  - destruct (frost_round1_state req now env (sys_node s)) as [H|(_ & [[_ H]|[_ H]])]; cbn [sys_node]; by rewrite H.
  - destruct (frost_round2_state req (sys_node s)) as [[H _]|H]; cbn [sys_node]; by rewrite H.
  - by destruct (hb_round1_guard _ _ _).
Qed.

Lemma pending_cached acts sid p :
  pending node = ∅ -> pending (sys_node (run node acts)) !! sid = Some p -> cached_by acts sid p.
Proof.
  intros Hempty. revert sid p. induction acts as [|a acts IH] using rev_ind; intros sid p.
  { cbn. rewrite Hempty. by rewrite lookup_empty. }
  rewrite run_snoc. pose proof (step_pending (run node acts) a) as Hsame.
  destruct a as [req now env|req|tid req now|tid env|req];
    try (rewrite Hsame; intros Hp; by apply cached_by_snoc; [apply IH|intros []]); cbn [step sys_node].
  - destruct (frost_round1_state req now env (sys_node (run node acts))) as [->|(Hchk & [[_ ->]|[_ ->]])].
    + intros Hp. apply cached_by_snoc; [by apply IH|intros []].
    + cbn [pending set_pending]. intros [Hp _]%evict_lookup. apply cached_by_snoc; [by apply IH|intros []].
    + cbn [pending set_pending]. unfold insert_round. destruct (decide (f1_session_id req = sid)) as [<-|Hne].
      * rewrite lookup_insert_eq. intros [= <-]. exists acts, req, now, env, [].
        split_and!; try done. by rewrite run_participant.
      * rewrite lookup_insert_ne by done. intros [Hp _]%evict_lookup.
        apply cached_by_snoc; [by apply IH|intros []].
  - destruct (frost_round2_state req (sys_node (run node acts))) as [[-> Hnone]| ->].
    + intros Hp. apply cached_by_snoc; [by apply IH|]. intros Hsid. cbn in Hsid. subst. congruence.
    + cbn [pending set_pending]. intros [Hne Hp]%lookup_delete_Some. by apply cached_by_snoc; [apply IH|].
Qed.

Lemma hb_pending_cached acts sid p :
  hb_pending node = ∅ -> hb_pending (sys_node (run node acts)) !! sid = Some p -> hb_cached_by acts sid p.
Proof.
  intros Hempty. revert sid p. induction acts as [|a acts IH] using rev_ind; intros sid p.
  { cbn. rewrite Hempty. by rewrite lookup_empty. }
  rewrite run_snoc. pose proof (step_hb_pending (run node acts) a) as Hsame.
  destruct a as [req now env|req|tid req now|tid env|req];
    try (rewrite Hsame; intros Hp; by apply hb_cached_by_snoc; [apply IH|intros []]); cbn [step].
  - destruct (sys_threads (run node acts) !! tid) as [req|] eqn:Ht; cbn [sys_node];
      [|intros Hp; apply hb_cached_by_snoc; [by apply IH|intros []]].
    unfold hb_round1_insert, insert_round. cbn [hb_pending set_hb_pending].
    destruct (decide (hb1_session_id req = sid)) as [<-|Hne].
    + rewrite lookup_insert_eq. intros [= <-]. exists acts, tid, req, env, [].
      split_and!; try done. by rewrite run_participant.
    + rewrite lookup_insert_ne by done. intros [Hp _]%evict_lookup.
      apply hb_cached_by_snoc; [by apply IH|intros []].
  - cbn [sys_node]. destruct (hb_round2_state req (sys_node (run node acts))) as [[-> Hnone]| ->].
    + intros Hp. apply hb_cached_by_snoc; [by apply IH|]. intros Hsid. cbn in Hsid. subst. congruence.
    + cbn [hb_pending set_hb_pending]. intros [Hne Hp]%lookup_delete_Some. by apply hb_cached_by_snoc; [apply IH|].
Qed.

(** C4. Nonces are used once, and only for what was agreed to: in every
    interleaving of calls on a node that starts with an empty cache, a round 2
    that produces a share follows an admitted round 1 of its session, with no
    other round 2 of the session in between; the share is made from the nonces
    of that round 1, for its signer set and for the approval digest of its
    envelope digest. Hence no round 1 serves two round-2 calls. *)
Theorem frost_nonce_single_use acts req2 self' resp :
  pending node = ∅ ->
  frost_round2 req2 (sys_node (run node acts)) = (self', Ok resp) ->
  exists pre req1 now env mid pkg share,
    acts = pre ++ ARound1 req1 now env :: mid /\
    Forall (fun a => ~ is_round2 (f2_session_id req2) a) mid /\
    f1_session_id req1 = f2_session_id req2 /\
    round1_checks (sys_node (run node pre)) req1 now (env_now_secs env) = Ok tt /\
    f2_signer_set req2 = f1_signer_set req1 /\
    package_from_bytes (f2_signing_package_bytes req2) = Ok pkg /\
    message_bytes pkg = arr (as_bytes (approval_signed_digest (f1_envelope_digest req1))) /\
    round2 (participant node) pkg (round1 (participant node) (env_rng env)).1 = Ok share /\
    share_to_bytes share = Ok (f2r_signature_share_bytes resp) /\
    pending self' !! f2_session_id req2 = None.
Proof.
  intros Hempty. unfold frost_round2. destruct (pending _ !! _) as [p|] eqn:Hp; [|done].
  unfold slift. intros [= <- Hres].
  destruct (pending_cached _ _ _ Hempty Hp) as (pre & req1 & now & env & mid & -> & Hsid & Hchk & -> & Hmid).
  inv_ok. rewrite bool_decide_eq_true in *.
  destruct (round1_checks_Ok _ _ _ _ Hchk) as (_ & _ & _ & Hd & _). cbn [pr_signed_digest pr_signer_set pr_nonces] in *.
  exists pre, req1, now, env, mid. rewrite <- Hd. rewrite run_participant in *. eexists _, _.
  split_and!; try done. cbn [pending set_pending]. apply lookup_delete_eq.
Qed.

(** The same for handshake binding, in every interleaving of the critical
    sections: a share is made from the nonces of an insertion by a call that
    had passed the guard, with no other round 2 of the session in between, for
    its signer set and its binding input. *)
Theorem hb_nonce_single_use acts req2 self' resp :
  hb_pending node = ∅ ->
  handshake_binding_round2 req2 (sys_node (run node acts)) = (self', Ok resp) ->
  exists pre tid req1 env mid pkg share,
    acts = pre ++ AHbInsert tid env :: mid /\ sys_threads (run node pre) !! tid = Some req1 /\
    Forall (fun a => ~ is_hb_round2 (hb2_session_id req2) a) mid /\
    hb1_session_id req1 = hb2_session_id req2 /\
    hb2_signer_set req2 = hb1_signer_set req1 /\
    package_from_bytes (hb2_signing_package_bytes req2) = Ok pkg /\
    message_bytes pkg = arr (as_bytes (hb1_binding_input req1)) /\
    round2 (participant node) pkg (round1 (participant node) (env_rng env)).1 = Ok share /\
    share_to_bytes share = Ok (hb2r_signature_share_bytes resp).
Proof.
  intros Hempty. unfold handshake_binding_round2. destruct (hb_pending _ !! _) as [p|] eqn:Hp; [|done].
  unfold slift. intros [= _ Hres].
  destruct (hb_pending_cached _ _ _ Hempty Hp) as (pre & tid & req1 & env & mid & -> & Ht & Hsid & -> & Hmid).
  inv_ok. rewrite bool_decide_eq_true in *. cbn [pr_signed_digest pr_signer_set pr_nonces] in *.
  exists pre, tid, req1, env, mid. rewrite run_participant in *. eexists _, _. by split_and!.
Qed.

(** A pending attestation round is never replaced: in every interleaving, one
    atomic step leaves the cached nonces of a session as they are, unless it is
    the round 2 of that session or a round 1 that evicts the entry because it
    is older than five minutes. *)
Theorem frost_pending_stable acts a sid p :
  pending (sys_node (run node acts)) !! sid = Some p ->
  pending (sys_node (run node (acts ++ [a]))) !! sid = Some p \/
  is_round2 sid a \/
  exists req now env, a = ARound1 req now env /\ PENDING_TTL <= duration_since (env_evict_at env) (pr_inserted_at p).
Proof.
  intros Hp. rewrite run_snoc. pose proof (step_pending (run node acts) a) as Hsame.
  destruct a as [req now env|req|tid req now|tid env|req]; try (rewrite Hsame; by left); cbn [step sys_node].
  - destruct (decide (duration_since (env_evict_at env) (pr_inserted_at p) < PENDING_TTL)) as [Hlt|Hge].
    2: { right; right. eexists _, _, _. split; [done|lia]. }
    assert (Hev : evict_expired (env_evict_at env) (pending (sys_node (run node acts))) !! sid = Some p)
      by (by apply evict_lookup).
    left. destruct (frost_round1_state req now env (sys_node (run node acts))) as [->|(Hchk & [[_ ->]|[Hn ->]])]; [done..|].
    cbn [pending set_pending]. unfold insert_round. rewrite lookup_insert_ne; [done|congruence].
  - destruct (decide (f2_session_id req = sid)) as [<-|Hne]; [by right; left|]. left.
    destruct (frost_round2_state req (sys_node (run node acts))) as [[-> _]| ->]; [done|].
    cbn [pending set_pending]. by rewrite lookup_delete_ne.
Qed.
End SingleUse.

Section Races.
Context {Hs : Sha256} {Ed : Ed25519} {Fr : FrostEd25519} {G : Groth16}.
Context {Jh : SerdeJson HspProof} {Je : SerdeJson DctlsEvidence}.

(** The guard of handshake-binding round 1 does not exclude a concurrent
    round 1: when two calls for one session are each acceptable alone, both pass
    the guard before either inserts; each inserts, and the second insertion
    replaces the nonces whose commitment the first call returns. *)
Theorem hb_round1_race n req1 req2 now e1 e2 :
  hb1_session_id req1 = hb1_session_id req2 ->
  hb_round1_guard req1 now n = Ok tt -> hb_round1_guard req2 now n = Ok tt ->
  let acts := [AHbGuard 0 req1 now; AHbGuard 1 req2 now; AHbInsert 0 e1; AHbInsert 1 e2] in
  sys_threads (run n acts) = ∅ /\
  (exists p1, hb_pending (sys_node (run n (take 3 acts))) !! hb1_session_id req1 = Some p1 /\
     pr_nonces p1 = (round1 (participant n) (env_rng e1)).1) /\
  (exists p2, hb_pending (sys_node (run n acts)) !! hb1_session_id req1 = Some p2 /\
     pr_nonces p2 = (round1 (participant n) (env_rng e2)).1 /\ pr_signed_digest p2 = hb1_binding_input req2).
Proof.
  intros Hsid H1 H2 acts.
  assert (Hg2 : run n [AHbGuard 0 req1 now; AHbGuard 1 req2 now] = MkSys n (<[1%nat:=req2]> (<[0%nat:=req1]> ∅))).
  { unfold run. cbn [fold_left step sys_node]. rewrite H1. cbn [sys_node]. rewrite H2. done. }
  assert (Hg3 : run n (take 3 acts) = MkSys (hb_round1_insert req1 e1 n) (<[1%nat:=req2]> ∅)).
  { change (take 3 acts) with ([AHbGuard 0 req1 now; AHbGuard 1 req2 now] ++ [AHbInsert 0 e1]).
    rewrite run_snoc, Hg2. cbn [step sys_threads sys_node]. rewrite lookup_insert_ne, lookup_insert_eq by done.
    done. }
  assert (Hg4 : run n acts = MkSys (hb_round1_insert req2 e2 (hb_round1_insert req1 e1 n)) ∅).
  { change acts with (take 3 acts ++ [AHbInsert 1 e2]). rewrite run_snoc, Hg3. cbn [step sys_threads sys_node].
    by rewrite lookup_insert_eq. }
  rewrite Hg3, Hg4. unfold hb_round1_insert, insert_round. cbn [sys_threads sys_node hb_pending set_hb_pending participant].
  split_and!; [done|..].
  - rewrite lookup_insert_eq. by eexists.
  - rewrite Hsid, lookup_insert_eq. by eexists.
Qed.

(** A session identifier is not spent by signing: after a round 2 of a
    session, whatever it returned, a further round 1 of the same session is
    admitted whenever its own checks pass, also for another envelope, and its
    nonces can again be consumed. *)
Theorem frost_session_reopens n req2 req1 now env b :
  f1_session_id req1 = f2_session_id req2 ->
  round1_checks (frost_round2 req2 n).1 req1 now (env_now_secs env) = Ok tt ->
  commitment_to_bytes (round1 (participant n) (env_rng env)).2 = Ok b ->
  exists n' p, frost_round1 req1 now env (frost_round2 req2 n).1
               = (n', Ok (MkFrostRound1Response (f1_session_id req1) (node_verifier_id n) b)) /\
    pending n' !! f2_session_id req2 = Some p /\ pr_signed_digest p = f1_signed_digest req1.
Proof.
  intros Hsid Hchk Hb. set (n1 := (frost_round2 req2 n).1) in *.
  assert (Hn1 : participant n1 = participant n /\ pending n1 !! f2_session_id req2 = None).
  { unfold n1. destruct (frost_round2_state req2 n) as [[-> Hn]| ->]; [done|]. split; [done|].
    cbn [pending set_pending]. apply lookup_delete_eq. }
  destruct Hn1 as [Hpart Hnone]. rewrite <- Hpart in Hb.
  assert (Hev : evict_expired (env_evict_at env) (pending n1) !! f1_session_id req1 = None).
  { rewrite Hsid. destruct (evict_expired _ _ !! _) as [p|] eqn:Hp; [|done]. apply evict_lookup in Hp as [Hp _]. congruence. }
  unfold frost_round1, sbind, slift. rewrite Hchk, round1_pair. cbn [fst snd]. rewrite Hev. cbn [fst snd].
  rewrite Hb. cbn [map_err]. unfold node_verifier_id. rewrite Hpart. eexists _, _. split; [done|].
  cbn [pending set_pending]. unfold insert_round. rewrite Hsid, lookup_insert_eq. done.
Qed.
End Races.

(** ** Concrete runs *)

Section Examples.
#[local] Existing Instance toy_sha256.
#[local] Existing Instance toy_ed25519.
#[local] Existing Instance toy_frost.
#[local] Instance example_groth16 : Groth16 := toy_groth16 (Ark:=value_ark).

(** A serializer that supports no value: requests without proofs do not use it. *)
#[local] Instance no_json T : SerdeJson T.
Proof. refine {| json_to_vec _ := Err "unsupported"; json_from_slice _ := Err "unsupported" |}. by intros v b [=]. Defined.

Definition ex_node : FrostAuxiliaryNode := FrostAuxiliaryNode_new (toy_participant 3 1).
Definition ex_now : UnixTimestamp := MkUnixTimestamp (n64 10).
Definition ex_env (z : Z) : Env := MkEnv [byte z] (n64 0) 0 0.
Definition ex_round1 (d : Z) : FrostRound1Request :=
  {| f1_session_id := sid 1; f1_coordinator_id := vid 9;
     f1_signed_digest := approval_signed_digest (digest d); f1_envelope_digest := digest d;
     f1_signer_set := [vid 1; vid 2]; f1_round_expires_at := MkUnixTimestamp (n64 100);
     f1_registry_epoch := RegistryEpoch_GENESIS; f1_hsp_proof_bytes := []; f1_hsp_pvk_bytes := [];
     f1_dctls_evidence_bytes := []; f1_rand_value_bytes := []; f1_server_cert_hash_bytes := [] |}.
Definition ex_round2 (d : Z) : FrostRound2Request :=
  {| f2_session_id := sid 1; f2_coordinator_id := vid 9;
     f2_signing_package_bytes := arr (as_bytes (approval_signed_digest (digest d)));
     f2_signer_set := [vid 1; vid 2] |}.
Definition ex_hb1 (d : Z) : HandshakeBindingRound1Request :=
  {| hb1_session_id := sid 1; hb1_coordinator_id := vid 9; hb1_binding_input := digest d;
     hb1_signer_set := [vid 1; vid 2]; hb1_round_expires_at := MkUnixTimestamp (n64 100);
     hb1_registry_epoch := RegistryEpoch_GENESIS |}.
Definition ex_hb2 (d : Z) : HandshakeBindingRound2Request :=
  {| hb2_session_id := sid 1; hb2_coordinator_id := vid 9; hb2_signing_package_bytes := arr (as_bytes (digest d));
     hb2_signer_set := [vid 1; vid 2] |}.
Definition ex_share : FrostRound2Response := MkFrostRound2Response (sid 1) (vid 1) [byte 7].

Lemma frost_round1_admission_witness : node_verifier_id ex_node ∈ f1_signer_set (ex_round1 5).
Proof.
  refine (proj1 (proj2 (frost_round1_admission ex_node (ex_round1 5) ex_now (ex_env 7)
    (frost_round1 (ex_round1 5) ex_now (ex_env 7) ex_node).1 _ _))).
  apply (run_ok_unwrap (MkFrostRound1Response (sid 0) (vid 0) [])). vm_compute. reflexivity.
Defined.

Lemma frost_nonce_single_use_witness :
  exists pre req1 now env mid,
    [ARound1 (ex_round1 5) ex_now (ex_env 7)] = pre ++ ARound1 req1 now env :: mid /\
    f1_session_id req1 = sid 1.
Proof.
  destruct (frost_nonce_single_use ex_node [ARound1 (ex_round1 5) ex_now (ex_env 7)] (ex_round2 5)
    (frost_round2 (ex_round2 5) (sys_node (run ex_node [ARound1 (ex_round1 5) ex_now (ex_env 7)]))).1
    ex_share) as (pre & req1 & now & env & mid & pkg & share & Hacts & _ & Hsid & _).
  - reflexivity.
  - etrans; [apply (run_ok_unwrap ex_share); vm_compute; reflexivity|]. f_equal; vm_compute; reflexivity.
  - exists pre, req1, now, env, mid. split; [exact Hacts | exact Hsid].
Defined.

Lemma hb_nonce_single_use_witness :
  let acts := [AHbGuard 0 (ex_hb1 5) ex_now; AHbInsert 0 (ex_env 7)] in
  exists pre tid req1 env mid,
    acts = pre ++ AHbInsert tid env :: mid /\ hb1_session_id req1 = sid 1.
Proof.
  intros acts.
  destruct (hb_nonce_single_use ex_node acts (ex_hb2 5)
    (handshake_binding_round2 (ex_hb2 5) (sys_node (run ex_node acts))).1
    (MkHandshakeBindingRound2Response (sid 1) (vid 1) [byte 7]))
    as (pre & tid & req1 & env & mid & pkg & share & Hacts & _ & _ & Hsid & _).
  - reflexivity.
  - etrans; [apply (run_ok_unwrap (MkHandshakeBindingRound2Response (sid 1) (vid 1) [])); vm_compute; reflexivity|].
    f_equal; vm_compute; reflexivity.
  - exists pre, tid, req1, env, mid. split; [exact Hacts | exact Hsid].
Defined.

Definition ex_pending : PendingRound :=
  MkPendingRound (MkFrostSigningNonces [byte 7]) [vid 1; vid 2] (approval_signed_digest (digest 5)) RegistryEpoch_GENESIS 0.

(** A second round 1 of the session does not disturb the first. *)
Lemma frost_pending_stable_witness :
  let a := ARound1 (ex_round1 6) ex_now (ex_env 8) in
  pending (sys_node (run ex_node ([ARound1 (ex_round1 5) ex_now (ex_env 7)] ++ [a]))) !! sid 1 = Some ex_pending.
Proof.
  intros a.
  destruct (frost_pending_stable ex_node [ARound1 (ex_round1 5) ex_now (ex_env 7)] a (sid 1) ex_pending)
    as [H|[H|(req & now & env & Ha & Httl)]].
  - vm_compute. reflexivity.
  - exact H.
  - destruct H.
  - injection Ha as <- <- <-. exfalso. revert Httl. vm_compute. by intros [].
Defined.

Lemma hb_round1_race_witness :
  exists p, hb_pending (sys_node (run ex_node [AHbGuard 0 (ex_hb1 5) ex_now; AHbGuard 1 (ex_hb1 6) ex_now;
      AHbInsert 0 (ex_env 7); AHbInsert 1 (ex_env 8)])) !! sid 1 = Some p /\
    pr_nonces p = (round1 (toy_participant 3 1) [byte 8]).1 /\ pr_signed_digest p = digest 6.
Proof.
  refine (proj2 (proj2 (hb_round1_race ex_node (ex_hb1 5) (ex_hb1 6) ex_now (ex_env 7) (ex_env 8) _ _ _)));
    vm_compute; reflexivity.
Defined.

(** One session, two shares, for two envelopes. *)
Lemma frost_session_reopens_witness :
  let n := (frost_round1 (ex_round1 5) ex_now (ex_env 7) ex_node).1 in
  (frost_round2 (ex_round2 5) n).2 = Ok ex_share /\
  exists n' p, frost_round1 (ex_round1 6) ex_now (ex_env 8) (frost_round2 (ex_round2 5) n).1
    = (n', Ok (MkFrostRound1Response (sid 1) (vid 1) [byte 8])) /\
    pending n' !! sid 1 = Some p /\ pr_signed_digest p = approval_signed_digest (digest 6).
Proof.
  intros n. split; [vm_compute; reflexivity|].
  apply (frost_session_reopens n (ex_round2 5) (ex_round1 6) ex_now (ex_env 8) [byte 8]); vm_compute; reflexivity.
Defined.
End Examples.
