(* ===== verification/Dkg.v ===== *)
(** * Distributed key generation: parts, key announcements, encryption

    Models the DKG layer of the crate [tls-attestation-crypto]:
    - [dkg.rs]: the three parts of the ceremony, around the external crate
      [frost-ed25519] (class [FrostDkg], which extends [FrostEd25519]);
    - [dkg_announce.rs]: signed announcements of the encryption keys and the
      registry that verifies them;
    - [dkg_encrypt.rs]: encryption of the round-2 packages;
    - [participant_registry.rs], [to_dkg_registry].

    The cipher and the key derivation are the external crates
    [chacha20poly1305] and [hkdf]: the class [DkgCipher]. Values drawn from the
    OS generator are arguments. *)

From S2P Require Import Prelude Core Session Storage Attestation Threshold Registry Dctls Network Errors.
From S2P Require Import Sha256Gadget HmacGadget CoSnark Frost.

(** ** The FROST key generation (external)

    [frost_part1 id max min rng] is honest when it succeeds. The laws are the
    documented contract of the crate:
    - identifiers are the nonzero 16-bit integers;
    - part 1 accepts thresholds from two to the number of signers;
    - part 2 needs a package from each of the other signers, made with their
      identifier, and addresses one package to each of them;
    - part 3 needs the packages the others addressed to this signer; the public
      key package it returns is a function of the round-1 packages of all
      signers. *)
Class FrostDkg {Fr : FrostEd25519} := {
  Identifier_try_from : u16 -> result string Identifier;
  R1Secret : Type;
  R1Package : Type;
  R2Secret : Type;
  R2Package : Type;
  frost_part1 : Identifier -> u16 -> u16 -> Frost.Rng -> result string (R1Secret * R1Package);
  frost_part2 : R1Secret -> gmap Identifier R1Package ->
    result string (R2Secret * gmap Identifier R2Package);
  frost_part3 : R2Secret -> gmap Identifier R1Package -> gmap Identifier R2Package ->
    result string (KeyPackage * PublicKeyPackage);
  dkg_public : gmap Identifier R1Package -> PublicKeyPackage;
  r1_to_vec : R1Package -> bytes;
  r1_from_slice : bytes -> result string R1Package;
  r2_to_vec : R2Package -> bytes;
  r2_from_slice : bytes -> result string R2Package;
  identifier_ok k : uval k <> 0 -> exists i, Identifier_try_from k = Ok i;
  identifier_inj j k i : Identifier_try_from j = Ok i -> Identifier_try_from k = Ok i -> j = k;
  r1_roundtrip p : r1_from_slice (r1_to_vec p) = Ok p;
  r2_roundtrip p : r2_from_slice (r2_to_vec p) = Ok p;
  part1_ok i max min rng :
    2 <= uval min <= uval max -> exists s p, frost_part1 i max min rng = Ok (s, p);
  part2_recipients s r1 s2 out : frost_part2 s r1 = Ok (s2, out) -> dom out = dom r1;
  part2_ok i max min rng s p r1 :
    frost_part1 i max min rng = Ok (s, p) ->
    Z.of_nat (size r1) + 1 = uval max ->
    (forall j q, r1 !! j = Some q -> j <> i /\ exists rng' s', frost_part1 j max min rng' = Ok (s', q)) ->
    exists s2 out, frost_part2 s r1 = Ok (s2, out);
  part3_ok i max min rng s p r1 s2 out r2 :
    frost_part1 i max min rng = Ok (s, p) ->
    frost_part2 s r1 = Ok (s2, out) ->
    dom r2 = dom r1 ->
    (forall j q, r2 !! j = Some q -> exists rng' s' p' r1' s2' out',
       frost_part1 j max min rng' = Ok (s', p') /\ r1 !! j = Some p' /\
       frost_part2 s' r1' = Ok (s2', out') /\ out' !! i = Some q) ->
    exists kp pk, frost_part3 s2 r1 r2 = Ok (kp, pk);
  part3_public i max min rng s p r1 s2 out r2 kp pk :
    frost_part1 i max min rng = Ok (s, p) ->
    frost_part2 s r1 = Ok (s2, out) ->
    frost_part3 s2 r1 r2 = Ok (kp, pk) ->
    pk = dkg_public (<[i := p]> r1)
}.

(** ** The parts (dkg.rs) *)

Section Parts.
Context {Fr : FrostEd25519} {Dk : FrostDkg}.

Record DkgRound1State := MkDkgRound1State { r1s_0 : R1Secret }.
Record DkgRound2State := MkDkgRound2State { r2s_0 : R2Secret }.
Record DkgRound1Package := MkDkgRound1Package { r1p_0 : R1Package }.
Record DkgRound2Package := MkDkgRound2Package { r2p_0 : R2Package }.
Record DkgParticipantOutput := MkDkgParticipantOutput {
  out_participant : FrostParticipant;
  out_group_key : FrostGroupKey
}.

Definition round1_to_bytes (self : DkgRound1Package) : bytes := r1_to_vec (r1p_0 self).
Definition round1_from_bytes (bs : bytes) : result CryptoError DkgRound1Package :=
  map_err (fun e => InvalidKeyMaterial ("DkgRound1Package deserialization failed: " +:+ e))
    (MkDkgRound1Package <$> r1_from_slice bs).
Definition to_plaintext_bytes (self : DkgRound2Package) : bytes := r2_to_vec (r2p_0 self).
Definition from_plaintext_bytes (bs : bytes) : result CryptoError DkgRound2Package :=
  map_err (fun e => InvalidKeyMaterial ("DkgRound2Package deserialization failed: " +:+ e))
    (MkDkgRound2Package <$> r2_from_slice bs).

Definition dkg_part1 (rng : Frost.Rng) (identifier : Identifier) (max_signers min_signers : u16)
    : result CryptoError (DkgRound1State * DkgRound1Package) :=
  r ← map_err (fun e => InvalidKeyMaterial ("DKG part1 failed: " +:+ e))
        (frost_part1 identifier max_signers min_signers rng);
  let '(secret_pkg, round1_pkg) := r in
  Ok (MkDkgRound1State secret_pkg, MkDkgRound1Package round1_pkg).

Definition dkg_part2 (round1_state : DkgRound1State)
    (round1_packages : gmap Identifier DkgRound1Package)
    : result CryptoError (DkgRound2State * gmap Identifier DkgRound2Package) :=
  let inner_r1 : gmap Identifier R1Package := r1p_0 <$> round1_packages in
  r ← map_err (fun e => InvalidKeyMaterial ("DKG part2 failed: " +:+ e))
        (frost_part2 (r1s_0 round1_state) inner_r1);
  let '(round2_secret, outbound) := r in
  Ok (MkDkgRound2State round2_secret, (MkDkgRound2Package <$> outbound : gmap Identifier DkgRound2Package)).

(** [(idx + 1) as u16] *)
Definition identifier_at (idx : nat) : result string Identifier :=
  Identifier_try_from (u_of_Z 16 (Z.of_nat idx + 1)).

(** [vids.iter().enumerate()] from index [idx], inserting the identifier of each. *)
Fixpoint assign_identifiers (idx : nat) (vids : list VerifierId) (m : gmap VerifierId Identifier)
    : result CryptoError (gmap VerifierId Identifier) :=
  match vids with
  | [] => Ok m
  | v :: vids' =>
      frost_id ← map_err (fun e => InvalidKeyMaterial
        ("DKG identifier assignment at index " +:+ pretty (Z.of_nat idx) +:+ ": " +:+ e)) (identifier_at idx);
      assign_identifiers (S idx) vids' (<[v := frost_id]> m)
  end.

Definition dkg_part3 (my_verifier_id : VerifierId) (my_identifier : Identifier)
    (round2_state : DkgRound2State) (round1_packages : gmap Identifier DkgRound1Package)
    (round2_packages : gmap Identifier DkgRound2Package) (all_verifier_ids_in_order : list VerifierId)
    : result CryptoError DkgParticipantOutput :=
  let inner_r1 : gmap Identifier R1Package := r1p_0 <$> round1_packages in
  let inner_r2 : gmap Identifier R2Package := r2p_0 <$> round2_packages in
  r ← map_err (fun e => InvalidKeyMaterial ("DKG part3 failed: " +:+ e))
        (frost_part3 (r2s_0 round2_state) inner_r1 inner_r2);
  let '(key_package, pub_key_package) := r in
  verifier_to_id ← assign_identifiers 0 all_verifier_ids_in_order ∅;
  Ok {| out_participant := MkFrostParticipant key_package my_identifier my_verifier_id;
        out_group_key := MkFrostGroupKey pub_key_package verifier_to_id |}.
End Parts.

(** ** Encryption of round-2 packages (dkg_encrypt.rs) *)

(** XChaCha20-Poly1305 with associated data, and HKDF-SHA256 with no salt and a
    32-byte output, which HKDF always delivers. *)
Class DkgCipher := {
  aead_encrypt : array 32 -> array 24 -> bytes -> bytes -> result string bytes;
  aead_decrypt : array 32 -> array 24 -> bytes -> bytes -> option bytes;
  hkdf_expand32 : array 32 -> bytes -> array 32;
  aead_roundtrip k n msg aad c : aead_encrypt k n msg aad = Ok c -> aead_decrypt k n c aad = Some msg
}.

Record DkgCeremonyId := MkDkgCeremonyId { DkgCeremonyId_0 : array 16 }.
#[export] Program Instance DkgCeremonyId_bytes : AsBytes DkgCeremonyId 16 :=
  {| as_bytes := DkgCeremonyId_0; from_bytes := MkDkgCeremonyId |}.
Solve All Obligations with by intros [].
#[export] Instance DkgCeremonyId_eq_dec : EqDecision DkgCeremonyId.
Proof. solve_decision. Defined.

Record DkgEncryptionPublicKey := MkDkgEncryptionPublicKey { DkgEncryptionPublicKey_0 : array 32 }.
#[export] Instance DkgEncryptionPublicKey_eq_dec : EqDecision DkgEncryptionPublicKey.
Proof. solve_decision. Defined.

Definition ENVELOPE_VERSION : u8 := byte 1.
Definition HKDF_INFO_PREFIX : bytes := string_bytes "tls-attestation/dkg-round2/v1".

Record EncryptedDkgRound2Package := MkEncryptedDkgRound2Package {
  enc_version : u8;
  enc_ceremony_id : array 16;
  enc_sender_id : array 32;
  enc_recipient_id : array 32;
  enc_nonce : array 24;
  ciphertext : bytes
}.

Section Encrypt.
Context {Fr : FrostEd25519} {Dk : FrostDkg} {X : X25519} {Ci : DkgCipher}.

Record DkgEncryptionKeyPair := MkDkgEncryptionKeyPair {
  enc_secret : EphemeralSecret;
  enc_public : DkgEncryptionPublicKey
}.

Definition DkgEncryptionKeyPair_generate (secret : EphemeralSecret) : DkgEncryptionKeyPair :=
  MkDkgEncryptionKeyPair secret (MkDkgEncryptionPublicKey (x_public secret)).

Definition derive_key (our_secret : EphemeralSecret) (their_pub : DkgEncryptionPublicKey)
    (ceremony_id : DkgCeremonyId) (sender_id recipient_id : VerifierId) : array 32 :=
  let shared := diffie_hellman our_secret (DkgEncryptionPublicKey_0 their_pub) in
  hkdf_expand32 shared
    (HKDF_INFO_PREFIX ++ arr (as_bytes ceremony_id) ++ arr (as_bytes sender_id) ++ arr (as_bytes recipient_id)).

Definition build_aad (ceremony_id : DkgCeremonyId) (sender_id recipient_id : VerifierId) : bytes :=
  [ENVELOPE_VERSION] ++ arr (as_bytes ceremony_id) ++ arr (as_bytes sender_id) ++ arr (as_bytes recipient_id).

Definition encrypt_round2_package (nonce_bytes : array 24) (plaintext : DkgRound2Package)
    (ceremony_id : DkgCeremonyId) (sender_key : DkgEncryptionKeyPair) (sender_id : VerifierId)
    (recipient_pub : DkgEncryptionPublicKey) (recipient_id : VerifierId)
    : result CryptoError EncryptedDkgRound2Package :=
  let plain_bytes := to_plaintext_bytes plaintext in
  let aad := build_aad ceremony_id sender_id recipient_id in
  let key := derive_key (enc_secret sender_key) recipient_pub ceremony_id sender_id recipient_id in
  c ← map_err (fun e => InvalidKeyMaterial ("AEAD encrypt failed: " +:+ e))
        (aead_encrypt key nonce_bytes plain_bytes aad);
  Ok {| enc_version := ENVELOPE_VERSION; enc_ceremony_id := as_bytes ceremony_id;
        enc_sender_id := as_bytes sender_id; enc_recipient_id := as_bytes recipient_id;
        enc_nonce := nonce_bytes; ciphertext := c |}.

Definition decrypt_round2_package (envelope : EncryptedDkgRound2Package)
    (recipient_key : DkgEncryptionKeyPair) (sender_pub : DkgEncryptionPublicKey)
    (expected_ceremony_id : DkgCeremonyId) (expected_sender_id expected_recipient_id : VerifierId)
    : result CryptoError DkgRound2Package :=
  if negb (bool_decide (enc_version envelope = ENVELOPE_VERSION)) then
    Err (InvalidKeyMaterial ("unsupported DKG envelope version " +:+ pretty (uval (enc_version envelope)) +:+
           " (expected " +:+ pretty (uval ENVELOPE_VERSION) +:+ ")"))
  else if negb (bool_decide (enc_ceremony_id envelope = as_bytes expected_ceremony_id)) then
    Err (InvalidKeyMaterial "ceremony_id mismatch in encrypted DKG Round-2 package")
  else if negb (bool_decide (enc_sender_id envelope = as_bytes expected_sender_id)) then
    Err (InvalidKeyMaterial "sender_id mismatch in encrypted DKG Round-2 package")
  else if negb (bool_decide (enc_recipient_id envelope = as_bytes expected_recipient_id)) then
    Err (InvalidKeyMaterial "recipient_id mismatch in encrypted DKG Round-2 package")
  else
    let aad := build_aad expected_ceremony_id expected_sender_id expected_recipient_id in
    let key := derive_key (enc_secret recipient_key) sender_pub expected_ceremony_id
                 expected_sender_id expected_recipient_id in
    plain_bytes ← ok_or (InvalidKeyMaterial ("DKG Round-2 package decryption failed — " +:+
                           "authentication tag mismatch or wrong key"))
                    (aead_decrypt key (enc_nonce envelope) (ciphertext envelope) aad);
    from_plaintext_bytes plain_bytes.
End Encrypt.

(** ** Key announcements (dkg_announce.rs) *)

Definition ANNOUNCEMENT_DOMAIN : string := "tls-attestation/dkg-enc-key-announcement/v1".
Definition ANNOUNCEMENT_VERSION : u8 := byte 1.

Record DkgKeyAnnouncementPayload := MkDkgKeyAnnouncementPayload {
  ann_version : u8;
  ann_verifier_id : array 32;
  ann_ceremony_id : array 16;
  ann_enc_public_key : array 32
}.
Record SignedDkgKeyAnnouncement := MkSignedDkgKeyAnnouncement {
  ann_payload : DkgKeyAnnouncementPayload;
  ann_signature : bytes
}.
Record VerifiedDkgKeyAnnouncement := MkVerifiedDkgKeyAnnouncement {
  va_verifier_id : VerifierId;
  va_ceremony_id : DkgCeremonyId;
  va_enc_public_key : DkgEncryptionPublicKey
}.

(** The bytes absorbed by the hash that is signed. *)
Definition announcement_hasher (version : u8) (verifier_id : array 32) (ceremony_id : array 16)
    (enc_public_key : array 32) : CanonicalHasher :=
  CanonicalHasher_new ANNOUNCEMENT_DOMAIN
    |>> update_u32 (u_of_Z 32 (uval version))
    |>> update_fixed verifier_id
    |>> update_fixed ceremony_id
    |>> update_fixed enc_public_key.

Section Announce.
Context {Hs : Sha256} {Ed : Ed25519} {X : X25519}.

Definition announcement_signing_preimage (version : u8) (verifier_id : array 32)
    (ceremony_id : array 16) (enc_public_key : array 32) : array 32 :=
  as_bytes (finalize (announcement_hasher version verifier_id ceremony_id enc_public_key)).

Definition payload_preimage (p : DkgKeyAnnouncementPayload) : array 32 :=
  announcement_signing_preimage (ann_version p) (ann_verifier_id p) (ann_ceremony_id p) (ann_enc_public_key p).

Record DkgParticipantRegistry := MkDkgParticipantRegistry { entries : gmap VerifierId VerifyingKey }.

(** [entries.into_iter().collect()]: a later entry replaces an earlier one. *)
Definition DkgParticipantRegistry_new (l : list (VerifierId * VerifyingKey)) : DkgParticipantRegistry :=
  MkDkgParticipantRegistry (foldl (fun m p => <[p.1 := p.2]> m) ∅ l).
Definition dkg_registry_from_key_pairs (key_pairs : list VerifierKeyPair) : DkgParticipantRegistry :=
  DkgParticipantRegistry_new ((fun kp => (kp_verifier_id kp, kp_verifying_key kp)) <$> key_pairs).

Definition verify_announcement (self : DkgParticipantRegistry) (announcement : SignedDkgKeyAnnouncement)
    (expected_ceremony_id : DkgCeremonyId) : result CryptoError VerifiedDkgKeyAnnouncement :=
  let p := ann_payload announcement in
  if negb (bool_decide (ann_version p = ANNOUNCEMENT_VERSION)) then
    Err (DkgAnnouncement ("unsupported announcement version " +:+ pretty (uval (ann_version p)) +:+
           " (expected " +:+ pretty (uval ANNOUNCEMENT_VERSION) +:+ ")"))
  else if negb (bool_decide (ann_ceremony_id p = as_bytes expected_ceremony_id)) then
    Err (DkgAnnouncement ("announcement ceremony_id does not match expected ceremony — " +:+
           "possible cross-ceremony replay or stale announcement"))
  else
    let verifier_id : VerifierId := from_bytes (ann_verifier_id p) in
    vk ← ok_or (DkgAnnouncement ("verifier " +:+ VerifierId_to_string verifier_id +:+
                  " is not in the DKG participant registry — " +:+
                  "outsider or registry not populated correctly"))
           (entries self !! verifier_id);
    let preimage := payload_preimage p in
    sig ← ok_or (DkgAnnouncement "malformed announcement signature: signature error")
            (Signature_from_slice (ann_signature announcement));
    _ ← ensure (SignatureVerificationFailed ("DKG key-announcement signature from " +:+
                  VerifierId_to_string verifier_id +:+
                  " is invalid — possible coordinator key substitution or data tampering"))
          (ed_verify vk (arr preimage) sig);
    Ok {| va_verifier_id := verifier_id; va_ceremony_id := from_bytes (ann_ceremony_id p);
          va_enc_public_key := MkDkgEncryptionPublicKey (ann_enc_public_key p) |}.

(** One announcement of the loop of [collect_verified_enc_keys]. *)
Definition collect_step (self : DkgParticipantRegistry) (expected_ceremony_id : DkgCeremonyId)
    (expected_participants : list VerifierId) (verified : gmap VerifierId DkgEncryptionPublicKey)
    (ann : SignedDkgKeyAnnouncement) : result CryptoError (gmap VerifierId DkgEncryptionPublicKey) :=
  v ← verify_announcement self ann expected_ceremony_id;
  if negb (contains expected_participants (va_verifier_id v)) then
    Err (DkgAnnouncement ("announcement from " +:+ VerifierId_to_string (va_verifier_id v) +:+
           " is not in the expected participant set"))
  else if bool_decide (is_Some (verified !! va_verifier_id v)) then
    Err (DkgAnnouncement ("duplicate announcement for participant " +:+
           VerifierId_to_string (va_verifier_id v) +:+ " — ambiguous key"))
  else Ok (<[va_verifier_id v := va_enc_public_key v]> verified).

Definition collect_verified_enc_keys (self : DkgParticipantRegistry)
    (announcements : list SignedDkgKeyAnnouncement) (expected_ceremony_id : DkgCeremonyId)
    (expected_participants : list VerifierId)
    : result CryptoError (gmap VerifierId DkgEncryptionPublicKey) :=
  verified ← try_fold (collect_step self expected_ceremony_id expected_participants) ∅ announcements;
  _ ← try_fold (fun (_ : unit) expected_id =>
        ensure (DkgAnnouncement ("missing DKG key announcement from participant " +:+
                  VerifierId_to_string expected_id +:+
                  " — ceremony cannot start without all participants' authenticated keys"))
          (bool_decide (is_Some (verified !! expected_id)))) tt expected_participants;
  Ok verified.

Definition create_dkg_key_announcement (enc_key : DkgEncryptionKeyPair) (ceremony_id : DkgCeremonyId)
    (signer : VerifierKeyPair) : SignedDkgKeyAnnouncement :=
  let payload := {| ann_version := ANNOUNCEMENT_VERSION;
                    ann_verifier_id := as_bytes (kp_verifier_id signer);
                    ann_ceremony_id := as_bytes ceremony_id;
                    ann_enc_public_key := DkgEncryptionPublicKey_0 (enc_public enc_key) |} in
  {| ann_payload := payload; ann_signature := arr (sign_raw signer (arr (payload_preimage payload))) |}.

(** participant_registry.rs *)
Definition to_dkg_registry (self : ParticipantRegistry) : DkgParticipantRegistry :=
  DkgParticipantRegistry_new ((fun p => (rp_verifier_id p, rp_signing_key p)) <$> active_values self).
End Announce.

(** ** Properties of the encryption *)

Section EncryptProps.
Context {Fr : FrostEd25519} {Dk : FrostDkg} {X : X25519} {Ci : DkgCipher}.
Implicit Types (kp : DkgEncryptionKeyPair) (c : DkgCeremonyId) (s r : VerifierId).

(** The invariant of key pairs, whose fields are private to the module. *)
Definition keypair_wf kp : Prop := DkgEncryptionPublicKey_0 (enc_public kp) = x_public (enc_secret kp).

Lemma generate_wf secret : keypair_wf (DkgEncryptionKeyPair_generate secret).
Proof. done. Qed.

Lemma derive_key_agree kp kp' c s r :
  keypair_wf kp -> keypair_wf kp' ->
  derive_key (enc_secret kp) (enc_public kp') c s r = derive_key (enc_secret kp') (enc_public kp) c s r.
Proof. unfold keypair_wf, derive_key. intros -> ->. by rewrite dh_agree. Qed.

Lemma decrypt_Ok env kp pub c s r p :
  decrypt_round2_package env kp pub c s r = Ok p <->
  enc_version env = ENVELOPE_VERSION /\ enc_ceremony_id env = as_bytes c /\
  enc_sender_id env = as_bytes s /\ enc_recipient_id env = as_bytes r /\
  exists bs, aead_decrypt (derive_key (enc_secret kp) pub c s r) (enc_nonce env) (ciphertext env)
               (build_aad c s r) = Some bs /\ from_plaintext_bytes bs = Ok p.
Proof.
  unfold decrypt_round2_package. repeat (case_bool_decide; cbn [negb]; [|naive_solver]).
  rewrite bind_Ok. setoid_rewrite ok_or_Ok. naive_solver.
Qed.

Lemma from_to_plaintext p : from_plaintext_bytes (to_plaintext_bytes p) = Ok p.
Proof. unfold from_plaintext_bytes, to_plaintext_bytes. rewrite r2_roundtrip. by destruct p. Qed.

Lemma round1_bytes_roundtrip p : round1_from_bytes (round1_to_bytes p) = Ok p.
Proof. unfold round1_from_bytes, round1_to_bytes. rewrite r1_roundtrip. by destruct p. Qed.

Lemma encrypt_Ok n p c kp s pub r env :
  encrypt_round2_package n p c kp s pub r = Ok env <->
  exists ct, aead_encrypt (derive_key (enc_secret kp) pub c s r) n (to_plaintext_bytes p) (build_aad c s r) = Ok ct /\
    env = MkEncryptedDkgRound2Package ENVELOPE_VERSION (as_bytes c) (as_bytes s) (as_bytes r) n ct.
Proof. unfold encrypt_round2_package. rewrite bind_Ok. setoid_rewrite map_err_Ok. naive_solver. Qed.

Lemma encrypt_then_decrypt n p c kps s kpr r env :
  keypair_wf kps -> keypair_wf kpr ->
  encrypt_round2_package n p c kps s (enc_public kpr) r = Ok env ->
  decrypt_round2_package env kpr (enc_public kps) c s r = Ok p.
Proof.
  intros Hs Hr (ct & Hct & ->)%encrypt_Ok. apply decrypt_Ok. split_and!; try done.
  cbn [enc_nonce ciphertext]. rewrite <- (derive_key_agree kps kpr) by done.
  rewrite (aead_roundtrip _ _ _ _ _ Hct). eauto using from_to_plaintext.
Qed.

(** Encrypted round-2 packages are for one recipient of one ceremony: the
    named recipient opens what the named sender encrypted to its key and gets
    the package that was sent, and no key whatsoever opens the envelope under
    another ceremony, sender or recipient. *)
Theorem round2_envelope_roundtrip n p c kps s kpr r env :
  keypair_wf kps -> keypair_wf kpr ->
  encrypt_round2_package n p c kps s (enc_public kpr) r = Ok env ->
  decrypt_round2_package env kpr (enc_public kps) c s r = Ok p /\
  forall kp' pub' c' s' r' p',
    decrypt_round2_package env kp' pub' c' s' r' = Ok p' -> c' = c /\ s' = s /\ r' = r.
Proof.
  intros Hs Hr Henc. split; [by eapply encrypt_then_decrypt|].
  intros kp' pub' c' s' r' p' (_ & Hc & Hs' & Hr' & _)%decrypt_Ok.
  apply encrypt_Ok in Henc as (ct & _ & ->).
  cbn [enc_ceremony_id enc_sender_id enc_recipient_id] in *.
  apply (inj as_bytes) in Hc as <-, Hs' as <-, Hr' as <-. done.
Qed.
End EncryptProps.

(** ** Properties of announcements *)

Section AnnounceProps.
Context {Hs : Sha256} {Ed : Ed25519} {X : X25519}.
Implicit Types (reg : DkgParticipantRegistry) (ann : SignedDkgKeyAnnouncement) (c : DkgCeremonyId).

(** The holder of the key registered for [v] signed [key] for ceremony [c]. *)
Definition announced reg ann c (v : VerifierId) (key : DkgEncryptionPublicKey) : Prop :=
  ann_payload ann = MkDkgKeyAnnouncementPayload ANNOUNCEMENT_VERSION (as_bytes v) (as_bytes c)
                      (DkgEncryptionPublicKey_0 key) /\
  exists vk sig, entries reg !! v = Some vk /\ ann_signature ann = arr sig /\
    ed_verify vk (arr (payload_preimage (ann_payload ann))) sig = true.

Lemma verify_announcement_Ok reg ann c v :
  verify_announcement reg ann c = Ok v <->
  va_ceremony_id v = c /\ announced reg ann c (va_verifier_id v) (va_enc_public_key v).
Proof.
  unfold verify_announcement, announced, Signature_from_slice.
  destruct ann as [[ver vid cid key] sg], v as [[v] [c'] [key']], c as [c].
  cbn [ann_payload ann_version ann_verifier_id ann_ceremony_id ann_enc_public_key ann_signature
    va_verifier_id va_ceremony_id va_enc_public_key DkgEncryptionPublicKey_0 as_bytes from_bytes
    DkgCeremonyId_bytes DkgCeremonyId_0 VerifierId_bytes VerifierId_0].
  case_bool_decide as Hv; cbn [negb]; [subst ver|naive_solver].
  case_bool_decide as Hc; cbn [negb]; [subst cid|naive_solver].
  rewrite bind_Ok. setoid_rewrite ok_or_Ok. setoid_rewrite bind_Ok. setoid_rewrite ok_or_Ok.
  setoid_rewrite bind_Ok. setoid_rewrite ensure_Ok. setoid_rewrite try_into_Some. split.
  - intros (vk & Hvk & sig & -> & [] & Hver & [= <- <- <-]). eauto 10.
  - intros ([= <-] & [= <- <-] & vk & sig & Hvk & -> & Hver). exists vk. split; [done|].
    exists sig. split; [done|]. by exists tt.
Qed.

Lemma create_announced reg enc_key c signer :
  entries reg !! kp_verifier_id signer = Some (kp_verifying_key signer) ->
  announced reg (create_dkg_key_announcement enc_key c signer) c (kp_verifier_id signer) (enc_public enc_key).
Proof. intros Hreg. split; [done|]. eexists _, _. split; [exact Hreg|]. split; [done|]. apply ed_sign_verify. Qed.

Lemma payload_preimage_inj p q :
  payload_preimage p = payload_preimage q ->
  p = q \/ collision
    (inner (announcement_hasher (ann_version p) (ann_verifier_id p) (ann_ceremony_id p) (ann_enc_public_key p)))
    (inner (announcement_hasher (ann_version q) (ann_verifier_id q) (ann_ceremony_id q) (ann_enc_public_key q))).
Proof.
  unfold payload_preimage, announcement_signing_preimage.
  intros [Heq|?]%(inj as_bytes)%finalize_eq_or_collision; [left|by right].
  destruct p as [pv pi pc pk], q as [qv qi qc qk].
  cbn [ann_version ann_verifier_id ann_ceremony_id ann_enc_public_key] in Heq.
  unfold announcement_hasher in Heq. unfold_hasher Heq. apply app_inv_head in Heq. split_app Heq. simplify_enc.
  assert (pv = qv) as ->.
  { apply uint_eq. apply (f_equal uval) in Henc.
    pose proof (uval_range pv). pose proof (uval_range qv).
    rewrite !uval_of_Z_small in Henc by lia. done. }
  by subst.
Qed.

(** Announcements authenticate the encryption keys: what a registered signer
    creates for a ceremony is accepted there, with its key; whatever is
    accepted names the ceremony, the version and a registered participant whose
    key verifies the signature; and the signed digest determines every field of
    the payload, unless two announcement preimages are a SHA-256 collision. *)
Theorem announcement_authentic reg enc_key c signer :
  entries reg !! kp_verifier_id signer = Some (kp_verifying_key signer) ->
  verify_announcement reg (create_dkg_key_announcement enc_key c signer) c
    = Ok (MkVerifiedDkgKeyAnnouncement (kp_verifier_id signer) c (enc_public enc_key)) /\
  (forall ann c' v, verify_announcement reg ann c' = Ok v ->
     va_ceremony_id v = c' /\ announced reg ann c' (va_verifier_id v) (va_enc_public_key v)) /\
  (forall p q, payload_preimage p = payload_preimage q ->
     p = q \/ collision
       (inner (announcement_hasher (ann_version p) (ann_verifier_id p) (ann_ceremony_id p) (ann_enc_public_key p)))
       (inner (announcement_hasher (ann_version q) (ann_verifier_id q) (ann_ceremony_id q) (ann_enc_public_key q)))).
Proof.
  intros Hreg. split_and!.
  - apply verify_announcement_Ok. split; [done|]. by apply create_announced.
  - intros ann c' v. apply verify_announcement_Ok.
  - apply payload_preimage_inj.
Qed.

(** Invariant of the collection loop: the keys gathered so far are those of the
    announcements seen so far, one per participant. *)
Definition collected reg c (ps : list VerifierId) (seen : list SignedDkgKeyAnnouncement)
    (m : gmap VerifierId DkgEncryptionPublicKey) : Prop :=
  length seen = size m /\ (forall v, is_Some (m !! v) -> v ∈ ps) /\
  forall v key, m !! v = Some key <-> exists ann, ann ∈ seen /\ announced reg ann c v key.

Lemma collect_step_Ok reg c ps m ann m' :
  collect_step reg c ps m ann = Ok m' <->
  exists v key, announced reg ann c v key /\ v ∈ ps /\ m !! v = None /\ m' = <[v := key]> m.
Proof.
  unfold collect_step, contains. rewrite bind_Ok. setoid_rewrite verify_announcement_Ok. split.
  - intros (v & [_ Hann] & Hok). case_bool_decide as Hin; cbn [negb] in Hok; [|done].
    case_bool_decide as Hm; [done|]. injection Hok as <-. eexists _, _. split_and!; try done.
    by apply eq_None_not_Some.
  - intros (v & key & Hann & Hin & Hm & ->). exists (MkVerifiedDkgKeyAnnouncement v c key).
    cbn [va_ceremony_id va_verifier_id va_enc_public_key]. split; [done|].
    rewrite bool_decide_eq_true_2 by done. cbn [negb]. rewrite bool_decide_eq_false_2; [done|].
    rewrite Hm. by intros [].
Qed.

Lemma announced_unique reg ann c v key v' key' :
  announced reg ann c v key -> announced reg ann c v' key' -> v = v' /\ key = key'.
Proof.
  intros [Hp _] [Hp' _]. rewrite Hp in Hp'. injection Hp' as Hv Hk.
  destruct v, v', key, key'; simpl in *; by subst.
Qed.

Lemma collect_step_inv reg c ps seen m ann m' :
  collected reg c ps seen m -> collect_step reg c ps m ann = Ok m' ->
  collected reg c ps (seen ++ [ann]) m'.
Proof.
  intros (Hlen & Hdom & Hiff) (v & key & Hann & Hin & Hm & ->)%collect_step_Ok. split_and!.
  - rewrite length_app, map_size_insert_None by done. simpl. lia.
  - intros w. rewrite lookup_insert_is_Some. intros [<-|[_ ?]]; [done|by apply Hdom].
  - intros w k. rewrite lookup_insert. setoid_rewrite elem_of_app. setoid_rewrite list_elem_of_singleton.
    case_decide as Hw.
    + subst w. split.
      * intros [= <-]. eauto.
      * intros (a & [Ha| ->] & Hak).
        -- pose proof (proj2 (Hiff v k)) as H. rewrite Hm in H. discriminate H. eauto.
        -- by destruct (announced_unique _ _ _ _ _ _ _ Hann Hak) as [_ ->].
    + rewrite Hiff. split; [naive_solver|].
      intros (a & [Ha| ->] & Hak); [by eauto|].
      by destruct (announced_unique _ _ _ _ _ _ _ Hann Hak) as [? _].
Qed.

Lemma collect_loop_inv reg c ps anns m :
  try_fold (collect_step reg c ps) ∅ anns = Ok m -> collected reg c ps anns m.
Proof.
  enough (forall seen m0, collected reg c ps seen m0 ->
    try_fold (collect_step reg c ps) m0 anns = Ok m -> collected reg c ps (seen ++ anns) m) as Hgen.
  { intros H. apply (Hgen [] ∅); [|done]. split_and!; [done|..].
    - intros v. rewrite lookup_empty. by intros [].
    - intros v key. rewrite lookup_empty. split; [done|]. by intros (a & ?%elem_of_nil & _). }
  induction anns as [|ann anns IH]; intros seen m0 Hc; cbn [try_fold].
  - intros [= <-]. by rewrite app_nil_r.
  - intros (m1 & Hstep & Hrest)%bind_Ok. rewrite cons_middle, (assoc_L (++)).
    eapply IH; [|exact Hrest]. by eapply collect_step_inv.
Qed.

Lemma missing_check_Ok (m : gmap VerifierId DkgEncryptionPublicKey) (msg : VerifierId -> CryptoError) ps :
  try_fold (fun (_ : unit) v => ensure (msg v) (bool_decide (is_Some (m !! v)))) tt ps = Ok tt <->
  Forall (fun v => is_Some (m !! v)) ps.
Proof.
  induction ps as [|v ps IH]; cbn [try_fold]; [by split|]. rewrite Forall_cons, <- IH, bind_Ok.
  setoid_rewrite ensure_Ok. setoid_rewrite bool_decide_eq_true. split.
  - by intros ([] & ? & ?).
  - intros []. by exists tt.
Qed.

Lemma collect_verified_Ok reg anns c ps m :
  collect_verified_enc_keys reg anns c ps = Ok m ->
  (forall v, is_Some (m !! v) <-> v ∈ ps) /\ length anns = size m /\
  forall v key, m !! v = Some key <-> exists ann, ann ∈ anns /\ announced reg ann c v key.
Proof.
  unfold collect_verified_enc_keys. intros (m' & Hm & Hok)%bind_Ok.
  apply bind_Ok in Hok as ([] & Hmiss%missing_check_Ok & [= <-]).
  apply collect_loop_inv in Hm as (Hlen & Hdom & Hiff). split_and!; [|done|done].
  intros v. split; [apply Hdom|]. rewrite Forall_forall in Hmiss. apply Hmiss.
Qed.

(** A ceremony starts from one authenticated key per participant: a
    successful collection has a key for exactly the expected participants, each
    signed for this ceremony by the key registered for that participant, and
    there are exactly as many announcements as participants, so none is
    duplicated, missing or from outside the expected set. *)
Theorem collect_verified_enc_keys_sound reg anns c ps m :
  collect_verified_enc_keys reg anns c ps = Ok m ->
  (forall v, is_Some (m !! v) <-> v ∈ ps) /\ length anns = size m /\
  forall v key, m !! v = Some key <-> exists ann, ann ∈ anns /\ announced reg ann c v key.
Proof. apply collect_verified_Ok. Qed.

Lemma to_dkg_registry_lookup r v vk :
  registry_wf r ->
  entries (to_dkg_registry r) !! v = Some vk <->
  exists p, get_active r v = Ok p /\ rp_signing_key p = vk.
Proof.
  intros Hwf. pose proof (active_ids_NoDup r Hwf) as Hnd.
  set (l := (fun p => (rp_verifier_id p, rp_signing_key p)) <$> active_values r).
  assert (Hl : l.*1 = active_participant_ids r) by (unfold l; by rewrite <- list_fmap_compose).
  rewrite <- Hl in Hnd. unfold to_dkg_registry, DkgParticipantRegistry_new. cbn [entries]. fold l. split.
  - intros Hlk. destruct (decide (v ∈ l.*1)) as [Hin|Hin].
    + apply list_elem_of_fmap in Hin as ([w a] & -> & Hin). cbn [fst] in *.
      rewrite (foldl_insert_elem l ∅ w a Hnd Hin) in Hlk. injection Hlk as ->.
      unfold l in Hin. apply list_elem_of_fmap in Hin as (p & [= -> ->] & Hp%active_values_elem); [|done]. eauto.
    + by rewrite foldl_insert_lookup, lookup_empty in Hlk by done.
  - intros (p & Hp & <-). apply foldl_insert_elem; [done|]. unfold l. apply list_elem_of_fmap. exists p.
    pose proof Hp as [Hpv _]%get_active_Ok. destruct Hwf as [Hne Hid].
    rewrite (Hid _ _ Hpv). split; [done|]. apply active_values_elem; [by split|]. by rewrite (Hid _ _ Hpv).
Qed.
End AnnounceProps.

(** ** Concrete instances *)

(** A serialization for the examples. *)
Definition toy_to_vec {A} `{Countable A} (a : A) : bytes := pos_bytes (encode a).
Definition toy_from_slice {A} `{Countable A} (l : bytes) : result string A :=
  ok_or "invalid encoding" (decode (bytes_pos l)).
Lemma toy_serialize_roundtrip {A} `{Countable A} (a : A) : toy_from_slice (toy_to_vec a) = Ok a.
Proof. unfold toy_from_slice, toy_to_vec. by rewrite bytes_pos_bytes, decode_encode. Qed.

(** Packages are signed notes of their origin: a round-1 package carries its
    author, parameters and random bytes, a round-2 package its sender and
    recipient; the group key is the exclusive or of the random bytes. *)
Section ToyDkg.
Context (I : Type) `{Countable I}.

Definition toy_r1_on : Type := I * u16 * u16 * bytes.

Definition toy_part2_ok (s : toy_r1_on) (r1 : gmap I toy_r1_on) : Prop :=
  Z.of_nat (size r1) + 1 = uval s.1.1.2 /\
  map_Forall (fun j q => j <> s.1.1.1 /\ q.1 = (j, s.1.1.2, s.1.2)) r1.
Definition toy_part3_ok (s : toy_r1_on) (r1 : gmap I toy_r1_on) (r2 : gmap I (I * I)) : Prop :=
  dom r2 = dom r1 /\ map_Forall (fun j q => q = (j, s.1.1.1)) r2.
#[local] Instance toy_part2_dec s r1 : Decision (toy_part2_ok s r1).
Proof. unfold toy_part2_ok. apply _. Defined.
#[local] Instance toy_part3_dec s r1 r2 : Decision (toy_part3_ok s r1 r2).
Proof. unfold toy_part3_ok. apply _. Defined.

Definition toy_dkg_public_on (m : gmap I toy_r1_on) : array 32 :=
  map_fold (fun _ p acc => arr_xor acc (to_array 32 p.2)) (array_repeat 32 (byte 0)) m.

Definition toy_dkg_on (mk : u16 -> I) (mk_inj : forall j k, uval j <> 0 -> mk j = mk k -> j = k)
    : FrostDkg (Fr:=toy_frost_on I).
Proof.
  refine {|
    Identifier_try_from k := if uval k =? 0 then Err "zero identifier" else Ok (mk k : Identifier (FrostEd25519:=toy_frost_on I));
    R1Secret := toy_r1_on; R1Package := toy_r1_on; R2Secret := toy_r1_on; R2Package := I * I;
    frost_part1 i max min rng :=
      if (2 <=? uval min) && (uval min <=? uval max) then Ok ((i, max, min, rng), (i, max, min, rng))
      else Err "invalid number of signers";
    frost_part2 s r1 :=
      if decide (toy_part2_ok s r1) then Ok (s, map_imap (fun j _ => Some (s.1.1.1, j)) r1) else Err "invalid round-1 packages";
    frost_part3 s r1 r2 :=
      if decide (toy_part3_ok s r1 r2) then Ok (array_repeat 32 (byte 0), toy_dkg_public_on (<[s.1.1.1 := s]> r1))
      else Err "invalid round-2 packages";
    dkg_public := toy_dkg_public_on;
    r1_to_vec := toy_to_vec; r1_from_slice := toy_from_slice;
    r2_to_vec := toy_to_vec; r2_from_slice := toy_from_slice |}.
  - intros k Hk%Z.eqb_neq. rewrite Hk. eauto.
  - intros j k i. destruct (Z.eqb_spec (uval j) 0); [done|]. intros [= <-]. destruct (uval k =? 0); [done|]. intros [= Hjk].
    by apply mk_inj.
  - apply toy_serialize_roundtrip.
  - apply toy_serialize_roundtrip.
  - intros i max min rng Hmm. rewrite (proj2 (andb_true_iff _ _)) by (split; lia). eauto.
  - intros s r1 s2 out. destruct (decide _); [|done]. intros [= <- <-]. apply set_eq. intros j.
    rewrite !elem_of_dom, map_lookup_imap, !is_Some_alt. by destruct (r1 !! j).
  - intros i max min rng s p r1 Hp1 Hsz Hall. destruct (_ && _) eqn:Hc in Hp1; [|done]. injection Hp1 as <- <-.
    rewrite decide_True; [eauto|]. split; [done|]. intros j q Hj. destruct (Hall j q Hj) as (Hji & rng' & s' & Hq).
    destruct (_ && _) in Hq; [|done]. injection Hq as _ <-. split; [exact Hji | reflexivity].
  - intros i max min rng s p r1 s2 out r2 Hp1 Hp2 Hdom Hall. destruct (decide _) in Hp2; [|done]. injection Hp2 as <- <-.
    destruct (_ && _) in Hp1; [|done]. injection Hp1 as <- <-.
    rewrite decide_True; [eauto|]. split; [done|]. intros j q Hj.
    destruct (Hall j q Hj) as (rng' & s' & p' & r1' & s2' & out' & Hp & _ & Ho & Hq).
    destruct (_ && _) in Hp; [|done]. injection Hp as <- _. destruct (decide _) in Ho; [|done]. injection Ho as <- <-.
    rewrite map_lookup_imap in Hq. destruct (r1' !! i); [|done]. by injection Hq as <-.
  - intros i max min rng s p r1 s2 out r2 kp pk Hp1 Hp2 Hp3.
    destruct (_ && _) in Hp1; [|done]. injection Hp1 as <- <-. destruct (decide _) in Hp2; [|done]. injection Hp2 as <- _.
    destruct (decide _) in Hp3; [|done]. by injection Hp3 as _ <-.
Defined.
End ToyDkg.

Definition toy_r1 : Type := toy_r1_on nat.
Definition toy_dkg_public : gmap nat toy_r1 -> array 32 := toy_dkg_public_on nat.
Definition toy_dkg : FrostDkg (Fr:=toy_frost).
Proof.
  apply (toy_dkg_on nat (fun k => Z.to_nat (uval k))).
  abstract (intros j k Hj Hjk; apply uint_eq; pose proof (uval_range j); pose proof (uval_range k); lia).
Defined.

(** A cipher that marks the plaintext with the key. *)
Definition toy_cipher : DkgCipher.
Proof.
  refine {| aead_encrypt k n msg aad := Ok (arr k ++ msg);
            aead_decrypt k n c aad := if bool_decide (take 32 c = arr k) then Some (drop 32 c) else None;
            hkdf_expand32 shared info := shared |}.
  intros k n msg aad c [= <-]. rewrite take_app_length', drop_app_length' by (symmetry; apply length_arr).
  by rewrite bool_decide_eq_true_2.
Defined.

Definition toy_enc_key (z : Z) : DkgEncryptionKeyPair (X:=toy_x25519) :=
  DkgEncryptionKeyPair_generate (X:=toy_x25519) (array_repeat 32 (byte z)).
Definition toy_ceremony : DkgCeremonyId := MkDkgCeremonyId (array_repeat 16 (byte 5)).

Definition toy_envelope : EncryptedDkgRound2Package :=
  MkEncryptedDkgRound2Package ENVELOPE_VERSION (as_bytes toy_ceremony) (as_bytes (vid 1)) (as_bytes (vid 2))
    (array_repeat 24 (byte 8))
    (arr (arr_xor (array_repeat 32 (byte 1)) (array_repeat 32 (byte 2))) ++ toy_to_vec (1%nat, 2%nat)).

Lemma round2_envelope_roundtrip_witness :
  decrypt_round2_package (Dk:=toy_dkg) (X:=toy_x25519) (Ci:=toy_cipher) toy_envelope (toy_enc_key 2)
    (enc_public (toy_enc_key 1)) toy_ceremony (vid 1) (vid 2)
  = Ok (MkDkgRound2Package (Dk:=toy_dkg) (1%nat, 2%nat)).
Proof.
  apply (round2_envelope_roundtrip (Dk:=toy_dkg) (X:=toy_x25519) (Ci:=toy_cipher) (array_repeat 24 (byte 8))
    (MkDkgRound2Package (Dk:=toy_dkg) (1%nat, 2%nat)) toy_ceremony (toy_enc_key 1) (vid 1) (toy_enc_key 2) (vid 2));
    vm_compute; reflexivity.
Defined.

Definition toy_dkg_registry : DkgParticipantRegistry (Ed:=toy_ed25519) :=
  dkg_registry_from_key_pairs (Ed:=toy_ed25519) (toy_kp <$> [1; 2; 3]).

Lemma announcement_authentic_witness :
  verify_announcement (Hs:=toy_sha256) (Ed:=toy_ed25519) toy_dkg_registry
    (create_dkg_key_announcement (Hs:=toy_sha256) (X:=toy_x25519) (toy_enc_key 2) toy_ceremony (toy_kp 2)) toy_ceremony
  = Ok (MkVerifiedDkgKeyAnnouncement (kp_verifier_id (toy_kp 2)) toy_ceremony (enc_public (toy_enc_key 2))).
Proof.
  apply (announcement_authentic (Hs:=toy_sha256) (Ed:=toy_ed25519) (X:=toy_x25519) toy_dkg_registry (toy_enc_key 2)
    toy_ceremony (toy_kp 2)).
  vm_compute. reflexivity.
Defined.

Definition toy_announcements (zs : list Z) : list SignedDkgKeyAnnouncement :=
  (fun z => create_dkg_key_announcement (Hs:=toy_sha256) (Ed:=toy_ed25519) (X:=toy_x25519) (toy_enc_key z)
              toy_ceremony (toy_kp z)) <$> zs.

Lemma collect_verified_enc_keys_sound_witness :
  exists m, collect_verified_enc_keys (Hs:=toy_sha256) (Ed:=toy_ed25519) toy_dkg_registry
              (toy_announcements [1; 3]) toy_ceremony [vid 1; vid 3] = Ok m /\
    forall v, is_Some (m !! v) <-> v ∈ [vid 1; vid 3].
Proof.
  exists (unwrap_or ∅ (collect_verified_enc_keys (Hs:=toy_sha256) (Ed:=toy_ed25519) toy_dkg_registry
             (toy_announcements [1; 3]) toy_ceremony [vid 1; vid 3])).
  split; [apply is_ok_unwrap; vm_compute; reflexivity|].
  apply (collect_verified_enc_keys_sound (Hs:=toy_sha256) (Ed:=toy_ed25519) toy_dkg_registry
    (toy_announcements [1; 3]) toy_ceremony [vid 1; vid 3]).
  apply is_ok_unwrap. vm_compute. reflexivity.
Defined.
