(* ===== verification/DkgNode.v ===== *)
(** * The key generation ceremony

    Models [node/src/dkg_node.rs]: the state machine of one participant
    ([FrostDkgNode]), the in-process ceremonies (plain, with encrypted round-2
    packages, with authenticated encryption keys, with registry admission) and
    their variant over network messages, with those messages
    ([network/src/messages.rs]).

    A method taking [&mut self] is a computation on the node's state, which an
    error leaves as it was changed up to that point; a ceremony is one on the
    list of nodes. [expect] and an index out of range are the outcome [Panics].
    The random generators are arguments: [rngs i] for part 1 of node [i], and
    [nonce i j] for the [j]-th envelope node [i] encrypts. *)

From S2P Require Import Prelude Core Session Storage Attestation Threshold Registry Dctls Network Errors.
From S2P Require Import Sha256Gadget HmacGadget CoSnark Frost FrostAux Dkg.

(** ** Messages (messages.rs) *)

Record DkgCeremonyAnnouncement := MkDkgCeremonyAnnouncement {
  dca_ceremony_id : bytes;
  dca_all_participant_ids : list VerifierId;
  dca_min_signers : u16;
  dca_encryption_public_keys : list bytes
}.
Record DkgRound1Response := MkDkgRound1Response {
  dr1_ceremony_id : bytes;
  dr1_participant_id : VerifierId;
  dr1_round1_package_bytes : bytes
}.
Record DkgRound2Delivery := MkDkgRound2Delivery {
  dr2_ceremony_id : bytes;
  dr2_recipient_id : VerifierId;
  dr2_encrypted_packages : list (VerifierId * bytes)
}.

(** [l.iter().position(|x| x == v)] *)
Definition position {A} `{EqDecision A} (l : list A) (v : A) : option nat := fst <$> list_find (eq v) l.

(** [for (s, x) in states.iter_mut().zip(xs) { acc = f(acc, x, s)?; }] *)
Fixpoint for_zip_mut {N X A E} (f : A -> X -> stres N E A) (xs : list X) (acc : A) : stres (list N) E A :=
  fun states =>
  match states, xs with
  | n :: ns, x :: xs' =>
      match f acc x n with
      | (n', Ok acc') => let '(ns', r) := for_zip_mut f xs' acc' ns in (n' :: ns', r)
      | (n', Err e) => (n' :: ns, Err e)
      end
  | _, _ => (states, Ok acc)
  end.

Section DkgNode.
Context {Hs : Sha256} {Ed : Ed25519} {Fr : FrostEd25519} {Dk : FrostDkg} {X : X25519} {Ci : DkgCipher}.
Local Open Scope stres_scope.

(** ** One node *)

Inductive DkgNodeState :=
  | Initial
  | AfterPart1 (round1_state : DkgRound1State)
  | AfterPart2 (round2_state : DkgRound2State) (round1_packages : gmap Identifier DkgRound1Package)
  | DkgCompleted
  | DkgFailed (reason : string).

Record FrostDkgNode := MkFrostDkgNode {
  dn_verifier_id : VerifierId;
  dn_identifier : Identifier;
  all_participant_ids : list VerifierId;
  max_signers : u16;
  min_signers : u16;
  dn_state : DkgNodeState
}.

Definition set_dn_state (s : DkgNodeState) (n : FrostDkgNode) : FrostDkgNode :=
  {| dn_verifier_id := dn_verifier_id n; dn_identifier := dn_identifier n;
     all_participant_ids := all_participant_ids n; max_signers := max_signers n;
     min_signers := min_signers n; dn_state := s |}.

Definition dkg_err (msg : string) : (failure NodeError) := Fails (DkgProtocol msg).
Definition crypto_err {A} (r : result CryptoError A) : result (failure NodeError) A :=
  map_err (fun e => Fails (NodeCrypto e)) r.

Definition FrostDkgNode_new (verifier_id : VerifierId) (all_participant_ids : list VerifierId)
    (min_signers : u16) : result NodeError FrostDkgNode :=
  let n := length all_participant_ids in
  let n_str := pretty (Z.of_nat n) in
  let min_str := pretty (uval min_signers) in
  if (n <? 2)%nat then
    Err (DkgProtocol ("FROST DKG requires at least 2 participants (got " +:+ n_str +:+ ")"))
  else if negb (size (list_to_set all_participant_ids : gset VerifierId) =? n)%nat then
    Err (DkgProtocol "all_participant_ids must not contain duplicates")
  else if uval min_signers <? 2 then
    Err (DkgProtocol ("FROST requires min_signers >= 2 (got " +:+ min_str +:+ ")"))
  else if Z.of_nat n <? uval min_signers then
    Err (DkgProtocol ("min_signers (" +:+ min_str +:+ ") exceeds participant count (" +:+ n_str +:+ ")"))
  else
    pos ← ok_or (DkgProtocol ("verifier " +:+ VerifierId_to_string verifier_id +:+
                   " not found in all_participant_ids")) (position all_participant_ids verifier_id);
    identifier ← map_err (fun e => DkgProtocol ("FROST identifier assignment for position " +:+
                            pretty (Z.of_nat pos) +:+ ": " +:+ e)) (identifier_at pos);
    Ok {| dn_verifier_id := verifier_id; dn_identifier := identifier;
          all_participant_ids := all_participant_ids; max_signers := u_of_Z 16 (Z.of_nat n);
          min_signers := min_signers; dn_state := Initial |}.

Definition is_complete (self : FrostDkgNode) : bool :=
  match dn_state self with DkgCompleted => true | _ => false end.

Definition vid_to_identifier (self : FrostDkgNode) (v : VerifierId) : result (failure NodeError) Identifier :=
  match position (all_participant_ids self) v with
  | Some pos => map_err (fun _ => Panics "position + 1 is always a valid nonzero u16 for n <= 65535")
                  (identifier_at pos)
  | None => Err (dkg_err ("verifier " +:+ VerifierId_to_string v +:+
                   " is not in the ceremony participant list"))
  end.

(** The loop of [identifier_to_vid] from position [pos]. *)
Fixpoint find_identifier (id : Identifier) (pos : nat) (vids : list VerifierId)
    : result (failure NodeError) (option VerifierId) :=
  match vids with
  | [] => Ok None
  | v :: vids' =>
      frost_id ← map_err (fun _ => Panics "position + 1 is valid") (identifier_at pos);
      if bool_decide (frost_id = id) then Ok (Some v) else find_identifier id (S pos) vids'
  end.
Definition identifier_to_vid (self : FrostDkgNode) (id : Identifier) : result (failure NodeError) (option VerifierId) :=
  find_identifier id 0 (all_participant_ids self).

(** [for (vid, pkg) in &m { btree.insert(self.vid_to_identifier(vid)?, pkg.clone()) }] *)
Definition to_identifiers {A} (self : FrostDkgNode) (m : gmap VerifierId A) : result (failure NodeError) (gmap Identifier A) :=
  try_fold (fun acc (p : VerifierId * A) =>
    id ← vid_to_identifier self p.1; Ok (<[id := p.2]> acc)) ∅ (map_to_list m).

(** The inverse conversion in [part2]. *)
Definition to_verifiers {A} (self : FrostDkgNode) (m : gmap Identifier A) : result (failure NodeError) (gmap VerifierId A) :=
  try_fold (fun acc (p : Identifier * A) =>
    o ← identifier_to_vid self p.1;
    v ← ok_or (dkg_err ("DKG part2 produced package for unknown FROST identifier — " +:+
                 "all_participant_ids may be inconsistent")) o;
    Ok (<[v := p.2]> acc)) ∅ (map_to_list m).

Definition part1 (rng : Frost.Rng) : stres FrostDkgNode (failure NodeError) DkgRound1Package := fun self =>
  match dn_state self with
  | Initial =>
      match crypto_err (dkg_part1 rng (dn_identifier self) (max_signers self) (min_signers self)) with
      | Ok (round1_state, round1_pkg) => (set_dn_state (AfterPart1 round1_state) self, Ok round1_pkg)
      | Err e => (self, Err e)
      end
  | AfterPart1 _ | AfterPart2 _ _ | DkgCompleted =>
      (self, Err (dkg_err "part1 already completed for this ceremony"))
  | DkgFailed reason => (self, Err (dkg_err ("ceremony failed — cannot continue: " +:+ reason)))
  end.

Definition PART2_FAILED : string := "part2 did not complete successfully — round1_state consumed".

Definition part2 (round1_packages_from_others : gmap VerifierId DkgRound1Package)
    : stres FrostDkgNode (failure NodeError) (gmap VerifierId DkgRound2Package) := fun self =>
  match dn_state self with
  | AfterPart1 round1_state =>
      match to_identifiers self round1_packages_from_others with
      | Err e => (self, Err e)
      | Ok btree_r1 =>
          let self := set_dn_state (DkgFailed PART2_FAILED) self in
          match crypto_err (dkg_part2 round1_state btree_r1) with
          | Err e => (self, Err e)
          | Ok (round2_state, btree_out) =>
              match to_verifiers self btree_out with
              | Err e => (self, Err e)
              | Ok out => (set_dn_state (AfterPart2 round2_state btree_r1) self, Ok out)
              end
          end
      end
  | Initial => (self, Err (dkg_err "part2 called before part1"))
  | AfterPart2 _ _ => (self, Err (dkg_err "part2 already completed"))
  | DkgCompleted => (self, Err (dkg_err "ceremony already completed"))
  | DkgFailed reason => (self, Err (dkg_err ("ceremony failed — cannot continue: " +:+ reason)))
  end.

Definition part3 (round2_packages_for_me : gmap VerifierId DkgRound2Package)
    : stres FrostDkgNode (failure NodeError) (FrostAuxiliaryNode * FrostGroupKey) := fun self =>
  match dn_state self with
  | AfterPart2 round2_state round1_packages =>
      match (btree_r2 ← to_identifiers self round2_packages_for_me;
             crypto_err (dkg_part3 (dn_verifier_id self) (dn_identifier self) round2_state
               round1_packages btree_r2 (all_participant_ids self))) with
      | Err e => (self, Err e)
      | Ok output => (set_dn_state DkgCompleted self,
          Ok (FrostAuxiliaryNode_new (out_participant output), out_group_key output))
      end
  | Initial => (self, Err (dkg_err "part3 called before part1 and part2"))
  | AfterPart1 _ => (self, Err (dkg_err "part3 called before part2"))
  | DkgCompleted => (self, Err (dkg_err "ceremony already completed"))
  | DkgFailed reason => (self, Err (dkg_err ("ceremony failed — cannot retry part3: " +:+ reason)))
  end.

(** ** Ceremonies *)

(** [m.into_iter().map(...)]: the entries with their positions. *)
Definition enumerate {A} (l : list A) : list (nat * A) := zip (seq 0 (length l)) l.

(** [if nodes.is_empty() { return Err(...) }] *)
Definition require_nodes (msg : string) : stres (list FrostDkgNode) (failure NodeError) unit := fun nodes =>
  match nodes with [] => (nodes, Err (dkg_err msg)) | _ => (nodes, Ok tt) end.

Definition get {S E} : stres S E S := fun s => (s, Ok s).

(** Round 1 of node [i]: its package is added to the broadcasts. *)
Definition round1_of (rngs : nat -> Frost.Rng) (broadcasts : gmap VerifierId DkgRound1Package) (i : nat)
    : stres FrostDkgNode (failure NodeError) (gmap VerifierId DkgRound1Package) :=
  pkg <-- part1 (rngs i) ;;
  self <-- get ;;
  sret (<[dn_verifier_id self := pkg]> broadcasts).

(** [round1_broadcasts.iter().filter(|(vid, _)| *vid != &my_id)...collect()] *)
Definition others (my_id : VerifierId) (broadcasts : gmap VerifierId DkgRound1Package)
    : gmap VerifierId DkgRound1Package :=
  filter (fun p => p.1 <> my_id) broadcasts.

(** Every node runs part 1. *)
Definition ceremony_round1 (rngs : nat -> Frost.Rng)
    : stres (list FrostDkgNode) (failure NodeError) (gmap VerifierId DkgRound1Package) :=
  nodes <-- get ;;
  for_zip_mut (round1_of rngs) (seq 0 (length nodes)) ∅.

Local Notation unicasts := (gmap VerifierId (gmap VerifierId DkgRound2Package)).

(** [entry(to).or_default().insert(from, pkg)] *)
Definition deliver (from : VerifierId) (u : unicasts) (p : VerifierId * DkgRound2Package) : unicasts :=
  <[p.1 := <[from := p.2]> (default ∅ (u !! p.1))]> u.

Definition round2_of (broadcasts : gmap VerifierId DkgRound1Package) (u : unicasts) (_ : nat)
    : stres FrostDkgNode (failure NodeError) unicasts :=
  self <-- get ;;
  outbound <-- part2 (others (dn_verifier_id self) broadcasts) ;;
  sret (foldl (deliver (dn_verifier_id self)) u (map_to_list outbound)).

Local Notation outputs := (list (FrostAuxiliaryNode * FrostGroupKey)).

Definition round3_of (acc : unicasts * outputs) (_ : nat) : stres FrostDkgNode (failure NodeError) (unicasts * outputs) :=
  self <-- get ;;
  let '(u, outs) := acc in
  out <-- part3 (default ∅ (u !! dn_verifier_id self)) ;;
  sret (delete (dn_verifier_id self) u, outs ++ [out]).

(** The consistency check and the result of every ceremony. *)
Definition finish (outs : outputs) : result (failure NodeError) (list FrostAuxiliaryNode * FrostGroupKey) :=
  match outs.*2 with
  | [] => Err (Panics "index out of bounds")
  | group_key :: rest =>
      _ ← try_fold (fun (_ : unit) '(i, gk) =>
        if negb (bool_decide (verifying_key_bytes gk = verifying_key_bytes group_key)) then
          Err (dkg_err ("group key mismatch: node 0 and node " +:+ pretty (Z.of_nat i + 1) +:+
                 " derived different group verifying keys — possible inconsistent Round-1 broadcast"))
        else Ok tt) tt (enumerate rest);
      Ok (outs.*1, group_key)
  end.

Definition run_dkg_ceremony (rngs : nat -> Frost.Rng)
    : stres (list FrostDkgNode) (failure NodeError) (list FrostAuxiliaryNode * FrostGroupKey) :=
  require_nodes "run_dkg_ceremony requires at least one node" ;;;
  nodes <-- get ;;
  broadcasts <-- ceremony_round1 rngs ;;
  u <-- for_zip_mut (round2_of broadcasts) (seq 0 (length nodes)) ∅ ;;
  r <-- for_zip_mut round3_of (seq 0 (length nodes)) (u, []) ;;
  slift (finish r.2).

(** *** Encrypted round-2 packages *)

Local Notation key_map := (gmap VerifierId DkgEncryptionPublicKey).
Local Notation envelopes := (gmap VerifierId (list (VerifierId * EncryptedDkgRound2Package))).

(** [entry(to).or_default().push((from, x))] *)
Definition push_to {A} (from to : VerifierId) (x : A) (m : gmap VerifierId (list (VerifierId * A)))
    : gmap VerifierId (list (VerifierId * A)) :=
  <[to := default [] (m !! to) ++ [(from, x)]]> m.

(** Encryption of one outbound package of node [i]; [no_key] is the error for a
    recipient without a key. *)
Definition seal_for (no_key : VerifierId -> string) (nonce : nat -> nat -> array 24)
    (ceremony_id : DkgCeremonyId) (enc_pub_map : key_map) (sender_key : DkgEncryptionKeyPair)
    (my_id : VerifierId) (i : nat) (entry : nat * (VerifierId * DkgRound2Package))
    : result (failure NodeError) EncryptedDkgRound2Package :=
  let '(j, (to_vid, pkg)) := entry in
  recipient_pub ← ok_or (dkg_err (no_key to_vid)) (enc_pub_map !! to_vid);
  crypto_err (encrypt_round2_package (nonce i j) pkg ceremony_id sender_key my_id recipient_pub to_vid).

Definition round2_encrypted_of (nonce : nat -> nat -> array 24) (ceremony_id : DkgCeremonyId)
    (enc_pub_map : key_map) (broadcasts : gmap VerifierId DkgRound1Package) (e : envelopes)
    (x : nat * DkgEncryptionKeyPair) : stres FrostDkgNode (failure NodeError) envelopes :=
  let '(i, sender_enc_key) := x in
  self <-- get ;;
  outbound <-- part2 (others (dn_verifier_id self) broadcasts) ;;
  slift (try_fold (fun e entry =>
    enc_pkg ← seal_for (fun v => "no encryption public key for recipient " +:+ VerifierId_to_string v)
      nonce ceremony_id enc_pub_map sender_enc_key (dn_verifier_id self) i entry;
    Ok (push_to (dn_verifier_id self) entry.2.1 enc_pkg e)) e (enumerate (map_to_list outbound))).

(** Decryption of one received package. *)
Definition open_from (ceremony_id : DkgCeremonyId) (enc_pub_map : key_map)
    (recipient_enc_key : DkgEncryptionKeyPair) (my_id : VerifierId)
    (acc : gmap VerifierId DkgRound2Package) (p : VerifierId * EncryptedDkgRound2Package)
    : result (failure NodeError) (gmap VerifierId DkgRound2Package) :=
  let '(sender_id, enc_pkg) := p in
  sender_pub ← ok_or (dkg_err ("no encryption public key for sender " +:+ VerifierId_to_string sender_id))
                 (enc_pub_map !! sender_id);
  pkg ← crypto_err (decrypt_round2_package enc_pkg recipient_enc_key sender_pub ceremony_id sender_id my_id);
  Ok (<[sender_id := pkg]> acc).

Definition round3_encrypted_of (ceremony_id : DkgCeremonyId) (enc_pub_map : key_map)
    (acc : envelopes * outputs) (recipient_enc_key : DkgEncryptionKeyPair)
    : stres FrostDkgNode (failure NodeError) (envelopes * outputs) :=
  self <-- get ;;
  let '(e, outs) := acc in
  plaintext_r2 <-- slift (try_fold (open_from ceremony_id enc_pub_map recipient_enc_key (dn_verifier_id self))
                            ∅ (default [] (e !! dn_verifier_id self))) ;;
  out <-- part3 plaintext_r2 ;;
  sret (delete (dn_verifier_id self) e, outs ++ [out]).

(** [encryption_keys.len() != nodes.len()] *)
Definition require_keys (name : string) (n_keys : nat) : stres (list FrostDkgNode) (failure NodeError) unit := fun nodes =>
  if negb (n_keys =? length nodes)%nat then
    (nodes, Err (dkg_err (name +:+ ".len() (" +:+ pretty (Z.of_nat n_keys) +:+
              ") must equal nodes.len() (" +:+ pretty (Z.of_nat (length nodes)) +:+ ")")))
  else (nodes, Ok tt).

(** [nodes.iter().zip(encryption_keys).map(...).collect()] *)
Definition public_keys_of (nodes : list FrostDkgNode) (keys : list DkgEncryptionKeyPair) : key_map :=
  foldl (fun m '(node, kp) => <[dn_verifier_id node := enc_public kp]> m) ∅ (zip nodes keys).

Definition run_dkg_ceremony_encrypted (rngs : nat -> Frost.Rng) (nonce : nat -> nat -> array 24)
    (ceremony_id : DkgCeremonyId) (encryption_keys : list DkgEncryptionKeyPair)
    : stres (list FrostDkgNode) (failure NodeError) (list FrostAuxiliaryNode * FrostGroupKey) :=
  require_nodes "run_dkg_ceremony_encrypted requires at least one node" ;;;
  require_keys "encryption_keys" (length encryption_keys) ;;;
  nodes <-- get ;;
  let enc_pub_map := public_keys_of nodes encryption_keys in
  broadcasts <-- ceremony_round1 rngs ;;
  e <-- for_zip_mut (round2_encrypted_of nonce ceremony_id enc_pub_map broadcasts)
          (enumerate encryption_keys) ∅ ;;
  r <-- for_zip_mut (round3_encrypted_of ceremony_id enc_pub_map) encryption_keys (e, []) ;;
  slift (finish r.2).

(** *** Authenticated encryption keys *)

Definition announcement_err {A} (r : result CryptoError A) : result (failure NodeError) A :=
  map_err (fun e => Fails (DkgKeyAnnouncement (CryptoError_to_string e))) r.

(** The announced key of a node is the one it is about to use. *)
Definition check_own_key (verified : key_map) (_ : unit) (p : FrostDkgNode * DkgEncryptionKeyPair)
    : result (failure NodeError) unit :=
  let '(node, enc_key) := p in
  announced_pub ← ok_or (Panics "all participants verified above") (verified !! dn_verifier_id node);
  if negb (bool_decide (announced_pub = enc_public enc_key)) then
    Err (Fails (DkgKeyAnnouncement ("enc key for " +:+ VerifierId_to_string (dn_verifier_id node) +:+
      " does not match its own verified announcement — " +:+
      "possible inconsistent state or key substitution")))
  else Ok tt.

Definition run_dkg_ceremony_with_authenticated_keys (rngs : nat -> Frost.Rng) (nonce : nat -> nat -> array 24)
    (ceremony_id : DkgCeremonyId) (enc_keys : list DkgEncryptionKeyPair)
    (announcements : list SignedDkgKeyAnnouncement) (registry : DkgParticipantRegistry)
    : stres (list FrostDkgNode) (failure NodeError) (list FrostAuxiliaryNode * FrostGroupKey) :=
  require_nodes "run_dkg_ceremony_with_authenticated_keys requires at least one node" ;;;
  require_keys "enc_keys" (length enc_keys) ;;;
  nodes <-- get ;;
  verified <-- slift (announcement_err
    (collect_verified_enc_keys registry announcements ceremony_id (dn_verifier_id <$> nodes))) ;;
  slift (try_fold (check_own_key verified) tt (zip nodes enc_keys)) ;;;
  run_dkg_ceremony_encrypted rngs nonce ceremony_id enc_keys.

Definition run_dkg_ceremony_with_registry (rngs : nat -> Frost.Rng) (nonce : nat -> nat -> array 24)
    (ceremony_id : DkgCeremonyId) (enc_keys : list DkgEncryptionKeyPair)
    (announcements : list SignedDkgKeyAnnouncement) (registry : ParticipantRegistry)
    (expected_epoch : RegistryEpoch)
    : stres (list FrostDkgNode) (failure NodeError) (list FrostAuxiliaryNode * FrostGroupKey) :=
  nodes <-- get ;;
  slift (map_err (fun e => Fails (DkgKeyAnnouncement (RegistryError_to_string e)))
    (check_ceremony_admission registry expected_epoch (dn_verifier_id <$> nodes))) ;;;
  run_dkg_ceremony_with_authenticated_keys rngs nonce ceremony_id enc_keys announcements
    (to_dkg_registry registry).

(** *** Ceremonies over network messages *)

Context {Jk : SerdeJson DkgEncryptionPublicKey} {Jp : SerdeJson EncryptedDkgRound2Package}.

Record DkgNetworkMessages := MkDkgNetworkMessages {
  dnm_announcement : DkgCeremonyAnnouncement;
  dnm_round1_responses : list DkgRound1Response;
  dnm_round2_deliveries : gmap VerifierId DkgRound2Delivery
}.

Definition round1_response_of (rngs : nat -> Frost.Rng) (ceremony_id : DkgCeremonyId)
    (acc : list DkgRound1Response * gmap VerifierId DkgRound1Package) (i : nat)
    : stres FrostDkgNode (failure NodeError) (list DkgRound1Response * gmap VerifierId DkgRound1Package) :=
  let '(responses, broadcasts) := acc in
  pkg <-- part1 (rngs i) ;;
  self <-- get ;;
  sret (responses ++ [{| dr1_ceremony_id := arr (as_bytes ceremony_id);
                         dr1_participant_id := dn_verifier_id self;
                         dr1_round1_package_bytes := round1_to_bytes pkg |}],
        <[dn_verifier_id self := pkg]> broadcasts).

Definition round2_delivery_of (nonce : nat -> nat -> array 24) (ceremony_id : DkgCeremonyId)
    (verified : key_map) (broadcasts : gmap VerifierId DkgRound1Package)
    (deliveries : gmap VerifierId (list (VerifierId * bytes))) (x : nat * DkgEncryptionKeyPair)
    : stres FrostDkgNode (failure NodeError) (gmap VerifierId (list (VerifierId * bytes))) :=
  let '(i, sender_enc_key) := x in
  self <-- get ;;
  outbound <-- part2 (others (dn_verifier_id self) broadcasts) ;;
  slift (try_fold (fun d entry =>
    enc_pkg ← seal_for (fun v => "no enc public key for " +:+ VerifierId_to_string v)
      nonce ceremony_id verified sender_enc_key (dn_verifier_id self) i entry;
    enc_bytes ← map_err (fun e => dkg_err ("enc pkg serialize: " +:+ e)) (json_to_vec enc_pkg);
    Ok (push_to (dn_verifier_id self) entry.2.1 enc_bytes d)) deliveries (enumerate (map_to_list outbound))).

Definition build_dkg_network_messages (rngs : nat -> Frost.Rng) (nonce : nat -> nat -> array 24)
    (ceremony_id : DkgCeremonyId) (enc_keys : list DkgEncryptionKeyPair)
    (announcements : list SignedDkgKeyAnnouncement) (registry : DkgParticipantRegistry)
    : stres (list FrostDkgNode) (failure NodeError) DkgNetworkMessages :=
  require_keys "enc_keys" (length enc_keys) ;;;
  nodes <-- get ;;
  let participant_ids := dn_verifier_id <$> nodes in
  verified <-- slift (announcement_err
    (collect_verified_enc_keys registry announcements ceremony_id participant_ids)) ;;
  enc_pub_bytes <-- slift (try_map (fun v =>
      pk ← ok_or (Panics "verified above") (verified !! v);
      map_err (fun e => dkg_err ("enc key serialize: " +:+ e)) (json_to_vec pk)) participant_ids) ;;
  first <-- slift (ok_or (Panics "index out of bounds") (head nodes)) ;;
  let announcement := {| dca_ceremony_id := arr (as_bytes ceremony_id);
                         dca_all_participant_ids := participant_ids;
                         dca_min_signers := min_signers first;
                         dca_encryption_public_keys := enc_pub_bytes |} in
  r1 <-- for_zip_mut (round1_response_of rngs ceremony_id) (seq 0 (length nodes)) ([], ∅) ;;
  d <-- for_zip_mut (round2_delivery_of nonce ceremony_id verified r1.2) (enumerate enc_keys) ∅ ;;
  sret {| dnm_announcement := announcement; dnm_round1_responses := r1.1;
          dnm_round2_deliveries := map_imap (fun recipient_id pkgs =>
            Some {| dr2_ceremony_id := arr (as_bytes ceremony_id); dr2_recipient_id := recipient_id;
                    dr2_encrypted_packages := pkgs |}) d |}.

Definition open_delivered (ceremony_id : DkgCeremonyId) (enc_pub_map : key_map)
    (enc_key : DkgEncryptionKeyPair) (my_id : VerifierId)
    (acc : gmap VerifierId DkgRound2Package) (p : VerifierId * bytes)
    : result (failure NodeError) (gmap VerifierId DkgRound2Package) :=
  let '(sender_id, enc_bytes) := p in
  enc_pkg ← map_err (fun e => dkg_err ("encrypted package deserialize: " +:+ e)) (json_from_slice enc_bytes);
  sender_pub ← ok_or (dkg_err ("no enc public key for sender " +:+ VerifierId_to_string sender_id))
                 (enc_pub_map !! sender_id);
  pkg ← crypto_err (decrypt_round2_package enc_pkg enc_key sender_pub ceremony_id sender_id my_id);
  Ok (<[sender_id := pkg]> acc).

Definition dkg_part3_from_delivery (enc_key : DkgEncryptionKeyPair) (delivery : DkgRound2Delivery)
    (enc_pub_map : key_map) (ceremony_id : DkgCeremonyId)
    : stres FrostDkgNode (failure NodeError) (FrostAuxiliaryNode * FrostGroupKey) :=
  self <-- get ;;
  plaintext_r2 <-- slift (try_fold (open_delivered ceremony_id enc_pub_map enc_key (dn_verifier_id self))
                            ∅ (dr2_encrypted_packages delivery)) ;;
  part3 plaintext_r2.
End DkgNode.

(** ** Positions *)

Section Position.
Context {A : Type} `{EqDecision A}.
Implicit Types (l : list A) (x : A).

Lemma position_Some l x k : position l x = Some k -> l !! k = Some x.
Proof. unfold position. intros ([i y] & (Hi & -> & _)%list_find_Some & ->)%fmap_Some. done. Qed.

Lemma position_None l x : position l x = None <-> x ∉ l.
Proof.
  unfold position. rewrite fmap_None, list_find_None, Forall_forall. split.
  - intros Hall Hin. by apply (Hall x).
  - intros Hni y Hy ->. done.
Qed.

Lemma position_NoDup l x k : NoDup l -> l !! k = Some x <-> position l x = Some k.
Proof.
  intros Hnd. split; [|apply position_Some]. intros Hk. destruct (position l x) as [j|] eqn:Hj.
  - apply position_Some in Hj. by rewrite (NoDup_lookup _ _ _ _ Hnd Hj Hk).
  - apply position_None in Hj. destruct Hj. by eapply list_elem_of_lookup_2.
Qed.
End Position.

(** ** Properties of one node *)

Section NodeProps.
Context {Hs : Sha256} {Ed : Ed25519} {Fr : FrostEd25519} {Dk : FrostDkg} {X : X25519} {Ci : DkgCipher}.
Implicit Types (n : FrostDkgNode) (ids : list VerifierId) (v : VerifierId) (id : Identifier).

Lemma uval_succ_u16 k : Z.of_nat k < 65535 -> uval (u_of_Z 16 (Z.of_nat k + 1)) = Z.of_nat k + 1.
Proof. intros Hk. apply uval_of_Z_small. change (2 ^ 16) with 65536. lia. Qed.

Lemma identifier_at_ok k : Z.of_nat k < 65535 -> exists id, identifier_at k = Ok id.
Proof. intros Hk. apply identifier_ok. rewrite uval_succ_u16; lia. Qed.

Lemma identifier_at_inj j k id :
  Z.of_nat j < 65535 -> Z.of_nat k < 65535 -> identifier_at j = Ok id -> identifier_at k = Ok id -> j = k.
Proof.
  intros Hj Hk H1 H2. pose proof (identifier_inj _ _ _ H1 H2) as Heq%(f_equal uval).
  rewrite !uval_succ_u16 in Heq by done. lia.
Qed.

(** The ceremony's parameters, which no call changes. *)
Definition dkg_params n := (dn_verifier_id n, dn_identifier n, all_participant_ids n, max_signers n, min_signers n).

(** The invariant of a node: its identifier is its position in a list of
    distinct participants, and the threshold is between two and their number. *)
Definition dkg_node_wf n : Prop :=
  NoDup (all_participant_ids n) /\
  2 <= uval (min_signers n) <= Z.of_nat (length (all_participant_ids n)) /\
  max_signers n = u_of_Z 16 (Z.of_nat (length (all_participant_ids n))) /\
  exists k, all_participant_ids n !! k = Some (dn_verifier_id n) /\ identifier_at k = Ok (dn_identifier n).

Lemma unique_size_le ids : (size (list_to_set ids : gset VerifierId) <= length ids)%nat.
Proof.
  induction ids as [|w ids IH]; [done|]. cbn [list_to_set length]. rewrite size_union_alt, size_singleton.
  etrans; [apply le_n_S, subseteq_size, subseteq_difference_l; reflexivity|]. lia.
Qed.

Lemma unique_check ids :
  (size (list_to_set ids : gset VerifierId) =? length ids)%nat = true <-> NoDup ids.
Proof.
  rewrite Nat.eqb_eq. split; [|intros; by apply size_list_to_set].
  induction ids as [|v ids IH]; [constructor|]. cbn [list_to_set length]. intros Hsz.
  pose proof (unique_size_le ids). destruct (decide (v ∈ ids)) as [Hin|Hni].
  - rewrite subseteq_union_1_L in Hsz by (apply singleton_subseteq_l, elem_of_list_to_set, Hin). lia.
  - rewrite size_union in Hsz by (apply disjoint_singleton_l; by rewrite elem_of_list_to_set).
    rewrite size_singleton in Hsz. constructor; [done|]. apply IH. lia.
Qed.

Lemma node_new_Ok v ids min n :
  FrostDkgNode_new v ids min = Ok n ->
  dkg_node_wf n /\ dn_verifier_id n = v /\ all_participant_ids n = ids /\ min_signers n = min /\ dn_state n = Initial.
Proof.
  unfold FrostDkgNode_new. destruct (Nat.ltb_spec (length ids) 2); [done|].
  destruct (_ =? _)%nat eqn:Hu; cbn [negb]; [|done]. apply unique_check in Hu.
  destruct (Z.ltb_spec (uval min) 2); [done|]. destruct (Z.ltb_spec (Z.of_nat (length ids)) (uval min)); [done|].
  intros (k & Hk%ok_or_Ok & (id & Hid%map_err_Ok & [= <-])%bind_Ok)%bind_Ok.
  unfold dkg_node_wf. cbn. split_and!; try done. exists k. split; [by apply position_Some | done].
Qed.

Lemma node_new_accepts k v ids min :
  NoDup ids -> 2 <= uval min <= Z.of_nat (length ids) -> Z.of_nat (length ids) <= 65535 -> ids !! k = Some v ->
  exists n, FrostDkgNode_new v ids min = Ok n.
Proof.
  intros Hnd Hmin Hlen Hk. unfold FrostDkgNode_new.
  destruct (Nat.ltb_spec (length ids) 2); [lia|]. rewrite (proj2 (unique_check ids) Hnd). cbn [negb].
  destruct (Z.ltb_spec (uval min) 2); [lia|]. destruct (Z.ltb_spec (Z.of_nat (length ids)) (uval min)); [lia|].
  rewrite (proj1 (position_NoDup ids v k Hnd) Hk). cbn [ok_or mbind result_bind].
  apply lookup_lt_Some in Hk. destruct (identifier_at_ok k) as [id ->]; [lia|]. cbn. eauto.
Qed.

(** *** Names and identifiers *)

(** Nodes whose participants all have identifiers. *)
Definition fits n : Prop := dkg_node_wf n /\ Z.of_nat (length (all_participant_ids n)) <= 65535.

Lemma vid_to_identifier_at n k v id :
  fits n -> all_participant_ids n !! k = Some v -> identifier_at k = Ok id -> vid_to_identifier n v = Ok id.
Proof.
  intros [[Hnd _] _] Hk Hid. unfold vid_to_identifier.
  by rewrite (proj1 (position_NoDup _ _ _ Hnd) Hk), Hid.
Qed.

Lemma find_identifier_at n k v id pos l :
  fits n -> all_participant_ids n !! k = Some v -> identifier_at k = Ok id ->
  all_participant_ids n = take pos (all_participant_ids n) ++ l -> (pos <= k)%nat ->
  find_identifier id pos l = Ok (Some v).
Proof.
  intros [_ Hlen] Hk Hid. revert pos. induction l as [|w l IH]; intros pos Heq Hpos.
  - apply (f_equal length) in Heq. rewrite app_nil_r, length_take in Heq.
    apply lookup_lt_Some in Hk. lia.
  - pose proof (f_equal length Heq) as Hl. rewrite length_app, length_take in Hl. simpl in Hl.
    assert (Hw : all_participant_ids n !! pos = Some w).
    { rewrite Heq, lookup_app_r by (rewrite length_take; lia). rewrite length_take.
      replace (pos - _)%nat with 0%nat by lia. done. }
    cbn [find_identifier]. destruct (identifier_at_ok pos) as [id' Hid']; [lia|]. rewrite Hid'.
    cbn [map_err mbind result_bind]. apply lookup_lt_Some in Hk as Hkl. case_bool_decide as He.
    + subst id'. assert (pos = k) as -> by (eapply identifier_at_inj; [lia|lia|done..]). by rewrite <- Hw, Hk.
    + apply IH; [|destruct (decide (pos = k)) as [->|]; [congruence|lia]].
      rewrite (take_S_r _ _ _ Hw), <- (assoc_L (++)). done.
Qed.

Lemma identifier_to_vid_at n k v id :
  fits n -> all_participant_ids n !! k = Some v -> identifier_at k = Ok id -> identifier_to_vid n id = Ok (Some v).
Proof. intros Hf Hk Hid. eapply find_identifier_at; [done..| |lia]. by rewrite take_0. Qed.

(** [m'] is [m] with every participant replaced by its identifier. *)
Definition renamed {A} n (m : gmap VerifierId A) (m' : gmap Identifier A) : Prop :=
  (forall k v id, all_participant_ids n !! k = Some v -> identifier_at k = Ok id -> m' !! id = m !! v) /\
  (forall v, is_Some (m !! v) -> v ∈ all_participant_ids n) /\
  (forall id, is_Some (m' !! id) -> exists k, (k < length (all_participant_ids n))%nat /\ identifier_at k = Ok id).

Lemma renamed_empty {A} n : renamed (A:=A) n ∅ ∅.
Proof. split_and!; intros *; rewrite ?lookup_empty; [done|by intros []..]. Qed.

Lemma renamed_insert {A} n (m : gmap VerifierId A) m' k v id a :
  fits n -> renamed n m m' -> all_participant_ids n !! k = Some v -> identifier_at k = Ok id ->
  renamed n (<[v := a]> m) (<[id := a]> m').
Proof.
  intros [[Hnd _] Hlen] (H1 & H2 & H3) Hk Hid. apply lookup_lt_Some in Hk as Hkl. split_and!.
  - intros j w id' Hj Hid'. apply lookup_lt_Some in Hj as Hjl. rewrite !lookup_insert.
    do 2 case_decide; try done.
    + subst id'. assert (k = j) as -> by (eapply identifier_at_inj; [lia|lia|done..]). congruence.
    + subst w. assert (k = j) as -> by (by eapply NoDup_lookup). congruence.
    + by eapply H1.
  - intros w. rewrite lookup_insert_is_Some. intros [<-|[_ ?]]; [by eapply list_elem_of_lookup_2 | by apply H2].
  - intros id'. rewrite lookup_insert_is_Some. intros [<-|[_ ?]]; [eauto | by apply H3].
Qed.

Lemma to_identifiers_Ok {A} n (m : gmap VerifierId A) :
  fits n -> (forall v, is_Some (m !! v) -> v ∈ all_participant_ids n) ->
  exists m', to_identifiers n m = Ok m' /\ renamed n m m'.
Proof.
  intros Hf Hdom. unfold to_identifiers.
  enough (Hgen : forall l dn dn', renamed n dn dn' -> (forall p, p ∈ l -> p.1 ∈ all_participant_ids n) ->
    exists m', try_fold (fun acc (p : VerifierId * A) =>
      id ← vid_to_identifier n p.1; Ok (<[id := p.2]> acc)) dn' l = Ok m' /\
      renamed n (foldl (fun m p => <[p.1 := p.2]> m) dn l) m').
  { destruct (Hgen (map_to_list m) ∅ ∅ (renamed_empty n)) as (m' & He & Hr).
    { intros [v a] Hin%elem_of_map_to_list. apply Hdom. by eexists. }
    rewrite foldl_insert_map in Hr. eauto. }
  induction l as [|[v a] l IH]; intros dn dn' Hr Hin; cbn [try_fold foldl fst snd]; [eauto|].
  destruct (list_elem_of_lookup_1 (all_participant_ids n) v) as [k Hk]; [apply (Hin (v, a)); by constructor|].
  apply lookup_lt_Some in Hk as Hkl. destruct (identifier_at_ok k) as [id Hid]; [destruct Hf; lia|].
  rewrite (vid_to_identifier_at _ _ _ _ Hf Hk Hid). cbn [mbind result_bind fst snd].
  apply IH; [by eapply renamed_insert|]. intros p Hp. apply Hin. by constructor.
Qed.

Lemma to_verifiers_Ok {A} n (m' : gmap Identifier A) :
  fits n -> (forall id, is_Some (m' !! id) -> exists k, (k < length (all_participant_ids n))%nat /\ identifier_at k = Ok id) ->
  exists m, to_verifiers n m' = Ok m /\ renamed n m m'.
Proof.
  intros Hf Hdom. unfold to_verifiers.
  enough (Hgen : forall l dn dn', renamed n dn dn' ->
    (forall p, p ∈ l -> exists k, (k < length (all_participant_ids n))%nat /\ identifier_at k = Ok p.1) ->
    exists m, try_fold (fun acc (p : Identifier * A) =>
      o ← identifier_to_vid n p.1;
      v ← ok_or (dkg_err ("DKG part2 produced package for unknown FROST identifier — " +:+
                   "all_participant_ids may be inconsistent")) o;
      Ok (<[v := p.2]> acc)) dn l = Ok m /\
      renamed n m (foldl (fun m p => <[p.1 := p.2]> m) dn' l)).
  { destruct (Hgen (map_to_list m') ∅ ∅ (renamed_empty n)) as (m & He & Hr).
    { intros [id a] Hin%elem_of_map_to_list. apply Hdom. by eexists. }
    rewrite foldl_insert_map in Hr. eauto. }
  induction l as [|[id a] l IH]; intros dn dn' Hr Hin; cbn [try_fold foldl fst snd]; [eauto|].
  destruct (Hin (id, a)) as (k & Hkl & Hid); [by constructor|]. cbn [fst] in Hid.
  destruct (lookup_lt_is_Some_2 _ _ Hkl) as [v Hk].
  rewrite (identifier_to_vid_at _ _ _ _ Hf Hk Hid). cbn [mbind result_bind ok_or].
  apply IH; [by eapply renamed_insert|]. intros p Hp. apply Hin. by constructor.
Qed.

Lemma renamed_unique {A} n (m1 m2 : gmap VerifierId A) m' :
  fits n -> renamed n m1 m' -> renamed n m2 m' -> m1 = m2.
Proof.
  intros [_ Hlen] (H1 & D1 & _) (H2 & D2 & _). apply map_eq. intros v.
  destruct (decide (v ∈ all_participant_ids n)) as [[k Hk]%list_elem_of_lookup|Hni].
  - apply lookup_lt_Some in Hk as Hkl. destruct (identifier_at_ok k) as [id Hid]; [lia|].
    by rewrite <- (H1 _ _ _ Hk Hid), <- (H2 _ _ _ Hk Hid).
  - trans (@None A); [|symmetry]; apply eq_None_not_Some; auto.
Qed.

(** Participants and FROST identifiers correspond one to one: in a node
    whose at most 65535 participants are distinct, the conversion of a map keyed
    by participants never panics, fails exactly when a key is not a participant,
    and is inverted by the conversion back. *)
Theorem identifier_conversion_roundtrip n (m : gmap VerifierId DkgRound2Package) :
  dkg_node_wf n -> Z.of_nat (length (all_participant_ids n)) <= 65535 ->
  ((forall v, is_Some (m !! v) -> v ∈ all_participant_ids n) ->
   exists m', to_identifiers n m = Ok m' /\ to_verifiers n m' = Ok m) /\
  (forall v, v ∉ all_participant_ids n -> exists msg, vid_to_identifier n v = Err (dkg_err msg)).
Proof.
  intros Hwf Hlen. assert (Hf : fits n) by done. split.
  - intros Hdom. destruct (to_identifiers_Ok n m Hf Hdom) as (m' & He & Hr). exists m'. split; [done|].
    destruct (to_verifiers_Ok n m' Hf) as (m2 & -> & Hr2); [apply Hr|]. f_equal. by eapply renamed_unique.
  - intros v Hv%position_None. unfold vid_to_identifier. rewrite Hv. eauto.
Qed.

(** *** The state machine *)

Inductive call :=
  | CallPart1 (rng : Frost.Rng)
  | CallPart2 (pkgs : gmap VerifierId DkgRound1Package)
  | CallPart3 (pkgs : gmap VerifierId DkgRound2Package).

Inductive phase := P1 | P2 | P3.
Definition call_phase (c : call) : phase :=
  match c with CallPart1 _ => P1 | CallPart2 _ => P2 | CallPart3 _ => P3 end.

(** The state after a call and whether it succeeded. *)
Definition dkg_call (c : call) n : FrostDkgNode * bool :=
  match c with
  | CallPart1 rng => let '(n', r) := part1 rng n in (n', is_ok r)
  | CallPart2 pkgs => let '(n', r) := part2 pkgs n in (n', is_ok r)
  | CallPart3 pkgs => let '(n', r) := part3 pkgs n in (n', is_ok r)
  end.

(** [dkg_run n cs ps n']: the calls [cs] lead from [n] to [n'], those of the
    phases [ps] having succeeded. *)
Inductive dkg_run : FrostDkgNode -> list call -> list phase -> FrostDkgNode -> Prop :=
  | dkg_run_nil n : dkg_run n [] [] n
  | dkg_run_ok n c n1 cs ps n2 :
      dkg_call c n = (n1, true) -> dkg_run n1 cs ps n2 -> dkg_run n (c :: cs) (call_phase c :: ps) n2
  | dkg_run_err n c n1 cs ps n2 :
      dkg_call c n = (n1, false) -> dkg_run n1 cs ps n2 -> dkg_run n (c :: cs) ps n2.

(** The phases that have succeeded when a node is in state [s]. *)
Definition history (s : DkgNodeState) : list phase :=
  match s with
  | Initial => []
  | AfterPart1 _ | DkgFailed _ => [P1]
  | AfterPart2 _ _ => [P1; P2]
  | DkgCompleted => [P1; P2; P3]
  end.

(** The calls that consume the round-1 secret: part 2 after part 1, with packages of
    known senders. *)
Definition consumes (c : call) n : bool :=
  match c, dn_state n with
  | CallPart2 pkgs, AfterPart1 _ => is_ok (to_identifiers n pkgs)
  | _, _ => false
  end.

(** Every call in one table: what succeeds and what a failure leaves behind. *)
Lemma dkg_call_cases c n n' b :
  dkg_call c n = (n', b) ->
  dkg_params n' = dkg_params n /\
  if b then history (dn_state n') = history (dn_state n) ++ [call_phase c] /\
            (forall reason, dn_state n <> DkgFailed reason)
  else n' = (if consumes c n then set_dn_state (DkgFailed PART2_FAILED) n else n).
Proof.
  destruct c as [rng|pkgs|pkgs]; cbn [dkg_call call_phase consumes]; unfold part1, part2, part3.
  - destruct (dn_state n) eqn:Hst; try (intros [= <- <-]; by eauto).
    destruct (crypto_err _) as [[s p]|]; intros [= <- <-]; (split; [done|]); cbn; eauto.
  - destruct (dn_state n) as [|s| | |] eqn:Hst; try (intros [= <- <-]; by eauto).
    destruct (to_identifiers _ _); [|intros [= <- <-]; by eauto].
    destruct (crypto_err _) as [[s2 out]|]; [|intros [= <- <-]; by eauto 10].
    destruct (to_verifiers _ _); intros [= <- <-]; (split; [done|]); cbn; eauto 10.
  - destruct (dn_state n) eqn:Hst; try (intros [= <- <-]; by eauto).
    destruct (_ ≫= _); intros [= <- <-]; (split; [done|]); cbn; eauto.
Qed.

Lemma consumes_phase c n : consumes c n = true -> call_phase c = P2 /\ exists s, dn_state n = AfterPart1 s.
Proof. destruct c; cbn; destruct (dn_state n); try done. eauto. Qed.

Lemma to_identifiers_known {A} n (m : gmap VerifierId A) v :
  is_Some (m !! v) -> v ∉ all_participant_ids n -> is_ok (to_identifiers n m) = false.
Proof.
  intros [a Hv%elem_of_map_to_list] Hni%position_None. unfold to_identifiers. generalize (∅ : gmap Identifier A) as acc.
  revert Hv. generalize (map_to_list m) as l. induction l as [|[w b] l IH]; intros Hin acc; [by apply elem_of_nil in Hin|].
  cbn [try_fold fst]. apply elem_of_cons in Hin as [[= -> ->]|Hin].
  - replace (vid_to_identifier n w) with (Err (A:=Identifier) (dkg_err ("verifier " +:+ VerifierId_to_string w +:+
      " is not in the ceremony participant list"))); [done|]. unfold vid_to_identifier. by rewrite Hni.
  - destruct (vid_to_identifier n w); [|done]. cbn [mbind result_bind]. by apply IH.
Qed.

Lemma dkg_run_history n cs ps n' :
  dkg_run n cs ps n' ->
  dkg_params n' = dkg_params n /\ history (dn_state n') = history (dn_state n) ++ ps /\
  ((exists reason, dn_state n = DkgFailed reason) -> n' = n /\ ps = []).
Proof.
  induction 1 as [n|n c n1 cs ps n2 Hc _ (IHp & IHh & IHf)|n c n1 cs ps n2 Hc _ (IHp & IHh & IHf)].
  - by rewrite app_nil_r.
  - apply dkg_call_cases in Hc as (Hp & Hh & Hnf). split_and!; [congruence| |].
    + by rewrite IHh, Hh, <- (assoc_L (++)).
    + intros [reason Hr]. by destruct (Hnf reason).
  - apply dkg_call_cases in Hc as (Hp & ->). destruct (consumes c n) eqn:Hcons; [|done].
    apply consumes_phase in Hcons as [_ [s Hsec]]. split_and!; [done| |].
    + rewrite IHh, Hsec. done.
    + intros [reason Hr]. congruence.
Qed.

Lemma dkg_params_wf n n' : dkg_params n' = dkg_params n -> dkg_node_wf n -> dkg_node_wf n'.
Proof. destruct n, n'. intros [= -> -> -> -> ->]. done. Qed.

(** C24. A node follows the protocol whatever is called on it: after any
    sequence of calls with any arguments, on a node made by [new], the calls
    that succeeded are a prefix of part 1, part 2, part 3, each at most once and
    in this order; the node is complete exactly when all three succeeded; its
    parameters are unchanged and its invariant holds. A call that fails leaves the
    node as it was, with one exception: a part 2 after part 1 whose packages all have
    known senders has consumed the round-1 secret when it fails, and the node is
    then failed. A part 2 with a package of an unknown sender is refused and changes
    nothing. On a failed node every call is refused and changes nothing. *)
Theorem dkg_node_protocol v ids min n cs ps n' :
  FrostDkgNode_new v ids min = Ok n ->
  dkg_run n cs ps n' ->
  ps = history (dn_state n') /\ ps `prefix_of` [P1; P2; P3] /\
  (is_complete n' = true <-> ps = [P1; P2; P3]) /\
  dkg_params n' = dkg_params n /\ dkg_node_wf n' /\
  (forall c n1, dkg_call c n' = (n1, false) ->
     n1 = (if consumes c n' then set_dn_state (DkgFailed PART2_FAILED) n' else n')) /\
  (forall pkgs w, is_Some (pkgs !! w) -> w ∉ all_participant_ids n' -> dkg_call (CallPart2 pkgs) n' = (n', false)) /\
  (forall c reason, dn_state n' = DkgFailed reason -> dkg_call c n' = (n', false)).
Proof.
  intros (Hwf & _ & _ & _ & Hst)%node_new_Ok Hrun. pose proof (dkg_run_history _ _ _ _ Hrun) as (Hp & Hh & _).
  rewrite Hst in Hh. cbn [history app] in Hh. subst ps. split_and!; try done.
  - destruct (dn_state n'); [by eexists..].
  - unfold is_complete. by destruct (dn_state n').
  - by eapply dkg_params_wf.
  - intros c n1 Hc. by apply dkg_call_cases in Hc as [_ ->].
  - intros pkgs w Hw Hni. pose proof (to_identifiers_known n' pkgs w Hw Hni) as Hids. cbn [dkg_call]. unfold part2.
    destruct (dn_state n'); try done. by destruct (to_identifiers n' pkgs).
  - intros [] reason Hr; cbn [dkg_call]; unfold part1, part2, part3; by rewrite Hr.
Qed.
End NodeProps.

(** ** Concrete instances *)

Definition toy_ids : list VerifierId := [vid 1; vid 2; vid 3].
Definition toy_min : u16 := u_of_Z 16 2.
Definition toy_rngs (i : nat) : Frost.Rng (FrostEd25519:=toy_frost) := [byte (Z.of_nat i)].

Definition toy_node (z : Z) : FrostDkgNode (Dk:=toy_dkg) :=
  unwrap_or (MkFrostDkgNode (Dk:=toy_dkg) (vid z) 0%nat [] toy_min toy_min Initial)
    (FrostDkgNode_new (Dk:=toy_dkg) (vid z) toy_ids toy_min).
Definition toy_nodes : list (FrostDkgNode (Dk:=toy_dkg)) := toy_node <$> [1; 2; 3].

Lemma toy_node_new z :
  z ∈ [1; 2; 3] -> FrostDkgNode_new (Dk:=toy_dkg) (vid z) toy_ids toy_min = Ok (toy_node z).
Proof.
  intros Hz. apply is_ok_unwrap.
  assert (HF : Forall (fun z => is_ok (FrostDkgNode_new (Dk:=toy_dkg) (vid z) toy_ids toy_min) = true) [1; 2; 3])
    by (repeat constructor; vm_compute; reflexivity).
  exact (proj1 (Forall_forall _ _) HF z Hz).
Qed.

Lemma toy_node_in z : z ∈ [1; 2; 3] -> all_participant_ids (toy_node z) = toy_ids /\ dn_verifier_id (toy_node z) = vid z.
Proof. intros (_ & Hv & Hids & _)%toy_node_new%node_new_Ok. exact (conj Hids Hv). Qed.

Definition toy_r2 : gmap VerifierId (DkgRound2Package (Dk:=toy_dkg)) :=
  {[ vid 2 := MkDkgRound2Package (Dk:=toy_dkg) (2%nat, 1%nat) ]}.
Lemma identifier_conversion_roundtrip_witness :
  exists m', to_identifiers (toy_node 1) toy_r2 = Ok m' /\ to_verifiers (toy_node 1) m' = Ok toy_r2.
Proof.
  assert (Hin : 1 ∈ [1; 2; 3]) by (apply (bool_decide_unpack _); vm_compute; exact I).
  apply (identifier_conversion_roundtrip (Dk:=toy_dkg) (toy_node 1) toy_r2).
  - exact (proj1 (node_new_Ok (Dk:=toy_dkg) _ _ _ _ (toy_node_new 1 Hin))).
  - rewrite (proj1 (toy_node_in 1 Hin)). vm_compute. discriminate.
  - unfold toy_r2. intros v [p [<- _]%lookup_singleton_Some]. rewrite (proj1 (toy_node_in 1 Hin)).
    apply (bool_decide_unpack _). vm_compute. exact I.
Defined.

Lemma call_result {Fr : FrostEd25519} {Dk : FrostDkg} {Ed : Ed25519} c n b :
  (dkg_call c n).2 = b -> dkg_call c n = ((dkg_call c n).1, b).
Proof. by destruct (dkg_call c n); intros <-. Qed.

(** Part 2 is called too early and refused, then part 1 succeeds; a part 2 with too
    few packages then fails and ends the node, one naming a stranger does not. *)
Definition toy_node_a := (dkg_call (Ed:=toy_ed25519) (Dk:=toy_dkg) (CallPart2 ∅) (toy_node 1)).1.
Definition toy_node_b := (dkg_call (Ed:=toy_ed25519) (Dk:=toy_dkg) (CallPart1 (Dk:=toy_dkg) (toy_rngs 7)) toy_node_a).1.
Lemma dkg_node_protocol_witness :
  [P1] `prefix_of` [P1; P2; P3] /\ dkg_params toy_node_b = dkg_params (toy_node 1) /\ dkg_node_wf toy_node_b /\
  (dkg_call (Ed:=toy_ed25519) (Dk:=toy_dkg) (CallPart2 ∅) toy_node_b).1 = set_dn_state (DkgFailed PART2_FAILED) toy_node_b /\
  (forall pkg, dkg_call (Ed:=toy_ed25519) (Dk:=toy_dkg) (CallPart2 {[vid 9 := pkg]}) toy_node_b = (toy_node_b, false)).
Proof.
  assert (Hin : 1 ∈ [1; 2; 3]) by (apply (bool_decide_unpack _); vm_compute; exact I).
  destruct (dkg_node_protocol (Ed:=toy_ed25519) (Dk:=toy_dkg) (vid 1) toy_ids toy_min (toy_node 1)
    [CallPart2 ∅; CallPart1 (Dk:=toy_dkg) (toy_rngs 7)] [P1] toy_node_b (toy_node_new 1 Hin)) as (_ & Hpre & _ & Hpar & Hwf & Hfail & Hunk & _).
  - refine (dkg_run_err _ _ toy_node_a _ _ _ (call_result _ _ false _) _); [vm_compute; reflexivity|].
    refine (dkg_run_ok _ (CallPart1 (Dk:=toy_dkg) (toy_rngs 7)) toy_node_b [] [] toy_node_b (call_result _ _ true _) (dkg_run_nil toy_node_b)). vm_compute. reflexivity.
  - split_and!; [exact Hpre|exact Hpar|exact Hwf| |].
    + refine (Hfail (CallPart2 ∅) _ (call_result _ _ false _)). vm_compute. reflexivity.
    + intros pkg. apply (Hunk _ (vid 9)); [exists pkg; apply lookup_singleton_eq|].
      apply (bool_decide_unpack _). vm_compute. exact I.
Defined.
