(* ===== verification/DkgCeremony.v ===== *)
(** * Correctness of the key generation ceremonies

    Theorems about the ceremonies of [DkgNode]: the encrypted, authenticated and
    networked ceremonies have the outcome of the plain one (a simulation), and
    the plain ceremony of honest nodes completes with one group key. *)

From S2P Require Import Prelude Core Session Storage Attestation Threshold Registry Dctls Network Errors.
From S2P Require Import Sha256Gadget HmacGadget CoSnark Frost FrostAux Dkg DkgNode.

(** ** Two computations with one outcome *)

(** They end in the same state, which satisfies [I], with related values or the
    same error. *)
Definition same_outcome {S E A B} (I : S -> Prop) (R : A -> B -> Prop)
    (r1 : S * result E A) (r2 : S * result E B) : Prop :=
  r1.1 = r2.1 /\ I r1.1 /\
  match r1.2, r2.2 with
  | Ok a, Ok b => R a b
  | Err e, Err e' => e = e'
  | _, _ => False
  end.

Section Outcome.
Context {S E : Type}.

Lemma sbind_run {A B} (m : stres S E A) (f : A -> stres S E B) s s' a :
  m s = (s', Ok a) -> sbind m f s = f a s'.
Proof. unfold sbind. by intros ->. Qed.

Lemma sbind_get {B} (f : S -> stres S E B) s : sbind get f s = f s s.
Proof. done. Qed.

Lemma same_outcome_eq {A} (I : S -> Prop) (r1 r2 : S * result E A) : same_outcome I eq r1 r2 -> r1 = r2.
Proof. destruct r1 as [s [a|e]], r2 as [s' [a'|e']]; intros (He & _ & Hr); cbn in *; by subst. Qed.

Lemma same_outcome_bind {A B A' B'} (I I' : S -> Prop) (R : A -> B -> Prop) (R' : A' -> B' -> Prop)
    (m : stres S E A) (m' : stres S E B) f f' s :
  same_outcome I R (m s) (m' s) ->
  (forall s, I s -> I' s) ->
  (forall a b s, R a b -> I s -> same_outcome I' R' (f a s) (f' b s)) ->
  same_outcome I' R' (sbind m f s) (sbind m' f' s).
Proof.
  unfold sbind. destruct (m s) as [s1 [a|e]], (m' s) as [s2 [b|e']]; intros (He & HI & HR) HII Hk; cbn in *; try done.
  - subst s2. by apply Hk.
  - subst. by split_and!; [|apply HII|].
Qed.

Lemma same_outcome_refl {A} (I : S -> Prop) (r : S * result E A) : I r.1 -> same_outcome I eq r r.
Proof. destruct r as [s []]; by intros. Qed.

Lemma same_outcome_weaken {A B} (I I' : S -> Prop) (R : A -> B -> Prop) (r1 : S * result E A) (r2 : S * result E B) :
  (forall s, I s -> I' s) -> same_outcome I R r1 r2 -> same_outcome I' R r1 r2.
Proof. intros HI (He & HIs & HR). split_and!; auto. Qed.

Lemma same_outcome_weaken2 {A B} (I I' : S -> Prop) (R R' : A -> B -> Prop) (r1 : S * result E A) (r2 : S * result E B) :
  (forall s, I s -> I' s) -> (forall a b, R a b -> R' a b) -> same_outcome I R r1 r2 -> same_outcome I' R' r1 r2.
Proof. intros HI HRR (He & HIs & HR). split_and!; auto. destruct (r1.2), (r2.2); auto. Qed.

Lemma same_outcome_ret {A B} (I : S -> Prop) (R : A -> B -> Prop) a b s :
  I s -> R a b -> same_outcome (E:=E) I R (sret a s) (sret b s).
Proof. done. Qed.

Lemma same_outcome_lift {A B} (I : S -> Prop) (R : A -> B -> Prop) (r : result E A) (r' : result E B) s :
  I s -> match r, r' with Ok a, Ok b => R a b | Err e, Err e' => e = e' | _, _ => False end ->
  same_outcome I R (slift r s) (slift r' s).
Proof. done. Qed.
End Outcome.

(** A loop over the nodes whose iterations have the same outcome; [R k] relates
    the accumulators before iteration [k]. *)
Lemma for_zip_mut_same {N X Y A B E} (J : nat -> N -> Prop) (R : nat -> A -> B -> Prop)
    (f : A -> X -> stres N E A) (g : B -> Y -> stres N E B) xs ys a b ns :
  (forall k a b x y n, R k a b -> xs !! k = Some x -> ys !! k = Some y -> J k n ->
     same_outcome (J k) (R (S k)) (f a x n) (g b y n)) ->
  length xs = length ns -> length ys = length ns -> R 0%nat a b -> (forall k n, ns !! k = Some n -> J k n) ->
  same_outcome (fun ns' => length ns' = length ns /\ forall k n, ns' !! k = Some n -> J k n) (R (length ns))
    (for_zip_mut f xs a ns) (for_zip_mut g ys b ns).
Proof.
  revert J R xs ys a b. induction ns as [|n ns IH]; intros J R xs ys a b Hstep Hlx Hly Hab Hns;
    [by destruct xs, ys|].
  destruct xs as [|x xs], ys as [|y ys]; try done. cbn [for_zip_mut].
  assert (Hn : J 0%nat n) by by apply Hns.
  specialize (Hstep 0%nat a b x y n Hab eq_refl eq_refl Hn) as Hst.
  destruct (f a x n) as [n1 [a'|e]], (g b y n) as [n2 [b'|e']]; destruct Hst as (He & HJ & HR); cbn in He, HJ, HR; try done;
    subst n2.
  - specialize (IH (fun k => J (S k)) (fun k => R (S k)) xs ys a' b').
    destruct (for_zip_mut f xs a' ns) as [ns1 r1], (for_zip_mut g ys b' ns) as [ns2 r2].
    destruct IH as (He & (Hl & HI) & HR'); [| | |done| |].
    + intros k ? ? ? ? ? ? Hx Hy. by apply (Hstep (S k)).
    + cbn in Hlx. lia.
    + cbn in Hly. lia.
    + intros k m Hk. by apply (Hns (S k)).
    + cbn in He, Hl, HI, HR'. subst ns2. split; [done|]. split; [|done]. split; [cbn; lia|].
      intros [|k] m; cbn; [by intros [= <-] | apply HI].
  - subst e'. split; [done|]. split; [|done]. split; [done|].
    intros [|k] m; cbn; [by intros [= <-] | intros Hk; by apply (Hns (S k))].
Qed.

Lemma try_fold_ext {E A B} (f g : B -> A -> result E B) acc l :
  (forall b a, f b a = g b a) -> try_fold f acc l = try_fold g acc l.
Proof.
  intros Hfg. revert acc. induction l as [|x l IH]; intros acc; cbn [try_fold]; [done|].
  rewrite Hfg. destruct (g acc x); cbn; auto.
Qed.

(** ** Calls keep a node's parameters *)

Section Frame.
Context {Hs : Sha256} {Ed : Ed25519} {Fr : FrostEd25519} {Dk : FrostDkg} {X : X25519} {Ci : DkgCipher}.

(** The node at position [k] of a ceremony with the given parameters. *)
Definition at_position (nodes : list FrostDkgNode) (k : nat) (n : FrostDkgNode) : Prop :=
  exists n0, nodes !! k = Some n0 /\ dkg_params n = dkg_params n0.

Lemma at_position_refl nodes k n : nodes !! k = Some n -> at_position nodes k n.
Proof. by exists n. Qed.

Lemma at_position_step nodes k n n' : at_position nodes k n -> dkg_params n' = dkg_params n -> at_position nodes k n'.
Proof. intros (n0 & Hk & Hp) Hp'. exists n0. by rewrite Hp'. Qed.

Lemma part1_params rng n : dkg_params (part1 rng n).1 = dkg_params n.
Proof. unfold part1. destruct (dn_state n); try done. by destruct (crypto_err _) as [[]|]. Qed.
Lemma part2_params m n : dkg_params (part2 m n).1 = dkg_params n.
Proof.
  unfold part2. destruct (dn_state n); try done. destruct (to_identifiers n m); [|done].
  destruct (crypto_err _) as [[]|]; [|done]. by destruct (to_verifiers _ _).
Qed.
Lemma part3_params m n : dkg_params (part3 m n).1 = dkg_params n.
Proof.
  pose proof (dkg_call_cases (CallPart3 m) n) as H. cbn in H.
  destruct (part3 m n) as [n' r]. by apply (H n' (is_ok r)).
Qed.

Lemma find_identifier_in id pos l v : find_identifier id pos l = Ok (Some v) -> v ∈ l.
Proof.
  revert pos. induction l as [|w l IH]; intros pos; cbn [find_identifier]; [done|].
  intros (i & _ & Hok)%bind_Ok. case_bool_decide; [injection Hok as ->; by constructor|].
  apply elem_of_cons. right. by eapply IH.
Qed.

Lemma to_verifiers_in {A} n (m' : gmap Identifier A) m :
  to_verifiers n m' = Ok m -> forall v, is_Some (m !! v) -> v ∈ all_participant_ids n.
Proof.
  unfold to_verifiers.
  apply (try_fold_inv (fun m : gmap VerifierId A => forall v, is_Some (m !! v) -> v ∈ all_participant_ids n)).
  - intros v. rewrite lookup_empty. by intros [].
  - intros acc p acc' _ Hacc (o & Ho & (w & Hw%ok_or_Ok & [= <-])%bind_Ok)%bind_Ok v. subst o.
    rewrite lookup_insert_is_Some. intros [<-|[_ ?]]; [by eapply find_identifier_in | by apply Hacc].
Qed.

(** Part 2 addresses participants only. *)
Lemma part2_addressees m n n' out :
  part2 m n = (n', Ok out) -> forall v, is_Some (out !! v) -> v ∈ all_participant_ids n.
Proof.
  unfold part2. destruct (dn_state n); try done. destruct (to_identifiers n m); [|done].
  destruct (crypto_err _) as [[s2 o]|]; [|done].
  destruct (to_verifiers _ o) as [out'|] eqn:Hout; [|done]. intros [= _ <-].
  apply (to_verifiers_in _ _ _ Hout).
Qed.
End Frame.

(** ** Sealed transport of the round-2 packages *)

Section Sealed.
Context {Hs : Sha256} {Ed : Ed25519} {Fr : FrostEd25519} {Dk : FrostDkg} {X : X25519} {Ci : DkgCipher}.

(** The participants of a ceremony in order and their encryption keys. *)
Variables (ids : list VerifierId) (keys : list DkgEncryptionKeyPair).
(** What travels, and how recipient [to] with key [kp] opens an item. *)
Variables (W : Type) (opn : DkgEncryptionKeyPair -> VerifierId -> gmap VerifierId DkgRound2Package ->
  VerifierId * W -> result (failure NodeError) (gmap VerifierId DkgRound2Package)).

Local Notation unicasts := (gmap VerifierId (gmap VerifierId DkgRound2Package)).
Local Notation sealed := (gmap VerifierId (list (VerifierId * W))).

(** Every participant opens the items addressed to it to the packages the plain
    ceremony would have delivered. *)
Definition transports (u : unicasts) (e : sealed) : Prop :=
  forall k to kp, ids !! k = Some to -> keys !! k = Some kp ->
    try_fold (opn kp to) ∅ (default [] (e !! to)) = Ok (default ∅ (u !! to)).

(** Item [w] from [from] carries [pkg] to [to]. *)
Definition carries (from to : VerifierId) (w : W) (pkg : DkgRound2Package) : Prop :=
  forall k kp acc, ids !! k = Some to -> keys !! k = Some kp -> opn kp to acc (from, w) = Ok (<[from := pkg]> acc).

Lemma transports_empty : transports ∅ ∅.
Proof. done. Qed.

Lemma transports_push from to w pkg u e :
  carries from to w pkg -> transports u e -> transports (deliver from u (to, pkg)) (push_to from to w e).
Proof.
  intros Hw Ht k v kp Hk Hkp. unfold deliver, push_to. cbn [fst snd].
  destruct (decide (to = v)) as [->|Hne].
  - rewrite !lookup_insert_eq. cbn [default id]. rewrite try_fold_app, (Ht k v kp Hk Hkp).
    cbn [mbind result_bind try_fold]. by rewrite (Hw k kp).
  - rewrite !lookup_insert_ne by done. by eapply Ht.
Qed.

Lemma transports_delete v u e : transports u e -> transports (delete v u) (delete v e).
Proof.
  intros Ht k w kp Hk Hkp. destruct (decide (v = w)) as [->|Hne].
  - by rewrite !lookup_delete_eq.
  - rewrite !lookup_delete_ne by done. by eapply Ht.
Qed.

Lemma transports_all from (seal : nat * (VerifierId * DkgRound2Package) -> result (failure NodeError) W) l j u e :
  (forall j to pkg, (to, pkg) ∈ l -> exists w, seal (j, (to, pkg)) = Ok w /\ carries from to w pkg) ->
  transports u e ->
  exists e', try_fold (fun e entry => w ← seal entry; Ok (push_to from entry.2.1 w e)) e
               (zip (seq j (length l)) l) = Ok e' /\ transports (foldl (deliver from) u l) e'.
Proof.
  revert j u e. induction l as [|[to pkg] l IH]; intros j u e Hseal Ht; [by exists e|].
  cbn [length seq zip zip_with try_fold foldl].
  destruct (Hseal j to pkg) as (w & -> & Hw); [by constructor|]. cbn [mbind result_bind fst snd].
  apply IH; [|by apply transports_push]. intros j' to' pkg' Hin. apply Hseal. by constructor.
Qed.
End Sealed.

(** ** The encrypted ceremony *)

Section Encrypted.
Context {Hs : Sha256} {Ed : Ed25519} {Fr : FrostEd25519} {Dk : FrostDkg} {X : X25519} {Ci : DkgCipher}.

(** A ceremony among distinct nodes, each of which knows no other participants,
    with one generated key pair per node. *)
Record ceremony_setup (nodes : list FrostDkgNode) (keys : list DkgEncryptionKeyPair) : Prop := {
  cs_length : length keys = length nodes;
  cs_distinct : NoDup (dn_verifier_id <$> nodes);
  cs_participants n v : n ∈ nodes -> v ∈ all_participant_ids n -> v ∈ dn_verifier_id <$> nodes;
  cs_keys : Forall keypair_wf keys
}.

(** The cipher accepts every round-2 package: they are short messages. *)
Definition cipher_accepts : Prop :=
  forall key nonce pkg aad, is_ok (aead_encrypt key nonce (to_plaintext_bytes pkg) aad) = true.

(** The key map holds the public keys of the nodes. *)
Definition holds_keys (nodes : list FrostDkgNode) (keys : list DkgEncryptionKeyPair)
    (m : gmap VerifierId DkgEncryptionPublicKey) : Prop :=
  forall k v kp, (dn_verifier_id <$> nodes) !! k = Some v -> keys !! k = Some kp -> m !! v = Some (enc_public kp).

Lemma public_keys_of_holds nodes keys :
  length keys = length nodes -> NoDup (dn_verifier_id <$> nodes) ->
  holds_keys nodes keys (public_keys_of nodes keys).
Proof.
  intros Hlen Hnd k v kp Hv Hkp. unfold public_keys_of.
  rewrite <- (foldl_insert_elem (zip (dn_verifier_id <$> nodes) (enc_public <$> keys)) ∅ v (enc_public kp)).
  - f_equal. clear. generalize (∅ : gmap VerifierId DkgEncryptionPublicKey). revert keys.
    induction nodes as [|n nodes IH]; intros [|kp keys] m; csimpl; auto.
  - rewrite fst_zip by (rewrite !length_fmap; lia). done.
  - apply list_elem_of_lookup. exists k. apply lookup_zip_with_Some.
    eexists _, _. split; [done|]. split; [done|]. by rewrite list_lookup_fmap, Hkp.
Qed.

Section Simulation.
Context (nodes : list FrostDkgNode) (keys : list DkgEncryptionKeyPair) (c : DkgCeremonyId).
Context (Hsetup : ceremony_setup nodes keys) (Hcipher : cipher_accepts).
Context (epm : gmap VerifierId DkgEncryptionPublicKey) (Hepm : holds_keys nodes keys epm).
Local Notation ids := (dn_verifier_id <$> nodes).

Lemma setup_key k v : ids !! k = Some v -> exists kp, keys !! k = Some kp /\ keypair_wf kp.
Proof using Hsetup.
  intros Hk%lookup_lt_Some. rewrite length_fmap, <- (cs_length _ _ Hsetup) in Hk.
  apply lookup_lt_is_Some in Hk as [kp Hkp]. exists kp. split; [done|].
  by eapply Forall_lookup_1; [apply (cs_keys _ _ Hsetup)|].
Qed.

(** An envelope sealed by node [i] for a participant carries its package. *)
Lemma seal_carries msg nonce i v kp j to pkg :
  ids !! i = Some v -> keys !! i = Some kp -> to ∈ ids ->
  exists w, seal_for msg nonce c epm kp v i (j, (to, pkg)) = Ok w /\
    carries ids keys _ (open_from c epm) v to w pkg.
Proof using Hsetup Hcipher Hepm.
  intros Hi Hkp [k Hk]%list_elem_of_lookup. destruct (setup_key k to Hk) as (kpr & Hkpr & Hwfr).
  assert (Hwfs : keypair_wf kp) by (eapply Forall_lookup_1; [apply (cs_keys _ _ Hsetup)|done]).
  unfold seal_for. rewrite (Hepm k to kpr Hk Hkpr). cbn [ok_or mbind result_bind].
  destruct (encrypt_round2_package (nonce i j) pkg c kp v (enc_public kpr) to) as [w|e] eqn:Henc.
  - exists w. split; [done|]. intros k' kp' acc Hk' Hkp'.
    assert (k' = k) as -> by (eapply NoDup_lookup; [apply (cs_distinct _ _ Hsetup)|done..]).
    rewrite Hkpr in Hkp'. injection Hkp' as <-. unfold open_from.
    rewrite (Hepm i v kp Hi Hkp). cbn [ok_or mbind result_bind].
    by rewrite (encrypt_then_decrypt _ _ _ _ _ _ _ _ Hwfs Hwfr Henc).
  - exfalso. unfold encrypt_round2_package in Henc.
    pose proof (Hcipher (derive_key (enc_secret kp) (enc_public kpr) c v to) (nonce i j) pkg (build_aad c v to)) as Hok.
    by destruct (aead_encrypt _ _ _ _).
Qed.

Lemma round1_of_same rngs k b b' n :
  b = b' -> at_position nodes k n ->
  same_outcome (at_position nodes k) eq (round1_of rngs b k n) (round1_of rngs b' k n).
Proof.
  intros <- Hn. apply same_outcome_refl. unfold round1_of, sbind.
  pose proof (part1_params (rngs k) n) as Hp. destruct (part1 (rngs k) n) as [n' [p|e]]; cbn in *;
    by eapply at_position_step.
Qed.

Lemma ceremony_round1_same rngs ns :
  (forall k n, ns !! k = Some n -> at_position nodes k n) ->
  same_outcome (fun ns' => length ns' = length ns /\ forall k n, ns' !! k = Some n -> at_position nodes k n) eq
    (ceremony_round1 rngs ns) (ceremony_round1 rngs ns).
Proof.
  intros Hns. unfold ceremony_round1, sbind, get.
  apply (for_zip_mut_same (at_position nodes) (fun _ => eq)); [|by rewrite length_seq..|done|exact Hns].
  intros k a b x y n Hab Hx Hy Hn. rewrite Hx in Hy. injection Hy as <-.
  apply lookup_seq in Hx as [-> _]. by apply round1_of_same.
Qed.

(** The part of a round-2 step that does not depend on the transport. *)
Lemma round2_step_same {W} (opn : DkgEncryptionKeyPair -> VerifierId -> gmap VerifierId DkgRound2Package ->
    VerifierId * W -> result (failure NodeError) (gmap VerifierId DkgRound2Package))
    b k u e n kp (seal : VerifierId -> nat * (VerifierId * DkgRound2Package) -> result (failure NodeError) W) x :
  at_position nodes k n -> keys !! k = Some kp ->
  (forall j v to pkg, ids !! k = Some v -> to ∈ ids ->
     exists w, seal v (j, (to, pkg)) = Ok w /\ carries ids keys W opn v to w pkg) ->
  transports ids keys W opn u e ->
  same_outcome (at_position nodes k) (transports ids keys W opn) (round2_of b u x n)
    (sbind get (fun self =>
      sbind (part2 (others (dn_verifier_id self) b)) (fun outbound =>
      slift (try_fold (fun e entry => w ← seal (dn_verifier_id self) entry;
               Ok (push_to (dn_verifier_id self) entry.2.1 w e)) e (enumerate (map_to_list outbound))))) n).
Proof using Hsetup.
  intros Hn Hkp Hseal Ht. unfold round2_of, sbind, get.
  pose proof (part2_params (others (dn_verifier_id n) b) n) as Hp.
  destruct (part2 (others (dn_verifier_id n) b) n) as [n' [out|err]] eqn:Hp2; cbn in Hp;
    (assert (Hn' : at_position nodes k n') by by eapply at_position_step); [|done].
  destruct Hn as (n0 & Hk & Hpar). injection Hpar as Hid _ Hall _ _.
  assert (Hv : ids !! k = Some (dn_verifier_id n)) by (by rewrite list_lookup_fmap, Hk; cbn; rewrite Hid).
  destruct (transports_all ids keys W opn (dn_verifier_id n) (seal (dn_verifier_id n)) (map_to_list out) 0 u e)
    as (e' & He' & Ht'); [|done|].
  - intros j to pkg Hin%elem_of_map_to_list. apply Hseal; [done|].
    apply (cs_participants _ _ Hsetup n0); [by eapply list_elem_of_lookup_2|].
    rewrite <- Hall. apply (part2_addressees _ _ _ _ Hp2). by eexists.
  - unfold enumerate, slift. rewrite He'. done.
Qed.

Lemma round2_encrypted_same nonce b k u e kp n x :
  at_position nodes k n -> keys !! k = Some kp -> transports ids keys _ (open_from c epm) u e ->
  same_outcome (at_position nodes k) (transports ids keys _ (open_from c epm)) (round2_of b u x n)
    (round2_encrypted_of nonce c epm b e (k, kp) n).
Proof using Hsetup Hcipher Hepm.
  intros Hn Hkp Ht.
  apply (round2_step_same (open_from c epm) b k u e n kp
    (fun v => seal_for (fun v => "no encryption public key for recipient " +:+ VerifierId_to_string v)
                nonce c epm kp v k) x Hn Hkp); [|done].
  intros j v to pkg Hv Hto. by apply seal_carries.
Qed.

(** The third round, with any transport. *)
Lemma round3_step_same {W} (opn : DkgEncryptionKeyPair -> VerifierId -> gmap VerifierId DkgRound2Package ->
    VerifierId * W -> result (failure NodeError) (gmap VerifierId DkgRound2Package)) k u e outs n kp x :
  at_position nodes k n -> keys !! k = Some kp -> transports ids keys W opn u e ->
  same_outcome (at_position nodes k)
    (fun (a : _ * list (FrostAuxiliaryNode * FrostGroupKey)) b => transports ids keys W opn a.1 b.1 /\ a.2 = b.2)
    (round3_of (u, outs) x n)
    (sbind get (fun self =>
      sbind (slift (try_fold (opn kp (dn_verifier_id self)) ∅ (default [] (e !! dn_verifier_id self)))) (fun m =>
      sbind (part3 m) (fun out => sret (delete (dn_verifier_id self) e, outs ++ [out])))) n).
Proof.
  intros Hn Hkp Ht. unfold round3_of, sbind, get, slift.
  destruct Hn as (n0 & Hk & Hpar) eqn:Heq. pose proof Hpar as [= Hid _ _ _ _].
  rewrite (Ht k (dn_verifier_id n) kp); [|by rewrite list_lookup_fmap, Hk; cbn; rewrite Hid|done].
  pose proof (part3_params (default ∅ (u !! dn_verifier_id n)) n) as Hp.
  destruct (part3 _ n) as [n' [out|err]]; cbn in Hp; (split; [done|]); (split; [eapply at_position_step; [exact Hn|done]|]);
    cbn; [|done]. split; [by apply transports_delete | done].
Qed.
End Simulation.

Lemma lookup_enumerate {A} (l : list A) k x : enumerate l !! k = Some x -> exists a, x = (k, a) /\ l !! k = Some a.
Proof.
  unfold enumerate. rewrite lookup_zip_with_Some. intros (i & a & -> & [-> _]%lookup_seq & Ha). eauto.
Qed.

Lemma length_enumerate {A} (l : list A) : length (enumerate l) = length l.
Proof. unfold enumerate. rewrite length_zip, length_seq. lia. Qed.

Lemma require_keys_ok name n_keys (nodes : list FrostDkgNode) :
  n_keys = length nodes -> require_keys name n_keys nodes = (nodes, Ok tt).
Proof. intros ->. unfold require_keys. by rewrite Nat.eqb_refl. Qed.

Lemma ceremony_encrypted_same rngs nonce c nodes keys :
  ceremony_setup nodes keys -> cipher_accepts -> nodes <> [] ->
  run_dkg_ceremony_encrypted rngs nonce c keys nodes = run_dkg_ceremony rngs nodes.
Proof.
  intros Hsetup Hcipher Hne. symmetry. apply (same_outcome_eq (fun _ => True)).
  pose proof (cs_length _ _ Hsetup) as Hlen.
  pose proof (public_keys_of_holds nodes keys Hlen (cs_distinct _ _ Hsetup)) as Hepm.
  set (epm := public_keys_of nodes keys) in *.
  set (I := fun ns : list FrostDkgNode => length ns = length nodes /\ forall k n, ns !! k = Some n -> at_position nodes k n).
  assert (Hreq : forall msg, require_nodes msg nodes = (nodes, Ok tt)) by (intros; by destruct nodes).
  unfold run_dkg_ceremony, run_dkg_ceremony_encrypted.
  rewrite !(sbind_run _ _ _ _ _ (Hreq _)), (sbind_run _ _ _ _ _ (require_keys_ok _ _ _ Hlen)), !sbind_get.
  fold epm.
  apply (same_outcome_bind I _ eq).
  { by apply ceremony_round1_same, at_position_refl. }
  { done. }
  intros b ? ns <- [Hl Hns].
  apply (same_outcome_bind I _ (transports (dn_verifier_id <$> nodes) keys _ (open_from c epm))); [ |done|].
  { eapply same_outcome_weaken; [|apply (for_zip_mut_same (at_position nodes) (fun _ => transports _ _ _ _));
      [|rewrite length_seq; congruence|rewrite length_enumerate; congruence|done|exact Hns]].
    - intros ns' [Hl' Hns']. split; [congruence|done].
    - intros k u e x y n Ht _ (kp & -> & Hkp)%lookup_enumerate Hn. by apply round2_encrypted_same. }
  intros u e ns1 Ht [Hl1 Hns1].
  apply (same_outcome_bind I _ (fun (a : _ * list (FrostAuxiliaryNode * FrostGroupKey)) b =>
    transports (dn_verifier_id <$> nodes) keys _ (open_from c epm) a.1 b.1 /\ a.2 = b.2)); [ |done|].
  { eapply same_outcome_weaken; [|apply (for_zip_mut_same (at_position nodes) (fun _ (a : _ * list (FrostAuxiliaryNode * FrostGroupKey)) b =>
      transports (dn_verifier_id <$> nodes) keys _ (open_from c epm) a.1 b.1 /\ a.2 = b.2));
      [|rewrite length_seq; congruence|congruence| |exact Hns1]].
    - intros ns' [Hl' Hns']. split; [congruence|done].
    - intros k [u' o] [e' o'] x kp n [Ht' Ho] _ Hkp Hn. cbn in Ho. subst o'.
      by apply (round3_step_same nodes keys (open_from c epm)).
    - by split. }
  intros [u' o] [e' o'] ns2 [_ Ho] _. cbn in Ho. subst o'. by apply same_outcome_refl.
Qed.

(** C23. Encryption is transparent: among distinct nodes that know no further
    participants, with one generated key pair per node and a cipher that accepts
    the packages, the encrypted ceremony leaves every node in the state of the
    plain ceremony and returns the same signing nodes and group key, or the same
    error, whatever the random generators and nonces. *)
Theorem encrypted_ceremony_equiv rngs nonce c nodes keys :
  ceremony_setup nodes keys -> cipher_accepts -> nodes <> [] ->
  run_dkg_ceremony_encrypted rngs nonce c keys nodes = run_dkg_ceremony rngs nodes.
Proof. apply ceremony_encrypted_same. Qed.
End Encrypted.

(** ** Authentication and admission *)

Section Authenticated.
Context {Hs : Sha256} {Ed : Ed25519} {Fr : FrostEd25519} {Dk : FrostDkg} {X : X25519} {Ci : DkgCipher}.

Lemma check_own_key_Ok verified nodes keys :
  try_fold (check_own_key verified) tt (zip nodes keys) = Ok tt <->
  forall k n kp, nodes !! k = Some n -> keys !! k = Some kp -> verified !! dn_verifier_id n = Some (enc_public kp).
Proof.
  revert keys. induction nodes as [|n nodes IH]; intros [|kp keys]; cbn [zip zip_with try_fold];
    try (split; [intros _ k ? ?; by rewrite ?lookup_nil | done]).
  rewrite bind_Ok. split.
  - intros ([] & Hown & Hrest). pose proof (proj1 (IH keys) Hrest) as Hall. intros [|k] n' kp'; cbn; [|apply Hall].
    intros [= <-] [= <-]. unfold check_own_key in Hown. apply bind_Ok in Hown as (pub & Hpub%ok_or_Ok & Hcheck).
    rewrite Hpub. by case_bool_decide; [subst|].
  - intros Hall. exists tt. split.
    + unfold check_own_key. rewrite (Hall 0%nat n kp eq_refl eq_refl). cbn [ok_or mbind result_bind].
      by rewrite bool_decide_eq_true_2.
    + apply IH. intros k. apply (Hall (Datatypes.S k)).
Qed.

(** Every node's encryption key was signed for ceremony [c] by the holder of the
    key that [reg] has for it. *)
Definition all_announced (reg : DkgParticipantRegistry) (anns : list SignedDkgKeyAnnouncement) (c : DkgCeremonyId)
    (nodes : list FrostDkgNode) (keys : list DkgEncryptionKeyPair) : Prop :=
  forall k n kp, nodes !! k = Some n -> keys !! k = Some kp ->
    exists ann, ann ∈ anns /\ announced reg ann c (dn_verifier_id n) (enc_public kp).

Lemma authenticated_gate rngs nonce c keys anns reg nodes nodes' r :
  run_dkg_ceremony_with_authenticated_keys rngs nonce c keys anns reg nodes = (nodes', r) ->
  (nodes' = nodes /\ is_ok r = false) \/
  (length keys = length nodes /\ all_announced reg anns c nodes keys /\
   run_dkg_ceremony_encrypted rngs nonce c keys nodes = (nodes', r)).
Proof.
  unfold run_dkg_ceremony_with_authenticated_keys, sbind, get, slift, require_nodes.
  destruct nodes as [|n0 nodes0]; [intros [= <- <-]; by left|]. set (nodes := n0 :: nodes0).
  unfold require_keys. destruct (Nat.eqb_spec (length keys) (length nodes)) as [Hlen|]; cbn [negb];
    [|intros [= <- <-]; by left].
  destruct (collect_verified_enc_keys _ _ _ _) as [verified|] eqn:Hcol; cbn [announcement_err map_err];
    [|intros [= <- <-]; by left].
  destruct (try_fold _ _ _) as [[]|] eqn:Hown; [|intros [= <- <-]; by left]. intros Hrun. right.
  split_and!; [done| |done]. apply collect_verified_Ok in Hcol as (_ & _ & Hiff).
  intros k n kp Hn Hkp. apply Hiff. by eapply (proj1 (check_own_key_Ok _ _ _) Hown).
Qed.

(** A successful or started ceremony never panics on the keys it verified. *)
Lemma check_own_key_no_panic reg anns c nodes keys verified msg :
  collect_verified_enc_keys reg anns c (dn_verifier_id <$> nodes) = Ok verified ->
  try_fold (check_own_key verified) tt (zip nodes keys) <> Err (Panics msg).
Proof.
  intros (Hdom & _ & _)%collect_verified_Ok.
  assert (Hin : forall p, p ∈ zip nodes keys -> is_Some (verified !! dn_verifier_id p.1)).
  { intros [n kp] Hp. apply Hdom, list_elem_of_fmap_2. by apply elem_of_zip_l in Hp. }
  induction (zip nodes keys) as [|[n kp] l IH]; cbn [try_fold]; [done|].
  assert (check_own_key verified tt (n, kp) = Ok tt \/ exists e, check_own_key verified tt (n, kp) = Err (Fails e))
    as [-> | [e ->]]; [|cbn; apply IH; intros p Hp; apply Hin; by constructor|done].
  destruct (Hin (n, kp)) as [pub Hpub]; [by constructor|]. cbn [fst] in Hpub. unfold check_own_key. rewrite Hpub.
  cbn [ok_or mbind result_bind]. case_bool_decide; cbn; eauto.
Qed.

(** Only admitted and authenticated ceremonies start: whatever
    [run_dkg_ceremony_with_registry] returns, either it is an error and no node
    was touched, or the registry is at the expected epoch, every participant is
    registered and active, its encryption key was announced for this ceremony
    with a signature of its registered key, and the outcome is that of the
    encrypted ceremony; under the conditions of the latter's equivalence it is
    the outcome of the plain ceremony. *)
Theorem registry_ceremony_gate rngs nonce c keys anns r epoch nodes nodes' res :
  registry_wf r ->
  run_dkg_ceremony_with_registry rngs nonce c keys anns r epoch nodes = (nodes', res) ->
  (nodes' = nodes /\ is_ok res = false) \/
  (epoch = reg_epoch r /\
   (forall k n kp, nodes !! k = Some n -> keys !! k = Some kp ->
      exists p ann sig, participants r !! dn_verifier_id n = Some p /\ status p = PActive /\ ann ∈ anns /\
        ann_payload ann = MkDkgKeyAnnouncementPayload ANNOUNCEMENT_VERSION (as_bytes (dn_verifier_id n)) (as_bytes c)
                            (DkgEncryptionPublicKey_0 (enc_public kp)) /\
        ann_signature ann = arr sig /\
        ed_verify (rp_signing_key p) (arr (payload_preimage (ann_payload ann))) sig = true) /\
   run_dkg_ceremony_encrypted rngs nonce c keys nodes = (nodes', res) /\
   (ceremony_setup nodes keys -> cipher_accepts -> nodes <> [] -> run_dkg_ceremony rngs nodes = (nodes', res))).
Proof.
  intros Hwf. unfold run_dkg_ceremony_with_registry, sbind, get, slift.
  destruct (check_ceremony_admission _ _ _) as [[]|] eqn:Hadm; cbn [map_err]; [|intros [= <- <-]; by left].
  intros [?|(_ & Hann & Hrun)]%authenticated_gate; [by left|right].
  apply admission_Ok in Hadm as [-> _]. split_and!; [done| |done|].
  - intros k n kp Hn Hkp. destruct (Hann k n kp Hn Hkp) as (ann & Hin & Hpl & vk & sig & Hvk & Hsig & Hver).
    apply to_dkg_registry_lookup in Hvk as (p & [Hp Hact]%get_active_Ok & <-); [|done].
    exists p, ann, sig. done.
  - intros Hsetup Hcipher Hne. by rewrite <- (ceremony_encrypted_same rngs nonce c nodes keys Hsetup Hcipher Hne).
Qed.

(** *** The networked ceremony *)

Context {Jk : SerdeJson DkgEncryptionPublicKey} {Jp : SerdeJson EncryptedDkgRound2Package}.

(** Every node completes part 3 from the delivery addressed to it. *)
Definition deliver_to (msgs : DkgNetworkMessages) (epm : gmap VerifierId DkgEncryptionPublicKey) (c : DkgCeremonyId)
    (outs : list (FrostAuxiliaryNode * FrostGroupKey)) (kp : DkgEncryptionKeyPair)
    : stres FrostDkgNode (failure NodeError) (list (FrostAuxiliaryNode * FrostGroupKey)) :=
  sbind get (fun self =>
  sbind (dkg_part3_from_delivery kp
    (default {| dr2_ceremony_id := arr (as_bytes c); dr2_recipient_id := dn_verifier_id self;
                dr2_encrypted_packages := [] |} (dnm_round2_deliveries msgs !! dn_verifier_id self)) epm c)
  (fun out => sret (outs ++ [out]))).

Definition networked_ceremony rngs nonce c keys anns reg epm
    : stres (list FrostDkgNode) (failure NodeError) (list FrostAuxiliaryNode * FrostGroupKey) :=
  sbind (build_dkg_network_messages rngs nonce c keys anns reg) (fun msgs =>
  sbind (for_zip_mut (deliver_to msgs epm c) keys []) (fun outs => slift (finish outs))).

(** JSON serialization of the two message types does not fail. *)
Definition messages_serialize : Prop :=
  (forall pk : DkgEncryptionPublicKey, is_ok (json_to_vec pk) = true) /\
  (forall p : EncryptedDkgRound2Package, is_ok (json_to_vec p) = true).

Lemma json_Ok `{J : SerdeJson T} (x : T) :
  is_ok (json_to_vec x) = true -> exists b, json_to_vec x = Ok b /\ json_from_slice b = Ok x.
Proof. destruct (json_to_vec x) as [b|] eqn:He; [|done]. intros _. exists b. split; [done | by apply Prelude.json_roundtrip]. Qed.

Lemma seal_bytes_carries nodes keys c verified epm msg nonce i v kp j to pkg :
  ceremony_setup nodes keys -> cipher_accepts -> messages_serialize ->
  holds_keys nodes keys verified -> holds_keys nodes keys epm ->
  (dn_verifier_id <$> nodes) !! i = Some v -> keys !! i = Some kp -> to ∈ dn_verifier_id <$> nodes ->
  exists w, (enc_pkg ← seal_for msg nonce c verified kp v i (j, (to, pkg));
             map_err (fun e => dkg_err ("enc pkg serialize: " +:+ e)) (json_to_vec enc_pkg)) = Ok w /\
    carries (dn_verifier_id <$> nodes) keys _ (open_delivered c epm) v to w pkg.
Proof.
  intros Hsetup Hcipher [_ Hser] Hver Hepm Hi Hkp Hto.
  destruct (seal_carries nodes keys c Hsetup Hcipher verified Hver msg nonce i v kp j to pkg Hi Hkp Hto)
    as (w & -> & Hw). cbn [mbind result_bind].
  destruct (json_Ok w (Hser w)) as (b & -> & Hb). exists b. split; [done|].
  intros k kp' acc Hk Hkp'. specialize (Hw k kp' acc Hk Hkp'). unfold open_delivered. rewrite Hb.
  cbn [map_err mbind result_bind]. unfold open_from in Hw.
  by rewrite (Hver i v kp Hi Hkp) in Hw; rewrite (Hepm i v kp Hi Hkp).
Qed.

Lemma round1_response_same nodes rngs c k b a n :
  b = a.2 -> at_position nodes k n ->
  same_outcome (at_position nodes k) (fun b (a : list DkgRound1Response * _) => b = a.2)
    (round1_of rngs b k n) (round1_response_of rngs c a k n).
Proof.
  intros -> Hn. destruct a as [rs b]. unfold round1_of, round1_response_of, sbind, get, sret. cbn [snd].
  pose proof (part1_params (rngs k) n) as Hp. destruct (part1 (rngs k) n) as [n' [p|e]]; cbn in Hp;
    split_and!; try done; by eapply at_position_step.
Qed.

Lemma round2_delivery_same nodes keys nonce c verified epm b k u d kp n x :
  ceremony_setup nodes keys -> cipher_accepts -> messages_serialize ->
  holds_keys nodes keys verified -> holds_keys nodes keys epm ->
  at_position nodes k n -> keys !! k = Some kp ->
  transports (dn_verifier_id <$> nodes) keys _ (open_delivered c epm) u d ->
  same_outcome (at_position nodes k) (transports (dn_verifier_id <$> nodes) keys _ (open_delivered c epm))
    (round2_of b u x n) (round2_delivery_of nonce c verified b d (k, kp) n).
Proof.
  intros Hsetup Hcipher Hser Hver Hepm Hn Hkp Ht.
  pose proof (round2_step_same nodes keys Hsetup (open_delivered c epm) b k u d n kp
    (fun v entry => enc_pkg ← seal_for (fun v => "no enc public key for " +:+ VerifierId_to_string v)
                      nonce c verified kp v k entry;
       map_err (fun e => dkg_err ("enc pkg serialize: " +:+ e)) (json_to_vec enc_pkg)) x Hn Hkp) as Hsame.
  unfold round2_delivery_of. unfold sbind, slift in *. cbn [get] in *.
  destruct (part2 _ n) as [n' [out|err]]; [|by apply Hsame; [intros; by eapply seal_bytes_carries|]].
  erewrite try_fold_ext; [apply Hsame; [intros; by eapply seal_bytes_carries|done]|].
  intros e entry. cbn. by destruct (seal_for _ _ _ _ _ _ _ entry).
Qed.
(** Part 3 from a delivery, against part 3 of the plain ceremony: the deliveries
    stay while the plain ceremony removes what it has handed out. *)
Lemma deliver_to_same nodes keys c epm msgs u0 d k u outs kp n x :
  NoDup (dn_verifier_id <$> nodes) ->
  transports (dn_verifier_id <$> nodes) keys _ (open_delivered c epm) u0 d ->
  (forall v, default [] (dr2_encrypted_packages <$> dnm_round2_deliveries msgs !! v) = default [] (d !! v)) ->
  (forall j v, (k <= j)%nat -> (dn_verifier_id <$> nodes) !! j = Some v -> u !! v = u0 !! v) ->
  at_position nodes k n -> keys !! k = Some kp ->
  same_outcome (at_position nodes k)
    (fun (a : gmap VerifierId (gmap VerifierId DkgRound2Package) * _) outs' => a.2 = outs' /\
       forall j v, (S k <= j)%nat -> (dn_verifier_id <$> nodes) !! j = Some v -> a.1 !! v = u0 !! v)
    (round3_of (u, outs) x n) (deliver_to msgs epm c outs kp n).
Proof.
  intros Hnd Ht Hmsgs Hu Hn Hkp. unfold deliver_to, dkg_part3_from_delivery, round3_of, sbind, get, slift.
  pose proof Hn as (n0 & Hk & Hpar). injection Hpar as Hid _ _ _ _.
  assert (Hv : (dn_verifier_id <$> nodes) !! k = Some (dn_verifier_id n)) by (by rewrite list_lookup_fmap, Hk; cbn; rewrite Hid).
  specialize (Hmsgs (dn_verifier_id n)). specialize (Ht k (dn_verifier_id n) kp Hv Hkp).
  replace (dr2_encrypted_packages _) with (default [] (d !! dn_verifier_id n))
    by (rewrite <- Hmsgs; by destruct (dnm_round2_deliveries msgs !! dn_verifier_id n)).
  rewrite Ht, (Hu k _ (le_n _) Hv).
  pose proof (part3_params (default ∅ (u0 !! dn_verifier_id n)) n) as Hp.
  destruct (part3 _ n) as [n' [out|err]]; cbn in Hp; (split; [done|]); (split; [by eapply at_position_step|]); cbn; [|done].
  split; [done|]. intros j v Hj Hjv. rewrite lookup_delete_ne; [apply (Hu j v); [lia|done]|].
  intros <-. assert (j = k) by (by eapply NoDup_lookup). lia.
Qed.

(** The messages of a ceremony whose checks pass are those of the two loops. *)
Lemma networked_ceremony_run rngs nonce c keys anns reg epm nodes verified :
  length keys = length nodes -> nodes <> [] -> messages_serialize ->
  collect_verified_enc_keys reg anns c (dn_verifier_id <$> nodes) = Ok verified ->
  exists ann, networked_ceremony rngs nonce c keys anns reg epm nodes =
    sbind (for_zip_mut (round1_response_of rngs c) (seq 0 (length nodes)) ([], ∅)) (fun r1 =>
    sbind (for_zip_mut (round2_delivery_of nonce c verified r1.2) (enumerate keys) ∅) (fun d =>
    sbind (for_zip_mut (deliver_to (MkDkgNetworkMessages ann r1.1 (map_imap (fun recipient_id pkgs =>
             Some (MkDkgRound2Delivery (arr (as_bytes c)) recipient_id pkgs)) d)) epm c) keys []) (fun outs =>
    slift (finish outs)))) nodes.
Proof.
  intros Hlen Hne [Hser _] Hcol. unfold networked_ceremony, build_dkg_network_messages.
  destruct (collect_verified_Ok _ _ _ _ _ Hcol) as (Hdom & _ & _).
  assert (exists bs, try_map (fun v => pk ← ok_or (Panics "verified above") (verified !! v);
      map_err (fun e => dkg_err ("enc key serialize: " +:+ e)) (json_to_vec pk)) (dn_verifier_id <$> nodes) = Ok bs) as [bs Hbs].
  { assert (Hall : forall v, v ∈ dn_verifier_id <$> nodes -> is_Some (verified !! v)) by (intros; by apply Hdom).
    clear -Hall Hser. induction (dn_verifier_id <$> nodes) as [|v vs IH]; [by eexists|].
    cbn [try_map]. destruct (Hall v) as [pk ->]; [by constructor|]. cbn [ok_or mbind result_bind].
    destruct (json_Ok pk (Hser pk)) as (b & -> & _). cbn [map_err].
    destruct IH as [bs ->]; [|by eexists]. intros w Hw. apply Hall. by constructor. }
  destruct nodes as [|n0 nodes0]; [done|].
  eexists. unfold sbind, get, slift. rewrite (require_keys_ok _ _ _ Hlen), Hcol.
  cbn [announcement_err map_err]. rewrite Hbs. cbn [head ok_or].
  destruct (for_zip_mut (round1_response_of _ _) _ _ _) as [ns1 [[rs b]|]]; [|done]. cbn [fst snd].
  destruct (for_zip_mut (round2_delivery_of _ _ _ _) _ _ _) as [ns2 [d|]]; done.
Qed.

Lemma networked_same rngs nonce c keys anns reg epm nodes verified :
  ceremony_setup nodes keys -> cipher_accepts -> messages_serialize -> nodes <> [] ->
  collect_verified_enc_keys reg anns c (dn_verifier_id <$> nodes) = Ok verified ->
  holds_keys nodes keys verified -> holds_keys nodes keys epm ->
  networked_ceremony rngs nonce c keys anns reg epm nodes = run_dkg_ceremony rngs nodes.
Proof.
  intros Hsetup Hcipher Hser Hne Hcol Hver Hepm. pose proof (cs_length _ _ Hsetup) as Hlen.
  destruct (networked_ceremony_run rngs nonce c keys anns reg epm nodes verified Hlen Hne Hser Hcol) as [ann ->].
  symmetry. apply (same_outcome_eq (fun _ => True)).
  assert (Hreq : forall msg, require_nodes msg nodes = (nodes, Ok tt)) by (intros; by destruct nodes).
  unfold run_dkg_ceremony, ceremony_round1. rewrite (sbind_run _ _ _ _ _ (Hreq _)), sbind_get.
  set (I := fun ns : list FrostDkgNode => length ns = length nodes /\ forall k n, ns !! k = Some n -> at_position nodes k n).
  apply (same_outcome_bind I _ (fun b (a : list DkgRound1Response * _) => b = a.2)); [ |done|].
  { rewrite sbind_get. apply (for_zip_mut_same (at_position nodes) (fun _ b (a : list DkgRound1Response * _) => b = a.2));
      [|by rewrite length_seq..|done|apply at_position_refl].
    intros k b a x y n Hab Hx Hy Hn. rewrite Hx in Hy. injection Hy as <-. apply lookup_seq in Hx as [-> _].
    by apply round1_response_same. }
  intros b [rs ?] ns <- [Hl Hns]. cbn [fst snd].
  apply (same_outcome_bind I _ (transports (dn_verifier_id <$> nodes) keys _ (open_delivered c epm))); [ |done|].
  { eapply same_outcome_weaken; [|apply (for_zip_mut_same (at_position nodes) (fun _ => transports _ _ _ _));
      [|rewrite length_seq; congruence|rewrite length_enumerate; congruence|done|exact Hns]].
    - intros ns' [Hl' Hns']. split; [congruence|done].
    - intros k u d x y n Ht _ (kp & -> & Hkp)%lookup_enumerate Hn. by eapply round2_delivery_same. }
  intros u d ns1 Ht [Hl1 Hns1].
  apply (same_outcome_bind I _ (fun (a : gmap VerifierId (gmap VerifierId DkgRound2Package) * _) outs => a.2 = outs));
    [ |done|].
  { eapply same_outcome_weaken2; [| |apply (for_zip_mut_same (at_position nodes)
      (fun k (a : gmap VerifierId (gmap VerifierId DkgRound2Package) * _) outs => a.2 = outs /\
        forall j v, (k <= j)%nat -> (dn_verifier_id <$> nodes) !! j = Some v -> a.1 !! v = u !! v));
      [|rewrite length_seq; congruence|congruence|done|exact Hns1]].
    - intros ns' [Hl' Hns']. split; [congruence|done].
    - by intros a outs [? _].
    - intros k [u' o] outs x kp n [Ho Hu] _ Hkp Hn. cbn in Ho, Hu. subst outs.
      eapply deliver_to_same; [apply (cs_distinct _ _ Hsetup)|exact Ht| |exact Hu|done|done].
      intros v. cbn [dnm_round2_deliveries]. rewrite map_lookup_imap. by destruct (d !! v). }
  intros [u' o] outs ns2 Ho _. cbn in Ho. subst outs. by apply same_outcome_refl.
Qed.

(** The ceremony over network messages is the plain ceremony: building the
    messages and then completing part 3 at every node from the delivery
    addressed to it leaves the nodes in the states of the in-process ceremony,
    with the same result or error, when the announced keys are those the nodes
    hold and the messages serialize. *)
Theorem networked_ceremony_equiv rngs nonce c keys anns reg epm nodes verified :
  ceremony_setup nodes keys -> cipher_accepts -> messages_serialize -> nodes <> [] ->
  collect_verified_enc_keys reg anns c (dn_verifier_id <$> nodes) = Ok verified ->
  holds_keys nodes keys verified -> holds_keys nodes keys epm ->
  networked_ceremony rngs nonce c keys anns reg epm nodes = run_dkg_ceremony rngs nodes.
Proof. apply networked_same. Qed.

(** The message builder indexes the first node without a check: called with no
    nodes and no keys it panics, where the other ceremonies return an error. *)
Lemma build_messages_empty_panics rngs nonce c reg :
  build_dkg_network_messages rngs nonce c [] [] reg [] = ([], Err (Panics "index out of bounds")) /\
  run_dkg_ceremony_with_authenticated_keys rngs nonce c [] [] reg []
    = ([], Err (dkg_err "run_dkg_ceremony_with_authenticated_keys requires at least one node")).
Proof. done. Qed.
End Authenticated.


(** ** Concrete instances *)

Definition toy_enc_keys : list (DkgEncryptionKeyPair (X:=toy_x25519)) := toy_enc_key <$> [1; 2; 3].
Definition toy_nonces (i j : nat) : array 24 := array_repeat 24 (byte (Z.of_nat (i + j))).

Lemma toy_setup : ceremony_setup (Dk:=toy_dkg) (X:=toy_x25519) toy_nodes toy_enc_keys.
Proof.
  split.
  - reflexivity.
  - apply (bool_decide_unpack _). vm_compute. exact I.
  - intros n v (z & -> & Hz)%list_elem_of_fmap. rewrite (proj1 (toy_node_in z Hz)).
    replace (dn_verifier_id <$> toy_nodes) with toy_ids by (vm_compute; reflexivity). exact id.
  - repeat constructor.
Qed.

Lemma toy_cipher_accepts : cipher_accepts (Dk:=toy_dkg) (Ci:=toy_cipher).
Proof. done. Qed.

Lemma encrypted_ceremony_equiv_witness :
  run_dkg_ceremony_encrypted (Ed:=toy_ed25519) (Dk:=toy_dkg) (X:=toy_x25519) (Ci:=toy_cipher) toy_rngs toy_nonces
    toy_ceremony toy_enc_keys toy_nodes
  = run_dkg_ceremony (Ed:=toy_ed25519) (Dk:=toy_dkg) toy_rngs toy_nodes.
Proof.
  apply (encrypted_ceremony_equiv (Ed:=toy_ed25519) (Dk:=toy_dkg) (X:=toy_x25519) (Ci:=toy_cipher)).
  - exact toy_setup.
  - exact toy_cipher_accepts.
  - discriminate.
Defined.

(** The registry of verifiers 1 to 3 admits the ceremony, which then runs. *)
Definition toy_gated := run_dkg_ceremony_with_registry (Hs:=toy_sha256) (Ed:=toy_ed25519) (Dk:=toy_dkg) (X:=toy_x25519)
    (Ci:=toy_cipher) toy_rngs toy_nonces toy_ceremony toy_enc_keys (toy_announcements [1; 2; 3]) toy_registry
    RegistryEpoch_GENESIS toy_nodes.
Lemma registry_ceremony_gate_witness :
  is_ok toy_gated.2 = true /\
  run_dkg_ceremony_encrypted (Ed:=toy_ed25519) (Dk:=toy_dkg) (X:=toy_x25519) (Ci:=toy_cipher) toy_rngs toy_nonces
    toy_ceremony toy_enc_keys toy_nodes = toy_gated.
Proof.
  assert (Hok : is_ok toy_gated.2 = true) by (vm_compute; reflexivity). split; [exact Hok|].
  destruct (registry_ceremony_gate (Hs:=toy_sha256) (Ed:=toy_ed25519) (Dk:=toy_dkg) (X:=toy_x25519) (Ci:=toy_cipher)
    toy_rngs toy_nonces toy_ceremony toy_enc_keys (toy_announcements [1; 2; 3]) toy_registry RegistryEpoch_GENESIS
    toy_nodes toy_gated.1 toy_gated.2 toy_registry_wf) as [[_ Hno]|(_ & _ & Hrun & _)].
  - apply surjective_pairing.
  - rewrite Hok in Hno. discriminate Hno.
  - rewrite Hrun. symmetry. apply surjective_pairing.
Defined.

#[local] Instance toy_key_countable : Countable DkgEncryptionPublicKey :=
  inj_countable' DkgEncryptionPublicKey_0 MkDkgEncryptionPublicKey (fun '(MkDkgEncryptionPublicKey _) => eq_refl).
#[local] Instance EncryptedDkgRound2Package_eq_dec : EqDecision EncryptedDkgRound2Package.
Proof. solve_decision. Defined.
#[local] Program Instance toy_package_countable : Countable EncryptedDkgRound2Package :=
  inj_countable' (fun p => (enc_version p, enc_ceremony_id p, enc_sender_id p, enc_recipient_id p, enc_nonce p, ciphertext p))
    (fun '(a, b, c, d, e, f) => MkEncryptedDkgRound2Package a b c d e f) _.
Next Obligation. by intros []. Qed.

Definition toy_json {A} `{Countable A} : SerdeJson A.
Proof.
  refine {| json_to_vec x := Ok (toy_to_vec x); json_from_slice := toy_from_slice |}.
  intros v b [= <-]. apply toy_serialize_roundtrip.
Defined.

Definition toy_verified : gmap VerifierId DkgEncryptionPublicKey :=
  unwrap_or ∅ (collect_verified_enc_keys (Hs:=toy_sha256) (Ed:=toy_ed25519) toy_dkg_registry
    (toy_announcements [1; 2; 3]) toy_ceremony (dn_verifier_id <$> toy_nodes)).

Lemma toy_holds_keys : holds_keys (Dk:=toy_dkg) (X:=toy_x25519) toy_nodes toy_enc_keys toy_verified.
Proof.
  intros k v kp Hv Hkp. assert (Hk : (k < 3)%nat) by (apply lookup_lt_Some in Hkp; exact Hkp).
  assert (HF : Forall (fun k => (v ← (dn_verifier_id <$> toy_nodes) !! k; toy_verified !! v)
                              = enc_public (X:=toy_x25519) <$> toy_enc_keys !! k) [0; 1; 2]%nat)
    by (apply (bool_decide_unpack _); vm_compute; exact I).
  rewrite Forall_forall in HF. specialize (HF k). rewrite Hv, Hkp in HF. apply HF.
  destruct k as [|[|[|k]]]; [by repeat constructor..|lia].
Qed.

Lemma networked_ceremony_equiv_witness :
  networked_ceremony (Hs:=toy_sha256) (Ed:=toy_ed25519) (Dk:=toy_dkg) (X:=toy_x25519) (Ci:=toy_cipher)
    (Jk:=toy_json) (Jp:=toy_json) toy_rngs toy_nonces toy_ceremony toy_enc_keys (toy_announcements [1; 2; 3])
    toy_dkg_registry toy_verified toy_nodes
  = run_dkg_ceremony (Ed:=toy_ed25519) (Dk:=toy_dkg) toy_rngs toy_nodes.
Proof.
  apply (networked_ceremony_equiv (Hs:=toy_sha256) (Ed:=toy_ed25519) (Dk:=toy_dkg) (X:=toy_x25519) (Ci:=toy_cipher)
    (Jk:=toy_json) (Jp:=toy_json) toy_rngs toy_nonces toy_ceremony toy_enc_keys (toy_announcements [1; 2; 3])
    toy_dkg_registry toy_verified toy_nodes toy_verified).
  - exact toy_setup.
  - exact toy_cipher_accepts.
  - split; intros; reflexivity.
  - discriminate.
  - apply is_ok_unwrap. vm_compute. reflexivity.
  - exact toy_holds_keys.
  - exact toy_holds_keys.
Defined.
