(* ===== verification/DkgHonest.v ===== *)
(** * Completion of honest key generation

    The plain ceremony of [DkgNode] among nodes created with one participant
    list completes: every part succeeds at every node, every node ends up
    complete, and all derive the group key determined by the round-1 packages. *)

From S2P Require Import Prelude Core Session Storage Attestation Threshold Registry Dctls Network Errors.
From S2P Require Import Sha256Gadget HmacGadget CoSnark Frost FrostAux Dkg DkgNode DkgCeremony.

(** A loop over the nodes in which every iteration succeeds; [P k] holds of the
    accumulator before iteration [k]. *)
Lemma for_zip_mut_ok {N X A E} (Q : nat -> N -> N -> Prop) (P : nat -> A -> Prop) (f : A -> X -> stres N E A) xs a ns :
  (forall k a x n, P k a -> xs !! k = Some x -> ns !! k = Some n ->
     exists n' a', f a x n = (n', Ok a') /\ Q k n n' /\ P (S k) a') ->
  length xs = length ns -> P 0%nat a ->
  exists ns' a', for_zip_mut f xs a ns = (ns', Ok a') /\ length ns' = length ns /\
    (forall k n n', ns !! k = Some n -> ns' !! k = Some n' -> Q k n n') /\ P (length ns) a'.
Proof.
  revert Q P xs a. induction ns as [|n ns IH]; intros Q P xs a Hstep Hlen H0.
  - exists [], a. destruct xs; [|done]. by split_and!.
  - destruct xs as [|x xs]; [done|]. cbn [for_zip_mut].
    destruct (Hstep 0%nat a x n H0 eq_refl eq_refl) as (n' & a' & -> & HQ & HP).
    destruct (IH (fun k => Q (S k)) (fun k => P (S k)) xs a') as (ns' & b & -> & Hl & HQs & HPs).
    + intros k b y m HPk Hy Hm. by apply (Hstep (S k)).
    + cbn in Hlen. lia.
    + done.
    + exists (n' :: ns'), b. split_and!; [done|cbn; lia| |done].
      intros [|k] m m'; cbn; [by intros [= <-] [= <-] | apply HQs].
Qed.

(** A list of witnesses for the first [n] naturals. *)
Lemma collect_witnesses {A} (Phi : nat -> A -> Prop) n :
  (forall k, (k < n)%nat -> exists x, Phi k x) ->
  exists l, length l = n /\ forall k x, l !! k = Some x -> Phi k x.
Proof.
  induction n as [|n IH]; intros Hex; [by exists []|].
  destruct IH as (l & Hl & Hall); [intros; apply Hex; lia|]. destruct (Hex n) as [x Hx]; [lia|].
  exists (l ++ [x]). split; [rewrite length_app; cbn; lia|].
  intros k y Hk. apply lookup_snoc_Some in Hk as [[Hlt Hk]|[-> <-]]; [by apply Hall | by rewrite Hl].
Qed.

Section Honest.
Context {Hs : Sha256} {Ed : Ed25519} {Fr : FrostEd25519} {Dk : FrostDkg} {X : X25519} {Ci : DkgCipher}.

(** What the deliveries of one node add to the packages of each recipient. *)
Lemma deliver_all_lookup from (out : gmap VerifierId DkgRound2Package)
    (u : gmap VerifierId (gmap VerifierId DkgRound2Package)) to :
  default ∅ (foldl (deliver from) u (map_to_list out) !! to) =
  match out !! to with
  | Some pkg => <[from := pkg]> (default ∅ (u !! to))
  | None => default ∅ (u !! to)
  end.
Proof.
  assert (Hnot : forall l u, to ∉ l.*1 -> foldl (deliver from) u l !! to = u !! to).
  { clear. induction l as [|[v p] l IH]; intros u; csimpl; [done|]. rewrite not_elem_of_cons. intros [Hv Hl].
    rewrite IH by done. unfold deliver. cbn [fst snd]. by rewrite lookup_insert_ne. }
  pose proof (NoDup_fst_map_to_list out) as Hnd. destruct (out !! to) as [pkg|] eqn:Hto.
  - apply elem_of_map_to_list, list_elem_of_split in Hto as (l1 & l2 & Heq). rewrite Heq in Hnd |- *.
    rewrite fmap_app, fmap_cons in Hnd. apply NoDup_app in Hnd as (_ & Hd & Hnd).
    apply NoDup_cons in Hnd as [Hn2 _]. rewrite foldl_app. cbn [foldl]. rewrite Hnot by done.
    unfold deliver at 1. cbn [fst snd]. rewrite lookup_insert_eq. cbn [default].
    rewrite Hnot; [done|]. intros Hin. by apply (Hd _ Hin); constructor.
  - rewrite Hnot; [done|]. intros ([v p] & -> & Hin%elem_of_map_to_list)%list_elem_of_fmap. cbn in Hto. by rewrite Hto in Hin.
Qed.

Lemma assign_identifiers_Ok ids m idx :
  NoDup ids -> Z.of_nat (idx + length ids) <= 65535 ->
  exists m', assign_identifiers idx ids m = Ok m' /\
    (forall k v id, ids !! k = Some v -> identifier_at (idx + k) = Ok id -> m' !! v = Some id) /\
    (forall v, v ∉ ids -> m' !! v = m !! v).
Proof.
  revert idx m. induction ids as [|v ids IH]; intros idx m Hnd Hlen; [by exists m|].
  apply NoDup_cons in Hnd as [Hv Hnd]. cbn [length] in Hlen. cbn [assign_identifiers].
  destruct (identifier_at_ok idx) as [id Hid]; [lia|]. rewrite Hid. cbn [map_err mbind result_bind].
  destruct (IH (S idx) (<[v:=id]> m) Hnd) as (m' & -> & Hm & Hother); [lia|]. exists m'. split_and!; [done| |].
  - intros [|k] w id'; cbn.
    + intros [= <-]. rewrite Nat.add_0_r, Hid. intros [= <-]. rewrite Hother by done. apply lookup_insert_eq.
    + intros Hk Hid'. apply (Hm k); [done|]. by rewrite Nat.add_succ_comm.
  - intros w [Hwv Hw]%not_elem_of_cons. rewrite Hother by done. by rewrite lookup_insert_ne.
Qed.

Lemma finish_consistent (outs : list (FrostAuxiliaryNode * FrostGroupKey)) gk :
  outs <> [] -> Forall (fun o => o.2 = gk) outs -> finish outs = Ok (outs.*1, gk).
Proof.
  intros Hne Hall. unfold finish. destruct outs as [|[a g] outs]; [done|]. csimpl.
  apply Forall_cons in Hall as [Hg Hall]. cbn in Hg. subst g.
  assert (Hloop : forall l : list (nat * FrostGroupKey), Forall (fun p => p.2 = gk) l ->
    try_fold (fun (_ : unit) '(i, g) =>
      if negb (bool_decide (verifying_key_bytes g = verifying_key_bytes gk)) then
        Err (dkg_err ("group key mismatch: node 0 and node " +:+ pretty (Z.of_nat i + 1) +:+
               " derived different group verifying keys — possible inconsistent Round-1 broadcast"))
      else Ok tt) tt l = Ok tt).
  { induction 1 as [|[i g] l Hg _ IH]; cbn [try_fold]; [done|]. cbn in Hg. subst g.
    rewrite bool_decide_eq_true_2 by done. done. }
  rewrite Hloop; [done|]. apply Forall_forall. intros [i g] Hin. unfold enumerate in Hin.
  apply elem_of_zip_r in Hin. apply list_elem_of_fmap in Hin as (o & -> & Ho).
  rewrite Forall_forall in Hall. by apply Hall.
Qed.

Variables (ids : list VerifierId) (min : u16) (rngs : nat -> Frost.Rng) (nodes : list FrostDkgNode).
Hypotheses (Hnodes : Forall2 (fun v n => FrostDkgNode_new v ids min = Ok n) ids nodes)
  (Hlen : Z.of_nat (length ids) <= 65535) (Hne : ids <> []).

Local Notation max := (u_of_Z 16 (Z.of_nat (length ids))).

Lemma node_at k n :
  nodes !! k = Some n ->
  exists v id, ids !! k = Some v /\ identifier_at k = Ok id /\ dkg_node_wf n /\
    dn_state n = Initial /\ dkg_params n = (v, id, ids, max, min).
Proof using Hnodes Hlen.
  intros Hn. destruct (Forall2_lookup_r _ _ _ _ _ Hnodes Hn) as (v & Hv & Hnew).
  apply node_new_Ok in Hnew as (Hwf & <- & Hids & Hmin & Hst).
  pose proof Hwf as (Hnd & _ & Hmax & j & Hj & Hidj). rewrite Hids in *.
  assert (j = k) as -> by (by eapply NoDup_lookup).
  exists (dn_verifier_id n), (dn_identifier n). split_and!; try done. unfold dkg_params. by rewrite Hids, Hmax, Hmin.
Qed.

Lemma nodes_length : length nodes = length ids.
Proof using Hnodes. symmetry. by eapply Forall2_length. Qed.

(** One of the nodes, for the facts that hold of all of them. *)
Lemma ids_valid : NoDup ids /\ 2 <= uval min <= Z.of_nat (length ids).
Proof using Hnodes Hlen Hne.
  pose proof nodes_length as Hl. destruct (nodes !! 0%nat) as [n|] eqn:Hn.
  - destruct (node_at 0 n Hn) as (v & id & _ & _ & (Hnd & Hmin & _) & _ & [= _ _ Hids _ Hm]).
    by rewrite Hids, Hm in *.
  - apply lookup_ge_None in Hn. destruct (nil_or_length_pos ids); [done|]. lia.
Qed.

Lemma max_val : uval max = Z.of_nat (length ids).
Proof using Hlen. apply uval_of_Z_small. change (2 ^ 16) with 65536. lia. Qed.

(** *** The values of an honest run *)

(** Identifier, secret and package of every participant after part 1. *)
Definition honest1 (hs : list (Identifier * R1Secret * R1Package)) : Prop :=
  length hs = length ids /\
  forall k id s p, hs !! k = Some (id, s, p) -> identifier_at k = Ok id /\ frost_part1 id max min (rngs k) = Ok (s, p).

Lemma honest1_exists : exists hs, honest1 hs.
Proof using Hnodes Hlen Hne.
  destruct (collect_witnesses (fun k (h : Identifier * R1Secret * R1Package) =>
    identifier_at k = Ok h.1.1 /\ frost_part1 h.1.1 max min (rngs k) = Ok (h.1.2, h.2)) (length ids)) as (hs & Hl & Hall).
  - intros k Hk. destruct (identifier_at_ok k) as [id Hid]; [lia|].
    destruct (part1_ok id max min (rngs k)) as (s & p & Hp); [rewrite max_val; apply ids_valid|].
    by exists (id, s, p).
  - exists hs. split; [done|]. intros k id s p Hk. by apply (Hall k (id, s, p)).
Qed.

Variables (hs : list (Identifier * R1Secret * R1Package)) (Hhs : honest1 hs).

Definition all_r1 : gmap Identifier R1Package := list_to_map ((fun h => (h.1.1, h.2)) <$> hs).

Lemma honest_at k : (k < length ids)%nat -> exists id s p, hs !! k = Some (id, s, p).
Proof using Hhs.
  intros Hk. destruct Hhs as [Hl _]. rewrite <- Hl in Hk. apply lookup_lt_is_Some in Hk as [[[id s] p] Hk]. eauto.
Qed.

Lemma honest_inj j k id s p s' p' :
  hs !! j = Some (id, s, p) -> hs !! k = Some (id, s', p') -> j = k.
Proof using Hhs Hlen.
  intros Hj Hk. destruct Hhs as [Hl Hall]. pose proof (lookup_lt_Some _ _ _ Hj). pose proof (lookup_lt_Some _ _ _ Hk).
  apply Hall in Hj as [Hj _], Hk as [Hk _]. eapply identifier_at_inj; [lia|lia|done..].
Qed.

Lemma all_r1_NoDup : NoDup ((fun h : Identifier * R1Secret * R1Package => (h.1.1, h.2)) <$> hs).*1.
Proof using Hhs Hlen.
  rewrite <- list_fmap_compose. apply NoDup_alt. intros j k id.
  rewrite !list_lookup_fmap, !fmap_Some. intros ([[i s] p] & Hj & ->) ([[i' s'] p'] & Hk & Heq). cbn in Heq. subst i'.
  by eapply honest_inj.
Qed.

Lemma all_r1_lookup k id s p : hs !! k = Some (id, s, p) -> all_r1 !! id = Some p.
Proof using Hhs Hlen.
  intros Hk. apply elem_of_list_to_map_1; [apply all_r1_NoDup|]. apply list_elem_of_fmap.
  exists (id, s, p). split; [done|]. by eapply list_elem_of_lookup_2.
Qed.

Lemma all_r1_inv id p : all_r1 !! id = Some p -> exists k s, hs !! k = Some (id, s, p).
Proof.
  intros Hin%elem_of_list_to_map_2. apply list_elem_of_fmap in Hin as ([[i s] q] & [= -> ->] & Hin).
  apply list_elem_of_lookup in Hin as [k Hk]. eauto.
Qed.

Lemma all_r1_size : size all_r1 = length ids.
Proof using Hhs Hlen.
  unfold all_r1. rewrite map_size_list_to_map by apply all_r1_NoDup. rewrite length_fmap. apply Hhs.
Qed.

Lemma part2_honest k id s p :
  hs !! k = Some (id, s, p) -> exists s2 out, frost_part2 s (delete id all_r1) = Ok (s2, out).
Proof using Hhs Hlen Hne Hnodes.
  intros Hk. pose proof (proj2 Hhs k id s p Hk) as [Hid Hp1]. apply (part2_ok id max min (rngs k) s p); [done| |].
  - rewrite map_size_delete_Some by (eexists; by eapply all_r1_lookup). rewrite all_r1_size, max_val.
    destruct (ids_valid) as [_ ?]. lia.
  - intros j q. rewrite lookup_delete_Some. intros [Hj (i & s' & Hi)%all_r1_inv]. split; [done|].
    apply (proj2 Hhs) in Hi as [_ Hi]. eauto.
Qed.

(** Secret and outgoing packages of every participant after part 2. *)
Definition honest2 (h2 : list (R2Secret * gmap Identifier R2Package)) : Prop :=
  length h2 = length ids /\
  forall k id s p s2 out, hs !! k = Some (id, s, p) -> h2 !! k = Some (s2, out) ->
    frost_part2 s (delete id all_r1) = Ok (s2, out).

Lemma honest2_exists : exists h2, honest2 h2.
Proof using Hhs Hlen Hne Hnodes.
  destruct (collect_witnesses (fun k (h : R2Secret * gmap Identifier R2Package) =>
    forall id s p, hs !! k = Some (id, s, p) -> frost_part2 s (delete id all_r1) = Ok h) (length ids)) as (h2 & Hl & Hall).
  - intros k Hk. destruct (honest_at k Hk) as (id & s & p & Hh). destruct (part2_honest k id s p Hh) as (s2 & out & Ho).
    exists (s2, out). intros id' s' p' Hh'. rewrite Hh in Hh'. by injection Hh' as <- <- <-.
  - exists h2. split; [done|]. intros k id s p s2 out Hh H2. by eapply Hall.
Qed.

Variables (h2 : list (R2Secret * gmap Identifier R2Package)) (Hh2 : honest2 h2).

Lemma honest2_at k : (k < length ids)%nat -> exists s2 out, h2 !! k = Some (s2, out).
Proof using Hh2.
  intros Hk. destruct Hh2 as [Hl _]. rewrite <- Hl in Hk. apply lookup_lt_is_Some in Hk as [[s2 out] Hk]. eauto.
Qed.

(** What participant [j] sends to participant [k]. *)
Lemma honest2_out j k idj sj pj s2 out idk sk pk :
  hs !! j = Some (idj, sj, pj) -> h2 !! j = Some (s2, out) -> hs !! k = Some (idk, sk, pk) ->
  is_Some (out !! idk) <-> j <> k.
Proof using Hh2 Hhs Hlen.
  intros Hj H2 Hk. pose proof (proj2 Hh2 _ _ _ _ _ _ Hj H2) as Hdom%part2_recipients.
  rewrite <- elem_of_dom, Hdom, elem_of_dom, lookup_delete_is_Some. split.
  - intros [Hi _] ->. rewrite Hj in Hk. by injection Hk as -> _ _.
  - intros Hjk. split; [intros ->; apply Hjk; by eapply honest_inj|]. eexists. by eapply all_r1_lookup.
Qed.

Lemma honest2_dom k s2 out id :
  h2 !! k = Some (s2, out) -> is_Some (out !! id) -> exists j s p, hs !! j = Some (id, s, p).
Proof using Hh2 Hhs.
  intros H2 Hid. assert (Hk : (k < length ids)%nat) by (destruct Hh2 as [<- _]; by eapply lookup_lt_Some).
  destruct (honest_at k Hk) as (idk & sk & pk & Hh). pose proof (proj2 Hh2 _ _ _ _ _ _ Hh H2) as Hdom%part2_recipients.
  rewrite <- elem_of_dom, Hdom, elem_of_dom, lookup_delete_is_Some in Hid. destruct Hid as [_ [p (j & s & Hj)%all_r1_inv]]. eauto.
Qed.

(** *** The loops *)

(** Node [n] is participant [k] with the honest values [id], [s], [p] of part 1. *)
Definition is_node k n v id (s : R1Secret) (p : R1Package) : Prop :=
  ids !! k = Some v /\ hs !! k = Some (id, s, p) /\ dkg_params n = (v, id, ids, max, min).

Lemma is_node_fits k n v id s p : is_node k n v id s p -> fits n.
Proof using Hhs Hlen Hne Hnodes.
  intros (Hv & Hh & [= Hvid Hid Hids Hmax Hmin]). destruct ids_valid as [Hnd Hm].
  split; [|by rewrite Hids]. unfold dkg_node_wf. rewrite Hids, Hmax, Hmin, Hid, Hvid. split_and!; try done; try lia.
  exists k. split; [done|]. by apply (proj2 Hhs) in Hh as [? _].
Qed.

Lemma is_node_renamed {A} k n v id s p (m : gmap VerifierId A) m' j vj idj sj pj :
  is_node k n v id s p -> renamed n m m' -> ids !! j = Some vj -> hs !! j = Some (idj, sj, pj) -> m' !! idj = m !! vj.
Proof using Hhs.
  intros (_ & _ & [= _ _ Hids _ _]) (Hr & _ & _) Hj Hhj. apply (Hr j); [by rewrite Hids|].
  by apply (proj2 Hhs) in Hhj as [? _].
Qed.

(** Identifiers in a renamed map are those of participants. *)
Lemma is_node_renamed_inv {A} k n v id s p (m : gmap VerifierId A) m' i :
  is_node k n v id s p -> renamed n m m' -> is_Some (m' !! i) ->
  exists j vj sj pj, ids !! j = Some vj /\ hs !! j = Some (i, sj, pj).
Proof using Hhs.
  intros (_ & _ & [= _ _ Hids _ _]) (_ & _ & Hr) Hi. destruct (Hr i Hi) as (j & Hj & Hid). rewrite Hids in Hj.
  destruct (lookup_lt_is_Some_2 _ _ Hj) as [vj Hvj]. destruct (honest_at j Hj) as (idj & sj & pj & Hh).
  pose proof (proj2 Hhs _ _ _ _ Hh) as [Hidj _]. rewrite Hid in Hidj. injection Hidj as ->. eauto 10.
Qed.

(** Round 1: the broadcasts of the first [k] participants. *)
Definition broadcast_of k (b : gmap VerifierId DkgRound1Package) : Prop :=
  (forall j v id s p, ids !! j = Some v -> hs !! j = Some (id, s, p) ->
     b !! v = if decide (j < k)%nat then Some (MkDkgRound1Package p) else None) /\
  (forall v, is_Some (b !! v) -> v ∈ ids).

Definition after1 k n : Prop :=
  exists v id s p, is_node k n v id s p /\ dn_state n = AfterPart1 (MkDkgRound1State s).

Lemma round1_honest k b n :
  broadcast_of k b -> nodes !! k = Some n ->
  exists n' b', round1_of rngs b k n = (n', Ok b') /\ after1 k n' /\ broadcast_of (S k) b'.
Proof using Hhs Hlen Hne Hnodes.
  intros [Hb Hdom] Hn. destruct (node_at k n Hn) as (v & id & Hv & Hid & _ & Hst & Hpar).
  destruct (honest_at k) as (id' & s & p & Hh); [by eapply lookup_lt_Some|].
  pose proof (proj2 Hhs _ _ _ _ Hh) as [Hid' Hp1]. rewrite Hid in Hid'. injection Hid' as <-.
  pose proof Hpar as [= Hvid Hnid Hids Hmax Hmin].
  unfold round1_of, part1, sbind, get. rewrite Hst. unfold dkg_part1. rewrite Hnid, Hmax, Hmin, Hp1.
  cbn. rewrite Hvid. eexists _, _. split; [done|]. split.
  - exists v, id, s, p. by repeat split.
  - destruct ids_valid as [Hnd _]. split.
    + intros j w idj sj pj Hj Hhj. rewrite lookup_insert. case_decide as Hw.
      * subst w. assert (j = k) as -> by (by eapply NoDup_lookup). rewrite Hh in Hhj. injection Hhj as <- <- <-.
        by rewrite decide_True by lia.
      * rewrite (Hb j w idj sj pj Hj Hhj). assert (j <> k) by (intros ->; congruence).
        do 2 case_decide; try done; lia.
    + intros w. rewrite lookup_insert_is_Some. intros [<-|[_ ?]]; [by eapply list_elem_of_lookup_2 | by apply Hdom].
Qed.

(** Round 2: the packages of the first [k] senders for every recipient. *)
Definition unicast_of k (u : gmap VerifierId (gmap VerifierId DkgRound2Package)) : Prop :=
  (forall i vi s2 out j vj idj sj pj, ids !! i = Some vi -> h2 !! i = Some (s2, out) ->
     ids !! j = Some vj -> hs !! j = Some (idj, sj, pj) ->
     default ∅ (u !! vj) !! vi = if decide (i < k)%nat then MkDkgRound2Package <$> out !! idj else None) /\
  (forall to v, is_Some (default ∅ (u !! to) !! v) -> v ∈ ids).

Definition after2 k n : Prop :=
  exists v id s p s2 out r1, is_node k n v id s p /\ h2 !! k = Some (s2, out) /\
    r1p_0 <$> r1 = delete id all_r1 /\ dn_state n = AfterPart2 (MkDkgRound2State s2) r1.

Lemma round1_map_honest k n v id s p b r1 :
  is_node k n v id s p -> broadcast_of (length ids) b -> renamed n (others v b) r1 ->
  r1p_0 <$> r1 = delete id all_r1.
Proof using Hhs Hlen Hne Hnodes.
  intros Hn [Hb _] Hr. pose proof Hn as (Hv & Hh & _). apply map_eq. intros i. rewrite lookup_fmap.
  destruct (all_r1 !! i) as [pi|] eqn:Hi.
  - destruct (all_r1_inv _ _ Hi) as (j & sj & Hj).
    assert (Hjl : (j < length ids)%nat) by (destruct Hhs as [<- _]; by eapply lookup_lt_Some).
    destruct (lookup_lt_is_Some_2 _ _ Hjl) as [vj Hvj].
    rewrite (is_node_renamed k n v id s p _ _ j vj i sj pi Hn Hr Hvj Hj). unfold others.
    destruct (decide (j = k)) as [->|Hjk].
    + rewrite Hh in Hj. injection Hj as <- <- <-. rewrite Hv in Hvj. injection Hvj as <-.
      rewrite lookup_delete_eq, map_lookup_filter_None_2; [done|]. right. by intros ? _ [].
    + rewrite lookup_delete_ne by (intros ->; apply Hjk; by eapply honest_inj). rewrite Hi.
      rewrite (map_lookup_filter_Some_2 _ _ _ (MkDkgRound1Package pi)); [done| |].
      * rewrite (Hb _ _ _ _ _ Hvj Hj). by rewrite decide_True.
      * cbn. intros ->. destruct ids_valid as [Hnd _]. apply Hjk. by eapply NoDup_lookup.
  - rewrite (proj2 (lookup_delete_None _ _ _)) by (by right). destruct (r1 !! i) as [q|] eqn:Hq; [|done].
    destruct (is_node_renamed_inv k n v id s p _ _ i Hn Hr) as (j & vj & sj & pj & _ & Hj); [by eexists|].
    by rewrite (all_r1_lookup _ _ _ _ Hj) in Hi.
Qed.

Lemma round2_honest k b u n x :
  broadcast_of (length ids) b -> unicast_of k u -> after1 k n ->
  exists n' u', round2_of b u x n = (n', Ok u') /\ after2 k n' /\ unicast_of (S k) u'.
Proof using Hhs Hh2 Hlen Hne Hnodes.
  intros Hb [Hu Hudom] (v & id & s & p & Hn & Hst). pose proof (is_node_fits _ _ _ _ _ _ Hn) as Hf.
  pose proof Hn as (Hv & Hh & Hpar). pose proof Hpar as [= Hvid Hnid Hids Hmax Hmin].
  destruct (honest2_at k) as (s2 & out & H2); [by eapply lookup_lt_Some|].
  unfold round2_of, part2, sbind, get. rewrite Hst, Hvid.
  destruct (to_identifiers_Ok n (others v b) Hf) as (r1 & -> & Hr1).
  { intros w [q [Hq _]%map_lookup_filter_Some]. rewrite Hids. apply (proj2 Hb). by eexists. }
  pose proof (round1_map_honest _ _ _ _ _ _ _ _ Hn Hb Hr1) as Hr1'.
  unfold dkg_part2. cbn [r1s_0]. rewrite Hr1', (proj2 Hh2 _ _ _ _ _ _ Hh H2). cbn [map_err mbind result_bind crypto_err].
  set (n1 := set_dn_state (DkgFailed PART2_FAILED) n).
  destruct (to_verifiers_Ok n1 (MkDkgRound2Package <$> out)) as (outv & -> & Hro).
  { exact Hf. }
  { intros i Hi. rewrite lookup_fmap, fmap_is_Some in Hi. destruct (honest2_dom _ _ _ _ H2 Hi) as (j & sj & pj & Hj).
    exists j. split; [|by apply (proj2 Hhs) in Hj as [? _]]. cbn. rewrite Hids. destruct Hhs as [<- _].
    by eapply lookup_lt_Some. }
  cbn [sret]. eexists _, _. split; [done|]. split.
  - exists v, id, s, p, s2, out, r1. by split_and!.
  - split.
    + intros i vi s2i outi j vj idj sj pj Hi H2i Hj Hhj. rewrite deliver_all_lookup.
      assert (Houtv : outv !! vj = MkDkgRound2Package <$> out !! idj).
      { rewrite <- lookup_fmap. symmetry. apply (proj1 Hro j); [cbn; by rewrite Hids|].
        by apply (proj2 Hhs) in Hhj as [? _]. }
      rewrite Houtv. pose proof (Hu i vi s2i outi j vj idj sj pj Hi H2i Hj Hhj) as Hold.
      destruct (decide (i = k)) as [->|Hik].
      * rewrite Hv in Hi. injection Hi as <-. rewrite H2 in H2i. injection H2i as <- <-.
        rewrite decide_True by lia. destruct (out !! idj) as [q|]; cbn; [by rewrite lookup_insert_eq|].
        rewrite Hold. by rewrite decide_False by lia.
      * assert (vi <> v) by (intros ->; destruct ids_valid as [Hnd _]; apply Hik; by eapply NoDup_lookup).
        destruct (out !! idj) as [q|]; cbn; rewrite ?lookup_insert_ne by done; rewrite Hold;
          do 2 case_decide; try done; lia.
    + intros to w. rewrite deliver_all_lookup. destruct (outv !! to); [|apply Hudom].
      rewrite lookup_insert_is_Some. intros [<-|[_ ?]]; [by eapply list_elem_of_lookup_2 | by eapply Hudom].
Qed.

(** Round 3: the packages of the recipients from [k] on, and the outputs of the
    first [k] nodes, which have one group key [gk]. *)
Definition outputs_of (gk : FrostGroupKey) k
    (a : gmap VerifierId (gmap VerifierId DkgRound2Package) * list (FrostAuxiliaryNode * FrostGroupKey)) : Prop :=
  (exists u, unicast_of (length ids) u /\ forall j v, (k <= j)%nat -> ids !! j = Some v -> a.1 !! v = u !! v) /\
  length a.2 = k /\
  forall j o, a.2 !! j = Some o -> o.2 = gk /\
    exists v id kp, ids !! j = Some v /\ identifier_at j = Ok id /\
      o.1 = FrostAuxiliaryNode_new (MkFrostParticipant kp id v).

Lemma part3_honest k n v id s p s2 out r1 u r2 :
  is_node k n v id s p -> h2 !! k = Some (s2, out) -> r1p_0 <$> r1 = delete id all_r1 ->
  unicast_of (length ids) u -> renamed n (default ∅ (u !! v)) r2 ->
  exists kp, frost_part3 s2 (r1p_0 <$> r1) (r2p_0 <$> r2) = Ok (kp, dkg_public all_r1).
Proof using Hhs Hh2 Hlen Hne Hnodes.
  intros Hn H2 Hr1 [Hu _] Hr2. pose proof Hn as (Hv & Hh & _). pose proof (proj2 Hhs _ _ _ _ Hh) as [_ Hp1].
  pose proof (proj2 Hh2 _ _ _ _ _ _ Hh H2) as Hp2. rewrite Hr1.
  assert (Hr2' : forall j vj idj sj pj s2j outj, ids !! j = Some vj -> hs !! j = Some (idj, sj, pj) ->
    h2 !! j = Some (s2j, outj) -> (r2p_0 <$> r2) !! idj = outj !! id).
  { intros j vj idj sj pj s2j outj Hvj Hhj H2j.
    rewrite lookup_fmap, (is_node_renamed k n v id s p _ _ j vj idj sj pj Hn Hr2 Hvj Hhj).
    rewrite (Hu j vj s2j outj k v id s p Hvj H2j Hv Hh), decide_True by (by eapply lookup_lt_Some).
    by destruct (outj !! id). }
  assert (Hinv : forall i, is_Some ((r2p_0 <$> r2) !! i) -> exists j vj sj pj s2j outj,
    ids !! j = Some vj /\ hs !! j = Some (i, sj, pj) /\ h2 !! j = Some (s2j, outj)).
  { intros i. rewrite lookup_fmap, fmap_is_Some. intros Hi.
    destruct (is_node_renamed_inv k n v id s p _ _ i Hn Hr2 Hi) as (j & vj & sj & pj & Hvj & Hhj).
    destruct (honest2_at j) as (s2j & outj & H2j); [by eapply lookup_lt_Some|]. eauto 10. }
  destruct (part3_ok id max min (rngs k) s p (delete id all_r1) s2 out (r2p_0 <$> r2) Hp1 Hp2) as (kp & pk & Hp3).
  - apply set_eq. intros i. rewrite !elem_of_dom. split.
    + intros Hi. destruct (Hinv i Hi) as (j & vj & sj & pj & s2j & outj & Hvj & Hhj & H2j).
      rewrite (Hr2' _ _ _ _ _ _ _ Hvj Hhj H2j), (honest2_out _ _ _ _ _ _ _ _ _ _ Hhj H2j Hh) in Hi.
      rewrite lookup_delete_ne by (intros ->; apply Hi; by eapply honest_inj).
      eexists. by eapply all_r1_lookup.
    + rewrite lookup_delete_is_Some. intros [Hi [q (j & sj & Hhj)%all_r1_inv]].
      assert (Hjl : (j < length ids)%nat) by (destruct Hhs as [<- _]; by eapply lookup_lt_Some).
      destruct (lookup_lt_is_Some_2 _ _ Hjl) as [vj Hvj]. destruct (honest2_at j Hjl) as (s2j & outj & H2j).
      rewrite (Hr2' _ _ _ _ _ _ _ Hvj Hhj H2j), (honest2_out _ _ _ _ _ _ _ _ _ _ Hhj H2j Hh).
      intros ->. rewrite Hh in Hhj. by injection Hhj as -> _ _.
  - intros i q Hq. destruct (Hinv i) as (j & vj & sj & pj & s2j & outj & Hvj & Hhj & H2j); [by eexists|].
    rewrite (Hr2' _ _ _ _ _ _ _ Hvj Hhj H2j) in Hq. pose proof (proj2 Hhs _ _ _ _ Hhj) as [_ Hp1j].
    exists (rngs j), sj, pj, (delete i all_r1), s2j, outj. split_and!; [done| | |done].
    + rewrite lookup_delete_ne; [by eapply all_r1_lookup|]. intros ->.
      assert (Hjk : j <> k) by (eapply honest2_out; [done..|by eexists]). apply Hjk. by eapply honest_inj.
    + by eapply (proj2 Hh2).
  - exists kp. rewrite Hp3. do 2 f_equal. rewrite (part3_public _ _ _ _ _ _ _ _ _ _ _ _ Hp1 Hp2 Hp3).
    by rewrite insert_delete_id by (by eapply all_r1_lookup).
Qed.

Variables (vmap : gmap VerifierId Identifier) (Hvmap : assign_identifiers 0 ids ∅ = Ok vmap).

Lemma round3_honest k a n x :
  outputs_of (MkFrostGroupKey (dkg_public all_r1) vmap) k a -> after2 k n ->
  exists n' a', round3_of a x n = (n', Ok a') /\ is_complete n' = true /\
    outputs_of (MkFrostGroupKey (dkg_public all_r1) vmap) (S k) a'.
Proof using Hhs Hh2 Hlen Hne Hnodes Hvmap.
  intros ((u & Hu & Hau) & Hl & Houts) (v & id & s & p & s2 & out & r1 & Hn & H2 & Hr1 & Hst). destruct a as [ua outs]. cbn in *.
  pose proof (is_node_fits _ _ _ _ _ _ Hn) as Hf.
  pose proof Hn as (Hv & Hh & Hpar). pose proof Hpar as [= Hvid Hnid Hids Hmax Hmin].
  unfold round3_of, part3, sbind, get. rewrite Hst, Hvid, (Hau k v (le_n _) Hv), Hnid, Hids.
  destruct (to_identifiers_Ok n (default ∅ (u !! v)) Hf) as (r2 & -> & Hr2).
  { intros w Hw. rewrite Hids. by apply (proj2 Hu v). }
  destruct (part3_honest _ _ _ _ _ _ _ _ _ _ _ Hn H2 Hr1 Hu Hr2) as [kp Hp3].
  unfold dkg_part3. cbn [r2s_0]. cbn [mbind result_bind]. rewrite Hp3. cbn [map_err mbind result_bind]. rewrite Hvmap.
  cbn. eexists _, _. split; [done|]. split; [done|]. split_and!.
  - exists u. split; [done|]. intros j w Hj Hw. cbn. rewrite lookup_delete_ne; [apply (Hau j w); [lia|done]|].
    intros <-. destruct ids_valid as [Hnd _]. assert (j = k) by (by eapply NoDup_lookup). lia.
  - cbn. rewrite length_app. cbn. lia.
  - cbn. intros j o [[_ Hj]|[-> <-]]%lookup_snoc_Some; [by apply Houts|]. split; [done|].
    exists v, id, kp. rewrite Hl. split_and!; [done| |done]. by apply (proj2 Hhs) in Hh as [? _].
Qed.
End Honest.

Section Completion.
Context {Hs : Sha256} {Ed : Ed25519} {Fr : FrostEd25519} {Dk : FrostDkg} {X : X25519} {Ci : DkgCipher}.

Lemma ceremony_completes ids min rngs nodes :
  Forall2 (fun v n => FrostDkgNode_new v ids min = Ok n) ids nodes ->
  Z.of_nat (length ids) <= 65535 -> ids <> [] ->
  exists nodes' aux gk, run_dkg_ceremony rngs nodes = (nodes', Ok (aux, gk)) /\
    Forall (fun n => is_complete n = true) nodes' /\ length nodes' = length ids /\ length aux = length ids /\
    (forall k a, aux !! k = Some a -> exists v id kp, ids !! k = Some v /\ identifier_at k = Ok id /\
       a = FrostAuxiliaryNode_new (MkFrostParticipant kp id v)) /\
    (forall k v id, ids !! k = Some v -> identifier_at k = Ok id -> verifier_to_identifier gk v = Some id).
Proof.
  intros Hnodes Hlen Hne. pose proof (nodes_length ids min nodes Hnodes) as Hnl.
  destruct (ids_valid ids min nodes Hnodes Hlen Hne) as [Hnd _].
  destruct (honest1_exists ids min rngs nodes Hnodes Hlen Hne) as [hs Hhs].
  destruct (honest2_exists ids min rngs nodes Hnodes Hlen Hne hs Hhs) as [h2 Hh2].
  destruct (assign_identifiers_Ok ids ∅ 0 Hnd) as (vmap & Hvmap & Hvm & _); [done|].
  assert (Hreq : forall msg, require_nodes msg nodes = (nodes, Ok tt)).
  { intros msg. destruct nodes; [|done]. cbn in Hnl. by destruct ids. }
  unfold run_dkg_ceremony, ceremony_round1. rewrite (sbind_run _ _ _ _ _ (Hreq _)), sbind_get.
  destruct (for_zip_mut_ok (fun k _ => after1 ids min hs k) (broadcast_of ids hs) (round1_of rngs)
    (seq 0 (length nodes)) ∅ nodes) as (ns1 & b & H1 & Hl1 & Hq1 & Hb).
  { intros k b x n Hb [-> _]%lookup_seq Hn. by eapply round1_honest. }
  { apply length_seq. }
  { split; [intros; rewrite lookup_empty; by rewrite decide_False by lia | intros v; rewrite lookup_empty; by intros []]. }
  rewrite (sbind_run _ _ nodes ns1 b) by exact H1.
  destruct (for_zip_mut_ok (fun k _ => after2 ids min hs h2 k) (unicast_of ids hs h2) (round2_of b)
    (seq 0 (length nodes)) ∅ ns1) as (ns2 & u & H2 & Hl2 & Hq2 & Hu).
  { intros k u x n Hu _ Hn. assert (exists n0, nodes !! k = Some n0) as [n0 Hn0].
    { apply lookup_lt_is_Some. rewrite <- Hl1. by eapply lookup_lt_Some. }
    eapply round2_honest; [done..| by rewrite <- Hnl |done|by eapply Hq1]. }
  { by rewrite length_seq. }
  { split; [intros; rewrite lookup_empty; cbn; rewrite lookup_empty; by rewrite decide_False by lia
           |intros to v; rewrite lookup_empty; cbn; rewrite lookup_empty; by intros []]. }
  rewrite (sbind_run _ _ ns1 ns2 u) by exact H2.
  destruct (for_zip_mut_ok (fun _ _ n => is_complete n = true)
    (outputs_of ids hs h2 (MkFrostGroupKey (dkg_public (all_r1 hs)) vmap)) round3_of
    (seq 0 (length nodes)) (u, []) ns2) as (ns3 & [u3 outs] & H3 & Hl3 & Hq3 & Ho).
  { intros k a x n Ha _ Hn. assert (exists n0, ns1 !! k = Some n0) as [n0 Hn0].
    { apply lookup_lt_is_Some. rewrite <- Hl2. by eapply lookup_lt_Some. }
    eapply round3_honest; [done..|by eapply Hq2]. }
  { rewrite length_seq. congruence. }
  { split_and!; [|done|done]. exists u. split; [|done]. by rewrite <- Hnl, <- Hl1. }
  rewrite (sbind_run _ _ ns2 ns3 (u3, outs)) by exact H3. cbn [snd].
  destruct Ho as (_ & Hlo & Houts). cbn in Hlo, Houts.
  unfold slift. rewrite (finish_consistent outs (MkFrostGroupKey (dkg_public (all_r1 hs)) vmap)).
  - eexists _, _, _. split; [done|]. split_and!.
    + apply Forall_lookup. intros k n Hn. assert (exists n0, ns2 !! k = Some n0) as [n0 Hn0].
      { apply lookup_lt_is_Some. rewrite <- Hl3. by eapply lookup_lt_Some. } by eapply Hq3.
    + congruence.
    + rewrite length_fmap. congruence.
    + intros k a. rewrite list_lookup_fmap, fmap_Some. intros (o & Ho & ->).
      destruct (Houts k o Ho) as (_ & v & id & kp & ? & ? & ->). eauto 10.
    + intros k v id Hk Hid. by apply (Hvm k).
  - intros ->. cbn in Hlo. destruct ids; [done|]. cbn in *. lia.
  - apply Forall_lookup. intros k o Ho. by destruct (Houts k o Ho) as [? _].
Qed.

(** C22. An honest key generation completes: when every participant of a list of
    at most 65535 creates its node from that list, the ceremony succeeds
    whatever the random generators; every node is complete, there is one signing
    node per participant, in order and with the identifier of its position, and
    the group key maps every participant to that identifier. In particular the
    check for diverging group keys never fails between honest nodes. *)
Theorem honest_ceremony_completes ids min rngs nodes :
  Forall2 (fun v n => FrostDkgNode_new v ids min = Ok n) ids nodes ->
  Z.of_nat (length ids) <= 65535 -> ids <> [] ->
  exists nodes' aux gk, run_dkg_ceremony rngs nodes = (nodes', Ok (aux, gk)) /\
    Forall (fun n => is_complete n = true) nodes' /\ length nodes' = length ids /\ length aux = length ids /\
    (forall k a, aux !! k = Some a -> exists v id kp, ids !! k = Some v /\ identifier_at k = Ok id /\
       a = FrostAuxiliaryNode_new (MkFrostParticipant kp id v)) /\
    (forall k v id, ids !! k = Some v -> identifier_at k = Ok id -> verifier_to_identifier gk v = Some id).
Proof. apply ceremony_completes. Qed.
End Completion.

Lemma honest_ceremony_completes_witness :
  exists nodes' aux gk, run_dkg_ceremony (Ed:=toy_ed25519) (Dk:=toy_dkg) toy_rngs toy_nodes = (nodes', Ok (aux, gk)) /\
    length aux = 3%nat /\ verifier_to_identifier gk (vid 2) = Some 2%nat.
Proof.
  destruct (honest_ceremony_completes (Ed:=toy_ed25519) (Dk:=toy_dkg) toy_ids toy_min toy_rngs toy_nodes)
    as (nodes' & aux & gk & Hrun & _ & _ & Hlen & _ & Hgk).
  - repeat constructor; apply toy_node_new; apply (bool_decide_unpack _); vm_compute; exact I.
  - vm_compute. discriminate.
  - discriminate.
  - exists nodes', aux, gk. split; [exact Hrun|]. split; [exact Hlen|].
    apply (Hgk 1%nat); [reflexivity | vm_compute; reflexivity].
Defined.
