(* ===== verification/FrostKeys.v ===== *)
(** * Key material of the FROST adapter

    Models the rest of [crypto/src/frost_adapter.rs]: key generation by a trusted
    dealer, export and import of group keys and participants as JSON with
    hexadecimal identifiers, and the hand-written [Serialize] and [Deserialize]
    of threshold approvals.

    The dealer and the encodings of identifiers are those of the crate
    [frost-ed25519] (classes [FrostDealer] and [IdentifierBytes]); [serde_json]
    is [SerdeJson] at the exported records. *)

From S2P Require Import Prelude Core Session Attestation Threshold Registry Errors Frost Dkg.
From S2P Require Import DkgNode DkgCeremony.

(** The trusted dealer: for distinct identifiers and a threshold from two to
    their number it deals one share to each identifier, which converts to a key
    package. *)
Class FrostDealer {Fr : FrostEd25519} := {
  SecretShare : Type;
  generate_with_dealer : u16 -> u16 -> list Identifier -> Frost.Rng ->
    result string (gmap Identifier SecretShare * PublicKeyPackage);
  KeyPackage_try_from : SecretShare -> result string KeyPackage;
  dealer_ok max min ids rng :
    2 <= uval min <= uval max -> uval max = Z.of_nat (length ids) -> NoDup ids ->
    exists shares pk, generate_with_dealer max min ids rng = Ok (shares, pk);
  dealer_shares max min ids rng shares pk :
    generate_with_dealer max min ids rng = Ok (shares, pk) ->
    forall i, i ∈ ids -> exists sh kp, shares !! i = Some sh /\ KeyPackage_try_from sh = Ok kp
}.

(** Identifiers serialize to 32 bytes. *)
Class IdentifierBytes {Fr : FrostEd25519} := {
  Identifier_serialize : Identifier -> array 32;
  Identifier_deserialize : array 32 -> result string Identifier;
  identifier_roundtrip i : Identifier_deserialize (Identifier_serialize i) = Ok i
}.

Section Keys.
Context {Fr : FrostEd25519} {Dk : FrostDkg} {De : FrostDealer} {Ib : IdentifierBytes}.

(** ** Trusted-dealer key generation *)

Record TrustedDealerKeygenOutput := MkTrustedDealerKeygenOutput {
  tdk_participants : list FrostParticipant;
  tdk_group_key : FrostGroupKey
}.

(** [(1u16..=n).map(|i| Identifier::try_from(i).expect(..)).collect()] *)
Definition dealer_identifiers (n : u16) : result (failure CryptoError) (list Identifier) :=
  try_map (fun k => map_err (fun _ => Panics "1..=n is a valid non-zero u16")
                      (Identifier_try_from (u_of_Z 16 (Z.of_nat k))))
    (seq 1 (Z.to_nat (uval n))).

(** One verifier of the loop that collects the participants. *)
Definition dealer_step (identifiers : list Identifier) (shares : gmap Identifier SecretShare)
    (acc : gmap VerifierId Identifier * list FrostParticipant) (p : nat * VerifierId)
    : result (failure CryptoError) (gmap VerifierId Identifier * list FrostParticipant) :=
  let '(idx, verifier_id) := p in
  frost_id ← ok_or (Panics "index out of bounds") (identifiers !! idx);
  secret_share ← ok_or (Fails (InvalidKeyMaterial
                   ("missing share for FROST identifier " +:+ pretty (Z.of_nat idx)))) (shares !! frost_id);
  key_package ← map_err (fun e => Fails (InvalidKeyMaterial e)) (KeyPackage_try_from secret_share);
  Ok (<[verifier_id := frost_id]> acc.1, acc.2 ++ [MkFrostParticipant key_package frost_id verifier_id]).

Definition frost_trusted_dealer_keygen (rng : Frost.Rng) (verifier_ids : list VerifierId) (threshold : usize)
    : result (failure CryptoError) TrustedDealerKeygenOutput :=
  let n := length verifier_ids in
  let n_str := pretty (Z.of_nat n) in
  let t_str := pretty (uval threshold) in
  if (n <? 2)%nat then
    Err (Fails (InvalidKeyMaterial ("FROST requires at least 2 participants (got " +:+ n_str +:+ ")")))
  else if uval threshold <? 2 then
    Err (Fails (InvalidKeyMaterial ("FROST requires threshold >= 2 (got " +:+ t_str +:+ ")")))
  else if Z.of_nat n <? uval threshold then
    Err (Fails (InvalidKeyMaterial ("threshold " +:+ t_str +:+ " exceeds participant count " +:+ n_str)))
  else if negb (n =? size (list_to_set verifier_ids : gset VerifierId))%nat then
    Err (Fails (InvalidKeyMaterial "verifier_ids must not contain duplicates"))
  else
    identifiers ← dealer_identifiers (u_of_Z 16 (Z.of_nat n));
    dealt ← map_err (fun e => Fails (InvalidKeyMaterial e))
      (generate_with_dealer (u_of_Z 16 (Z.of_nat n)) (u_of_Z 16 (uval threshold)) identifiers rng);
    let '(shares, pub_key_package) := dealt in
    r ← try_fold (dealer_step identifiers shares) (∅, []) (enumerate verifier_ids);
    let '(verifier_to_id, participants) := r in
    Ok {| tdk_participants := participants;
          tdk_group_key := MkFrostGroupKey pub_key_package verifier_to_id |}.

(** ** JSON export and import *)

Record GroupKeyExport := MkGroupKeyExport {
  gke_pub_key_package : PublicKeyPackage;
  gke_verifier_map : list (string * string)
}.
Record ParticipantExport := MkParticipantExport {
  pe_key_package : KeyPackage;
  pe_identifier_hex : string;
  pe_verifier_id_hex : string
}.

Context {Jg : SerdeJson GroupKeyExport} {Jp : SerdeJson ParticipantExport}.

(** [hex::decode(..)?.try_into()?]: exactly [n] bytes. *)
Definition decode_hex_array (n : nat) (err : string -> CryptoError) (size_err : CryptoError) (s : string)
    : result CryptoError (array n) :=
  bs ← map_err err (hex_decode s);
  ok_or size_err (try_into n bs).

Definition import_verifier_id (err : string) (s : string) : result CryptoError VerifierId :=
  from_bytes <$> decode_hex_array 32 (fun e => InvalidKeyMaterial (err +:+ e))
    (InvalidKeyMaterial "verifier_id must be 32 bytes") s.
Definition import_identifier (err : string) (s : string) : result CryptoError Identifier :=
  id_arr ← decode_hex_array 32 (fun e => InvalidKeyMaterial (err +:+ e))
             (InvalidKeyMaterial "identifier must be 32 bytes") s;
  map_err (fun e => InvalidKeyMaterial ("deserialize identifier: " +:+ e)) (Identifier_deserialize id_arr).

Definition group_key_to_json_bytes (self : FrostGroupKey) : result CryptoError bytes :=
  let verifier_map := (fun '(v, id) => (hex_encode (arr (as_bytes v)), hex_encode (arr (Identifier_serialize id))))
                        <$> map_to_list (verifier_to_id self) in
  map_err (fun e => InvalidKeyMaterial ("serialize group key: " +:+ e))
    (json_to_vec (MkGroupKeyExport (pub_key_package self) verifier_map)).

Definition group_key_from_json_bytes (bs : bytes) : result CryptoError FrostGroupKey :=
  export ← map_err (fun e => InvalidKeyMaterial ("deserialize group key: " +:+ e)) (json_from_slice bs);
  m ← try_fold (fun m '(vid_hex, id_hex) =>
    v ← import_verifier_id "decode vid hex: " vid_hex;
    id ← import_identifier "decode id hex: " id_hex;
    Ok (<[v := id]> m)) ∅ (gke_verifier_map export);
  Ok (MkFrostGroupKey (gke_pub_key_package export) m).

Definition participant_to_json_bytes (self : FrostParticipant) : result CryptoError bytes :=
  map_err (fun e => InvalidKeyMaterial ("serialize participant: " +:+ e))
    (json_to_vec {| pe_key_package := key_package self;
                    pe_identifier_hex := hex_encode (arr (Identifier_serialize (fp_identifier self)));
                    pe_verifier_id_hex := hex_encode (arr (as_bytes (fp_verifier_id self))) |}).

Definition participant_from_json_bytes (bs : bytes) : result CryptoError FrostParticipant :=
  export ← map_err (fun e => InvalidKeyMaterial ("deserialize participant: " +:+ e)) (json_from_slice bs);
  identifier ← import_identifier "decode identifier hex: " (pe_identifier_hex export);
  v ← import_verifier_id "decode verifier_id hex: " (pe_verifier_id_hex export);
  Ok (MkFrostParticipant (pe_key_package export) identifier v).

(** ** Serialization of approvals *)

(** The fields written by [serialize] and read as [Raw] by [deserialize]. *)
Record RawApproval := MkRawApproval {
  raw_signed_digest : DigestBytes;
  aggregate_signature_hex : string;
  group_verifying_key_hex : string
}.

Definition approval_serialize (self : FrostThresholdApproval) : RawApproval :=
  {| raw_signed_digest := fta_signed_digest self;
     aggregate_signature_hex := hex_encode (arr (aggregate_signature_bytes self));
     group_verifying_key_hex := hex_encode (arr (group_verifying_key_bytes self)) |}.

Definition approval_deserialize (raw : RawApproval) : result string FrostThresholdApproval :=
  sig_bytes ← hex_decode (aggregate_signature_hex raw);
  sig_arr ← ok_or "signature must be 64 bytes" (try_into 64 sig_bytes);
  key_bytes ← hex_decode (group_verifying_key_hex raw);
  key_arr ← ok_or "verifying key must be 32 bytes" (try_into 32 key_bytes);
  Ok {| fta_signed_digest := raw_signed_digest raw; aggregate_signature_bytes := sig_arr;
        group_verifying_key_bytes := key_arr |}.

(** ** Properties *)

Lemma decode_hex_array_encode n err size_err (a : array n) :
  decode_hex_array n err size_err (hex_encode (arr a)) = Ok a.
Proof. unfold decode_hex_array. rewrite hex_decode_encode. cbn [map_err mbind result_bind]. by rewrite try_into_arr. Qed.

Lemma import_verifier_id_encode err v : import_verifier_id err (hex_encode (arr (as_bytes v))) = Ok v.
Proof. unfold import_verifier_id. rewrite decode_hex_array_encode. cbn [fmap result_fmap]. by rewrite from_as_bytes. Qed.

Lemma import_identifier_encode err id : import_identifier err (hex_encode (arr (Identifier_serialize id))) = Ok id.
Proof.
  unfold import_identifier. rewrite decode_hex_array_encode. cbn [mbind result_bind]. by rewrite identifier_roundtrip.
Qed.

Lemma group_key_roundtrip gk bs : group_key_to_json_bytes gk = Ok bs -> group_key_from_json_bytes bs = Ok gk.
Proof.
  intros Hbs%map_err_Ok%json_roundtrip. unfold group_key_from_json_bytes. rewrite Hbs.
  cbn [map_err mbind result_bind gke_verifier_map gke_pub_key_package].
  assert (Hloop : forall l (m : gmap VerifierId Identifier),
    try_fold (fun m '(vid_hex, id_hex) =>
      v ← import_verifier_id "decode vid hex: " vid_hex;
      id ← import_identifier "decode id hex: " id_hex;
      Ok (<[v := id]> m)) m
      ((fun '(v, id) => (hex_encode (arr (as_bytes (T:=VerifierId) v)), hex_encode (arr (Identifier_serialize id)))) <$> l)
    = Ok (foldl (fun m p => <[p.1 := p.2]> m) m l)).
  { induction l as [|[v id] l IH]; intros m; cbn [fmap list_fmap try_fold foldl]; [done|].
    rewrite import_verifier_id_encode. cbn [mbind result_bind]. rewrite import_identifier_encode.
    cbn [mbind result_bind fst snd]. apply IH. }
  rewrite Hloop. cbn [mbind result_bind]. rewrite foldl_insert_map. by destruct gk.
Qed.

Lemma participant_roundtrip p bs : participant_to_json_bytes p = Ok bs -> participant_from_json_bytes bs = Ok p.
Proof.
  intros Hbs%map_err_Ok%json_roundtrip. unfold participant_from_json_bytes. rewrite Hbs.
  cbn [map_err mbind result_bind pe_identifier_hex pe_verifier_id_hex pe_key_package].
  rewrite import_identifier_encode. cbn [mbind result_bind]. rewrite import_verifier_id_encode. by destruct p.
Qed.

(** Key material survives export and import: a group key, with its whole
    identity map, a participant with its secret share, and a threshold approval
    are each read back exactly as they were written. *)
Theorem key_material_roundtrip gk p a :
  (forall bs, group_key_to_json_bytes gk = Ok bs -> group_key_from_json_bytes bs = Ok gk) /\
  (forall bs, participant_to_json_bytes p = Ok bs -> participant_from_json_bytes bs = Ok p) /\
  approval_deserialize (approval_serialize a) = Ok a.
Proof.
  split_and!; [intros; by apply group_key_roundtrip | intros; by apply participant_roundtrip |].
  unfold approval_deserialize, approval_serialize. cbn [aggregate_signature_hex group_verifying_key_hex raw_signed_digest].
  rewrite hex_decode_encode. cbn [mbind result_bind]. rewrite try_into_arr. cbn [ok_or mbind result_bind].
  rewrite hex_decode_encode. cbn [mbind result_bind]. rewrite try_into_arr. by destruct a.
Qed.

(** *** The dealer *)

Lemma dealer_identifiers_Ok n ids :
  dealer_identifiers n = Ok ids ->
  length ids = Z.to_nat (uval n) /\ forall k id, ids !! k = Some id -> identifier_at k = Ok id.
Proof.
  unfold dealer_identifiers. intros Hall. pose proof (try_map_length _ _ _ Hall) as Hlen.
  rewrite length_seq in Hlen. split; [done|]. apply try_map_Ok in Hall. intros k id Hk.
  destruct (Forall2_lookup_r _ _ _ _ _ Hall Hk) as (j & [-> _]%lookup_seq & Hid%map_err_Ok).
  unfold identifier_at. by replace (Z.of_nat k + 1) with (Z.of_nat (1 + k)) by lia.
Qed.

Lemma dealer_identifiers_exist n : exists ids, dealer_identifiers n = Ok ids.
Proof.
  unfold dealer_identifiers. pose proof (uval_range n) as Hn. change (2 ^ Z.pos 16) with 65536 in Hn.
  assert (Hall : forall k, k ∈ seq 1 (Z.to_nat (uval n)) -> exists i, Identifier_try_from (u_of_Z 16 (Z.of_nat k)) = Ok i).
  { intros k Hk%elem_of_seq. apply identifier_ok. rewrite uval_of_Z_small by (change (2 ^ 16) with 65536; lia). lia. }
  induction (seq 1 (Z.to_nat (uval n))) as [|k ks IH]; [by eexists|]. cbn [try_map].
  destruct (Hall k) as [i ->]; [by constructor|]. cbn [map_err mbind result_bind].
  destruct IH as [ids ->]; [intros; apply Hall; by constructor|]. by eexists.
Qed.

(** The loop over the verifiers from position [length l]: the participants made
    so far, in order, with the identifiers of their positions. *)
Definition dealt_to (identifiers : list Identifier) (vs : list VerifierId)
    (acc : gmap VerifierId Identifier * list FrostParticipant) : Prop :=
  length acc.2 = length vs /\
  (forall k p, acc.2 !! k = Some p -> vs !! k = Some (fp_verifier_id p) /\ identifiers !! k = Some (fp_identifier p)) /\
  (forall k v id, vs !! k = Some v -> identifiers !! k = Some id -> acc.1 !! v = Some id).

Lemma dealer_loop identifiers shares vs rest acc :
  NoDup (vs ++ rest) -> (length (vs ++ rest) <= length identifiers)%nat ->
  (forall i, i ∈ identifiers -> exists sh kp, shares !! i = Some sh /\ KeyPackage_try_from sh = Ok kp) ->
  dealt_to identifiers vs acc ->
  exists acc', try_fold (dealer_step identifiers shares) acc (zip (seq (length vs) (length rest)) rest) = Ok acc' /\
    dealt_to identifiers (vs ++ rest) acc'.
Proof.
  revert vs acc. induction rest as [|v rest IH]; intros vs acc Hnd Hlen Hsh Hacc.
  - exists acc. rewrite app_nil_r. done.
  - cbn [length seq zip zip_with try_fold]. rewrite length_app in Hlen. cbn [length] in Hlen.
    destruct (lookup_lt_is_Some_2 identifiers (length vs)) as [id Hid]; [lia|].
    destruct (Hsh id) as (sh & kp & Hshid & Hkp); [by eapply list_elem_of_lookup_2|].
    assert (dealer_step identifiers shares acc (length vs, v)
      = Ok (<[v := id]> acc.1, acc.2 ++ [MkFrostParticipant kp id v])) as ->.
    { unfold dealer_step. rewrite Hid. cbn [ok_or mbind result_bind]. rewrite Hshid. cbn [ok_or mbind result_bind].
      by rewrite Hkp. }
    cbn [mbind result_bind].
    assert (Heq : vs ++ v :: rest = (vs ++ [v]) ++ rest) by (by rewrite <- (assoc_L (++))).
    rewrite Heq in Hnd |- *. replace (S (length vs)) with (length (vs ++ [v])) by (rewrite length_app; cbn; lia).
    apply IH; [done| |done|]. { rewrite !length_app. cbn. lia. }
    destruct Hacc as (Hl & Hp & Hm). split_and!; cbn [fst snd].
    + rewrite !length_app, Hl. done.
    + intros k p [[Hk Hkp']|[-> <-]]%lookup_snoc_Some.
      * destruct (Hp k p Hkp') as [Hv ?]. split; [|done]. by apply lookup_app_l_Some.
      * cbn. rewrite Hl. split; [|done]. apply list_lookup_middle. done.
    + intros k w id' [[Hk Hkw]|[-> ->]]%lookup_snoc_Some Hid'.
      * rewrite lookup_insert_ne; [by eapply Hm|]. intros ->. rewrite <- (assoc_L (++)) in Hnd. apply NoDup_app in Hnd as (_ & Hd & _).
        apply (Hd w); [by eapply list_elem_of_lookup_2 | by constructor].
      * rewrite Hid in Hid'. injection Hid' as <-. apply lookup_insert_eq.
Qed.

Lemma dealer_keygen_completes rng vs threshold :
  NoDup vs -> 2 <= uval threshold <= Z.of_nat (length vs) -> Z.of_nat (length vs) <= 65535 ->
  exists out, frost_trusted_dealer_keygen rng vs threshold = Ok out /\
    length (tdk_participants out) = length vs /\
    (forall k p, tdk_participants out !! k = Some p ->
       vs !! k = Some (fp_verifier_id p) /\ identifier_at k = Ok (fp_identifier p)) /\
    (forall k v id, vs !! k = Some v -> identifier_at k = Ok id ->
       verifier_to_identifier (tdk_group_key out) v = Some id).
Proof.
  intros Hnd Ht Hn. unfold frost_trusted_dealer_keygen.
  destruct (Nat.ltb_spec (length vs) 2); [lia|]. destruct (Z.ltb_spec (uval threshold) 2); [lia|].
  destruct (Z.ltb_spec (Z.of_nat (length vs)) (uval threshold)); [lia|].
  rewrite size_list_to_set, Nat.eqb_refl by done. cbn [negb].
  destruct (dealer_identifiers_exist (u_of_Z 16 (Z.of_nat (length vs)))) as [ids Hids]. rewrite Hids.
  cbn [mbind result_bind]. apply dealer_identifiers_Ok in Hids as [Hlen Hat].
  rewrite uval_of_Z_small in Hlen by (change (2 ^ 16) with 65536; lia). rewrite Nat2Z.id in Hlen.
  destruct (dealer_ok (u_of_Z 16 (Z.of_nat (length vs))) (u_of_Z 16 (uval threshold)) ids rng) as (shares & pk & Hdeal).
  { rewrite !uval_of_Z_small by (change (2 ^ 16) with 65536; lia). lia. }
  { rewrite uval_of_Z_small by (change (2 ^ 16) with 65536; lia). lia. }
  { apply NoDup_alt. intros j k id Hj Hk. pose proof (lookup_lt_Some _ _ _ Hj). pose proof (lookup_lt_Some _ _ _ Hk).
    eapply (identifier_at_inj j k id); [lia|lia|by apply Hat..]. }
  rewrite Hdeal. cbn [map_err mbind result_bind].
  destruct (dealer_loop ids shares [] vs (∅, [])) as ([m ps] & Hloop & Hl & Hp & Hm).
  { done. } { cbn. lia. } { by eapply dealer_shares. } { by split_and!. }
  unfold enumerate. cbn [length] in Hloop. rewrite Hloop. cbn [mbind result_bind].
  eexists. split; [done|]. cbn [tdk_participants tdk_group_key verifier_to_identifier verifier_to_id fst snd app] in *.
  split_and!; [done| |].
  - intros k p Hk. destruct (Hp k p Hk) as [? ?]. split; [done|]. by apply Hat.
  - intros k v id Hk Hid. apply (Hm k); [done|]. pose proof (lookup_lt_Some _ _ _ Hk) as Hlt. rewrite <- Hlen in Hlt.
    apply lookup_lt_is_Some in Hlt as [id' Hid']. pose proof (Hat _ _ Hid'). congruence.
Qed.

(** The trusted dealer serves every valid group: for two to 65535 distinct
    verifiers and a threshold from two to their number, key generation succeeds
    and neither panics nor fails; there is one participant per verifier, in
    order, with the identifier of its position, and the group key maps every
    verifier to that identifier. *)
Theorem trusted_dealer_keygen_complete rng vs threshold :
  NoDup vs -> 2 <= uval threshold <= Z.of_nat (length vs) -> Z.of_nat (length vs) <= 65535 ->
  exists out, frost_trusted_dealer_keygen rng vs threshold = Ok out /\
    length (tdk_participants out) = length vs /\
    (forall k p, tdk_participants out !! k = Some p ->
       vs !! k = Some (fp_verifier_id p) /\ identifier_at k = Ok (fp_identifier p)) /\
    (forall k v id, vs !! k = Some v -> identifier_at k = Ok id ->
       verifier_to_identifier (tdk_group_key out) v = Some id).
Proof. apply dealer_keygen_completes. Qed.

(** Beyond 65535 verifiers the number of identifiers wraps around: with 65538
    of them and a threshold of two, the dealer deals two shares and the loop
    over the verifiers panics at the third. *)
Lemma dealer_keygen_wraps rng vs out :
  NoDup vs -> Z.of_nat (length vs) = 65538 ->
  frost_trusted_dealer_keygen rng vs (u_of_Z 64 2) <> Ok out.
Proof.
  intros Hnd Hn. unfold frost_trusted_dealer_keygen.
  destruct (Nat.ltb_spec (length vs) 2); [lia|]. change (uval (u_of_Z 64 2)) with 2. cbn [Z.ltb Z.compare Pos.compare Pos.compare_cont].
  rewrite Hn. change (65538 <? 2) with false. rewrite size_list_to_set, Nat.eqb_refl by done. cbn [negb].
  intros (ids & [Hlen _]%dealer_identifiers_Ok & Hok)%bind_Ok. change (Z.to_nat (uval (u_of_Z 16 65538))) with 2%nat in Hlen.
  apply bind_Ok in Hok as ([shares pk] & _ & (r & Hr & _)%bind_Ok).
  destruct vs as [|v1 [|v2 [|v3 vs]]]; try (cbn in Hn; lia). unfold enumerate in Hr.
  cbn [length seq zip zip_with try_fold] in Hr.
  apply bind_Ok in Hr as (a1 & _ & (a2 & _ & (a3 & H3 & _)%bind_Ok)%bind_Ok).
  unfold dealer_step in H3. rewrite lookup_ge_None_2 in H3 by lia. discriminate H3.
Qed.
End Keys.

(** ** Concrete instances *)

Definition toy_dealer_on (I : Type) `{Countable I} : FrostDealer (Fr:=toy_frost_on I).
Proof.
  refine {| SecretShare := array 32;
            generate_with_dealer max min ids rng :=
              if decide (2 <= uval min <= uval max /\ uval max = Z.of_nat (length ids) /\ NoDup ids)
              then Ok (list_to_map ((fun i => (i, array_repeat 32 (byte 0))) <$> ids),
                       array_repeat 32 (byte 0) : PublicKeyPackage (FrostEd25519:=toy_frost_on I))
              else Err "invalid number of signers";
            KeyPackage_try_from sh := Ok (sh : KeyPackage (FrostEd25519:=toy_frost_on I)) |}.
  - intros max min ids rng Hmin Hmax Hnd. rewrite decide_True by done. eauto.
  - intros max min ids rng shares pk. destruct (decide _) as [(_ & _ & Hnd)|]; [|done]. intros [= <- <-] i Hi.
    exists (array_repeat 32 (byte 0)), (array_repeat 32 (byte 0)). split; [|done].
    apply elem_of_list_to_map_1.
    + rewrite <- list_fmap_compose. change (NoDup ((fun i => i) <$> ids)). by rewrite list_fmap_id.
    + apply list_elem_of_fmap. eauto.
Defined.
Definition toy_dealer : FrostDealer (Fr:=toy_frost) := toy_dealer_on nat.

(** Participants identified by 32 bytes. *)
Definition toy_frost32 : FrostEd25519 := toy_frost_on (array 32).
Definition toy_identifier_bytes : IdentifierBytes (Fr:=toy_frost32).
Proof.
  refine {| Identifier_serialize := id : Identifier (FrostEd25519:=toy_frost32) -> array 32;
            Identifier_deserialize a := Ok (a : Identifier (FrostEd25519:=toy_frost32)) |}.
  done.
Defined.

#[export] Instance toy_group_export_eq_dec : EqDecision (GroupKeyExport (Fr:=toy_frost32)).
Proof. intros [p m] [q k]. destruct (decide (p = q :> array 32)), (decide (m = k)); [left|right|right|right]; congruence. Defined.
#[export] Instance toy_participant_export_eq_dec : EqDecision (ParticipantExport (Fr:=toy_frost32)).
Proof.
  intros [p a b] [q c d]. destruct (decide (p = q :> array 32)), (decide (a = c)), (decide (b = d));
    [left|right..]; congruence.
Defined.
#[export] Program Instance toy_group_export_countable : Countable (GroupKeyExport (Fr:=toy_frost32)) :=
  inj_countable' (fun e => (gke_pub_key_package e : array 32, gke_verifier_map e))
    (fun '(p, m) => MkGroupKeyExport (Fr:=toy_frost32) p m) _.
Next Obligation. by intros []. Qed.
#[export] Program Instance toy_participant_export_countable : Countable (ParticipantExport (Fr:=toy_frost32)) :=
  inj_countable' (fun e => (pe_key_package e : array 32, pe_identifier_hex e, pe_verifier_id_hex e))
    (fun '(p, a, b) => MkParticipantExport (Fr:=toy_frost32) p a b) _.
Next Obligation. by intros []. Qed.

Definition a32_id (z : Z) : Identifier (FrostEd25519:=toy_frost32) := array_repeat 32 (byte z).
Definition toy_group32 : FrostGroupKey (Fr:=toy_frost32) :=
  MkFrostGroupKey (Fr:=toy_frost32) (array_repeat 32 (byte 9)) {[ vid 1 := a32_id 1; vid 2 := a32_id 2 ]}.
Definition toy_participant32 : FrostParticipant (Fr:=toy_frost32) :=
  MkFrostParticipant (Fr:=toy_frost32) (array_repeat 32 (byte 9)) (a32_id 2) (vid 2).

Lemma key_material_roundtrip_witness :
  group_key_from_json_bytes (Ib:=toy_identifier_bytes) (Jg:=toy_json)
    (unwrap_or [] (group_key_to_json_bytes (Ib:=toy_identifier_bytes) (Jg:=toy_json) toy_group32)) = Ok toy_group32.
Proof.
  apply (key_material_roundtrip (Ib:=toy_identifier_bytes) (Jg:=toy_json) (Jp:=toy_json) toy_group32 toy_participant32
    (MkFrostThresholdApproval (digest 1) (array_repeat 64 (byte 2)) (array_repeat 32 (byte 3)))).
  apply is_ok_unwrap. reflexivity.
Defined.

Lemma trusted_dealer_keygen_complete_witness :
  exists out, frost_trusted_dealer_keygen (Dk:=toy_dkg) (De:=toy_dealer) (toy_rngs 1) toy_ids (n64 2) = Ok out /\
    length (tdk_participants out) = 3%nat.
Proof.
  destruct (trusted_dealer_keygen_complete (Dk:=toy_dkg) (De:=toy_dealer) (toy_rngs 1) toy_ids (n64 2))
    as (out & Hout & Hlen & _).
  - apply (bool_decide_unpack _). vm_compute. exact I.
  - vm_compute. split; discriminate.
  - vm_compute. discriminate.
  - exists out. exact (conj Hout Hlen).
Defined.
