(* ===== verification/Secp.v ===== *)
(** * Threshold signatures, key generation and DVRF over secp256k1

    Models [crypto/src/frost_secp256k1_adapter.rs] (participants, group keys,
    rounds, aggregation, the trusted dealer, JSON export),
    [crypto/src/dkg_secp256k1.rs] (the distributed key generation in one
    process), [crypto/src/dvrf_secp256k1.rs] (the DVRF) and the engine
    [Secp256k1DvrfEngine] of [crypto/src/randomness.rs].

    The ciphersuite is the external crate [frost-secp256k1-evm]: the class
    [FrostSecp256k1]. A [BTreeMap] is a finite map whose entries are enumerated
    in the order of the identifiers. *)

From S2P Require Import Prelude Core Session Attestation Threshold Randomness Registry Errors Frost Dkg.
From S2P Require Import DkgNode DkgCeremony FrostKeys.

(** The laws are those of the crate's contract: identifiers are the nonzero
    16-bit integers in their order; signing packages return their message;
    verifying keys of groups serialize, to 33 bytes, and signatures, to 65 bytes,
    if they serialize at all; aggregation only returns signatures that verify.
    Dealer and key generation are as in [FrostDealer] and [FrostDkg]. *)
Class FrostSecp256k1 := {
  SpIdentifier : Type;
  SpIdentifier_eq_dec :: EqDecision SpIdentifier;
  SpIdentifier_countable :: Countable SpIdentifier;
  sp_le : SpIdentifier -> SpIdentifier -> Prop;
  sp_le_dec :: RelDecision sp_le;
  sp_le_order :: TotalOrder sp_le;
  SpKeyPackage : Type;
  SpPublicKeyPackage : Type;
  SpSecretShare : Type;
  SpSigningNonces : Type;
  SpSigningCommitments : Type;
  SpSignatureShare : Type;
  SpSigningPackage : Type;
  SpVerifyingKey : Type;
  SpSignature : Type;
  SpRng : Type;
  SpR1Secret : Type;
  SpR1Package : Type;
  SpR2Secret : Type;
  SpR2Package : Type;
  sp_try_from : u16 -> result string SpIdentifier;
  sp_id_serialize : SpIdentifier -> bytes;
  sp_id_deserialize : bytes -> result string SpIdentifier;
  sp_key_identifier : SpKeyPackage -> SpIdentifier;
  sp_signing_share_bytes : SpKeyPackage -> bytes;
  sp_std_rng : array 32 -> SpRng;
  sp_commit : SpKeyPackage -> SpRng -> SpSigningNonces * SpSigningCommitments;
  sp_sign : SpSigningPackage -> SpSigningNonces -> SpKeyPackage -> result string SpSignatureShare;
  sp_aggregate : SpSigningPackage -> gmap SpIdentifier SpSignatureShare -> SpPublicKeyPackage -> result string SpSignature;
  sp_package_new : gmap SpIdentifier SpSigningCommitments -> bytes -> SpSigningPackage;
  sp_package_message : SpSigningPackage -> bytes;
  sp_group_vk : SpPublicKeyPackage -> SpVerifyingKey;
  sp_vk_serialize : SpVerifyingKey -> result string bytes;
  sp_vk_deserialize : bytes -> result string SpVerifyingKey;
  sp_sig_serialize : SpSignature -> result string bytes;
  sp_sig_deserialize : bytes -> result string SpSignature;
  sp_verify : SpVerifyingKey -> bytes -> SpSignature -> result string unit;
  sp_dealer : u16 -> u16 -> SpRng -> result string (gmap SpIdentifier SpSecretShare * SpPublicKeyPackage);
  sp_key_package_try_from : SpSecretShare -> result string SpKeyPackage;
  sp_part1 : SpIdentifier -> u16 -> u16 -> SpRng -> result string (SpR1Secret * SpR1Package);
  sp_part2 : SpR1Secret -> gmap SpIdentifier SpR1Package -> result string (SpR2Secret * gmap SpIdentifier SpR2Package);
  sp_part3 : SpR2Secret -> gmap SpIdentifier SpR1Package -> gmap SpIdentifier SpR2Package ->
    result string (SpKeyPackage * SpPublicKeyPackage);
  sp_dkg_public : gmap SpIdentifier SpR1Package -> SpPublicKeyPackage;
  sp_r1_to_vec : SpR1Package -> bytes;
  sp_r1_from_slice : bytes -> result string SpR1Package;
  sp_r2_to_vec : SpR2Package -> bytes;
  sp_r2_from_slice : bytes -> result string SpR2Package;
  sp_identifier_ok k : uval k <> 0 -> exists i, sp_try_from k = Ok i;
  sp_identifier_le j k i i' : sp_try_from j = Ok i -> sp_try_from k = Ok i' -> sp_le i i' <-> uval j <= uval k;
  sp_id_roundtrip i : sp_id_deserialize (sp_id_serialize i) = Ok i;
  sp_message_new cs m : sp_package_message (sp_package_new cs m) = m;
  sp_vk_serializes pk : exists b, sp_vk_serialize (sp_group_vk pk) = Ok b;
  sp_vk_roundtrip vk b : sp_vk_serialize vk = Ok b -> length b = 33%nat /\ sp_vk_deserialize b = Ok vk;
  sp_sig_roundtrip sig b : sp_sig_serialize sig = Ok b -> length b = 65%nat /\ sp_sig_deserialize b = Ok sig;
  sp_aggregate_verifies pkg shares pk sig :
    sp_aggregate pkg shares pk = Ok sig -> sp_verify (sp_group_vk pk) (sp_package_message pkg) sig = Ok tt;
  sp_r1_roundtrip p : sp_r1_from_slice (sp_r1_to_vec p) = Ok p;
  sp_r2_roundtrip p : sp_r2_from_slice (sp_r2_to_vec p) = Ok p;
  sp_part1_ok i max min rng : 2 <= uval min <= uval max -> exists s p, sp_part1 i max min rng = Ok (s, p);
  sp_part2_recipients s r1 s2 out : sp_part2 s r1 = Ok (s2, out) -> dom out = dom r1;
  sp_part2_ok i max min rng s p r1 :
    sp_part1 i max min rng = Ok (s, p) -> Z.of_nat (size r1) + 1 = uval max ->
    (forall j q, r1 !! j = Some q -> j <> i /\ exists rng' s', sp_part1 j max min rng' = Ok (s', q)) ->
    exists s2 out, sp_part2 s r1 = Ok (s2, out);
  sp_part3_ok i max min rng s p r1 s2 out r2 :
    sp_part1 i max min rng = Ok (s, p) -> sp_part2 s r1 = Ok (s2, out) -> dom r2 = dom r1 ->
    (forall j q, r2 !! j = Some q -> exists rng' s' p' r1' s2' out',
       sp_part1 j max min rng' = Ok (s', p') /\ r1 !! j = Some p' /\
       sp_part2 s' r1' = Ok (s2', out') /\ out' !! i = Some q) ->
    exists kp pk, sp_part3 s2 r1 r2 = Ok (kp, pk);
  sp_part3_output i max min rng s p r1 s2 out r2 kp pk :
    sp_part1 i max min rng = Ok (s, p) -> sp_part2 s r1 = Ok (s2, out) -> sp_part3 s2 r1 r2 = Ok (kp, pk) ->
    sp_key_identifier kp = i /\ pk = sp_dkg_public (<[i := p]> r1)
}.

(** ** The adapter (frost_secp256k1_adapter.rs) *)

Section Adapter.
Context {Hs : Sha256} {Sp : FrostSecp256k1}.

Record Secp256k1SigningNonces := MkSpNonces { sp_nonces_0 : SpSigningNonces }.
Record Secp256k1Commitment := MkSpCommitment { sc_identifier : SpIdentifier; sc_inner : SpSigningCommitments }.
Record Secp256k1SignatureShare := MkSpShare { ss_identifier : SpIdentifier; ss_inner : SpSignatureShare }.
Record Secp256k1SigningPackage := MkSpPackage { ssp_inner : SpSigningPackage }.
Record Secp256k1GroupKey := MkSecp256k1GroupKey {
  sg_pub_key_package : SpPublicKeyPackage;
  sg_verifier_to_id : gmap VerifierId SpIdentifier
}.
Record Secp256k1FrostParticipant := MkSecp256k1FrostParticipant {
  sp_key_package : SpKeyPackage;
  sp_verifier_id : VerifierId
}.
Record Secp256k1ThresholdApproval := MkSecp256k1ThresholdApproval {
  sa_aggregate_signature_bytes : array 65;
  sa_group_verifying_key_bytes : array 33
}.

Definition entry_le {A} (p q : SpIdentifier * A) : Prop := sp_le p.1 q.1.
#[export] Instance entry_le_dec A : RelDecision (entry_le (A:=A)).
Proof. intros p q. unfold entry_le. apply _. Defined.
(** A [BTreeMap]'s entries in order. *)
Definition btree_list {A} (m : gmap SpIdentifier A) : list (SpIdentifier * A) :=
  merge_sort entry_le (map_to_list m).

Definition secp_verifier_to_identifier (self : Secp256k1GroupKey) (v : VerifierId) : option SpIdentifier :=
  sg_verifier_to_id self !! v.

(** [serialize().unwrap_or_default()] copied into a zeroed array: [to_array]
    cuts and pads. *)
Definition secp_verifying_key_bytes (self : Secp256k1GroupKey) : array 33 :=
  to_array 33 (unwrap_or [] (sp_vk_serialize (sp_group_vk (sg_pub_key_package self)))).

Definition from_secret_share (secret_share : SpSecretShare) (v : VerifierId)
    : result CryptoError Secp256k1FrostParticipant :=
  kp ← map_err AggregationFailed (sp_key_package_try_from secret_share);
  Ok (MkSecp256k1FrostParticipant kp v).
Definition from_key_package (kp : SpKeyPackage) (v : VerifierId) : result CryptoError Secp256k1FrostParticipant :=
  Ok (MkSecp256k1FrostParticipant kp v).

Definition secp_round1 (self : Secp256k1FrostParticipant) (rng : SpRng)
    : result CryptoError (Secp256k1SigningNonces * Secp256k1Commitment) :=
  let '(nonces, commitments) := sp_commit (sp_key_package self) rng in
  let id := sp_key_identifier (sp_key_package self) in
  Ok (MkSpNonces nonces, MkSpCommitment id commitments).

Definition secp_round2 (self : Secp256k1FrostParticipant) (signing_package : Secp256k1SigningPackage)
    (nonces : Secp256k1SigningNonces) : result CryptoError Secp256k1SignatureShare :=
  share ← map_err AggregationFailed
    (sp_sign (ssp_inner signing_package) (sp_nonces_0 nonces) (sp_key_package self));
  Ok (MkSpShare (sp_key_identifier (sp_key_package self)) share).

Definition secp_dvrf_nonce_seed (self : Secp256k1FrostParticipant) (alpha : bytes) : array 32 :=
  let key_bytes := sp_signing_share_bytes (sp_key_package self) in
  sha256_digest (string_bytes "tls-attestation/dvrf-nonce-seed/secp256k1/v1" ++ [byte 0] ++
    u64_be (len64 key_bytes) ++ key_bytes ++ u64_be (len64 alpha) ++ alpha).

(** [round1] never fails, so its [expect] does not panic. *)
Definition secp_round1_dvrf (self : Secp256k1FrostParticipant) (alpha : bytes)
    : Secp256k1SigningNonces * Secp256k1Commitment :=
  let '(nonces, commitments) := sp_commit (sp_key_package self) (sp_std_rng (secp_dvrf_nonce_seed self alpha)) in
  (MkSpNonces nonces, MkSpCommitment (sp_key_identifier (sp_key_package self)) commitments).

Definition secp256k1_build_signing_package (commitments : list Secp256k1Commitment) (message : DigestBytes)
    : result CryptoError Secp256k1SigningPackage :=
  let commitment_map := foldl (fun m c => <[sc_identifier c := sc_inner c]> m) ∅ commitments in
  Ok (MkSpPackage (sp_package_new commitment_map (arr (as_bytes message)))).

Definition secp256k1_aggregate_signature_shares (signing_package : Secp256k1SigningPackage)
    (shares : list Secp256k1SignatureShare) (group_key : Secp256k1GroupKey)
    : result CryptoError Secp256k1ThresholdApproval :=
  let share_map := foldl (fun m s => <[ss_identifier s := ss_inner s]> m) ∅ shares in
  signature ← map_err AggregationFailed
    (sp_aggregate (ssp_inner signing_package) share_map (sg_pub_key_package group_key));
  sig_bytes ← map_err AggregationFailed (sp_sig_serialize signature);
  Ok {| sa_aggregate_signature_bytes := to_array 65 sig_bytes;
        sa_group_verifying_key_bytes := secp_verifying_key_bytes group_key |}.

Definition secp256k1_verify_approval (approval : Secp256k1ThresholdApproval) (message : DigestBytes)
    : result CryptoError unit :=
  vk ← map_err (fun e => InvalidKeyMaterial ("vk deserialize: " +:+ e))
         (sp_vk_deserialize (arr (sa_group_verifying_key_bytes approval)));
  sig ← map_err (fun e => InvalidKeyMaterial ("sig deserialize: " +:+ e))
          (sp_sig_deserialize (arr (sa_aggregate_signature_bytes approval)));
  map_err (fun e => SignatureVerificationFailed ("verify: " +:+ e)) (sp_verify vk (arr (as_bytes message)) sig).

(** *** The trusted dealer *)

Record Secp256k1KeygenOutput := MkSecp256k1KeygenOutput {
  sk_participants : list Secp256k1FrostParticipant;
  sk_group_key : Secp256k1GroupKey
}.

Definition secp256k1_trusted_dealer_keygen (rng : SpRng) (verifier_ids : list VerifierId) (threshold : usize)
    : result CryptoError Secp256k1KeygenOutput :=
  let n := length verifier_ids in
  if (n <? 2)%nat then Err (InvalidKeyMaterial "need at least 2 participants")
  else if (uval threshold <? 2) || (Z.of_nat n <? uval threshold) then
    Err (InvalidKeyMaterial ("threshold must be in [2, n=" +:+ pretty (Z.of_nat n) +:+ "]"))
  else
    dealt ← map_err AggregationFailed (sp_dealer (u_of_Z 16 (Z.of_nat n)) (u_of_Z 16 (uval threshold)) rng);
    let '(shares, public_key_package) := dealt in
    let id_order := (btree_list shares).*1 in
    verifier_to_id ← try_fold (fun m '(i, v) =>
        id ← ok_or (InvalidKeyMaterial "id count mismatch") (id_order !! i);
        Ok (<[v := id]> m)) ∅ (enumerate verifier_ids);
    participants ← try_map (fun '(share, v) => from_secret_share share v) (zip (btree_list shares).*2 verifier_ids);
    Ok {| sk_participants := participants; sk_group_key := MkSecp256k1GroupKey public_key_package verifier_to_id |}.

(** *** JSON export and import *)

Record SpGroupExport := MkSpGroupExport {
  sge_pub_key_package : SpPublicKeyPackage;
  sge_verifier_map : list (string * string)
}.
Record SpParticipantExport := MkSpParticipantExport {
  spe_key_package : SpKeyPackage;
  spe_verifier_id_hex : string
}.
Context {Jg : SerdeJson SpGroupExport} {Jp : SerdeJson SpParticipantExport}.

Definition secp_group_to_json_bytes (self : Secp256k1GroupKey) : result CryptoError bytes :=
  let verifier_map := (fun '(v, id) => (hex_encode (arr (as_bytes v)), hex_encode (sp_id_serialize id)))
                        <$> map_to_list (sg_verifier_to_id self) in
  map_err (fun e => InvalidKeyMaterial ("Secp256k1GroupKey serialize: " +:+ e))
    (json_to_vec (MkSpGroupExport (sg_pub_key_package self) verifier_map)).

Definition secp_group_from_json_bytes (bs : bytes) : result CryptoError Secp256k1GroupKey :=
  e ← map_err (fun e => InvalidKeyMaterial ("Secp256k1GroupKey deserialize: " +:+ e)) (json_from_slice bs);
  m ← try_fold (fun m '(vid_hex, id_hex) =>
    vid_arr ← decode_hex_array 32 (fun e => InvalidKeyMaterial ("vid hex: " +:+ e))
                (InvalidKeyMaterial "vid must be 32 bytes") vid_hex;
    id_bytes ← map_err (fun e => InvalidKeyMaterial ("id hex: " +:+ e)) (hex_decode id_hex);
    id ← map_err (fun e => InvalidKeyMaterial ("identifier: " +:+ e)) (sp_id_deserialize id_bytes);
    Ok (<[from_bytes vid_arr : VerifierId := id]> m)) ∅ (sge_verifier_map e);
  Ok (MkSecp256k1GroupKey (sge_pub_key_package e) m).

Definition secp_participant_to_json_bytes (self : Secp256k1FrostParticipant) : result CryptoError bytes :=
  map_err (fun e => InvalidKeyMaterial ("Secp256k1FrostParticipant serialize: " +:+ e))
    (json_to_vec (MkSpParticipantExport (sp_key_package self) (hex_encode (arr (as_bytes (sp_verifier_id self)))))).

Definition secp_participant_from_json_bytes (bs : bytes) : result CryptoError Secp256k1FrostParticipant :=
  e ← map_err (fun e => InvalidKeyMaterial ("Secp256k1FrostParticipant deserialize: " +:+ e)) (json_from_slice bs);
  vid_arr ← decode_hex_array 32 (fun e => InvalidKeyMaterial ("verifier_id hex: " +:+ e))
              (InvalidKeyMaterial "verifier_id must be 32 bytes") (spe_verifier_id_hex e);
  Ok (MkSecp256k1FrostParticipant (spe_key_package e) (from_bytes vid_arr)).
End Adapter.

(** ** Distributed key generation (dkg_secp256k1.rs) *)

Section SecpDkg.
Context {Sp : FrostSecp256k1}.

Record Secp256k1DkgRound1State := MkSpR1State { sp_r1s_0 : SpR1Secret }.
Record Secp256k1DkgRound2State := MkSpR2State { sp_r2s_0 : SpR2Secret }.
Record Secp256k1DkgRound1Package := MkSpR1Package { sp_r1p_0 : SpR1Package }.
Record Secp256k1DkgRound2Package := MkSpR2Package { sp_r2p_0 : SpR2Package }.
Record Secp256k1DkgParticipantOutput := MkSpDkgOutput {
  spo_participant : Secp256k1FrostParticipant;
  spo_group_key : Secp256k1GroupKey
}.

Definition sp_round1_to_bytes (self : Secp256k1DkgRound1Package) : bytes := sp_r1_to_vec (sp_r1p_0 self).
Definition sp_round1_from_bytes (bs : bytes) : result CryptoError Secp256k1DkgRound1Package :=
  map_err (fun e => InvalidKeyMaterial ("Secp256k1DkgRound1Package deserialization failed: " +:+ e))
    (MkSpR1Package <$> sp_r1_from_slice bs).
Definition sp_to_plaintext_bytes (self : Secp256k1DkgRound2Package) : bytes := sp_r2_to_vec (sp_r2p_0 self).
Definition sp_from_plaintext_bytes (bs : bytes) : result CryptoError Secp256k1DkgRound2Package :=
  map_err (fun e => InvalidKeyMaterial ("Secp256k1DkgRound2Package deserialization failed: " +:+ e))
    (MkSpR2Package <$> sp_r2_from_slice bs).

Definition secp256k1_dkg_part1 (rng : SpRng) (identifier : SpIdentifier) (max_signers min_signers : u16)
    : result CryptoError (Secp256k1DkgRound1State * Secp256k1DkgRound1Package) :=
  r ← map_err (fun e => InvalidKeyMaterial ("secp256k1 DKG part1 failed: " +:+ e))
        (sp_part1 identifier max_signers min_signers rng);
  let '(secret_pkg, round1_pkg) := r in
  Ok (MkSpR1State secret_pkg, MkSpR1Package round1_pkg).

Definition secp256k1_dkg_part2 (round1_state : Secp256k1DkgRound1State)
    (round1_packages : gmap SpIdentifier Secp256k1DkgRound1Package)
    : result CryptoError (Secp256k1DkgRound2State * gmap SpIdentifier Secp256k1DkgRound2Package) :=
  let inner_r1 : gmap SpIdentifier SpR1Package := sp_r1p_0 <$> round1_packages in
  r ← map_err (fun e => InvalidKeyMaterial ("secp256k1 DKG part2 failed: " +:+ e))
        (sp_part2 (sp_r1s_0 round1_state) inner_r1);
  let '(round2_secret, outbound) := r in
  Ok (MkSpR2State round2_secret, (MkSpR2Package <$> outbound : gmap SpIdentifier Secp256k1DkgRound2Package)).

(** The identifiers of all signers in order, matched with the verifiers in the
    order given. *)
Definition match_identifiers (identifiers : list SpIdentifier) (vids : list VerifierId)
    : gmap VerifierId SpIdentifier :=
  foldl (fun m '(i, v) => match identifiers !! i with Some id => <[v := id]> m | None => m end) ∅ (enumerate vids).

Definition secp256k1_dkg_part3 (my_verifier_id : VerifierId) (my_identifier : SpIdentifier)
    (round2_state : Secp256k1DkgRound2State) (round1_packages : gmap SpIdentifier Secp256k1DkgRound1Package)
    (round2_packages : gmap SpIdentifier Secp256k1DkgRound2Package) (all_verifier_ids_in_order : list VerifierId)
    : result CryptoError Secp256k1DkgParticipantOutput :=
  let inner_r1 : gmap SpIdentifier SpR1Package := sp_r1p_0 <$> round1_packages in
  let inner_r2 : gmap SpIdentifier SpR2Package := sp_r2p_0 <$> round2_packages in
  r ← map_err (fun e => InvalidKeyMaterial ("secp256k1 DKG part3 failed: " +:+ e))
        (sp_part3 (sp_r2s_0 round2_state) inner_r1 inner_r2);
  let '(key_package, pub_key_package) := r in
  let identifiers := merge_sort sp_le ((btree_list inner_r1).*1 ++ [my_identifier]) in
  let verifier_to_id := match_identifiers identifiers all_verifier_ids_in_order in
  participant ← from_key_package key_package my_verifier_id;
  Ok {| spo_participant := participant; spo_group_key := MkSecp256k1GroupKey pub_key_package verifier_to_id |}.

(** [round1_packages_map.iter().filter(|(id, _)| **id != my_id)] *)
Definition sp_others {A} (my_id : SpIdentifier) (m : gmap SpIdentifier A) : gmap SpIdentifier A :=
  filter (fun p => p.1 <> my_id) m.

(** The packages addressed to [my_id], from the senders other than number [i]. *)
Definition inbound (identifiers : list SpIdentifier) (i : nat) (my_id : SpIdentifier)
    (round2_outbound : list (gmap SpIdentifier Secp256k1DkgRound2Package))
    : result (failure CryptoError) (gmap SpIdentifier Secp256k1DkgRound2Package) :=
  try_fold (fun m '(j, outbound) =>
    if (j =? i)%nat then Ok m
    else
      sender_id ← ok_or (Panics "index out of bounds") (identifiers !! j);
      match outbound !! my_id with Some pkg => Ok (<[sender_id := pkg]> m) | None => Ok m end)
    ∅ (enumerate round2_outbound).

Definition run_secp256k1_dkg (rngs : nat -> SpRng) (verifier_ids : list VerifierId) (threshold : usize)
    : result (failure CryptoError) (list Secp256k1DkgParticipantOutput) :=
  let n := u_of_Z 16 (Z.of_nat (length verifier_ids)) in
  let t := u_of_Z 16 (uval threshold) in
  identifiers ← try_map (fun k => map_err (fun _ => Panics "valid identifier") (sp_try_from (u_of_Z 16 (Z.of_nat k))))
                  (seq 1 (Z.to_nat (uval n)));
  r1 ← try_map (fun '(i, id) => fails (secp256k1_dkg_part1 (rngs i) id n t)) (enumerate identifiers);
  let round1_packages_map := foldl (fun m '(id, sp) => <[id := sp.2]> m) ∅ (zip identifiers r1) in
  r2 ← try_map (fun '(i, state) =>
      my_id ← ok_or (Panics "index out of bounds") (identifiers !! i);
      fails (secp256k1_dkg_part2 state (sp_others my_id round1_packages_map))) (enumerate r1.*1);
  try_map (fun '(i, r2_state) =>
      my_id ← ok_or (Panics "index out of bounds") (identifiers !! i);
      my_vid ← ok_or (Panics "index out of bounds") (verifier_ids !! i);
      inbound_r2 ← inbound identifiers i my_id r2.*2;
      fails (secp256k1_dkg_part3 my_vid my_id r2_state (sp_others my_id round1_packages_map) inbound_r2 verifier_ids))
    (enumerate r2.*1).
End SecpDkg.

(** ** The DVRF (dvrf_secp256k1.rs) *)

Section SecpDvrf.
Context {Hs : Sha256} {Sp : FrostSecp256k1}.

Record Secp256k1DvrfInput := MkSecp256k1DvrfInput { sp_alpha : DigestBytes }.
Record Secp256k1PartialEval := MkSecp256k1PartialEval {
  spp_verifier_id : VerifierId;
  spp_commitment : Secp256k1Commitment;
  spp_nonces : Secp256k1SigningNonces
}.
Record Secp256k1DvrfProof := MkSecp256k1DvrfProof { sigma : array 65; sp_group_verifying_key : array 33 }.
Record Secp256k1DvrfOutput := MkSecp256k1DvrfOutput { sp_rand : DigestBytes; sp_proof : Secp256k1DvrfProof }.

Definition partial_eval (participant : Secp256k1FrostParticipant) (input : Secp256k1DvrfInput)
    : result CryptoError Secp256k1PartialEval :=
  let '(nonces, commitment) := secp_round1_dvrf participant (arr (as_bytes (sp_alpha input))) in
  Ok (MkSecp256k1PartialEval (sp_verifier_id participant) commitment nonces).

Definition round2_shares (participants : list Secp256k1FrostParticipant) (partial_evals : list Secp256k1PartialEval)
    (signing_package : Secp256k1SigningPackage) : result CryptoError (list Secp256k1SignatureShare) :=
  try_map (fun '(pe, p) => secp_round2 p signing_package (spp_nonces pe)) (zip partial_evals participants).

Definition sp_rand_hasher (sigma : array 65) : CanonicalHasher :=
  update_fixed sigma (CanonicalHasher_new "dvrf-output/secp256k1/v1").
Definition derive_rand (sigma : array 65) : DigestBytes := finalize (sp_rand_hasher sigma).

Definition dvrf_combine (group_key : Secp256k1GroupKey) (input : Secp256k1DvrfInput)
    (partial_evals : list Secp256k1PartialEval) (participants : list Secp256k1FrostParticipant)
    : result CryptoError Secp256k1DvrfOutput :=
  let commits := spp_commitment <$> partial_evals in
  pkg ← secp256k1_build_signing_package commits (sp_alpha input);
  shares ← round2_shares participants partial_evals pkg;
  approval ← secp256k1_aggregate_signature_shares pkg shares group_key;
  let sigma := sa_aggregate_signature_bytes approval in
  Ok {| sp_rand := derive_rand sigma;
        sp_proof := {| sigma := sigma; sp_group_verifying_key := sa_group_verifying_key_bytes approval |} |}.

Definition dvrf_verify_output (input : Secp256k1DvrfInput) (output : Secp256k1DvrfOutput) : result CryptoError unit :=
  let approval := {| sa_aggregate_signature_bytes := sigma (sp_proof output);
                     sa_group_verifying_key_bytes := sp_group_verifying_key (sp_proof output) |} in
  _ ← secp256k1_verify_approval approval (sp_alpha input);
  let expected_rand := derive_rand (sigma (sp_proof output)) in
  if negb (bool_decide (expected_rand = sp_rand output)) then
    Err (AggregationFailed "DVRF.Verify: rand mismatch — proof is invalid")
  else Ok tt.

(** *** The randomness engine (randomness.rs) *)

Record Secp256k1DvrfEngine := MkSecp256k1DvrfEngine {
  eng_threshold : usize;
  eng_participants : list Secp256k1FrostParticipant;
  eng_group_key : Secp256k1GroupKey
}.

Definition Secp256k1DvrfEngine_new (threshold : usize) (participants : list Secp256k1FrostParticipant)
    (group_key : Secp256k1GroupKey) : result CryptoError Secp256k1DvrfEngine :=
  if Z.of_nat (length participants) <? uval threshold then
    Err (InsufficientContributions (uval threshold) (Z.of_nat (length participants)))
  else Ok (MkSecp256k1DvrfEngine threshold participants group_key).

(** The contents of the key files are arguments, a failed read is an [Err]. *)
Definition Secp256k1DvrfEngine_from_files {Jg : SerdeJson SpGroupExport} {Jp : SerdeJson SpParticipantExport}
    (threshold : usize) (participant_files : list (result CryptoError bytes)) (group_key_file : result CryptoError bytes)
    : result CryptoError Secp256k1DvrfEngine :=
  participants ← try_map (fun f => bs ← f; secp_participant_from_json_bytes bs) participant_files;
  gk_bytes ← group_key_file;
  group_key ← secp_group_from_json_bytes gk_bytes;
  Secp256k1DvrfEngine_new threshold participants group_key.

Definition secp_engine_generate (self : Secp256k1DvrfEngine) (rid : RandomnessId) (sid : SessionId) (n : Nonce)
    (epoch : Epoch) (participants : list VerifierId) : result CryptoError RandomnessOutput :=
  let selected := take (Z.to_nat (uval (eng_threshold self)))
    (filter (fun p => contains participants (sp_verifier_id p) = true) (eng_participants self)) in
  if Z.of_nat (length selected) <? uval (eng_threshold self) then
    Err (InsufficientContributions (uval (eng_threshold self)) (Z.of_nat (length selected)))
  else
    let input := MkSecp256k1DvrfInput (derive_alpha sid n) in
    partial_evals ← try_map (fun p => partial_eval p input) selected;
    dvrf_out ← dvrf_combine (eng_group_key self) input partial_evals selected;
    Ok {| ro_id := rid; ro_session_id := sid; ro_epoch := epoch; ro_value := sp_rand dvrf_out;
          partials := []; ro_session_binding := finalize (session_binding_hasher sid n) |}.

Definition secp_engine (self : Secp256k1DvrfEngine) : RandomnessEngine :=
  {| generate := secp_engine_generate self; verify_randomness := secp256k1_verify |}.
End SecpDvrf.

(** ** Properties of signing and of the DVRF *)

Section SignProps.
Context {Hs : Sha256} {Sp : FrostSecp256k1}.

Lemma secp_vk_bytes gk :
  exists b, sp_vk_serialize (sp_group_vk (sg_pub_key_package gk)) = Ok b /\ arr (secp_verifying_key_bytes gk) = b /\
    sp_vk_deserialize b = Ok (sp_group_vk (sg_pub_key_package gk)).
Proof.
  destruct (sp_vk_serializes (sg_pub_key_package gk)) as [b Hb]. exists b.
  destruct (sp_vk_roundtrip _ _ Hb) as [Hlen Hd]. unfold secp_verifying_key_bytes. rewrite Hb. cbn [unwrap_or].
  by rewrite arr_to_array.
Qed.

Lemma secp_aggregate_Ok commits d pkg shares gk a :
  secp256k1_build_signing_package commits d = Ok pkg ->
  secp256k1_aggregate_signature_shares pkg shares gk = Ok a ->
  secp256k1_verify_approval a d = Ok tt /\ sa_group_verifying_key_bytes a = secp_verifying_key_bytes gk.
Proof.
  intros [= <-]. unfold secp256k1_aggregate_signature_shares.
  intros (sig & Hsig%map_err_Ok & (b & Hb%map_err_Ok & [= <-])%bind_Ok)%bind_Ok. split; [|done].
  destruct (sp_sig_roundtrip _ _ Hb) as [Hlen Hd]. destruct (secp_vk_bytes gk) as (vb & _ & Hvb & Hvd).
  unfold secp256k1_verify_approval. cbn [sa_aggregate_signature_bytes sa_group_verifying_key_bytes].
  rewrite Hvb, Hvd. cbn [map_err mbind result_bind]. rewrite arr_to_array, Hd by done. cbn [map_err mbind result_bind].
  pose proof (sp_aggregate_verifies _ _ _ _ Hsig) as Hver. cbn [ssp_inner] in Hver. rewrite sp_message_new in Hver.
  exact (f_equal (map_err _) Hver).
Qed.

Lemma dvrf_combine_Ok gk input pes ps out :
  dvrf_combine gk input pes ps = Ok out ->
  dvrf_verify_output input out = Ok tt /\ sp_group_verifying_key (sp_proof out) = secp_verifying_key_bytes gk /\
  sp_rand out = derive_rand (sigma (sp_proof out)).
Proof.
  unfold dvrf_combine. intros (pkg & Hpkg & Hok)%bind_Ok. apply bind_Ok in Hok as (shares & _ & Hok).
  apply bind_Ok in Hok as (a & Ha & [= <-]). destruct (secp_aggregate_Ok _ _ _ _ _ _ Hpkg Ha) as [Hver Hvk].
  split_and!; [|exact Hvk|done]. unfold dvrf_verify_output. cbn [sp_proof sigma sp_group_verifying_key sp_rand].
  replace (MkSecp256k1ThresholdApproval _ _) with a by by destruct a.
  rewrite Hver. cbn [mbind result_bind]. by rewrite bool_decide_eq_true_2.
Qed.

(** The secp256k1 DVRF is verifiable: whatever [combine] returns is accepted
    by [verify] for the same input, names the given group key, and its value is
    the hash of a 65-byte threshold signature over the input. The session
    randomness of the engine is such a value for the input derived from session
    and nonce, is only produced from [threshold] participants listed for the
    session, and passes the engine's own check. That check, however, accepts
    every other value for the session and nonce as well. *)
Theorem secp_randomness_verifiable gk input pes ps out :
  dvrf_combine gk input pes ps = Ok out ->
  (dvrf_verify_output input out = Ok tt /\ sp_group_verifying_key (sp_proof out) = secp_verifying_key_bytes gk /\
   sp_rand out = derive_rand (sigma (sp_proof out))) /\
  forall eng rid sid n epoch vs r,
    secp_engine_generate eng rid sid n epoch vs = Ok r ->
    (exists proof, dvrf_verify_output (MkSecp256k1DvrfInput (derive_alpha sid n))
                     (MkSecp256k1DvrfOutput (ro_value r) proof) = Ok tt) /\
    uval (eng_threshold eng) <= Z.of_nat (length (filter (fun p => contains vs (sp_verifier_id p) = true) (eng_participants eng))) /\
    secp256k1_verify r n = Ok tt /\
    forall value, secp256k1_verify {| ro_id := ro_id r; ro_session_id := ro_session_id r; ro_epoch := ro_epoch r;
      ro_value := value; partials := partials r; ro_session_binding := ro_session_binding r |} n = Ok tt.
Proof.
  intros Hcomb. split; [by apply (dvrf_combine_Ok _ _ _ _ _ Hcomb)|].
  intros eng rid sid n epoch vs r. unfold secp_engine_generate.
  set (listed := filter _ (eng_participants eng)). rewrite length_take.
  destruct (Z.ltb_spec (Z.of_nat (Z.to_nat (uval (eng_threshold eng)) `min` length listed)) (uval (eng_threshold eng)))
    as [|Hle]; [done|].
  intros (evals & _ & (o & Ho & [= <-])%bind_Ok)%bind_Ok. split_and!.
  - exists (sp_proof o). cbn [ro_value]. destruct (dvrf_combine_Ok _ _ _ _ _ Ho) as [Hver _].
    unfold dvrf_verify_output in *. done.
  - pose proof (uval_range (eng_threshold eng)). lia.
  - unfold secp256k1_verify. cbn [ro_session_binding ro_session_id]. by rewrite bool_decide_eq_true_2.
  - intros value. unfold secp256k1_verify. cbn [ro_session_binding ro_session_id]. by rewrite bool_decide_eq_true_2.
Qed.

(** The nonces of the DVRF do not depend on the other signers: in two
    evaluations of one input with different co-signers, hence two different
    signing packages, a participant signs with the same nonces. *)
Lemma dvrf_nonces_reused p input pe pkg1 pkg2 sh1 sh2 :
  partial_eval p input = Ok pe ->
  round2_shares [p] [pe] pkg1 = Ok sh1 -> round2_shares [p] [pe] pkg2 = Ok sh2 ->
  exists nonces s1 s2, sp_nonces_0 (spp_nonces pe) = nonces /\
    sp_sign (ssp_inner pkg1) nonces (sp_key_package p) = Ok s1 /\ sp_sign (ssp_inner pkg2) nonces (sp_key_package p) = Ok s2.
Proof.
  intros _ H1%try_map_Ok H2%try_map_Ok. inversion_clear H1 as [|? ? ? ? Hs1 _]. inversion_clear H2 as [|? ? ? ? Hs2 _].
  unfold secp_round2 in *. apply bind_Ok in Hs1 as (s1 & Hs1%map_err_Ok & _), Hs2 as (s2 & Hs2%map_err_Ok & _). eauto 10.
Qed.

Context {Jg : SerdeJson SpGroupExport} {Jp : SerdeJson SpParticipantExport}.

Lemma secp_group_roundtrip gk bs : secp_group_to_json_bytes gk = Ok bs -> secp_group_from_json_bytes bs = Ok gk.
Proof.
  intros Hbs%map_err_Ok%json_roundtrip. unfold secp_group_from_json_bytes. rewrite Hbs.
  cbn [map_err mbind result_bind sge_verifier_map sge_pub_key_package].
  assert (Hloop : forall l (m : gmap VerifierId SpIdentifier),
    try_fold (fun m '(vid_hex, id_hex) =>
      vid_arr ← decode_hex_array 32 (fun e => InvalidKeyMaterial ("vid hex: " +:+ e))
                  (InvalidKeyMaterial "vid must be 32 bytes") vid_hex;
      id_bytes ← map_err (fun e => InvalidKeyMaterial ("id hex: " +:+ e)) (hex_decode id_hex);
      id ← map_err (fun e => InvalidKeyMaterial ("identifier: " +:+ e)) (sp_id_deserialize id_bytes);
      Ok (<[from_bytes vid_arr : VerifierId := id]> m)) m
      ((fun '(v, id) => (hex_encode (arr (as_bytes (T:=VerifierId) v)), hex_encode (sp_id_serialize id))) <$> l)
    = Ok (foldl (fun m p => <[p.1 := p.2]> m) m l)).
  { induction l as [|[v id] l IH]; intros m; cbn [fmap list_fmap try_fold foldl]; [done|].
    rewrite decode_hex_array_encode. cbn [mbind result_bind]. rewrite hex_decode_encode. cbn [map_err mbind result_bind].
    rewrite sp_id_roundtrip. cbn [map_err mbind result_bind fst snd]. rewrite from_as_bytes. apply IH. }
  rewrite Hloop. cbn [mbind result_bind]. rewrite foldl_insert_map. by destruct gk.
Qed.

Lemma secp_participant_roundtrip p bs :
  secp_participant_to_json_bytes p = Ok bs -> secp_participant_from_json_bytes bs = Ok p.
Proof.
  intros Hbs%map_err_Ok%json_roundtrip. unfold secp_participant_from_json_bytes. rewrite Hbs.
  cbn [map_err mbind result_bind spe_verifier_id_hex spe_key_package]. rewrite decode_hex_array_encode.
  cbn [mbind result_bind]. rewrite from_as_bytes. by destruct p.
Qed.

(** An engine written to files and loaded again is the same engine. *)
Theorem secp_engine_files_roundtrip eng files gkf :
  uval (eng_threshold eng) <= Z.of_nat (length (eng_participants eng)) ->
  try_map secp_participant_to_json_bytes (eng_participants eng) = Ok files ->
  secp_group_to_json_bytes (eng_group_key eng) = Ok gkf ->
  Secp256k1DvrfEngine_from_files (eng_threshold eng) (Ok <$> files) (Ok gkf) = Ok eng.
Proof.
  intros Hn Hfiles%try_map_Ok Hgk. unfold Secp256k1DvrfEngine_from_files.
  assert (Hps : try_map (fun f : result CryptoError bytes => bs ← f; secp_participant_from_json_bytes bs) (Ok <$> files)
    = Ok (eng_participants eng)).
  { clear Hn. induction Hfiles as [|p f ps fs Hf _ IH]; [done|]. cbn [fmap list_fmap try_map mbind result_bind].
    rewrite (secp_participant_roundtrip _ _ Hf). cbn [mbind result_bind]. by rewrite IH. }
  rewrite Hps. cbn [mbind result_bind]. rewrite (secp_group_roundtrip _ _ Hgk). cbn [mbind result_bind].
  unfold Secp256k1DvrfEngine_new. destruct (Z.ltb_spec (Z.of_nat (length (eng_participants eng))) (uval (eng_threshold eng))); [lia|].
  by destruct eng.
Qed.
End SignProps.

(** ** Concrete instances *)

(** Identifiers are the naturals, a key package is the identifier of its owner,
    signing returns it, and the signature of a message is the message itself;
    key generation is that of [toy_dkg]. *)
Definition toy_secp : FrostSecp256k1.
Proof.
  refine {|
    SpIdentifier := nat; sp_le := le; SpKeyPackage := nat; SpPublicKeyPackage := array 32; SpSecretShare := nat;
    SpSigningNonces := bytes; SpSigningCommitments := bytes; SpSignatureShare := nat; SpSigningPackage := bytes;
    SpVerifyingKey := array 32; SpSignature := array 65; SpRng := bytes;
    SpR1Secret := toy_r1; SpR1Package := toy_r1; SpR2Secret := toy_r1; SpR2Package := nat * nat;
    sp_try_from k := if uval k =? 0 then Err "zero identifier" else Ok (Z.to_nat (uval k));
    sp_id_serialize i := toy_to_vec i; sp_id_deserialize := toy_from_slice;
    sp_key_identifier kp := kp; sp_signing_share_bytes kp := toy_to_vec kp; sp_std_rng seed := arr seed;
    sp_commit kp rng := (rng, toy_to_vec kp);
    sp_sign pkg nonces kp := Ok kp;
    sp_aggregate pkg shares pk := if (size shares =? 0)%nat then Err "no shares" else Ok (to_array 65 pkg);
    sp_package_new cs m := m; sp_package_message pkg := pkg;
    sp_group_vk pk := pk;
    sp_vk_serialize vk := Ok (byte 2 :: arr vk);
    sp_vk_deserialize l := match l with _ :: l => Ok (to_array 32 l) | [] => Err "empty" end;
    sp_sig_serialize sig := Ok (arr sig); sp_sig_deserialize l := Ok (to_array 65 l);
    sp_verify vk m sig := if bool_decide (sig = to_array 65 m) then Ok tt else Err "invalid signature";
    sp_dealer max min rng :=
      if (2 <=? uval min) && (uval min <=? uval max)
      then Ok (list_to_map ((fun i => (i, i)) <$> seq 1 (Z.to_nat (uval max))), array_repeat 32 (byte 0))
      else Err "invalid number of signers";
    sp_key_package_try_from sh := Ok sh;
    sp_part1 := frost_part1 (FrostDkg:=toy_dkg); sp_part2 := frost_part2 (FrostDkg:=toy_dkg);
    sp_part3 s r1 r2 := prod_map (fun _ => s.1.1.1) id <$> frost_part3 (FrostDkg:=toy_dkg) s r1 r2;
    sp_dkg_public := toy_dkg_public;
    sp_r1_to_vec := toy_to_vec; sp_r1_from_slice := toy_from_slice;
    sp_r2_to_vec := toy_to_vec; sp_r2_from_slice := toy_from_slice |}.
  - split; [split; [split; [exact Nat.le_refl | exact Nat.le_trans] | intros ? ? ? ?; lia]|].
    intros i j. destruct (Nat.lt_trichotomy i j) as [|[|]]; [left; split; lia | right; left; lia | right; right; split; lia].
  - intros k Hk%Z.eqb_neq. rewrite Hk. eauto.
  - intros j k i i'. destruct (uval j =? 0); [done|]. intros [= <-]. destruct (uval k =? 0); [done|]. intros [= <-].
    pose proof (uval_range j). pose proof (uval_range k). lia.
  - apply toy_serialize_roundtrip.
  - done.
  - eauto.
  - intros vk b [= <-]. cbn [length]. split; [by rewrite length_arr|]. f_equal. apply to_array_arr.
  - intros sig b [= <-]. split; [apply length_arr|]. f_equal. apply to_array_arr.
  - intros pkg shares pk sig. destruct (_ =? _)%nat; [done|]. intros [= <-]. by rewrite bool_decide_eq_true_2.
  - apply toy_serialize_roundtrip.
  - apply toy_serialize_roundtrip.
  - apply (part1_ok (FrostDkg:=toy_dkg)).
  - apply (part2_recipients (FrostDkg:=toy_dkg)).
  - apply (part2_ok (FrostDkg:=toy_dkg)).
  - intros i max min rng s p r1 s2 out r2 H1 H2 H3 H4.
    destruct (part3_ok (FrostDkg:=toy_dkg) i max min rng s p r1 s2 out r2 H1 H2 H3 H4) as (kp & pk & ->). by eexists _, _.
  - intros i max min rng s p r1 s2 out r2 kp pk H1 H2. cbn in H2.
    destruct (frost_part3 (FrostDkg:=toy_dkg) s2 r1 r2) as [[kp' pk']|e] eqn:H3; [|done]. intros [= <- <-].
    split; [|by apply (part3_public (FrostDkg:=toy_dkg) i max min rng s p r1 s2 out r2 kp' pk')].
    cbn in H1. destruct (_ && _) in H1; [|done]. injection H1 as <- _.
    destruct (decide _) in H2; [|done]. by injection H2 as <- _.
Defined.

Definition toy_sp_participant (k : nat) (z : Z) : Secp256k1FrostParticipant (Sp:=toy_secp) :=
  MkSecp256k1FrostParticipant (Sp:=toy_secp) k (vid z).
Definition toy_sp_group : Secp256k1GroupKey (Sp:=toy_secp) :=
  MkSecp256k1GroupKey (Sp:=toy_secp) (array_repeat 32 (byte 9)) {[ vid 1 := 1%nat; vid 2 := 2%nat ]}.
Definition toy_sp_input : Secp256k1DvrfInput := MkSecp256k1DvrfInput (digest 7).

Lemma secp_randomness_verifiable_witness :
  exists out, dvrf_verify_output (Hs:=toy_sha256) (Sp:=toy_secp) toy_sp_input out = Ok tt.
Proof.
  pose (p1 := toy_sp_participant 1 1). pose (p2 := toy_sp_participant 2 2).
  destruct (is_ok_exists (pe1 ← partial_eval (Hs:=toy_sha256) (Sp:=toy_secp) p1 toy_sp_input;
                pe2 ← partial_eval (Hs:=toy_sha256) (Sp:=toy_secp) p2 toy_sp_input;
                dvrf_combine (Hs:=toy_sha256) (Sp:=toy_secp) toy_sp_group toy_sp_input [pe1; pe2] [p1; p2])) as [out Hout].
  { vm_compute. reflexivity. }
  exists out. apply bind_Ok in Hout as (pe1 & _ & (pe2 & _ & Hout)%bind_Ok).
  exact (proj1 (proj1 (secp_randomness_verifiable (Hs:=toy_sha256) (Sp:=toy_secp) _ _ _ _ _ Hout))).
Defined.
