(* ===== verification/SecpDkg.v ===== *)
(** * Completion of the secp256k1 key generation

    [run_secp256k1_dkg] of [Secp] runs the key generation of all verifiers in
    one process. It completes for every admissible threshold; all participants
    obtain the same group key, which maps the verifier at every position to the
    identifier of that position. *)

From S2P Require Import Prelude Core Session Attestation Threshold Randomness Registry Errors Frost Dkg.
From S2P Require Import DkgNode DkgCeremony DkgHonest FrostKeys Secp.

Lemma try_map_exists {E A B} (f : A -> result E B) l :
  (forall k x, l !! k = Some x -> exists y, f x = Ok y) ->
  exists ys, try_map f l = Ok ys /\ length ys = length l /\
    forall k x y, l !! k = Some x -> ys !! k = Some y -> f x = Ok y.
Proof.
  intros Hall. induction l as [|x l IH]; [by exists []|].
  destruct (Hall 0%nat x eq_refl) as [y Hy]. destruct IH as (ys & Hys & Hlen & Hk); [intros k; apply (Hall (S k))|].
  exists (y :: ys). cbn [try_map]. rewrite Hy, Hys. cbn. split_and!; [done|lia|].
  intros [|k] x' y'; cbn; [congruence | apply Hk].
Qed.

Lemma lookup_enumerate_2 {A} (l : list A) k a : l !! k = Some a -> enumerate l !! k = Some (k, a).
Proof.
  intros Hk. unfold enumerate. apply lookup_zip_with_Some. exists k, a. split_and!; [done| |done].
  apply lookup_seq. split; [done|]. by eapply lookup_lt_Some.
Qed.

(** An indexed loop in which every step succeeds and preserves [P]. *)
Lemma try_fold_enumerate_ok {E A B} (P : nat -> B -> Prop) (f : B -> nat * A -> result E B) l b :
  (forall k x b, l !! k = Some x -> P k b -> exists b', f b (k, x) = Ok b' /\ P (S k) b') ->
  P 0%nat b -> exists b', try_fold f b (enumerate l) = Ok b' /\ P (length l) b'.
Proof.
  intros Hstep H0. assert (Hgen : forall s l' b, (forall k x, l' !! k = Some x -> l !! (s + k)%nat = Some x) -> P s b ->
    exists b', try_fold f b (zip (seq s (length l')) l') = Ok b' /\ P (s + length l')%nat b').
  { intros s l'. revert s. induction l' as [|x l' IH]; intros s b1 Hl HP; cbn.
    { exists b1. by rewrite Nat.add_0_r. }
    destruct (Hstep s x b1) as (b2 & -> & HP2); [rewrite <- (Nat.add_0_r s); by apply Hl|done|]. cbn.
    destruct (IH (S s) b2) as (b' & Hb' & HP'); [|done|].
    { intros k y Hk. rewrite Nat.add_succ_comm. by apply Hl. }
    exists b'. by rewrite <- Nat.add_succ_comm. }
  exact (Hgen 0%nat l b (fun _ _ H => H) H0).
Qed.

Section Complete.
Context {Sp : FrostSecp256k1}.

(** A key package that some participant of a key generation among [max] signers
    with threshold [min] obtained together with the public key [pk]. *)
Definition dkg_share (max min : u16) (pk : SpPublicKeyPackage) (kp : SpKeyPackage) : Prop :=
  exists i rng s p r1 s2 out r2, sp_part1 i max min rng = Ok (s, p) /\ sp_part2 s r1 = Ok (s2, out) /\
    sp_part3 s2 r1 r2 = Ok (kp, pk).

Variables (vids : list VerifierId) (threshold : usize) (rngs : nat -> SpRng).
Hypotheses (Ht : 2 <= uval threshold <= Z.of_nat (length vids)) (Hlen : Z.of_nat (length vids) <= 65535).

Local Notation n := (u_of_Z 16 (Z.of_nat (length vids))).
Local Notation t := (u_of_Z 16 (uval threshold)).

Lemma n_val : uval n = Z.of_nat (length vids).
Proof using Hlen. apply uval_of_Z_small. change (2 ^ 16) with 65536. lia. Qed.
Lemma t_val : uval t = uval threshold.
Proof using Ht Hlen. apply uval_of_Z_small. change (2 ^ 16) with 65536. lia. Qed.

(** The identifiers [1..n]. *)
Definition numbered (ids : list SpIdentifier) : Prop :=
  length ids = length vids /\
  forall k id, ids !! k = Some id -> sp_try_from (u_of_Z 16 (Z.of_nat (S k))) = Ok id.

Lemma identifiers_ok :
  exists ids, numbered ids /\
    try_map (fun k => map_err (fun _ => @Panics CryptoError "valid identifier") (sp_try_from (u_of_Z 16 (Z.of_nat k))))
      (seq 1 (Z.to_nat (uval n))) = Ok ids.
Proof using Hlen.
  rewrite n_val, Nat2Z.id.
  edestruct (try_map_exists (fun k => map_err (fun _ => @Panics CryptoError "valid identifier")
    (sp_try_from (u_of_Z 16 (Z.of_nat k)))) (seq 1 (length vids))) as (ids & Hids & Hl & Hk).
  { intros k x [-> Hlt]%lookup_seq. destruct (sp_identifier_ok (u_of_Z 16 (Z.of_nat (1 + k)))) as [id ->]; [|by eexists].
    rewrite uval_of_Z_small by (change (2 ^ 16) with 65536; lia). lia. }
  exists ids. split; [|done]. rewrite length_seq in Hl. split; [done|]. intros k id Hid.
  apply (map_err_Ok (fun _ => @Panics CryptoError "valid identifier")). apply (Hk k (S k)); [|done].
  apply lookup_seq. split; [done|]. rewrite <- Hl. by eapply lookup_lt_Some.
Qed.

Variables (ids : list SpIdentifier) (Hids : numbered ids).

Lemma numbered_le j k i i' : ids !! j = Some i -> ids !! k = Some i' -> sp_le i i' <-> (j <= k)%nat.
Proof using Hids Hlen.
  intros Hj Hk. destruct Hids as [Hl Hall]. pose proof (lookup_lt_Some _ _ _ Hj). pose proof (lookup_lt_Some _ _ _ Hk).
  rewrite (sp_identifier_le _ _ _ _ (Hall _ _ Hj) (Hall _ _ Hk)).
  rewrite !uval_of_Z_small by (change (2 ^ 16) with 65536; lia). lia.
Qed.

Lemma numbered_inj j k i : ids !! j = Some i -> ids !! k = Some i -> j = k.
Proof using Hids Hlen.
  intros Hj Hk. assert (sp_le i i) as Hle by reflexivity.
  pose proof (proj1 (numbered_le j k i i Hj Hk) Hle). pose proof (proj1 (numbered_le k j i i Hk Hj) Hle). lia.
Qed.

Lemma numbered_NoDup : NoDup ids.
Proof using Hids Hlen. apply NoDup_alt. intros j k i. apply numbered_inj. Qed.

Lemma numbered_sorted : StronglySorted sp_le ids.
Proof using Hids Hlen.
  assert (Hgen : forall l, (forall j k i i', (j <= k)%nat -> l !! j = Some i -> l !! k = Some i' -> sp_le i i') ->
    StronglySorted sp_le l).
  { clear. induction l as [|x l IH]; intros Hl; [constructor|]. constructor.
    - apply IH. intros j k i i' Hjk Hj Hk. apply (Hl (S j) (S k)); [lia|done..].
    - apply Forall_lookup. intros k i Hk. apply (Hl 0%nat (S k)); [lia|done..]. }
  apply Hgen. intros j k i i' Hjk Hj Hk. by apply (numbered_le j k).
Qed.

Lemma numbered_at k : (k < length vids)%nat -> exists i, ids !! k = Some i.
Proof using Hids. intros Hk. destruct Hids as [Hl _]. rewrite <- Hl in Hk. by apply lookup_lt_is_Some in Hk. Qed.

(** *** Round 1 *)

Definition round1_honest (r1 : list (Secp256k1DkgRound1State * Secp256k1DkgRound1Package)) : Prop :=
  length r1 = length vids /\
  forall k i s p, ids !! k = Some i -> r1 !! k = Some (MkSpR1State s, MkSpR1Package p) ->
    sp_part1 i n t (rngs k) = Ok (s, p).

Lemma round1_ok :
  exists r1, round1_honest r1 /\
    try_map (fun '(i, id) => fails (secp256k1_dkg_part1 (rngs i) id n t)) (enumerate ids) = Ok r1.
Proof using Hids Hlen Ht.
  edestruct (try_map_exists (fun '(i, id) => fails (secp256k1_dkg_part1 (rngs i) id n t)) (enumerate ids))
    as (r1 & Hr1 & Hl & Hk).
  { intros k x (i & -> & Hi)%lookup_enumerate. unfold secp256k1_dkg_part1.
    destruct (sp_part1_ok i n t (rngs k)) as (s & p & ->); [by rewrite n_val, t_val|]. by eexists. }
  exists r1. split; [|done]. rewrite length_enumerate in Hl. split; [by rewrite Hl; apply Hids|].
  intros k i s p Hi Hp. specialize (Hk k _ _ (lookup_enumerate_2 _ _ _ Hi) Hp). apply (proj1 (fails_Ok _ _)) in Hk.
  unfold secp256k1_dkg_part1 in Hk. apply bind_Ok in Hk as ([s' p'] & Hk%map_err_Ok & [= -> ->]). done.
Qed.

Variables (r1 : list (Secp256k1DkgRound1State * Secp256k1DkgRound1Package)) (Hr1 : round1_honest r1).

Definition packages1 : gmap SpIdentifier Secp256k1DkgRound1Package :=
  foldl (fun m '(id, sp) => <[id := sp.2]> m) ∅ (zip ids r1).

Lemma round1_at k i : ids !! k = Some i -> exists s p, r1 !! k = Some (MkSpR1State s, MkSpR1Package p).
Proof using Hids Hr1.
  intros Hi%lookup_lt_Some. destruct Hids as [Hl _], Hr1 as [Hl1 _]. rewrite Hl, <- Hl1 in Hi.
  apply lookup_lt_is_Some in Hi as [[[s] [p]] Hp]. eauto.
Qed.

Lemma packages1_eq : packages1 = list_to_map (zip ids r1.*2).
Proof using Hids Hlen Hr1.
  unfold packages1. assert (Hz : zip ids r1.*2 = prod_map id snd <$> zip ids r1).
  { clear. revert r1. induction ids as [|i l IH]; intros [|x r]; csimpl; [done..|]. by f_equal. }
  assert (Hnd : NoDup (zip ids r1.*2).*1).
  { rewrite fst_zip; [apply numbered_NoDup|]. rewrite length_fmap. destruct Hids as [-> _], Hr1 as [-> _]. done. }
  assert (Hfold : forall l (m : gmap SpIdentifier Secp256k1DkgRound1Package),
    foldl (fun m '(id, sp) => <[id := sp.2]> m) m l =
    foldl (fun m p => <[p.1 := p.2]> m) m ((prod_map id snd : SpIdentifier * (Secp256k1DkgRound1State * _) -> _) <$> l)).
  { clear. induction l as [|[i [s p]] l IH]; intros m; csimpl; [done|]. apply IH. }
  rewrite Hfold, <- Hz. apply map_eq. intros i. destruct (list_to_map (M:=gmap SpIdentifier _) (zip ids r1.*2) !! i) as [p|] eqn:Hi.
  - apply foldl_insert_elem; [done|]. by apply elem_of_list_to_map_2.
  - rewrite foldl_insert_lookup; [apply lookup_empty|]. by apply not_elem_of_list_to_map_2.
Qed.

Lemma packages1_lookup i p :
  packages1 !! i = Some (MkSpR1Package p) <->
  exists k s, ids !! k = Some i /\ r1 !! k = Some (MkSpR1State s, MkSpR1Package p).
Proof using Hids Hlen Hr1.
  rewrite packages1_eq. rewrite <- elem_of_list_to_map.
  - rewrite list_elem_of_lookup. split.
    + intros (k & (i' & p' & [= -> ->] & Hi & Hp)%lookup_zip_with_Some). rewrite list_lookup_fmap, fmap_Some in Hp.
      destruct Hp as ([[s] q] & Hp & ->). eauto.
    + intros (k & s & Hi & Hp). exists k. apply lookup_zip_with_Some. exists i, (MkSpR1Package p).
      split_and!; [done..|]. by rewrite list_lookup_fmap, Hp.
  - rewrite fst_zip; [apply numbered_NoDup|]. rewrite length_fmap. destruct Hids as [-> _], Hr1 as [-> _]. done.
Qed.

Lemma packages1_size : size packages1 = length vids.
Proof using Hids Hlen Hr1.
  rewrite packages1_eq, map_size_list_to_map.
  - rewrite length_zip, length_fmap. destruct Hids as [-> _], Hr1 as [-> _]. lia.
  - rewrite fst_zip; [apply numbered_NoDup|]. rewrite length_fmap. destruct Hids as [-> _], Hr1 as [-> _]. done.
Qed.

Lemma sp_others_delete {A} i (m : gmap SpIdentifier A) : sp_others i m = delete i m.
Proof.
  clear. apply map_eq. intros j. unfold sp_others. destruct (decide (j = i)) as [->|Hj].
  - rewrite lookup_delete_eq. apply map_lookup_filter_None. right. by intros ? _ [].
  - rewrite lookup_delete_ne by done. apply option_eq. intros x. rewrite map_lookup_filter_Some. naive_solver.
Qed.

(** The packages of the others, as the crate receives them. *)
Definition inner_others i : gmap SpIdentifier SpR1Package := sp_r1p_0 <$> sp_others i packages1.

Lemma inner_others_lookup i j p :
  inner_others i !! j = Some p <->
  j <> i /\ exists k s, ids !! k = Some j /\ r1 !! k = Some (MkSpR1State s, MkSpR1Package p).
Proof using Hids Hlen Hr1.
  unfold inner_others. rewrite sp_others_delete, lookup_fmap, fmap_Some. rewrite <- packages1_lookup. split.
  - intros ([q] & [Hj Hq]%lookup_delete_Some & ->). done.
  - intros [Hj Hp]. exists (MkSpR1Package p). by rewrite lookup_delete_ne.
Qed.

Lemma inner_others_size k i : ids !! k = Some i -> Z.of_nat (size (inner_others i)) + 1 = uval n.
Proof using Hids Hlen Hr1 Ht.
  intros Hi. unfold inner_others. rewrite map_size_fmap, sp_others_delete, map_size_delete_Some, packages1_size, n_val.
  - pose proof (lookup_lt_Some _ _ _ Hi). destruct Hids as [Hl _]. lia.
  - destruct (round1_at k i Hi) as (s & p & Hp). exists (MkSpR1Package p). apply packages1_lookup. eauto.
Qed.

Lemma inner_others_dom i j : is_Some (inner_others i !! j) <-> j <> i /\ exists k, ids !! k = Some j.
Proof using Hids Hlen Hr1.
  split.
  - intros [p (Hj & k & s & Hk & _)%inner_others_lookup]. eauto.
  - intros (Hj & k & Hk). destruct (round1_at k j Hk) as (s & p & Hp). exists p. apply inner_others_lookup. eauto.
Qed.

(** *** Round 2 *)

Definition round2_honest (r2 : list (Secp256k1DkgRound2State * gmap SpIdentifier Secp256k1DkgRound2Package)) : Prop :=
  length r2 = length vids /\
  forall k i s p s2 out, ids !! k = Some i -> r1 !! k = Some (MkSpR1State s, MkSpR1Package p) ->
    r2 !! k = Some (MkSpR2State s2, out) ->
    exists raw, sp_part2 s (inner_others i) = Ok (s2, raw) /\ out = (MkSpR2Package <$> raw : gmap _ _).

Definition part2_of '((i, state) : nat * Secp256k1DkgRound1State) :=
  my_id ← ok_or (@Panics CryptoError "index out of bounds") (ids !! i);
  fails (secp256k1_dkg_part2 state (sp_others my_id packages1)).

Lemma round2_ok : exists r2, round2_honest r2 /\ try_map part2_of (enumerate r1.*1) = Ok r2.
Proof using Hids Hlen Hr1 Ht.
  edestruct (try_map_exists part2_of (enumerate r1.*1)) as (r2 & Hr2 & Hl & Hk).
  { intros k x (st & -> & Hst)%lookup_enumerate. rewrite list_lookup_fmap, fmap_Some in Hst.
    destruct Hst as ([[s] [p]] & Hp & ->). cbn [part2_of fst].
    destruct (numbered_at k) as [i Hi]. { destruct Hr1 as [<- _]. by eapply lookup_lt_Some. }
    rewrite Hi. cbn [ok_or mbind result_bind]. unfold secp256k1_dkg_part2. cbn [sp_r1s_0].
    pose proof (proj2 Hr1 _ _ _ _ Hi Hp) as Hp1.
    destruct (sp_part2_ok i n t (rngs k) s p (inner_others i) Hp1 (inner_others_size k i Hi)) as (s2 & out & Ho).
    { intros j q (Hj & k' & s' & Hk' & Hq)%inner_others_lookup. split; [done|]. exists (rngs k'), s'. by apply (proj2 Hr1). }
    unfold inner_others in Ho. rewrite Ho. by eexists. }
  exists r2. split; [|done]. rewrite length_enumerate, length_fmap in Hl. split; [by rewrite Hl; apply Hr1|].
  intros k i s p s2 out Hi Hp Ho. assert (Hst : r1.*1 !! k = Some (MkSpR1State s)) by by rewrite list_lookup_fmap, Hp.
  specialize (Hk k _ _ (lookup_enumerate_2 _ _ _ Hst) Ho).
  cbn [part2_of] in Hk. rewrite Hi in Hk. cbn [ok_or mbind result_bind] in Hk. apply (proj1 (fails_Ok _ _)) in Hk.
  unfold secp256k1_dkg_part2 in Hk. apply bind_Ok in Hk as ([s2' raw] & Hk%map_err_Ok & [= -> <-]). by exists raw.
Qed.

Variables (r2 : list (Secp256k1DkgRound2State * gmap SpIdentifier Secp256k1DkgRound2Package)) (Hr2 : round2_honest r2).

Lemma round2_at k i : ids !! k = Some i -> exists s2 out, r2 !! k = Some (MkSpR2State s2, out).
Proof using Hids Hr2.
  intros Hi%lookup_lt_Some. destruct Hids as [Hl _], Hr2 as [Hl2 _]. rewrite Hl, <- Hl2 in Hi.
  apply lookup_lt_is_Some in Hi as [[[s2] out] Ho]. eauto.
Qed.

(** What number [j] sends to [i]. *)
Lemma round2_sent j idj k i s2 out :
  ids !! j = Some idj -> ids !! k = Some i -> j <> k -> r2 !! j = Some (MkSpR2State s2, out) ->
  exists q, out !! i = Some (MkSpR2Package q) /\ exists rng s p r1' raw,
    sp_part1 idj n t rng = Ok (s, p) /\ r1 !! j = Some (MkSpR1State s, MkSpR1Package p) /\
    sp_part2 s r1' = Ok (s2, raw) /\ raw !! i = Some q.
Proof using Hids Hlen Hr1 Hr2.
  intros Hj Hk Hjk Ho. destruct (round1_at j idj Hj) as (s & p & Hp).
  destruct (proj2 Hr2 _ _ _ _ _ _ Hj Hp Ho) as (raw & Hraw & ->). pose proof (sp_part2_recipients _ _ _ _ Hraw) as Hdom.
  assert (is_Some (raw !! i)) as [q Hq].
  { rewrite <- elem_of_dom, Hdom, elem_of_dom, inner_others_dom. split; [|eauto]. intros ->. by apply Hjk, (numbered_inj j k idj). }
  exists q. rewrite lookup_fmap, Hq. split; [done|]. exists (rngs j), s, p, (inner_others idj), raw.
  split_and!; [by apply (proj2 Hr1)|done..].
Qed.

(** *** Round 3 *)

(** Number [k] receives exactly what the others sent to it. *)
Lemma inbound_ok k i :
  ids !! k = Some i ->
  exists m, inbound ids k i r2.*2 = Ok m /\
    (forall j idj s2 out, ids !! j = Some idj -> r2 !! j = Some (MkSpR2State s2, out) ->
      m !! idj = if decide (j = k) then None else out !! i) /\
    forall idj, is_Some (m !! idj) -> idj ∈ ids.
Proof using Hids Hlen Hr2.
  intros Hi. unfold inbound. match goal with |- context [try_fold ?f _ _] => set (step := f) end.
  destruct (try_fold_enumerate_ok (fun x (m : gmap SpIdentifier Secp256k1DkgRound2Package) =>
      (forall j idj s2 out, ids !! j = Some idj -> r2 !! j = Some (MkSpR2State s2, out) ->
         m !! idj = if decide (j < x)%nat then if decide (j = k) then None else out !! i else None) /\
      forall idj, is_Some (m !! idj) -> idj ∈ ids)
    step r2.*2 ∅)
    as (m & Hm & Hlook & Hdom).
  - intros x out0 m Hx [Hlook Hdom]. rewrite list_lookup_fmap, fmap_Some in Hx. destruct Hx as ([[s0] o] & Hx & ->). unfold step. cbn [snd].
    destruct (numbered_at x) as [idx Hidx]. { destruct Hr2 as [<- _]. by eapply lookup_lt_Some. }
    assert (Hstep : forall j, (j < S x)%nat <-> (j < x)%nat \/ j = x) by (clear; lia).
    assert (Hother : forall j idj, ids !! j = Some idj -> j <> x -> idj <> idx).
    { intros j idj Hj Hjx ->. by apply Hjx, (numbered_inj j x idx). }
    destruct (Nat.eqb_spec x k) as [->|Hxk]; [|rewrite Hidx; cbn [ok_or mbind result_bind]; destruct (o !! i) as [pkg|] eqn:Hoi].
    + exists m. split_and!; [done| |done]. intros j idj s2 out Hj Ho. rewrite (Hlook j idj s2 out Hj Ho).
      repeat case_decide; try done; exfalso; lia.
    + eexists. split_and!; [done| |].
      * intros j idj s2 out Hj Ho. destruct (decide (j = x)) as [->|Hjx].
        { rewrite Hidx in Hj. injection Hj as <-. rewrite lookup_insert_eq, decide_True, decide_False by (done || lia).
          rewrite Hx in Ho. injection Ho as _ <-. done. }
        rewrite lookup_insert_ne by (symmetry; by eapply Hother). rewrite (Hlook j idj s2 out Hj Ho).
        repeat case_decide; try done; exfalso; lia.
      * intros idj. destruct (decide (idj = idx)) as [->|Hne]; [intros _; by eapply list_elem_of_lookup_2|].
        rewrite lookup_insert_ne by done. apply Hdom.
    + exists m. split_and!; [done| |done]. intros j idj s2 out Hj Ho. rewrite (Hlook j idj s2 out Hj Ho).
      destruct (decide (j = x)) as [->|Hjx]; [|repeat case_decide; try done; exfalso; lia].
      rewrite Hx in Ho. injection Ho as _ <-. rewrite Hoi. by repeat case_decide.
  - split; [intros j idj s2 out _ _; rewrite lookup_empty; by rewrite decide_False by lia
           | intros idj; rewrite lookup_empty; by intros []].
  - exists m. split_and!; [exact Hm| |done]. intros j idj s2 out Hj Ho. rewrite (Hlook j idj s2 out Hj Ho).
    rewrite decide_True; [done|]. rewrite length_fmap. by eapply lookup_lt_Some.
Qed.

(** The identifiers are found again in order. *)
Lemma identifiers_recovered k i :
  ids !! k = Some i -> merge_sort sp_le ((btree_list (inner_others i)).*1 ++ [i]) = ids.
Proof using Hids Hlen Hr1.
  intros Hi. apply (StronglySorted_unique sp_le).
  - apply StronglySorted_merge_sort; apply _.
  - apply numbered_sorted.
  - rewrite merge_sort_Permutation. unfold btree_list. rewrite merge_sort_Permutation.
    apply NoDup_Permutation; [|apply numbered_NoDup|].
    + apply NoDup_app. split_and!; [apply NoDup_fst_map_to_list| |apply NoDup_singleton].
      intros j Hj ->%list_elem_of_singleton. apply list_elem_of_fmap in Hj as ([j p] & -> & Hj%elem_of_map_to_list).
      by apply inner_others_lookup in Hj as [[] _].
    + intros j. rewrite elem_of_app, list_elem_of_singleton, list_elem_of_fmap. split.
      * intros [([j' p] & -> & Hj%elem_of_map_to_list)| ->]; [|by eapply list_elem_of_lookup_2].
        apply inner_others_lookup in Hj as (_ & k' & s & Hk' & _). by eapply list_elem_of_lookup_2.
      * intros [k' Hk']%list_elem_of_lookup. destruct (decide (j = i)) as [->|Hj]; [by right|left].
        destruct (proj2 (inner_others_dom i j)) as [p Hp]; [eauto|]. exists (j, p). by rewrite elem_of_map_to_list.
Qed.

Lemma match_identifiers_lookup k v i :
  NoDup vids -> vids !! k = Some v -> ids !! k = Some i -> match_identifiers ids vids !! v = Some i.
Proof using Hids.
  intros Hnd Hv Hi. unfold match_identifiers.
  assert (Hgen : forall l s (m : gmap VerifierId SpIdentifier), NoDup l ->
    let m' := foldl (fun m '(i, v) => match ids !! i with Some id => <[v := id]> m | None => m end) m (zip (seq s (length l)) l) in
    (forall v, v ∉ l -> m' !! v = m !! v) /\
    forall k v i, l !! k = Some v -> ids !! (s + k)%nat = Some i -> m' !! v = Some i).
  { clear. induction l as [|w l IH]; intros s m Hnd; cbn; [done|]. apply NoDup_cons in Hnd as [Hw Hnd].
    set (m1 := match ids !! s with Some id => <[w:=id]> m | None => m end).
    destruct (IH (S s) m1 Hnd) as [Hout Hin]. split.
    - intros v [Hvw Hv]%not_elem_of_cons. rewrite Hout by done. unfold m1. destruct (ids !! s); [|done].
      by rewrite lookup_insert_ne.
    - intros [|k] v i; cbn.
      + intros [= <-] Hi. rewrite Nat.add_0_r in Hi. rewrite Hout by done. unfold m1. rewrite Hi. apply lookup_insert_eq.
      + intros Hk Hi. apply (Hin k); [done|]. by rewrite Nat.add_succ_comm. }
  exact (proj2 (Hgen vids 0%nat ∅ Hnd) k v i Hv Hi).
Qed.

Definition group_public : SpPublicKeyPackage := sp_dkg_public (sp_r1p_0 <$> packages1).

Definition part3_of '((i, r2_state) : nat * Secp256k1DkgRound2State) :=
  my_id ← ok_or (@Panics CryptoError "index out of bounds") (ids !! i);
  my_vid ← ok_or (Panics "index out of bounds") (vids !! i);
  inbound_r2 ← inbound ids i my_id r2.*2;
  fails (secp256k1_dkg_part3 my_vid my_id r2_state (sp_others my_id packages1) inbound_r2 vids).

Lemma round3_at k i v s2 out :
  ids !! k = Some i -> vids !! k = Some v -> r2 !! k = Some (MkSpR2State s2, out) ->
  exists kp, sp_key_identifier kp = i /\ dkg_share n t group_public kp /\
    part3_of (k, MkSpR2State s2) = Ok (MkSpDkgOutput (MkSecp256k1FrostParticipant kp v)
      (MkSecp256k1GroupKey group_public (match_identifiers ids vids))).
Proof using Hids Hlen Hr1 Hr2.
  intros Hi Hv Ho. destruct (round1_at k i Hi) as (s & p & Hp). pose proof (proj2 Hr1 _ _ _ _ Hi Hp) as Hp1.
  destruct (proj2 Hr2 _ _ _ _ _ _ Hi Hp Ho) as (raw & Hraw & _).
  destruct (inbound_ok k i Hi) as (m & Hm & Hlook & Hdomm). unfold part3_of. rewrite Hi, Hv. cbn [ok_or mbind result_bind].
  rewrite Hm. cbn [mbind result_bind]. unfold secp256k1_dkg_part3. cbn [sp_r2s_0]. fold (inner_others i).
  assert (Hsent : forall j idj, ids !! j = Some idj -> j <> k -> exists q, m !! idj = Some (MkSpR2Package q) /\
    exists rng s p r1' s2 raw, sp_part1 idj n t rng = Ok (s, p) /\ inner_others i !! idj = Some p /\
    sp_part2 s r1' = Ok (s2, raw) /\ raw !! i = Some q).
  { intros j idj Hj Hjk. destruct (round2_at j idj Hj) as (s2j & outj & Hoj).
    destruct (round2_sent j idj k i s2j outj Hj Hi Hjk Hoj) as (q & Hq & rng & sj & pj & r1' & raw' & H1 & Hr & H2 & Hqi).
    exists q. rewrite (Hlook j idj s2j outj Hj Hoj), decide_False by done. split; [done|].
    exists rng, sj, pj, r1', s2j, raw'. split_and!; [done| |done..]. apply inner_others_lookup. split; [|eauto].
    intros ->. by apply Hjk, (numbered_inj j k i). }
  destruct (sp_part3_ok i n t (rngs k) s p (inner_others i) s2 raw (sp_r2p_0 <$> m)) as (kp & pk & Hp3); [done|done| | |].
  - apply set_eq. intros idj. rewrite dom_fmap, !elem_of_dom, inner_others_dom. split.
    + intros Hs. pose proof (Hdomm idj Hs) as [j Hj]%list_elem_of_lookup. split; [|eauto]. intros ->.
      assert (j = k) as -> by by eapply numbered_inj. rewrite (Hlook k i s2 out Hi Ho), decide_True in Hs by done. by destruct Hs.
    + intros (Hne & j & Hj). destruct (Hsent j idj Hj) as (q & Hq & _); [|by rewrite Hq]. intros ->. by apply Hne; simplify_eq.
  - intros idj q. rewrite lookup_fmap, fmap_Some. intros ([q'] & Hq & ->). cbn [sp_r2p_0].
    assert (Hin : idj ∈ ids) by (apply Hdomm; by rewrite Hq). apply list_elem_of_lookup in Hin as [j Hj]. destruct (decide (j = k)) as [->|Hjk].
    { simplify_eq. rewrite (Hlook k i s2 out Hi Ho), decide_True in Hq by done. done. }
    destruct (Hsent j idj Hj Hjk) as (q & Hq2 & rng & sj & pj & r1' & s2j & raw' & Hrest). rewrite Hq in Hq2. injection Hq2 as ->.
    by exists rng, sj, pj, r1', s2j, raw'.
  - destruct (sp_part3_output _ _ _ _ _ _ _ _ _ _ _ _ Hp1 Hraw Hp3) as [Hkp Hpk].
    assert (Hall : <[i:=p]> (inner_others i) = sp_r1p_0 <$> packages1).
    { unfold inner_others. rewrite sp_others_delete, fmap_delete, insert_delete_eq. apply insert_id.
      rewrite lookup_fmap, (proj2 (packages1_lookup i p)); [done|eauto]. }
    rewrite Hall in Hpk. fold group_public in Hpk. subst pk. exists kp. split_and!; [done|by repeat eexists|].
    rewrite Hp3. cbn [map_err mbind result_bind from_key_package]. by rewrite (identifiers_recovered k i Hi).
Qed.
End Complete.

Section Main.
Context {Sp : FrostSecp256k1}.

Lemma run_completes vids threshold rngs :
  2 <= uval threshold <= Z.of_nat (length vids) -> Z.of_nat (length vids) <= 65535 ->
  exists outs gk, run_secp256k1_dkg rngs vids threshold = Ok outs /\ length outs = length vids /\
    (forall k o v, outs !! k = Some o -> vids !! k = Some v ->
       spo_group_key o = gk /\ sp_verifier_id (spo_participant o) = v /\
       dkg_share (u_of_Z 16 (Z.of_nat (length vids))) (u_of_Z 16 (uval threshold)) (sg_pub_key_package gk)
         (sp_key_package (spo_participant o)) /\
       sp_try_from (u_of_Z 16 (Z.of_nat k + 1)) = Ok (sp_key_identifier (sp_key_package (spo_participant o)))) /\
    (NoDup vids -> forall k o v, outs !! k = Some o -> vids !! k = Some v ->
       secp_verifier_to_identifier gk v = Some (sp_key_identifier (sp_key_package (spo_participant o)))).
Proof.
  intros Ht Hlen. destruct (identifiers_ok vids Hlen) as (ids & Hids & Hrun0).
  destruct (round1_ok vids threshold rngs Ht Hlen ids Hids) as (r1 & Hr1 & Hrun1).
  destruct (round2_ok vids threshold rngs Ht Hlen ids Hids r1 Hr1) as (r2 & Hr2 & Hrun2).
  assert (Hat : forall k, (k < length vids)%nat -> exists i v s2 out, ids !! k = Some i /\ vids !! k = Some v /\
    r2 !! k = Some (MkSpR2State s2, out)).
  { intros k Hk. destruct (numbered_at vids ids Hids k Hk) as [i Hi].
    destruct (round2_at vids ids Hids r1 r2 Hr2 k i Hi) as (s2 & out & Ho).
    apply lookup_lt_is_Some in Hk as [v Hv]. eauto 10. }
  pose (gk := MkSecp256k1GroupKey (group_public ids r1) (match_identifiers ids vids)).
  edestruct (try_map_exists (part3_of vids ids r1 r2) (enumerate r2.*1)) as (outs & Hrun3 & Hlo & Houts).
  { intros k x (st & -> & Hst)%lookup_enumerate. assert (Hk : (k < length vids)%nat).
    { apply lookup_lt_Some in Hst. rewrite length_fmap in Hst. by destruct Hr2 as [<- _]. }
    destruct (Hat k Hk) as (i & v & s2 & out & Hi & Hv & Ho). rewrite list_lookup_fmap, Ho in Hst. injection Hst as <-.
    edestruct (round3_at vids threshold rngs) as (kp & _ & _ & H3); [done..|]. eauto. }
  rewrite length_enumerate, length_fmap, (proj1 Hr2) in Hlo.
  assert (Hout : forall k o, outs !! k = Some o -> exists i v kp, ids !! k = Some i /\ vids !! k = Some v /\
    sp_key_identifier kp = i /\ dkg_share (u_of_Z 16 (Z.of_nat (length vids))) (u_of_Z 16 (uval threshold)) (group_public ids r1) kp /\
    o = MkSpDkgOutput (MkSecp256k1FrostParticipant kp v) gk).
  { intros k o Ho. destruct (Hat k) as (i & v & s2 & out & Hi & Hv & Hr); [rewrite <- Hlo; by eapply lookup_lt_Some|].
    edestruct (round3_at vids threshold rngs Hlen ids Hids r1 Hr1 r2 Hr2 k i v s2 out) as (kp & Hkp & Hsh & H3); [done..|].
    exists i, v, kp. split_and!; [done..|]. assert (Hst : r2.*1 !! k = Some (MkSpR2State s2)) by by rewrite list_lookup_fmap, Hr.
    specialize (Houts _ _ _ (lookup_enumerate_2 _ _ _ Hst) Ho). rewrite H3 in Houts. by injection Houts as <-. }
  exists outs, gk. split_and!; [|done| |].
  - unfold run_secp256k1_dkg. rewrite Hrun0. cbn [mbind result_bind]. rewrite Hrun1. cbn [mbind result_bind].
    etrans; [|exact Hrun3]. unfold part2_of, packages1 in Hrun2. rewrite Hrun2. done.
  - intros k o v Ho Hv. destruct (Hout k o Ho) as (i & v' & kp & Hi & Hv' & Hkp & Hsh & ->). simplify_eq. cbn.
    split_and!; [done..|]. rewrite Z.add_1_r, <- Nat2Z.inj_succ. by apply Hids.
  - intros Hnd k o v Ho Hv. destruct (Hout k o Ho) as (i & v' & kp & Hi & Hv' & Hkp & Hsh & ->). simplify_eq. cbn.
    by eapply match_identifiers_lookup.
Qed.

(** The secp256k1 key generation completes for every threshold between two
    and the number of verifiers, of which there are at most 65535: no step
    fails or panics; every verifier obtains a participant in its position, with
    the identifier of that position; all hold one group key, and, if the
    verifiers are distinct, that key maps each to its participant's identifier,
    although every participant reconstructs the numbering on its own from the
    order of the identifiers. *)
Theorem secp_dkg_completes vids threshold rngs :
  2 <= uval threshold <= Z.of_nat (length vids) -> Z.of_nat (length vids) <= 65535 ->
  exists outs gk, run_secp256k1_dkg rngs vids threshold = Ok outs /\ length outs = length vids /\
    (forall k o v, outs !! k = Some o -> vids !! k = Some v ->
       spo_group_key o = gk /\ sp_verifier_id (spo_participant o) = v /\
       sp_try_from (u_of_Z 16 (Z.of_nat k + 1)) = Ok (sp_key_identifier (sp_key_package (spo_participant o)))) /\
    (NoDup vids -> forall k o v, outs !! k = Some o -> vids !! k = Some v ->
       secp_verifier_to_identifier gk v = Some (sp_key_identifier (sp_key_package (spo_participant o)))).
Proof.
  intros Ht Hlen. destruct (run_completes vids threshold rngs Ht Hlen) as (outs & gk & Hrun & Hl & Hout & Hids).
  exists outs, gk. split_and!; try done. intros k o v Ho Hv. by destruct (Hout k o v Ho Hv) as (? & ? & _ & ?).
Qed.
End Main.

Lemma secp_dkg_completes_witness :
  exists outs, run_secp256k1_dkg (Sp:=toy_secp) (fun k => [byte (Z.of_nat k)]) [vid 1; vid 2; vid 3] (u_of_Z 64 2) = Ok outs /\
    length outs = 3%nat.
Proof.
  destruct (secp_dkg_completes (Sp:=toy_secp) [vid 1; vid 2; vid 3] (u_of_Z 64 2) (fun k => [byte (Z.of_nat k)]))
    as (outs & gk & Hrun & Hlen & _).
  - vm_compute. split; discriminate.
  - vm_compute. discriminate.
  - exists outs. split; [exact Hrun | exact Hlen].
Defined.
