(* ===== verification/Coordinator.v ===== *)
(** * The coordinator

    Models [node/src/coordinator.rs] and the in-process part of
    [node/src/transport.rs]: preparation of a session, attestation with partial
    signatures, with in-process FROST and with distributed FROST over a
    transport. The session store is any implementation of the interface
    [SessionStore], the randomness and attestation engines any instances of
    theirs.

    The auxiliary nodes are shared objects: a transport is a reference, and
    calls through it change a state that is threaded through the run. What the
    code reads from clock and generators is the argument [Fresh]. The sum
    [now + ttl] is taken modulo 2^64, as in a release build. *)

From S2P Require Import Prelude Core Session Storage Attestation Threshold Randomness Registry Dctls Network Errors.
From S2P Require Import Sha256Gadget HmacGadget CoSnark Frost FrostAux.

(** ** Messages and configuration *)

Record AttestationRequest := MkAttestationRequest {
  rq_prover_id : ProverId;
  rq_client_nonce : Nonce;
  rq_statement_tag : string;
  rq_query : bytes;
  rq_requested_ttl_secs : u64
}.

Inductive AttestationResponse :=
  | Success (envelope : AttestationEnvelope)
  | Failure (sid : SessionId) (reason : string).

(** What one run reads from clock and random generators. *)
Record Fresh := MkFresh {
  fresh_now : UnixTimestamp;
  fresh_session_id : SessionId;
  fresh_nonce : Nonce;
  fresh_randomness_id : RandomnessId
}.

Record PreparedSession := MkPreparedSession {
  ps_session_id : SessionId;
  ps_session_ctx : SessionContext;
  ps_session : Session;
  ps_now : UnixTimestamp;
  ps_expires_at : UnixTimestamp;
  ps_randomness_output : RandomnessOutput;
  ps_transcript_commitments : TranscriptCommitments;
  ps_evidence : ExportableEvidence;
  ps_package : AttestationPackage;
  ps_statement : StatementPayload;
  ps_randomness_binding : RandomnessBinding;
  ps_coordinator_evidence : CoordinatorEvidence;
  ps_envelope_digest : DigestBytes;
  ps_signed_digest : DigestBytes
}.

Section Config.
Context {Ed : Ed25519}.

Record CoordinatorConfig := MkCoordinatorConfig {
  cc_coordinator_id : VerifierId;
  cc_epoch : Epoch;
  cc_quorum : QuorumSpec;
  cc_default_ttl_secs : u64;
  cc_verifier_public_keys : list (VerifierId * VerifyingKey)
}.

Definition from_registry (coordinator_id : VerifierId) (quorum : QuorumSpec) (default_ttl_secs : u64)
    (registry : ParticipantRegistry) : CoordinatorConfig :=
  {| cc_coordinator_id := coordinator_id; cc_epoch := MkEpoch (RegistryEpoch_0 (reg_epoch registry));
     cc_quorum := quorum; cc_default_ttl_secs := default_ttl_secs;
     cc_verifier_public_keys := active_verifier_keys registry |}.
End Config.

(** ** Steps shared by the protocols *)

Section CoordinatorOps.
Context {Hs : Sha256} {Ed : Ed25519} {R : RandomnessEngine} {A : AttestationEngine}.
Context `{St_ops : SessionStore St}.
Context (config : CoordinatorConfig).
Local Open Scope stres_scope.

Definition store_call {B} (m : stres St StorageError B) : stres St NodeError B := smap_err NodeStorage m.

(** [session.transition(next)?; self.store.update_state(&session_id, next)?] *)
Definition advance (sid : SessionId) (session : Session) (next : SessionState) : stres St NodeError Session :=
  let '(session', r) := transition session next in
  slift (map_err NodeAttestation r) ;;;
  store_call (update_state sid next) ;;;
  sret session'.

Definition session_expiry (fresh : Fresh) (request : AttestationRequest) : UnixTimestamp :=
  MkUnixTimestamp (u_add (UnixTimestamp_0 (fresh_now fresh))
                     (u_min (rq_requested_ttl_secs request) (cc_default_ttl_secs config))).

Definition session_context_of (fresh : Fresh) (request : AttestationRequest) : SessionContext :=
  SessionContext_new (fresh_session_id fresh) (rq_prover_id request) (cc_coordinator_id config) (cc_quorum config)
    (cc_epoch config) (fresh_now fresh) (session_expiry fresh request) (fresh_nonce fresh).

(** Steps 4 and 5: package, statement, envelope digest. *)
Definition assemble_prepared (fresh : Fresh) (request : AttestationRequest) (response : bytes) (session : Session)
    (ro : RandomnessOutput) (tc : TranscriptCommitments) (ev : ExportableEvidence) : PreparedSession :=
  let session_ctx := session_context_of fresh request in
  let package := AttestationPackage_build session_ctx (ro_value ro) tc ev in
  let statement := StatementPayload_new response (rq_statement_tag request) (session_transcript_digest tc) in
  let randomness_binding := MkRandomnessBinding (ro_id ro) (ro_value ro) (ro_epoch ro) (ro_session_binding ro) in
  let coordinator_evidence := MkCoordinatorEvidence (engine_tag ev) (evidence_digest ev) (package_digest package) in
  let envelope_digest := AttestationEnvelope_compute_digest session_ctx randomness_binding tc statement
                           coordinator_evidence in
  {| ps_session_id := fresh_session_id fresh; ps_session_ctx := session_ctx; ps_session := session;
     ps_now := fresh_now fresh; ps_expires_at := session_expiry fresh request; ps_randomness_output := ro;
     ps_transcript_commitments := tc; ps_evidence := ev; ps_package := package; ps_statement := statement;
     ps_randomness_binding := randomness_binding; ps_coordinator_evidence := coordinator_evidence;
     ps_envelope_digest := envelope_digest; ps_signed_digest := approval_signed_digest envelope_digest |}.

Definition prepare_session (fresh : Fresh) (request : AttestationRequest) (response : bytes)
    : stres St NodeError PreparedSession :=
  let sid := fresh_session_id fresh in
  let session_ctx := session_context_of fresh request in
  let session := Session_new session_ctx in
  store_call (insert session) ;;;
  session <-- advance sid session Active ;;
  ro <-- slift (map_err NodeCrypto (generate (fresh_randomness_id fresh) sid (fresh_nonce fresh) (cc_epoch config)
                                      (verifiers (cc_quorum config)))) ;;
  session <-- advance sid session Attesting ;;
  te <-- slift (map_err NodeAttestation (execute session_ctx (ro_value ro) (rq_query request) response)) ;;
  sret (assemble_prepared fresh request response session ro te.1 te.2).

(** ** Attestation with partial signatures *)

(** The loop over [aux_signers]. *)
Fixpoint collect_partials (sid : SessionId) (d : DigestBytes) (aux_signers : list ThresholdSigner)
    (partials : list PartialSignature) : stres St NodeError (list PartialSignature) :=
  match aux_signers with
  | [] => sret partials
  | signer :: rest => fun s =>
      let verifier_id := signer_verifier_id signer in
      if has_approved sid verifier_id s then collect_partials sid d rest partials s
      else match sign_partial signer (arr (as_bytes d)) with
           | Ok partial =>
               (store_call (record_approval sid verifier_id) ;;;
                collect_partials sid d rest (partials ++ [partial])) s
           | Err _ => collect_partials sid d rest partials s
           end
  end.

Definition attest (fresh : Fresh) (request : AttestationRequest) (response : bytes)
    (aux_signers : list ThresholdSigner) : stres St NodeError AttestationResponse :=
  p <-- prepare_session fresh request response ;;
  session <-- advance (ps_session_id p) (ps_session p) Collecting ;;
  partials <-- collect_partials (ps_session_id p) (ps_signed_digest p) aux_signers [] ;;
  threshold_approval <-- slift (map_err NodeCrypto
    (aggregate_signatures partials (cc_quorum config) (ps_envelope_digest p) (cc_verifier_public_keys config))) ;;
  let envelope := AttestationEnvelope_assemble (ps_session_ctx p) (ps_randomness_binding p)
    (ps_transcript_commitments p) (ps_statement p) (ps_coordinator_evidence p) threshold_approval in
  advance (ps_session_id p) session Finalized ;;;
  sret (Success envelope).

(** ** Attestation with in-process FROST *)

Section FrostAttest.
Context {Fr : FrostEd25519}.

Record FrostAttestationEnvelope := MkFrostAttestationEnvelope {
  fae_session : SessionContext;
  fae_randomness : RandomnessBinding;
  fae_transcript : TranscriptCommitments;
  fae_statement : StatementPayload;
  fae_coordinator_evidence : CoordinatorEvidence;
  fae_frost_approval : FrostThresholdApproval;
  fae_envelope_digest : DigestBytes
}.

Definition frost_envelope (p : PreparedSession) (approval : FrostThresholdApproval) : FrostAttestationEnvelope :=
  {| fae_session := ps_session_ctx p; fae_randomness := ps_randomness_binding p;
     fae_transcript := ps_transcript_commitments p; fae_statement := ps_statement p;
     fae_coordinator_evidence := ps_coordinator_evidence p; fae_frost_approval := approval;
     fae_envelope_digest := ps_envelope_digest p |}.

(** [session.fail(reason); self.store.update_state(.., Failed { reason })?; return Err(e)]:
    the local session is not used any more. *)
Definition fail_session {B} (sid : SessionId) (reason : string) (e : NodeError) : stres St NodeError B :=
  store_call (update_state sid (Failed reason)) ;;;
  serr e.

(** The check of the number of signers, with [what] in its message. *)
Definition check_count (sid : SessionId) (what : string) (n : nat) : stres St NodeError unit :=
  let required := uval (threshold (cc_quorum config)) in
  if Z.of_nat n <? required then
    fail_session sid ("insufficient " +:+ what +:+ ": need " +:+ pretty required +:+ ", got " +:+ pretty (Z.of_nat n))
      (QuorumNotMet (Z.of_nat n) required)
  else sret tt.

Definition attest_frost (fresh : Fresh) (rngs : nat -> Frost.Rng) (request : AttestationRequest) (response : bytes)
    (frost_signers : list FrostParticipant) (group_key : FrostGroupKey) : stres St NodeError FrostAttestationEnvelope :=
  p <-- prepare_session fresh request response ;;
  session <-- advance (ps_session_id p) (ps_session p) Collecting ;;
  check_count (ps_session_id p) "FROST signers" (length frost_signers) ;;;
  frost_approval <-- slift (map_err NodeCrypto
    (frost_collect_approval rngs frost_signers (ps_signed_digest p) group_key (cc_quorum config))) ;;
  sfor frost_signers (fun signer => store_call (record_approval (ps_session_id p) (fp_verifier_id signer))) ;;;
  advance (ps_session_id p) session Finalized ;;;
  sret (frost_envelope p frost_approval).

(** ** Attestation with distributed FROST *)

(** The trait [FrostNodeTransport], for transports [T] whose calls act on a
    state [NS]. *)
Class FrostNodeTransport (T NS : Type) := {
  t_verifier_id : T -> NS -> VerifierId;
  t_frost_round1 : T -> FrostRound1Request -> UnixTimestamp -> stres NS NodeError FrostRound1Response;
  t_frost_round2 : T -> FrostRound2Request -> stres NS NodeError FrostRound2Response;
  t_handshake_binding_round1 :
    T -> HandshakeBindingRound1Request -> UnixTimestamp -> stres NS NodeError HandshakeBindingRound1Response;
  t_handshake_binding_round2 : T -> HandshakeBindingRound2Request -> stres NS NodeError HandshakeBindingRound2Response
}.

Section Distributed.
Context {T NS : Type} {Tr : FrostNodeTransport T NS}.

(** Store and nodes. *)
Definition on_store {B} (m : stres St NodeError B) : stres (St * NS) NodeError B :=
  fun w => let '(s, r) := m w.1 in ((s, w.2), r).

(** [for transport in transports { match call(transport) { Ok(resp) => push(f(resp)), Err(e) => fail } }] *)
Fixpoint run_round {B C} (sid : SessionId) (round : string) (call : T -> stres NS NodeError B) (f : B -> C)
    (transports : list T) (acc : list C) : stres (St * NS) NodeError (list C) :=
  match transports with
  | [] => sret acc
  | t :: rest => fun w =>
      match call t w.2 with
      | (n, Ok resp) => run_round sid round call f rest (acc ++ [f resp]) (w.1, n)
      | (n, Err e) =>
          on_store (fail_session sid (round +:+ " failed for verifier " +:+ VerifierId_to_string (t_verifier_id t n) +:+
                                      ": " +:+ NodeError_to_string e) e) (w.1, n)
      end
  end.

(** The body shared by [attest_frost_distributed_over_transport] and
    [attest_frost_distributed_inner]. *)
Definition attest_distributed (what : string) (registry_epoch : RegistryEpoch) (fresh : Fresh)
    (request : AttestationRequest) (response : bytes) (transports : list T) (group_key : FrostGroupKey)
    : stres (St * NS) NodeError FrostAttestationEnvelope :=
  p <-- on_store (prepare_session fresh request response) ;;
  session <-- on_store (advance (ps_session_id p) (ps_session p) Collecting) ;;
  on_store (check_count (ps_session_id p) what (length transports)) ;;;
  signer_set <-- (fun w => (w, Ok ((fun t => t_verifier_id t w.2) <$> transports))) ;;
  let round1_req := {| f1_session_id := ps_session_id p; f1_coordinator_id := cc_coordinator_id config;
    f1_signed_digest := ps_signed_digest p; f1_envelope_digest := ps_envelope_digest p;
    f1_signer_set := signer_set; f1_round_expires_at := ps_expires_at p; f1_registry_epoch := registry_epoch;
    f1_hsp_proof_bytes := []; f1_hsp_pvk_bytes := []; f1_dctls_evidence_bytes := [];
    f1_rand_value_bytes := []; f1_server_cert_hash_bytes := [] |} in
  round1_responses <-- run_round (ps_session_id p) "round-1" (fun t => t_frost_round1 t round1_req (ps_now p)) id
                         transports [] ;;
  pkg <-- slift (assemble_signing_package_from_responses round1_responses (ps_signed_digest p) group_key) ;;
  let round2_req := {| f2_session_id := ps_session_id p; f2_coordinator_id := cc_coordinator_id config;
    f2_signing_package_bytes := pkg.2; f2_signer_set := signer_set |} in
  share_entries <-- run_round (ps_session_id p) "round-2" (fun t => t_frost_round2 t round2_req)
                      (fun resp => (f2r_verifier_id resp, f2r_signature_share_bytes resp)) transports [] ;;
  frost_approval <-- slift (map_err NodeCrypto
    (aggregate_signature_shares pkg.1 share_entries group_key (ps_signed_digest p))) ;;
  on_store (sfor signer_set (fun vid => store_call (record_approval (ps_session_id p) vid))) ;;;
  on_store (advance (ps_session_id p) session Finalized) ;;;
  sret (frost_envelope p frost_approval).

Definition attest_frost_distributed_over_transport := attest_distributed "transports" RegistryEpoch_GENESIS.

Definition attest_frost_distributed_inner (registry_epoch : RegistryEpoch) :=
  attest_distributed "aux nodes" registry_epoch.

Definition attest_frost_distributed := attest_frost_distributed_inner RegistryEpoch_GENESIS.

Definition attest_frost_distributed_with_registry (registry : ParticipantRegistry) (expected_epoch : RegistryEpoch)
    (fresh : Fresh) (request : AttestationRequest) (response : bytes) (aux_nodes : list T) (group_key : FrostGroupKey)
    : stres (St * NS) NodeError FrostAttestationEnvelope := fun w =>
  if negb (bool_decide (expected_epoch = reg_epoch registry)) then
    (w, Err (SigningAdmission ("registry epoch mismatch: expected " +:+ RegistryEpoch_debug expected_epoch +:+
               ", registry is at " +:+ RegistryEpoch_debug (reg_epoch registry))))
  else
    let signer_ids := (fun t => t_verifier_id t w.2) <$> aux_nodes in
    (slift (map_err (fun e => SigningAdmission ("signing admission failed: " +:+ RegistryError_to_string e))
              (check_ceremony_admission registry expected_epoch signer_ids)) ;;;
     attest_frost_distributed_inner expected_epoch fresh request response aux_nodes group_key) w.
End Distributed.
End FrostAttest.
End CoordinatorOps.

(** ** In-process transports (transport.rs) *)

Section InProcess.
Context {Hs : Sha256} {Ed : Ed25519} {Fr : FrostEd25519} {G : Groth16}.
Context {Jh : SerdeJson HspProof} {Je : SerdeJson DctlsEvidence}.

(** A reference to a node, with what its round-1 call reads from the environment. *)
Record InProcessTransport := MkInProcessTransport { node_ref : nat; node_env : Env }.

(** The nodes behind the references. *)
Definition Nodes : Type := nat -> FrostAuxiliaryNode.

Definition on_node {B} (i : nat) (m : stres FrostAuxiliaryNode NodeError B) : stres Nodes NodeError B := fun ns =>
  let '(n, r) := m (ns i) in (fun j => if decide (j = i) then n else ns j, r).

#[export] Instance InProcessTransport_transport : FrostNodeTransport InProcessTransport Nodes := {|
  t_verifier_id t ns := node_verifier_id (ns (node_ref t));
  t_frost_round1 t req now := on_node (node_ref t) (frost_round1 req now (node_env t));
  t_frost_round2 t req := on_node (node_ref t) (frost_round2 req);
  t_handshake_binding_round1 t req now := on_node (node_ref t) (handshake_binding_round1 req now (node_env t));
  t_handshake_binding_round2 t req := on_node (node_ref t) (handshake_binding_round2 req)
|}.
End InProcess.

(** ** Clients of a store see the contract

    Every coordinator operation uses its store through the interface only, so a
    run on a store that implements the contract gives the result of the run on
    the abstract store, and ends in a related state. *)

Definition ssim {S S' E B} (R : S -> S' -> Prop) (f : stres S E B) (g : stres S' E B) : Prop :=
  forall s m, R s m -> R (f s).1 (g m).1 /\ (f s).2 = (g m).2.

Section Simulation.
Context {S S' E : Type} (R : S -> S' -> Prop).

Lemma ssim_ret {B} (b : B) : ssim (E:=E) R (sret b) (sret b).
Proof. by intros s m HR. Qed.
Lemma ssim_err {B} e : ssim (E:=E) (B:=B) R (serr e) (serr e).
Proof. by intros s m HR. Qed.
Lemma ssim_lift {B} (r : result E B) : ssim R (slift r) (slift r).
Proof. by intros s m HR. Qed.
Lemma ssim_bind {B C} (f : stres S E B) g (k : B -> stres S E C) k' :
  ssim R f g -> (forall b, ssim R (k b) (k' b)) -> ssim R (sbind f k) (sbind g k').
Proof.
  intros Hf Hk s m HR. destruct (Hf s m HR) as [HR' Heq]. unfold sbind.
  destruct (f s) as [s1 [b|e]], (g m) as [m1 [b'|e']]; simplify_eq/=; [by apply Hk|done].
Qed.
Lemma ssim_map_err {F B} (h : F -> E) (f : stres S F B) g : ssim R f g -> ssim R (smap_err h f) (smap_err h g).
Proof.
  intros Hf s m HR. destruct (Hf s m HR) as [HR' Heq]. unfold smap_err.
  destruct (f s) as [s1 r], (g m) as [m1 r']; simplify_eq/=. done.
Qed.
Lemma ssim_sfor {B} (l : list B) (f : B -> stres S E unit) g :
  (forall b, ssim R (f b) (g b)) -> ssim R (sfor l f) (sfor l g).
Proof. intros Hf. induction l as [|b l IH]; [apply ssim_ret|]. by apply ssim_bind. Qed.
End Simulation.

Create HintDb coord.
#[export] Hint Resolve ssim_ret ssim_err ssim_lift ssim_bind ssim_map_err ssim_sfor : coord.

Section StoreClients.
Context {Hs : Sha256} {Ed : Ed25519} {R : RandomnessEngine} {A : AttestationEngine} {Fr : FrostEd25519}.
Context `{Spec : StoreSpec St}.
Context (config : CoordinatorConfig).

Lemma store_call_sim {B} (f : stres St StorageError B) g :
  simulates store_rel f g -> ssim store_rel (store_call f) (store_call g).
Proof. intros Hf. unfold store_call. by apply ssim_map_err. Qed.

#[local] Hint Resolve store_call_sim insert_spec update_state_spec record_approval_spec : coord.

Lemma advance_sim sid ss next : ssim store_rel (advance sid ss next) (advance (St:=store_spec) sid ss next).
Proof. unfold advance. destruct (transition ss next). auto 6 with coord. Qed.
#[local] Hint Resolve advance_sim : coord.

Lemma prepare_session_sim fresh req resp :
  ssim store_rel (prepare_session config fresh req resp) (prepare_session (St:=store_spec) config fresh req resp).
Proof. unfold prepare_session. auto 12 with coord. Qed.

Lemma collect_partials_sim sid d signers ps :
  ssim store_rel (collect_partials sid d signers ps) (collect_partials (St:=store_spec) sid d signers ps).
Proof.
  revert ps. induction signers as [|x signers IH]; intros ps; cbn [collect_partials]; [apply ssim_ret|].
  intros s m HR. rewrite (has_approved_spec _ _ _ _ HR).
  change (spec_has_approved sid (signer_verifier_id x) m) with (has_approved sid (signer_verifier_id x) m).
  destruct (has_approved _ _ m); [by apply IH|]. destruct (sign_partial _ _); [|by apply IH].
  apply ssim_bind; auto with coord.
Qed.
#[local] Hint Resolve prepare_session_sim collect_partials_sim : coord.

Lemma attest_sim fresh req resp signers :
  ssim store_rel (attest config fresh req resp signers) (attest (St:=store_spec) config fresh req resp signers).
Proof. unfold attest. auto 14 with coord. Qed.

Lemma fail_session_sim {B} sid reason e :
  ssim store_rel (fail_session (B:=B) sid reason e) (fail_session (St:=store_spec) sid reason e).
Proof. unfold fail_session. auto with coord. Qed.
Lemma check_count_sim sid what n :
  ssim store_rel (check_count config sid what n) (check_count (St:=store_spec) config sid what n).
Proof. unfold check_count. destruct (_ <? _); [apply fail_session_sim | apply ssim_ret]. Qed.
#[local] Hint Resolve fail_session_sim check_count_sim : coord.

Lemma attest_frost_sim fresh rngs req resp signers gk :
  ssim store_rel (attest_frost config fresh rngs req resp signers gk)
    (attest_frost (St:=store_spec) config fresh rngs req resp signers gk).
Proof. unfold attest_frost. auto 14 with coord. Qed.

(** Store and nodes together: related stores, the same nodes. *)
Definition pair_rel {NS} (w : St * NS) (w' : store_spec * NS) : Prop := store_rel w.1 w'.1 /\ w.2 = w'.2.

Lemma on_store_sim {NS B} (f : stres St NodeError B) g :
  ssim store_rel f g -> ssim (pair_rel (NS:=NS)) (on_store f) (on_store g).
Proof.
  intros Hf [s n] [m n'] [HR Hn]. cbn [fst snd] in *. subst n'. destruct (Hf s m HR) as [HR' Heq]. unfold on_store.
  cbn [fst snd]. destruct (f s) as [s1 r], (g m) as [m1 r']; simplify_eq/=. done.
Qed.
#[local] Hint Resolve on_store_sim : coord.

Lemma run_round_sim `{Tr : FrostNodeTransport T NS} {B C} sid round (call : T -> stres NS NodeError B) (f : B -> C) ts acc :
  ssim pair_rel (run_round sid round call f ts acc) (run_round (St:=store_spec) sid round call f ts acc).
Proof.
  revert acc. induction ts as [|t ts IH]; intros acc; cbn [run_round]; [apply ssim_ret|].
  intros [s n] [m n'] [HR Hn]. cbn [fst snd] in *. subst n'.
  destruct (call t n) as [n1 [resp0|e]]; [by apply IH|]. by apply on_store_sim; auto with coord.
Qed.

Lemma attest_distributed_sim `{Tr : FrostNodeTransport T NS} what epoch fresh req resp (ts : list T) gk :
  ssim pair_rel (attest_distributed config what epoch fresh req resp ts gk)
    (attest_distributed (St:=store_spec) config what epoch fresh req resp ts gk).
Proof.
  unfold attest_distributed. do 3 (apply ssim_bind; [auto with coord | intros ?]).
  apply ssim_bind; [|intros signer_set].
  { intros [s n] [m n'] [HR Hn]. cbn [fst snd] in *. by subst. }
  apply ssim_bind; [apply run_round_sim | intros ?]. apply ssim_bind; [auto with coord | intros ?].
  apply ssim_bind; [apply run_round_sim | intros ?]. auto 12 with coord.
Qed.
End StoreClients.

(** ** Runs on the abstract store *)

Section SpecRuns.
Context {Hs : Sha256} {Ed : Ed25519} {R : RandomnessEngine} {A : AttestationEngine} {Fr : FrostEd25519}.
Context (config : CoordinatorConfig) (fresh : Fresh) (request : AttestationRequest).

Abbreviation sid0 := (fresh_session_id fresh).
Abbreviation ctx0 := (session_context_of config fresh request).

(** The store [m] with the new session in state [st], approved by [vs]. *)
Definition with_session (m : store_spec) (st : SessionState) (vs : gset VerifierId) : store_spec :=
  <[sid0 := (MkSession ctx0 st, vs)]> m.

Lemma update_with_session m st st' vs :
  is_terminal st = false ->
  store_call (update_state sid0 st') (with_session m st vs) = (with_session m st' vs, Ok tt).
Proof.
  intros Hst. unfold store_call, smap_err, with_session. cbn [update_state SpecStore]. unfold spec_update_state.
  rewrite lookup_insert_eq. cbn [state]. rewrite Hst. cbn [map_err]. by rewrite insert_insert_eq.
Qed.

Lemma advance_with_session m st st' vs :
  can_transition_to st st' = true ->
  advance sid0 (MkSession ctx0 st) st' (with_session m st vs) = (with_session m st' vs, Ok (MkSession ctx0 st')).
Proof.
  intros Hst. unfold advance, transition. cbn [state]. rewrite Hst. cbn [negb map_err]. unfold sbind at 1. cbn [slift].
  unfold sbind. rewrite update_with_session; [done|]. unfold can_transition_to in Hst. by destruct (is_terminal st).
Qed.

Lemma record_with_session m st vs v :
  is_terminal st = false ->
  store_call (record_approval sid0 v) (with_session m st vs)
  = if bool_decide (v ∈ vs) then (with_session m st vs, Err (NodeStorage (DuplicateApproval (VerifierId_to_string v))))
    else (with_session m st ({[v]} ∪ vs), Ok tt).
Proof.
  intros Hst. unfold store_call, smap_err, with_session. cbn [record_approval SpecStore]. unfold spec_record_approval.
  rewrite lookup_insert_eq. cbn [state]. rewrite Hst. case_bool_decide; [done|]. cbn [map_err].
  by rewrite insert_insert_eq.
Qed.

(** Preparation, on every branch. *)
Lemma prepare_spec response m :
  prepare_session config fresh request response m =
  match m !! sid0 with
  | Some _ => (m, Err (NodeStorage AlreadyExists))
  | None =>
      match generate (fresh_randomness_id fresh) sid0 (fresh_nonce fresh) (cc_epoch config)
              (verifiers (cc_quorum config)) with
      | Err e => (with_session m Active ∅, Err (NodeCrypto e))
      | Ok ro =>
          match execute ctx0 (ro_value ro) (rq_query request) response with
          | Err e => (with_session m Attesting ∅, Err (NodeAttestation e))
          | Ok te => (with_session m Attesting ∅,
                      Ok (assemble_prepared config fresh request response (MkSession ctx0 Attesting) ro te.1 te.2))
          end
      end
  end.
Proof.
  unfold prepare_session. unfold sbind at 1. unfold store_call at 1, smap_err. cbn [insert SpecStore].
  unfold spec_insert. change (session_id (context (Session_new ctx0))) with sid0.
  destruct (m !! sid0) as [p|]; [done|]. cbn [map_err]. fold (with_session m Pending ∅).
  change (<[sid0:=(Session_new ctx0, ∅)]> m) with (with_session m Pending ∅). change (Session_new ctx0) with (MkSession ctx0 Pending).
  unfold sbind at 1. rewrite advance_with_session by done. unfold sbind at 1, slift at 1.
  destruct (generate _ _ _ _ _) as [ro|e]; [|done]. cbn [map_err]. unfold sbind at 1.
  rewrite advance_with_session by done. unfold sbind, slift. by destruct (execute _ _ _ _).
Qed.

(** What the loop of [attest] collects. *)
Fixpoint collected (d : DigestBytes) (signers : list ThresholdSigner) (vs : gset VerifierId)
    (acc : list PartialSignature) : gset VerifierId * list PartialSignature :=
  match signers with
  | [] => (vs, acc)
  | x :: rest =>
      if bool_decide (signer_verifier_id x ∈ vs) then collected d rest vs acc
      else match sign_partial x (arr (as_bytes d)) with
           | Ok p => collected d rest ({[signer_verifier_id x]} ∪ vs) (acc ++ [p])
           | Err _ => collected d rest vs acc
           end
  end.

Lemma collect_spec m d signers vs acc :
  collect_partials sid0 d signers acc (with_session m Collecting vs)
  = (with_session m Collecting (collected d signers vs acc).1, Ok (collected d signers vs acc).2).
Proof.
  revert vs acc. induction signers as [|x signers IH]; intros vs acc; cbn [collect_partials collected]; [done|].
  cbn [has_approved SpecStore]. unfold spec_has_approved. unfold with_session at 1. rewrite lookup_insert_eq.
  destruct (bool_decide (signer_verifier_id x ∈ vs)) eqn:Hin; [apply IH|].
  destruct (sign_partial x _) as [p|e]; [|apply IH]. unfold sbind. rewrite record_with_session by done. rewrite Hin.
  apply IH.
Qed.

(** [attest], on every branch. *)
Lemma attest_spec response signers m :
  let '(m1, r) := prepare_session config fresh request response m in
  attest config fresh request response signers m =
  match r with
  | Err e => (m1, Err e)
  | Ok p =>
      let '(vs, partials) := collected (ps_signed_digest p) signers ∅ [] in
      match aggregate_signatures partials (cc_quorum config) (ps_envelope_digest p) (cc_verifier_public_keys config) with
      | Err e => (with_session m Collecting vs, Err (NodeCrypto e))
      | Ok ta => (with_session m Finalized vs,
          Ok (Success (AttestationEnvelope_assemble (ps_session_ctx p) (ps_randomness_binding p)
                (ps_transcript_commitments p) (ps_statement p) (ps_coordinator_evidence p) ta)))
      end
  end.
Proof.
  unfold attest. rewrite prepare_spec. unfold sbind at 1. rewrite prepare_spec. destruct (m !! sid0); [done|].
  destruct (generate _ _ _ _ _) as [ro|e]; [|done]. destruct (execute _ _ _ _) as [[tc ev]|e]; [|done].
  cbn [fst snd assemble_prepared ps_session_id ps_session]. unfold sbind at 1. rewrite advance_with_session by done.
  unfold sbind at 1. rewrite collect_spec. destruct (collected _ _ _ _) as [vs partials]. cbn [fst snd].
  unfold sbind at 1, slift. destruct (aggregate_signatures _ _ _ _) as [ta|e]; [|done]. cbn [map_err].
  unfold sbind. by rewrite advance_with_session.
Qed.
End SpecRuns.

(** ** Attestation with partial signatures *)

Section AttestProps.
Context {Hs : Sha256} {Ed : Ed25519} {R : RandomnessEngine} {A : AttestationEngine}.
Context `{Spec : StoreSpec St}.
Context (config : CoordinatorConfig) (fresh : Fresh) (request : AttestationRequest) (response : bytes).

(** C1. What a successful attestation delivers, for every engine and every store
    that implements the contract: the response is an envelope for this
    session, whose digest and statement digest verify; its approval is by
    distinct eligible verifiers whose signatures over the approval digest
    verify under the configured keys and satisfy the quorum, so that
    [verify_threshold_approval] accepts it when the quorum lists nobody twice;
    the session identifier was unused, the store now holds the session in
    state Finalized, and no other session has changed. *)
Theorem attest_sound s m signers s' r :
  store_rel s m ->
  attest config fresh request response signers s = (s', Ok r) ->
  exists envelope vs,
    r = Success envelope /\ m !! fresh_session_id fresh = None /\
    store_rel s' (with_session config fresh request m Finalized vs) /\
    env_session envelope = session_context_of config fresh request /\
    AttestationEnvelope_verify_digest envelope = true /\
    StatementPayload_verify_digest (env_statement envelope)
      (session_transcript_digest (env_transcript envelope)) = true /\
    (let ta := env_threshold_approval envelope in
     NoDup (Attestation.signers ta) /\ is_satisfied_by (cc_quorum config) (Attestation.signers ta) = true /\
     Forall (fun p => p.1 ∈ verifiers (cc_quorum config) /\
        valid_signature (cc_verifier_public_keys config) (approval_signed_digest (envelope_digest envelope)) p)
        (signatures ta) /\
     (NoDup (verifiers (cc_quorum config)) ->
        verify_threshold_approval ta (envelope_digest envelope) (cc_verifier_public_keys config) = Ok tt)).
Proof.
  intros HR Hrun. destruct (attest_sim config fresh request response signers s m HR) as [HR' Heq].
  rewrite Hrun in HR', Heq. cbn [fst snd] in *.
  pose proof (attest_spec config fresh request response signers m) as Hspec.
  rewrite prepare_spec in Hspec. destruct (m !! fresh_session_id fresh) eqn:Hm.
  { rewrite Hspec in Heq. done. }
  destruct (generate _ _ _ _ _) as [ro|e]; [|rewrite Hspec in Heq; done].
  destruct (execute _ _ _ _) as [[tc ev]|e]; [|rewrite Hspec in Heq; done].
  set (p := assemble_prepared _ _ _ _ _ _ _ _) in Hspec.
  destruct (collected (ps_signed_digest p) signers ∅ []) as [vs partials].
  destruct (aggregate_signatures _ _ _ _) as [ta|e] eqn:Hagg; [|rewrite Hspec in Heq; done].
  rewrite Hspec in HR', Heq. cbn [fst snd] in *. injection Heq as ->. eexists _, vs. split; [done|].
  destruct (aggregate_valid _ _ _ _ _ Hagg) as (_ & _ & _ & Hnd & Hall & Hsat & _).
  split_and!; try done.
  - apply assemble_verify_digest.
  - apply statement_new_verify.
  - intros Hq. by eapply aggregate_accepted.
Qed.

(** C15. What a failed attestation leaves behind: nothing, when the session could
    not be inserted; otherwise the new session in one of the states Active,
    Attesting or Collecting, never in a terminal one, and every other session
    as it was. *)
Theorem attest_failure_leaves_session_open s m signers s' e :
  store_rel s m ->
  attest config fresh request response signers s = (s', Err e) ->
  (store_rel s' m /\ e = NodeStorage AlreadyExists /\ is_Some (m !! fresh_session_id fresh)) \/
  (m !! fresh_session_id fresh = None /\
   exists st vs, store_rel s' (with_session config fresh request m st vs) /\ st ∈ [Active; Attesting; Collecting]).
Proof.
  intros HR Hrun. destruct (attest_sim config fresh request response signers s m HR) as [HR' Heq].
  rewrite Hrun in HR', Heq. cbn [fst snd] in *.
  pose proof (attest_spec config fresh request response signers m) as Hspec.
  rewrite prepare_spec in Hspec. destruct (m !! fresh_session_id fresh) eqn:Hm.
  { rewrite Hspec in HR', Heq. left. split_and!; [done| |by eexists]. by injection Heq. }
  right. split; [done|].
  destruct (generate _ _ _ _ _) as [ro|e']; [|rewrite Hspec in HR', Heq; eexists Active, ∅; split; [done|set_solver]].
  destruct (execute _ _ _ _) as [[tc ev]|e'];
    [|rewrite Hspec in HR', Heq; eexists Attesting, ∅; split; [done|set_solver]].
  destruct (collected _ signers ∅ []) as [vs partials].
  destruct (aggregate_signatures _ _ _ _) as [ta|e']; rewrite Hspec in HR', Heq; [done|].
  exists Collecting, vs. split; [done|set_solver].
Qed.

Lemma collected_honest d kps vs acc :
  NoDup (kp_verifier_id <$> kps) -> (forall kp, kp ∈ kps -> kp_verifier_id kp ∉ vs) ->
  collected d (PrototypeThresholdSigner <$> kps) vs acc =
  (list_to_set (kp_verifier_id <$> kps) ∪ vs,
   acc ++ ((fun kp => MkPartialSignature (kp_verifier_id kp) (arr (ed_sign (signing_key kp) (arr (as_bytes d))))) <$> kps)).
Proof.
  revert vs acc. induction kps as [|kp kps IH]; intros vs acc Hnd Hfresh.
  { cbn [fmap list_fmap collected list_to_set]. f_equal; [set_solver|by rewrite app_nil_r]. }
  rewrite fmap_cons in Hnd. apply NoDup_cons in Hnd as [Hkp Hnd].
  rewrite !fmap_cons. cbn [collected PrototypeThresholdSigner signer_verifier_id sign_partial].
  rewrite bool_decide_eq_false_2 by (apply Hfresh; by constructor).
  rewrite IH; [|done|].
  - f_equal; [set_solver|]. by rewrite <- (assoc_L (++)).
  - intros kp' Hin. apply not_elem_of_union. split; [|by apply Hfresh; constructor].
    intros Heq%elem_of_singleton. apply Hkp. rewrite <- Heq. by apply list_elem_of_fmap_2.
Qed.

(** An honest run succeeds: when the engines deliver, the session identifier
    is unused, and the signers are distinct key pairs registered with the
    coordinator whose identities satisfy the quorum, [attest] returns an
    envelope, and the finalized session is recorded as approved by exactly the
    signers. *)
Theorem attest_honest_succeeds s m kps ro te :
  store_rel s m -> m !! fresh_session_id fresh = None ->
  generate (fresh_randomness_id fresh) (fresh_session_id fresh) (fresh_nonce fresh) (cc_epoch config)
    (verifiers (cc_quorum config)) = Ok ro ->
  execute (session_context_of config fresh request) (ro_value ro) (rq_query request) response = Ok te ->
  NoDup (kp_verifier_id <$> kps) ->
  Forall (fun kp => find_key (cc_verifier_public_keys config) (kp_verifier_id kp) = Some (kp_verifying_key kp)) kps ->
  is_satisfied_by (cc_quorum config) (kp_verifier_id <$> kps) = true ->
  exists s' envelope,
    attest config fresh request response (PrototypeThresholdSigner <$> kps) s = (s', Ok (Success envelope)) /\
    store_rel s' (with_session config fresh request m Finalized (list_to_set (kp_verifier_id <$> kps))).
Proof.
  intros HR Hm Hgen Hexec Hnd Hkeys Hsat.
  destruct (attest_sim config fresh request response (PrototypeThresholdSigner <$> kps) s m HR) as [HR' Heq].
  pose proof (attest_spec config fresh request response (PrototypeThresholdSigner <$> kps) m) as Hspec.
  rewrite prepare_spec, Hm, Hgen, Hexec in Hspec. cbv beta iota in Hspec.
  rewrite collected_honest in Hspec by (done || set_solver). cbn [app] in Hspec.
  match type of Hspec with context [aggregate_signatures ?ps ?q ?env ?pks] =>
    destruct (aggregate_honest q pks env ps) as [ta Hta] end.
  - apply Forall_fmap. eapply Forall_impl; [exact Hkeys|]. intros kp Hkp _.
    exists (kp_verifying_key kp). eexists. cbn [ps_verifier_id ps_bytes fst snd]. split_and!; [done..|].
    apply ed_sign_verify.
  - rewrite <- list_fmap_compose. done.
  - rewrite Hta in Hspec. rewrite Hspec in HR', Heq. cbn [fst snd] in *. rewrite (right_id_L ∅ (∪)) in HR'.
    destruct (attest _ _ _ _ _ s) as [s' r]. cbn [fst snd] in *. subst r. by eexists _, _.
Qed.
End AttestProps.

(** ** Attestation with FROST *)

Section FrostSpecRuns.
Context {Hs : Sha256} {Ed : Ed25519} {R : RandomnessEngine} {A : AttestationEngine} {Fr : FrostEd25519}.
Context (config : CoordinatorConfig) (fresh : Fresh) (request : AttestationRequest).
Abbreviation sid0 := (fresh_session_id fresh).
Abbreviation with0 := (with_session config fresh request).

(** Recording the approvals of a list succeeds exactly for a list of distinct
    verifiers that have not approved. *)
Lemma record_all_spec {B} (f : B -> VerifierId) l m vs :
  exists vs' r,
    sfor l (fun b => store_call (record_approval sid0 (f b))) (with0 m Collecting vs) = (with0 m Collecting vs', r) /\
    (r = Ok tt -> NoDup (f <$> l) /\ vs' = list_to_set (f <$> l) ∪ vs /\ Forall (fun b => f b ∉ vs) l).
Proof.
  revert vs. induction l as [|b l IH]; intros vs; cbn [sfor].
  { exists vs, (Ok tt). split; [done|]. intros _. cbn. split_and!; [constructor|set_solver|constructor]. }
  unfold sbind. rewrite record_with_session by done. case_bool_decide as Hin.
  { eexists vs, (Err _). split; [done|]. by intros [=]. }
  destruct (IH ({[f b]} ∪ vs)) as (vs' & r & -> & Hok). exists vs', r. split; [done|].
  intros Hr. destruct (Hok Hr) as (Hnd & -> & Hall). rewrite Forall_forall in Hall. rewrite !fmap_cons. split_and!.
  - apply NoDup_cons. split; [|done]. intros (b' & Heq & Hb')%list_elem_of_fmap. apply (Hall b' Hb'). set_solver.
  - cbn [list_to_set]. set_solver.
  - constructor; [done|]. apply Forall_forall. intros b' Hb'. specialize (Hall b' Hb'). set_solver.
Qed.

Lemma check_count_spec what n m vs :
  check_count config sid0 what n (with0 m Collecting vs) = (with0 m Collecting vs, Ok tt) /\
    uval (threshold (cc_quorum config)) <= Z.of_nat n \/
  exists reason, check_count config sid0 what n (with0 m Collecting vs)
    = (with0 m (Failed reason) vs, Err (QuorumNotMet (Z.of_nat n) (uval (threshold (cc_quorum config))))).
Proof.
  unfold check_count. destruct (Z.ltb_spec (Z.of_nat n) (uval (threshold (cc_quorum config)))) as [Hlt|Hge]; [|by left].
  right. eexists. unfold fail_session, sbind. rewrite update_with_session by done. done.
Qed.

(** A round ends with all responses, or with the session failed. *)
Lemma run_round_spec `{Tr : FrostNodeTransport T NS} {B C} round (call : T -> stres NS NodeError B) (f : B -> C) ts acc m vs ns :
  exists ns',
    (exists out, run_round sid0 round call f ts acc (with0 m Collecting vs, ns) = ((with0 m Collecting vs, ns'), Ok out)) \/
    (exists t n e, t ∈ ts /\ (call t n).2 = Err e /\
       run_round sid0 round call f ts acc (with0 m Collecting vs, ns)
       = ((with0 m (Failed (round +:+ " failed for verifier " +:+ VerifierId_to_string (t_verifier_id t ns') +:+ ": " +:+
                            NodeError_to_string e)) vs, ns'), Err e)).
Proof.
  revert acc ns. induction ts as [|t ts IH]; intros acc ns; cbn [run_round]; [eauto|]. cbn [fst snd].
  destruct (call t ns) as [n1 [resp|e]] eqn:Hcall.
  - destruct (IH (acc ++ [f resp]) n1) as (ns' & [[out Hout]|(t' & n & e & Hin & He & Hrun)]).
    + eauto.
    + exists ns'. right. exists t', n, e. split_and!; [by constructor|done|done].
  - exists n1. right. exists t, ns, e. rewrite Hcall. split_and!; [by constructor|done|].
    unfold on_store, fail_session, sbind. cbn [fst snd]. by rewrite update_with_session.
Qed.
End FrostSpecRuns.

Section FrostProps2.
Context {Hs : Sha256} {Ed : Ed25519} {R : RandomnessEngine} {A : AttestationEngine} {Fr : FrostEd25519}.
Context (config : CoordinatorConfig) (fresh : Fresh) (request : AttestationRequest) (response : bytes).
Abbreviation with0 := (with_session config fresh request).

(** What a FROST envelope guarantees. *)
Definition frost_envelope_good (gk : FrostGroupKey) (e : FrostAttestationEnvelope) : Prop :=
  fae_session e = session_context_of config fresh request /\
  fae_envelope_digest e = AttestationEnvelope_compute_digest (fae_session e) (fae_randomness e) (fae_transcript e)
                            (fae_statement e) (fae_coordinator_evidence e) /\
  StatementPayload_verify_digest (fae_statement e) (session_transcript_digest (fae_transcript e)) = true /\
  verify_signature (fae_frost_approval e) = Ok tt /\
  verify_binding (fae_frost_approval e) (fae_envelope_digest e) = Ok tt /\
  group_verifying_key_bytes (fae_frost_approval e) = verifying_key_bytes gk.

Lemma frost_envelope_good_intro gk ro tc ev ss a :
  let p := assemble_prepared config fresh request response ss ro tc ev in
  verify_signature a = Ok tt -> fta_signed_digest a = ps_signed_digest p ->
  group_verifying_key_bytes a = verifying_key_bytes gk -> frost_envelope_good gk (frost_envelope p a).
Proof.
  intros p Hver Hd Hgk. unfold frost_envelope_good. split_and!; try done.
  - apply statement_new_verify.
  - unfold verify_binding. cbn [frost_envelope fae_frost_approval fae_envelope_digest]. rewrite Hd.
    by rewrite bool_decide_eq_true_2.
Qed.

(** The outcome of a FROST run: final store and result. *)
Definition frost_outcome (gk : FrostGroupKey) (ids : list VerifierId) (m m' : store_spec)
    (r : result NodeError FrostAttestationEnvelope) : Prop :=
  match r with
  | Ok e => m !! fresh_session_id fresh = None /\ m' = with0 m Finalized (list_to_set ids) /\
            NoDup ids /\ uval (threshold (cc_quorum config)) <= Z.of_nat (length ids) /\ frost_envelope_good gk e
  | Err e => m' = m /\ e = NodeStorage AlreadyExists /\ is_Some (m !! fresh_session_id fresh) \/
             m !! fresh_session_id fresh = None /\ exists st vs, m' = with0 m st vs /\ st <> Finalized
  end.

Ltac open_err := right; split; [done|]; eexists _, _; split; [reflexivity|done].

Lemma attest_distributed_spec `{Tr : FrostNodeTransport T NS} what epoch (ts : list T) gk m ns m' ns' r :
  attest_distributed config what epoch fresh request response ts gk (m, ns) = ((m', ns'), r) ->
  frost_outcome gk ((fun t => t_verifier_id t ns) <$> ts) m m' r.
Proof.
  unfold attest_distributed, on_store at 1. unfold sbind at 1. cbn [fst snd]. rewrite prepare_spec.
  destruct (m !! fresh_session_id fresh) eqn:Hm; [intros [= <- <- <-]; by left; rewrite Hm|].
  destruct (generate _ _ _ _ _) as [ro|e]; [|intros [= <- <- <-]; open_err].
  destruct (execute _ _ _ _) as [[tc ev]|e]; [|intros [= <- <- <-]; open_err]. cbn [fst snd].
  set (p := assemble_prepared _ _ _ _ _ _ _ _). change (ps_session_id p) with (fresh_session_id fresh).
  unfold on_store at 1. unfold sbind at 1. cbn [fst snd]. change (ps_session p) with (MkSession (session_context_of config fresh request) Attesting).
  rewrite advance_with_session by done. unfold on_store at 1. unfold sbind at 1. cbn [fst snd].
  destruct (check_count_spec config fresh request what (length ts) m ∅) as [[-> Hcount]|[reason ->]];
    [|intros [= <- <- <-]; open_err].
  unfold sbind at 1. cbn [fst snd]. set (ids := _ <$> ts). set (q1 := MkFrostRound1Request _ _ _ _ _ _ _ _ _ _ _ _).
  unfold sbind at 1.
  destruct (run_round_spec config fresh request "round-1" (fun t => t_frost_round1 t q1 (ps_now p)) id ts [] m ∅ ns)
    as (ns1 & [[resps ->]|(t & n & e & _ & _ & ->)]); [|intros [= <- <- <-]; open_err].
  unfold sbind at 1, slift at 1. destruct (assemble_signing_package_from_responses _ _ _) as [[pkg bs]|e] eqn:Hpkg;
    [|intros [= <- <- <-]; open_err].
  set (q2 := MkFrostRound2Request _ _ _ _). unfold sbind at 1.
  destruct (run_round_spec config fresh request "round-2" (fun t => t_frost_round2 t q2)
    (fun resp => (f2r_verifier_id resp, f2r_signature_share_bytes resp)) ts [] m ∅ ns1)
    as (ns2 & [[shares ->]|(t & n & e & _ & _ & ->)]); [|intros [= <- <- <-]; open_err].
  unfold sbind at 1, slift at 1. cbn [fst]. destruct (aggregate_signature_shares _ _ _ _) as [ap|e] eqn:Hagg;
    [|intros [= <- <- <-]; open_err]. cbn [map_err].
  unfold on_store at 1. unfold sbind at 1. cbn [fst snd].
  destruct (record_all_spec config fresh request id ids m ∅) as (vs & rr & Hrec & Hok). unfold id in Hrec at 1. rewrite Hrec.
  destruct rr as [[]|e]; [|intros [= <- <- <-]; open_err].
  destruct (Hok eq_refl) as (Hnd & -> & _). rewrite list_fmap_id in Hnd. rewrite list_fmap_id, (right_id_L ∅ (∪)).
  unfold on_store at 1. unfold sbind at 1. cbn [fst snd]. rewrite advance_with_session by done. intros [= <- <- <-].
  unfold assemble_signing_package_from_responses in Hpkg. apply map_err_Ok, build_signing_package_message in Hpkg as [Hmsg _].
  apply aggregate_signature_shares_Ok in Hagg as (sig & sm & Hsig & ->).
  split_and!; try done.
  - unfold ids. by rewrite length_fmap.
  - apply frost_envelope_good_intro; [by eapply aggregated_verify_signature|done..].
Qed.

Lemma attest_frost_spec rngs signers gk m m' r :
  attest_frost config fresh rngs request response signers gk m = (m', r) ->
  frost_outcome gk (fp_verifier_id <$> signers) m m' r.
Proof.
  unfold attest_frost. unfold sbind at 1. rewrite prepare_spec.
  destruct (m !! fresh_session_id fresh) eqn:Hm; [intros [= <- <-]; by left; rewrite Hm|].
  destruct (generate _ _ _ _ _) as [ro|e]; [|intros [= <- <-]; open_err].
  destruct (execute _ _ _ _) as [[tc ev]|e]; [|intros [= <- <-]; open_err]. cbn [fst snd].
  set (p := assemble_prepared _ _ _ _ _ _ _ _). change (ps_session_id p) with (fresh_session_id fresh).
  unfold sbind at 1. change (ps_session p) with (MkSession (session_context_of config fresh request) Attesting).
  rewrite advance_with_session by done. unfold sbind at 1.
  destruct (check_count_spec config fresh request "FROST signers" (length signers) m ∅) as [[-> Hcount]|[reason ->]];
    [|intros [= <- <-]; open_err].
  unfold sbind at 1, slift at 1. destruct (frost_collect_approval _ _ _ _ _) as [ap|e] eqn:Hap;
    [|intros [= <- <-]; open_err]. cbn [map_err].
  unfold sbind at 1. destruct (record_all_spec config fresh request fp_verifier_id signers m ∅) as (vs & rr & -> & Hok).
  destruct rr as [[]|e]; [|intros [= <- <-]; open_err]. destruct (Hok eq_refl) as (Hnd & -> & _).
  rewrite (right_id_L ∅ (∪)). unfold sbind at 1. rewrite advance_with_session by done. intros [= <- <-].
  destruct (frost_collect_approval_valid _ _ _ _ _ _ Hap) as (Hver & Hd & Hgk & _).
  split_and!; try done.
  - by rewrite length_fmap.
  - by apply frost_envelope_good_intro.
Qed.

Context `{Spec : StoreSpec St}.

(** The outcome of in-process FROST attestation, for every engine and every
    store that implements the contract. On success the session identifier was
    unused, the signers are distinct and at least as many as the threshold,
    the stored session is finalized and approved by exactly them, and the
    envelope carries its own digest, a verifying statement and an approval
    that verifies, is bound to that digest and names the given group key. On
    failure the store is unchanged or holds the new session in a state other
    than Finalized. Other sessions do not change in either case. *)
Theorem attest_frost_outcome rngs signers gk s m s' r :
  store_rel s m ->
  attest_frost config fresh rngs request response signers gk s = (s', r) ->
  exists m', store_rel s' m' /\ frost_outcome gk (fp_verifier_id <$> signers) m m' r.
Proof.
  intros HR Hrun. destruct (attest_frost_sim config fresh rngs request response signers gk s m HR) as [HR' Heq].
  rewrite Hrun in HR', Heq. cbn [fst snd] in *.
  destruct (attest_frost (St:=store_spec) config fresh rngs request response signers gk m) as [m' r'] eqn:Hspec.
  cbn [fst snd] in *. subst r'. exists m'. split; [done|]. by eapply attest_frost_spec.
Qed.

Lemma attest_distributed_result `{Tr : FrostNodeTransport T NS} what epoch (ts : list T) gk s m ns s' ns' r :
  store_rel s m ->
  attest_distributed config what epoch fresh request response ts gk (s, ns) = ((s', ns'), r) ->
  exists m', store_rel s' m' /\ frost_outcome gk ((fun t => t_verifier_id t ns) <$> ts) m m' r.
Proof.
  intros HR Hrun.
  destruct (attest_distributed_sim config what epoch fresh request response ts gk (s, ns) (m, ns)) as [HR' Heq]; [done|].
  rewrite Hrun in HR', Heq. cbn [fst snd] in *.
  destruct (attest_distributed (St:=store_spec) config what epoch fresh request response ts gk (m, ns))
    as [[m' ns2] r'] eqn:Hspec.
  cbn [fst snd] in *. subst r'. exists m'. split; [apply HR'|]. by eapply attest_distributed_spec.
Qed.

(** C2. Distributed FROST attestation has the same outcomes over every transport,
    whatever the nodes answer. *)
Theorem attest_distributed_outcome `{Tr : FrostNodeTransport T NS} what epoch (ts : list T) gk s m ns s' ns' r :
  store_rel s m ->
  attest_distributed config what epoch fresh request response ts gk (s, ns) = ((s', ns'), r) ->
  exists m', store_rel s' m' /\ frost_outcome gk ((fun t => t_verifier_id t ns) <$> ts) m m' r.
Proof. apply attest_distributed_result. Qed.

(** With a registry, nothing happens unless every signer is admitted: a run
    either is the unrestricted run at the expected epoch, which is the
    registry's, with all signers active in the registry, or it returns an
    admission error and changes neither store nor nodes. *)
Theorem registry_gates_signing `{Tr : FrostNodeTransport T NS} registry epoch (ts : list T) gk (w : St * NS) :
  let ids := (fun t => t_verifier_id t w.2) <$> ts in
  let run := attest_frost_distributed_with_registry config registry epoch fresh request response ts gk w in
  (epoch = reg_epoch registry /\
   Forall (fun id => exists p, participants registry !! id = Some p /\ status p = PActive) ids /\
   run = attest_frost_distributed_inner config epoch fresh request response ts gk w) \/
  (~ (epoch = reg_epoch registry /\
      Forall (fun id => exists p, participants registry !! id = Some p /\ status p = PActive) ids) /\
   exists msg, run = (w, Err (SigningAdmission msg))).
Proof.
  intros ids run. unfold run, attest_frost_distributed_with_registry.
  case_bool_decide as He; cbn [negb]; [|right; split; [tauto|eauto]].
  fold ids. unfold sbind, slift. destruct (check_ceremony_admission registry epoch ids) as [[]|e] eqn:Hadm; cbn [map_err].
  - apply admission_Ok in Hadm as [_ Hall]. by left.
  - right. split; [|eauto]. intros Hall%admission_Ok. congruence.
Qed.
End FrostProps2.

(** The client's nonce is not used: requests that differ only in it are handled
    alike. *)
Lemma prepare_ignores_client_nonce {Hs : Sha256} {Ed : Ed25519} {R : RandomnessEngine} {A : AttestationEngine}
    `{St_ops : SessionStore St} config fresh response pid n1 n2 tag query ttl (s : St) :
  prepare_session config fresh (MkAttestationRequest pid n1 tag query ttl) response s
  = prepare_session config fresh (MkAttestationRequest pid n2 tag query ttl) response s.
Proof. reflexivity. Qed.

(** ** Concrete runs *)

Section Runs.
#[local] Existing Instance toy_sha256.
#[local] Existing Instance toy_ed25519.
#[local] Existing Instance toy_frost.
#[local] Instance run_groth16 : Groth16 := toy_groth16 (Ark:=value_ark).
#[local] Instance run_json T : SerdeJson T := no_json T.
#[local] Existing Instance PrototypeAttestationEngine.
#[local] Instance run_randomness : RandomnessEngine :=
  PrototypeDvrf_engine (MkPrototypeDvrf (list_to_map ((fun v => (v, array_repeat 32 (byte 100))) <$> (toy_keys.*1 ++ [vid 21; vid 22])))).

Definition run_config : CoordinatorConfig :=
  MkCoordinatorConfig (vid 9) Epoch_GENESIS toy_quorum (n64 60) toy_keys.
(** A quorum without any of the FROST participants. *)
Definition other_config : CoordinatorConfig :=
  MkCoordinatorConfig (vid 9) Epoch_GENESIS (MkQuorumSpec [vid 21; vid 22] (n64 2)) (n64 60) [].
Definition run_fresh : Fresh := MkFresh (MkUnixTimestamp (n64 10)) (sid 4) toy_nonce toy_rid.
Definition run_request : AttestationRequest :=
  MkAttestationRequest (MkProverId (array_repeat 32 (byte 8))) toy_nonce "t" (string_bytes "GET /") (n64 30).
Definition run_response : bytes := string_bytes "200".

Lemma attest_sound_witness :
  let run := attest run_config run_fresh run_request run_response
               (PrototypeThresholdSigner <$> [toy_kp 1; toy_kp 3]) InMemorySessionStore_new in
  exists envelope, run.2 = Ok (Success envelope) /\ AttestationEnvelope_verify_digest envelope = true.
Proof.
  intros run.
  destruct (attest_sound run_config run_fresh run_request run_response InMemorySessionStore_new ∅
    (PrototypeThresholdSigner <$> [toy_kp 1; toy_kp 3]) run.1 (unwrap_or (Failure (sid 0) "") run.2))
    as (envelope & vs & Hr & _ & _ & _ & Hd & _).
  - exact mem_rel_new.
  - apply (run_ok_unwrap (Failure (sid 0) "")). vm_compute. reflexivity.
  - exists envelope. split; [|exact Hd]. rewrite <- Hr. apply is_ok_unwrap. vm_compute. reflexivity.
Defined.

Lemma attest_failure_leaves_session_open_witness :
  let run := attest run_config run_fresh run_request run_response [] InMemorySessionStore_new in
  exists st vs, mem_rel run.1 (with_session run_config run_fresh run_request ∅ st vs) /\
    st ∈ [Active; Attesting; Collecting].
Proof.
  intros run.
  destruct (attest_failure_leaves_session_open run_config run_fresh run_request run_response InMemorySessionStore_new ∅
    [] run.1 (NodeCrypto (InsufficientSignatures 2 0))) as [(_ & He & _)|(_ & H)].
  - exact mem_rel_new.
  - unfold run. rewrite (surjective_pairing (attest _ _ _ _ _ _)) at 1. f_equal; vm_compute; reflexivity.
  - discriminate He.
  - exact H.
Defined.

Lemma attest_honest_succeeds_witness :
  exists s' envelope,
    attest run_config run_fresh run_request run_response (PrototypeThresholdSigner <$> [toy_kp 1; toy_kp 3])
      InMemorySessionStore_new = (s', Ok (Success envelope)).
Proof.
  destruct (generate toy_rid (sid 4) toy_nonce Epoch_GENESIS toy_keys.*1) as [ro|e] eqn:Hro;
    [|exfalso; revert Hro; vm_compute; discriminate].
  destruct (attest_honest_succeeds run_config run_fresh run_request run_response InMemorySessionStore_new ∅
    [toy_kp 1; toy_kp 3] ro
    (unwrap_or (MkTranscriptCommitments (MkTranscriptCommitment "" (digest 0)) (MkTranscriptCommitment "" (digest 0)) (digest 0),
                ExportableEvidence_new "" [])
       (execute (session_context_of run_config run_fresh run_request) (ro_value ro) (rq_query run_request) run_response)))
    as (s' & envelope & Hrun & _).
  - exact mem_rel_new.
  - reflexivity.
  - exact Hro.
  - reflexivity.
  - apply (bool_decide_unpack (NoDup (kp_verifier_id <$> [toy_kp 1; toy_kp 3]))). vm_compute. exact I.
  - repeat constructor; vm_compute; reflexivity.
  - vm_compute. reflexivity.
  - exists s', envelope. exact Hrun.
Defined.

Definition no_envelope : FrostAttestationEnvelope :=
  frost_envelope (assemble_prepared run_config run_fresh run_request run_response (Session_new (session_context_of run_config run_fresh run_request))
    (toy_randomness []) (TranscriptCommitments_build (sid 0) (digest 0) [] []) (ExportableEvidence_new "" []))
    (MkFrostThresholdApproval (digest 0) (array_repeat 64 (byte 0)) (array_repeat 32 (byte 0))).

Definition run_rngs : nat -> Frost.Rng := fun i => [byte (Z.of_nat i)].

(** The two signers of this run are not among the quorum's verifiers. *)
Lemma attest_frost_outcome_witness :
  let run := attest_frost other_config run_fresh run_rngs run_request run_response
               [toy_participant 3 1; toy_participant 3 2] (toy_group 3) InMemorySessionStore_new in
  ((vid 1 ∉ verifiers (cc_quorum other_config)) /\ (vid 2 ∉ verifiers (cc_quorum other_config))) /\
  exists m e, mem_rel run.1 m /\ run.2 = Ok e /\ m = with_session other_config run_fresh run_request ∅ Finalized
    (list_to_set [vid 1; vid 2]) /\ frost_envelope_good other_config run_fresh run_request (toy_group 3) e.
Proof.
  intros run. split; [split; apply (bool_decide_unpack _); vm_compute; exact I|].
  assert (Hok : run.2 = Ok (unwrap_or no_envelope run.2)) by (apply is_ok_unwrap; vm_compute; reflexivity).
  destruct (attest_frost_outcome other_config run_fresh run_request run_response run_rngs
    [toy_participant 3 1; toy_participant 3 2] (toy_group 3) InMemorySessionStore_new ∅ run.1 run.2)
    as (m & HR & Hout).
  - exact mem_rel_new.
  - apply surjective_pairing.
  - exists m, (unwrap_or no_envelope run.2). rewrite Hok in Hout. destruct Hout as (_ & Hm & _ & _ & Hgood).
    split_and!; assumption.
Defined.

(** Two nodes, reached through references. *)
Definition run_nodes : Nodes := fun i => FrostAuxiliaryNode_new (toy_participant 3 (S i)).
Definition run_transports : list InProcessTransport :=
  [MkInProcessTransport 0 (ex_env 7); MkInProcessTransport 1 (ex_env 8)].

Lemma attest_distributed_outcome_witness :
  let run := attest_frost_distributed run_config run_fresh run_request run_response run_transports (toy_group 3)
               (InMemorySessionStore_new, run_nodes) in
  exists m e, mem_rel run.1.1 m /\ run.2 = Ok e /\
    m = with_session run_config run_fresh run_request ∅ Finalized (list_to_set [vid 1; vid 2]) /\
    frost_envelope_good run_config run_fresh run_request (toy_group 3) e.
Proof.
  intros run.
  assert (Hok : run.2 = Ok (unwrap_or no_envelope run.2)) by (apply is_ok_unwrap; vm_compute; reflexivity).
  destruct (attest_distributed_outcome run_config run_fresh run_request run_response "aux nodes" RegistryEpoch_GENESIS
    run_transports (toy_group 3) InMemorySessionStore_new ∅ run_nodes run.1.1 run.1.2 run.2) as (m & HR & Hout).
  - exact mem_rel_new.
  - rewrite <- surjective_pairing. apply surjective_pairing.
  - exists m, (unwrap_or no_envelope run.2). rewrite Hok in Hout. destruct Hout as (_ & Hm & _ & _ & Hgood).
    split_and!; assumption.
Defined.
End Runs.
