(* ===== verification/NodeTransport.v ===== *)
(** * Remote transports of the auxiliary nodes

    Models [node/src/transport.rs] beyond the in-process transport: the plain,
    the signed and the mutual-TLS transport of the coordinator with the servers
    that answer them, the identities and key registries of [node/src/auth.rs],
    and the coordinator's handshake-binding protocol of
    [node/src/handshake_binding.rs].

    A connection carries the bytes of one request to a peer and the bytes of its
    answer back; peers are arbitrary and may act on a shared state. What a socket
    or rustls does is the parameter [net]; streams end, but do not fail midway.
    Readings of the clock are arguments, log output is left out. *)

From S2P Require Import Prelude Core Session Storage Attestation Threshold Registry Dctls Network Mtls Errors.
From S2P Require Import Sha256Gadget HmacGadget CoSnark Frost FrostAux Coordinator.

(** ** Debug texts of responses *)

(** [{:?}] of a slice of bytes. *)
Definition bytes_debug (l : bytes) : string :=
  "[" +:+ String.concat ", " ((fun b : u8 => pretty (uval b)) <$> l) +:+ "]".
Definition SessionId_debug (s : SessionId) : string := "SessionId(" +:+ bytes_debug (arr (as_bytes s)) +:+ ")".
Definition VerifierId_debug (v : VerifierId) : string := "VerifierId(" +:+ bytes_debug (arr (as_bytes v)) +:+ ")".

Definition round1_debug (ty : string) (s : SessionId) (v : VerifierId) (b : bytes) : string :=
  ty +:+ " { session_id: " +:+ SessionId_debug s +:+ ", verifier_id: " +:+ VerifierId_debug v +:+
  ", commitment_bytes: " +:+ bytes_debug b +:+ " }".
Definition round2_debug (ty : string) (s : SessionId) (v : VerifierId) (b : bytes) : string :=
  ty +:+ " { session_id: " +:+ SessionId_debug s +:+ ", verifier_id: " +:+ VerifierId_debug v +:+
  ", signature_share_bytes: " +:+ bytes_debug b +:+ " }".

Definition NodeResponse_debug (r : NodeResponse) : string :=
  match r with
  | RespFrostRound1 m => "FrostRound1(" +:+
      round1_debug "FrostRound1Response" (f1r_session_id m) (f1r_verifier_id m) (f1r_commitment_bytes m) +:+ ")"
  | RespFrostRound2 m => "FrostRound2(" +:+
      round2_debug "FrostRound2Response" (f2r_session_id m) (f2r_verifier_id m) (f2r_signature_share_bytes m) +:+ ")"
  | RespHandshakeBindingRound1 m => "HandshakeBindingRound1(" +:+
      round1_debug "HandshakeBindingRound1Response" (hb1r_session_id m) (hb1r_verifier_id m) (hb1r_commitment_bytes m) +:+ ")"
  | RespHandshakeBindingRound2 m => "HandshakeBindingRound2(" +:+
      round2_debug "HandshakeBindingRound2Response" (hb2r_session_id m) (hb2r_verifier_id m)
        (hb2r_signature_share_bytes m) +:+ ")"
  | RespError reason => "Error { reason: " +:+ str_debug reason +:+ " }"
  end.

(** ** Connections *)

(** A socket address, as it is displayed. *)
Definition SocketAddr : Type := string.

(** What can fail before a byte is sent. *)
Inductive socket_fault := ConnectFails (e : string) | TimeoutFails (e : string) | CloneFails (e : string) | TlsInitFails (e : string).

(** A peer: opening a connection to it, and what it answers to the bytes sent
    until the connection is closed. *)
Record Channel (NS : Type) := MkChannel {
  ch_connect : NS -> NS * option socket_fault;
  ch_exchange : bytes -> NS -> NS * bytes
}.
Arguments MkChannel {NS}.
Arguments ch_connect {NS}.
Arguments ch_exchange {NS}.

Section Client.
Context {NS : Type} (net : SocketAddr -> Channel NS).
Local Open Scope stres_scope.

(** [write_frame] on a fresh connection, then [read_frame]; a request that
    cannot be written leaves the peer with an empty stream. *)
Definition exchange_frames `{Jq : SerdeJson Req} `{Jr : SerdeJson Resp} (c : Channel NS)
    (write_err read_err : NetworkError -> NodeError) (req : Req) : stres NS NodeError Resp := fun ns =>
  match write_frame req [] with
  | (_, Err e) => ((ch_exchange c [] ns).1, Err (write_err e))
  | (out, Ok _) =>
      let '(ns', inp) := ch_exchange c out ns in
      (ns', map_err read_err (fst <$> read_frame inp))
  end.

(** Text of a [NodeError::FrostProtocol] about a network error. *)
Definition about (what : string) (e : NetworkError) : NodeError := FrostProtocol (what +:+ ": " +:+ NetworkError_to_string e).

(** The [match] on the response, for each call, with the two texts. *)
Definition expect_round1 (rejected unexpected : string) (resp : NodeResponse) : result NodeError FrostRound1Response :=
  match resp with
  | RespFrostRound1 r => Ok r
  | RespError reason => Err (FrostProtocol (rejected +:+ reason))
  | other => Err (FrostProtocol (unexpected +:+ NodeResponse_debug other))
  end.
Definition expect_round2 (rejected unexpected : string) (resp : NodeResponse) : result NodeError FrostRound2Response :=
  match resp with
  | RespFrostRound2 r => Ok r
  | RespError reason => Err (FrostProtocol (rejected +:+ reason))
  | other => Err (FrostProtocol (unexpected +:+ NodeResponse_debug other))
  end.
Definition expect_hb_round1 (rejected unexpected : string) (resp : NodeResponse)
    : result NodeError HandshakeBindingRound1Response :=
  match resp with
  | RespHandshakeBindingRound1 r => Ok r
  | RespError reason => Err (FrostProtocol (rejected +:+ reason))
  | other => Err (FrostProtocol (unexpected +:+ NodeResponse_debug other))
  end.
Definition expect_hb_round2 (rejected unexpected : string) (resp : NodeResponse)
    : result NodeError HandshakeBindingRound2Response :=
  match resp with
  | RespHandshakeBindingRound2 r => Ok r
  | RespError reason => Err (FrostProtocol (rejected +:+ reason))
  | other => Err (FrostProtocol (unexpected +:+ NodeResponse_debug other))
  end.

Context {Jq : SerdeJson NodeRequest} {Jr : SerdeJson NodeResponse}.

(** *** Plain TCP *)

Record TcpNodeTransport := MkTcpNodeTransport {
  tn_verifier_id : VerifierId;
  tn_addr : SocketAddr;
  tn_timeout_secs : Z
}.

(** [addr.to_socket_addrs()] is an argument. *)
Definition TcpNodeTransport_new (v : VerifierId) (addrs : result string (list SocketAddr))
    : result NetworkError TcpNodeTransport :=
  l ← map_err NetSerialization addrs;
  addr ← ok_or (NetSerialization "no address resolved") (head l);
  Ok {| tn_verifier_id := v; tn_addr := addr; tn_timeout_secs := 30 |}.

Definition with_timeout (secs : Z) (self : TcpNodeTransport) : TcpNodeTransport :=
  {| tn_verifier_id := tn_verifier_id self; tn_addr := tn_addr self; tn_timeout_secs := secs |}.

(** [connect], and the cloning of the stream with the text of its caller. *)
Definition connect (clone_text : string) (self : TcpNodeTransport) : stres NS NodeError unit := fun ns =>
  let '(ns', fault) := ch_connect (net (tn_addr self)) ns in
  (ns', match fault with
        | None => Ok tt
        | Some (ConnectFails e) => Err (FrostProtocol ("TCP connect to " +:+ tn_addr self +:+ ": " +:+ e))
        | Some (TimeoutFails e) => Err (FrostProtocol ("set_read_timeout: " +:+ e))
        | Some (CloneFails e) | Some (TlsInitFails e) => Err (FrostProtocol (clone_text +:+ e))
        end).

Definition tcp_call {A} (clone_text write_text read_text : string) (f : NodeResponse -> result NodeError A)
    (self : TcpNodeTransport) (req : NodeRequest) : stres NS NodeError A :=
  connect clone_text self ;;;
  resp <-- exchange_frames (net (tn_addr self)) (about write_text) (about read_text) req ;;
  slift (f resp).

Definition tcp_frost_round1 (self : TcpNodeTransport) (req : FrostRound1Request) (_ : UnixTimestamp) :=
  tcp_call "stream clone for write: " "write round-1 request" "read round-1 response"
    (expect_round1 "aux node rejected round-1: " "unexpected response type for round-1: ") self (ReqFrostRound1 req).
Definition tcp_frost_round2 (self : TcpNodeTransport) (req : FrostRound2Request) :=
  tcp_call "stream clone for write: " "write round-2 request" "read round-2 response"
    (expect_round2 "aux node rejected round-2: " "unexpected response type for round-2: ") self (ReqFrostRound2 req).
Definition tcp_handshake_binding_round1 (self : TcpNodeTransport) (req : HandshakeBindingRound1Request) (_ : UnixTimestamp) :=
  tcp_call "stream clone: " "write hb-round1 req" "read hb-round1 resp"
    (expect_hb_round1 "aux node rejected hb-round1: " "unexpected hb-round1 response: ") self (ReqHandshakeBindingRound1 req).
Definition tcp_handshake_binding_round2 (self : TcpNodeTransport) (req : HandshakeBindingRound2Request) :=
  tcp_call "stream clone: " "write hb-round2 req" "read hb-round2 resp"
    (expect_hb_round2 "aux node rejected hb-round2: " "unexpected hb-round2 response: ") self (ReqHandshakeBindingRound2 req).

Definition tcp_transport : FrostNodeTransport TcpNodeTransport NS := {|
  t_verifier_id t _ := tn_verifier_id t;
  t_frost_round1 := tcp_frost_round1;
  t_frost_round2 := tcp_frost_round2;
  t_handshake_binding_round1 := tcp_handshake_binding_round1;
  t_handshake_binding_round2 := tcp_handshake_binding_round2
|}.

(** *** Mutual TLS *)

(** The TLS stream is the channel: what rustls does with the configuration once
    the connection is open is part of [net]. *)
Record MtlsTcpNodeTransport := MkMtlsTcpNodeTransport {
  mt_verifier_id : VerifierId;
  mt_addr : SocketAddr;
  mt_tls_config : ClientConfig;
  mt_timeout_secs : Z
}.

Definition MtlsTcpNodeTransport_new {Ru : Rustls} (v : VerifierId) (addrs : result string (list SocketAddr))
    (bundle : MtlsNodeBundle) : result NetworkError MtlsTcpNodeTransport :=
  l ← map_err NetSerialization addrs;
  addr ← ok_or (NetSerialization "no address resolved") (head l);
  tls_config ← client_config bundle;
  Ok {| mt_verifier_id := v; mt_addr := addr; mt_tls_config := tls_config; mt_timeout_secs := 30 |}.

Definition mtls_with_timeout (secs : Z) (self : MtlsTcpNodeTransport) : MtlsTcpNodeTransport :=
  {| mt_verifier_id := mt_verifier_id self; mt_addr := mt_addr self; mt_tls_config := mt_tls_config self;
     mt_timeout_secs := secs |}.

Definition connect_tls (self : MtlsTcpNodeTransport) : stres NS NodeError unit := fun ns =>
  let '(ns', fault) := ch_connect (net (mt_addr self)) ns in
  (ns', match fault with
        | None => Ok tt
        | Some (ConnectFails e) => Err (FrostProtocol ("mTLS TCP connect to " +:+ mt_addr self +:+ ": " +:+ e))
        | Some (TimeoutFails e) => Err (FrostProtocol ("set_read_timeout: " +:+ e))
        | Some (CloneFails e) | Some (TlsInitFails e) => Err (FrostProtocol ("TLS client init: " +:+ e))
        end).

Definition mtls_call {A} (write_text read_text : string) (f : NodeResponse -> result NodeError A)
    (self : MtlsTcpNodeTransport) (req : NodeRequest) : stres NS NodeError A :=
  connect_tls self ;;;
  resp <-- exchange_frames (net (mt_addr self)) (about write_text) (about read_text) req ;;
  slift (f resp).

Definition mtls_frost_round1 (self : MtlsTcpNodeTransport) (req : FrostRound1Request) (_ : UnixTimestamp) :=
  mtls_call "mTLS write round-1" "mTLS read round-1"
    (expect_round1 "mTLS aux node rejected round-1: " "unexpected mTLS response for round-1: ") self (ReqFrostRound1 req).
Definition mtls_frost_round2 (self : MtlsTcpNodeTransport) (req : FrostRound2Request) :=
  mtls_call "mTLS write round-2" "mTLS read round-2"
    (expect_round2 "mTLS aux node rejected round-2: " "unexpected mTLS response for round-2: ") self (ReqFrostRound2 req).
Definition mtls_handshake_binding_round1 (self : MtlsTcpNodeTransport) (req : HandshakeBindingRound1Request) (_ : UnixTimestamp) :=
  mtls_call "mTLS write hb-round1" "mTLS read hb-round1"
    (expect_hb_round1 "mTLS aux node rejected hb-round1: " "unexpected mTLS hb-round1 response: ") self
    (ReqHandshakeBindingRound1 req).
Definition mtls_handshake_binding_round2 (self : MtlsTcpNodeTransport) (req : HandshakeBindingRound2Request) :=
  mtls_call "mTLS write hb-round2" "mTLS read hb-round2"
    (expect_hb_round2 "mTLS aux node rejected hb-round2: " "unexpected mTLS hb-round2 response: ") self
    (ReqHandshakeBindingRound2 req).

Definition mtls_transport : FrostNodeTransport MtlsTcpNodeTransport NS := {|
  t_verifier_id t _ := mt_verifier_id t;
  t_frost_round1 := mtls_frost_round1;
  t_frost_round2 := mtls_frost_round2;
  t_handshake_binding_round1 := mtls_handshake_binding_round1;
  t_handshake_binding_round2 := mtls_handshake_binding_round2
|}.
End Client.

(** ** Identities and key registries (auth.rs) *)

Section Auth.
Context {Hs : Sha256} {Ed : Ed25519}.

Record NodeIdentity := MkNodeIdentity { ni_verifier_id : VerifierId; ni_signing_key : SigningKey }.

(** [generate] is this function of a fresh random key. *)
Definition NodeIdentity_from_signing_key (sk : SigningKey) : NodeIdentity :=
  {| ni_verifier_id := VerifierId_from_public_key (arr (ed_key_bytes (ed_verifying_key sk))); ni_signing_key := sk |}.
Definition identity_verifying_key (self : NodeIdentity) : VerifyingKey := ed_verifying_key (ni_signing_key self).

Record NodeKeyRegistry := MkNodeKeyRegistry { nk_inner : EnvelopeKeyRegistry }.
Definition NodeKeyRegistry_new (entries : list (VerifierId * VerifyingKey)) : NodeKeyRegistry :=
  MkNodeKeyRegistry (EnvelopeKeyRegistry_new entries).
Definition from_identities (ids : list NodeIdentity) : NodeKeyRegistry :=
  NodeKeyRegistry_new ((fun i => (ni_verifier_id i, identity_verifying_key i)) <$> ids).
Definition as_envelope_registry (self : NodeKeyRegistry) : EnvelopeKeyRegistry := nk_inner self.
Definition key_registry_len (self : NodeKeyRegistry) : nat := EnvelopeKeyRegistry_len (nk_inner self).
Definition key_registry_is_empty (self : NodeKeyRegistry) : bool := EnvelopeKeyRegistry_is_empty (nk_inner self).

(** ** The signed transport *)

Section AuthClient.
Context {NS : Type} (net : SocketAddr -> Channel NS).
Context {Jq : SerdeJson NodeRequest} {Jr : SerdeJson NodeResponse} {Jv : SerdeJson SignedEnvelope}.
Local Open Scope stres_scope.

(** With the readings of the clock by [seal] and before [open]. *)
Record AuthTcpNodeTransport := MkAuthTcpNodeTransport {
  at_inner : TcpNodeTransport;
  at_identity : NodeIdentity;
  at_registry : NodeKeyRegistry;
  at_seal_now : u64;
  at_open_now : u64
}.

(** The readings of the clock by [seal] and [open] are added to the fields. *)
Definition AuthTcpNodeTransport_new (inner : TcpNodeTransport) (identity : NodeIdentity) (registry : NodeKeyRegistry)
    (seal_now open_now : u64) : AuthTcpNodeTransport :=
  {| at_inner := inner; at_identity := identity; at_registry := registry; at_seal_now := seal_now; at_open_now := open_now |}.

Definition send_recv (self : AuthTcpNodeTransport) (request : NodeRequest) : stres NS NodeError NodeResponse :=
  envelope <-- slift (map_err (about "sign request")
    (seal (at_seal_now self) (ni_verifier_id (at_identity self)) (ni_signing_key (at_identity self)) request)) ;;
  connect net "stream clone: " (at_inner self) ;;;
  resp_env <-- exchange_frames (net (tn_addr (at_inner self))) (about "write envelope") (about "read response envelope")
                 envelope ;;
  slift (map_err (about "verify response")
    (open resp_env (as_envelope_registry (at_registry self)) (at_open_now self))).

Definition auth_call {A} (f : NodeResponse -> result NodeError A) (self : AuthTcpNodeTransport) (req : NodeRequest)
    : stres NS NodeError A :=
  resp <-- send_recv self req ;; slift (f resp).

Definition auth_frost_round1 (self : AuthTcpNodeTransport) (req : FrostRound1Request) (_ : UnixTimestamp) :=
  auth_call (expect_round1 "auth aux node rejected round-1: " "unexpected response for round-1: ") self (ReqFrostRound1 req).
Definition auth_frost_round2 (self : AuthTcpNodeTransport) (req : FrostRound2Request) :=
  auth_call (expect_round2 "auth aux node rejected round-2: " "unexpected response for round-2: ") self (ReqFrostRound2 req).
Definition auth_handshake_binding_round1 (self : AuthTcpNodeTransport) (req : HandshakeBindingRound1Request) (_ : UnixTimestamp) :=
  auth_call (expect_hb_round1 "auth aux node rejected hb-round1: " "unexpected auth response for hb-round1: ") self
    (ReqHandshakeBindingRound1 req).
Definition auth_handshake_binding_round2 (self : AuthTcpNodeTransport) (req : HandshakeBindingRound2Request) :=
  auth_call (expect_hb_round2 "auth aux node rejected hb-round2: " "unexpected auth response for hb-round2: ") self
    (ReqHandshakeBindingRound2 req).

Definition auth_transport : FrostNodeTransport AuthTcpNodeTransport NS := {|
  t_verifier_id t _ := tn_verifier_id (at_inner t);
  t_frost_round1 := auth_frost_round1;
  t_frost_round2 := auth_frost_round2;
  t_handshake_binding_round1 := auth_handshake_binding_round1;
  t_handshake_binding_round2 := auth_handshake_binding_round2
|}.
End AuthClient.
End Auth.

(** ** The servers *)

Section Servers.
Context {Hs : Sha256} {Ed : Ed25519} {Fr : FrostEd25519} {G : Groth16}.
Context {Jh : SerdeJson HspProof} {Je : SerdeJson DctlsEvidence}.
Context {Jq : SerdeJson NodeRequest} {Jr : SerdeJson NodeResponse} {Jv : SerdeJson SignedEnvelope}.

(** What handling one connection reads from its environment: the clock before
    [open], before the dispatch and in [seal], and what the node itself reads. *)
Record ServerEnv := MkServerEnv {
  sv_open_now : u64;
  sv_now : UnixTimestamp;
  sv_seal_now : u64;
  sv_env : Env
}.

Definition respond {A} (f : A -> NodeResponse) (r : FrostAuxiliaryNode * result NodeError A)
    : FrostAuxiliaryNode * NodeResponse :=
  (r.1, match r.2 with Ok a => f a | Err e => RespError (NodeError_to_string e) end).

(** The [match] on the request, the same in all servers. *)
Definition dispatch (sv : ServerEnv) (request : NodeRequest) (node : FrostAuxiliaryNode)
    : FrostAuxiliaryNode * NodeResponse :=
  match request with
  | ReqFrostRound1 req => respond RespFrostRound1 (frost_round1 req (sv_now sv) (sv_env sv) node)
  | ReqFrostRound2 req => respond RespFrostRound2 (frost_round2 req node)
  | ReqHandshakeBindingRound1 req =>
      respond RespHandshakeBindingRound1 (handshake_binding_round1 req (sv_now sv) (sv_env sv) node)
  | ReqHandshakeBindingRound2 req => respond RespHandshakeBindingRound2 (handshake_binding_round2 req node)
  end.

(** [TcpAuxServer] and [MtlsTcpAuxServer]: the bytes received, the node; its new
    state, the bytes sent and the result. *)
Definition handle_connection (sv : ServerEnv) (source : bytes) (node : FrostAuxiliaryNode)
    : FrostAuxiliaryNode * (bytes * result NetworkError unit) :=
  match read_frame source with
  | Err ChannelClosed => (node, ([], Ok tt))
  | Err e => (node, ([], Err e))
  | Ok (request, _) =>
      let '(node', response) := dispatch sv request node in
      (node', write_frame response [])
  end.

Definition mtls_handle_connection (server_connection : result string unit) (sv : ServerEnv) (source : bytes)
    (node : FrostAuxiliaryNode) : FrostAuxiliaryNode * (bytes * result NetworkError unit) :=
  match server_connection with
  | Err e => (node, ([], Err (NetSerialization ("TLS server init: " +:+ e))))
  | Ok _ => handle_connection sv source node
  end.

Definition auth_handle_connection (identity : NodeIdentity) (registry : NodeKeyRegistry) (sv : ServerEnv) (source : bytes)
    (node : FrostAuxiliaryNode) : FrostAuxiliaryNode * (bytes * result NetworkError unit) :=
  match read_frame source with
  | Err ChannelClosed => (node, ([], Ok tt))
  | Err e => (node, ([], Err e))
  | Ok (req_env, _) =>
      match open req_env (as_envelope_registry registry) (sv_open_now sv) with
      | Err e => (node, ([], Err (AuthFailed ("request auth failed: " +:+ NetworkError_to_string e))))
      | Ok request =>
          let '(node', inner_response) := dispatch sv request node in
          match seal (sv_seal_now sv) (ni_verifier_id identity) (ni_signing_key identity) inner_response with
          | Err e => (node', ([], Err e))
          | Ok resp_env => (node', write_frame resp_env [])
          end
      end
  end.

(** [for result in listener.incoming()]: every event comes with the shutdown flag
    read in its iteration; the connections handed to a thread. *)
Fixpoint accept_loop {C} (incoming : list (bool * result string C)) : list C :=
  match incoming with
  | [] => []
  | (true, _) :: _ => []
  | (false, Ok stream) :: rest => stream :: accept_loop rest
  | (false, Err _) :: rest => accept_loop rest
  end.
End Servers.

(** ** Handshake binding (handshake_binding.rs) *)

Section HandshakeBinding.
Context {Hs : Sha256} {Ed : Ed25519} {Fr : FrostEd25519}.
Context {T NS : Type} {Tr : FrostNodeTransport T NS}.
Local Open Scope stres_scope.

(** [transports.iter().map(call).collect::<Result<Vec<_>, _>>()] *)
Fixpoint call_all {B} (call : T -> stres NS NodeError B) (transports : list T) : stres NS NodeError (list B) :=
  match transports with
  | [] => sret []
  | t :: rest => b <-- call t ;; bs <-- call_all call rest ;; sret (b :: bs)
  end.

Definition run_handshake_binding (now : UnixTimestamp) (session_id : SessionId) (coordinator_id : VerifierId)
    (binding_input : DigestBytes) (group_key : FrostGroupKey) (transports : list T) (round_ttl_secs : u64)
    (registry_epoch : RegistryEpoch) : stres NS NodeError (array 64) := fun ns =>
  let expires := MkUnixTimestamp (u_saturating_add (UnixTimestamp_0 now) round_ttl_secs) in
  let signer_set := (fun t => t_verifier_id t ns) <$> transports in
  let r1_req := {| hb1_session_id := session_id; hb1_coordinator_id := coordinator_id;
    hb1_binding_input := binding_input; hb1_signer_set := signer_set; hb1_round_expires_at := expires;
    hb1_registry_epoch := registry_epoch |} in
  (r1_responses <-- call_all (fun t => t_handshake_binding_round1 t r1_req now) transports ;;
   pkg <-- slift (assemble_hb_signing_package_from_responses r1_responses binding_input group_key) ;;
   let r2_req := {| hb2_session_id := session_id; hb2_coordinator_id := coordinator_id;
     hb2_signing_package_bytes := pkg.2; hb2_signer_set := signer_set |} in
   r2_responses <-- call_all (fun t => t_handshake_binding_round2 t r2_req) transports ;;
   let shares := (fun r => (hb2r_verifier_id r, hb2r_signature_share_bytes r)) <$> r2_responses in
   approval <-- slift (map_err NodeCrypto (aggregate_signature_shares pkg.1 shares group_key binding_input)) ;;
   sret (aggregate_signature_bytes approval)) ns.
End HandshakeBinding.

(** ** Properties *)

(** The message can be sent in one frame. *)
Definition fits_frame `{J : SerdeJson A} (v : A) : Prop :=
  exists json, json_to_vec v = Ok json /\ Z.of_nat (length json) <= MAX_FRAME_BYTES.

(** A frame is read as written, and only a message that fits is written. *)
Lemma fits_frame_wire `{J : SerdeJson A} (v : A) :
  fits_frame v -> exists wire, write_frame v [] = (wire, Ok tt) /\ read_frame wire = Ok (v, []).
Proof.
  intros (json & Hjson & Hlen). eexists. split.
  - apply write_frame_Ok. exists json. split_and!; [done| |done].
    unfold MAX_FRAME_BYTES in *. rewrite Z.mod_small; lia.
  - cbn [app]. pose proof (read_write_frame json [] v Hlen Hjson) as Hr. by rewrite app_nil_r in Hr.
Qed.

Section Loopback.
Context {Hs : Sha256} {Ed : Ed25519} {Fr : FrostEd25519} {G : Groth16}.
Context {Jh : SerdeJson HspProof} {Je : SerdeJson DctlsEvidence}.
Context {Jq : SerdeJson NodeRequest} {Jr : SerdeJson NodeResponse} {Jv : SerdeJson SignedEnvelope}.

(** The channel to a server with handler [h] for node number [i]. *)
Definition server_channel (i : nat) (h : bytes -> FrostAuxiliaryNode -> FrostAuxiliaryNode * (bytes * result NetworkError unit))
    : Channel Nodes := {|
  ch_connect ns := (ns, None);
  ch_exchange out ns := let '(n, (inp, _)) := h out (ns i) in (fun j => if decide (j = i) then n else ns j, inp)
|}.

Lemma exchange_plain i sv write_err read_err req ns :
  fits_frame req -> fits_frame (dispatch sv req (ns i)).2 ->
  exchange_frames (server_channel i (handle_connection sv)) write_err read_err req ns =
  (fun j => if decide (j = i) then (dispatch sv req (ns i)).1 else ns j, Ok (dispatch sv req (ns i)).2).
Proof.
  intros (wire & Hw & Hr)%fits_frame_wire (wire' & Hw' & Hr')%fits_frame_wire.
  unfold exchange_frames. rewrite Hw. cbn [server_channel ch_exchange]. unfold handle_connection. rewrite Hr.
  destruct (dispatch sv req (ns i)) as [n resp]. cbn [fst snd] in *. rewrite Hw'. by rewrite Hr'.
Qed.

(** The sealed message fits a frame. *)
Definition fits_sealed `{J : SerdeJson A} (now : u64) (identity : NodeIdentity) (v : A) : Prop :=
  exists env, seal now (ni_verifier_id identity) (ni_signing_key identity) v = Ok env /\ fits_frame env.

Lemma send_recv_server net t i identity registry sv req ns :
  net (tn_addr (at_inner t)) = server_channel i (auth_handle_connection identity registry sv) ->
  lookup_key (as_envelope_registry registry) (ni_verifier_id (at_identity t)) = Some (identity_verifying_key (at_identity t)) ->
  lookup_key (as_envelope_registry (at_registry t)) (ni_verifier_id identity) = Some (identity_verifying_key identity) ->
  Z.abs (uval (sv_open_now sv) - uval (at_seal_now t)) <= TIMESTAMP_TOLERANCE_SECS ->
  Z.abs (uval (at_open_now t) - uval (sv_seal_now sv)) <= TIMESTAMP_TOLERANCE_SECS ->
  fits_sealed (at_seal_now t) (at_identity t) req -> fits_sealed (sv_seal_now sv) identity (dispatch sv req (ns i)).2 ->
  send_recv net t req ns =
  (fun j => if decide (j = i) then (dispatch sv req (ns i)).1 else ns j, Ok (dispatch sv req (ns i)).2).
Proof.
  intros Hnet Hk1 Hk2 Ht1 Ht2 (env & Hseal & Hfit) (env' & Hseal' & Hfit').
  apply fits_frame_wire in Hfit as (wire & Hw & Hr), Hfit' as (wire' & Hw' & Hr').
  pose proof (sealed_opens _ _ _ _ _ _ Hseal Hk1 _ Ht1) as Hopen.
  pose proof (sealed_opens _ _ _ _ _ _ Hseal' Hk2 _ Ht2) as Hopen'.
  unfold send_recv, connect, exchange_frames, sbind, slift. rewrite Hseal. cbn [map_err]. rewrite Hnet.
  cbn [server_channel ch_connect ch_exchange]. rewrite Hw. unfold auth_handle_connection. rewrite Hr, Hopen.
  destruct (dispatch sv req (ns i)) as [n resp]. cbn [fst snd] in *. rewrite Hseal', Hw', Hr'. cbn [fmap result_fmap map_err fst].
  by rewrite Hopen'.
Qed.

(** The result of a call on the node, as a remote caller sees it. *)
Definition remote {A} (rejected : string) (r : Nodes * result NodeError A) : Nodes * result NodeError A :=
  (r.1, map_err (fun e => FrostProtocol (rejected +:+ NodeError_to_string e)) r.2).

Lemma remote_on_node {A} rejected i (f : A -> NodeResponse) (expect : NodeResponse -> result NodeError A)
    (m : stres FrostAuxiliaryNode NodeError A) (ns : Nodes) :
  (forall a, expect (f a) = Ok a) -> (forall reason, expect (RespError reason) = Err (FrostProtocol (rejected +:+ reason))) ->
  (fun j => if decide (j = i) then (respond f (m (ns i))).1 else ns j, expect (respond f (m (ns i))).2) =
  remote rejected (on_node i m ns).
Proof.
  intros Hok Herr. unfold remote, on_node, respond. destruct (m (ns i)) as [n [a|e]]; cbn [fst snd map_err]; by rewrite ?Hok, ?Herr.
Qed.

Lemma tcp_call_server {A} net t i sv c w r (expect : NodeResponse -> result NodeError A) req ns :
  net (tn_addr t) = server_channel i (handle_connection sv) ->
  fits_frame req -> fits_frame (dispatch sv req (ns i)).2 ->
  tcp_call net c w r expect t req ns =
  (fun j => if decide (j = i) then (dispatch sv req (ns i)).1 else ns j, expect (dispatch sv req (ns i)).2).
Proof.
  intros Hnet Hq Hr. unfold tcp_call, connect, sbind, slift. rewrite Hnet. cbn [server_channel ch_connect].
  by rewrite (exchange_plain i sv _ _ req ns Hq Hr).
Qed.

Lemma mtls_call_server {A} net t i sv w r (expect : NodeResponse -> result NodeError A) req ns :
  net (mt_addr t) = server_channel i (mtls_handle_connection (Ok tt) sv) ->
  fits_frame req -> fits_frame (dispatch sv req (ns i)).2 ->
  mtls_call net w r expect t req ns =
  (fun j => if decide (j = i) then (dispatch sv req (ns i)).1 else ns j, expect (dispatch sv req (ns i)).2).
Proof.
  intros Hnet Hq Hr. unfold mtls_call, connect_tls, sbind, slift. rewrite Hnet. cbn [server_channel ch_connect].
  by rewrite (exchange_plain i sv _ _ req ns Hq Hr).
Qed.

(** What a remote transport promises: each call has the effect of the in-process
    call on the node behind it with the server's clock, and the same result,
    except that errors arrive as text. [ok] says which exchanges get through. *)
Definition behaves_in_process {T} (Tr : FrostNodeTransport T Nodes) (t : T) (i : nat) (sv : ServerEnv)
    (ok : NodeRequest -> NodeResponse -> Prop) (prefix : string) : Prop :=
  forall ns,
  (forall req now, ok (ReqFrostRound1 req) (dispatch sv (ReqFrostRound1 req) (ns i)).2 ->
     t_frost_round1 t req now ns = remote (prefix +:+ "round-1: ")
       (t_frost_round1 (MkInProcessTransport i (sv_env sv)) req (sv_now sv) ns)) /\
  (forall req, ok (ReqFrostRound2 req) (dispatch sv (ReqFrostRound2 req) (ns i)).2 ->
     t_frost_round2 t req ns = remote (prefix +:+ "round-2: ")
       (t_frost_round2 (MkInProcessTransport i (sv_env sv)) req ns)) /\
  (forall req now, ok (ReqHandshakeBindingRound1 req) (dispatch sv (ReqHandshakeBindingRound1 req) (ns i)).2 ->
     t_handshake_binding_round1 t req now ns = remote (prefix +:+ "hb-round1: ")
       (t_handshake_binding_round1 (MkInProcessTransport i (sv_env sv)) req (sv_now sv) ns)) /\
  (forall req, ok (ReqHandshakeBindingRound2 req) (dispatch sv (ReqHandshakeBindingRound2 req) (ns i)).2 ->
     t_handshake_binding_round2 t req ns = remote (prefix +:+ "hb-round2: ")
       (t_handshake_binding_round2 (MkInProcessTransport i (sv_env sv)) req ns)).

(** What gets through to a server that answers in the clear. *)
Abbreviation both_fit := (fun (q : NodeRequest) (r : NodeResponse) => fits_frame q /\ fits_frame r).

Lemma tcp_behaves net tt i sv : net (tn_addr tt) = server_channel i (handle_connection sv) ->
  behaves_in_process (tcp_transport net) tt i sv both_fit "aux node rejected ".
Proof.
  intros Hnet ns. split_and!; intros req; [intros now|..|intros now|]; intros [Hq Hr];
    (etrans; [by apply (tcp_call_server net tt i sv)|]); by apply remote_on_node.
Qed.

Lemma mtls_behaves net mt i sv : net (mt_addr mt) = server_channel i (mtls_handle_connection (Ok tt) sv) ->
  behaves_in_process (mtls_transport net) mt i sv both_fit "mTLS aux node rejected ".
Proof.
  intros Hnet ns. split_and!; intros req; [intros now|..|intros now|]; intros [Hq Hr];
    (etrans; [by apply (mtls_call_server net mt i sv)|]); by apply remote_on_node.
Qed.

Lemma auth_behaves net t i sv identity registry :
  net (tn_addr (at_inner t)) = server_channel i (auth_handle_connection identity registry sv) ->
  lookup_key (as_envelope_registry registry) (ni_verifier_id (at_identity t)) = Some (identity_verifying_key (at_identity t)) ->
  lookup_key (as_envelope_registry (at_registry t)) (ni_verifier_id identity) = Some (identity_verifying_key identity) ->
  Z.abs (uval (sv_open_now sv) - uval (at_seal_now t)) <= TIMESTAMP_TOLERANCE_SECS ->
  Z.abs (uval (at_open_now t) - uval (sv_seal_now sv)) <= TIMESTAMP_TOLERANCE_SECS ->
  behaves_in_process (auth_transport net) t i sv
    (fun q r => fits_sealed (at_seal_now t) (at_identity t) q /\ fits_sealed (sv_seal_now sv) identity r)
    "auth aux node rejected ".
Proof.
  intros Hnet Hk1 Hk2 Ht1 Ht2 ns.
  assert (Hcall : forall A (expect : NodeResponse -> result NodeError A) req,
    fits_sealed (at_seal_now t) (at_identity t) req /\ fits_sealed (sv_seal_now sv) identity (dispatch sv req (ns i)).2 ->
    auth_call net expect t req ns =
    (fun j => if decide (j = i) then (dispatch sv req (ns i)).1 else ns j, expect (dispatch sv req (ns i)).2)).
  { intros A expect req [Hq Hr]. unfold auth_call, sbind, slift.
    by rewrite (send_recv_server net t i identity registry sv req ns Hnet Hk1 Hk2 Ht1 Ht2 Hq Hr). }
  split_and!; intros req; [intros now|..|intros now|]; intros Hok;
    (etrans; [by apply Hcall|]); by apply remote_on_node.
Qed.

(** C25. Remote calls are in-process calls: through the plain and the mutual-TLS
    transport to their servers, every call whose request and response fit a
    frame leaves the node in the state of the in-process call made with the
    server's clock and returns its result, with the text of an error. The signed
    transport does so when each side has the other's key and the clocks of
    sealing and opening are at most 30 seconds apart. *)
Theorem remote_transports_equiv net t i sv :
  (forall tt, net (tn_addr tt) = server_channel i (handle_connection sv) ->
     behaves_in_process (tcp_transport net) tt i sv both_fit "aux node rejected ") /\
  (forall mt, net (mt_addr mt) = server_channel i (mtls_handle_connection (Ok tt) sv) ->
     behaves_in_process (mtls_transport net) mt i sv both_fit "mTLS aux node rejected ") /\
  (forall identity registry,
     net (tn_addr (at_inner t)) = server_channel i (auth_handle_connection identity registry sv) ->
     lookup_key (as_envelope_registry registry) (ni_verifier_id (at_identity t)) = Some (identity_verifying_key (at_identity t)) ->
     lookup_key (as_envelope_registry (at_registry t)) (ni_verifier_id identity) = Some (identity_verifying_key identity) ->
     Z.abs (uval (sv_open_now sv) - uval (at_seal_now t)) <= TIMESTAMP_TOLERANCE_SECS ->
     Z.abs (uval (at_open_now t) - uval (sv_seal_now sv)) <= TIMESTAMP_TOLERANCE_SECS ->
     behaves_in_process (auth_transport net) t i sv
       (fun q r => fits_sealed (at_seal_now t) (at_identity t) q /\ fits_sealed (sv_seal_now sv) identity r)
       "auth aux node rejected ").
Proof. split_and!; intros *; [apply tcp_behaves|apply mtls_behaves|apply auth_behaves]. Qed.

(** C26. The signed server acts for registered senders only: whatever arrives on a
    connection, either the node is untouched and nothing is sent, or the bytes
    are an envelope whose sender is registered, whose timestamp is within 30
    seconds and whose signature by that sender covers the request; the node then
    handles exactly this request, and what is sent back, if anything, is one
    envelope signed by the server over its response. *)
Theorem auth_server_gate identity registry sv source node node' out r :
  auth_handle_connection identity registry sv source node = (node', (out, r)) ->
  (node' = node /\ out = []) \/
  exists env rest request vk,
    read_frame source = Ok (env, rest) /\
    lookup_key (as_envelope_registry registry) (sender_id env) = Some vk /\
    Z.abs (uval (sv_open_now sv) - uval (timestamp env)) <= TIMESTAMP_TOLERANCE_SECS /\
    ed_verify vk (signing_bytes (sender_id env) (timestamp env) (payload env)) (signature env) = true /\
    json_from_slice (payload env) = Ok request /\
    node' = (dispatch sv request node).1 /\
    (out = [] \/ exists renv, seal (sv_seal_now sv) (ni_verifier_id identity) (ni_signing_key identity)
                                (dispatch sv request node).2 = Ok renv /\ out = (write_frame renv []).1).
Proof.
  unfold auth_handle_connection. destruct (read_frame source) as [[env rest]|e] eqn:Hread.
  2: { destruct e; intros [= <- <- _]; by left. }
  destruct (open env _ _) as [request|e] eqn:Hopen; [|intros [= <- <- _]; by left].
  apply open_Ok in Hopen as (Ht & vk & Hvk & Hver & Hjson). unfold timely in Ht.
  destruct (dispatch sv request node) as [n resp] eqn:Hd. intros Hout. right. exists env, rest, request, vk.
  destruct (seal _ _ _ resp) as [renv|e] eqn:Hseal; [|injection Hout as <- <- _; split_and!; try done; [by rewrite Hd | by left]].
  destruct (write_frame renv []) as [w res] eqn:Hw. injection Hout as <- <- _.
  split_and!; try done; [by rewrite Hd|]. right. exists renv. rewrite Hd. cbn [snd]. by rewrite Hseal, Hw.
Qed.

(** The signed client checks that a response comes from some registered key, but
    not from the node it talks to: a response sealed by any registered identity
    is accepted for any node. *)
Lemma auth_response_sender_unchecked {NS} (net : SocketAddr -> Channel NS) t other resp req env wire ns ns' :
  (forall bs, ch_connect (net (tn_addr (at_inner t))) bs = (bs, None)) ->
  (forall out, ch_exchange (net (tn_addr (at_inner t))) out ns = (ns', wire)) ->
  fits_sealed (at_seal_now t) (at_identity t) req ->
  seal (at_open_now t) (ni_verifier_id other) (ni_signing_key other) resp = Ok env ->
  write_frame env [] = (wire, Ok tt) -> fits_frame env ->
  lookup_key (as_envelope_registry (at_registry t)) (ni_verifier_id other) = Some (identity_verifying_key other) ->
  send_recv net t req ns = (ns', Ok resp).
Proof.
  intros Hc Hx (renv & Hseal & Hfit) Hsealo Hw Hfito Hkey.
  apply fits_frame_wire in Hfit as (rw & Hrw & _), Hfito as (w & Hw' & Hr). rewrite Hw in Hw'. injection Hw' as <-.
  unfold send_recv, connect, exchange_frames, sbind, slift. rewrite Hseal. cbn [map_err]. rewrite Hc, Hrw, Hx, Hr.
  cbn [fmap result_fmap map_err fst]. rewrite (sealed_opens _ _ _ _ _ _ Hsealo Hkey); [done|].
  unfold TIMESTAMP_TOLERANCE_SECS. lia.
Qed.

(** After shutdown has been signalled, no further connection is served; before,
    exactly the connections that were accepted, in order. *)
Lemma accept_loop_spec {C} (before after : list (bool * result string C)) x :
  Forall (fun ev => ev.1 = false) before ->
  accept_loop (before ++ (true, x) :: after) = omap (fun ev => match ev.2 with Ok c => Some c | Err _ => None end) before.
Proof.
  induction 1 as [|[b [c|e]] before Hb _ IH]; cbn in *; [done|..]; subst b; cbn; by rewrite IH.
Qed.
End Loopback.

(** ** Handshake binding *)

Section BindingProps.
Context {Hs : Sha256} {Ed : Ed25519} {Fr : FrostEd25519}.

Lemma call_all_Ok {T NS B} (call : T -> stres NS NodeError B) ts ns ns' bs :
  call_all call ts ns = (ns', Ok bs) -> length bs = length ts.
Proof.
  revert ns ns' bs. induction ts as [|t ts IH]; intros ns ns' bs; cbn [call_all]; [by intros [= _ <-]|].
  intros (n1 & b & _ & (n2 & bs' & Hbs & [= _ <-])%sbind_Ok)%sbind_Ok. cbn. f_equal. by eapply IH.
Qed.

Lemma run_handshake_binding_Ok {T NS} {Tr : FrostNodeTransport T NS} now sid cid input gk (ts : list T) ttl epoch ns ns' sig :
  run_handshake_binding now sid cid input gk ts ttl epoch ns = (ns', Ok sig) ->
  verify_signature {| fta_signed_digest := input; aggregate_signature_bytes := sig;
                      group_verifying_key_bytes := verifying_key_bytes gk |} = Ok tt /\
  exists responses pkg bs, length responses = length ts /\
    assemble_hb_signing_package_from_responses responses input gk = Ok (pkg, bs) /\
    message_bytes pkg = arr (as_bytes input).
Proof.
  unfold run_handshake_binding. intros (n1 & rs & H1 & Hrest)%sbind_Ok.
  apply sbind_Ok in Hrest as (n2 & [pkg bs] & [-> Hpkg]%slift_Ok & Hrest).
  apply sbind_Ok in Hrest as (n3 & r2 & _ & Hrest). apply sbind_Ok in Hrest as (n4 & a & [-> Ha]%slift_Ok & [= _ <-]).
  pose proof Hpkg as Hbuild. unfold assemble_hb_signing_package_from_responses in Hbuild. apply map_err_Ok in Hbuild, Ha.
  pose proof (build_signing_package_message _ _ _ _ _ Hbuild) as [Hmsg _]. cbn [fst snd] in *.
  apply aggregate_signature_shares_Ok in Ha as (s & m & Hagg & ->). cbn [aggregate_signature_bytes]. split.
  - by eapply aggregated_verify_signature.
  - exists rs, pkg, bs. split_and!; [by eapply call_all_Ok|done|done].
Qed.

(** Handshake binding is sound over every transport: the bytes returned are an
    aggregate signature that verifies under the group key on exactly the binding
    input, whatever the nodes answered; the signing package was built from one
    commitment per transport, and round 2 was only reached when every node
    answered round 1. *)
Theorem run_handshake_binding_sound {T NS} {Tr : FrostNodeTransport T NS} now sid cid input gk (ts : list T) ttl epoch ns ns' sig :
  run_handshake_binding now sid cid input gk ts ttl epoch ns = (ns', Ok sig) ->
  verify_signature {| fta_signed_digest := input; aggregate_signature_bytes := sig;
                      group_verifying_key_bytes := verifying_key_bytes gk |} = Ok tt /\
  exists responses pkg bs, length responses = length ts /\
    assemble_hb_signing_package_from_responses responses input gk = Ok (pkg, bs) /\
    message_bytes pkg = arr (as_bytes input).
Proof. apply run_handshake_binding_Ok. Qed.
End BindingProps.

(** ** Concrete runs *)

Section Examples.
#[local] Existing Instance toy_sha256.
#[local] Existing Instance toy_ed25519.
#[local] Existing Instance toy_frost.
#[local] Instance transport_groth16 : Groth16 := toy_groth16 (Ark:=value_ark).
#[local] Instance no_json T : SerdeJson T | 100.
Proof. refine {| json_to_vec _ := Err "unsupported"; json_from_slice _ := Err "unsupported" |}. by intros v b [=]. Defined.

#[local] Instance HandshakeBindingRound1Request_eq_dec : EqDecision HandshakeBindingRound1Request.
Proof. solve_decision. Defined.
#[local] Instance HandshakeBindingRound1Response_eq_dec : EqDecision HandshakeBindingRound1Response.
Proof. solve_decision. Defined.
#[local] Instance SignedEnvelope_eq_dec : EqDecision SignedEnvelope.
Proof. solve_decision. Defined.

(** Serializers that support one message. *)
Definition one_json {A} `{EqDecision A} (a : A) : SerdeJson A.
Proof.
  refine {| json_to_vec v := if bool_decide (v = a) then Ok [byte 1] else Err "unsupported"; json_from_slice _ := Ok a |}.
  intros v b. by case_bool_decide as Hv; [subst|].
Defined.
Definition hb1_requests : SerdeJson NodeRequest.
Proof.
  refine {| json_to_vec r := match r with
              | ReqHandshakeBindingRound1 m => json_to_vec (SerdeJson:=one_json (ex_hb1 5)) m
              | _ => Err "unsupported" end;
            json_from_slice b := ReqHandshakeBindingRound1 <$> json_from_slice (SerdeJson:=one_json (ex_hb1 5)) b |}.
  intros [] b H; try discriminate H. apply (Prelude.json_roundtrip (SerdeJson:=one_json (ex_hb1 5))) in H. by rewrite H.
Defined.
Definition ex_hb1_response : HandshakeBindingRound1Response :=
  unwrap_or (MkHandshakeBindingRound1Response (sid 0) (vid 0) [])
    (handshake_binding_round1 (ex_hb1 5) ex_now (ex_env 7) (run_nodes 0%nat)).2.
Definition hb1_responses : SerdeJson NodeResponse.
Proof.
  refine {| json_to_vec r := match r with
              | RespHandshakeBindingRound1 m => json_to_vec (SerdeJson:=one_json ex_hb1_response) m
              | _ => Err "unsupported" end;
            json_from_slice b := RespHandshakeBindingRound1 <$> json_from_slice (SerdeJson:=one_json ex_hb1_response) b |}.
  intros [] b H; try discriminate H. apply (Prelude.json_roundtrip (SerdeJson:=one_json ex_hb1_response)) in H. by rewrite H.
Defined.
#[local] Existing Instance hb1_requests.
#[local] Existing Instance hb1_responses.

Definition ex_sv : ServerEnv := MkServerEnv (n64 10) ex_now (n64 10) (ex_env 7).
Definition ex_net : SocketAddr -> Channel Nodes := fun _ => server_channel 0%nat (handle_connection ex_sv).
Definition ex_tcp : TcpNodeTransport := MkTcpNodeTransport (vid 1) "127.0.0.1:7001" 30.
Definition ex_identity (z : Z) : NodeIdentity := NodeIdentity_from_signing_key (array_repeat 32 (byte z) : SigningKey).
Definition ex_auth : AuthTcpNodeTransport :=
  MkAuthTcpNodeTransport ex_tcp (ex_identity 9) (from_identities [ex_identity 1]) (n64 10) (n64 12).

Lemma ex_fits : fits_frame (ReqHandshakeBindingRound1 (ex_hb1 5)) /\
  fits_frame (dispatch ex_sv (ReqHandshakeBindingRound1 (ex_hb1 5)) (run_nodes 0%nat)).2.
Proof. split; exists [byte 1]; (split; [vm_compute; reflexivity | vm_compute; discriminate]). Qed.

(** Round 1 of handshake binding over a plain connection. *)
Lemma remote_transports_equiv_witness :
  exists ns, tcp_handshake_binding_round1 ex_net ex_tcp (ex_hb1 5) ex_now run_nodes = (ns, Ok ex_hb1_response).
Proof.
  destruct (remote_transports_equiv ex_net ex_auth 0%nat ex_sv) as [Htcp _].
  destruct (Htcp ex_tcp eq_refl run_nodes) as (_ & _ & Hhb & _). eexists.
  etrans; [apply (Hhb (ex_hb1 5) ex_now ex_fits)|]. apply (f_equal2 pair); [reflexivity|]. vm_compute. reflexivity.
Defined.

(** The same request, signed by a registered coordinator, to the signed server. *)
Definition ex_request_envelope : SignedEnvelope :=
  unwrap_or (MkSignedEnvelope (vid 0) (n64 0) [] (array_repeat 64 (byte 0)))
    (seal (n64 10) (ni_verifier_id (ex_identity 9)) (ni_signing_key (ex_identity 9)) (ReqHandshakeBindingRound1 (ex_hb1 5))).
Definition ex_source : bytes := (write_frame (J:=one_json ex_request_envelope) ex_request_envelope []).1.
Definition ex_handled :=
  auth_handle_connection (Jv:=one_json ex_request_envelope) (ex_identity 1) (from_identities [ex_identity 9]) ex_sv ex_source
    (run_nodes 0%nat).

Lemma auth_server_gate_witness :
  exists env vk, lookup_key (as_envelope_registry (from_identities [ex_identity 9])) (sender_id env) = Some vk /\
    ed_verify vk (signing_bytes (sender_id env) (timestamp env) (payload env)) (signature env) = true.
Proof.
  destruct (auth_server_gate (Jv:=one_json ex_request_envelope) (ex_identity 1) (from_identities [ex_identity 9]) ex_sv
    ex_source (run_nodes 0%nat) ex_handled.1 ex_handled.2.1 ex_handled.2.2) as [[Hno _]|(env & rest & request & vk & _ & Hk & _ & Hv & _)].
  - rewrite <- !surjective_pairing. reflexivity.
  - exfalso. assert (Hp : bool_decide (hb_pending ex_handled.1 !! sid 1 = None) = true); [|vm_compute in Hp; discriminate Hp].
    rewrite Hno. vm_compute. reflexivity.
  - exists env, vk. split; [exact Hk | exact Hv].
Defined.

(** Two in-process nodes sign a binding input. *)
Definition ex_binding := run_handshake_binding ex_now (sid 1) (vid 9) (digest 5) (toy_group 3) run_transports (n64 60)
  RegistryEpoch_GENESIS run_nodes.

Lemma run_handshake_binding_sound_witness :
  exists sig, ex_binding.2 = Ok sig /\
    verify_signature {| fta_signed_digest := digest 5; aggregate_signature_bytes := sig;
                        group_verifying_key_bytes := verifying_key_bytes (toy_group 3) |} = Ok tt.
Proof.
  destruct (is_ok_exists ex_binding.2) as [sig Hsig]; [vm_compute; reflexivity|].
  exists sig. split; [exact Hsig|].
  apply (run_handshake_binding_sound ex_now (sid 1) (vid 9) (digest 5) (toy_group 3) run_transports (n64 60)
    RegistryEpoch_GENESIS run_nodes ex_binding.1 sig).
  rewrite <- Hsig. apply surjective_pairing.
Defined.
End Examples.
