(* ===== verification/AuxServer.v ===== *)
(** * The servers of the auxiliary nodes: start and shutdown

    Models the lifetime of the three servers of [node/src/transport.rs]
    ([TcpAuxServer], [AuthTcpAuxServer], [MtlsTcpAuxServer]): [bind], the accept
    loop in its own thread, and [shutdown], which sets a flag the loop reads and
    connects to the server itself so that a blocked [accept] returns. What a
    handler thread does with its connection is [handle_connection] and its
    variants in NodeTransport.

    The loop, the callers of [shutdown] and the clients interleave: [step] is one
    step of any of them. The flag, which the code accesses with relaxed ordering, is
    read and written in the order of the steps (sequentially consistent). Log output is
    left out. *)

From S2P Require Import Prelude Core Network Mtls NodeTransport.

(** ** The state of a server *)

(** Where the accept loop is: blocked in [accept] or about to call it, before
    the test of the flag, before [thread::spawn], or past the loop. *)
Inductive Acceptor (C : Type) :=
  | Accepting
  | Checking (r : result string C)
  | Spawning (c : C)
  | Done.
Arguments Accepting {C}.
Arguments Checking {C}.
Arguments Spawning {C}.
Arguments Done {C}.

(** [sr_backlog] are the results the next calls of [accept] return, [sr_pokes]
    the calls of [shutdown] between their two statements. [sr_poked] and [sr_log]
    record history: that a connection of [shutdown] arrived, and the iterations
    of the loop, each with the flag it read. *)
Record Server (C : Type) := MkServer {
  sr_shutdown : bool;
  sr_backlog : list (result string C);
  sr_acceptor : Acceptor C;
  sr_spawned : list C;
  sr_pokes : nat;
  sr_poked : bool;
  sr_log : list (bool * result string C)
}.
Arguments MkServer {C}.
Arguments sr_shutdown {C}.
Arguments sr_backlog {C}.
Arguments sr_acceptor {C}.
Arguments sr_spawned {C}.
Arguments sr_pokes {C}.
Arguments sr_poked {C}.
Arguments sr_log {C}.

(** The handle [bind] returns; the flag it shares with the loop is in [Server]. *)
Record AuxServer := MkAuxServer { as_addr : SocketAddr }.
Definition local_addr (self : AuxServer) : SocketAddr := as_addr self.

Section Lifetime.
Context {C : Type}.

Definition started : Server C := MkServer false [] Accepting [] 0 false [].

(** [TcpListener::bind] and [listener.local_addr()] are arguments. *)
Definition bind_listener (text : string) (bound : result string (result string SocketAddr))
    : result NetworkError (AuxServer * Server C) :=
  listener ← map_err (ser text) bound;
  addr ← map_err (ser "local_addr: ") listener;
  Ok (MkAuxServer addr, started).

Definition TcpAuxServer_bind := bind_listener "bind failed: ".
Definition AuthTcpAuxServer_bind := bind_listener "bind failed: ".
Definition MtlsTcpAuxServer_bind {Ru : Rustls} (bundle : MtlsNodeBundle) (bound : result string (result string SocketAddr))
    : result NetworkError (AuxServer * Server C * ServerConfig) :=
  tls_config ← server_config bundle;
  started ← bind_listener "mTLS bind: " bound;
  Ok (started, tls_config).

(** One step of the accept loop; [None] when [accept] blocks or the loop is over. *)
Definition acceptor_step (s : Server C) : option (Server C) :=
  match s with
  | MkServer flag backlog Accepting spawned pokes poked log =>
      match backlog with
      | [] => None
      | r :: backlog => Some (MkServer flag backlog (Checking r) spawned pokes poked log)
      end
  | MkServer flag backlog (Checking r) spawned pokes poked log =>
      Some (MkServer flag backlog
        (if flag then Done else match r with Ok c => Spawning c | Err _ => Accepting end)
        spawned pokes poked (log ++ [(flag, r)]))
  | MkServer flag backlog (Spawning c) spawned pokes poked log =>
      Some (MkServer flag backlog Accepting (spawned ++ [c]) pokes poked log)
  | MkServer _ _ Done _ _ _ _ => None
  end.

(** The two statements of [shutdown]; the result of the connection is ignored. *)
Definition shutdown_store (s : Server C) : Server C :=
  MkServer true (sr_backlog s) (sr_acceptor s) (sr_spawned s) (S (sr_pokes s)) (sr_poked s) (sr_log s).
Definition shutdown_connect (connected : option C) (s : Server C) : Server C :=
  match connected with
  | Some c => MkServer (sr_shutdown s) (sr_backlog s ++ [Ok c]) (sr_acceptor s) (sr_spawned s) (pred (sr_pokes s)) true (sr_log s)
  | None => MkServer (sr_shutdown s) (sr_backlog s) (sr_acceptor s) (sr_spawned s) (pred (sr_pokes s)) (sr_poked s) (sr_log s)
  end.

(** A client connects, or [accept] will report an error. *)
Definition arrive (r : result string C) (s : Server C) : Server C :=
  MkServer (sr_shutdown s) (sr_backlog s ++ [r]) (sr_acceptor s) (sr_spawned s) (sr_pokes s) (sr_poked s) (sr_log s).

Definition is_done (s : Server C) : bool := match sr_acceptor s with Done => true | _ => false end.

(** Nothing connects to a server whose loop is over: its listener is dropped. *)
Inductive other_step : Server C -> Server C -> Prop :=
  | step_store s : other_step s (shutdown_store s)
  | step_connect s connected : sr_pokes s <> 0%nat -> (is_done s = true -> connected = None) ->
      other_step s (shutdown_connect connected s)
  | step_arrive s r : is_done s = false -> other_step s (arrive r s).

(** Runs, counting the steps of the accept loop. *)
Inductive run : nat -> Server C -> Server C -> Prop :=
  | run_nil s : run 0 s s
  | run_acceptor n s s' s'' : run n s s' -> acceptor_step s' = Some s'' -> run (S n) s s''
  | run_other n s s' s'' : run n s s' -> other_step s' s'' -> run n s s''.

Definition reachable (s : Server C) : Prop := exists n, run n started s.

(** [n] steps of the loop alone. *)
Fixpoint loop_steps (n : nat) (s : Server C) : option (Server C) :=
  match n with O => Some s | S n => s' ← loop_steps n s; acceptor_step s' end.

Lemma run_loop m n s s' s'' : run n s s' -> loop_steps m s' = Some s'' -> run (m + n) s s''.
Proof.
  intros Hr. revert s''. induction m as [|m IH]; cbn; intros s''; [by intros [= <-]|].
  intros (t & Ht & Hs)%bind_Some. eapply run_acceptor; [by apply IH|done].
Qed.

(** ** Invariants *)

(** The connection a thread is about to be started for. *)
Definition in_hand (s : Server C) : list C := match sr_acceptor s with Spawning c => [c] | _ => [] end.

(** The connections accepted for service: those a thread was started for, and the one
    the loop is about to start a thread for. *)
Definition served (s : Server C) : list C := sr_spawned s ++ in_hand s.

(** A poke that arrived is still in the backlog, or the loop is past [accept]. *)
Definition woken (s : Server C) : Prop :=
  sr_poked s = true -> sr_shutdown s = true /\
  match sr_acceptor s with Done | Checking _ => True | Accepting | Spawning _ => sr_backlog s <> [] end.

Record inv (s : Server C) : Prop := {
  inv_served : served s = accept_loop (sr_log s);
  inv_log : is_done s = false -> Forall (fun ev => ev.1 = false) (sr_log s);
  inv_pokes : sr_pokes s <> 0%nat -> sr_shutdown s = true;
  inv_woken : woken s
}.

Lemma accept_loop_app (l : list (bool * result string C)) flag r : Forall (fun ev => ev.1 = false) l ->
  accept_loop (l ++ [(flag, r)]) = accept_loop l ++ (if flag then [] else match r with Ok c => [c] | Err _ => [] end).
Proof.
  induction 1 as [|[f x] l Hf _ IH]; cbn [app accept_loop]; [by destruct flag, r|]. cbn in Hf. subst f.
  rewrite IH. by destruct x.
Qed.

Lemma inv_acceptor_step s s' : inv s -> acceptor_step s = Some s' -> inv s'.
Proof.
  intros [Hsv Hlog Hp Hw] Hs. destruct s as [flag backlog [|r|c|] spawned pokes poked log]; cbn in Hs.
  - destruct backlog as [|r backlog]; [done|]. injection Hs as <-. split; [done|done|done|].
    intros Hk. split; [by apply Hw|done].
  - injection Hs as <-. unfold served, in_hand, woken in *. cbn in *. split; cbn.
    + rewrite accept_loop_app by auto. rewrite <- Hsv, app_nil_r. by destruct flag, r.
    + unfold is_done. cbn. intros Hd. apply Forall_app. split; [by apply Hlog|]. constructor; [|constructor].
      by destruct flag, r.
    + done.
    + intros Hk. cbn in *. destruct (Hw Hk) as [-> _]. done.
  - injection Hs as <-. unfold served, in_hand, woken in *. cbn in *. split; [|done|done|exact Hw].
    unfold served, in_hand. cbn. by rewrite app_nil_r.
  - done.
Qed.

Lemma inv_other_step s s' : inv s -> other_step s s' -> inv s'.
Proof.
  intros [Hsv Hlog Hp Hw] Hs. destruct Hs as [s|s [c|] Hk _|s r Hd].
  - split; [done|done|done|]. intros Hq. by destruct (Hw Hq).
  - split; [done|done|intros _; by apply Hp|]. intros _. split; [by apply Hp|]. cbn.
    destruct (sr_acceptor s); [|done| |done]; by destruct (sr_backlog s).
  - split; [done|done|intros _; by apply Hp|exact Hw].
  - split; [done|done|done|]. intros Hq. destruct (Hw Hq) as [? H]. split; [done|]. cbn in *.
    destruct (sr_acceptor s); [|done| |done]; by destruct (sr_backlog s).
Qed.

Lemma inv_started : inv started.
Proof. by split. Qed.

Lemma inv_run n s s' : inv s -> run n s s' -> inv s'.
Proof.
  intros Hi. induction 1 as [s|n s s' s'' _ IH Hs|n s s' s'' _ IH Hs]; [done| |].
  - by apply (inv_acceptor_step s' s''); [apply IH|].
  - by apply (inv_other_step s' s''); [apply IH|].
Qed.

(** ** After shutdown *)

(** Steps of the loop left, once the flag is set. *)
Definition rank (s : Server C) : nat :=
  match sr_acceptor s with Spawning _ => 3 | Accepting => 2 | Checking _ => 1 | Done => 0 end.

Lemma closed_acceptor_step s s' : sr_shutdown s = true -> acceptor_step s = Some s' ->
  sr_shutdown s' = true /\ sr_poked s' = sr_poked s /\ served s' = served s /\ rank s = S (rank s').
Proof.
  destruct s as [flag backlog [|r|c|] spawned pokes poked log]; cbn; intros -> Hs; [|injection Hs as <-..|done].
  - destruct backlog as [|r backlog]; [done|]. by injection Hs as <-.
  - done.
  - unfold served, in_hand. cbn. by rewrite app_nil_r.
Qed.

Lemma closed_other_step s s' : sr_shutdown s = true -> other_step s s' ->
  sr_shutdown s' = true /\ (sr_poked s = true -> sr_poked s' = true) /\ served s' = served s /\ rank s' = rank s.
Proof. intros Hf Hs. destruct Hs as [s|s [c|] _ _|s r _]; by split_and!. Qed.

Lemma closed_run n s s' : sr_shutdown s = true -> run n s s' ->
  sr_shutdown s' = true /\ (sr_poked s = true -> sr_poked s' = true) /\ served s' = served s /\ (n + rank s' = rank s)%nat.
Proof.
  intros Hf. induction 1 as [s|n s s' s'' _ IH Hs|n s s' s'' _ IH Hs]; [done| |].
  - destruct (IH Hf) as (Hf' & Hp & Hsv & Hr). destruct (closed_acceptor_step _ _ Hf' Hs) as (? & Hk & -> & Hr').
    rewrite Hk. split_and!; [done|done|done|lia].
  - destruct (IH Hf) as (Hf' & Hp & Hsv & Hr). destruct (closed_other_step _ _ Hf' Hs) as (? & Hk & -> & ->).
    split_and!; auto.
Qed.

Lemma woken_enabled s : inv s -> sr_poked s = true -> is_done s = true \/ is_Some (acceptor_step s).
Proof.
  intros [_ _ _ Hw] Hp. destruct (Hw Hp) as [_ H].
  destruct s as [flag backlog [|r|c|] spawned pokes poked log]; cbn in H |- *; [|right; by eexists..|by left].
  destruct backlog as [|r backlog]; [done|]. right. by eexists.
Qed.

(** C28. The life of a server, in any interleaving of its loop with clients and calls
    of [shutdown]: the connections given to a thread are those of the sequential
    loop on the results of [accept], in order, up to the first iteration that
    reads the flag; from the moment the flag is set no further one is; and from
    the moment a connection of [shutdown] has arrived the loop is never blocked
    and ends within three of its own steps. *)
Theorem server_shutdown s n s' : reachable s -> run n s s' ->
  served s' = accept_loop (sr_log s') /\
  (sr_shutdown s = true -> served s' = served s) /\
  (sr_poked s = true -> (n <= 3)%nat /\ (is_done s' = true \/ is_Some (acceptor_step s'))).
Proof.
  intros [m Hm] Hr. pose proof (inv_run _ _ _ inv_started Hm) as Hi. pose proof (inv_run _ _ _ Hi Hr) as Hi'.
  split_and!; [apply Hi'| |].
  - intros Hf. by destruct (closed_run _ _ _ Hf Hr) as (_ & _ & ? & _).
  - intros Hp. destruct (inv_woken _ Hi Hp) as [Hf _]. destruct (closed_run _ _ _ Hf Hr) as (_ & Hp' & _ & Hn).
    split; [|auto using woken_enabled]. assert (rank s <= 3)%nat by (unfold rank; destruct (sr_acceptor s); lia). lia.
Qed.

(** When the connection of [shutdown] fails, its result is ignored and the loop
    stays blocked: there is no timeout. *)
Lemma failed_poke_blocks s : sr_acceptor s = Accepting -> sr_backlog s = [] ->
  sr_shutdown (shutdown_connect None (shutdown_store s)) = true /\
  acceptor_step (shutdown_connect None (shutdown_store s)) = None /\
  is_done (shutdown_connect None (shutdown_store s)) = false.
Proof. intros Ha Hb. destruct s. cbn in *. by subst. Qed.

(** A server over mutual TLS starts exactly when its configuration builds, the
    address can be bound and the listener tells its address. *)
Lemma mtls_bind_Ok {Ru : Rustls} bundle bound sv s tls :
  MtlsTcpAuxServer_bind bundle bound = Ok (sv, s, tls) <->
  server_config bundle = Ok tls /\ bound = Ok (Ok (local_addr sv)) /\ s = started.
Proof.
  unfold MtlsTcpAuxServer_bind, bind_listener. split.
  - intros (t & -> & ([sv' s'] & (l & Hl%map_err_Ok & (a & ->%map_err_Ok & [= <- <-])%bind_Ok)%bind_Ok & [= <- <- <-])%bind_Ok)%bind_Ok.
    by rewrite Hl.
  - intros (-> & -> & ->). by destruct sv.
Qed.
End Lifetime.

(** ** Example *)

Definition ex_closing : Server nat :=
  MkServer true [Ok 9%nat] Accepting [1%nat] 0 true [(false, Ok 1%nat)].

Lemma ex_closing_reachable : reachable ex_closing.
Proof.
  exists 3%nat. eapply run_other; [|apply (step_connect (MkServer true [] Accepting [1%nat] 1 false [(false, Ok 1%nat)]) (Some 9%nat)); done].
  eapply run_other; [|apply (step_store (MkServer false [] Accepting [1%nat] 0 false [(false, Ok 1%nat)]))].
  apply (run_loop 3 0 _ (arrive (Ok 1%nat) started)); [|reflexivity].
  eapply run_other; [apply run_nil|by apply step_arrive].
Qed.

(** After a client, [shutdown] and its connection, the loop takes two steps and
    ends with one connection handled. *)
Lemma server_shutdown_witness :
  served (MkServer true [] Done [1%nat] 0 true [(false, Ok 1%nat); (true, Ok 9%nat)]) = served ex_closing /\
  served ex_closing = [1%nat].
Proof.
  split; [|reflexivity]. apply (server_shutdown ex_closing 2).
  - apply ex_closing_reachable.
  - apply (run_loop 2 0 _ ex_closing); [apply run_nil|reflexivity].
  - reflexivity.
Defined.
