(* ===== verification/FrostRun.v ===== *)
(** * Completion of threshold signing

    What honest signers achieve: with the shares of one key generation, a quorum
    of them signs. The classes state what the crate [frost-ed25519] documents of
    its signing protocol; the theorems carry it through the adapter
    ([crypto/src/frost_adapter.rs], [dvrf.rs]), the auxiliary nodes
    ([node/src/frost_aux.rs]) and the coordinator ([node/src/coordinator.rs]), over
    the in-process transport and over every remote transport that behaves like it. *)

From S2P Require Import Prelude Core Session Storage Attestation Threshold Randomness Registry Dctls Network Errors.
From S2P Require Import Sha256Gadget HmacGadget CoSnark Frost FrostAux Dkg DkgNode FrostKeys Coordinator NodeTransport.

(** ** What the signing protocol promises *)

Section Quorum.
Context {Fr : FrostEd25519}.

(** Signers with the generators of their round 1, by identifier. *)
Abbreviation signers := (gmap Identifier (KeyPackage * Frost.Rng)).
Definition commitments_of (qs : signers) : gmap Identifier SigningCommitments := (fun s => (frost_commit s.1 s.2).2) <$> qs.
Definition package_of (qs : signers) (m : bytes) : SigningPackage := SigningPackage_new (commitments_of qs) m.

(** [share_of pk t i kp]: [kp] is the share of participant [i] in a sharing with
    threshold [t] whose public key package is [pk]. When at least [t] holders of
    such shares commit, and never fewer than two, each of them can sign the package of the commitments, and
    exactly their signature shares aggregate. Serialization does not fail. *)
Class FrostSigning := {
  share_of : PublicKeyPackage -> Z -> Identifier -> KeyPackage -> Prop;
  frost_sign_ok pk t qs m i kp rng :
    2 <= t <= Z.of_nat (size qs) -> map_Forall (fun i s => share_of pk t i s.1) qs -> qs !! i = Some (kp, rng) ->
    exists sh, frost_sign (package_of qs m) (frost_commit kp rng).1 kp = Ok sh;
  frost_aggregate_ok pk t qs m shares :
    2 <= t <= Z.of_nat (size qs) -> map_Forall (fun i s => share_of pk t i s.1) qs -> dom shares = dom qs ->
    (forall i kp rng, qs !! i = Some (kp, rng) -> exists sh, shares !! i = Some sh /\
       frost_sign (package_of qs m) (frost_commit kp rng).1 kp = Ok sh) ->
    exists sig, frost_aggregate (package_of qs m) shares pk = Ok sig;
  commitments_serialize (c : SigningCommitments) : is_ok (json_to_vec c) = true;
  shares_serialize (s : SignatureShare) : is_ok (json_to_vec s) = true;
  packages_serialize (p : SigningPackage) : is_ok (json_to_vec p) = true
}.
End Quorum.

(** The trusted dealer gives out such shares. *)
Class DealtShares {Fr : FrostEd25519} {De : FrostDealer} {Sg : FrostSigning} : Prop :=
  dealt_share_of max min ids rng shares pk i sh kp :
    generate_with_dealer max min ids rng = Ok (shares, pk) ->
    shares !! i = Some sh -> KeyPackage_try_from sh = Ok kp -> share_of pk (uval min) i kp.

(** ** Building maps from lists *)

Lemma try_fold_insert {E A K V} `{Countable K} (key : A -> K) (val : A -> V) (step : gmap K V -> A -> result E (gmap K V)) l m0 :
  (forall a m, a ∈ l -> step m a = Ok (<[key a := val a]> m)) -> NoDup (key <$> l) ->
  (forall a, a ∈ l -> m0 !! key a = None) ->
  try_fold step m0 l = Ok (list_to_map ((fun a => (key a, val a)) <$> l) ∪ m0).
Proof.
  revert m0. induction l as [|a l IH]; intros m0 Hstep Hnd Hm0.
  { cbn. by rewrite (left_id_L ∅ (∪)). }
  rewrite fmap_cons in Hnd. apply NoDup_cons in Hnd as [Ha Hnd]. cbn [try_fold].
  rewrite Hstep by apply list_elem_of_here. cbn [mbind result_bind]. rewrite IH; [|intros; apply Hstep; by right|done|].
  - rewrite fmap_cons. cbn [list_to_map foldr fst snd]. f_equal.
    rewrite <- insert_union_r; [by rewrite insert_union_l|].
    apply not_elem_of_list_to_map_1. rewrite <- list_fmap_compose. cbn. exact Ha.
  - intros b Hb. rewrite lookup_insert_ne; [apply Hm0; by right|]. intros Heq. apply Ha, list_elem_of_fmap. by exists b.
Qed.

Lemma fmap_zip_with {A B C D} (f : C -> D) (g : A -> B -> C) l k : f <$> zip_with g l k = zip_with (fun a b => f (g a b)) l k.
Proof. revert k. induction l as [|a l IH]; intros [|b k]; cbn; [done..|]. f_equal. apply IH. Qed.

(** ** The adapter *)

Definition json_bytes {T} `{J : SerdeJson T} (v : T) : bytes := match json_to_vec v with Ok b => b | Err _ => [] end.
Lemma json_to_vec_bytes {T} `{J : SerdeJson T} (v : T) :
  is_ok (json_to_vec v) = true -> json_to_vec v = Ok (json_bytes v) /\ json_from_slice (json_bytes v) = Ok v.
Proof.
  intros [b Hb]%is_ok_exists. unfold json_bytes. rewrite Hb. split; [done|]. by apply Prelude.json_roundtrip.
Qed.

Section AdapterRun.
Context {Hs : Sha256} {Fr : FrostEd25519} {Sg : FrostSigning}.

(** Participants with the generators of their round 1. *)
Abbreviation signing := (FrostParticipant * Frost.Rng)%type.
Definition signer_map (qs : list signing) : gmap Identifier (KeyPackage * Frost.Rng) :=
  list_to_map ((fun q => (fp_identifier q.1, (key_package q.1, q.2))) <$> qs).

(** Enough participants of one group. *)
Definition in_group (gk : FrostGroupKey) (t : Z) (p : FrostParticipant) : Prop :=
  verifier_to_identifier gk (fp_verifier_id p) = Some (fp_identifier p) /\
  share_of (pub_key_package gk) t (fp_identifier p) (key_package p).
Record signing_quorum (gk : FrostGroupKey) (t : Z) (qs : list signing) : Prop := {
  sq_size : 2 <= t <= Z.of_nat (length qs);
  sq_distinct : NoDup (fp_identifier <$> qs.*1);
  sq_members : Forall (fun q => in_group gk t q.1) qs
}.

Lemma signer_keys (qs : list signing) : ((fun q => (fp_identifier q.1, (key_package q.1, q.2))) <$> qs).*1 = fp_identifier <$> qs.*1.
Proof. by rewrite <- !list_fmap_compose. Qed.

Lemma signer_map_lookup gk t qs q : signing_quorum gk t qs -> q ∈ qs ->
  signer_map qs !! fp_identifier q.1 = Some (key_package q.1, q.2).
Proof.
  intros [_ Hnd _] Hq. apply elem_of_list_to_map_1; [by rewrite signer_keys|]. apply list_elem_of_fmap. by exists q.
Qed.
Lemma signer_map_inv qs i kp rng : signer_map qs !! i = Some (kp, rng) ->
  exists q, q ∈ qs /\ fp_identifier q.1 = i /\ key_package q.1 = kp /\ q.2 = rng.
Proof. intros (q & [= -> -> ->] & Hq)%elem_of_list_to_map_2%list_elem_of_fmap. by exists q. Qed.

Lemma signer_map_quorum gk t qs : signing_quorum gk t qs ->
  2 <= t <= Z.of_nat (size (signer_map qs)) /\ map_Forall (fun i s => share_of (pub_key_package gk) t i s.1) (signer_map qs).
Proof.
  intros [Hsz Hnd Hm]. split.
  - unfold signer_map. rewrite map_size_list_to_map by (by rewrite signer_keys). by rewrite length_fmap.
  - intros i [kp rng] (q & Hq & <- & <- & _)%signer_map_inv. rewrite Forall_forall in Hm. by apply (Hm q).
Qed.

(** What a signer sends in round 1. *)
Definition commitment_entry (q : signing) : VerifierId * bytes :=
  (fp_verifier_id q.1, json_bytes (frost_commit (key_package q.1) q.2).2).
Definition package (qs : list signing) (d : DigestBytes) : FrostSigningPackage :=
  MkFrostSigningPackage (package_of (signer_map qs) (arr (as_bytes d))).

Lemma build_completes gk t qs d : signing_quorum gk t qs ->
  build_signing_package (commitment_entry <$> qs) d gk = Ok (package qs d, json_bytes (fsp_inner (package qs d))).
Proof using Sg.
  intros [_ Hnd Hm]. unfold build_signing_package.
  assert (Hfold : forall l, Forall (fun q => in_group gk t q.1) l -> forall m,
    try_fold (fun (m : gmap Identifier SigningCommitments) p => commitment ← commitment_from_bytes p.2 p.1 gk; Ok (<[fc_identifier commitment := fc_inner commitment]> m)) m
      (commitment_entry <$> l)
    = try_fold (E:=CryptoError) (fun (m : gmap Identifier SigningCommitments) (q : signing) => Ok (<[fp_identifier q.1 := (frost_commit (key_package q.1) q.2).2]> m)) m l).
  { induction 1 as [|q l [Hv _] _ IH]; intros m; [done|]. rewrite fmap_cons. cbn [try_fold commitment_entry fst snd].
    unfold commitment_from_bytes. rewrite Hv. cbn [ok_or mbind result_bind].
    rewrite (proj2 (json_to_vec_bytes _ (commitments_serialize _))). cbn [map_err mbind result_bind fc_identifier fc_inner]. apply IH. }
  rewrite Hfold by done. rewrite (try_fold_insert (fun q : signing => fp_identifier q.1) (fun q => (frost_commit (key_package q.1) q.2).2)).
  - cbn [mbind result_bind]. rewrite (right_id_L ∅ (∪)).
    assert (Hc : list_to_map ((fun q : signing => (fp_identifier q.1, (frost_commit (key_package q.1) q.2).2)) <$> qs)
                 = commitments_of (signer_map qs)).
    { unfold commitments_of, signer_map. rewrite <- list_to_map_fmap, <- list_fmap_compose. done. }
    rewrite Hc. fold (package_of (signer_map qs) (arr (as_bytes d))). fold (package qs d).
    unfold package_to_bytes. by rewrite (proj1 (json_to_vec_bytes _ (packages_serialize _))).
  - done.
  - by rewrite <- list_fmap_compose in Hnd.
  - intros q _. apply lookup_empty.
Qed.

(** What a signer returns in round 2. *)
Definition signs (qs : list signing) (d : DigestBytes) (q : signing) (sh : SignatureShare) : Prop :=
  frost_sign (fsp_inner (package qs d)) (frost_commit (key_package q.1) q.2).1 (key_package q.1) = Ok sh.

Lemma signs_exist gk t qs d : signing_quorum gk t qs -> exists shs, Forall2 (signs qs d) qs shs.
Proof using Sg.
  intros Hq. destruct (signer_map_quorum gk t qs Hq) as [Hsz Hm].
  assert (H : forall l, (forall q, q ∈ l -> q ∈ qs) -> exists shs, Forall2 (signs qs d) l shs).
  { induction l as [|q l IH]; intros Hl; [by exists []|]. destruct IH as [shs Hshs]; [intros; apply Hl; by right|].
    destruct (frost_sign_ok _ t (signer_map qs) (arr (as_bytes d)) (fp_identifier q.1) (key_package q.1) q.2 Hsz Hm) as [sh Hsh].
    { apply (signer_map_lookup gk t); [done|]. apply Hl, list_elem_of_here. }
    exists (sh :: shs). by constructor. }
  by apply H.
Qed.

Lemma aggregate_completes gk t qs d shs : signing_quorum gk t qs -> Forall2 (signs qs d) qs shs ->
  exists a, aggregate_signature_shares (package qs d) (zip_with (fun q sh => (fp_verifier_id q.1, json_bytes sh)) qs shs) gk d = Ok a.
Proof using Sg.
  intros Hq Hsh. pose proof Hq as [_ Hnd Hm]. destruct (signer_map_quorum gk t qs Hq) as [Hsz Hmem].
  unfold aggregate_signature_shares.
  assert (Hfold : forall l ss, Forall (fun q : signing => in_group gk t q.1) l -> length l = length ss -> forall m,
    try_fold (fun (m : gmap Identifier SignatureShare) p => share ← share_from_bytes p.2 p.1 gk; Ok (<[fs_identifier share := fs_inner share]> m)) m
      (zip_with (fun q sh => (fp_verifier_id q.1, json_bytes sh)) l ss)
    = try_fold (E:=CryptoError) (fun (m : gmap Identifier SignatureShare) (qs : signing * SignatureShare) => Ok (<[fp_identifier qs.1.1 := qs.2]> m)) m (zip l ss)).
  { intros l ss Hl. revert ss. induction Hl as [|q l [Hv _] _ IH]; intros [|sh ss] Hlen m; try done.
    cbn [zip_with try_fold fst snd]. unfold share_from_bytes. rewrite Hv. cbn [ok_or mbind result_bind].
    rewrite (proj2 (json_to_vec_bytes _ (shares_serialize _))). cbn [map_err mbind result_bind fs_identifier fs_inner]. apply IH. by injection Hlen. }
  pose proof (Forall2_length _ _ _ Hsh) as Hlen. rewrite Hfold by done.
  assert (Hkeys : (fun qs : signing * SignatureShare => fp_identifier qs.1.1) <$> zip qs shs = fp_identifier <$> qs.*1).
  { transitivity ((fun q : signing => fp_identifier q.1) <$> (zip qs shs).*1); [by rewrite <- list_fmap_compose|].
    rewrite fst_zip by lia. by rewrite <- list_fmap_compose. }
  rewrite (try_fold_insert (fun qs : signing * SignatureShare => fp_identifier qs.1.1) snd); [|done|by rewrite Hkeys|intros; apply lookup_empty].
  cbn [mbind result_bind]. rewrite (right_id_L ∅ (∪)). set (sm := list_to_map _).
  assert (Hl : forall k q sh, qs !! k = Some q -> shs !! k = Some sh -> sm !! fp_identifier q.1 = Some sh).
  { intros k q sh Hk Hk'. apply elem_of_list_to_map_1; [rewrite <- list_fmap_compose; change (NoDup ((fun qs0 : signing * SignatureShare => fp_identifier qs0.1.1) <$> zip qs shs)); by rewrite Hkeys|].
    apply list_elem_of_fmap. exists (q, sh). split; [done|]. apply list_elem_of_lookup. exists k.
    apply lookup_zip_with_Some. by exists q, sh. }
  destruct (frost_aggregate_ok (pub_key_package gk) t (signer_map qs) (arr (as_bytes d)) sm Hsz Hmem) as [sig Hsig].
  - unfold sm, signer_map. rewrite !dom_list_to_map_L, signer_keys, <- Hkeys, <- list_fmap_compose. done.
  - intros i kp rng (q & Hin & <- & <- & <-)%signer_map_inv. apply list_elem_of_lookup in Hin as [k Hk].
    destruct (Forall2_lookup_l _ _ _ _ _ Hsh Hk) as (sh & Hk' & Hsg). exists sh. split; [by apply (Hl k)|done].
  - exists {| fta_signed_digest := d; aggregate_signature_bytes := sig_serialize sig; group_verifying_key_bytes := verifying_key_bytes gk |}.
    change (fsp_inner (package qs d)) with (package_of (signer_map qs) (arr (as_bytes d))). by rewrite Hsig.
Qed.
End AdapterRun.

(** ** The nodes *)

Section NodeRun.
Context {Hs : Sha256} {Ed : Ed25519} {Fr : FrostEd25519} {Sg : FrostSigning} {G : Groth16}.
Context {Jh : SerdeJson HspProof} {Je : SerdeJson DctlsEvidence}.

(** A round-1 request without proofs for which a node has no reason to refuse. *)
Record admissible (self : FrostAuxiliaryNode) (req : FrostRound1Request) (now : UnixTimestamp) : Prop := {
  ad_time : uval (UnixTimestamp_0 now) <= uval (UnixTimestamp_0 (f1_round_expires_at req));
  ad_signer : node_verifier_id self ∈ f1_signer_set req;
  ad_registry : node_registry self = None \/ f1_registry_epoch req = RegistryEpoch_GENESIS;
  ad_digest : f1_signed_digest req = approval_signed_digest (f1_envelope_digest req);
  ad_hsp : f1_hsp_proof_bytes req = [];
  ad_evidence : f1_dctls_evidence_bytes req = [];
  ad_fresh : pending self !! f1_session_id req = None
}.

Lemma admissible_checks self req now now_secs : admissible self req now -> round1_checks self req now now_secs = Ok tt.
Proof.
  intros [Ht Hin Hreg Hd Hhsp Hev _]. unfold round1_checks.
  assert (u_ltb (UnixTimestamp_0 (f1_round_expires_at req)) (UnixTimestamp_0 now) = false) as ->.
  { unfold u_ltb. apply Z.ltb_ge. lia. }
  cbn [negb ensure mbind result_bind]. unfold contains. rewrite bool_decide_eq_true_2 by done. cbn [ensure mbind result_bind].
  assert (Hr : forall e1 e2, check_registry self (f1_registry_epoch req) (f1_signer_set req) e1 e2 = Ok tt).
  { intros e1 e2. unfold check_registry. destruct Hreg as [->| ->]; [done|]. destruct (node_registry self); [|done].
    by rewrite (bool_decide_eq_true_2 (RegistryEpoch_GENESIS = RegistryEpoch_GENESIS)). }
  rewrite Hr. cbn [mbind result_bind]. rewrite bool_decide_eq_true_2 by done. cbn [ensure mbind result_bind].
  unfold check_hsp. rewrite Hhsp. cbn [mbind result_bind]. unfold check_evidence. by rewrite Hev.
Qed.

(** The node after round 1, and its answer. *)
Definition round1_node (self : FrostAuxiliaryNode) (req : FrostRound1Request) (env : Env) : FrostAuxiliaryNode :=
  set_pending (insert_round (f1_session_id req) (MkFrostSigningNonces (frost_commit (key_package (participant self)) (env_rng env)).1)
                 (f1_signer_set req) (f1_signed_digest req) (f1_registry_epoch req) (env_insert_at env)
                 (evict_expired (env_evict_at env) (pending self))) self.
Definition round1_answer (self : FrostAuxiliaryNode) (req : FrostRound1Request) (env : Env) : FrostRound1Response :=
  MkFrostRound1Response (f1_session_id req) (node_verifier_id self)
    (json_bytes (frost_commit (key_package (participant self)) (env_rng env)).2).

Lemma frost_round1_completes self req now env : admissible self req now ->
  frost_round1 req now env self = (round1_node self req env, Ok (round1_answer self req env)).
Proof using Sg.
  intros Had. unfold frost_round1, sbind, slift. rewrite admissible_checks by done.
  assert (evict_expired (env_evict_at env) (pending self) !! f1_session_id req = None) as Hev.
  { unfold evict_expired. apply map_lookup_filter_None_2. left. apply Had. }
  unfold round1_node, round1_answer, round1. destruct (frost_commit _ _) as [nonces c] eqn:Hc. cbn [fst snd] in *.
  rewrite Hev. unfold commitment_to_bytes. cbn [fc_inner]. by rewrite (proj1 (json_to_vec_bytes _ (commitments_serialize _))).
Qed.

(** The node after round 2, and its answer. *)
Definition round2_node (self : FrostAuxiliaryNode) (sid : SessionId) : FrostAuxiliaryNode :=
  set_pending (delete sid (pending self)) self.
Definition round2_answer (self : FrostAuxiliaryNode) (sid : SessionId) (sh : SignatureShare) : FrostRound2Response :=
  MkFrostRound2Response sid (node_verifier_id self) (json_bytes sh).

(** Both rounds of a session leave a node as it was, without the session and with
    expired rounds evicted. *)
Record round_over (sid : SessionId) (self self' : FrostAuxiliaryNode) : Prop := {
  ro_participant : participant self' = participant self;
  ro_registry : node_registry self' = node_registry self;
  ro_bindings : hb_pending self' = hb_pending self;
  ro_done : pending self' !! sid = None;
  ro_pending : pending self' ⊆ pending self
}.
Lemma rounds_over self req env : round_over (f1_session_id req) self (round2_node (round1_node self req env) (f1_session_id req)).
Proof.
  split; try done; cbn [round2_node round1_node set_pending pending]; [apply lookup_delete_eq|].
  unfold insert_round. rewrite delete_insert_eq. etrans; [apply delete_subseteq|]. apply map_filter_subseteq.
Qed.

Lemma frost_round2_completes self req1 env req2 qs sh :
  let self1 := round1_node self req1 env in
  let q := (participant self, env_rng env) in
  f2_session_id req2 = f1_session_id req1 -> f2_signer_set req2 = f1_signer_set req1 ->
  f2_signing_package_bytes req2 = json_bytes (fsp_inner (package qs (f1_signed_digest req1))) ->
  signs qs (f1_signed_digest req1) q sh ->
  frost_round2 req2 self1 = (round2_node self1 (f1_session_id req1), Ok (round2_answer self1 (f1_session_id req1) sh)).
Proof using Sg.
  intros self1 q Hsid Hset Hpkg Hsig. unfold frost_round2. rewrite Hsid.
  assert (Hp : pending self1 !! f1_session_id req1 = Some {|
    pr_nonces := MkFrostSigningNonces (frost_commit (key_package (participant self)) (env_rng env)).1;
    pr_signer_set := f1_signer_set req1; pr_signed_digest := f1_signed_digest req1;
    pr_registry_epoch := f1_registry_epoch req1; pr_inserted_at := env_insert_at env |}).
  { unfold self1, round1_node, insert_round. cbn [pending set_pending]. apply lookup_insert_eq. }
  rewrite Hp. cbn [pr_signer_set pr_signed_digest pr_nonces]. rewrite Hset, bool_decide_eq_true_2 by done.
  cbn [ensure mbind result_bind]. unfold package_from_bytes. rewrite Hpkg, (proj2 (json_to_vec_bytes _ (packages_serialize _))).
  cbn [map_err mbind result_bind]. rewrite bool_decide_eq_true_2 by apply message_new. cbn [ensure mbind result_bind]. unfold round2. cbn [fsp_inner nonces_0].
  change (participant self1) with (participant self). unfold signs in Hsig. cbn [fst snd q] in Hsig.
  rewrite Hsig. cbn [map_err mbind result_bind]. unfold share_to_bytes. cbn [fs_inner].
  by rewrite (proj1 (json_to_vec_bytes _ (shares_serialize _))).
Qed.
End NodeRun.

(** ** Transports to honest nodes *)

Section Legs.
Context {Hs : Sha256} {Ed : Ed25519} {Fr : FrostEd25519} {Sg : FrostSigning} {G : Groth16}.
Context {Jh : SerdeJson HspProof} {Je : SerdeJson DctlsEvidence}.

Definition set_node (i : nat) (n : FrostAuxiliaryNode) (ns : Nodes) : Nodes := fun j => if decide (j = i) then n else ns j.
Lemma set_node_eq i n ns : set_node i n ns i = n.
Proof. unfold set_node. by rewrite decide_True. Qed.
Lemma set_node_ne i j n ns : j <> i -> set_node i n ns j = ns j.
Proof. intros Hj. unfold set_node. by rewrite decide_False. Qed.

(** A transport, the node it leads to with what its calls read there, and the
    participant that node runs. [leg_clock] is the time the node goes by. *)
Record Leg (T : Type) := MkLeg {
  leg_transport : T;
  leg_node : nat;
  leg_clock : UnixTimestamp -> UnixTimestamp;
  leg_env : Env;
  leg_participant : FrostParticipant
}.
Arguments leg_transport {T}.
Arguments leg_node {T}.
Arguments leg_clock {T}.
Arguments leg_env {T}.
Arguments leg_participant {T}.

(** Successful calls on the node get through, if [ok] holds of the messages. *)
Record reaches {T} {Tr : FrostNodeTransport T Nodes} (ok : NodeRequest -> NodeResponse -> Prop) (l : Leg T) : Prop := {
  reach_id ns : participant (ns (leg_node l)) = leg_participant l ->
    t_verifier_id (leg_transport l) ns = fp_verifier_id (leg_participant l);
  reach_round1 req now ns n r : frost_round1 req (leg_clock l now) (leg_env l) (ns (leg_node l)) = (n, Ok r) ->
    ok (ReqFrostRound1 req) (RespFrostRound1 r) ->
    t_frost_round1 (leg_transport l) req now ns = (set_node (leg_node l) n ns, Ok r);
  reach_round2 req ns n r : frost_round2 req (ns (leg_node l)) = (n, Ok r) ->
    ok (ReqFrostRound2 req) (RespFrostRound2 r) ->
    t_frost_round2 (leg_transport l) req ns = (set_node (leg_node l) n ns, Ok r)
}.

Lemma in_process_reaches i env p : reaches (fun _ _ => True) (MkLeg InProcessTransport (MkInProcessTransport i env) i id env p).
Proof.
  split; cbn [leg_transport leg_node leg_clock leg_env leg_participant].
  - intros ns Hp. cbn [t_verifier_id InProcessTransport_transport node_ref]. unfold node_verifier_id. by rewrite Hp.
  - intros req now ns n r Hr _. cbn [t_frost_round1 InProcessTransport_transport node_ref node_env]. unfold on_node.
    unfold id in Hr. by rewrite Hr.
  - intros req ns n r Hr _. cbn [t_frost_round2 InProcessTransport_transport node_ref]. unfold on_node. by rewrite Hr.
Qed.

Lemma remote_reaches {T} (Tr : FrostNodeTransport T Nodes) t i sv ok prefix p :
  behaves_in_process Tr t i sv ok prefix -> (forall ns, t_verifier_id t ns = fp_verifier_id p) ->
  reaches ok (MkLeg T t i (fun _ => sv_now sv) (sv_env sv) p).
Proof.
  intros Hb Hid. split; cbn [leg_transport leg_node leg_clock leg_env leg_participant]; [intros ns _; apply Hid|..].
  - intros req now ns n r Hr Hok. destruct (Hb ns) as [H1 _]. rewrite H1; unfold dispatch, respond; rewrite ?Hr; [|done].
    unfold remote. cbn [t_frost_round1 InProcessTransport_transport node_ref node_env]. unfold on_node. by rewrite Hr.
  - intros req ns n r Hr Hok. destruct (Hb ns) as (_ & H2 & _). rewrite H2; unfold dispatch, respond; rewrite ?Hr; [|done].
    unfold remote. cbn [t_frost_round2 InProcessTransport_transport node_ref]. unfold on_node. by rewrite Hr.
Qed.

(** A round over several legs, given what each of them answers. *)
Lemma run_round_legs `{St_ops : SessionStore St} {T} {Tr : FrostNodeTransport T Nodes} {B C} sid round
    (call : T -> stres Nodes NodeError B) (f : B -> C) (items : list (Leg T * FrostAuxiliaryNode * B)) acc (s : St) ns :
  NoDup (leg_node <$> items.*1.*1) ->
  (forall l n b ns', (l, n, b) ∈ items -> ns' (leg_node l) = ns (leg_node l) ->
     call (leg_transport l) ns' = (set_node (leg_node l) n ns', Ok b)) ->
  exists ns', run_round sid round call f (leg_transport <$> items.*1.*1) acc (s, ns) = ((s, ns'), Ok (acc ++ (f <$> items.*2))) /\
    (forall l n b, (l, n, b) ∈ items -> ns' (leg_node l) = n) /\ (forall j, j ∉ leg_node <$> items.*1.*1 -> ns' j = ns j).
Proof.
  revert acc ns. induction items as [|[[l n] b] items IH]; intros acc ns Hnd Hcall.
  { exists ns. split_and!; [cbn; by rewrite app_nil_r|by intros ? ? ? ?%not_elem_of_nil|done]. }
  rewrite !fmap_cons in *. cbn [fst snd] in *. apply NoDup_cons in Hnd as [Hl Hnd]. cbn [run_round fst snd].
  rewrite (Hcall l n b ns) by (done || apply list_elem_of_here).
  destruct (IH (acc ++ [f b]) (set_node (leg_node l) n ns) Hnd) as (ns' & Hrun & Hin & Hout).
  - intros l' n' b' ns' Hin' Hns'. apply Hcall; [by right|]. rewrite Hns', set_node_ne; [done|]. intros Heq. apply Hl.
    rewrite <- Heq. apply list_elem_of_fmap. exists l'. split; [done|]. apply list_elem_of_fmap. exists (l', n'). split; [done|].
    apply list_elem_of_fmap. by exists (l', n', b').
  - exists ns'. split_and!.
    + etrans; [exact Hrun|]. by rewrite <- app_assoc.
    + intros l' n' b' [[= -> -> ->]|Hin']%elem_of_cons; [|by apply (Hin _ _ b')]. by rewrite Hout, set_node_eq.
    + intros j [Hj Hj']%not_elem_of_cons. by rewrite Hout, set_node_ne.
Qed.
End Legs.
Arguments leg_transport {_ T}.
Arguments leg_node {_ T}.
Arguments leg_clock {_ T}.
Arguments leg_env {_ T}.
Arguments leg_participant {_ T}.
Arguments MkLeg {_ T}.

(** ** The coordinator *)

Section Attests.
Context {Hs : Sha256} {Ed : Ed25519} {R : RandomnessEngine} {A : AttestationEngine}.
Context {Fr : FrostEd25519} {Sg : FrostSigning} {G : Groth16}.
Context {Jh : SerdeJson HspProof} {Je : SerdeJson DctlsEvidence}.
Context (config : CoordinatorConfig) (fresh : Fresh) (request : AttestationRequest) (response : bytes).
Context {T : Type} {Tr : FrostNodeTransport T Nodes}.
Abbreviation sid0 := (fresh_session_id fresh).
Abbreviation with0 := (with_session config fresh request).

Definition signing_of (l : Leg T) : FrostParticipant * Frost.Rng := (leg_participant l, env_rng (leg_env l)).
Definition leg_id (l : Leg T) : VerifierId := fp_verifier_id (leg_participant l).

(** The messages of a run. *)
Definition request1 (p : PreparedSession) (epoch : RegistryEpoch) (legs : list (Leg T)) : FrostRound1Request :=
  {| f1_session_id := ps_session_id p; f1_coordinator_id := cc_coordinator_id config;
     f1_signed_digest := ps_signed_digest p; f1_envelope_digest := ps_envelope_digest p;
     f1_signer_set := leg_id <$> legs; f1_round_expires_at := ps_expires_at p; f1_registry_epoch := epoch;
     f1_hsp_proof_bytes := []; f1_hsp_pvk_bytes := []; f1_dctls_evidence_bytes := [];
     f1_rand_value_bytes := []; f1_server_cert_hash_bytes := [] |}.
Definition answer1 (p : PreparedSession) (l : Leg T) : FrostRound1Response :=
  MkFrostRound1Response (ps_session_id p) (leg_id l) (commitment_entry (signing_of l)).2.
Definition request2 (p : PreparedSession) (legs : list (Leg T)) : FrostRound2Request :=
  {| f2_session_id := ps_session_id p; f2_coordinator_id := cc_coordinator_id config;
     f2_signing_package_bytes := json_bytes (fsp_inner (package (signing_of <$> legs) (ps_signed_digest p)));
     f2_signer_set := leg_id <$> legs |}.
Definition answer2 (p : PreparedSession) (l : Leg T) (sh : SignatureShare) : FrostRound2Response :=
  MkFrostRound2Response (ps_session_id p) (leg_id l) (json_bytes sh).

(** The node of a leg runs its participant, has not seen the session, and is in
    time. *)
Record leg_ready (epoch : RegistryEpoch) (ns : Nodes) (l : Leg T) : Prop := {
  lr_participant : participant (ns (leg_node l)) = leg_participant l;
  lr_fresh : pending (ns (leg_node l)) !! sid0 = None;
  lr_registry : node_registry (ns (leg_node l)) = None \/ epoch = RegistryEpoch_GENESIS;
  lr_time : uval (UnixTimestamp_0 (leg_clock l (fresh_now fresh))) <= uval (UnixTimestamp_0 (session_expiry config fresh request))
}.

(** The messages of the run get through. *)
Definition leg_carries (ok : Leg T -> NodeRequest -> NodeResponse -> Prop) (p : PreparedSession) (epoch : RegistryEpoch)
    (legs : list (Leg T)) (l : Leg T) : Prop :=
  ok l (ReqFrostRound1 (request1 p epoch legs)) (RespFrostRound1 (answer1 p l)) /\
  forall sh, signs (signing_of <$> legs) (ps_signed_digest p) (signing_of l) sh ->
    ok l (ReqFrostRound2 (request2 p legs)) (RespFrostRound2 (answer2 p l sh)).

Lemma record_all_completes {B} (f : B -> VerifierId) l m vs :
  NoDup (f <$> l) -> Forall (fun b => f b ∉ vs) l ->
  sfor l (fun b => store_call (record_approval sid0 (f b))) (with0 m Collecting vs)
  = (with0 m Collecting (list_to_set (f <$> l) ∪ vs), Ok tt).
Proof.
  revert vs. induction l as [|b l IH]; intros vs Hnd Hall; cbn [sfor].
  { cbn. by rewrite (left_id_L ∅ (∪)). }
  rewrite fmap_cons in Hnd. apply NoDup_cons in Hnd as [Hb Hnd]. apply Forall_cons in Hall as [Hv Hall].
  unfold sbind. rewrite record_with_session by done. rewrite bool_decide_eq_false_2 by done. rewrite IH; [|done|].
  - rewrite fmap_cons. cbn [list_to_set]. do 2 f_equal. set_solver.
  - apply Forall_forall. intros b' Hb' [Heq%elem_of_singleton|?]%elem_of_union.
    + apply Hb. rewrite <- Heq. apply list_elem_of_fmap. by exists b'.
    + rewrite Forall_forall in Hall. by apply (Hall b').
Qed.

(** Distinct identifiers of one group belong to distinct verifiers. *)
Lemma quorum_ids_distinct gk t (qs : list (FrostParticipant * Frost.Rng)) :
  signing_quorum gk t qs -> NoDup (fp_verifier_id <$> qs.*1).
Proof.
  intros [_ Hnd Hm]. induction Hm as [|q qs [Hq _] Hm IH]; [constructor|]. rewrite !fmap_cons in *.
  apply NoDup_cons in Hnd as [Hn Hnd]. apply NoDup_cons. split; [|by apply IH].
  intros (p & Heq & (q' & -> & Hq')%list_elem_of_fmap)%list_elem_of_fmap. apply Hn.
  rewrite Forall_forall in Hm. destruct (Hm q' Hq') as [Hq2 _]. rewrite <- Heq, Hq in Hq2. injection Hq2 as ->.
  apply list_elem_of_fmap. exists q'.1. split; [done|]. apply list_elem_of_fmap. by exists q'.
Qed.

Section OneRun.
Context (ok : Leg T -> NodeRequest -> NodeResponse -> Prop) (epoch : RegistryEpoch) (legs : list (Leg T)).
Context (gk : FrostGroupKey) (t : Z) (p : PreparedSession) (ns : Nodes).
Hypothesis p_session : ps_session_id p = sid0.
Hypothesis p_now : ps_now p = fresh_now fresh.
Hypothesis p_expires : ps_expires_at p = session_expiry config fresh request.
Hypothesis p_digest : ps_signed_digest p = approval_signed_digest (ps_envelope_digest p).
Hypothesis quorum : signing_quorum gk t (signing_of <$> legs).
Hypothesis nodes_distinct : NoDup (leg_node <$> legs).
Hypothesis legs_reach : Forall (fun l => reaches (ok l) l) legs.
Hypothesis legs_ready : Forall (leg_ready epoch ns) legs.
Hypothesis legs_carry : Forall (leg_carries ok p epoch legs) legs.

Lemma leg_admissible l : l ∈ legs -> admissible (ns (leg_node l)) (request1 p epoch legs) (leg_clock l (ps_now p)).
Proof using p_session p_now p_expires p_digest legs_ready.
  intros Hl. rewrite Forall_forall in legs_ready. destruct (legs_ready l Hl) as [Hp Hfr Hreg Htime]. split; try done.
  - cbn [request1 f1_round_expires_at]. by rewrite p_now, p_expires.
  - cbn [request1 f1_signer_set]. unfold node_verifier_id. rewrite Hp. apply list_elem_of_fmap. by exists l.
  - cbn [request1 f1_session_id]. by rewrite p_session.
Qed.

(** Round 1 leaves every node with the nonces of the session. *)
Lemma round1_run `{St_ops : SessionStore St} (s : St) :
  exists ns1, run_round sid0 "round-1" (fun t => t_frost_round1 t (request1 p epoch legs) (ps_now p)) id
                (leg_transport <$> legs) [] (s, ns) = ((s, ns1), Ok (answer1 p <$> legs)) /\
    (forall l, l ∈ legs -> ns1 (leg_node l) = round1_node (ns (leg_node l)) (request1 p epoch legs) (leg_env l)) /\
    (forall j, j ∉ leg_node <$> legs -> ns1 j = ns j).
Proof using All.
  set (items := (fun l => (l, round1_node (ns (leg_node l)) (request1 p epoch legs) (leg_env l), answer1 p l)) <$> legs).
  assert (H1 : items.*1.*1 = legs) by (unfold items; rewrite <- !list_fmap_compose; apply list_fmap_id).
  assert (H2 : items.*2 = answer1 p <$> legs) by (unfold items; by rewrite <- list_fmap_compose).
  destruct (run_round_legs sid0 "round-1" (fun t => t_frost_round1 t (request1 p epoch legs) (ps_now p)) id items [] s ns)
    as (ns1 & Hrun & Hin & Hout).
  - by rewrite H1.
  - intros l n b ns' (l' & [= <- -> ->] & Hl)%list_elem_of_fmap Hns'. pose proof (leg_admissible l Hl) as Had.
    rewrite Forall_forall in legs_reach, legs_carry, legs_ready. apply (reach_round1 _ _ (legs_reach l Hl)).
    + rewrite Hns'. rewrite frost_round1_completes by done. do 2 f_equal. unfold round1_answer, answer1, node_verifier_id.
      by rewrite (lr_participant _ _ _ (legs_ready l Hl)).
    + apply (legs_carry l Hl).
  - rewrite H1, H2, list_fmap_id in Hrun. rewrite H1 in Hout. exists ns1. split_and!; [done| |done].
    intros l Hl. apply (Hin l _ (answer1 p l)). apply list_elem_of_fmap. by exists l.
Qed.

(** Round 2 uses them up. *)
Lemma round2_run `{St_ops : SessionStore St} (s : St) (ns1 : Nodes) shs :
  (forall l, l ∈ legs -> ns1 (leg_node l) = round1_node (ns (leg_node l)) (request1 p epoch legs) (leg_env l)) ->
  Forall2 (signs (signing_of <$> legs) (ps_signed_digest p)) (signing_of <$> legs) shs ->
  exists ns2, run_round sid0 "round-2" (fun t => t_frost_round2 t (request2 p legs))
                (fun resp => (f2r_verifier_id resp, f2r_signature_share_bytes resp)) (leg_transport <$> legs) [] (s, ns1)
    = ((s, ns2), Ok (zip_with (fun q sh => (fp_verifier_id q.1, json_bytes sh)) (signing_of <$> legs) shs)) /\
    (forall l, l ∈ legs -> ns2 (leg_node l) = round2_node (ns1 (leg_node l)) sid0) /\
    (forall j, j ∉ leg_node <$> legs -> ns2 j = ns1 j).
Proof using All.
  intros Hns1 Hsh. pose proof (Forall2_length _ _ _ Hsh) as Hlen. rewrite length_fmap in Hlen.
  set (items := zip_with (fun l sh => (l, round2_node (ns1 (leg_node l)) sid0, answer2 p l sh)) legs shs).
  assert (H1 : items.*1.*1 = legs).
  { unfold items. rewrite <- list_fmap_compose, fmap_zip_with_l; [done|done|lia]. }
  assert (H2 : (fun resp => (f2r_verifier_id resp, f2r_signature_share_bytes resp)) <$> items.*2
     = zip_with (fun q sh => (fp_verifier_id q.1, json_bytes sh)) (signing_of <$> legs) shs).
  { unfold items. rewrite <- list_fmap_compose, fmap_zip_with, zip_with_fmap_l. done. }
  destruct (run_round_legs sid0 "round-2" (fun t => t_frost_round2 t (request2 p legs))
    (fun resp => (f2r_verifier_id resp, f2r_signature_share_bytes resp)) items [] s ns1) as (ns2 & Hrun & Hin & Hout).
  - by rewrite H1.
  - intros l n b ns' Hitem Hns'. apply list_elem_of_lookup in Hitem as [k Hk].
    apply lookup_zip_with_Some in Hk as (l' & sh & [= <- -> ->] & Hl & Hk).
    pose proof (list_elem_of_lookup_2 _ _ _ Hl) as Hin'.
    assert (Hsg : signs (signing_of <$> legs) (ps_signed_digest p) (signing_of l) sh).
    { eapply (Forall2_lookup_lr _ _ _ k); [exact Hsh| |done]. by rewrite list_lookup_fmap, Hl. }
    rewrite Forall_forall in legs_reach, legs_carry, legs_ready. pose proof (lr_participant _ _ _ (legs_ready l Hin')) as Hp.
    apply (reach_round2 _ _ (legs_reach l Hin')); [|by apply (legs_carry l Hin')].
    rewrite Hns', (Hns1 l Hin'), <- p_session.
    change (ps_session_id p) with (f1_session_id (request1 p epoch legs)).
    rewrite (frost_round2_completes _ _ _ _ (signing_of <$> legs) sh); [|done..|].
    + do 2 f_equal. unfold round2_answer, answer2, node_verifier_id. cbn [participant round1_node set_pending]. by rewrite Hp.
    + by rewrite Hp.
  - rewrite H1, H2 in Hrun. rewrite H1 in Hout. exists ns2. split_and!; [done| |done].
    intros l Hl. apply list_elem_of_lookup in Hl as [k Hk]. destruct (lookup_lt_is_Some_2 shs k) as [sh Hs'].
    { rewrite <- Hlen. by apply lookup_lt_Some in Hk. }
    apply (Hin l _ (answer2 p l sh)). apply list_elem_of_lookup. exists k. apply lookup_zip_with_Some. by exists l, sh.
Qed.
End OneRun.

(** The run on the abstract store. *)
Lemma attest_distributed_honest what epoch ok legs gk t m ns ro te :
  let p := assemble_prepared config fresh request response (MkSession (session_context_of config fresh request) Attesting)
             ro te.1 te.2 in
  m !! sid0 = None ->
  generate (fresh_randomness_id fresh) sid0 (fresh_nonce fresh) (cc_epoch config) (verifiers (cc_quorum config)) = Ok ro ->
  execute (session_context_of config fresh request) (ro_value ro) (rq_query request) response = Ok te ->
  signing_quorum gk t (signing_of <$> legs) -> uval (threshold (cc_quorum config)) <= Z.of_nat (length legs) ->
  NoDup (leg_node <$> legs) -> Forall (fun l => reaches (ok l) l) legs -> Forall (leg_ready epoch ns) legs ->
  Forall (leg_carries ok p epoch legs) legs ->
  exists ns' e,
    attest_distributed config what epoch fresh request response (leg_transport <$> legs) gk (m, ns)
    = ((with0 m Finalized (list_to_set (leg_id <$> legs)), ns'), Ok e) /\
    (forall l, l ∈ legs -> round_over sid0 (ns (leg_node l)) (ns' (leg_node l))) /\ (forall j, j ∉ leg_node <$> legs -> ns' j = ns j).
Proof using Sg.
  intros p Hm Hgen Hexec Hq Hcount Hnd Hreach Hready Hcarry.
  unfold attest_distributed, on_store at 1. unfold sbind at 1. cbn [fst snd]. rewrite prepare_spec, Hm, Hgen, Hexec. fold p.
  change (ps_session_id p) with sid0. unfold on_store at 1. unfold sbind at 1. cbn [fst snd].
  change (ps_session p) with (MkSession (session_context_of config fresh request) Attesting).
  rewrite advance_with_session by done. unfold on_store at 1. unfold sbind at 1. cbn [fst snd].
  assert (Hcc : check_count config sid0 what (length (leg_transport <$> legs)) (with0 m Collecting ∅) = (with0 m Collecting ∅, Ok tt)).
  { unfold check_count. rewrite length_fmap. by rewrite (proj2 (Z.ltb_ge _ _) Hcount). }
  rewrite Hcc. unfold sbind at 1. cbn [fst snd].
  assert (Hids : (fun t => t_verifier_id t ns) <$> (leg_transport <$> legs) = leg_id <$> legs).
  { rewrite <- list_fmap_compose. apply list_fmap_ext. intros k l Hk. pose proof (list_elem_of_lookup_2 _ _ _ Hk) as Hl.
    rewrite Forall_forall in Hreach, Hready. apply (reach_id _ _ (Hreach l Hl)). apply (lr_participant _ _ _ (Hready l Hl)). }
  rewrite Hids. change (MkFrostRound1Request _ _ _ _ _ _ _ _ _ _ _ _) with (request1 p epoch legs).
  destruct (signs_exist gk t (signing_of <$> legs) (ps_signed_digest p) Hq) as [shs Hshs].
  destruct (round1_run ok epoch legs gk t p ns eq_refl eq_refl eq_refl eq_refl Hq Hnd Hreach Hready Hcarry (with0 m Collecting ∅))
    as (ns1 & Hrun1 & Hns1 & Hout1).
  destruct (round2_run ok epoch legs gk t p ns eq_refl eq_refl eq_refl eq_refl Hq Hnd Hreach Hready Hcarry (with0 m Collecting ∅) ns1 shs Hns1 Hshs)
    as (ns2 & Hrun2 & Hns2 & Hout2).
  destruct (aggregate_completes gk t _ _ _ Hq Hshs) as [a Ha].
  unfold sbind at 1. rewrite Hrun1. unfold sbind at 1, slift at 1. unfold assemble_signing_package_from_responses.
  assert (Hcol : (fun r => (f1r_verifier_id r, f1r_commitment_bytes r)) <$> (answer1 p <$> legs) = commitment_entry <$> (signing_of <$> legs))
    by (by rewrite <- !list_fmap_compose).
  rewrite Hcol, (build_completes gk t) by done. cbn [map_err fst snd].
  change (MkFrostRound2Request _ _ _ _) with (request2 p legs). unfold sbind at 1. rewrite Hrun2.
  unfold sbind at 1, slift at 1. rewrite Ha. cbn [map_err]. unfold on_store at 1. unfold sbind at 1. cbn [fst snd].
  assert (Hndi : NoDup (leg_id <$> legs)) by (apply quorum_ids_distinct in Hq; by rewrite <- !list_fmap_compose in Hq).
  pose proof (record_all_completes id (leg_id <$> legs) m ∅) as Hrec. unfold id in Hrec at 3.
  rewrite Hrec by (rewrite ?list_fmap_id; done || (apply Forall_forall; set_solver)).
  rewrite list_fmap_id, (right_id_L ∅ (∪)). unfold on_store at 1. unfold sbind at 1. cbn [fst snd]. rewrite advance_with_session by done.
  do 2 eexists. split_and!; [reflexivity| |].
  - intros l Hl. rewrite (Hns2 l Hl), (Hns1 l Hl). apply (rounds_over _ (request1 p epoch legs)).
  - intros j Hj. by rewrite Hout2, Hout1.
Qed.

(** ... and on every store that implements the contract: the envelope verifies. *)
Lemma honest_quorum_attests `{Spec : StoreSpec St} what epoch ok legs gk t s m ns ro te :
  let p := assemble_prepared config fresh request response (MkSession (session_context_of config fresh request) Attesting)
             ro te.1 te.2 in
  store_rel s m -> m !! sid0 = None ->
  generate (fresh_randomness_id fresh) sid0 (fresh_nonce fresh) (cc_epoch config) (verifiers (cc_quorum config)) = Ok ro ->
  execute (session_context_of config fresh request) (ro_value ro) (rq_query request) response = Ok te ->
  signing_quorum gk t (signing_of <$> legs) -> uval (threshold (cc_quorum config)) <= Z.of_nat (length legs) ->
  NoDup (leg_node <$> legs) -> Forall (fun l => reaches (ok l) l) legs -> Forall (leg_ready epoch ns) legs ->
  Forall (leg_carries ok p epoch legs) legs ->
  exists (s' : St) (ns' : Nodes) (e : FrostAttestationEnvelope),
    attest_distributed config what epoch fresh request response (leg_transport <$> legs) gk (s, ns) = ((s', ns'), Ok e) /\
    store_rel s' (with0 m Finalized (list_to_set (leg_id <$> legs))) /\ frost_envelope_good config fresh request gk e /\
    (forall l, l ∈ legs -> round_over sid0 (ns (leg_node l)) (ns' (leg_node l))) /\ (forall j, j ∉ leg_node <$> legs -> ns' j = ns j).
Proof using Sg.
  intros p HR Hm Hgen Hexec Hq Hcount Hnd Hreach Hready Hcarry.
  destruct (attest_distributed_honest what epoch ok legs gk t m ns ro te) as (ns' & e & Hrun & Hfree & Hout); [done..|].
  pose proof (attest_distributed_spec config fresh request response what epoch _ gk m ns _ ns' _ Hrun) as (_ & _ & _ & _ & Hgood).
  destruct (attest_distributed_sim config what epoch fresh request response (leg_transport <$> legs) gk (s, ns) (m, ns)) as [[HR' Hns'] Heq]; [done|].
  rewrite Hrun in HR', Hns', Heq.
  destruct (attest_distributed config what epoch fresh request response (leg_transport <$> legs) gk (s, ns)) as [[s' ns2] r] eqn:Hs'.
  cbn [fst snd] in *. subst. by exists s', ns', e.
Qed.
End Attests.

(** ** Groups of the trusted dealer *)

Section Dealt.
Context {Fr : FrostEd25519} {Dk : FrostDkg} {De : FrostDealer} {Sg : FrostSigning} {Ds : DealtShares}.
Context (rng : Frost.Rng) (vs : list VerifierId) (threshold : usize) (out : TrustedDealerKeygenOutput).
Hypothesis keygen : frost_trusted_dealer_keygen rng vs threshold = Ok out.
Hypothesis fits : Z.of_nat (length vs) <= 65535.

(** The guards of the key generation held. *)
Lemma dealt_valid : NoDup vs /\ 2 <= uval threshold <= Z.of_nat (length vs).
Proof using keygen.
  unfold frost_trusted_dealer_keygen in keygen. destruct (Nat.ltb_spec (length vs) 2); [done|].
  destruct (Z.ltb_spec (uval threshold) 2); [done|]. destruct (Z.ltb_spec (Z.of_nat (length vs)) (uval threshold)); [done|].
  destruct (Nat.eqb_spec (length vs) (size (list_to_set vs : gset VerifierId))) as [Hsz|]; [|done].
  split; [|done]. apply unique_check. by rewrite <- Hsz, Nat.eqb_refl.
Qed.

(** Every participant it returns belongs to the group, and no two of them share
    an identifier. *)
Lemma dealt_share p : p ∈ tdk_participants out ->
  share_of (pub_key_package (tdk_group_key out)) (uval threshold) (fp_identifier p) (key_package p).
Proof using keygen fits Ds.
  destruct dealt_valid as [_ Ht]. unfold frost_trusted_dealer_keygen in keygen.
  repeat (destruct (_ : bool) in keygen; [done|]).
  apply bind_Ok in keygen as (ids & _ & ([shares pk] & Hdeal%map_err_Ok & ([m ps] & Hloop & [= <-])%bind_Ok)%bind_Ok).
  cbn [tdk_participants tdk_group_key pub_key_package]. revert p. apply Forall_forall.
  apply (try_fold_inv (fun acc => Forall (fun p => share_of pk (uval threshold) (fp_identifier p) (key_package p)) acc.2)
    _ _ (∅, []) _ (List.Forall_nil _)) in Hloop; [done|].
  intros acc [idx v] acc' _ Hacc (id & _ & (sh & Hsh%ok_or_Ok & (kp & Hkp%map_err_Ok & [= <-])%bind_Ok)%bind_Ok)%bind_Ok.
  apply Forall_app. split; [done|]. constructor; [|done]. cbn [fp_identifier key_package].
  pose proof (dealt_share_of _ _ _ _ _ _ _ _ _ Hdeal Hsh Hkp) as Hok.
  rewrite uval_of_Z_small in Hok by (change (2 ^ 16) with 65536; lia). exact Hok.
Qed.

Lemma dealt_in_group k p : tdk_participants out !! k = Some p ->
  in_group (tdk_group_key out) (uval threshold) p /\ identifier_at k = Ok (fp_identifier p) /\ (k < length vs)%nat.
Proof using keygen fits Ds.
  intros Hk. destruct dealt_valid as [Hnd Ht].
  destruct (dealer_keygen_completes rng vs threshold Hnd Ht fits) as (out' & Hout' & Hlen & Hp & Hm).
  rewrite keygen in Hout'. injection Hout' as <-. destruct (Hp k p Hk) as [Hv Hid]. split_and!; [|done|].
  - split; [by apply (Hm k)|]. apply dealt_share. by apply list_elem_of_lookup_2 in Hk.
  - rewrite <- Hlen. by apply lookup_lt_Some in Hk.
Qed.

(** Any [threshold] of them are a quorum. *)
Lemma dealt_quorum ks qs :
  NoDup ks -> Forall2 (fun k (q : FrostParticipant * Frost.Rng) => tdk_participants out !! k = Some q.1) ks qs ->
  uval threshold <= Z.of_nat (length qs) -> signing_quorum (tdk_group_key out) (uval threshold) qs.
Proof using keygen fits Ds.
  intros Hnd Hqs Hlen. destruct dealt_valid as [_ Ht]. split; [lia| |].
  - apply NoDup_alt. intros i j id Hi Hj. apply list_lookup_fmap_Some in Hi as (p & -> & Hp), Hj as (p' & Heq & Hp').
    apply list_lookup_fmap_Some in Hp as (q & -> & Hq), Hp' as (q' & -> & Hq').
    destruct (Forall2_lookup_r _ _ _ _ _ Hqs Hq) as (k & Hk & (_ & Hid & Hlt)%dealt_in_group).
    destruct (Forall2_lookup_r _ _ _ _ _ Hqs Hq') as (k' & Hk' & (_ & Hid' & Hlt')%dealt_in_group).
    assert (k = k') as <- by (apply (identifier_at_inj k k' (fp_identifier q.1)); [lia|lia|done|by rewrite Heq]).
    by apply (NoDup_lookup ks i j k).
  - apply Forall_forall. intros q (i & Hi)%list_elem_of_lookup.
    by destruct (Forall2_lookup_r _ _ _ _ _ Hqs Hi) as (k & _ & [? _]%dealt_in_group).
Qed.
End Dealt.

(** ** A dealt group attests *)

Section DealtAttests.
Context {Hs : Sha256} {Ed : Ed25519} {R : RandomnessEngine} {A : AttestationEngine}.
Context {Fr : FrostEd25519} {Dk : FrostDkg} {De : FrostDealer} {Sg : FrostSigning} {Ds : DealtShares} {G : Groth16}.
Context {Jh : SerdeJson HspProof} {Je : SerdeJson DctlsEvidence}.
Context {T : Type} {Tr : FrostNodeTransport T Nodes} `{Spec : StoreSpec St}.

(** C14. Distributed attestation succeeds when it should. Let the trusted dealer
    have dealt shares to at most 65535 verifiers, and let [legs] be transports to
    distinct nodes that run distinct participants [ks] of that group, as many as
    both the dealer's and the coordinator's threshold ask for. If the session is
    new, both engines deliver, each node's clock is within the session and its
    registry does not object, and the transports carry the two rounds, then the
    coordinator returns an envelope that verifies under the group key, the session
    is finalized and approved by exactly those participants, every node of the run
    has kept its key, registry and bindings but no nonces of the session, and nodes
    outside the run are unchanged. *)
Theorem dealt_group_attests config fresh request response what epoch rng vs th out (ks : list nat) ok (legs : list (Leg T)) (s : St) m
    (ns : Nodes) ro te :
  let p := assemble_prepared config fresh request response (MkSession (session_context_of config fresh request) Attesting)
             ro te.1 te.2 in
  frost_trusted_dealer_keygen rng vs th = Ok out -> Z.of_nat (length vs) <= 65535 ->
  NoDup ks -> Forall2 (fun k l => tdk_participants out !! k = Some (leg_participant l)) ks legs ->
  uval th <= Z.of_nat (length legs) -> uval (threshold (cc_quorum config)) <= Z.of_nat (length legs) ->
  store_rel s m -> m !! fresh_session_id fresh = None ->
  generate (fresh_randomness_id fresh) (fresh_session_id fresh) (fresh_nonce fresh) (cc_epoch config)
    (verifiers (cc_quorum config)) = Ok ro ->
  execute (session_context_of config fresh request) (ro_value ro) (rq_query request) response = Ok te ->
  NoDup (leg_node <$> legs) -> Forall (fun l => reaches (ok l) l) legs ->
  Forall (leg_ready config fresh request epoch ns) legs -> Forall (leg_carries config ok p epoch legs) legs ->
  exists (s' : St) (ns' : Nodes) (e : FrostAttestationEnvelope),
    attest_distributed config what epoch fresh request response (leg_transport <$> legs) (tdk_group_key out) (s, ns)
      = ((s', ns'), Ok e) /\
    store_rel s' (with_session config fresh request m Finalized (list_to_set (leg_id <$> legs))) /\
    frost_envelope_good config fresh request (tdk_group_key out) e /\
    (forall l, l ∈ legs -> round_over (fresh_session_id fresh) (ns (leg_node l)) (ns' (leg_node l))) /\
    (forall j, j ∉ leg_node <$> legs -> ns' j = ns j).
Proof using Ds.
  intros p Hkeys Hfits Hks Hlegs Hth Hcount HR Hm Hgen Hexec Hnd Hreach Hready Hcarry.
  apply (honest_quorum_attests config fresh request response what epoch ok legs _ (uval th) s m ns ro te); try done.
  apply (dealt_quorum rng vs th out Hkeys Hfits ks); [done| |by rewrite length_fmap].
  apply Forall2_fmap_r. by apply Hlegs.
Qed.
End DealtAttests.

(** ** A concrete run *)

(** In the toy scheme two signers are always enough. *)
Definition toy_signing_on (I : Type) `{Countable I} : FrostSigning (Fr:=toy_frost_on I).
Proof.
  refine {| share_of _ _ _ _ := True |}; try reflexivity.
  - intros pk t qs m i kp rng _ _ _. by eexists.
  - intros pk t qs m shares Hsz _ Hdom _. cbn [frost_aggregate toy_frost_on].
    assert (Hle : (2 <= size shares)%nat) by (rewrite <- size_dom, Hdom, size_dom; lia).
    apply Nat.leb_le in Hle. match goal with |- context [if ?b then _ else _] => change b with (2 <=? size shares)%nat end.
    rewrite Hle. by eexists.
Defined.
Definition toy_signing : FrostSigning (Fr:=toy_frost) := toy_signing_on nat.

Section DealtRun.
#[local] Existing Instance toy_sha256.
#[local] Existing Instance toy_ed25519.
#[local] Existing Instance toy_frost.
#[local] Existing Instance toy_dkg.
#[local] Existing Instance toy_dealer.
#[local] Existing Instance toy_signing.
#[local] Instance dealt_groth16 : Groth16 := toy_groth16 (Ark:=value_ark).
#[local] Instance dealt_json T : SerdeJson T := no_json T.
#[local] Existing Instance PrototypeAttestationEngine.
#[local] Existing Instance run_randomness.
#[local] Instance toy_dealt : DealtShares.
Proof. by intros ?. Defined.

(** Three verifiers, of whom the first and the third are asked. *)
Definition dealt_out : TrustedDealerKeygenOutput :=
  unwrap_or (MkTrustedDealerKeygenOutput [] (toy_group 3)) (frost_trusted_dealer_keygen (toy_rngs 1) toy_ids (n64 2)).
Definition dealt_participant (k : nat) : FrostParticipant := default (toy_participant 3 1) (tdk_participants dealt_out !! k).
Definition dealt_nodes : Nodes := fun i => FrostAuxiliaryNode_new (dealt_participant i).
Definition dealt_leg (k : nat) : Leg InProcessTransport :=
  MkLeg (MkInProcessTransport k (ex_env (Z.of_nat k))) k id (ex_env (Z.of_nat k)) (dealt_participant k).

Lemma dealt_group_attests_witness :
  exists s' ns' e,
    attest_distributed run_config "aux nodes" RegistryEpoch_GENESIS run_fresh run_request run_response
      (leg_transport <$> [dealt_leg 0; dealt_leg 2]) (tdk_group_key dealt_out) (InMemorySessionStore_new, dealt_nodes)
      = ((s', ns'), Ok e) /\
    frost_envelope_good run_config run_fresh run_request (tdk_group_key dealt_out) e.
Proof.
  destruct (generate toy_rid (sid 4) toy_nonce Epoch_GENESIS toy_keys.*1) as [ro|e] eqn:Hro;
    [|exfalso; revert Hro; vm_compute; discriminate].
  destruct (dealt_group_attests run_config run_fresh run_request run_response "aux nodes" RegistryEpoch_GENESIS
    (toy_rngs 1) toy_ids (n64 2) dealt_out [0%nat; 2%nat] (fun _ _ _ => True) [dealt_leg 0; dealt_leg 2]
    InMemorySessionStore_new ∅ dealt_nodes ro
    (unwrap_or (MkTranscriptCommitments (MkTranscriptCommitment "" (digest 0)) (MkTranscriptCommitment "" (digest 0)) (digest 0),
                ExportableEvidence_new "" [])
       (execute (session_context_of run_config run_fresh run_request) (ro_value ro) (rq_query run_request) run_response)))
    as (s' & ns' & e & Hrun & _ & Hgood & _).
  - apply is_ok_unwrap. vm_compute. reflexivity.
  - vm_compute. discriminate.
  - apply (bool_decide_unpack _). vm_compute. exact I.
  - repeat constructor; vm_compute; reflexivity.
  - vm_compute. discriminate.
  - vm_compute. discriminate.
  - exact mem_rel_new.
  - reflexivity.
  - exact Hro.
  - reflexivity.
  - apply (bool_decide_unpack _). vm_compute. exact I.
  - repeat constructor; apply in_process_reaches.
  - repeat constructor; vm_compute; discriminate.
  - repeat constructor.
  - exists s', ns', e. exact (conj Hrun Hgood).
Defined.
End DealtRun.
