(* ===== verification/OnChain.v ===== *)
(** * Attestations for smart contracts

    Models [attestation/src/onchain.rs] (the Ed25519 format) and
    [attestation/src/onchain_secp256k1.rs] (the secp256k1 format): encoding and
    decoding of the words of the Ethereum ABI, verification, and the extraction
    from a threshold approval.

    External code: [ed25519-dalek] is the class [Dalek], [k256] the class [K256],
    Keccak the class [Keccak256]. *)

From S2P Require Import Prelude Core Session Attestation Threshold Frost.

(** [&bytes[start..start + n]] of a long enough slice. *)
Definition slice (start n : nat) (l : bytes) : bytes := take n (drop start l).
(** 32 bytes of it, copied into an array. *)
Definition word (start : nat) (l : bytes) : array 32 := to_array 32 (slice start 32 l).
(** [bytes[i]] of a long enough slice. *)
Definition byte_at (i : nat) (l : bytes) : u8 := default (byte 0) (l !! i).
Definition zeros (n : nat) : bytes := replicate n (byte 0).

(** ** The Ed25519 format (onchain.rs) *)

(** A verifying key is checked when it is read; every 64 bytes are a signature.
    The law is the documented compatibility of the two crates: what FROST
    verifies under a key is a valid Ed25519 signature for the encoded key. *)
Class Dalek {Fr : FrostEd25519} := {
  DalekKey : Type;
  dalek_from_bytes : array 32 -> result string DalekKey;
  dalek_verify : DalekKey -> bytes -> array 64 -> result string unit;
  dalek_frost vkb sigb vk sig m :
    vk_deserialize vkb = Ok vk -> sig_deserialize sigb = Ok sig -> frost_verify vk m sig = Ok tt ->
    exists k, dalek_from_bytes vkb = Ok k /\ dalek_verify k m sigb = Ok tt
}.

Record OnChainAttestation := MkOnChainAttestation {
  oc_statement_digest : array 32;
  oc_dvrf_value : array 32;
  oc_envelope_digest : array 32;
  oc_group_verifying_key : array 32;
  oc_aggregate_signature : array 64;
  oc_threshold : u8;
  oc_verifier_count : u8;
  oc_statement_dvrf_binding : array 32
}.

Inductive OnChainError :=
  | OcSignatureVerificationFailed (e : string)
  | OcDigestMismatch
  | OcThresholdNotMet (need have : Z).

Section Ed25519Format.
Context {Hs : Sha256}.

Definition compute_statement_dvrf_binding (statement_digest dvrf_value : array 32) : array 32 :=
  sha256_digest (string_bytes "tls-attestation/stmt-dvrf-binding/v1" ++ arr statement_digest ++ arr dvrf_value).

Definition onchain_verify {Fr : FrostEd25519} {Da : Dalek} (self : OnChainAttestation) : result OnChainError unit :=
  vk ← map_err OcSignatureVerificationFailed (dalek_from_bytes (oc_group_verifying_key self));
  _ ← map_err OcSignatureVerificationFailed
        (dalek_verify vk (arr (oc_envelope_digest self)) (oc_aggregate_signature self));
  if uval (oc_threshold self) =? 0 then Err (OcThresholdNotMet 1 (uval (oc_threshold self)))
  else if uval (oc_verifier_count self) <? uval (oc_threshold self) then
    Err (OcThresholdNotMet (uval (oc_threshold self)) (uval (oc_verifier_count self)))
  else
    let expected_binding := compute_statement_dvrf_binding (oc_statement_digest self) (oc_dvrf_value self) in
    if negb (bool_decide (oc_statement_dvrf_binding self = expected_binding)) then Err OcDigestMismatch
    else Ok tt.

Definition abi_encode (self : OnChainAttestation) : bytes :=
  arr (oc_statement_digest self) ++ arr (oc_dvrf_value self) ++ arr (oc_envelope_digest self) ++
  arr (oc_group_verifying_key self) ++ slice 0 32 (arr (oc_aggregate_signature self)) ++
  slice 32 32 (arr (oc_aggregate_signature self)) ++ (zeros 31 ++ [oc_threshold self]) ++
  (zeros 31 ++ [oc_verifier_count self]) ++ arr (oc_statement_dvrf_binding self).

Definition abi_decode (bs : bytes) : result OnChainError OnChainAttestation :=
  if negb (length bs =? 288)%nat then
    Err (OcSignatureVerificationFailed ("expected 288 bytes, got " +:+ pretty (Z.of_nat (length bs))))
  else Ok {|
    oc_statement_digest := word 0 bs; oc_dvrf_value := word 32 bs; oc_envelope_digest := word 64 bs;
    oc_group_verifying_key := word 96 bs; oc_aggregate_signature := to_array 64 (slice 128 32 bs ++ slice 160 32 bs);
    oc_threshold := byte_at 223 bs; oc_verifier_count := byte_at 255 bs; oc_statement_dvrf_binding := word 256 bs |}.

Definition extract_on_chain_attestation {Fr : FrostEd25519} (statement_digest dvrf_value envelope_digest : array 32)
    (frost_approval : FrostThresholdApproval) (threshold verifier_count : u8) : OnChainAttestation :=
  {| oc_statement_digest := statement_digest; oc_dvrf_value := dvrf_value; oc_envelope_digest := envelope_digest;
     oc_group_verifying_key := group_verifying_key_bytes frost_approval;
     oc_aggregate_signature := aggregate_signature_bytes frost_approval;
     oc_threshold := threshold; oc_verifier_count := verifier_count;
     oc_statement_dvrf_binding := compute_statement_dvrf_binding statement_digest dvrf_value |}.

Definition onchain_statement_input (tag : string) (content : bytes) : bytes :=
  string_bytes "tls-attestation/onchain-statement/v1" ++ [byte 0] ++ u64_be (len64 (string_bytes tag)) ++ string_bytes tag ++
  u64_be (len64 content) ++ content.
Definition derive_onchain_statement_digest (tag : string) (content : bytes) : array 32 :=
  sha256_digest (onchain_statement_input tag content).
End Ed25519Format.

(** ** The secp256k1 format (onchain_secp256k1.rs) *)

Class Keccak256 := keccak256 : bytes -> array 32.

(** Scalars and points of [k256]; [AffinePoint::from_bytes] reads the 33 bytes of a
    compressed point, and [to_bytes] writes them. *)
Class K256 := {
  Scalar : Type;
  Point : Type;
  scalar_from_repr : array 32 -> option Scalar;
  point_from_bytes : array 33 -> option Point;
  point_to_bytes : Point -> bytes;
  mul_by_generator : Scalar -> Point;
  point_mul : Point -> Scalar -> Point;
  point_sub : Point -> Point -> Point
}.

Record OnChainAttestationSecp256k1 := MkOnChainAttestationSecp256k1 {
  os_statement_digest : array 32;
  os_dvrf_value : array 32;
  os_envelope_digest : array 32;
  os_group_key_x : array 32;
  os_group_key_y : array 32;
  os_sig_R_x : array 32;
  os_sig_s : array 32;
  os_threshold : u8;
  os_verifier_count : u8;
  os_alpha_commitment : array 32;
  os_session_id : array 32
}.

Inductive Secp256k1OnChainError :=
  | WrongLength (expected got : Z)
  | InvalidSignature (e : string)
  | OsThresholdNotMet (need have : Z).

Section Secp256k1Format.

Definition secp_abi_encode (self : OnChainAttestationSecp256k1) : bytes :=
  arr (os_statement_digest self) ++ arr (os_dvrf_value self) ++ arr (os_envelope_digest self) ++
  arr (os_group_key_x self) ++ arr (os_group_key_y self) ++ arr (os_sig_R_x self) ++ arr (os_sig_s self) ++
  (zeros 31 ++ [os_threshold self]) ++ (zeros 31 ++ [os_verifier_count self]) ++
  arr (os_alpha_commitment self) ++ arr (os_session_id self).

Definition secp_abi_decode (bs : bytes) : result Secp256k1OnChainError OnChainAttestationSecp256k1 :=
  if negb (length bs =? 352)%nat then Err (WrongLength 352 (Z.of_nat (length bs)))
  else Ok {|
    os_statement_digest := word 0 bs; os_dvrf_value := word 32 bs; os_envelope_digest := word 64 bs;
    os_group_key_x := word 96 bs; os_group_key_y := word 128 bs; os_sig_R_x := word 160 bs; os_sig_s := word 192 bs;
    os_threshold := byte_at 255 bs; os_verifier_count := byte_at 287 bs;
    os_alpha_commitment := word 288 bs; os_session_id := word 320 bs |}.

(** [slice.into()] for a reference to a [GenericArray] of [n] bytes panics on any
    other length. *)
Definition generic_array_from_slice (n : nat) (l : bytes) : result (failure Secp256k1OnChainError) (array n) :=
  ok_or (Panics "assertion `left == right` failed") (try_into n l).

Context {Kk : Keccak256} {K : K256}.

Definition verify_schnorr (self : OnChainAttestationSecp256k1) : result (failure Secp256k1OnChainError) unit :=
  let e_bytes := keccak256 (arr (os_sig_R_x self) ++ arr (os_group_key_x self) ++ arr (os_envelope_digest self)) in
  s ← ok_or (Fails (InvalidSignature "invalid s")) (scalar_from_repr (os_sig_s self));
  e ← ok_or (Fails (InvalidSignature "invalid e")) (scalar_from_repr e_bytes);
  let pk_bytes := byte 4 :: arr (os_group_key_x self) ++ arr (os_group_key_y self) in
  repr ← generic_array_from_slice 33 pk_bytes;
  pk_point ← ok_or (Fails (InvalidSignature "invalid group key")) (point_from_bytes repr);
  let R_candidate := point_sub (mul_by_generator s) (point_mul pk_point e) in
  let compressed := point_to_bytes R_candidate in
  if (length compressed <? 33)%nat then Err (Fails (InvalidSignature "degenerate point"))
  else
    let candidate_x := word 1 compressed in
    if negb (bool_decide (candidate_x = os_sig_R_x self)) then
      Err (Fails (InvalidSignature "Schnorr verification failed: R.x mismatch"))
    else if uval (os_verifier_count self) <? uval (os_threshold self) then
      Err (Fails (OsThresholdNotMet (uval (os_threshold self)) (uval (os_verifier_count self))))
    else Ok tt.

Definition statement_digest_for (tag : string) (content : bytes) : array 32 :=
  keccak256 (onchain_statement_input tag content).

Definition extract_secp256k1_attestation (statement_digest dvrf_value alpha_commitment session_id envelope_digest : array 32)
    (sig_bytes : array 64) (group_key_x group_key_y : array 32) (threshold verifier_count : u8)
    : OnChainAttestationSecp256k1 :=
  {| os_statement_digest := statement_digest; os_dvrf_value := dvrf_value; os_envelope_digest := envelope_digest;
     os_group_key_x := group_key_x; os_group_key_y := group_key_y;
     os_sig_R_x := word 0 (arr sig_bytes); os_sig_s := word 32 (arr sig_bytes);
     os_threshold := threshold; os_verifier_count := verifier_count;
     os_alpha_commitment := alpha_commitment; os_session_id := session_id |}.
End Secp256k1Format.

(** ** Slices of concatenations *)

Lemma length_slice k n l : (k + n <= length l)%nat -> length (slice k n l) = n.
Proof. intros H. unfold slice. rewrite length_take, length_drop. lia. Qed.
Lemma slice_skip m x r k n : length x = m -> slice (m + k) n (x ++ r) = slice k n r.
Proof. intros <-. unfold slice. by rewrite drop_app_add. Qed.
Lemma slice_here n x r : length x = n -> slice 0 n (x ++ r) = x.
Proof. intros <-. unfold slice. by rewrite drop_0, take_app_length. Qed.
Lemma slice_all n x : length x = n -> slice 0 n x = x.
Proof. intros <-. unfold slice. by rewrite drop_0, take_ge. Qed.
Lemma slice_split k n m l : slice k n l ++ slice (k + n) m l = slice k (n + m) l.
Proof. unfold slice. by rewrite <- drop_drop, take_take_drop. Qed.
Lemma byte_at_skip m x r k : length x = m -> byte_at (m + k) (x ++ r) = byte_at k r.
Proof. intros <-. unfold byte_at. by rewrite lookup_app_r, Nat.add_comm, Nat.add_sub by lia. Qed.
Lemma byte_at_slice k n l : (k + n < length l)%nat -> slice k n l ++ [byte_at (k + n) l] = slice k (n + 1) l.
Proof.
  intros H. rewrite <- slice_split. f_equal. unfold slice, byte_at.
  destruct (lookup_lt_is_Some_2 l (k + n)%nat H) as [b Hb]. rewrite Hb, (drop_S _ _ _ Hb). done.
Qed.
Lemma arr_word k l : (k + 32 <= length l)%nat -> arr (word k l) = slice k 32 l.
Proof. intros H. apply arr_to_array. by apply length_slice. Qed.
Lemma word_arr {k l} (a : array 32) : slice k 32 l = arr a -> word k l = a.
Proof. intros H. unfold word. rewrite H. apply to_array_arr. Qed.
Lemma length_zeros n : length (zeros n) = n.
Proof. apply length_replicate. Qed.

(** The 32-byte words of a string. *)
Definition words (n : nat) (l : bytes) : list bytes := (fun i => slice (32 * i) 32 l) <$> seq 0 n.

(** Word [i] of a concatenation of words. *)
Lemma encoded_word ws i w :
  Forall (fun w => length w = 32%nat) ws -> ws !! i = Some w -> slice (32 * i) 32 (concat ws) = w.
Proof.
  intros Hws. revert i. induction Hws as [|x ws Hx Hws IH]; intros [|i] Hi; [done..| |].
  - injection Hi as ->. rewrite Nat.mul_0_r. by apply slice_here.
  - change (concat (x :: ws)) with (x ++ concat ws). replace (32 * S i)%nat with (32 + 32 * i)%nat by lia.
    rewrite slice_skip by done. by apply IH.
Qed.

Lemma concat_words n l : length l = (32 * n)%nat -> concat (words n l) = l.
Proof.
  intros Hl. assert (Hgen : forall k s, (32 * (s + k) <= length l)%nat ->
    concat ((fun i => slice (32 * i) 32 l) <$> seq s k) = slice (32 * s) (32 * k) l).
  { induction k as [|k IH]; intros s Hs; cbn [seq fmap list_fmap concat].
    - by rewrite Nat.mul_0_r.
    - rewrite IH by lia. replace (32 * S s)%nat with (32 * s + 32)%nat by lia. rewrite slice_split. f_equal. lia. }
  unfold words. rewrite Hgen by lia. by apply slice_all.
Qed.

Lemma length_concat_words ws : Forall (fun w : bytes => length w = 32%nat) ws -> length (concat ws) = (32 * length ws)%nat.
Proof. induction 1 as [|w ws Hw _ IH]; cbn [concat length]; [done|]. rewrite length_app, IH, Hw. lia. Qed.

Lemma concat_words_iff n ws l :
  Forall (fun w => length w = 32%nat) ws -> length l = (32 * n)%nat -> concat ws = l <-> ws = words n l.
Proof.
  intros Hws Hl. split; [|intros ->; by apply concat_words]. intros <-. unfold words.
  assert (length ws = n) as <- by (rewrite length_concat_words in Hl by done; lia).
  apply list_eq. intros i. rewrite list_lookup_fmap. destruct (ws !! i) as [w|] eqn:Hi.
  - rewrite lookup_seq_lt by (by eapply lookup_lt_Some). cbn. f_equal. symmetry. by apply encoded_word.
  - apply lookup_ge_None in Hi. by rewrite lookup_seq_ge by done.
Qed.

(** ** Properties of the encodings *)

(** What ties an encoder of [n] words to its decoder: decoding inverts encoding,
    exactly the strings of the right length decode, and a string is the encoding
    of what it decodes to exactly when the padding in words [p] and [q] is zero. *)
Definition abi_format {A E} (n p q : nat) (encode : A -> bytes) (decode : bytes -> result E A) : Prop :=
  (forall a, length (encode a) = (32 * n)%nat /\ decode (encode a) = Ok a) /\
  (forall bs, is_ok (decode bs) = true <-> length bs = (32 * n)%nat) /\
  (forall bs a, decode bs = Ok a ->
     encode a = bs <-> slice (32 * p) 31 bs = zeros 31 /\ slice (32 * q) 31 bs = zeros 31).

Lemma ed_encode_words a :
  abi_encode a = concat [arr (oc_statement_digest a); arr (oc_dvrf_value a); arr (oc_envelope_digest a);
    arr (oc_group_verifying_key a); slice 0 32 (arr (oc_aggregate_signature a)); slice 32 32 (arr (oc_aggregate_signature a));
    zeros 31 ++ [oc_threshold a]; zeros 31 ++ [oc_verifier_count a]; arr (oc_statement_dvrf_binding a)].
Proof. cbn [concat]. by rewrite app_nil_r. Qed.

Lemma ed_words_length a :
  Forall (fun w => length w = 32%nat) [arr (oc_statement_digest a); arr (oc_dvrf_value a); arr (oc_envelope_digest a);
    arr (oc_group_verifying_key a); slice 0 32 (arr (oc_aggregate_signature a)); slice 32 32 (arr (oc_aggregate_signature a));
    zeros 31 ++ [oc_threshold a]; zeros 31 ++ [oc_verifier_count a]; arr (oc_statement_dvrf_binding a)].
Proof. repeat constructor; try apply length_arr; apply length_slice; rewrite length_arr; lia. Qed.

Lemma padded_last (w : bytes) b l k : slice k 32 l = zeros 31 ++ [b] -> (k + 32 <= length l)%nat -> byte_at (k + 31) l = b.
Proof.
  intros Hw Hl. assert (Hs : slice k 31 l ++ [byte_at (k + 31) l] = zeros 31 ++ [b]) by (rewrite byte_at_slice; [done|lia]).
  by apply app_inj_2 in Hs as [_ [= ->]].
Qed.

(** A word whose last byte is kept and whose padding is zero. *)
Lemma padded_word k l :
  (k + 32 <= length l)%nat -> slice k 31 l = zeros 31 <-> zeros 31 ++ [byte_at (k + 31) l] = slice k 32 l.
Proof.
  intros Hl. change 32%nat with (31 + 1)%nat at 1. rewrite <- byte_at_slice by lia. split; [by intros ->|].
  intros Heq. by apply app_inj_2 in Heq as [-> _].
Qed.

Lemma ed_abi_format : abi_format 9 6 7 abi_encode abi_decode.
Proof.
  split_and!.
  - intros a. rewrite ed_encode_words. pose proof (ed_words_length a) as Hw. set (ws := [_; _; _; _; _; _; _; _; _]) in *.
    pose proof (length_concat_words ws Hw) as Hlen. change (32 * length ws)%nat with 288%nat in Hlen. split; [done|].
    assert (Hslice : forall i w, ws !! i = Some w -> slice (32 * i) 32 (concat ws) = w) by (intros; by apply encoded_word).
    unfold abi_decode. rewrite Hlen. cbn [Nat.eqb negb]. destruct a as [a0 a1 a2 a3 a4 a5 a6 a7]. cbn in ws. do 2 f_equal.
    + apply word_arr, (Hslice 0%nat); done.
    + apply word_arr, (Hslice 1%nat); done.
    + apply word_arr, (Hslice 2%nat); done.
    + apply word_arr, (Hslice 3%nat); done.
    + rewrite (Hslice 4%nat _ eq_refl : slice 128 32 _ = _), (Hslice 5%nat _ eq_refl : slice 160 32 _ = _), slice_split, slice_all by apply length_arr. apply to_array_arr.
    + apply (padded_last [] _ _ 192); [by apply (Hslice 6%nat) | lia].
    + apply (padded_last [] _ _ 224); [by apply (Hslice 7%nat) | lia].
    + apply word_arr, (Hslice 8%nat); done.
  - intros bs. unfold abi_decode. destruct (Nat.eqb_spec (length bs) 288); naive_solver.
  - intros bs a. unfold abi_decode. destruct (Nat.eqb_spec (length bs) 288) as [Hl|]; [|done]. intros [= <-].
    rewrite (padded_word (32 * 6)), (padded_word (32 * 7)) by lia. rewrite ed_encode_words.
    cbn [oc_statement_digest oc_dvrf_value oc_envelope_digest oc_group_verifying_key oc_aggregate_signature oc_threshold
         oc_verifier_count oc_statement_dvrf_binding].
    rewrite !arr_word by lia. rewrite arr_to_array by (rewrite length_app, !length_slice; lia).
    rewrite slice_here by (apply length_slice; lia). rewrite (slice_skip 32 _ _ 0) by (apply length_slice; lia).
    rewrite (slice_all 32 (slice 160 32 bs)) by (apply length_slice; lia). etrans; [apply (concat_words_iff 9); [|done]|].
    + repeat constructor; try (apply length_slice; lia).
    + change (32 * 6 + 31)%nat with 223%nat. change (32 * 7 + 31)%nat with 255%nat. split; [|by intros [-> ->]]. intros Heq.
      exact (conj (f_equal (fun l => default [] (l !! 6%nat)) Heq) (f_equal (fun l => default [] (l !! 7%nat)) Heq)).
Qed.

Definition secp_words (a : OnChainAttestationSecp256k1) : list bytes :=
  [arr (os_statement_digest a); arr (os_dvrf_value a); arr (os_envelope_digest a); arr (os_group_key_x a);
   arr (os_group_key_y a); arr (os_sig_R_x a); arr (os_sig_s a); zeros 31 ++ [os_threshold a];
   zeros 31 ++ [os_verifier_count a]; arr (os_alpha_commitment a); arr (os_session_id a)].

Lemma secp_encode_words a : secp_abi_encode a = concat (secp_words a).
Proof. unfold secp_words. cbn [concat]. by rewrite app_nil_r. Qed.

Lemma secp_words_length a : Forall (fun w => length w = 32%nat) (secp_words a).
Proof. repeat constructor; apply length_arr. Qed.

Lemma secp_abi_format : abi_format 11 7 8 secp_abi_encode secp_abi_decode.
Proof.
  split_and!.
  - intros a. rewrite secp_encode_words. pose proof (secp_words_length a) as Hw.
    pose proof (length_concat_words _ Hw) as Hlen. change (32 * length (secp_words a))%nat with 352%nat in Hlen. split; [done|].
    assert (Hslice : forall i w, secp_words a !! i = Some w -> slice (32 * i) 32 (concat (secp_words a)) = w)
      by (intros; by apply encoded_word).
    unfold secp_abi_decode. rewrite Hlen. cbn [Nat.eqb negb]. destruct a as [a0 a1 a2 a3 a4 a5 a6 a7 a8 a9 a10]. do 2 f_equal.
    + by apply word_arr, (Hslice 0%nat).
    + by apply word_arr, (Hslice 1%nat).
    + by apply word_arr, (Hslice 2%nat).
    + by apply word_arr, (Hslice 3%nat).
    + by apply word_arr, (Hslice 4%nat).
    + by apply word_arr, (Hslice 5%nat).
    + by apply word_arr, (Hslice 6%nat).
    + apply (padded_last [] _ _ 224); [by apply (Hslice 7%nat) | lia].
    + apply (padded_last [] _ _ 256); [by apply (Hslice 8%nat) | lia].
    + by apply word_arr, (Hslice 9%nat).
    + by apply word_arr, (Hslice 10%nat).
  - intros bs. unfold secp_abi_decode. destruct (Nat.eqb_spec (length bs) 352); naive_solver.
  - intros bs a. unfold secp_abi_decode. destruct (Nat.eqb_spec (length bs) 352) as [Hl|]; [|done]. intros [= <-].
    rewrite (padded_word (32 * 7)), (padded_word (32 * 8)) by lia. rewrite secp_encode_words. unfold secp_words.
    cbn [os_statement_digest os_dvrf_value os_envelope_digest os_group_key_x os_group_key_y os_sig_R_x os_sig_s os_threshold
         os_verifier_count os_alpha_commitment os_session_id].
    rewrite !arr_word by lia. etrans; [apply (concat_words_iff 11); [|done]|].
    + repeat constructor; apply length_slice; lia.
    + change (32 * 7 + 31)%nat with 255%nat. change (32 * 8 + 31)%nat with 287%nat. split; [|by intros [-> ->]]. intros Heq.
      exact (conj (f_equal (fun l => default [] (l !! 7%nat)) Heq) (f_equal (fun l => default [] (l !! 8%nat)) Heq)).
Qed.

(** C32. Both ABI formats round-trip: an encoding has 9, respectively 11, words and
    decodes to the attestation it was made from; exactly the strings of that
    length decode, and a string is the encoding of what it decodes to exactly if
    the 31 bytes of padding before [threshold] and before [verifier_count] are
    zero. Other strings decode as well: the encoding is not unique. *)
Theorem abi_roundtrip : abi_format 9 6 7 abi_encode abi_decode /\ abi_format 11 7 8 secp_abi_encode secp_abi_decode.
Proof. split; [apply ed_abi_format | apply secp_abi_format]. Qed.

(** ** Properties of verification *)

Section VerifyProps.
Context {Hs : Sha256} {Fr : FrostEd25519} {Da : Dalek}.

Lemma onchain_verify_Ok a :
  onchain_verify a = Ok tt <->
  (exists k, dalek_from_bytes (oc_group_verifying_key a) = Ok k /\
     dalek_verify k (arr (oc_envelope_digest a)) (oc_aggregate_signature a) = Ok tt) /\
  1 <= uval (oc_threshold a) <= uval (oc_verifier_count a) /\
  oc_statement_dvrf_binding a = compute_statement_dvrf_binding (oc_statement_digest a) (oc_dvrf_value a).
Proof.
  unfold onchain_verify. pose proof (uval_range (oc_threshold a)).
  destruct (dalek_from_bytes (oc_group_verifying_key a)) as [k|e]; cbn [map_err mbind result_bind];
    [|by split; [|intros ((? & ? & _) & _)]].
  destruct (dalek_verify k _ _) as [[]|e] eqn:Hv; cbn [map_err mbind result_bind];
    [|split; [done|]; intros ((k' & [= <-] & ?) & _); congruence].
  destruct (Z.eqb_spec (uval (oc_threshold a)) 0); [split; [done|]; intros (_ & ? & _); lia|].
  destruct (Z.ltb_spec (uval (oc_verifier_count a)) (uval (oc_threshold a))); [split; [done|]; intros (_ & ? & _); lia|].
  case_bool_decide as Hb; cbn [negb]; [|split; [done|]; by intros (_ & _ & ?)]. split; [|done]. intros _.
  split_and!; [by exists k|lia|lia|done].
Qed.

(** C31. What the on-chain check of the Ed25519 format establishes: it accepts exactly
    a signature of the embedded key on the envelope digest, a threshold between
    one and the number of verifiers, and a binding hash that fits statement and
    randomness. An attestation extracted from an approval that verifies is
    accepted when the digest passed along is the one that was signed. Since the
    binding hash can be recomputed by anyone, an accepted attestation stays
    accepted with any other statement and any other randomness in place of its
    own. *)
Theorem onchain_verify_spec a :
  (onchain_verify a = Ok tt <->
   (exists k, dalek_from_bytes (oc_group_verifying_key a) = Ok k /\
      dalek_verify k (arr (oc_envelope_digest a)) (oc_aggregate_signature a) = Ok tt) /\
   1 <= uval (oc_threshold a) <= uval (oc_verifier_count a) /\
   oc_statement_dvrf_binding a = compute_statement_dvrf_binding (oc_statement_digest a) (oc_dvrf_value a)) /\
  (forall approval stmt rand t n, verify_signature approval = Ok tt -> 1 <= uval t <= uval n ->
     onchain_verify (extract_on_chain_attestation stmt rand (as_bytes (fta_signed_digest approval)) approval t n) = Ok tt) /\
  (forall stmt rand, onchain_verify a = Ok tt ->
     onchain_verify {| oc_statement_digest := stmt; oc_dvrf_value := rand; oc_envelope_digest := oc_envelope_digest a;
       oc_group_verifying_key := oc_group_verifying_key a; oc_aggregate_signature := oc_aggregate_signature a;
       oc_threshold := oc_threshold a; oc_verifier_count := oc_verifier_count a;
       oc_statement_dvrf_binding := compute_statement_dvrf_binding stmt rand |} = Ok tt).
Proof.
  split_and!; [apply onchain_verify_Ok| |].
  - intros ap stmt rand t n Hver Htn. apply onchain_verify_Ok. cbn. split_and!; [|lia|lia|done].
    unfold verify_signature in Hver. apply bind_Ok in Hver as (vk & Hvk%map_err_Ok & Hver).
    apply bind_Ok in Hver as (sig & Hsig%map_err_Ok & Hver%map_err_Ok). by eapply dalek_frost.
  - intros stmt rand (Hsig & Ht & _)%onchain_verify_Ok. by apply onchain_verify_Ok.
Qed.

(** The extraction as documented passes the envelope digest, but approvals sign the
    approval digest of it: under a signature scheme in which no signature is valid
    for two messages, an attestation extracted from a genuine approval is never
    accepted, unless hashing leaves the envelope digest unchanged. *)
Lemma documented_extraction_rejected approval (e : DigestBytes) stmt rand t n :
  (forall k m m' s, dalek_verify k m s = Ok tt -> dalek_verify k m' s = Ok tt -> m = m') ->
  verify_signature approval = Ok tt -> verify_binding approval e = Ok tt -> approval_signed_digest e <> e ->
  onchain_verify (extract_on_chain_attestation stmt rand (as_bytes e) approval t n) <> Ok tt.
Proof.
  intros Huniq Hver Hbind Hne ((k & Hk & Hv) & _)%onchain_verify_Ok. cbn in Hk, Hv. apply Hne.
  unfold verify_signature in Hver. apply bind_Ok in Hver as (vk & Hvk%map_err_Ok & Hver).
  apply bind_Ok in Hver as (sig & Hsig%map_err_Ok & Hver%map_err_Ok).
  destruct (dalek_frost _ _ _ _ _ Hvk Hsig Hver) as (k' & Hk' & Hv'). rewrite Hk in Hk'. injection Hk' as <-.
  unfold verify_binding in Hbind. case_bool_decide as Hd; [|done]. rewrite <- Hd.
  apply (as_bytes_arr_inj (T:=DigestBytes)). by apply (Huniq k _ _ (aggregate_signature_bytes approval)).
Qed.
End VerifyProps.

(** The Rust check of secp256k1 attestations converts the 65 bytes of an
    uncompressed point to the 33-byte representation of a compressed one: it
    rejects an attestation with invalid scalars and panics on every other, so
    that no attestation is accepted. *)
Lemma verify_schnorr_never_accepts {Kk : Keccak256} {K : K256} a :
  verify_schnorr a <> Ok tt /\
  (is_Some (scalar_from_repr (os_sig_s a)) ->
   is_Some (scalar_from_repr (keccak256 (arr (os_sig_R_x a) ++ arr (os_group_key_x a) ++ arr (os_envelope_digest a)))) ->
   exists m, verify_schnorr a = Err (Panics m)).
Proof.
  assert (Hpanic : generic_array_from_slice 33 (byte 4 :: arr (os_group_key_x a) ++ arr (os_group_key_y a)) =
    Err (Panics "assertion `left == right` failed")).
  { unfold generic_array_from_slice, try_into. cbn [length]. by rewrite length_app, !length_arr. }
  unfold verify_schnorr. destruct (scalar_from_repr (os_sig_s a)) as [s|]; cbn [ok_or mbind result_bind];
    [|split; [done|]; by intros []].
  destruct (scalar_from_repr (keccak256 _)) as [e|]; cbn [ok_or mbind result_bind]; [|split; [done|]; by intros _ []].
  rewrite Hpanic. split; [done|]. by eexists.
Qed.

(** ** Concrete instances *)

(** Ed25519 verification that is FROST verification of the decoded values. *)
Definition frost_dalek {Fr : FrostEd25519} : Dalek.
Proof.
  refine {| DalekKey := FrostVerifyingKey; dalek_from_bytes := vk_deserialize;
            dalek_verify k m sigb := sig ← sig_deserialize sigb; frost_verify k m sig |}.
  intros vkb sigb vk sig m Hvk Hsig Hver. exists vk. split; [done|]. by rewrite Hsig.
Defined.

(** An approval on digest 5, on chain with threshold 2 of 3. *)
Definition toy_frost_approval : FrostThresholdApproval :=
  {| fta_signed_digest := digest 5;
     aggregate_signature_bytes := to_array 64 (arr (array_repeat 32 (byte 3)) ++ arr (as_bytes (digest 5)));
     group_verifying_key_bytes := array_repeat 32 (byte 3) |}.
Definition toy_onchain : OnChainAttestation :=
  extract_on_chain_attestation (Hs:=toy_sha256) (Fr:=toy_frost) (array_repeat 32 (byte 1)) (array_repeat 32 (byte 2))
    (as_bytes (digest 5)) toy_frost_approval (byte 2) (byte 3).

Lemma onchain_verify_spec_witness : onchain_verify (Hs:=toy_sha256) (Fr:=toy_frost) (Da:=frost_dalek) toy_onchain = Ok tt.
Proof.
  apply (proj1 (proj2 (onchain_verify_spec (Hs:=toy_sha256) (Fr:=toy_frost) (Da:=frost_dalek) toy_onchain))
    toy_frost_approval); [|vm_compute; split; discriminate]. vm_compute. reflexivity.
Defined.
