(* ===== verification/DxDctls.v ===== *)
(** * The DECO and Distefano variants of dx-DCTLS

    Models [attestation/src/deco_dx_dctls.rs] (TLS 1.2: shares of a MAC key and a
    co-SNARK executor) and [attestation/src/distefano_dx_dctls.rs] (TLS 1.3:
    shares of traffic secrets and a commitment-based two-party computation):
    handshake, query and proof-generation phases of both, and their verification.

    The executors are traits of the source, here classes; the generator that
    splits the MAC key is the parameter [fill_bytes], the clock an argument. *)

From S2P Require Import Prelude Core Session Attestation Threshold Sha256Gadget HmacGadget.

(** ** DECO *)

Record DecoSps := MkDecoSps { k_mac_prover_share : array 32 }.
Record DecoSpp := MkDecoSpp { k_mac_verifier_share : array 32 }.

Record DecoHspProof := MkDecoHspProof {
  dh_session_id : SessionId;
  dh_rand : DigestBytes;
  dh_groth16_bytes : bytes;
  dh_k_mac_commitment_bytes : bytes;
  dh_rand_binding_bytes : bytes;
  dh_k_mac : array 32;
  dh_session_binding : DigestBytes
}.

Record DecoSpv := MkDecoSpv {
  spv_k_mac : array 32;
  spv_k_mac_commitment : DigestBytes;
  spv_pi_hsp : DecoHspProof
}.

Record DecoQueryRecord := MkDecoQueryRecord {
  dq_session_id : SessionId;
  dq_query_commitment : DigestBytes;
  dq_response_commitment : DigestBytes;
  dq_transcript_commitment : DigestBytes;
  dq_server_mac_tag : array 32
}.

Record DecoDxDctlsProof := MkDecoDxDctlsProof {
  dx_pi_hsp : DecoHspProof;
  dx_query_record : DecoQueryRecord;
  dx_statement : bytes;
  dx_proof_digest : DigestBytes;
  dx_cross_binding : DigestBytes
}.

Inductive DecoDctlsError :=
  | DecoRandMismatch
  | HspSessionBindingMismatch
  | DecoCrossBindingMismatch
  | DecoProofDigestMismatch
  | CoSnarkVerifyFailed
  | DecoSessionIdMismatch.

(** ** The co-SNARK executor *)

Record CoSnarkRawOutput := MkCoSnarkRawOutput {
  raw_groth16_bytes : bytes;
  raw_k_mac_commitment_bytes : bytes;
  raw_rand_binding_bytes : bytes;
  raw_k_mac : array 32
}.

(** [execute] is required, [execute_split] has it as its default. *)
Class CoSnarkExecutor := {
  cs_execute : array 32 -> array 32 -> array 32 -> result string CoSnarkRawOutput;
  cs_execute_split : array 32 -> array 32 -> array 32 -> result string CoSnarkRawOutput
}.
Definition default_execute_split (execute : array 32 -> array 32 -> array 32 -> result string CoSnarkRawOutput)
    : array 32 -> array 32 -> array 32 -> result string CoSnarkRawOutput := execute.

Section Deco.
Context {Hs : Sha256} {Hm : HmacSha256}.

Definition hsp_binding_hasher (sid : SessionId) (rand k_mac_commitment server_cert_hash : DigestBytes) : CanonicalHasher :=
  CanonicalHasher_new "tls-attestation/deco-dx-dctls/hsp-binding/v1" |>> update_fixed (as_bytes sid) |>> update_digest rand
    |>> update_digest k_mac_commitment |>> update_digest server_cert_hash.
Definition deco_session_binding (sid : SessionId) (rand k_mac_commitment server_cert_hash : DigestBytes) : DigestBytes :=
  finalize (hsp_binding_hasher sid rand k_mac_commitment server_cert_hash).

Definition commit_field_hasher (sid : SessionId) (k_mac : array 32) (field data : bytes) : CanonicalHasher :=
  CanonicalHasher_new "tls-attestation/deco-qp" |>> update_bytes field |>> update_fixed (as_bytes sid)
    |>> update_fixed k_mac |>> update_bytes data.
Definition commit_field (sid : SessionId) (k_mac : array 32) (field data : bytes) : DigestBytes :=
  finalize (commit_field_hasher sid k_mac field data).

Definition compute_mac (k_mac : array 32) (data : bytes) : array 32 := hmac_sha256 (arr k_mac) data.

Definition deco_transcript_hasher (qc rc : DigestBytes) : CanonicalHasher :=
  CanonicalHasher_new "tls-attestation/deco-qp/transcript/v1" |>> update_digest qc |>> update_digest rc.

Definition DecoQueryRecord_commit (sid : SessionId) (k_mac : array 32) (query response : bytes) : DecoQueryRecord :=
  let query_commitment := commit_field sid k_mac (string_bytes "query") query in
  let response_commitment := commit_field sid k_mac (string_bytes "response") response in
  {| dq_session_id := sid; dq_query_commitment := query_commitment; dq_response_commitment := response_commitment;
     dq_transcript_commitment := finalize (deco_transcript_hasher query_commitment response_commitment);
     dq_server_mac_tag := compute_mac k_mac response |}.

Definition verify_mac (self : DecoQueryRecord) (k_mac : array 32) (response : bytes) : bool :=
  bool_decide (compute_mac k_mac response = dq_server_mac_tag self).

Definition deco_proof_hasher (sid : SessionId) (tc : DigestBytes) (statement : bytes) : CanonicalHasher :=
  CanonicalHasher_new "tls-attestation/deco-pgp/proof/v1" |>> update_fixed (as_bytes sid) |>> update_digest tc
    |>> update_bytes statement.
Definition deco_cross_hasher (session_binding tc : DigestBytes) : CanonicalHasher :=
  CanonicalHasher_new "tls-attestation/deco-pgp/cross-binding/v1" |>> update_digest session_binding |>> update_digest tc.

Definition DecoDxDctlsProof_generate (pi_hsp : DecoHspProof) (query_record : DecoQueryRecord) (statement : bytes)
    : DecoDxDctlsProof :=
  {| dx_pi_hsp := pi_hsp; dx_query_record := query_record; dx_statement := statement;
     dx_proof_digest := finalize (deco_proof_hasher (dq_session_id query_record) (dq_transcript_commitment query_record) statement);
     dx_cross_binding := finalize (deco_cross_hasher (dh_session_binding pi_hsp) (dq_transcript_commitment query_record)) |}.

(** The commitment to the MAC key of the co-SNARK. *)
Definition k_mac_commitment_of (k_mac : array 32) : DigestBytes :=
  MkDigestBytes (sha256_digest (string_bytes "tls-attestation/co-snark/k-mac/v1" ++ [byte 0] ++ arr k_mac)).

Definition verify_deco_dx_dctls (proof : DecoDxDctlsProof) (expected_rand expected_server_cert_hash : DigestBytes)
    : result DecoDctlsError unit :=
  let hsp := dx_pi_hsp proof in
  let qr := dx_query_record proof in
  if negb (bool_decide (dh_rand hsp = expected_rand)) then Err DecoRandMismatch
  else if negb (bool_decide (dh_session_binding hsp = deco_session_binding (dh_session_id hsp) expected_rand
                               (k_mac_commitment_of (dh_k_mac hsp)) expected_server_cert_hash))
  then Err HspSessionBindingMismatch
  else if negb (bool_decide (dx_cross_binding proof =
                  finalize (deco_cross_hasher (dh_session_binding hsp) (dq_transcript_commitment qr))))
  then Err DecoCrossBindingMismatch
  else if negb (bool_decide (dh_session_id hsp = dq_session_id qr)) then Err DecoSessionIdMismatch
  else if negb (bool_decide (dx_proof_digest proof =
                  finalize (deco_proof_hasher (dq_session_id qr) (dq_transcript_commitment qr) (dx_statement proof))))
  then Err DecoProofDigestMismatch
  else Ok tt.

(** [StdRng::from_seed(seed).fill_bytes] of 32 bytes. *)
Variable fill_bytes : array 32 -> array 32.

Definition split_k_mac (k_mac seed : array 32) : array 32 * array 32 :=
  let p := fill_bytes seed in (p, arr_xor k_mac p).

Record DecoAttestationSession := MkDecoAttestationSession {
  ds_session_id : SessionId;
  ds_sps : DecoSps;
  ds_spp : DecoSpp;
  ds_spv : DecoSpv
}.

Definition k_mac_seed (rand : DigestBytes) (sid : SessionId) : DigestBytes :=
  finalize (CanonicalHasher_new "tls-attestation/deco-hsp/k-mac-seed/v1" |>> update_digest rand |>> update_fixed (as_bytes sid)).
Definition split_seed (rand : DigestBytes) (sid : SessionId) : DigestBytes :=
  finalize (CanonicalHasher_new "tls-attestation/deco-hsp/split-seed/v1" |>> update_digest rand |>> update_fixed (as_bytes sid)).

Definition deco_hsp {Ex : CoSnarkExecutor} (sid : SessionId) (rand server_cert_hash : DigestBytes)
    : result AttestationError DecoAttestationSession :=
  let k_mac_bytes := as_bytes (k_mac_seed rand sid) in
  let '(p_share, v_share) := split_k_mac k_mac_bytes (as_bytes (split_seed rand sid)) in
  hsp_raw ← map_err AttestationCrypto (cs_execute p_share v_share (as_bytes rand));
  let k_mac_commitment := k_mac_commitment_of (raw_k_mac hsp_raw) in
  let pi_hsp := {| dh_session_id := sid; dh_rand := rand; dh_groth16_bytes := raw_groth16_bytes hsp_raw;
    dh_k_mac_commitment_bytes := raw_k_mac_commitment_bytes hsp_raw; dh_rand_binding_bytes := raw_rand_binding_bytes hsp_raw;
    dh_k_mac := raw_k_mac hsp_raw;
    dh_session_binding := deco_session_binding sid rand k_mac_commitment server_cert_hash |} in
  Ok {| ds_session_id := sid; ds_sps := MkDecoSps p_share; ds_spp := MkDecoSpp v_share;
        ds_spv := MkDecoSpv (raw_k_mac hsp_raw) k_mac_commitment pi_hsp |}.

Definition deco_qp (self : DecoAttestationSession) (query response : bytes) : DecoQueryRecord :=
  DecoQueryRecord_commit (ds_session_id self) (spv_k_mac (ds_spv self)) query response.
Definition deco_pgp (self : DecoAttestationSession) (query_record : DecoQueryRecord) (statement : bytes) : DecoDxDctlsProof :=
  DecoDxDctlsProof_generate (spv_pi_hsp (ds_spv self)) query_record statement.
End Deco.

(** ** Distefano *)

Record Tls13SecretParams := MkTls13SecretParams {
  transcript_hash : array 32;
  dhe_secret : array 32;
  sp_server_name : string
}.
Record ProverTrafficShare := MkProverTrafficShare { p_client_key_share : array 32; p_server_key_share : array 32 }.
Record VerifierTrafficShare := MkVerifierTrafficShare { v_client_key_share : array 32; v_server_key_share : array 32 }.

Record V2pcProof := MkV2pcProof {
  v2_session_id : SessionId;
  v2_sv : DigestBytes;
  prover_share_commitment : DigestBytes;
  verifier_share_commitment : DigestBytes;
  joint_commitment : DigestBytes;
  v2_session_binding : DigestBytes
}.

Record DistefanoHspProof := MkDistefanoHspProof {
  fh_session_id : SessionId;
  fh_sv : DigestBytes;
  pi_2pc : V2pcProof;
  fh_server_cert_hash : DigestBytes;
  fh_tls_version : u16;
  fh_server_name : string;
  fh_established_at : u64
}.

Record DistefanoQueryRecord := MkDistefanoQueryRecord {
  fq_session_id : SessionId;
  fq_query_commitment : DigestBytes;
  fq_response_commitment : DigestBytes;
  fq_transcript_commitment : DigestBytes;
  fq_server_auth_tag : array 16
}.

Record DistefanoDxDctlsProof := MkDistefanoDxDctlsProof {
  fx_pi_hsp : DistefanoHspProof;
  fx_query_record : DistefanoQueryRecord;
  fx_statement : bytes;
  fx_proof_digest : DigestBytes;
  fx_cross_binding : DigestBytes
}.

Inductive DistefanoError :=
  | SvMismatch
  | JointCommitmentMismatch
  | SessionBindingMismatch
  | CrossBindingMismatch
  | ProofDigestMismatch
  | SessionIdMismatch.

(** The trait [V2pcExecutor]. *)
Class V2pcExecutor := {
  v2pc_execute : SessionId -> DigestBytes -> Tls13SecretParams ->
    result AttestationError (ProverTrafficShare * VerifierTrafficShare * V2pcProof);
  v2pc_verify : V2pcProof -> DigestBytes -> result AttestationError unit
}.

Section Distefano.
Context {Hs : Sha256}.

Definition compute_prover_commitment (sid : SessionId) (sv : DigestBytes) (spp : ProverTrafficShare) : DigestBytes :=
  finalize (CanonicalHasher_new "tls-attestation/v2pc/prover-commit/v1" |>> update_fixed (as_bytes sid) |>> update_digest sv
    |>> update_fixed (p_client_key_share spp) |>> update_fixed (p_server_key_share spp)).
Definition compute_verifier_commitment (sid : SessionId) (sv : DigestBytes) (spv : VerifierTrafficShare) : DigestBytes :=
  finalize (CanonicalHasher_new "tls-attestation/v2pc/verifier-commit/v1" |>> update_fixed (as_bytes sid) |>> update_digest sv
    |>> update_fixed (v_client_key_share spv) |>> update_fixed (v_server_key_share spv)).
Definition joint_hasher (prover_commit verifier_commit : DigestBytes) : CanonicalHasher :=
  CanonicalHasher_new "tls-attestation/v2pc/joint-commit/v1" |>> update_digest prover_commit |>> update_digest verifier_commit.
Definition compute_joint_commitment (prover_commit verifier_commit : DigestBytes) : DigestBytes :=
  finalize (joint_hasher prover_commit verifier_commit).
Definition v2pc_binding_hasher (sid : SessionId) (sv joint cert : DigestBytes) : CanonicalHasher :=
  CanonicalHasher_new "tls-attestation/v2pc/session-binding/v1" |>> update_fixed (as_bytes sid) |>> update_digest sv
    |>> update_digest joint |>> update_digest cert.
Definition compute_session_binding (sid : SessionId) (sv joint cert : DigestBytes) : DigestBytes :=
  finalize (v2pc_binding_hasher sid sv joint cert).

Definition distefano_transcript_hasher (qc rc : DigestBytes) : CanonicalHasher :=
  CanonicalHasher_new "tls-attestation/distefano-qp/transcript/v1" |>> update_digest qc |>> update_digest rc.
Definition DistefanoQueryRecord_commit (sid : SessionId) (query response : bytes) (server_auth_tag : array 16)
    : DistefanoQueryRecord :=
  let query_commitment := finalize (CanonicalHasher_new "tls-attestation/distefano-qp/query/v1"
    |>> update_fixed (as_bytes sid) |>> update_bytes query) in
  let response_commitment := finalize (CanonicalHasher_new "tls-attestation/distefano-qp/response/v1"
    |>> update_fixed (as_bytes sid) |>> update_bytes response) in
  {| fq_session_id := sid; fq_query_commitment := query_commitment; fq_response_commitment := response_commitment;
     fq_transcript_commitment := finalize (distefano_transcript_hasher query_commitment response_commitment);
     fq_server_auth_tag := server_auth_tag |}.

Definition distefano_proof_hasher (sid : SessionId) (tc : DigestBytes) (statement : bytes) : CanonicalHasher :=
  CanonicalHasher_new "tls-attestation/distefano-pgp/proof/v1" |>> update_fixed (as_bytes sid) |>> update_digest tc
    |>> update_bytes statement.
Definition distefano_cross_hasher (session_binding tc : DigestBytes) : CanonicalHasher :=
  CanonicalHasher_new "tls-attestation/distefano-pgp/cross-binding/v1" |>> update_digest session_binding |>> update_digest tc.

Definition DistefanoDxDctlsProof_generate (pi_hsp : DistefanoHspProof) (query_record : DistefanoQueryRecord) (statement : bytes)
    : DistefanoDxDctlsProof :=
  {| fx_pi_hsp := pi_hsp; fx_query_record := query_record; fx_statement := statement;
     fx_proof_digest := finalize (distefano_proof_hasher (fq_session_id query_record) (fq_transcript_commitment query_record)
                                    statement);
     fx_cross_binding := finalize (distefano_cross_hasher (v2_session_binding (pi_2pc pi_hsp))
                                     (fq_transcript_commitment query_record)) |}.

(** *** The commitment-based executor *)

Definition derive_traffic_material (sv : DigestBytes) (sp : Tls13SecretParams) : array 32 * array 32 :=
  let derive label := sha256_digest (string_bytes "tls-attestation/tls13-key-derive/v1" ++ [byte 0] ++ arr (as_bytes sv) ++
    arr (transcript_hash sp) ++ arr (dhe_secret sp) ++ string_bytes label) in
  (derive "c-traffic", derive "s-traffic").

(** [seed[(i + k) % 32]] for every [i]. *)
Definition rotate (k : nat) (seed : array 32) : array 32 :=
  to_array 32 ((fun i => default (byte 0) (arr seed !! ((i + k) mod 32)%nat)) <$> seq 0 32).

Definition split_shares (material : array 32 * array 32) (sid : SessionId) (sv : DigestBytes)
    : ProverTrafficShare * VerifierTrafficShare :=
  let prover_seed := sha256_digest (string_bytes "tls-attestation/v2pc/prover-seed/v1" ++ [byte 0] ++ arr (as_bytes sid) ++
    arr (as_bytes sv)) in
  let p_server := rotate 7 prover_seed in
  (MkProverTrafficShare prover_seed p_server,
   MkVerifierTrafficShare (arr_xor material.1 prover_seed) (arr_xor material.2 p_server)).

Definition commitment_execute (sid : SessionId) (sv : DigestBytes) (sp : Tls13SecretParams)
    : result AttestationError (ProverTrafficShare * VerifierTrafficShare * V2pcProof) :=
  let joint_material := derive_traffic_material sv sp in
  let '(spp, spv) := split_shares joint_material sid sv in
  let pc := compute_prover_commitment sid sv spp in
  let vc := compute_verifier_commitment sid sv spv in
  let jc := compute_joint_commitment pc vc in
  let sb := compute_session_binding sid sv jc DigestBytes_ZERO in
  Ok (spp, spv, {| v2_session_id := sid; v2_sv := sv; prover_share_commitment := pc; verifier_share_commitment := vc;
                   joint_commitment := jc; v2_session_binding := sb |}).

Definition commitment_verify (p : V2pcProof) (sv : DigestBytes) : result AttestationError unit :=
  if negb (bool_decide (v2_sv p = sv)) then Err (AttestationCrypto "v2PC: sv mismatch")
  else if negb (bool_decide (joint_commitment p = compute_joint_commitment (prover_share_commitment p)
                               (verifier_share_commitment p)))
  then Err (AttestationCrypto "v2PC: joint commitment mismatch")
  else Ok tt.

Definition CommitmentV2pcExecutor : V2pcExecutor := {| v2pc_execute := commitment_execute; v2pc_verify := commitment_verify |}.

(** *** Sessions *)

Record DistefanoAttestationSession := MkDistefanoAttestationSession {
  fs_session_id : SessionId;
  fs_spp : ProverTrafficShare;
  fs_spv : VerifierTrafficShare;
  fs_pi_hsp : DistefanoHspProof
}.

Definition distefano_hsp {V2 : V2pcExecutor} (now_secs : u64) (sid : SessionId) (sv : DigestBytes) (sp : Tls13SecretParams)
    (server_cert_hash : DigestBytes) (tls_version : u16) : result AttestationError DistefanoAttestationSession :=
  r ← v2pc_execute sid sv sp;
  let '(spp, spv, p) := r in
  let p := {| v2_session_id := v2_session_id p; v2_sv := v2_sv p; prover_share_commitment := prover_share_commitment p;
    verifier_share_commitment := verifier_share_commitment p; joint_commitment := joint_commitment p;
    v2_session_binding := compute_session_binding sid sv (joint_commitment p) server_cert_hash |} in
  let pi_hsp := {| fh_session_id := sid; fh_sv := sv; pi_2pc := p; fh_server_cert_hash := server_cert_hash;
    fh_tls_version := tls_version; fh_server_name := sp_server_name sp; fh_established_at := now_secs |} in
  Ok (MkDistefanoAttestationSession sid spp spv pi_hsp).

Definition distefano_qp (self : DistefanoAttestationSession) (query response : bytes) (server_auth_tag : array 16)
    : DistefanoQueryRecord := DistefanoQueryRecord_commit (fs_session_id self) query response server_auth_tag.
Definition distefano_pgp (self : DistefanoAttestationSession) (query_record : DistefanoQueryRecord) (statement : bytes)
    : DistefanoDxDctlsProof := DistefanoDxDctlsProof_generate (fs_pi_hsp self) query_record statement.

Definition verify_distefano_dx_dctls (proof : DistefanoDxDctlsProof) (expected_sv expected_server_cert_hash : DigestBytes)
    : result DistefanoError unit :=
  let p := pi_2pc (fx_pi_hsp proof) in
  let qr := fx_query_record proof in
  if negb (bool_decide (v2_sv p = expected_sv)) then Err SvMismatch
  else if negb (bool_decide (joint_commitment p = compute_joint_commitment (prover_share_commitment p)
                               (verifier_share_commitment p)))
  then Err JointCommitmentMismatch
  else if negb (bool_decide (v2_session_binding p = compute_session_binding (v2_session_id p) expected_sv (joint_commitment p)
                               expected_server_cert_hash))
  then Err SessionBindingMismatch
  else if negb (bool_decide (fx_cross_binding proof =
                  finalize (distefano_cross_hasher (v2_session_binding p) (fq_transcript_commitment qr))))
  then Err CrossBindingMismatch
  else if negb (bool_decide (fh_session_id (fx_pi_hsp proof) = fq_session_id qr)) then Err SessionIdMismatch
  else if negb (bool_decide (fx_proof_digest proof =
                  finalize (distefano_proof_hasher (fq_session_id qr) (fq_transcript_commitment qr) (fx_statement proof))))
  then Err ProofDigestMismatch
  else Ok tt.
End Distefano.

(** ** Properties *)

Section DxProps.
Context {Hs : Sha256} {Hm : HmacSha256}.

Lemma arr_xor_cancel_m {n} (a b : array n) : arr_xor b (arr_xor a b) = a.
Proof. rewrite (comm arr_xor a b). apply arr_xor_cancel_l. Qed.

(** Acceptance, as a conjunction. *)
Lemma verify_deco_Ok p rand cert :
  verify_deco_dx_dctls p rand cert = Ok tt <->
  dh_rand (dx_pi_hsp p) = rand /\
  dh_session_binding (dx_pi_hsp p) =
    deco_session_binding (dh_session_id (dx_pi_hsp p)) rand (k_mac_commitment_of (dh_k_mac (dx_pi_hsp p))) cert /\
  dx_cross_binding p =
    finalize (deco_cross_hasher (dh_session_binding (dx_pi_hsp p)) (dq_transcript_commitment (dx_query_record p))) /\
  dh_session_id (dx_pi_hsp p) = dq_session_id (dx_query_record p) /\
  dx_proof_digest p = finalize (deco_proof_hasher (dq_session_id (dx_query_record p))
    (dq_transcript_commitment (dx_query_record p)) (dx_statement p)).
Proof. unfold verify_deco_dx_dctls. repeat case_bool_decide; cbn [negb]; naive_solver. Qed.

Lemma verify_distefano_Ok p sv cert :
  verify_distefano_dx_dctls p sv cert = Ok tt <->
  v2_sv (pi_2pc (fx_pi_hsp p)) = sv /\
  joint_commitment (pi_2pc (fx_pi_hsp p)) = compute_joint_commitment (prover_share_commitment (pi_2pc (fx_pi_hsp p)))
    (verifier_share_commitment (pi_2pc (fx_pi_hsp p))) /\
  v2_session_binding (pi_2pc (fx_pi_hsp p)) =
    compute_session_binding (v2_session_id (pi_2pc (fx_pi_hsp p))) sv (joint_commitment (pi_2pc (fx_pi_hsp p))) cert /\
  fx_cross_binding p =
    finalize (distefano_cross_hasher (v2_session_binding (pi_2pc (fx_pi_hsp p))) (fq_transcript_commitment (fx_query_record p))) /\
  fh_session_id (fx_pi_hsp p) = fq_session_id (fx_query_record p) /\
  fx_proof_digest p = finalize (distefano_proof_hasher (fq_session_id (fx_query_record p))
    (fq_transcript_commitment (fx_query_record p)) (fx_statement p)).
Proof. unfold verify_distefano_dx_dctls. repeat case_bool_decide; cbn [negb]; naive_solver. Qed.

(** A DECO session verifies: with any executor that returns, the proof made
    from the session for any query, response and statement is accepted for the
    randomness and certificate of the session, the server's MAC tag in the query
    record is valid under the session key, and the two key shares recombine to
    the key that was split. *)
Theorem deco_session_verifies fill_bytes {Ex : CoSnarkExecutor} sid rand cert s :
  deco_hsp fill_bytes sid rand cert = Ok s ->
  arr_xor (k_mac_prover_share (ds_sps s)) (k_mac_verifier_share (ds_spp s)) = as_bytes (k_mac_seed rand sid) /\
  (exists raw, cs_execute (k_mac_prover_share (ds_sps s)) (k_mac_verifier_share (ds_spp s)) (as_bytes rand) = Ok raw /\
     spv_k_mac (ds_spv s) = raw_k_mac raw) /\
  forall query response statement,
    verify_deco_dx_dctls (deco_pgp s (deco_qp s query response) statement) rand cert = Ok tt /\
    verify_mac (deco_qp s query response) (spv_k_mac (ds_spv s)) response = true.
Proof.
  unfold deco_hsp. cbn [split_k_mac]. intros (raw & Hraw%map_err_Ok & [= <-])%bind_Ok. split_and!.
  - apply arr_xor_cancel_m.
  - by exists raw.
  - intros q r st. split; [by apply verify_deco_Ok|]. unfold verify_mac, deco_qp. cbn. by rewrite bool_decide_eq_true_2.
Qed.

Definition deco_preimages (p : DecoDxDctlsProof) (rand cert : DigestBytes) : list bytes :=
  [inner (deco_cross_hasher (dh_session_binding (dx_pi_hsp p)) (dq_transcript_commitment (dx_query_record p)));
   inner (hsp_binding_hasher (dh_session_id (dx_pi_hsp p)) rand (k_mac_commitment_of (dh_k_mac (dx_pi_hsp p))) cert);
   inner (deco_proof_hasher (dq_session_id (dx_query_record p)) (dq_transcript_commitment (dx_query_record p)) (dx_statement p));
   string_bytes "tls-attestation/co-snark/k-mac/v1" ++ [byte 0] ++ arr (dh_k_mac (dx_pi_hsp p))].

(** C33. The two digests of an accepted DECO proof fix the session: two accepted
    proofs with the same cross binding and proof digest agree on session,
    randomness, certificate, MAC key, transcript commitment and statement, or
    one of the four hashes on the way collides. *)
Theorem deco_proof_binding p1 p2 rand1 rand2 cert1 cert2 :
  vec_fits (dx_statement p1) -> vec_fits (dx_statement p2) ->
  verify_deco_dx_dctls p1 rand1 cert1 = Ok tt -> verify_deco_dx_dctls p2 rand2 cert2 = Ok tt ->
  dx_cross_binding p1 = dx_cross_binding p2 -> dx_proof_digest p1 = dx_proof_digest p2 ->
  (dh_session_id (dx_pi_hsp p1) = dh_session_id (dx_pi_hsp p2) /\ rand1 = rand2 /\ cert1 = cert2 /\
   dh_k_mac (dx_pi_hsp p1) = dh_k_mac (dx_pi_hsp p2) /\
   dq_transcript_commitment (dx_query_record p1) = dq_transcript_commitment (dx_query_record p2) /\
   dx_statement p1 = dx_statement p2) \/
  collides (zip (deco_preimages p1 rand1 cert1) (deco_preimages p2 rand2 cert2)).
Proof.
  intros Hf1 Hf2 (Hr1 & Hs1 & Hc1 & Hi1 & Hd1)%verify_deco_Ok (Hr2 & Hs2 & Hc2 & Hi2 & Hd2)%verify_deco_Ok Hcross Hdig.
  rewrite Hc1, Hc2 in Hcross. open_digest Hcross 0%nat. rewrite Hd1, Hd2 in Hdig. open_digest Hdig 2%nat.
  unfold deco_cross_hasher in Hcross. unfold_hasher Hcross. apply (inj (domain_prefix _ ++.)) in Hcross. split_enc Hcross.
  simplify_enc. rewrite Hs1, Hs2 in Henc. unfold deco_session_binding in Henc. open_digest Henc 1%nat.
  unfold hsp_binding_hasher in Henc. unfold_hasher Henc. apply (inj (domain_prefix _ ++.)) in Henc. split_enc Henc.
  unfold deco_proof_hasher in Hdig. unfold_hasher Hdig. apply (inj (domain_prefix _ ++.)) in Hdig. split_enc Hdig.
  simplify_enc.
unfold k_mac_commitment_of in Henc2. apply sha256_eq_or_collision in Henc2 as [Hk|Hc].
  - left. apply (inj (_ ++.)), (inj (_ ++.)) in Hk. simplify_enc. by split_and!.
  - right. do 3 apply Exists_cons_tl. by apply Exists_cons_hd.
Qed.

(** What acceptance of a DECO proof does not depend on: the Groth16 proof, the
    public inputs sent with it, the commitments to query and response and the
    server's MAC tag. *)
Lemma deco_unchecked_fields p rand cert proof kc rb qc rc tag :
  verify_deco_dx_dctls p rand cert = Ok tt ->
  let h := dx_pi_hsp p in let q := dx_query_record p in
  verify_deco_dx_dctls
    (MkDecoDxDctlsProof
       (MkDecoHspProof (dh_session_id h) (dh_rand h) proof kc rb (dh_k_mac h) (dh_session_binding h))
       (MkDecoQueryRecord (dq_session_id q) qc rc (dq_transcript_commitment q) tag)
       (dx_statement p) (dx_proof_digest p) (dx_cross_binding p)) rand cert = Ok tt.
Proof. intros Hp%verify_deco_Ok. by apply verify_deco_Ok. Qed.

(** *** Distefano *)

Lemma split_shares_recombine material sid sv :
  let '(p, v) := split_shares material sid sv in
  arr_xor (p_client_key_share p) (v_client_key_share v) = material.1 /\
  arr_xor (p_server_key_share p) (v_server_key_share v) = material.2.
Proof. split; apply arr_xor_cancel_m. Qed.

(** A Distefano session verifies: with the commitment-based executor the
    handshake always succeeds, its two-party proof passes the executor's check,
    the shares recombine to the traffic secrets derived from randomness and
    handshake, and the proof for any query, response, tag and statement is
    accepted for the session's randomness and certificate. *)
Theorem distefano_session_verifies now sid sv sp cert version :
  exists s, distefano_hsp (V2:=CommitmentV2pcExecutor) now sid sv sp cert version = Ok s /\
    v2pc_verify (V2pcExecutor:=CommitmentV2pcExecutor) (pi_2pc (fs_pi_hsp s)) sv = Ok tt /\
    (arr_xor (p_client_key_share (fs_spp s)) (v_client_key_share (fs_spv s)),
     arr_xor (p_server_key_share (fs_spp s)) (v_server_key_share (fs_spv s))) = derive_traffic_material sv sp /\
    forall query response tag statement,
      verify_distefano_dx_dctls (distefano_pgp s (distefano_qp s query response tag) statement) sv cert = Ok tt.
Proof.
  eexists. split; [reflexivity|]. split_and!.
  - cbn [v2pc_verify CommitmentV2pcExecutor]. unfold commitment_verify. cbn. by rewrite !bool_decide_eq_true_2.
  - cbn [fs_spp fs_spv]. pose proof (split_shares_recombine (derive_traffic_material sv sp) sid sv) as Hsp.
    unfold split_shares in Hsp. destruct Hsp as [Hc Hv]. etrans; [apply (f_equal2 pair Hc Hv)|]. symmetry. apply surjective_pairing.
  - intros q r tag st. by apply verify_distefano_Ok.
Qed.

Definition distefano_preimages (p : DistefanoDxDctlsProof) (sv cert : DigestBytes) : list bytes :=
  let v := pi_2pc (fx_pi_hsp p) in
  [inner (distefano_cross_hasher (v2_session_binding v) (fq_transcript_commitment (fx_query_record p)));
   inner (v2pc_binding_hasher (v2_session_id v) sv (joint_commitment v) cert);
   inner (distefano_proof_hasher (fq_session_id (fx_query_record p)) (fq_transcript_commitment (fx_query_record p))
            (fx_statement p));
   inner (joint_hasher (prover_share_commitment v) (verifier_share_commitment v))].

(** The two digests of an accepted Distefano proof fix what was proved: two
    accepted proofs with the same cross binding and proof digest agree on the
    session and randomness of the two-party computation, on both share
    commitments, the certificate, the session of the query, the transcript
    commitment and the statement, or one of the four hashes on the way collides. *)
Theorem distefano_proof_binding p1 p2 sv1 sv2 cert1 cert2 :
  vec_fits (fx_statement p1) -> vec_fits (fx_statement p2) ->
  verify_distefano_dx_dctls p1 sv1 cert1 = Ok tt -> verify_distefano_dx_dctls p2 sv2 cert2 = Ok tt ->
  fx_cross_binding p1 = fx_cross_binding p2 -> fx_proof_digest p1 = fx_proof_digest p2 ->
  (v2_session_id (pi_2pc (fx_pi_hsp p1)) = v2_session_id (pi_2pc (fx_pi_hsp p2)) /\ sv1 = sv2 /\ cert1 = cert2 /\
   prover_share_commitment (pi_2pc (fx_pi_hsp p1)) = prover_share_commitment (pi_2pc (fx_pi_hsp p2)) /\
   verifier_share_commitment (pi_2pc (fx_pi_hsp p1)) = verifier_share_commitment (pi_2pc (fx_pi_hsp p2)) /\
   fh_session_id (fx_pi_hsp p1) = fh_session_id (fx_pi_hsp p2) /\
   fq_transcript_commitment (fx_query_record p1) = fq_transcript_commitment (fx_query_record p2) /\
   fx_statement p1 = fx_statement p2) \/
  collides (zip (distefano_preimages p1 sv1 cert1) (distefano_preimages p2 sv2 cert2)).
Proof.
  intros Hf1 Hf2 (Hr1 & Hj1 & Hs1 & Hc1 & Hi1 & Hd1)%verify_distefano_Ok (Hr2 & Hj2 & Hs2 & Hc2 & Hi2 & Hd2)%verify_distefano_Ok
    Hcross Hdig.
  rewrite Hc1, Hc2 in Hcross. open_digest Hcross 0%nat. rewrite Hd1, Hd2 in Hdig. open_digest Hdig 2%nat.
  unfold distefano_cross_hasher in Hcross. unfold_hasher Hcross. apply (inj (domain_prefix _ ++.)) in Hcross. split_enc Hcross.
  simplify_enc. rewrite Hs1, Hs2 in Henc. unfold compute_session_binding in Henc. open_digest Henc 1%nat.
  unfold v2pc_binding_hasher in Henc. unfold_hasher Henc. apply (inj (domain_prefix _ ++.)) in Henc. split_enc Henc.
  unfold distefano_proof_hasher in Hdig. unfold_hasher Hdig. apply (inj (domain_prefix _ ++.)) in Hdig. split_enc Hdig.
  simplify_enc. rewrite Hj1, Hj2 in Henc2. unfold compute_joint_commitment in Henc2. open_digest Henc2 3%nat.
  unfold joint_hasher in Henc2. unfold_hasher Henc2. apply (inj (domain_prefix _ ++.)) in Henc2. split_enc Henc2. simplify_enc.
  left. split_and!; congruence.
Qed.

(** The session of the two-party proof is compared with nothing: an accepted proof
    gives an accepted proof for every other session, with any query record of
    that session and any statement, around the same two-party proof. *)
Lemma distefano_session_transplant p sv cert sid qr statement :
  verify_distefano_dx_dctls p sv cert = Ok tt -> fq_session_id qr = sid ->
  let h := fx_pi_hsp p in
  verify_distefano_dx_dctls
    (DistefanoDxDctlsProof_generate
       (MkDistefanoHspProof sid (fh_sv h) (pi_2pc h) (fh_server_cert_hash h) (fh_tls_version h) (fh_server_name h)
          (fh_established_at h)) qr statement) sv cert = Ok tt.
Proof. intros (? & ? & ? & _)%verify_distefano_Ok Hq h. by apply verify_distefano_Ok. Qed.
End DxProps.

(** ** Concrete instances *)

(** An executor that recombines the key. *)
Definition toy_executor : CoSnarkExecutor := {|
  cs_execute p v rand := Ok (MkCoSnarkRawOutput [] [] (arr rand) (arr_xor p v));
  cs_execute_split := default_execute_split (fun p v rand => Ok (MkCoSnarkRawOutput [] [] (arr rand) (arr_xor p v)))
|}.
Definition toy_hmac : HmacSha256 := fun k m => to_array 32 (k ++ m).

Definition toy_deco_session : DecoAttestationSession :=
  unwrap_or (MkDecoAttestationSession (sid 0) (MkDecoSps (array_repeat 32 (byte 0))) (MkDecoSpp (array_repeat 32 (byte 0)))
    (MkDecoSpv (array_repeat 32 (byte 0)) (digest 0) (MkDecoHspProof (sid 0) (digest 0) [] [] [] (array_repeat 32 (byte 0)) (digest 0))))
    (deco_hsp (Hs:=toy_sha256) id (Ex:=toy_executor) (sid 1) (digest 2) (digest 3)).
Definition toy_deco_proof : DecoDxDctlsProof :=
  deco_pgp (Hs:=toy_sha256) toy_deco_session
    (deco_qp (Hs:=toy_sha256) (Hm:=toy_hmac) toy_deco_session (string_bytes "GET") (string_bytes "200")) (string_bytes "ok").

Lemma deco_session_verifies_witness :
  verify_deco_dx_dctls (Hs:=toy_sha256) toy_deco_proof (digest 2) (digest 3) = Ok tt.
Proof.
  apply (deco_session_verifies (Hs:=toy_sha256) (Hm:=toy_hmac) id (Ex:=toy_executor) (sid 1) (digest 2) (digest 3) toy_deco_session).
  apply is_ok_unwrap. reflexivity.
Defined.

Lemma deco_proof_binding_witness :
  (dh_session_id (dx_pi_hsp toy_deco_proof) = dh_session_id (dx_pi_hsp toy_deco_proof) /\ digest 2 = digest 2) \/
  collides (Hs:=toy_sha256) (zip (deco_preimages (Hs:=toy_sha256) toy_deco_proof (digest 2) (digest 3))
    (deco_preimages (Hs:=toy_sha256) toy_deco_proof (digest 2) (digest 3))).
Proof.
  destruct (deco_proof_binding (Hs:=toy_sha256) toy_deco_proof toy_deco_proof (digest 2) (digest 2) (digest 3) (digest 3))
    as [(Hs1 & Hr & _)|Hc].
  - vm_compute. reflexivity.
  - vm_compute. reflexivity.
  - vm_compute. reflexivity.
  - vm_compute. reflexivity.
  - reflexivity.
  - reflexivity.
  - left. exact (conj Hs1 Hr).
  - right. exact Hc.
Defined.

Definition toy_distefano_session : DistefanoAttestationSession :=
  unwrap_or (MkDistefanoAttestationSession (sid 0) (MkProverTrafficShare (array_repeat 32 (byte 0)) (array_repeat 32 (byte 0)))
    (MkVerifierTrafficShare (array_repeat 32 (byte 0)) (array_repeat 32 (byte 0)))
    (MkDistefanoHspProof (sid 0) (digest 0) (MkV2pcProof (sid 0) (digest 0) (digest 0) (digest 0) (digest 0) (digest 0))
       (digest 0) (u_of_Z 16 772) "" (n64 0)))
    (distefano_hsp (Hs:=toy_sha256) (V2:=CommitmentV2pcExecutor (Hs:=toy_sha256)) (n64 5) (sid 1) (digest 2)
       (MkTls13SecretParams (array_repeat 32 (byte 4)) (array_repeat 32 (byte 5)) "example.org") (digest 3) (u_of_Z 16 772)).
Definition toy_distefano_proof : DistefanoDxDctlsProof :=
  distefano_pgp (Hs:=toy_sha256) toy_distefano_session
    (distefano_qp (Hs:=toy_sha256) toy_distefano_session (string_bytes "GET") (string_bytes "200") (array_repeat 16 (byte 6)))
    (string_bytes "ok").

Lemma distefano_proof_binding_witness :
  (v2_session_id (pi_2pc (fx_pi_hsp toy_distefano_proof)) = v2_session_id (pi_2pc (fx_pi_hsp toy_distefano_proof))) \/
  collides (Hs:=toy_sha256) (zip (distefano_preimages toy_distefano_proof (digest 2) (digest 3))
    (distefano_preimages toy_distefano_proof (digest 2) (digest 3))).
Proof.
  destruct (distefano_proof_binding (Hs:=toy_sha256) toy_distefano_proof toy_distefano_proof (digest 2) (digest 2) (digest 3) (digest 3))
    as [(Hs1 & _)|Hc].
  - vm_compute. reflexivity.
  - vm_compute. reflexivity.
  - vm_compute. reflexivity.
  - vm_compute. reflexivity.
  - reflexivity.
  - reflexivity.
  - left. exact Hs1.
  - right. exact Hc.
Defined.
