(* ===== verification/TlsEngine.v ===== *)
(** * TLS engines: live capture, handshake 2PC and TLS 1.2 sessions

    Models [attestation/src/tls_engine.rs] (the engine that attests a live TLS
    connection), [attestation/src/tls_2pc.rs] (binding input and exporter of the
    handshake 2PC protocol), [attestation/src/zk_backend.rs] (the backend trait
    and its commitment implementation) and [attestation/src/tls12_session.rs]
    (capture of a TLS 1.2 session).

    Sockets and the TLS library are external: a [TlsPeer] (a [Tls12Peer]) says
    what each of their calls returns on one connection, in the order of the
    calls; nothing is assumed about it. *)

From S2P Require Import Prelude Core Session Attestation Threshold Registry Dctls Network Errors Frost Verify.
From S2P Require Import Sha256Gadget HmacGadget CoSnark FrostAux Coordinator NodeTransport.

(** ** The backend interface (zk_backend.rs) *)

Class ZkTlsBackend := {
  prove_session_params : SessionId -> DigestBytes -> SessionParamsSecret -> SessionParamsPublic -> result DctlsError HSPProof;
  verify_session_params : HSPProof -> DigestBytes -> DigestBytes -> result DctlsError unit;
  prove_query_response : SessionId -> DigestBytes -> bytes -> bytes -> result DctlsError QueryRecord;
  verify_query_response : QueryRecord -> bytes -> bytes -> result DctlsError unit;
  prove_pgp : SessionId -> DigestBytes -> QueryRecord -> Statement -> HSPProof -> result DctlsError PGPProof;
  verify_pgp : PGPProof -> DigestBytes -> HSPProof -> result DctlsError unit;
  backend_tag : string
}.

(** The commitment backend; [now_secs] is the clock of the verification. *)
Definition CommitmentBackend {Hs : Sha256} (now_secs : u64) : ZkTlsBackend := {|
  prove_session_params sid rand sps spp := Ok (HSPProof_generate sid rand sps spp);
  verify_session_params := verify_hsp_proof now_secs;
  prove_query_response sid rand query response := Ok (QueryRecord_build sid rand query response);
  verify_query_response := verify_query_record;
  prove_pgp _ _ qr statement hsp := Ok (PGPProof_generate (qr_session_id qr) (qr_rand_value qr) qr statement hsp);
  verify_pgp := verify_pgp_proof;
  backend_tag := "commitment/sha256-v1"
|}.

(** ** Handshake 2PC (tls_2pc.rs) *)

Record TlsSessionParams := MkTlsSessionParams {
  tsp_server_cert_hash : DigestBytes;
  tsp_tls_version : u16;
  tsp_server_name : string;
  tsp_established_at : u64;
  tsp_session_nonce : DigestBytes
}.

Definition binding_2pc_hasher (sid : SessionId) (rand : DigestBytes) (params : TlsSessionParams) : CanonicalHasher :=
  let h := CanonicalHasher_new "tls-attestation/2pc-binding/v1" in
  let h := update_fixed (as_bytes sid) h in
  let h := update_digest rand h in
  let h := update_digest (tsp_server_cert_hash params) h in
  let h := update_fixed (to_array 8 (u64_be (u_of_Z 64 (uval (tsp_tls_version params))))) h in
  let h := update_bytes (string_bytes (tsp_server_name params)) h in
  update_digest (tsp_session_nonce params) h.
Definition exporter_2pc_hasher (aggregate_sig : array 64) : CanonicalHasher :=
  update_fixed aggregate_sig (CanonicalHasher_new "tls-attestation/2pc-exporter/v1").

Section TwoPc.
Context {Hs : Sha256}.

Definition compute_2pc_binding_input (sid : SessionId) (rand : DigestBytes) (params : TlsSessionParams) : DigestBytes :=
  finalize (binding_2pc_hasher sid rand params).
Definition derive_2pc_dvrf_exporter (aggregate_sig : array 64) : DigestBytes :=
  finalize (exporter_2pc_hasher aggregate_sig).
End TwoPc.

(** ** The engine for live connections (tls_engine.rs) *)

Inductive ProtocolVersion := TLSv1_2 | TLSv1_3 | OtherVersion (debug : string).
(** One call of [read]; an empty chunk is the end of the stream. *)
Inductive ReadResult := ReadChunk (chunk : bytes) | ReadWouldBlock | ReadTimedOut | ReadFails (e : string).

(** [peer_complete_io] lists the results of [complete_io] for as long as the
    connection is handshaking; [peer_reads] the results of [read], after which
    the stream is at its end. *)
Record TlsPeer := MkTlsPeer {
  peer_now : u64;
  peer_tcp_connect : string -> result string unit;
  peer_server_name : string -> result string unit;
  peer_connection_new : result string unit;
  peer_complete_io : list (result string unit);
  peer_set_read_timeout : Z -> result string unit;
  peer_write_all : bytes -> result string unit;
  peer_flush : result string unit;
  peer_reads : list ReadResult;
  peer_protocol_version : option ProtocolVersion;
  peer_certificates : option (list bytes);
  peer_export_keying_material : string -> option bytes -> result string (array 32)
}.

Record TlsCapture := MkTlsCapture {
  cap_server_cert_hash : DigestBytes;
  cap_tls_version : u16;
  cap_server_name : string;
  cap_established_at : u64;
  cap_response : bytes;
  dvrf_keying_material : array 32;
  nonce_keying_material : array 32
}.

(** [te_timeout] in seconds. *)
Record TlsAttestationEngine := MkTlsAttestationEngine { te_host : string; te_port : u16; te_timeout : Z }.
Definition DEFAULT_TIMEOUT : Z := 10.
Definition TlsAttestationEngine_new (host : string) (port : u16) : TlsAttestationEngine :=
  MkTlsAttestationEngine host port DEFAULT_TIMEOUT.
Definition TlsAttestationEngine_with_timeout (host : string) (port : u16) (timeout : Z) : TlsAttestationEngine :=
  MkTlsAttestationEngine host port timeout.

Definition tls_err (msg : string) : AttestationError := TlsConnection msg.

Fixpoint drive_handshake (io : list (result string unit)) : result AttestationError unit :=
  match io with
  | [] => Ok tt
  | r :: io => _ ← map_err (fun e => tls_err ("TLS handshake: " +:+ e)) r; drive_handshake io
  end.

(** The loop reading into [buf]: a timeout ends the response. *)
Fixpoint read_response (buf : bytes) (reads : list ReadResult) : result AttestationError bytes :=
  match reads with
  | [] | ReadChunk [] :: _ | ReadWouldBlock :: _ | ReadTimedOut :: _ => Ok buf
  | ReadChunk chunk :: reads => read_response (buf ++ chunk) reads
  | ReadFails e :: _ => Err (tls_err ("read response: " +:+ e))
  end.

Definition wire_version (v : option ProtocolVersion) : result AttestationError u16 :=
  match v with
  | Some TLSv1_3 => Ok (u_of_Z 16 772)
  | Some TLSv1_2 => Ok (u_of_Z 16 771)
  | Some (OtherVersion d) => Err (tls_err ("unsupported TLS version: " +:+ d))
  | None => Err (tls_err "handshake did not complete — no protocol version")
  end.

Section Engine.
Context {Hs : Sha256}.

Definition connect_and_capture (peer : TlsPeer) (self : TlsAttestationEngine) (query : bytes) (randomness : DigestBytes)
    : result AttestationError TlsCapture :=
  let established_at := peer_now peer in
  let addr := te_host self +:+ ":" +:+ pretty (uval (te_port self)) in
  _ ← map_err (fun e => tls_err ("TCP connect to " +:+ addr +:+ ": " +:+ e)) (peer_tcp_connect peer addr);
  _ ← map_err (fun e => tls_err ("invalid server name '" +:+ te_host self +:+ "': " +:+ e)) (peer_server_name peer (te_host self));
  _ ← map_err (fun e => tls_err ("ClientConnection::new: " +:+ e)) (peer_connection_new peer);
  _ ← drive_handshake (peer_complete_io peer);
  _ ← map_err (fun e => tls_err ("set_read_timeout: " +:+ e)) (peer_set_read_timeout peer (te_timeout self));
  _ ← map_err (fun e => tls_err ("write query: " +:+ e)) (peer_write_all peer query);
  _ ← map_err (fun e => tls_err ("flush: " +:+ e)) (peer_flush peer);
  response ← read_response [] (peer_reads peer);
  tls_version ← wire_version (peer_protocol_version peer);
  cert_der ← ok_or (tls_err "no peer certificate in chain") (certs ← peer_certificates peer; head certs);
  let cert_hash := sha256 cert_der in
  dvrf_km ← map_err (fun e => tls_err ("export dvrf keying material: " +:+ e))
    (peer_export_keying_material peer "tls-attestation/dvrf-exporter/v1" (Some (arr (as_bytes randomness))));
  nonce_km ← map_err (fun e => tls_err ("export nonce keying material: " +:+ e))
    (peer_export_keying_material peer "tls-attestation/session-nonce/v1" None);
  Ok {| cap_server_cert_hash := cert_hash; cap_tls_version := tls_version; cap_server_name := te_host self;
        cap_established_at := established_at; cap_response := response;
        dvrf_keying_material := dvrf_km; nonce_keying_material := nonce_km |}.

Context {Je : SerdeJson DctlsEvidence}.

Definition build_dctls_evidence (session : SessionContext) (randomness : DigestBytes) (query : bytes)
    (capture : TlsCapture) : TranscriptCommitments * ExportableEvidence * DctlsEvidence :=
  let sps := {| sps_dvrf_exporter := MkDigestBytes (dvrf_keying_material capture);
                sps_session_nonce := MkDigestBytes (nonce_keying_material capture) |} in
  let spp := {| spp_server_cert_hash := cap_server_cert_hash capture; spp_tls_version := cap_tls_version capture;
                spp_server_name := cap_server_name capture; spp_established_at := cap_established_at capture |} in
  let hsp := HSPProof_generate (session_id session) randomness sps spp in
  let qr := QueryRecord_build (session_id session) randomness query (cap_response capture) in
  let tc := TranscriptCommitments_build (session_id session) randomness query (cap_response capture) in
  let statement := Statement_derive (string_bytes "attested-session") "dx-dctls/tls-engine/v1" (transcript_commitment qr) in
  let pgp := PGPProof_generate (session_id session) randomness qr statement hsp in
  let dctls_evidence := MkDctlsEvidence hsp qr pgp in
  let evidence_bytes := unwrap_or (string_bytes "{}") (json_to_vec dctls_evidence) in
  (tc, ExportableEvidence_new DCTLS_ENGINE_TAG evidence_bytes, dctls_evidence).

Definition capture_for_2pc (peer : TlsPeer) (self : TlsAttestationEngine) (query : bytes) (randomness : DigestBytes)
    : result AttestationError (TlsSessionParams * bytes) :=
  capture ← connect_and_capture peer self query randomness;
  Ok ({| tsp_server_cert_hash := cap_server_cert_hash capture; tsp_tls_version := cap_tls_version capture;
         tsp_server_name := cap_server_name capture; tsp_established_at := cap_established_at capture;
         tsp_session_nonce := MkDigestBytes (nonce_keying_material capture) |}, cap_response capture).

Definition build_evidence_2pc (session : SessionContext) (randomness : DigestBytes) (query : bytes)
    (params : TlsSessionParams) (response : bytes) (dvrf_exporter_2pc : DigestBytes)
    : TranscriptCommitments * ExportableEvidence * DctlsEvidence :=
  let sps := {| sps_dvrf_exporter := dvrf_exporter_2pc; sps_session_nonce := tsp_session_nonce params |} in
  let spp := {| spp_server_cert_hash := tsp_server_cert_hash params; spp_tls_version := tsp_tls_version params;
                spp_server_name := tsp_server_name params; spp_established_at := tsp_established_at params |} in
  let hsp := HSPProof_generate (session_id session) randomness sps spp in
  let qr := QueryRecord_build (session_id session) randomness query response in
  let tc := TranscriptCommitments_build (session_id session) randomness query response in
  let statement := Statement_derive (string_bytes "attested-session") "dx-dctls/handshake-2pc/v1" (transcript_commitment qr) in
  let pgp := PGPProof_generate (session_id session) randomness qr statement hsp in
  let dctls_evidence := MkDctlsEvidence hsp qr pgp in
  let evidence_bytes := unwrap_or (string_bytes "{}") (json_to_vec dctls_evidence) in
  (tc, ExportableEvidence_new "dx-dctls/handshake-2pc/v1" evidence_bytes, dctls_evidence).

(** The response and the certificate hash given by the caller are ignored. *)
Definition tls_execute (peer : TlsPeer) (self : TlsAttestationEngine) (session : SessionContext) (randomness : DigestBytes)
    (query _response : bytes) : result AttestationError (TranscriptCommitments * ExportableEvidence) :=
  capture ← connect_and_capture peer self query randomness;
  let '(tc, ev, _) := build_dctls_evidence session randomness query capture in
  Ok (tc, ev).
Definition tls_execute_dctls (peer : TlsPeer) (self : TlsAttestationEngine) (session : SessionContext)
    (randomness : DigestBytes) (query _response : bytes) (_server_cert_hash : DigestBytes)
    : result AttestationError (TranscriptCommitments * ExportableEvidence * DctlsEvidence) :=
  capture ← connect_and_capture peer self query randomness;
  Ok (build_dctls_evidence session randomness query capture).
Definition tls_attestation_engine (peer : TlsPeer) (self : TlsAttestationEngine) : AttestationEngine :=
  tls_execute peer self.
End Engine.

(** ** TLS 1.2 sessions (tls12_session.rs) *)

Record TlsKeyCapture := MkTlsKeyCapture { kc_client_random : option (array 32); kc_master_secret : option bytes }.
Definition TlsKeyCapture_default : TlsKeyCapture := MkTlsKeyCapture None None.

(** The key log callback. *)
Definition key_log (self : TlsKeyCapture) (label : string) (client_random secret : bytes) : TlsKeyCapture :=
  if bool_decide (label = "CLIENT_RANDOM") then
    {| kc_client_random := match try_into 32 client_random with Some a => Some a | None => kc_client_random self end;
       kc_master_secret := Some secret |}
  else self.

(** [RecordingStream::read]: what is received is appended to the record. *)
Definition recording_read (captured : bytes) (r : result string bytes) : bytes * result string bytes :=
  match r with Ok buf => (captured ++ buf, Ok buf) | Err e => (captured, Err e) end.

(** The scan for a ServerHello; [captured] is what follows the position [i]. *)
Fixpoint parse_server_random (captured : bytes) : option (array 32) :=
  if (43 <=? length captured)%nat && bool_decide (captured !! 0%nat = Some (byte 22))
     && bool_decide (captured !! 5%nat = Some (byte 2))
  then Some (to_array 32 (take 32 (drop 11 captured)))
  else match captured with [] => None | _ :: rest => parse_server_random rest end.

Record Tls12SessionCapture := MkTls12SessionCapture {
  t12_server_cert_hash : DigestBytes;
  t12_tls_version : u16;
  t12_server_name : string;
  t12_established_at : u64;
  t12_session_nonce : DigestBytes;
  t12_pre_master_secret : bytes;
  t12_client_random : array 32;
  t12_server_random : array 32
}.

Definition to_session_params_public (self : Tls12SessionCapture) : SessionParamsPublic :=
  {| spp_server_cert_hash := t12_server_cert_hash self; spp_tls_version := t12_tls_version self;
     spp_server_name := t12_server_name self; spp_established_at := t12_established_at self |}.

(** [p12_key_log] lists the calls of the key log during the exchange and
    [p12_raw_reads] the reads of the socket. *)
Record Tls12Peer := MkTls12Peer {
  p12_now : u64;
  p12_server_name : string -> result string unit;
  p12_tcp_connect : string -> result string unit;
  p12_connection_new : result string unit;
  p12_write_all : bytes -> result string unit;
  p12_key_log : list (string * bytes * bytes);
  p12_raw_reads : list (result string bytes);
  p12_certificates : option (list bytes);
  p12_export_keying_material : string -> option bytes -> result string (array 32)
}.

Definition newline : string := String (Ascii.ascii_of_N 10) EmptyString.
Definition tls12_request (server_name : string) : string :=
  "GET / HTTP/1.1" +:+ newline +:+ "Host: " +:+ server_name +:+ newline +:+ "Connection: close" +:+ newline +:+ newline.

Section Tls12.
Context {Hs : Sha256}.

Definition derive_session_nonce_digest (self : Tls12SessionCapture) : DigestBytes :=
  finalize (update_digest (t12_session_nonce self) (CanonicalHasher_new "tls-attestation/session-nonce/v1")).

Definition hash_der_cert (der : bytes) : DigestBytes := sha256 der.

Definition tls12_connect (peer : Tls12Peer) (server_name : string) (port : u16)
    : result (failure AttestationError) Tls12SessionCapture :=
  let connection e := Fails (TlsConnection e) in
  _ ← map_err connection (p12_server_name peer server_name);
  let established_at := p12_now peer in
  _ ← map_err connection (p12_tcp_connect peer (server_name +:+ ":" +:+ pretty (uval port)));
  _ ← map_err connection (p12_connection_new peer);
  _ ← map_err connection (p12_write_all peer (string_bytes (tls12_request server_name)));
  let key_capture := fold_left (fun k '(label, cr, secret) => key_log k label cr secret) (p12_key_log peer) TlsKeyCapture_default in
  let captured := fold_left (fun c r => (recording_read c r).1) (p12_raw_reads peer) [] in
  certs ← ok_or (connection "no peer certificate") (p12_certificates peer);
  cert ← ok_or (Panics "index out of bounds") (head certs);
  let server_cert_hash := hash_der_cert cert in
  exporter ← map_err (fun e => connection ("RFC5705 export failed: " +:+ e))
    (p12_export_keying_material peer "tls-attestation/session-nonce/v1" None);
  client_random ← ok_or (connection "CLIENT_RANDOM not captured (KeyLog did not fire)") (kc_client_random key_capture);
  master_secret ← ok_or (connection "master_secret not captured (KeyLog did not fire)") (kc_master_secret key_capture);
  let server_random := default (array_repeat 32 (byte 0)) (parse_server_random captured) in
  Ok {| t12_server_cert_hash := server_cert_hash; t12_tls_version := u_of_Z 16 771; t12_server_name := server_name;
        t12_established_at := established_at; t12_session_nonce := MkDigestBytes exporter;
        t12_pre_master_secret := master_secret; t12_client_random := client_random; t12_server_random := server_random |}.

(** Two leading bytes, the rest zero. *)
Definition mock_bytes (a b : u8) : array 32 := to_array 32 [a; b].
Definition mock_tls12_session (server_name : string) (seed : u8) : Tls12SessionCapture :=
  {| t12_server_cert_hash := MkDigestBytes (mock_bytes seed (byte 1)); t12_tls_version := u_of_Z 16 771;
     t12_server_name := server_name; t12_established_at := u_of_Z 64 (1700000000 + uval seed);
     t12_session_nonce := MkDigestBytes (mock_bytes seed (byte 2)); t12_pre_master_secret := replicate 48 seed;
     t12_client_random := mock_bytes seed (byte 0); t12_server_random := mock_bytes (u_add seed (byte 1)) (byte 0) |}.
End Tls12.

(** ** What a capture contains *)

Section Capture.
Context {Hs : Sha256}.

(** The chunks before the first end of stream or timeout; none if a read fails
    before that. *)
Fixpoint received (reads : list ReadResult) : option (list bytes) :=
  match reads with
  | [] | ReadChunk [] :: _ | ReadWouldBlock :: _ | ReadTimedOut :: _ => Some []
  | ReadChunk chunk :: reads => cons chunk <$> received reads
  | ReadFails _ :: _ => None
  end.

Lemma read_response_Ok reads buf r :
  read_response buf reads = Ok r <-> exists chunks, received reads = Some chunks /\ r = buf ++ concat chunks.
Proof.
  revert buf. induction reads as [|[[|b c]| | |e] reads IH]; intros buf; cbn [read_response received].
  1-2,4-5: split; [intros [= <-]; exists []; by rewrite app_nil_r | intros (? & [= <-] & ->); by rewrite app_nil_r].
  - rewrite IH. split; [intros (l & -> & ->) | intros (l & Hl & ->)].
    + exists ((b :: c) :: l). split; [done|]. cbn [concat]. by rewrite app_assoc.
    + destruct (received reads) as [l'|]; [|done]. injection Hl as <-. exists l'. split; [done|]. cbn [concat]. by rewrite app_assoc.
  - split; [done | by intros (? & [=] & _)].
Qed.

Lemma wire_version_Ok v u :
  wire_version v = Ok u <-> (v = Some TLSv1_3 /\ uval u = 772 \/ v = Some TLSv1_2 /\ uval u = 771).
Proof.
  destruct v as [[]|]; cbn [wire_version]; (split; [try discriminate; intros [= <-]; vm_compute; tauto|]).
  - intros [[[=] _]|[_ Hu]]. f_equal. apply uint_eq. by rewrite Hu.
  - intros [[_ Hu]|[[=] _]]. f_equal. apply uint_eq. by rewrite Hu.
  - naive_solver.
  - naive_solver.
Qed.

(** What a successful capture of a connection consists of. *)
Definition captured_from (peer : TlsPeer) (eng : TlsAttestationEngine) (rand : DigestBytes) (c : TlsCapture) : Prop :=
  (exists leaf chain, peer_certificates peer = Some (leaf :: chain) /\ cap_server_cert_hash c = sha256 leaf) /\
  (peer_protocol_version peer = Some TLSv1_3 /\ uval (cap_tls_version c) = 772 \/
   peer_protocol_version peer = Some TLSv1_2 /\ uval (cap_tls_version c) = 771) /\
  cap_server_name c = te_host eng /\ cap_established_at c = peer_now peer /\
  (exists chunks, received (peer_reads peer) = Some chunks /\ cap_response c = concat chunks) /\
  peer_export_keying_material peer "tls-attestation/dvrf-exporter/v1" (Some (arr (as_bytes rand))) = Ok (dvrf_keying_material c) /\
  peer_export_keying_material peer "tls-attestation/session-nonce/v1" None = Ok (nonce_keying_material c).

Lemma drive_handshake_Ok io : drive_handshake io = Ok tt <-> Forall (fun r => r = Ok tt) io.
Proof.
  induction io as [|[[]|e] io IH]; cbn [drive_handshake map_err mbind result_bind]; [by split; [constructor|]| |].
  - rewrite Forall_cons, IH. tauto.
  - split; [done|]. by intros [[=] _]%Forall_cons.
Qed.

Lemma connect_and_capture_Ok peer eng q rand c :
  connect_and_capture peer eng q rand = Ok c ->
  captured_from peer eng rand c /\ Forall (fun r => r = Ok tt) (peer_complete_io peer) /\ peer_write_all peer q = Ok tt.
Proof.
  unfold connect_and_capture. intros (_ & _ & H)%bind_Ok. apply bind_Ok in H as (_ & _ & H). apply bind_Ok in H as (_ & _ & H).
  apply bind_Ok in H as ([] & Hio%drive_handshake_Ok & H). apply bind_Ok in H as (_ & _ & H).
  apply bind_Ok in H as ([] & Hw%map_err_Ok & H). apply bind_Ok in H as (_ & _ & H).
  apply bind_Ok in H as (r & Hr%read_response_Ok & H). apply bind_Ok in H as (v & Hv%wire_version_Ok & H).
  apply bind_Ok in H as (cert & Hc%ok_or_Ok & H). apply bind_Ok in H as (dk & Hdk%map_err_Ok & H).
  apply bind_Ok in H as (nk & Hnk%map_err_Ok & [= <-]). split; [|done]. split_and!; cbn; try done.
  destruct (peer_certificates peer) as [[|leaf chain]|]; try discriminate Hc. injection Hc as <-. eauto.
Qed.
End Capture.

(** ** Evidence of the engine *)

Section Evidence.
Context {Hs : Sha256}.

(** Evidence generated in one go for a session verifies, whatever the secret
    parameters and the statement, for 24 hours. *)
Lemma generated_evidence_verifies sid rand sps spp q a content tag now :
  uval now <= uval (spp_established_at spp) + HSP_PROOF_MAX_AGE_SECS ->
  let hsp := HSPProof_generate sid rand sps spp in
  let qr := QueryRecord_build sid rand q a in
  let pgp := PGPProof_generate sid rand qr (Statement_derive content tag (transcript_commitment qr)) hsp in
  verify_all now (MkDctlsEvidence hsp qr pgp) rand (spp_server_cert_hash spp) q a = Ok (TranscriptBinding_build hsp qr pgp).
Proof.
  intros Hage hsp qr pgp. apply verify_all_Ok. split_and!.
  - apply verify_hsp_proof_Ok. unfold hsp_valid. cbn [hsp_proof]. split_and!; try done. by right.
  - by apply verify_query_record_Ok.
  - by apply verify_pgp_proof_Ok.
  - by apply verify_transcript_consistency_Ok.
Qed.

(** The commitment backend proves and verifies like the functions of [dctls]:
    what it proves in one session it accepts, for 24 hours. *)
Lemma commitment_backend_complete now sid rand sps spp q a content tag :
  uval now <= uval (spp_established_at spp) + HSP_PROOF_MAX_AGE_SECS ->
  exists hsp qr pgp,
    prove_session_params (ZkTlsBackend:=CommitmentBackend now) sid rand sps spp = Ok hsp /\
    prove_query_response (ZkTlsBackend:=CommitmentBackend now) sid rand q a = Ok qr /\
    prove_pgp (ZkTlsBackend:=CommitmentBackend now) sid rand qr (Statement_derive content tag (transcript_commitment qr)) hsp = Ok pgp /\
    verify_session_params (ZkTlsBackend:=CommitmentBackend now) hsp rand (spp_server_cert_hash spp) = Ok tt /\
    verify_query_response (ZkTlsBackend:=CommitmentBackend now) qr q a = Ok tt /\
    verify_pgp (ZkTlsBackend:=CommitmentBackend now) pgp rand hsp = Ok tt.
Proof.
  intros Hage. eexists _, _, _. do 3 (split; [reflexivity|]).
  destruct (proj1 (verify_all_Ok _ _ _ _ _ _ _) (generated_evidence_verifies sid rand sps spp q a content tag now Hage))
    as (H1 & H2 & H3 & _). by split_and!.
Qed.

Context {Je : SerdeJson DctlsEvidence}.

(** A run of the engine on a connection attests what was captured on it: the
    handshake completed and the query was sent; the evidence passes [verify_all] for 24 hours with the randomness of the session, the hash of
    the leaf certificate the server presented (never the one the caller passed),
    the query sent and the concatenation of what was read; it names the version
    negotiated and the host of the engine, and its exporter is the keying material
    of this connection for this randomness; and the two entry points return the
    same commitments and evidence. *)
Theorem tls_engine_evidence_sound peer eng session rand q r0 cert0 tc ev dev :
  tls_execute_dctls peer eng session rand q r0 cert0 = Ok (tc, ev, dev) ->
  exists c, captured_from peer eng rand c /\ Forall (fun r => r = Ok tt) (peer_complete_io peer) /\
    peer_write_all peer q = Ok tt /\
    tls_execute peer eng session rand q r0 = Ok (tc, ev) /\
    tc = TranscriptCommitments_build (session_id session) rand q (cap_response c) /\
    hsp_session_id (hsp_proof dev) = session_id session /\
    hsp_tls_version (hsp_proof dev) = cap_tls_version c /\ hsp_server_name (hsp_proof dev) = te_host eng /\
    arr (as_bytes (hsp_dvrf_exporter (hsp_proof dev))) = arr (dvrf_keying_material c) /\
    (forall now, uval now <= uval (peer_now peer) + HSP_PROOF_MAX_AGE_SECS ->
       verify_all now dev rand (cap_server_cert_hash c) q (cap_response c)
       = Ok (TranscriptBinding_build (hsp_proof dev) (query_record dev) (pgp_proof dev))) /\
    (forall bs, json_to_vec dev = Ok bs -> ev = ExportableEvidence_new DCTLS_ENGINE_TAG bs /\ json_from_slice bs = Ok dev).
Proof.
  unfold tls_execute_dctls. intros (c & Hc & [= <- <- <-])%bind_Ok. exists c.
  destruct (connect_and_capture_Ok _ _ _ _ _ Hc) as (Hcap & Hio & Hw). pose proof Hcap as (_ & _ & Hname & Hat & _).
  split_and!; try done.
  - unfold tls_execute. rewrite Hc. done.
  - intros now Hnow. rewrite <- Hat in Hnow. by apply generated_evidence_verifies.
  - intros bs Hbs. split; [|by apply Prelude.json_roundtrip]. unfold build_dctls_evidence in Hbs. cbn [snd] in Hbs.
    unfold build_dctls_evidence. cbn [fst snd]. by rewrite Hbs.
Qed.

(** The exporter is not part of what is verified: evidence built for any
    exporter value, without a connection or a threshold signature, is accepted. *)
Lemma evidence_accepts_any_exporter session rand q params a exporter now :
  uval now <= uval (tsp_established_at params) + HSP_PROOF_MAX_AGE_SECS ->
  is_ok (verify_all now (build_evidence_2pc session rand q params a exporter).2 rand (tsp_server_cert_hash params) q a) = true.
Proof.
  intros Hage. pose proof (generated_evidence_verifies (session_id session) rand
    (MkSPS exporter (tsp_session_nonce params)) (MkSPP (tsp_server_cert_hash params) (tsp_tls_version params)
    (tsp_server_name params) (tsp_established_at params)) q a (string_bytes "attested-session") "dx-dctls/handshake-2pc/v1" now Hage) as H.
  cbn [spp_server_cert_hash] in H. unfold build_evidence_2pc. cbn [snd]. by rewrite H.
Qed.
End Evidence.

(** ** Handshake 2PC, end to end *)

Section TwoPcProps.
Context {Hs : Sha256} {Fr : FrostEd25519}.

Lemma binding_2pc_hasher_inj s1 s2 r1 r2 p1 p2 :
  vec_fits (string_bytes (tsp_server_name p1)) -> vec_fits (string_bytes (tsp_server_name p2)) ->
  inner (binding_2pc_hasher s1 r1 p1) = inner (binding_2pc_hasher s2 r2 p2) ->
  s1 = s2 /\ r1 = r2 /\ tsp_server_cert_hash p1 = tsp_server_cert_hash p2 /\ tsp_tls_version p1 = tsp_tls_version p2 /\
  tsp_server_name p1 = tsp_server_name p2 /\ tsp_session_nonce p1 = tsp_session_nonce p2.
Proof.
  intros Hn1 Hn2 Heq. unfold binding_2pc_hasher in Heq. unfold_hasher Heq. rewrite !arr_to_array in Heq by apply length_u64_be.
  apply (inj (domain_prefix _ ++.)) in Heq. split_enc Heq. simplify_enc. split_and!; try done. by apply u16_as_u64_inj.
Qed.

Context {Je : SerdeJson DctlsEvidence}.

(** C30. The handshake 2PC protocol binds evidence to a live connection and a
    threshold signature: after a capture and a successful binding round over any
    transport, the aggregate verifies under the group key on the binding input of
    session, randomness and captured parameters; the evidence built from it
    passes all checks for 24 hours; and the binding input and the exporter of
    the evidence determine session, randomness, certificate, TLS version, server
    name, session nonce and signature, or one of the two hashes collides. *)
Theorem handshake_2pc_sound {T NS} {Tr : FrostNodeTransport T NS} peer eng session rand q params a now cid gk (ts : list T)
    ttl epoch ns ns' sig :
  capture_for_2pc peer eng q rand = Ok (params, a) ->
  run_handshake_binding now (session_id session) cid (compute_2pc_binding_input (session_id session) rand params) gk ts
    ttl epoch ns = (ns', Ok sig) ->
  let input := compute_2pc_binding_input (session_id session) rand params in
  let dev := (build_evidence_2pc session rand q params a (derive_2pc_dvrf_exporter sig)).2 in
  peer_export_keying_material peer "tls-attestation/session-nonce/v1" None = Ok (as_bytes (tsp_session_nonce params)) /\
  verify_signature {| fta_signed_digest := input; aggregate_signature_bytes := sig;
                      group_verifying_key_bytes := verifying_key_bytes gk |} = Ok tt /\
  (forall now, uval now <= uval (peer_now peer) + HSP_PROOF_MAX_AGE_SECS ->
     is_ok (verify_all now dev rand (tsp_server_cert_hash params) q a) = true) /\
  forall sid2 rand2 params2 sig2,
    vec_fits (string_bytes (te_host eng)) -> vec_fits (string_bytes (tsp_server_name params2)) ->
    compute_2pc_binding_input sid2 rand2 params2 = input -> derive_2pc_dvrf_exporter sig2 = hsp_dvrf_exporter (hsp_proof dev) ->
    (sid2 = session_id session /\ rand2 = rand /\ tsp_server_cert_hash params2 = tsp_server_cert_hash params /\
     tsp_tls_version params2 = tsp_tls_version params /\ tsp_server_name params2 = te_host eng /\
     tsp_session_nonce params2 = tsp_session_nonce params /\ sig2 = sig) \/
    collides [(inner (binding_2pc_hasher sid2 rand2 params2), inner (binding_2pc_hasher (session_id session) rand params));
              (inner (exporter_2pc_hasher sig2), inner (exporter_2pc_hasher sig))].
Proof.
  intros Hcap Hrun input dev. unfold capture_for_2pc in Hcap. apply bind_Ok in Hcap as (c & Hc & [= Hparams <-]).
  destruct (connect_and_capture_Ok _ _ _ _ _ Hc) as ((_ & _ & Hname & Hat & _ & _ & Hnonce) & _).
  assert (Hn : tsp_server_name params = te_host eng) by by rewrite <- Hparams.
  split_and!; [by rewrite <- Hparams | by apply (run_handshake_binding_Ok _ _ _ _ _ _ _ _ _ _ _ Hrun) | |].
  - intros t Ht. apply evidence_accepts_any_exporter. rewrite <- Hparams. by rewrite <- Hat in Ht.
  - intros sid2 rand2 params2 sig2 Hf1 Hf2 Hin Hexp. rewrite <- Hn in Hf1 |- *.
    unfold input, compute_2pc_binding_input in Hin. open_digest Hin 0%nat.
    change (finalize (exporter_2pc_hasher sig2) = finalize (exporter_2pc_hasher sig)) in Hexp. open_digest Hexp 1%nat.
    apply binding_2pc_hasher_inj in Hin as (-> & -> & Hcert & Hv & Hsn & Hno); [|done..].
    unfold exporter_2pc_hasher in Hexp. unfold_hasher Hexp. apply (inj (domain_prefix _ ++.)) in Hexp. simplify_enc.
    left. by split_and!.
Qed.
End TwoPcProps.

(** ** TLS 1.2 capture *)

Section Tls12Props.
Context {Hs : Sha256}.

(** A ServerHello at position [i]: a handshake record whose message is of type 2. *)
Definition hello_at (l : bytes) (i : nat) : Prop :=
  (i + 43 <= length l)%nat /\ l !! i = Some (byte 22) /\ l !! (i + 5)%nat = Some (byte 2).

Lemma parse_server_random_first l r :
  parse_server_random l = Some r <->
  exists i, hello_at l i /\ r = to_array 32 (take 32 (drop (i + 11) l)) /\ forall j, (j < i)%nat -> ~ hello_at l j.
Proof.
  assert (Hcons : forall b l i, hello_at (b :: l) (S i) <-> hello_at l i).
  { intros b l' i. unfold hello_at. cbn. rewrite <- Nat.succ_le_mono. done. }
  revert r. induction l as [|b l IH]; intros r.
  { split; [done|]. intros (i & [Hi _] & _). cbn in Hi. lia. }
  cbn [parse_server_random]. destruct ((43 <=? length (b :: l))%nat && _ && _) eqn:Hhere.
  - apply andb_prop in Hhere as [[Hlen H0%bool_decide_eq_true]%andb_prop H5%bool_decide_eq_true].
    apply Nat.leb_le in Hlen. split.
    + intros [= <-]. exists 0%nat. split_and!; [done|done|]. intros j Hj. lia.
    + intros (i & _ & -> & Hfirst). destruct i as [|i]; [done|]. exfalso. apply (Hfirst 0%nat); [lia|]. done.
  - assert (Hnot : ~ hello_at (b :: l) 0).
    { intros (Hlen & H0 & H5). apply not_true_iff_false in Hhere. apply Hhere.
      rewrite !andb_true_iff, !bool_decide_eq_true, Nat.leb_le. done. }
    rewrite IH. split.
    + intros (i & Hi & -> & Hfirst). exists (S i). rewrite Hcons. split_and!; [done|done|].
      intros [|j] Hj; [done|]. rewrite Hcons. apply Hfirst. lia.
    + intros ([|i] & Hi & -> & Hfirst); [done|]. exists i. rewrite Hcons in Hi. split_and!; [done|done|].
      intros j Hj. rewrite <- (Hcons b). apply Hfirst. lia.
Qed.

(** The last entry of the key log for a TLS 1.2 session that satisfies [P]. *)
Definition last_client_random (P : bytes -> bool) (log : list (string * bytes * bytes)) : option (string * bytes * bytes) :=
  List.find (fun '(label, cr, _) => bool_decide (label = "CLIENT_RANDOM") && P cr) (rev log).

Lemma key_log_last log :
  let k := fold_left (fun k '(label, cr, secret) => key_log k label cr secret) log TlsKeyCapture_default in
  kc_master_secret k = snd <$> last_client_random (fun _ => true) log /\
  kc_client_random k = (e ← last_client_random (fun cr => (length cr =? 32)%nat) log; try_into 32 e.1.2).
Proof.
  induction log as [|[[label cr] secret] log [IH1 IH2]] using rev_ind; [done|].
  unfold last_client_random in *. rewrite fold_left_app, rev_app_distr. cbn [fold_left rev app List.find].
  set (k := fold_left _ log _) in *. clearbody k. cbn zeta in *. unfold key_log.
  case_bool_decide as Hl; cbn [andb]; [|done]. cbn [kc_master_secret kc_client_random fmap option_fmap option_map snd]. split; [done|].
  destruct (Nat.eqb_spec (length cr) 32) as [Hcr|Hcr].
  - assert (Ha : try_into 32 cr = Some (to_array 32 cr)) by by apply try_into_Some; rewrite arr_to_array.
    cbn [mbind option_bind fst snd]. by rewrite Ha.
  - destruct (try_into 32 cr) as [a|] eqn:Ha; [|done]. apply try_into_Some in Ha. subst cr. by rewrite length_arr in Hcr.
Qed.

Lemma recorded reads :
  fold_left (fun c r => (recording_read c r).1) reads [] = concat (omap (fun r => match r with Ok b => Some b | Err _ => None end) reads).
Proof.
  induction reads as [|r reads IH] using rev_ind; [done|]. rewrite fold_left_app, omap_app, concat_app, <- IH.
  destruct r; cbn; by rewrite ?app_nil_r.
Qed.

Lemma tls12_connect_Ok peer name port c :
  tls12_connect peer name port = Ok c ->
  let stream := concat (omap (fun r => match r with Ok b => Some b | Err _ => None end) (p12_raw_reads peer)) in
  (exists leaf chain, p12_certificates peer = Some (leaf :: chain) /\ t12_server_cert_hash c = sha256 leaf) /\
  p12_export_keying_material peer "tls-attestation/session-nonce/v1" None = Ok (as_bytes (t12_session_nonce c)) /\
  uval (t12_tls_version c) = 771 /\ t12_server_name c = name /\ t12_established_at c = p12_now peer /\
  snd <$> last_client_random (fun _ => true) (p12_key_log peer) = Some (t12_pre_master_secret c) /\
  (fun e => e.1.2) <$> last_client_random (fun cr => (length cr =? 32)%nat) (p12_key_log peer) = Some (arr (t12_client_random c)) /\
  (forall i, hello_at stream i -> (forall j, (j < i)%nat -> ~ hello_at stream j) ->
     arr (t12_server_random c) = take 32 (drop (i + 11) stream)) /\
  ((forall i, ~ hello_at stream i) -> t12_server_random c = array_repeat 32 (byte 0)).
Proof.
  unfold tls12_connect. intros (_ & _ & H)%bind_Ok. apply bind_Ok in H as (_ & _ & H). apply bind_Ok in H as (_ & _ & H).
  apply bind_Ok in H as (_ & _ & H). apply bind_Ok in H as (certs & Hcerts%ok_or_Ok & H).
  apply bind_Ok in H as (leaf & Hleaf%ok_or_Ok & H). apply bind_Ok in H as (ex & Hex%map_err_Ok & H).
  apply bind_Ok in H as (cr & Hcr%ok_or_Ok & H). apply bind_Ok in H as (ms & Hms%ok_or_Ok & [= <-]).
  destruct (key_log_last (p12_key_log peer)) as [Hlms Hlcr]. rewrite recorded. cbn zeta in *.
  cbn [t12_server_cert_hash t12_session_nonce t12_tls_version t12_server_name t12_established_at t12_pre_master_secret
       t12_client_random t12_server_random]. rewrite Hms in Hlms. rewrite Hcr in Hlcr. split_and!; try done.
  - destruct certs as [|l chain]; [done|]. injection Hleaf as <-. eauto.
  - destruct (last_client_random (fun cr => (length cr =? 32)%nat) (p12_key_log peer)) as [e|]; [|done].
    cbn [mbind option_bind] in Hlcr. symmetry in Hlcr. apply try_into_Some in Hlcr. cbn [fmap option_fmap option_map]. by rewrite Hlcr.
  - intros i Hi Hfirst. rewrite (proj2 (parse_server_random_first _ _) (ex_intro _ i (conj Hi (conj eq_refl Hfirst)))).
    cbn [default from_option id]. destruct Hi as [Hlen _]. rewrite arr_to_array; [done|]. rewrite length_take, length_drop. lia.
  - intros Hno. destruct (parse_server_random _) as [r|] eqn:Hp; [|done].
    apply parse_server_random_first in Hp as (i & Hi & _). by destruct (Hno i).
Qed.

(** What [connect] returns on success: the hash of the leaf certificate, the
    exporter of the connection as session nonce, the secret of the last
    TLS 1.2 entry of the key log (the master secret, in the field named after
    the pre-master secret) and the last 32-byte client random logged; the server
    random is taken from the first ServerHello in the received bytes, in
    particular from the first record if the stream starts with one, and is zero
    if there is none. Without a TLS 1.2 entry in the key log, which is what a
    connection in version 1.3 gives, it does not succeed. *)
Theorem tls12_capture_spec peer name port c :
  tls12_connect peer name port = Ok c ->
  let stream := concat (omap (fun r => match r with Ok b => Some b | Err _ => None end) (p12_raw_reads peer)) in
  (exists leaf chain, p12_certificates peer = Some (leaf :: chain) /\ t12_server_cert_hash c = sha256 leaf) /\
  p12_export_keying_material peer "tls-attestation/session-nonce/v1" None = Ok (as_bytes (t12_session_nonce c)) /\
  uval (t12_tls_version c) = 771 /\ t12_server_name c = name /\ t12_established_at c = p12_now peer /\
  snd <$> last_client_random (fun _ => true) (p12_key_log peer) = Some (t12_pre_master_secret c) /\
  (fun e => e.1.2) <$> last_client_random (fun cr => (length cr =? 32)%nat) (p12_key_log peer) = Some (arr (t12_client_random c)) /\
  (forall i, hello_at stream i -> (forall j, (j < i)%nat -> ~ hello_at stream j) ->
     arr (t12_server_random c) = take 32 (drop (i + 11) stream)) /\
  ((forall i, ~ hello_at stream i) -> t12_server_random c = array_repeat 32 (byte 0)).
Proof. apply tls12_connect_Ok. Qed.

(** Against a server with which the library negotiates version 1.3, whose key
    log has no TLS 1.2 entry, the connector always fails. *)
Lemma tls12_connect_needs_tls12 peer name port :
  Forall (fun e => e.1.1 <> "CLIENT_RANDOM") (p12_key_log peer) -> is_ok (tls12_connect peer name port) = false.
Proof.
  intros Hlog. destruct (tls12_connect peer name port) as [c|] eqn:Hc; [exfalso|done].
  apply tls12_connect_Ok in Hc as (_ & _ & _ & _ & _ & Hms & _).
  assert (Hnone : last_client_random (fun _ => true) (p12_key_log peer) = None); [|by rewrite Hnone in Hms].
  unfold last_client_random. rewrite Forall_forall in Hlog.
  destruct (List.find _ _) as [e|] eqn:He; [exfalso|done]. apply List.find_some in He as [Hin%in_rev He].
  destruct e as [[label cr] s]. apply andb_prop in He as [He%bool_decide_eq_true _].
  apply (Hlog (label, cr, s)); [by apply list_elem_of_In|done].
Qed.
End Tls12Props.

(** ** Concrete runs *)

Section Examples.
#[local] Existing Instance toy_sha256.
#[local] Existing Instance toy_frost.
#[local] Existing Instance toy_ed25519.
#[local] Instance tls_groth16 : Groth16 := toy_groth16 (Ark:=value_ark).
#[local] Instance no_hsp_json : SerdeJson HspProof.
Proof. refine {| json_to_vec _ := Err "unsupported"; json_from_slice _ := Err "unsupported" |}. by intros v b [=]. Defined.
#[local] Instance no_evidence_json : SerdeJson DctlsEvidence.
Proof. refine {| json_to_vec _ := Err "unsupported"; json_from_slice _ := Err "unsupported" |}. by intros v b [=]. Defined.

(** A server that answers in two chunks and then keeps the connection open. *)
Definition ex_peer : TlsPeer := {|
  peer_now := n64 1000; peer_tcp_connect _ := Ok tt; peer_server_name _ := Ok tt; peer_connection_new := Ok tt;
  peer_complete_io := [Ok tt; Ok tt]; peer_set_read_timeout _ := Ok tt; peer_write_all _ := Ok tt; peer_flush := Ok tt;
  peer_reads := [ReadChunk (string_bytes "HTTP/1.1 "); ReadChunk (string_bytes "200 OK"); ReadTimedOut];
  peer_protocol_version := Some TLSv1_3; peer_certificates := Some [string_bytes "leaf"; string_bytes "issuer"];
  peer_export_keying_material label context := Ok (to_array 32 (string_bytes label ++ default [] context)) |}.
Definition ex_engine : TlsAttestationEngine := TlsAttestationEngine_new "api.example.com" (u_of_Z 16 443).

Definition ex_tls := tls_execute_dctls ex_peer ex_engine example_context (digest 1) (string_bytes "GET /") [] (digest 0).

Lemma tls_engine_evidence_sound_witness :
  exists tc ev dev, ex_tls = Ok (tc, ev, dev) /\ tls_execute ex_peer ex_engine example_context (digest 1) (string_bytes "GET /") [] = Ok (tc, ev).
Proof.
  destruct (is_ok_exists ex_tls) as [[[tc ev] dev] Hrun]; [vm_compute; reflexivity|]. exists tc, ev, dev. split; [exact Hrun|].
  destruct (tls_engine_evidence_sound ex_peer ex_engine example_context (digest 1) (string_bytes "GET /") [] (digest 0) tc ev dev Hrun)
    as (c & _ & _ & _ & He & _). exact He.
Defined.

Definition ex_params : TlsSessionParams :=
  (unwrap_or (MkTlsSessionParams (digest 0) (u_of_Z 16 0) "" (n64 0) (digest 0), [])
    (capture_for_2pc ex_peer ex_engine (string_bytes "GET /") (digest 1))).1.
Definition ex_2pc := run_handshake_binding ex_now (session_id example_context) (vid 9)
  (compute_2pc_binding_input (session_id example_context) (digest 1) ex_params) (toy_group 3) run_transports (n64 60)
  RegistryEpoch_GENESIS run_nodes.

Lemma handshake_2pc_sound_witness :
  exists sig, ex_2pc.2 = Ok sig /\
    verify_signature {| fta_signed_digest := compute_2pc_binding_input (session_id example_context) (digest 1) ex_params;
                        aggregate_signature_bytes := sig; group_verifying_key_bytes := verifying_key_bytes (toy_group 3) |} = Ok tt.
Proof.
  destruct (is_ok_exists ex_2pc.2) as [sig Hsig]; [vm_compute; reflexivity|]. exists sig. split; [exact Hsig|].
  apply (handshake_2pc_sound ex_peer ex_engine example_context (digest 1) (string_bytes "GET /") ex_params
    (string_bytes "HTTP/1.1 200 OK") ex_now (vid 9) (toy_group 3) run_transports (n64 60) RegistryEpoch_GENESIS run_nodes ex_2pc.1 sig).
  - vm_compute. reflexivity.
  - rewrite <- Hsig. apply surjective_pairing.
Defined.

Definition ex_hello : bytes :=
  [byte 22; byte 3; byte 3; byte 0; byte 38; byte 2; byte 0; byte 0; byte 34; byte 3; byte 3] ++ replicate 32 (byte 7).
Definition ex_peer12 : Tls12Peer := {|
  p12_now := n64 1000; p12_server_name _ := Ok tt; p12_tcp_connect _ := Ok tt; p12_connection_new := Ok tt;
  p12_write_all _ := Ok tt; p12_key_log := [("CLIENT_RANDOM", replicate 32 (byte 5), replicate 48 (byte 6))];
  p12_raw_reads := [Ok (take 20 ex_hello); Err "interrupted"; Ok (drop 20 ex_hello)];
  p12_certificates := Some [string_bytes "leaf"];
  p12_export_keying_material label _ := Ok (to_array 32 (string_bytes label)) |}.

Lemma tls12_capture_spec_witness :
  exists c, tls12_connect ex_peer12 "example.com" (u_of_Z 16 443) = Ok c /\ arr (t12_server_random c) = replicate 32 (byte 7).
Proof.
  destruct (is_ok_exists (tls12_connect ex_peer12 "example.com" (u_of_Z 16 443))) as [c Hc]; [vm_compute; reflexivity|].
  exists c. split; [exact Hc|]. destruct (tls12_capture_spec ex_peer12 "example.com" (u_of_Z 16 443) c Hc) as (_ & _ & _ & _ & _ & _ & _ & Hr & _).
  etrans; [apply (Hr 0%nat)|].
  - split_and!; [apply (bool_decide_unpack _); vm_compute; exact I | vm_compute; reflexivity | vm_compute; reflexivity].
  - intros j Hj. inversion Hj.
  - vm_compute. reflexivity.
Defined.
End Examples.
