(* ===== verification/RcPhase.v ===== *)
(** * The randomness creation phase

    Models [attestation/src/rc_phase.rs]: key generation, partial evaluations
    and combination of the secp256k1 DVRF behind one orchestrator.

    Completeness of threshold signing in the external crate is the class
    [SecpSigning]. *)

From S2P Require Import Prelude Core Session Attestation Threshold Randomness Registry Errors Frost Dkg.
From S2P Require Import DkgNode DkgCeremony DkgHonest FrostKeys Secp SecpDkg.

Record RcPhaseParams := MkRcPhaseParams { rc_alpha : DigestBytes }.
Definition RcPhaseParams_new (alpha : DigestBytes) : RcPhaseParams := MkRcPhaseParams alpha.

Definition rc_alpha_hasher (session_id nonce : bytes) : CanonicalHasher :=
  update_bytes nonce (update_bytes session_id (CanonicalHasher_new "tls-attestation/rc-phase/alpha/v1")).

Section RcPhase.
Context {Hs : Sha256} {Sp : FrostSecp256k1}.

Definition RcPhaseParams_from_session (session_id nonce : bytes) : RcPhaseParams :=
  MkRcPhaseParams (finalize (rc_alpha_hasher session_id nonce)).

Record RcPhaseOutput := MkRcPhaseOutput {
  rc_rand : DigestBytes;
  rc_dvrf_output : Secp256k1DvrfOutput;
  rc_output_alpha : DigestBytes
}.
Record RcPartialEval := MkRcPartialEval { rpe_verifier_id : VerifierId; rpe_inner : Secp256k1PartialEval }.
Record RcPhaseOrchestrator := MkRcPhaseOrchestrator {
  rc_dkg_outputs : list Secp256k1DkgParticipantOutput;
  rc_verifier_ids : list VerifierId;
  rc_threshold : usize
}.

Definition rc_crypto (e : CryptoError) : AttestationError := AttestationCrypto (CryptoError_to_string e).

Definition rc_run_dkg (rngs : nat -> SpRng) (verifier_ids : list VerifierId) (threshold : usize)
    : result (failure AttestationError) RcPhaseOrchestrator :=
  dkg_outputs ← map_err (fun f => match f with Fails e => Fails (rc_crypto e) | Panics p => Panics p end)
    (run_secp256k1_dkg rngs verifier_ids threshold);
  Ok (MkRcPhaseOrchestrator dkg_outputs verifier_ids threshold).

Definition rc_group_key (self : RcPhaseOrchestrator) : result (failure AttestationError) Secp256k1GroupKey :=
  o ← ok_or (Panics "index out of bounds") (rc_dkg_outputs self !! 0%nat);
  Ok (spo_group_key o).

Definition rc_partial_eval (self : RcPhaseOrchestrator) (participant_index : nat) (params : RcPhaseParams)
    : result (failure AttestationError) RcPartialEval :=
  o ← ok_or (Panics "index out of bounds") (rc_dkg_outputs self !! participant_index);
  inner ← fails (map_err rc_crypto (partial_eval (spo_participant o) (MkSecp256k1DvrfInput (rc_alpha params))));
  v ← ok_or (Panics "index out of bounds") (rc_verifier_ids self !! participant_index);
  Ok (MkRcPartialEval v inner).

(** [iter().position(|vid| *vid == v)] *)
Definition position (v : VerifierId) (vids : list VerifierId) : option nat := fst <$> list_find (fun w => w = v) vids.

(** The participants of the evaluations whose verifier is known. *)
Definition participant_refs (self : RcPhaseOrchestrator) (partial_evals : list RcPartialEval)
    : result (failure AttestationError) (list Secp256k1FrostParticipant) :=
  try_map (fun i => o ← ok_or (Panics "index out of bounds") (rc_dkg_outputs self !! i); Ok (spo_participant o))
    (omap (fun pe => position (rpe_verifier_id pe) (rc_verifier_ids self)) partial_evals).

Definition rc_combine (self : RcPhaseOrchestrator) (params : RcPhaseParams) (partial_evals : list RcPartialEval)
    : result (failure AttestationError) RcPhaseOutput :=
  if Z.of_nat (length partial_evals) <? uval (rc_threshold self) then
    Err (Fails (AttestationCrypto ("RC Phase Combine: need " +:+ pretty (uval (rc_threshold self)) +:+
      " partial evals, got " +:+ pretty (Z.of_nat (length partial_evals)))))
  else
    let input := MkSecp256k1DvrfInput (rc_alpha params) in
    group_key ← rc_group_key self;
    refs ← participant_refs self partial_evals;
    dvrf_output ← fails (map_err rc_crypto (dvrf_combine group_key input (rpe_inner <$> partial_evals) refs));
    Ok {| rc_rand := sp_rand dvrf_output; rc_dvrf_output := dvrf_output; rc_output_alpha := rc_alpha params |}.

Definition run_rc_phase (self : RcPhaseOrchestrator) (params : RcPhaseParams)
    : result (failure AttestationError) RcPhaseOutput :=
  partial_evals ← try_map (fun i => rc_partial_eval self i params) (seq 0 (Z.to_nat (uval (rc_threshold self))));
  rc_combine self params partial_evals.

Definition rc_phase_verify (output : RcPhaseOutput) : result AttestationError unit :=
  map_err (fun e => AttestationCrypto ("DVRF.Verify failed: " +:+ CryptoError_to_string e))
    (dvrf_verify_output (MkSecp256k1DvrfInput (rc_output_alpha output)) (rc_dvrf_output output)).
End RcPhase.

(** ** Completeness of signing *)

Section Signing.
Context {Sp : FrostSecp256k1}.

(** The commitments of signers who draw their nonces from given generators. *)
Definition signing_commitments (signers : list (SpKeyPackage * SpRng)) : gmap SpIdentifier SpSigningCommitments :=
  foldl (fun m s => <[sp_key_identifier s.1 := (sp_commit s.1 s.2).2]> m) ∅ signers.
Definition signing_package (signers : list (SpKeyPackage * SpRng)) (m : bytes) : SpSigningPackage :=
  sp_package_new (signing_commitments signers) m.
(** At least [min] distinct holders of shares of [pk]. *)
Definition signing_quorum (max min : u16) (pk : SpPublicKeyPackage) (signers : list (SpKeyPackage * SpRng)) : Prop :=
  Forall (dkg_share max min pk) signers.*1 /\ NoDup (sp_key_identifier <$> signers.*1) /\
  2 <= uval min <= Z.of_nat (length signers).
End Signing.

(** FROST signing is complete: when a quorum of holders of shares from one key
    generation commit, each of them can sign the package of their commitments,
    and exactly their shares aggregate to a signature, which serializes. *)
Class SecpSigning {Sp : FrostSecp256k1} := {
  sp_sign_ok max min pk signers m kp rng :
    signing_quorum max min pk signers -> (kp, rng) ∈ signers ->
    exists sh, sp_sign (signing_package signers m) (sp_commit kp rng).1 kp = Ok sh;
  sp_aggregate_ok max min pk signers m shares :
    signing_quorum max min pk signers ->
    dom shares = dom (signing_commitments signers) ->
    (forall kp rng, (kp, rng) ∈ signers -> exists sh, shares !! sp_key_identifier kp = Some sh /\
       sp_sign (signing_package signers m) (sp_commit kp rng).1 kp = Ok sh) ->
    exists sig b, sp_aggregate (signing_package signers m) shares pk = Ok sig /\ sp_sig_serialize sig = Ok b
}.

(** ** The phase completes *)

Section Honest.
Context {Hs : Sha256} {Sp : FrostSecp256k1} {Sg : SecpSigning}.

(** What a participant contributes to the evaluation of [alpha]. *)
Definition signer (alpha : DigestBytes) (p : Secp256k1FrostParticipant) : SpKeyPackage * SpRng :=
  (sp_key_package p, sp_std_rng (secp_dvrf_nonce_seed p (arr (as_bytes alpha)))).
Definition eval_of (alpha : DigestBytes) (p : Secp256k1FrostParticipant) : Secp256k1PartialEval :=
  let s := signer alpha p in
  MkSecp256k1PartialEval (sp_verifier_id p) (MkSpCommitment (sp_key_identifier s.1) (sp_commit s.1 s.2).2)
    (MkSpNonces (sp_commit s.1 s.2).1).

Lemma partial_eval_eq p alpha : partial_eval p (MkSecp256k1DvrfInput alpha) = Ok (eval_of alpha p).
Proof.
  unfold partial_eval, secp_round1_dvrf, eval_of, signer. cbn [sp_alpha fst snd]. by destruct (sp_commit _ _).
Qed.

Lemma commitments_eq alpha ps :
  foldl (fun m c => <[sc_identifier c := sc_inner c]> m) ∅ (spp_commitment <$> (eval_of alpha <$> ps))
  = signing_commitments (signer alpha <$> ps).
Proof.
  unfold signing_commitments. generalize (∅ : gmap SpIdentifier SpSigningCommitments).
  induction ps as [|p ps IH]; intros m; [done|]. apply IH.
Qed.

(** Participants with the generators of their nonces sign and aggregate. *)
Definition with_rng (pr : Secp256k1FrostParticipant * SpRng) : SpKeyPackage * SpRng := (sp_key_package pr.1, pr.2).
Definition share_round2 (pkg : Secp256k1SigningPackage) (pr : Secp256k1FrostParticipant * SpRng) : result CryptoError Secp256k1SignatureShare :=
  secp_round2 pr.1 pkg (MkSpNonces (sp_commit (sp_key_package pr.1) pr.2).1).

Lemma signing_honest max min gk m prs :
  signing_quorum max min (sg_pub_key_package gk) (with_rng <$> prs) ->
  let pkg := MkSpPackage (signing_package (with_rng <$> prs) m) in
  exists shares a, try_map (share_round2 pkg) prs = Ok shares /\ secp256k1_aggregate_signature_shares pkg shares gk = Ok a.
Proof using Sg.
  intros Hq pkg.
  assert (Hsign : forall pr, pr ∈ prs -> exists sh, sp_sign (ssp_inner pkg) (sp_commit (sp_key_package pr.1) pr.2).1 (sp_key_package pr.1) = Ok sh).
  { intros pr Hp. apply (sp_sign_ok max min _ _ _ _ _ Hq). apply list_elem_of_fmap. by exists pr. }
  assert (exists shares, try_map (share_round2 pkg) prs = Ok shares /\
    Forall2 (fun pr s => ss_identifier s = sp_key_identifier (sp_key_package pr.1) /\
      sp_sign (ssp_inner pkg) (sp_commit (sp_key_package pr.1) pr.2).1 (sp_key_package pr.1) = Ok (ss_inner s)) prs shares)
    as (shares & Hshares & Hsh).
  { clear Hq. clearbody pkg. induction prs as [|pr prs IH]; [by exists []|].
    destruct (Hsign pr) as [sh Hs1]; [set_solver|]. destruct IH as (shs & Hshs & Hf); [intros; apply Hsign; set_solver|].
    exists (MkSpShare (sp_key_identifier (sp_key_package pr.1)) sh :: shs). split; [|by constructor].
    assert (share_round2 pkg pr = Ok (MkSpShare (sp_key_identifier (sp_key_package pr.1)) sh)) as Hr.
    { unfold share_round2, secp_round2. cbn [sp_nonces_0]. by rewrite Hs1. }
    cbn [try_map]. rewrite Hr. cbn [mbind result_bind]. by rewrite Hshs. }
  exists shares. unfold secp256k1_aggregate_signature_shares. set (share_map := foldl _ ∅ shares).
  assert (Hids : ss_identifier <$> shares = (fun pr => sp_key_identifier (sp_key_package pr.1)) <$> prs).
  { clear Hq Hsign Hshares. clearbody pkg. induction Hsh as [|p s l shs [Hi _] _ IH]; [done|]. csimpl. by rewrite Hi, IH. }
  assert (Hnd : NoDup (ss_identifier <$> shares)).
  { rewrite Hids. destruct Hq as (_ & Hnd & _). by rewrite <- !list_fmap_compose in Hnd. }
  destruct (sp_aggregate_ok max min (sg_pub_key_package gk) (with_rng <$> prs) m share_map Hq) as (sig & b & Hsig & Hb).
  - unfold share_map, signing_commitments. rewrite !foldl_insert_of_dom, Hids, <- list_fmap_compose. done.
  - intros kp rng (pr & [= -> ->] & Hp)%list_elem_of_fmap. apply list_elem_of_lookup in Hp as [k Hk].
    destruct (Forall2_lookup_l _ _ _ _ _ Hsh Hk) as (s & Hs1 & Hi & Hss). exists (ss_inner s). split; [|exact Hss].
    rewrite <- Hi. apply foldl_insert_of_lookup; [done|]. by eapply list_elem_of_lookup_2.
  - cbn [pkg ssp_inner]. rewrite Hsig. cbn [map_err mbind result_bind]. rewrite Hb. cbn [map_err mbind result_bind]. eauto.
Qed.

Lemma dvrf_combine_honest max min gk alpha ps :
  signing_quorum max min (sg_pub_key_package gk) (signer alpha <$> ps) ->
  exists out, dvrf_combine gk (MkSecp256k1DvrfInput alpha) (eval_of alpha <$> ps) ps = Ok out.
Proof using Sg.
  set (prs := (fun p => (p, (signer alpha p).2)) <$> ps).
  assert (signer alpha <$> ps = with_rng <$> prs) as Hprs by (unfold prs; by rewrite <- list_fmap_compose).
  intros Hq. unfold dvrf_combine. cbn [sp_alpha]. unfold secp256k1_build_signing_package.
  rewrite commitments_eq. rewrite Hprs in Hq |- *. fold (signing_package (with_rng <$> prs) (arr (as_bytes alpha))).
  destruct (signing_honest max min gk (arr (as_bytes alpha)) prs Hq) as (shares & a & Hsh & Ha). cbn [mbind result_bind].
  assert (Hr2 : forall pkg l, round2_shares l (eval_of alpha <$> l) pkg = try_map (share_round2 pkg) ((fun p => (p, (signer alpha p).2)) <$> l)).
  { intros pkg. unfold round2_shares. induction l as [|p l IH]; [done|]. cbn [fmap list_fmap zip zip_with try_map].
    change (secp_round2 p pkg (spp_nonces (eval_of alpha p))) with (share_round2 pkg (p, (signer alpha p).2)).
    destruct (share_round2 pkg _); [|done]. cbn [mbind result_bind]. by rewrite <- IH. }
  rewrite Hr2. fold prs. rewrite Hsh. cbn [mbind result_bind]. rewrite Ha. cbn [mbind result_bind]. eauto.
Qed.

Lemma position_lookup vids k v : NoDup vids -> vids !! k = Some v -> position v vids = Some k.
Proof.
  intros Hnd Hk. unfold position. destruct (list_find (fun w => w = v) vids) as [[j w]|] eqn:Hf; cbn [fmap option_fmap option_map fst].
  - apply list_find_Some in Hf as (Hj & -> & _). f_equal. by eapply NoDup_lookup.
  - rewrite list_find_None, Forall_forall in Hf. destruct (Hf v); [by eapply list_elem_of_lookup_2|done].
Qed.

(** An orchestrator as the key generation leaves it. *)
Definition rc_ready (self : RcPhaseOrchestrator) (gk : Secp256k1GroupKey) : Prop :=
  let vids := rc_verifier_ids self in
  NoDup vids /\ length (rc_dkg_outputs self) = length vids /\ (0 < length vids)%nat /\ Z.of_nat (length vids) <= 65535 /\
  uval (rc_threshold self) <= Z.of_nat (length vids) /\
  forall k o v, rc_dkg_outputs self !! k = Some o -> vids !! k = Some v ->
    spo_group_key o = gk /\
    dkg_share (u_of_Z 16 (Z.of_nat (length vids))) (u_of_Z 16 (uval (rc_threshold self))) (sg_pub_key_package gk)
      (sp_key_package (spo_participant o)) /\
    sp_try_from (u_of_Z 16 (Z.of_nat k + 1)) = Ok (sp_key_identifier (sp_key_package (spo_participant o))).

Lemma rc_run_dkg_ready vids threshold rngs :
  2 <= uval threshold <= Z.of_nat (length vids) -> Z.of_nat (length vids) <= 65535 -> NoDup vids ->
  exists self gk, rc_run_dkg rngs vids threshold = Ok self /\ rc_ready self gk /\
    rc_verifier_ids self = vids /\ rc_threshold self = threshold.
Proof.
  intros Ht Hlen Hnd. destruct (run_completes vids threshold rngs Ht Hlen) as (outs & gk & Hrun & Hl & Hout & _).
  exists (MkRcPhaseOrchestrator outs vids threshold), gk. unfold rc_run_dkg. rewrite Hrun. split; [done|].
  split; [|done]. unfold rc_ready. cbn [rc_verifier_ids rc_dkg_outputs rc_threshold]. split_and!; try done; [lia|lia|].
  intros k o v Ho Hv. destruct (Hout k o v Ho Hv) as (? & _ & ? & ?). done.
Qed.

(** The outputs at chosen positions, and what their holders evaluate. *)
Lemma rc_evals self gk idxs params :
  rc_ready self gk -> Forall (fun i => (i < length (rc_verifier_ids self))%nat) idxs -> NoDup idxs ->
  exists evals ps, try_map (fun i => rc_partial_eval self i params) idxs = Ok evals /\
    participant_refs self evals = Ok ps /\ rpe_inner <$> evals = eval_of (rc_alpha params) <$> ps /\ length ps = length idxs /\
    Forall (fun p => dkg_share (u_of_Z 16 (Z.of_nat (length (rc_verifier_ids self)))) (u_of_Z 16 (uval (rc_threshold self)))
      (sg_pub_key_package gk) (sp_key_package p)) ps /\
    Forall2 (fun i p => sp_try_from (u_of_Z 16 (Z.of_nat i + 1)) = Ok (sp_key_identifier (sp_key_package p))) idxs ps.
Proof.
  intros (Hnd & Hlo & _ & _ & _ & Hout) Hin _. unfold participant_refs. induction Hin as [|i idxs Hi _ IH].
  { exists [], []. split_and!; by try constructor. }
  destruct IH as (evals & ps & He & Hr & Hm & Hlp & Hsh & Hid).
  destruct (lookup_lt_is_Some_2 _ _ Hi) as [v Hv]. rewrite <- Hlo in Hi. destruct (lookup_lt_is_Some_2 _ _ Hi) as [o Ho].
  destruct (Hout i o v Ho Hv) as (_ & Hs1 & Hid1).
  exists (MkRcPartialEval v (eval_of (rc_alpha params) (spo_participant o)) :: evals), (spo_participant o :: ps).
  split_and!; [| |by csimpl; rewrite Hm|by csimpl; rewrite Hlp|by constructor|by constructor].
  - assert (H1 : rc_partial_eval self i params = Ok (MkRcPartialEval v (eval_of (rc_alpha params) (spo_participant o)))).
    { unfold rc_partial_eval. rewrite Ho. cbn [ok_or mbind result_bind]. rewrite partial_eval_eq.
      cbn [map_err fails mbind result_bind]. by rewrite Hv. }
    cbn [try_map]. rewrite H1. cbn [mbind result_bind]. by rewrite He.
  - cbn [omap list_omap rpe_verifier_id]. rewrite (position_lookup _ i) by done. cbn [try_map]. rewrite Ho.
    cbn [ok_or mbind result_bind]. by rewrite Hr.
Qed.

Lemma identifiers_distinct (idxs : list nat) (ps : list Secp256k1FrostParticipant) :
  Forall (fun i => Z.of_nat i < 65535) idxs -> NoDup idxs ->
  Forall2 (fun i p => sp_try_from (u_of_Z 16 (Z.of_nat i + 1)) = Ok (sp_key_identifier (sp_key_package p))) idxs ps ->
  NoDup ((fun p => sp_key_identifier (sp_key_package p)) <$> ps).
Proof.
  intros Hlt Hnd Hid. apply NoDup_alt. intros j k x. rewrite !list_lookup_fmap, !fmap_Some.
  intros (p & Hp & ->) (q & Hq & Heq). destruct (Forall2_lookup_r _ _ _ _ _ Hid Hp) as (i1 & Hi1 & H1).
  destruct (Forall2_lookup_r _ _ _ _ _ Hid Hq) as (i2 & Hi2 & H2). rewrite <- Heq in H2.
  assert (Hz : forall a b i i', a < 65535 -> b < 65535 -> 0 <= a -> 0 <= b -> sp_try_from (u_of_Z 16 (a + 1)) = Ok i ->
    sp_try_from (u_of_Z 16 (b + 1)) = Ok i' -> sp_le i i' -> a <= b).
  { intros a b i i' Ha Hb Ha0 Hb0 H1' H2' Hle. apply (sp_identifier_le _ _ _ _ H1' H2') in Hle.
    rewrite !uval_of_Z_small in Hle by (change (2 ^ 16) with 65536; lia). lia. }
  pose proof (proj1 (Forall_lookup _ _) Hlt _ _ Hi1). pose proof (proj1 (Forall_lookup _ _) Hlt _ _ Hi2).
  assert (Hrefl : sp_le (sp_key_identifier (sp_key_package p)) (sp_key_identifier (sp_key_package p))) by (destruct sp_le_order as [[[Hr _] _] _]; apply Hr).
  assert (i1 = i2) as <-; [|by eapply NoDup_lookup].
  assert (Z.of_nat i1 <= Z.of_nat i2) by (eapply (Hz (Z.of_nat i1) (Z.of_nat i2)); [done|done|lia|lia|exact H1|exact H2|exact Hrefl]).
  assert (Z.of_nat i2 <= Z.of_nat i1) by (eapply (Hz (Z.of_nat i2) (Z.of_nat i1)); [done|done|lia|lia|exact H2|exact H1|exact Hrefl]).
  lia.
Qed.

Lemma rc_combine_completes self gk idxs params :
  rc_ready self gk -> 2 <= uval (rc_threshold self) ->
  Forall (fun i => (i < length (rc_verifier_ids self))%nat) idxs -> NoDup idxs ->
  uval (rc_threshold self) <= Z.of_nat (length idxs) ->
  exists evals out, try_map (fun i => rc_partial_eval self i params) idxs = Ok evals /\ rc_combine self params evals = Ok out /\
    rc_phase_verify out = Ok tt /\ rc_output_alpha out = rc_alpha params /\
    rc_rand out = derive_rand (sigma (sp_proof (rc_dvrf_output out))) /\
    sp_group_verifying_key (sp_proof (rc_dvrf_output out)) = secp_verifying_key_bytes gk.
Proof using Sg.
  intros Hready Ht2 Hin Hnd Hlen. destruct (rc_evals self gk idxs params Hready Hin Hnd) as (evals & ps & He & Hr & Hm & Hlp & Hsh & Hid).
  pose proof Hready as (_ & Hlo & Hpos & Hmax & Htn & Hout).
  exists evals. assert (Hle : length evals = length idxs) by by apply try_map_length in He.
  assert (Hq : signing_quorum (u_of_Z 16 (Z.of_nat (length (rc_verifier_ids self)))) (u_of_Z 16 (uval (rc_threshold self)))
    (sg_pub_key_package gk) (signer (rc_alpha params) <$> ps)).
  { split_and!.
    - rewrite <- list_fmap_compose. by apply Forall_fmap.
    - rewrite <- !list_fmap_compose. apply (identifiers_distinct idxs); [|done..].
      eapply Forall_impl; [exact Hin|]. cbn. intros i Hi. lia.
    - rewrite uval_of_Z_small by (change (2 ^ 16) with 65536; lia). done.
    - rewrite length_fmap, Hlp. rewrite uval_of_Z_small by (change (2 ^ 16) with 65536; lia). done. }
  destruct (dvrf_combine_honest _ _ _ _ _ Hq) as [out Ho]. destruct (dvrf_combine_Ok _ _ _ _ _ Ho) as (Hver & Hvk & Hrand).
  eexists. split; [done|]. split.
  - unfold rc_combine. destruct (Z.ltb_spec (Z.of_nat (length evals)) (uval (rc_threshold self))); [lia|].
    unfold rc_group_key. destruct (lookup_lt_is_Some_2 (rc_verifier_ids self) 0 Hpos) as [v Hv]. rewrite <- Hlo in Hpos.
    destruct (lookup_lt_is_Some_2 _ _ Hpos) as [o Hk]. rewrite Hk. cbn [ok_or mbind result_bind].
    destruct (Hout _ _ _ Hk Hv) as (-> & _). rewrite Hr. cbn [mbind result_bind]. rewrite Hm, Ho. done.
  - cbn [rc_output_alpha rc_rand rc_dvrf_output]. split_and!; try done. unfold rc_phase_verify.
    cbn [rc_output_alpha rc_dvrf_output]. by rewrite Hver.
Qed.

(** The randomness creation phase completes: for distinct verifiers, at most
    65535 of them, and a threshold between two and their number, key generation
    leaves an orchestrator from which every choice of at least [threshold]
    distinct verifiers can evaluate and combine any input, without a failure or a
    panic, to an output that verifies, under the group key of the ceremony, as
    the hash of the signature in its proof; in particular [run_rc_phase] does. *)
Theorem rc_phase_completes vids threshold rngs :
  2 <= uval threshold <= Z.of_nat (length vids) -> Z.of_nat (length vids) <= 65535 -> NoDup vids ->
  exists self gk, rc_run_dkg rngs vids threshold = Ok self /\ rc_group_key self = Ok gk /\
    (forall params idxs, Forall (fun i => (i < length vids)%nat) idxs -> NoDup idxs -> uval threshold <= Z.of_nat (length idxs) ->
       exists evals out, try_map (fun i => rc_partial_eval self i params) idxs = Ok evals /\ rc_combine self params evals = Ok out /\
         rc_phase_verify out = Ok tt /\ rc_output_alpha out = rc_alpha params /\
         rc_rand out = derive_rand (sigma (sp_proof (rc_dvrf_output out))) /\
         sp_group_verifying_key (sp_proof (rc_dvrf_output out)) = secp_verifying_key_bytes gk) /\
    forall params, exists out, run_rc_phase self params = Ok out /\ rc_phase_verify out = Ok tt.
Proof using Sg.
  intros Ht Hlen Hnd. destruct (rc_run_dkg_ready vids threshold rngs Ht Hlen Hnd) as (self & gk & Hrun & Hready & <- & <-).
  exists self, gk. split_and!; [done| | |].
  - destruct Hready as (_ & Hlo & Hpos & _ & _ & Hout). destruct (lookup_lt_is_Some_2 (rc_verifier_ids self) 0 Hpos) as [v Hv].
    rewrite <- Hlo in Hpos. destruct (lookup_lt_is_Some_2 _ _ Hpos) as [o Hk]. unfold rc_group_key. rewrite Hk.
    cbn [ok_or mbind result_bind]. by destruct (Hout _ _ _ Hk Hv) as (-> & _).
  - intros params idxs Hin Hndi Hl. apply rc_combine_completes; [done|lia|done..].
  - intros params. edestruct (rc_combine_completes self gk (seq 0 (Z.to_nat (uval (rc_threshold self)))) params)
      as (evals & out & He & Ho & Hv & _); [done|lia| |apply NoDup_seq|rewrite length_seq; lia|].
    { apply Forall_forall. intros i Hi%elem_of_seq. lia. }
    exists out. split; [|done]. unfold run_rc_phase. by rewrite He.
Qed.
End Honest.

(** Without verifiers, key generation succeeds and the phase panics. *)
Lemma empty_rc_phase_panics {Hs : Sha256} {Sp : FrostSecp256k1} rngs params :
  exists self, rc_run_dkg rngs [] (u_of_Z 64 0) = Ok self /\ run_rc_phase self params = Err (Panics "index out of bounds").
Proof. eexists. split; [reflexivity|]. reflexivity. Qed.

(** ** Concrete instance *)

Definition toy_secp_signing : SecpSigning (Sp:=toy_secp).
Proof.
  split.
  - intros max min pk signers m kp rng _ _. by eexists.
  - intros max min pk signers m shares (Hsh & _ & Hmin) _ Hall.
    destruct signers as [|[kp rng] signers]; [cbn in Hmin; lia|].
    destruct (Hall kp rng) as (sh & Hk & _); [by constructor|].
    exists (to_array 65 m), (arr (to_array 65 m)). split; [|reflexivity].
    change ((if (size shares =? 0)%nat then Err "no shares" else Ok (to_array 65 m)) = Ok (to_array 65 m)).
    destruct (Nat.eqb_spec (size shares) 0) as [Hz|_]; [|done]. apply map_size_empty_inv in Hz. subst shares. discriminate Hk.
Qed.

Lemma rc_phase_completes_witness :
  exists self out, rc_run_dkg (Sp:=toy_secp) (fun k => [byte (Z.of_nat k)]) [vid 1; vid 2; vid 3] (u_of_Z 64 2) = Ok self /\
    run_rc_phase (Hs:=toy_sha256) (Sp:=toy_secp) self (MkRcPhaseParams (digest 7)) = Ok out /\
    rc_phase_verify (Hs:=toy_sha256) (Sp:=toy_secp) out = Ok tt.
Proof.
  destruct (rc_phase_completes (Hs:=toy_sha256) (Sp:=toy_secp) (Sg:=toy_secp_signing) [vid 1; vid 2; vid 3] (u_of_Z 64 2)
    (fun k => [byte (Z.of_nat k)])) as (self & gk & Hrun & _ & _ & Hphase).
  - vm_compute. split; discriminate.
  - vm_compute. discriminate.
  - apply (bool_decide_unpack _). vm_compute. exact I.
  - destruct (Hphase (MkRcPhaseParams (digest 7))) as (out & Hout & Hver). exists self, out. split; [exact Hrun|].
    split; [exact Hout | exact Hver].
Defined.
