(* ===== verification/ZkBackends.v ===== *)
(** * Groth16 backends: handshake and session-binding circuits

    Models [zk/src/circuit.rs] (the MiMC circuits), [zk/src/backend.rs] (the
    backend [GrothZkBackend] of the trait [ZkTlsBackend]) and
    [zk/src/tls_session_binding.rs] (the circuit that ties record MACs to the
    MAC key, with its proofs).

    The proof system is the external crate [ark-groth16] at a circuit type: the
    class [Snark]. Circuits are the lists of public inputs and enforced
    equalities of CoSnark.v. *)

From S2P Require Import Prelude Core Session Attestation Threshold Registry Dctls Network Errors Frost Verify.
From S2P Require Import Sha256Gadget HmacGadget CoSnark FrostAux Coordinator NodeTransport TlsEngine.
Import Bn254.

(** Every operation may report an error; generators are arguments. *)
Class Snark (C : Type) := {
  SPk : Type;
  SVk : Type;
  SPvk : Type;
  SPf : Type;
  SRng : Type;
  s_seed_from_u64 : u64 -> SRng;
  s_setup : C -> SRng -> result string (SPk * SVk);
  s_process_vk : SVk -> result string SPvk;
  s_prove : SPk -> C -> SRng -> result string SPf;
  s_verify : SPvk -> list Fr -> SPf -> result string bool;
  s_pf_serialize : SPf -> result string bytes;
  s_pf_deserialize : bytes -> result string SPf;
  s_fr_serialize : Fr -> result string bytes;
  s_fr_deserialize : bytes -> result string Fr;
  s_pvk_serialize : SPvk -> result string bytes
}.

(** What the crate promises for a circuit type of one shape, whose constraints
    are [synth]: serialization is inverted by deserialization, field elements
    take 32 bytes, and a satisfied circuit can be proved under keys set up for any
    circuit of the type, with a proof that verifies against its public inputs. *)
Class SnarkLaws {C : Type} {E : Type} (synth : C -> result E synthesis) (S : Snark C) : Prop := {
  s_pf_roundtrip pf : exists b, s_pf_serialize pf = Ok b /\ s_pf_deserialize b = Ok pf;
  s_fr_roundtrip x : exists b, s_fr_serialize x = Ok b /\ length b = 32%nat /\ s_fr_deserialize b = Ok x;
  snark_complete c0 c rng keys pvk rng' s :
    s_setup c0 rng = Ok keys -> s_process_vk keys.2 = Ok pvk ->
    synth c = Ok s -> Forall (fun p => p.1 = p.2) (equalities s) ->
    exists pf, s_prove keys.1 c rng' = Ok pf /\ s_verify pvk (public_inputs s) pf = Ok true
}.

(** ** The MiMC circuits (circuit.rs) *)

Record HspCircuit := MkHspCircuit {
  hc_session_id_fe : Fr;
  hc_rand_fe : Fr;
  hc_cert_hash_fe : Fr;
  hc_zk_binding : Fr;
  hc_dvrf_exporter_fe : Fr;
  hc_ht_hash_fe : Fr
}.
Record BindingCircuit := MkBindingCircuit {
  bc_session_id_fe : Fr;
  bc_rand_fe : Fr;
  bc_hsp_commitment_fe : Fr;
  bc_qp_transcript_fe : Fr;
  bc_binding_digest : Fr;
  bc_pgp_commitment_fe : Fr
}.

Section Circuits.
Context {Hs : Sha256}.

Definition HspCircuit_generate_constraints (self : HspCircuit) : result (failure SynthesisError) synthesis :=
  let inputs := [hc_session_id_fe self; hc_rand_fe self; hc_dvrf_exporter_fe self; hc_cert_hash_fe self; hc_ht_hash_fe self] in
  computed ← ok_or (Panics "assertion failed") (mimc7_sponge_gadget inputs mimc_constants);
  Ok {| public_inputs := [hc_session_id_fe self; hc_rand_fe self; hc_cert_hash_fe self; hc_zk_binding self];
        equalities := [(computed, hc_zk_binding self)] |}.

Definition BindingCircuit_generate_constraints (self : BindingCircuit) : result (failure SynthesisError) synthesis :=
  let inputs := [bc_session_id_fe self; bc_rand_fe self; bc_hsp_commitment_fe self; bc_qp_transcript_fe self;
                 bc_pgp_commitment_fe self] in
  computed ← ok_or (Panics "assertion failed") (mimc7_sponge_gadget inputs mimc_constants);
  Ok {| public_inputs := [bc_session_id_fe self; bc_rand_fe self; bc_hsp_commitment_fe self; bc_qp_transcript_fe self;
                          bc_binding_digest self];
        equalities := [(computed, bc_binding_digest self)] |}.
End Circuits.

(** ** The backend (backend.rs) *)

Inductive ZkError :=
  | ZkSetup (msg : string)
  | ZkProve (msg : string)
  | ZkSerialize (msg : string)
  | ZkBadProof (msg : string).
Definition ZkError_to_string (e : ZkError) : string :=
  match e with
  | ZkSetup m => "trusted setup failed: " +:+ m
  | ZkProve m => "proof generation failed: " +:+ m
  | ZkSerialize m => "serialization failed: " +:+ m
  | ZkBadProof m => "invalid proof: " +:+ m
  end.

Definition dummy_hsp_circuit : HspCircuit := MkHspCircuit zero zero zero zero zero zero.
Definition GROTH_ENGINE_TAG : string := "dx-dctls/groth16-mimc7-v1".
(** [into_bigint().to_bytes_le()], 32 bytes for this field. *)
Definition to_bytes_le (x : Fr) : bytes := reverse (be_bytes 32 (fr_val x)).

Section Backend.
Context {Hs : Sha256} {S : Snark HspCircuit}.

Record GrothZkBackend := MkGrothZkBackend { gz_pk : SPk; gz_pvk : SPvk }.

Definition GrothZkBackend_setup : result ZkError GrothZkBackend :=
  keys ← map_err ZkSetup (s_setup dummy_hsp_circuit (s_seed_from_u64 (u_of_Z 64 0x746c735f61747465)));
  pvk ← map_err ZkSetup (s_process_vk keys.2);
  Ok (MkGrothZkBackend keys.1 pvk).

(** [serialize_compressed(..).unwrap_or_default()] into an empty buffer. *)
Definition export_pvk (self : GrothZkBackend) : bytes := unwrap_or [] (s_pvk_serialize (gz_pvk self)).

(** The constants have the length the sponge asserts, so it does not panic. *)
Definition hsp_binding (sid : SessionId) (rand exporter cert ht : DigestBytes) : Fr :=
  default zero (mimc7_sponge [bytes16_to_fe (as_bytes sid); bytes31_to_fe (as_bytes rand); bytes31_to_fe (as_bytes exporter);
    bytes31_to_fe (as_bytes cert); bytes31_to_fe (as_bytes ht)] mimc_constants).

Definition prove_hsp_internal (rng : SRng) (self : GrothZkBackend) (sid : SessionId) (rand exporter cert ht : DigestBytes)
    : result ZkError (DigestBytes * bytes) :=
  let binding := hsp_binding sid rand exporter cert ht in
  let circuit := {| hc_session_id_fe := bytes16_to_fe (as_bytes sid); hc_rand_fe := bytes31_to_fe (as_bytes rand);
    hc_cert_hash_fe := bytes31_to_fe (as_bytes cert); hc_zk_binding := binding;
    hc_dvrf_exporter_fe := bytes31_to_fe (as_bytes exporter); hc_ht_hash_fe := bytes31_to_fe (as_bytes ht) |} in
  proof ← map_err ZkProve (s_prove (gz_pk self) circuit rng);
  proof_bytes ← map_err ZkSerialize (s_pf_serialize proof);
  Ok (MkDigestBytes (to_array 32 (to_bytes_le binding)), proof_bytes).

Definition verify_hsp_zk (self : GrothZkBackend) (sid : SessionId) (rand cert binding : DigestBytes) (proof_bytes : bytes)
    : result ZkError unit :=
  let binding_fe := from_le_bytes_mod_order (arr (as_bytes binding)) in
  let public_inputs := [bytes16_to_fe (as_bytes sid); bytes31_to_fe (as_bytes rand); bytes31_to_fe (as_bytes cert); binding_fe] in
  proof ← map_err (fun _ => ZkBadProof "deserialization failed") (s_pf_deserialize proof_bytes);
  valid ← map_err ZkBadProof (s_verify (gz_pvk self) public_inputs proof);
  ensure (ZkBadProof "Groth16 verification rejected") valid.

Definition groth_prove_session_params (rng : SRng) (self : GrothZkBackend) (sid : SessionId) (rand : DigestBytes)
    (sps : SessionParamsSecret) (spp : SessionParamsPublic) : result DctlsError HSPProof :=
  let ht := compute_handshake_transcript_hash (spp_server_cert_hash spp) (spp_tls_version spp) (spp_server_name spp)
    (spp_established_at spp) in
  let commitment := HSPProof_compute_commitment sid rand (sps_dvrf_exporter sps) (spp_server_cert_hash spp) ht in
  r ← map_err (fun e => ZkProofFailed (ZkError_to_string e))
        (prove_hsp_internal rng self sid rand (sps_dvrf_exporter sps) (spp_server_cert_hash spp) ht);
  let '(binding, proof_bytes) := r in
  Ok {| hsp_session_id := sid; hsp_rand_value := rand; hsp_dvrf_exporter := DigestBytes_ZERO;
        hsp_commitment := commitment; hsp_server_cert_hash := spp_server_cert_hash spp; handshake_transcript_hash := ht;
        hsp_tls_version := spp_tls_version spp; hsp_server_name := spp_server_name spp;
        hsp_established_at := spp_established_at spp; hsp_engine_tag := GROTH_ENGINE_TAG;
        zk_proof := Some proof_bytes; zk_binding := Some binding |}.

Definition groth_verify_session_params (self : GrothZkBackend) (proof : HSPProof) (rand cert : DigestBytes)
    : result DctlsError unit :=
  if negb (bool_decide (hsp_rand_value proof = rand)) then Err RandMismatch
  else if negb (bool_decide (hsp_server_cert_hash proof = cert)) then Err CertHashMismatch
  else
    match zk_binding proof, zk_proof proof with
    | Some b, Some p => map_err (fun e => ZkProofFailed (ZkError_to_string e)) (verify_hsp_zk self (hsp_session_id proof) rand cert b p)
    | _, _ => Err (ZkProofFailed "missing ZK proof fields")
    end.

Definition GrothBackend (rng : SRng) (self : GrothZkBackend) : ZkTlsBackend := {|
  prove_session_params := groth_prove_session_params rng self;
  verify_session_params := groth_verify_session_params self;
  prove_query_response sid rand query response := Ok (QueryRecord_build sid rand query response);
  verify_query_response := verify_query_record;
  prove_pgp _ _ qr statement hsp := Ok (PGPProof_generate (qr_session_id qr) (qr_rand_value qr) qr statement hsp);
  verify_pgp := verify_pgp_proof;
  backend_tag := "groth16/mimc7-bn254-v1"
|}.
End Backend.

(** ** The session-binding circuit (tls_session_binding.rs) *)

Inductive SessionBindingError :=
  | SbSetup (msg : string)
  | SbProve (msg : string)
  | SbVerify
  | SbSerialize (msg : string).

Record TlsRecordHeader := MkTlsRecordHeader {
  seq_num : u64;
  content_type : u8;
  rh_version : array 2;
  data_len : u16
}.
Definition header_to_bytes (self : TlsRecordHeader) : array 13 :=
  to_array 13 (u64_be (seq_num self) ++ [content_type self] ++ arr (rh_version self) ++ be_bytes 2 (uval (data_len self))).

Record TlsSessionBindingCircuit := MkTlsSessionBindingCircuit {
  sb_k_mac_commitment_fe : Fr;
  sb_rand_binding_fe : Fr;
  mac_commitment_q_fe : Fr;
  mac_commitment_r_fe : Fr;
  sb_k_mac : array 32;
  header_q : TlsRecordHeader;
  header_r : TlsRecordHeader;
  query_data_hash : array 32;
  response_data_hash : array 32;
  mac_q : array 32;
  mac_r : array 32
}.

Definition TlsSessionBindingCircuit_new (k_mac rand_binding : array 32) (hq hr : TlsRecordHeader)
    (qh rh mq mr : array 32) : TlsSessionBindingCircuit :=
  let rand_fe := bytes32_to_fr rand_binding in
  {| sb_k_mac_commitment_fe := k_mac_commitment k_mac rand_fe; sb_rand_binding_fe := rand_fe;
     mac_commitment_q_fe := add (bytes32_to_fr mq) rand_fe; mac_commitment_r_fe := add (bytes32_to_fr mr) rand_fe;
     sb_k_mac := k_mac; header_q := hq; header_r := hr; query_data_hash := qh; response_data_hash := rh;
     mac_q := mq; mac_r := mr |}.

(** What the MAC of a record covers. *)
Definition hmac_input (header : TlsRecordHeader) (data_hash : array 32) : bytes :=
  arr (header_to_bytes header) ++ arr data_hash.

Section SessionBinding.
Context {Ark : ArkBits} {Hs : Sha256}.

Definition TlsSessionBindingCircuit_dummy : TlsSessionBindingCircuit :=
  let h := {| seq_num := u_of_Z 64 0; content_type := byte 23; rh_version := to_array 2 [byte 3; byte 3];
              data_len := u_of_Z 16 32 |} in
  let data := arr (header_to_bytes h) ++ replicate 32 (byte 0) in
  let mac := to_array 32 (hmac_sha256_gadget (replicate 32 (byte 1)) data) in
  TlsSessionBindingCircuit_new (array_repeat 32 (byte 1)) (array_repeat 32 (byte 0)) h h
    (array_repeat 32 (byte 0)) (array_repeat 32 (byte 0)) mac mac.

Definition SessionBinding_generate_constraints (self : TlsSessionBindingCircuit) : result SynthesisError synthesis :=
  let rand_binding := sb_rand_binding_fe self in
  let k_mac_vars := u8_new_witness <$> arr (sb_k_mac self) in
  let computed_k_mac_commit := add (pack_bytes_to_fpvar k_mac_vars) rand_binding in
  let hdr_q_vars := u8_new_witness <$> arr (header_to_bytes (header_q self)) in
  let hdr_r_vars := u8_new_witness <$> arr (header_to_bytes (header_r self)) in
  let qdh_vars := u8_new_witness <$> arr (query_data_hash self) in
  let rdh_vars := u8_new_witness <$> arr (response_data_hash self) in
  computed_mac_q ← hmac_sha256_gadget_constrained k_mac_vars (hdr_q_vars ++ qdh_vars);
  let mac_commit_q := add (pack_bytes_to_fpvar computed_mac_q) rand_binding in
  computed_mac_r ← hmac_sha256_gadget_constrained k_mac_vars (hdr_r_vars ++ rdh_vars);
  let mac_commit_r := add (pack_bytes_to_fpvar computed_mac_r) rand_binding in
  Ok {| public_inputs := [sb_k_mac_commitment_fe self; rand_binding; mac_commitment_q_fe self; mac_commitment_r_fe self];
        equalities := [(computed_k_mac_commit, sb_k_mac_commitment_fe self);
                       (mac_commit_q, mac_commitment_q_fe self);
                       (mac_commit_r, mac_commitment_r_fe self)] |}.

Context {S : Snark TlsSessionBindingCircuit}.

Record SessionBindingCrs := MkSessionBindingCrs { sb_pk : SPk; sb_pvk : SPvk }.
Record SessionBindingProof := MkSessionBindingProof {
  sb_groth16_bytes : bytes;
  sb_k_mac_commitment_bytes : bytes;
  sb_rand_binding_bytes : bytes;
  mac_commitment_q_bytes : bytes;
  mac_commitment_r_bytes : bytes
}.

Definition SessionBindingCrs_setup (rng : SRng) : result SessionBindingError SessionBindingCrs :=
  keys ← map_err SbSetup (s_setup TlsSessionBindingCircuit_dummy rng);
  pvk ← map_err SbSetup (s_process_vk keys.2);
  Ok (MkSessionBindingCrs keys.1 pvk).
(** [expect] panics where serialization fails: [None]. *)
Definition SessionBindingCrs_verifying_key_bytes (self : SessionBindingCrs) : option bytes :=
  match s_pvk_serialize (sb_pvk self) with Ok buf => Some buf | Err _ => None end.

Definition session_binding_prove (rng : SRng) (crs : SessionBindingCrs) (k_mac rand_binding : array 32)
    (hq hr : TlsRecordHeader) (qh rh mq mr : array 32) : result SessionBindingError SessionBindingProof :=
  let circuit := TlsSessionBindingCircuit_new k_mac rand_binding hq hr qh rh mq mr in
  proof ← map_err SbProve (s_prove (sb_pk crs) circuit rng);
  groth16_bytes ← map_err SbSerialize (s_pf_serialize proof);
  k_mac_commitment_bytes ← map_err SbSerialize (s_fr_serialize (sb_k_mac_commitment_fe circuit));
  rand_binding_bytes ← map_err SbSerialize (s_fr_serialize (sb_rand_binding_fe circuit));
  mac_q_bytes ← map_err SbSerialize (s_fr_serialize (mac_commitment_q_fe circuit));
  mac_r_bytes ← map_err SbSerialize (s_fr_serialize (mac_commitment_r_fe circuit));
  Ok (MkSessionBindingProof groth16_bytes k_mac_commitment_bytes rand_binding_bytes mac_q_bytes mac_r_bytes).

Definition session_binding_verify (pvk : SPvk) (proof : SessionBindingProof) (expected_k_mac_commitment_bytes : bytes)
    : result SessionBindingError unit :=
  let serialize what e := SbSerialize (what +:+ " deserialize: " +:+ e) in
  groth16_proof ← map_err (serialize "proof") (s_pf_deserialize (sb_groth16_bytes proof));
  k_mac_commit_fe ← map_err (serialize "k_mac_commitment") (s_fr_deserialize (sb_k_mac_commitment_bytes proof));
  rand_fe ← map_err (serialize "rand_binding") (s_fr_deserialize (sb_rand_binding_bytes proof));
  mac_q_fe ← map_err (serialize "mac_q") (s_fr_deserialize (mac_commitment_q_bytes proof));
  mac_r_fe ← map_err (serialize "mac_r") (s_fr_deserialize (mac_commitment_r_bytes proof));
  valid ← map_err SbProve (s_verify pvk [k_mac_commit_fe; rand_fe; mac_q_fe; mac_r_fe] groth16_proof);
  _ ← ensure SbVerify valid;
  match expected_k_mac_commitment_bytes with
  | [] => Ok tt
  | _ => expected_fe ← map_err (serialize "expected_k_mac_commitment") (s_fr_deserialize expected_k_mac_commitment_bytes);
         ensure SbVerify (bool_decide (k_mac_commit_fe = expected_fe))
  end.
End SessionBinding.

(** ** Field elements as bytes *)

Lemma be_val_snoc l b : be_val (l ++ [b]) = be_val l * 256 + uval b.
Proof. unfold be_val. by rewrite fold_left_app. Qed.
Lemma le_val_reverse l : le_val l = be_val (reverse l).
Proof.
  induction l as [|b l IH]; [done|]. unfold le_val in *. cbn [foldr]. rewrite IH, reverse_cons, be_val_snoc. lia.
Qed.

Lemma length_to_bytes_le x : length (to_bytes_le x) = 32%nat.
Proof. unfold to_bytes_le. by rewrite length_reverse, length_be_bytes. Qed.

Lemma le_val_to_bytes_le x : le_val (to_bytes_le x) = fr_val x.
Proof.
  unfold to_bytes_le. rewrite le_val_reverse, reverse_involutive, be_val_be_bytes. apply Z.mod_small.
  pose proof (fr_val_range x). split; [lia|]. eapply Z.lt_trans; [apply fr_val_range|]. reflexivity.
Qed.

Lemma from_to_bytes_le x : from_le_bytes_mod_order (arr (to_array 32 (to_bytes_le x))) = x.
Proof. rewrite arr_to_array by apply length_to_bytes_le. unfold from_le_bytes_mod_order. rewrite le_val_to_bytes_le. apply of_Z_val. Qed.

(** Packing reaches every field element. *)
Lemma bytes32_to_fr_onto x : bytes32_to_fr (to_array 32 (to_bytes_le x)) = x.
Proof.
  rewrite bytes32_to_fr_eq, arr_to_array, le_val_to_bytes_le by apply length_to_bytes_le.
  rewrite Z.mod_small; [apply of_Z_val|]. pose proof (fr_val_range x). split; [lia|].
  eapply Z.lt_trans; [apply fr_val_range|]. reflexivity.
Qed.

(** ** The handshake backend *)

Section BackendProps.
Context {Hs : Sha256} {S : Snark HspCircuit}.

Lemma sponge_total inputs : exists h, mimc7_sponge inputs mimc_constants = Some h.
Proof.
  apply (proj2 (proj2 (mimc_gadget_correct inputs mimc_constants))). unfold mimc_constants. by rewrite length_fmap, length_seq.
Qed.

(** The circuits accept exactly the sponge of their inputs. *)
Lemma hsp_circuit_relation c :
  exists s, HspCircuit_generate_constraints c = Ok s /\
    public_inputs s = [hc_session_id_fe c; hc_rand_fe c; hc_cert_hash_fe c; hc_zk_binding c] /\
    (Forall (fun p => p.1 = p.2) (equalities s) <->
     mimc7_sponge [hc_session_id_fe c; hc_rand_fe c; hc_dvrf_exporter_fe c; hc_cert_hash_fe c; hc_ht_hash_fe c] mimc_constants
     = Some (hc_zk_binding c)).
Proof.
  unfold HspCircuit_generate_constraints. rewrite (proj1 (proj2 (mimc_gadget_correct _ _))).
  edestruct sponge_total as [h Hh]. rewrite Hh. eexists. split; [reflexivity|]. split; [done|]. cbn [equalities].
  rewrite Forall_singleton. cbn [fst snd]. split; [by intros ->|by intros [= ->]].
Qed.
Lemma binding_circuit_relation c :
  exists s, BindingCircuit_generate_constraints c = Ok s /\
    public_inputs s = [bc_session_id_fe c; bc_rand_fe c; bc_hsp_commitment_fe c; bc_qp_transcript_fe c; bc_binding_digest c] /\
    (Forall (fun p => p.1 = p.2) (equalities s) <->
     mimc7_sponge [bc_session_id_fe c; bc_rand_fe c; bc_hsp_commitment_fe c; bc_qp_transcript_fe c; bc_pgp_commitment_fe c]
       mimc_constants = Some (bc_binding_digest c)).
Proof.
  unfold BindingCircuit_generate_constraints. rewrite (proj1 (proj2 (mimc_gadget_correct _ _))).
  edestruct sponge_total as [h Hh]. rewrite Hh. eexists. split; [reflexivity|]. split; [done|]. cbn [equalities].
  rewrite Forall_singleton. cbn [fst snd]. split; [by intros ->|by intros [= ->]].
Qed.

Lemma verify_session_params_Ok b p rand cert :
  groth_verify_session_params b p rand cert = Ok tt <->
  hsp_rand_value p = rand /\ hsp_server_cert_hash p = cert /\
  exists binding proof pf, zk_binding p = Some binding /\ zk_proof p = Some proof /\ s_pf_deserialize proof = Ok pf /\
    s_verify (gz_pvk b) [bytes16_to_fe (as_bytes (hsp_session_id p)); bytes31_to_fe (as_bytes rand);
      bytes31_to_fe (as_bytes cert); from_le_bytes_mod_order (arr (as_bytes binding))] pf = Ok true.
Proof.
  unfold groth_verify_session_params, verify_hsp_zk.
  case_bool_decide as Hr; cbn [negb]; [|split; [done|by intros [? _]]].
  case_bool_decide as Hc; cbn [negb]; [|split; [done|by intros (_ & ? & _)]]. split.
  - destruct (zk_binding p) as [binding|]; [|done]. destruct (zk_proof p) as [proof|]; [|done].
    intros H%map_err_Ok. apply bind_Ok in H as (pf & Hpf%map_err_Ok & H). apply bind_Ok in H as (v & Hv%map_err_Ok & ->%ensure_Ok).
    split_and!; [done..|]. by exists binding, proof, pf.
  - intros (_ & _ & binding & proof & pf & -> & -> & Hpf & Hv). rewrite Hpf. cbn [map_err mbind result_bind]. by rewrite Hv.
Qed.

Context {L : SnarkLaws HspCircuit_generate_constraints S}.

(** The Groth16 backend is complete and hides the exporter: after a setup, the
    handshake proof of any session can be made and is accepted for its
    randomness and certificate; the exporter field is zero whatever the secret.
    Acceptance depends on session, randomness, certificate and the two proof
    fields alone. The checks of the protocol proper never accept such a proof:
    not the one of the commitment backend, and not the one for Groth16 proofs. *)
Theorem groth_backend_roundtrip b rng sid rand sps spp :
  GrothZkBackend_setup = Ok b ->
  exists p, groth_prove_session_params rng b sid rand sps spp = Ok p /\
    groth_verify_session_params b p rand (spp_server_cert_hash spp) = Ok tt /\
    hsp_dvrf_exporter p = DigestBytes_ZERO /\
    (forall p', hsp_session_id p' = sid -> hsp_rand_value p' = rand -> hsp_server_cert_hash p' = spp_server_cert_hash spp ->
       zk_binding p' = zk_binding p -> zk_proof p' = zk_proof p ->
       groth_verify_session_params b p' rand (spp_server_cert_hash spp) = Ok tt) /\
    (forall now, is_ok (verify_hsp_proof now p rand (spp_server_cert_hash spp)) = false) /\
    (forall vk, is_ok (verify_hsp_proof_with_zk p rand (spp_server_cert_hash spp) vk) = false).
Proof using L.
  unfold GrothZkBackend_setup. intros (keys & Hk%map_err_Ok & (pvk & Hp%map_err_Ok & [= <-])%bind_Ok)%bind_Ok.
  unfold groth_prove_session_params, prove_hsp_internal. cbn [gz_pk].
  set (ht := compute_handshake_transcript_hash _ _ _ _). set (binding := hsp_binding _ _ _ _ _).
  set (c := MkHspCircuit _ _ _ _ _ _). destruct (hsp_circuit_relation c) as (s & Hs1 & Hin & Hiff).
  assert (Hsat : Forall (fun p => p.1 = p.2) (equalities s)).
  { apply Hiff. cbn [hc_session_id_fe hc_rand_fe hc_dvrf_exporter_fe hc_cert_hash_fe hc_ht_hash_fe hc_zk_binding c].
    unfold binding, hsp_binding. edestruct sponge_total as [h Hh]. rewrite Hh. done. }
  destruct (snark_complete _ c _ keys pvk rng s Hk Hp Hs1 Hsat) as (pf & Hprove & Hver).
  destruct (s_pf_roundtrip pf) as (bs & Hser & Hde). rewrite Hprove. cbn [map_err mbind result_bind]. rewrite Hser.
  cbn [map_err mbind result_bind]. eexists. split; [reflexivity|].
  assert (Hall : forall p', hsp_session_id p' = sid -> hsp_rand_value p' = rand -> hsp_server_cert_hash p' = spp_server_cert_hash spp ->
       zk_binding p' = Some (MkDigestBytes (to_array 32 (to_bytes_le binding))) -> zk_proof p' = Some bs ->
       groth_verify_session_params (MkGrothZkBackend keys.1 pvk) p' rand (spp_server_cert_hash spp) = Ok tt).
  { intros p' H1 H2 H3 H4 H5. apply verify_session_params_Ok. split_and!; [done..|]. eexists _, bs, pf. split_and!; [done..|].
    cbn [gz_pvk]. rewrite H1. rewrite Hin in Hver. cbn [as_bytes]. rewrite <- Hver. repeat f_equal. apply from_to_bytes_le. }
  split_and!; [by apply Hall|done|intros; by apply Hall| |].
  - intros now. unfold verify_hsp_proof. by rewrite bool_decide_eq_false_2.
  - intros vk. unfold verify_hsp_proof_with_zk. cbn [hsp_rand_value hsp_server_cert_hash zk_proof zk_binding].
    repeat (case_bool_decide; [cbn [negb]|done]). done.
Qed.

(** The last byte of randomness and certificate hash is not an input of the
    circuit: a proof stays valid when it changes. *)
Lemma groth_ignores_last_bytes b p rand cert rand' cert' :
  groth_verify_session_params b p rand cert = Ok tt ->
  take 31 (arr (as_bytes rand')) = take 31 (arr (as_bytes rand)) -> take 31 (arr (as_bytes cert')) = take 31 (arr (as_bytes cert)) ->
  groth_verify_session_params b
    {| hsp_session_id := hsp_session_id p; hsp_rand_value := rand'; hsp_dvrf_exporter := hsp_dvrf_exporter p;
       hsp_commitment := hsp_commitment p; hsp_server_cert_hash := cert'; handshake_transcript_hash := handshake_transcript_hash p;
       hsp_tls_version := hsp_tls_version p; hsp_server_name := hsp_server_name p; hsp_established_at := hsp_established_at p;
       hsp_engine_tag := hsp_engine_tag p; zk_proof := zk_proof p; zk_binding := zk_binding p |} rand' cert' = Ok tt.
Proof.
  intros (_ & _ & binding & proof & pf & Hb & Hp & Hpf & Hv)%verify_session_params_Ok Hr Hc.
  apply verify_session_params_Ok. split_and!; [done..|]. exists binding, proof, pf. split_and!; [done..|].
  cbn [hsp_session_id]. unfold bytes31_to_fe in *. by rewrite Hr, Hc.
Qed.
End BackendProps.

(** ** The session-binding circuit *)

Section BindingSpec.
Context {Ark : ArkBits} {Hs : Sha256} {Hm : HmacSha256}.

Hypothesis hmac_is_rfc2104 : forall k d, arr (hmac_sha256 k d) = Rfc.hmac k d.

(** The MAC of a record under a key. *)
Definition record_mac (k : array 32) (h : TlsRecordHeader) (data_hash : array 32) : array 32 :=
  hmac_sha256 (arr k) (hmac_input h data_hash).

Lemma record_mac_circuit k h d :
  exists out, hmac_sha256_gadget_constrained (u8_new_witness <$> arr k)
      ((u8_new_witness <$> arr (header_to_bytes h)) ++ (u8_new_witness <$> arr d)) = Ok out /\
    pack_bytes_to_fpvar out = bytes32_to_fr (record_mac k h d).
Proof using hmac_is_rfc2104.
  destruct (hmac_constrained_rfc (u8_new_witness <$> arr k)
    ((u8_new_witness <$> arr (header_to_bytes h)) ++ (u8_new_witness <$> arr d))) as (out & Hout & Hval).
  { rewrite length_fmap, length_arr. lia. }
  exists out. split; [done|]. apply pack_bytes_native. rewrite Hval, fmap_app, !fmap_witness_value.
  unfold record_mac. by rewrite hmac_is_rfc2104.
Qed.

(** What a circuit enforces. *)
Definition session_binding_relation (c : TlsSessionBindingCircuit) : Prop :=
  sb_k_mac_commitment_fe c = k_mac_commitment (sb_k_mac c) (sb_rand_binding_fe c) /\
  mac_commitment_q_fe c = add (bytes32_to_fr (record_mac (sb_k_mac c) (header_q c) (query_data_hash c))) (sb_rand_binding_fe c) /\
  mac_commitment_r_fe c = add (bytes32_to_fr (record_mac (sb_k_mac c) (header_r c) (response_data_hash c))) (sb_rand_binding_fe c).

Lemma session_binding_synthesis c :
  exists s, SessionBinding_generate_constraints c = Ok s /\
    public_inputs s = [sb_k_mac_commitment_fe c; sb_rand_binding_fe c; mac_commitment_q_fe c; mac_commitment_r_fe c] /\
    (Forall (fun p => p.1 = p.2) (equalities s) <-> session_binding_relation c).
Proof using hmac_is_rfc2104.
  unfold SessionBinding_generate_constraints, session_binding_relation, k_mac_commitment.
  destruct (record_mac_circuit (sb_k_mac c) (header_q c) (query_data_hash c)) as (oq & -> & Hq).
  destruct (record_mac_circuit (sb_k_mac c) (header_r c) (response_data_hash c)) as (or & -> & Hr).
  cbn [mbind result_bind]. eexists. split; [reflexivity|]. split; [done|]. cbn [equalities].
  rewrite !Forall_cons, Forall_nil. cbn [fst snd]. rewrite Hq, Hr, pack_witness. intuition congruence.
Qed.

(** What the session-binding circuit proves, for arbitrary public inputs and
    witnesses: its constraints hold exactly when the three commitments are,
    each plus the randomness binding, the packed MAC key and the packed
    HMAC-SHA256 under that key of header and data hash of the query record and
    of the response record. The circuit built from a key, headers, hashes and
    MACs satisfies them exactly when both MACs are, up to packing, those of the
    records. *)
Theorem session_binding_circuit_relation c k rb hq hr qh rh mq mr :
  (exists s, SessionBinding_generate_constraints c = Ok s /\
     public_inputs s = [sb_k_mac_commitment_fe c; sb_rand_binding_fe c; mac_commitment_q_fe c; mac_commitment_r_fe c] /\
     (Forall (fun p => p.1 = p.2) (equalities s) <-> session_binding_relation c)) /\
  (session_binding_relation (TlsSessionBindingCircuit_new k rb hq hr qh rh mq mr) <->
   bytes32_to_fr mq = bytes32_to_fr (record_mac k hq qh) /\ bytes32_to_fr mr = bytes32_to_fr (record_mac k hr rh)).
Proof using hmac_is_rfc2104.
  split; [apply session_binding_synthesis|]. unfold session_binding_relation.
  cbn [TlsSessionBindingCircuit_new sb_k_mac_commitment_fe sb_rand_binding_fe sb_k_mac mac_commitment_q_fe mac_commitment_r_fe
       header_q header_r query_data_hash response_data_hash].
  rewrite !add_cancel_r. tauto.
Qed.

Context {S : Snark TlsSessionBindingCircuit} {L : SnarkLaws SessionBinding_generate_constraints S}.

Lemma session_binding_complete rng0 crs rng k rb hq hr qh rh :
  SessionBindingCrs_setup rng0 = Ok crs ->
  exists p, session_binding_prove rng crs k rb hq hr qh rh (record_mac k hq qh) (record_mac k hr rh) = Ok p /\
    forall e b, s_fr_serialize e = Ok b ->
      (session_binding_verify (sb_pvk crs) p b = Ok tt <-> k_mac_commitment k (bytes32_to_fr rb) = e) /\
      session_binding_verify (sb_pvk crs) p [] = Ok tt.
Proof using hmac_is_rfc2104 L.
  unfold SessionBindingCrs_setup. intros (keys & Hk%map_err_Ok & (pvk & Hp%map_err_Ok & [= <-])%bind_Ok)%bind_Ok.
  unfold session_binding_prove. cbn [sb_pk]. set (c := TlsSessionBindingCircuit_new _ _ _ _ _ _ _ _).
  destruct (session_binding_synthesis c) as (s & Hs1 & Hin & Hiff).
  assert (Hsat : Forall (fun p => p.1 = p.2) (equalities s)) by by apply Hiff.
  destruct (snark_complete _ c _ keys pvk rng s Hk Hp Hs1 Hsat) as (pf & Hprove & Hver). rewrite Hin in Hver.
  destruct (s_pf_roundtrip pf) as (bs & Hser & Hde).
  destruct (s_fr_roundtrip (sb_k_mac_commitment_fe c)) as (b1 & Hs2 & _ & Hd2), (s_fr_roundtrip (sb_rand_binding_fe c)) as (b2 & Hs3 & _ & Hd3),
    (s_fr_roundtrip (mac_commitment_q_fe c)) as (b3 & Hs4 & _ & Hd4), (s_fr_roundtrip (mac_commitment_r_fe c)) as (b4 & Hs5 & _ & Hd5).
  rewrite Hprove. cbn [map_err mbind result_bind]. rewrite Hser. cbn [map_err mbind result_bind].
  rewrite Hs2, Hs3, Hs4, Hs5. cbn [map_err mbind result_bind].
  eexists. split; [reflexivity|]. intros e b He. destruct (s_fr_roundtrip e) as (b' & He' & Hl & Hd). rewrite He in He'. injection He' as <-.
  unfold session_binding_verify. cbn [sb_groth16_bytes sb_k_mac_commitment_bytes sb_rand_binding_bytes mac_commitment_q_bytes
    mac_commitment_r_bytes sb_pvk]. rewrite Hde, Hd2, Hd3, Hd4, Hd5. cbn [map_err mbind result_bind].
  rewrite Hver. cbn [map_err mbind result_bind ensure]. split; [|done].
  destruct b as [|x b]; [done|]. rewrite Hd. cbn [map_err mbind result_bind].
  rewrite ensure_Ok, bool_decide_eq_true. done.
Qed.

(** Proofs of record MACs verify: with keys from the setup, a proof for the MACs
    that the key gives to the two records is made and accepted, and it is accepted
    against a published commitment exactly when that is the commitment of the
    key and randomness of the proof. *)
Theorem session_binding_verifies rng0 crs rng k rb hq hr qh rh :
  SessionBindingCrs_setup rng0 = Ok crs ->
  exists p, session_binding_prove rng crs k rb hq hr qh rh (record_mac k hq qh) (record_mac k hr rh) = Ok p /\
    forall e b, s_fr_serialize e = Ok b ->
      (session_binding_verify (sb_pvk crs) p b = Ok tt <-> k_mac_commitment k (bytes32_to_fr rb) = e) /\
      session_binding_verify (sb_pvk crs) p [] = Ok tt.
Proof using hmac_is_rfc2104 L. apply session_binding_complete. Qed.

(** The published commitment does not bind the key: verification takes the
    randomness from the proof, so for every key there is a proof, of the MACs of
    any records under that key, which is accepted against the commitment of
    another key. *)
Lemma session_binding_any_key rng0 crs rng k rb b k' hq hr qh rh :
  SessionBindingCrs_setup rng0 = Ok crs -> s_fr_serialize (k_mac_commitment k (bytes32_to_fr rb)) = Ok b ->
  exists rb' p, session_binding_prove rng crs k' rb' hq hr qh rh (record_mac k' hq qh) (record_mac k' hr rh) = Ok p /\
    session_binding_verify (sb_pvk crs) p b = Ok tt.
Proof using hmac_is_rfc2104 L.
  intros Hsetup Hb. set (e := k_mac_commitment k (bytes32_to_fr rb)) in *.
  pose (x := of_Z (fr_val e - fr_val (bytes32_to_fr k'))). pose (rb' := to_array 32 (to_bytes_le x)).
  destruct (session_binding_complete rng0 crs rng k' rb' hq hr qh rh Hsetup) as (p & Hp & Hv).
  exists rb', p. split; [done|]. apply (Hv e b Hb). unfold rb', k_mac_commitment. rewrite bytes32_to_fr_onto.
  unfold x. rewrite <- (of_Z_val (bytes32_to_fr k')) at 1. rewrite add_of_Z. rewrite <- (of_Z_val e) at 2. f_equal. lia.
Qed.
End BindingSpec.

(** ** Concrete instances *)

(** A proof system whose proofs are the encoded public inputs. *)
Definition snark_prove {C E} (synth : C -> result E synthesis) (c : C) : result string bytes :=
  match synth c with
  | Ok s => if forallb (fun p => bool_decide (p.1 = p.2)) (equalities s)
            then Ok (concat (toy_fr_bytes <$> public_inputs s)) else Err "unsatisfied"
  | Err _ => Err "synthesis"
  end.
Definition toy_snark {C E} (synth : C -> result E synthesis) : Snark C := {|
  SPk := unit; SVk := unit; SPvk := unit; SPf := bytes; SRng := unit;
  s_seed_from_u64 _ := tt; s_setup _ _ := Ok (tt, tt); s_process_vk _ := Ok tt;
  s_prove _ c _ := snark_prove synth c;
  s_verify _ inputs pf := Ok (bool_decide (pf = concat (toy_fr_bytes <$> inputs)));
  s_pf_serialize := Ok; s_pf_deserialize := Ok;
  s_fr_serialize x := Ok (toy_fr_bytes x);
  s_fr_deserialize := fr_deserialize (Groth16:=toy_groth16 (Ark:=value_ark));
  s_pvk_serialize _ := Ok []
|}.

Lemma toy_snark_laws {C E} (synth : C -> result E synthesis) : SnarkLaws synth (toy_snark synth).
Proof.
  split.
  - intros pf. by exists pf.
  - intros x. exists (toy_fr_bytes x). split_and!; [done|apply length_to_bytes_le|apply toy_fr_roundtrip].
  - intros c0 c rng keys pvk rng' s _ _ Hsyn Hall. exists (concat (toy_fr_bytes <$> public_inputs s)).
    cbn [s_prove s_verify toy_snark]. unfold snark_prove. rewrite Hsyn, bool_decide_eq_true_2 by done. split; [|done].
    replace (forallb _ _) with true; [done|]. symmetry. apply Is_true_eq_true, forallb_True.
    eapply Forall_impl; [exact Hall|]. intros p Hp. by apply bool_decide_pack.
Qed.

Lemma groth_backend_roundtrip_witness :
  exists p, groth_verify_session_params (S:=toy_snark (HspCircuit_generate_constraints (Hs:=toy_sha256)))
    (MkGrothZkBackend (S:=toy_snark HspCircuit_generate_constraints) tt tt) p (digest 1) (digest 2) = Ok tt.
Proof.
  destruct (groth_backend_roundtrip (Hs:=toy_sha256) (S:=toy_snark HspCircuit_generate_constraints) (L:=toy_snark_laws _)
    (MkGrothZkBackend (S:=toy_snark HspCircuit_generate_constraints) tt tt) tt (sid 1) (digest 1) (MkSPS (digest 3) (digest 4))
    (MkSPP (digest 2) (u_of_Z 16 772) "example.com" (n64 1000)) eq_refl) as (p & _ & Hv & _).
  exists p. exact Hv.
Defined.

Definition ex_header (n : Z) : TlsRecordHeader :=
  MkTlsRecordHeader (n64 n) (byte 23) (to_array 2 [byte 3; byte 3]) (u_of_Z 16 100).

Lemma session_binding_circuit_relation_witness :
  exists s, SessionBinding_generate_constraints (Ark:=value_ark)
    (TlsSessionBindingCircuit_new (a32 1) (a32 2) (ex_header 1) (ex_header 2) (a32 3) (a32 4)
       (record_mac (Hm:=rfc_hmac) (a32 1) (ex_header 1) (a32 3)) (record_mac (Hm:=rfc_hmac) (a32 1) (ex_header 2) (a32 4))) = Ok s /\
    Forall (fun p => p.1 = p.2) (equalities s).
Proof.
  edestruct (session_binding_circuit_relation (Ark:=value_ark) (Hm:=rfc_hmac) rfc_hmac_law
    (TlsSessionBindingCircuit_new (a32 1) (a32 2) (ex_header 1) (ex_header 2) (a32 3) (a32 4)
       (record_mac (Hm:=rfc_hmac) (a32 1) (ex_header 1) (a32 3)) (record_mac (Hm:=rfc_hmac) (a32 1) (ex_header 2) (a32 4)))
    (a32 1) (a32 2) (ex_header 1) (ex_header 2) (a32 3) (a32 4)
    (record_mac (Hm:=rfc_hmac) (a32 1) (ex_header 1) (a32 3)) (record_mac (Hm:=rfc_hmac) (a32 1) (ex_header 2) (a32 4)))
    as ((s & Hs1 & _ & Hiff) & Hnew).
  exists s. split; [exact Hs1|]. apply Hiff, Hnew. split; reflexivity.
Defined.

Lemma session_binding_verifies_witness :
  exists p, session_binding_verify (S:=toy_snark (SessionBinding_generate_constraints (Ark:=value_ark))) tt p [] = Ok tt.
Proof.
  destruct (session_binding_verifies (Ark:=value_ark) (Hs:=toy_sha256) (Hm:=rfc_hmac) rfc_hmac_law
    (S:=toy_snark SessionBinding_generate_constraints) (L:=toy_snark_laws _) tt
    (MkSessionBindingCrs (S:=toy_snark SessionBinding_generate_constraints) tt tt) tt (a32 1) (a32 2) (ex_header 1) (ex_header 2)
    (a32 3) (a32 4) eq_refl) as (p & _ & Hv).
  exists p. exact (proj2 (Hv zero (toy_fr_bytes zero) eq_refl)).
Defined.
