(* ===== verification/Json.v ===== *)
(** * JSON messages between processes

    JSON as [serde_json] sees it, for the components that exchange one message per
    line: trees, the access to a [serde_json::Value], the reading of derived
    structures, and the parts of [str] used to find a line.

    Parsing and printing of text are external ([serde_json]): the class
    [SerdeText], which yields trees with the members of an object in the order of
    the text. The class [SerdeTextLaws] states that printing is inverted by parsing
    and that a printed tree is one line without surrounding white space. The
    wording of error messages of the parser is not part of the model. *)

From S2P Require Import Prelude.

Inductive Json :=
  | JNull
  | JBool (b : bool)
  | JInt (n : Z)
  | JFloat (text : string)
  | JString (s : string)
  | JArray (l : list Json)
  | JObject (members : list (string * Json)).

Class SerdeText := {
  json_print : Json -> string;
  json_parse : string -> result string Json
}.

(** ** [serde_json::Value] *)

(** The last member of a name wins. *)
Definition value_get (v : Json) (key : string) : option Json :=
  match v with
  | JObject members => snd <$> last (filter (fun m => m.1 = key) members)
  | _ => None
  end.
Definition as_str (v : Json) : option string := match v with JString s => Some s | _ => None end.
Definition as_bool (v : Json) : option bool := match v with JBool b => Some b | _ => None end.
Definition as_u64 (v : Json) : option u64 :=
  match v with JInt n => if (0 <=? n) && (n <? 2 ^ 64) then Some (u_of_Z 64 n) else None | _ => None end.
(** [v[key].as_str()] and the like: indexing a missing member gives [null]. *)
Definition index_str (v : Json) (key : string) : option string := value_get v key ≫= as_str.
Definition index_bool (v : Json) (key : string) : option bool := value_get v key ≫= as_bool.
Definition index_u64 (v : Json) (key : string) : option u64 := value_get v key ≫= as_u64.

(** ** Derived [Deserialize] *)

(** The members of a structure: from an object, where a known field occurs at most
    once and unknown ones are skipped, or from an array, in order. The flag says
    that they come from an array. *)
Definition struct_members (fields : list string) (v : Json) : result string (bool * list (string * Json)) :=
  match v with
  | JObject members =>
      _ ← ensure "duplicate field" (forallb (fun f => (length (filter (fun m => m.1 = f) members) <=? 1)%nat) fields);
      Ok (false, members)
  | JArray l =>
      _ ← ensure "trailing characters" (length l <=? length fields)%nat;
      Ok (true, zip fields l)
  | _ => Err "invalid type"
  end.
Definition member (ms : bool * list (string * Json)) (name : string) : option Json :=
  snd <$> head (filter (fun m => m.1 = name) ms.2).

Definition required {A} (ms : bool * list (string * Json)) (read : Json -> result string A) (name : string) : result string A :=
  v ← ok_or ("missing field `" +:+ name +:+ "`") (member ms name); read v.
(** [#[serde(default)]] *)
Definition defaulted {A} (d : A) (ms : bool * list (string * Json)) (read : Json -> result string A) (name : string)
    : result string A :=
  match member ms name with Some v => read v | None => Ok d end.
(** A field of type [Option]: absent members of an object and [null] are [None]. *)
Definition optional {A} (ms : bool * list (string * Json)) (read : Json -> result string A) (name : string)
    : result string (option A) :=
  match member ms name with
  | Some JNull => Ok None
  | Some v => Some <$> read v
  | None => if ms.1 then Err "invalid length" else Ok None
  end.

Definition read_string (v : Json) : result string string := ok_or "invalid type" (as_str v).
Definition read_bool (v : Json) : result string bool := ok_or "invalid type" (as_bool v).
Fixpoint read_all {A} (read : Json -> result string A) (l : list Json) : result string (list A) :=
  match l with
  | [] => Ok []
  | v :: l' => x ← read v; xs ← read_all read l'; Ok (x :: xs)
  end.
Definition read_vec {A} (read : Json -> result string A) (v : Json) : result string (list A) :=
  match v with JArray l => read_all read l | _ => Err "invalid type" end.

(** ** Derived [Serialize] *)

Definition json_option (o : option string) : Json := match o with Some s => JString s | None => JNull end.
(** [skip_serializing_if = "Option::is_none"] and the like. *)
Definition skip_none (name : string) (o : option string) : list (string * Json) :=
  match o with Some s => [(name, JString s)] | None => [] end.
Definition skip_empty_str (name : string) (s : string) : list (string * Json) :=
  if bool_decide (s = "") then [] else [(name, JString s)].
Definition skip_empty_vec (name : string) (l : list string) : list (string * Json) :=
  if bool_decide (l = []) then [] else [(name, JArray (JString <$> l))].

(** ** Lines and white space *)

Definition chars (s : string) : list Ascii.ascii := String.list_ascii_of_string s.
Definition of_chars (l : list Ascii.ascii) : string := String.string_of_list_ascii l.
Definition newline : Ascii.ascii := Ascii.ascii_of_nat 10.
Definition carriage_return : Ascii.ascii := Ascii.ascii_of_nat 13.

(** The characters of [char::is_whitespace], in UTF-8. *)
Definition white_space : list (list Ascii.ascii) :=
  map (map Ascii.ascii_of_nat)
    ([[9]; [10]; [11]; [12]; [13]; [32]; [194; 133]; [194; 160]; [225; 154; 128]; [226; 128; 168]; [226; 128; 169];
     [226; 128; 175]; [226; 129; 159]; [227; 128; 128]] ++ map (fun k => [226; 128; 128 + k]) (seq 0 11))%nat.

Definition strip_one (ws : list (list Ascii.ascii)) (l : list Ascii.ascii) : option (list Ascii.ascii) :=
  (fun w => drop (length w) l) <$> head (filter (fun w => take (length w) l = w) ws).
(** Every step removes a character. *)
Fixpoint trim_loop (fuel : nat) (ws : list (list Ascii.ascii)) (l : list Ascii.ascii) : list Ascii.ascii :=
  match fuel with
  | O => l
  | S f => match strip_one ws l with Some l' => trim_loop f ws l' | None => l end
  end.
Definition trim (s : string) : string :=
  let l := trim_loop (String.length s) white_space (chars s) in
  of_chars (reverse (trim_loop (String.length s) (reverse <$> white_space) (reverse l))).

(** [str::lines]: pieces ended by a newline or a carriage return and a newline, and
    a last piece that is not empty. *)
Definition strip_cr (l : list Ascii.ascii) : list Ascii.ascii :=
  match last l with
  | Some c => if bool_decide (c = carriage_return) then take (length l - 1) l else l
  | None => l
  end.
Fixpoint split_lines (l cur : list Ascii.ascii) : list (list Ascii.ascii) :=
  match l with
  | [] => match cur with [] => [] | _ => [cur] end
  | c :: l' => if bool_decide (c = newline) then strip_cr cur :: split_lines l' [] else split_lines l' (cur ++ [c])
  end.
Definition lines (s : string) : list string := of_chars <$> split_lines (chars s) [].

(** What [writeln!] appends for each of some lines. *)
Fixpoint unlines (l : list string) : string :=
  match l with [] => "" | s :: l' => s +:+ of_chars [newline] +:+ unlines l' end.

(** [.lines().find(|l| !l.trim().is_empty())] *)
Definition first_line (s : string) : option string :=
  head (filter (fun l => trim l <> "") (lines s)).

(** ** What printing promises *)

Class SerdeTextLaws (J : SerdeText) : Prop := {
  json_parse_print j : json_parse (json_print j) = Ok j;
  json_print_start j : strip_one white_space (chars (json_print j)) = None;
  json_print_end j : strip_one (reverse <$> white_space) (reverse (chars (json_print j))) = None;
  json_print_nonempty j : json_print j <> "";
  json_print_line j : Forall (fun c => c <> newline /\ c <> carriage_return) (chars (json_print j))
}.

(** ** Lemmas *)

Lemma of_chars_chars s : of_chars (chars s) = s.
Proof. apply String.string_of_list_ascii_of_string. Qed.
Lemma chars_of_chars l : chars (of_chars l) = l.
Proof. apply String.list_ascii_of_string_of_list_ascii. Qed.
Lemma length_chars s : String.length s = length (chars s).
Proof. induction s as [|c s IH]; [done|]. exact (f_equal S IH). Qed.
Lemma chars_app s t : chars (s +:+ t) = chars s ++ chars t.
Proof. induction s as [|c s IH]; [done|]. exact (f_equal (cons c) IH). Qed.

Lemma split_lines_one l cur rest :
  Forall (fun c => c <> newline /\ c <> carriage_return) l -> Forall (fun c => c <> newline /\ c <> carriage_return) cur ->
  split_lines (l ++ newline :: rest) cur = (cur ++ l) :: split_lines rest [].
Proof.
  intros Hl. revert cur. induction Hl as [|c l [Hn Hr] _ IH]; intros cur Hcur; cbn [app split_lines].
  - rewrite bool_decide_eq_true_2, app_nil_r by done. f_equal. unfold strip_cr. destruct (last cur) as [c|] eqn:Hlast; [|done].
    apply last_Some in Hlast as [l' ->]. apply Forall_app in Hcur as [_ [[_ Hc] _]%Forall_cons].
    by rewrite bool_decide_eq_false_2.
  - rewrite bool_decide_eq_false_2 by done. rewrite IH; [by rewrite <- app_assoc|]. apply Forall_app. split; [done|].
    by apply Forall_singleton.
Qed.

Lemma trim_loop_stop fuel ws l : strip_one ws l = None -> trim_loop fuel ws l = l.
Proof. intros H. destruct fuel; cbn [trim_loop]; [done|]. by rewrite H. Qed.

Lemma strip_one_None ws l : strip_one ws l = None <-> Forall (fun w => take (length w) l <> w) ws.
Proof.
  unfold strip_one. rewrite fmap_None, head_None. split.
  - intros H. apply Forall_forall. intros w Hw Heq. assert (Hin : w ∈ filter (fun w => take (length w) l = w) ws) by by apply list_elem_of_filter.
    rewrite H in Hin. by apply not_elem_of_nil in Hin.
  - intros H. apply elem_of_nil_inv. intros w [Heq Hw]%list_elem_of_filter. rewrite Forall_forall in H. by apply (H w).
Qed.

(** No white space of several bytes ends in a newline. *)
Lemma strip_one_newline l : l <> [] -> strip_one white_space l = None -> strip_one white_space (l ++ [newline]) = None.
Proof.
  rewrite !strip_one_None, !Forall_forall. intros Hl H w Hw Heq. destruct (decide (length w <= length l)%nat) as [Hle|Hgt].
  - rewrite take_app_le in Heq by done. by apply (H w).
  - rewrite take_ge in Heq by (rewrite length_app; simpl; lia). destruct l as [|c l]; [done|].
    assert (HF : Forall (fun w => forall c l, w <> c :: l ++ [newline]) white_space).
    { repeat (constructor; [intros c' l'; destruct l' as [|? [|? [|]]]; discriminate|]). constructor. }
    rewrite Forall_forall in HF. by apply (HF w Hw c l).
Qed.

Lemma strip_end_newline l : strip_one (reverse <$> white_space) (newline :: l) = Some l.
Proof. reflexivity. Qed.

Section Laws.
Context {J : SerdeText} {JL : SerdeTextLaws J}.

Lemma lines_print j : lines (unlines [json_print j]) = [json_print j].
Proof using JL.
  unfold lines. cbn [unlines]. rewrite !chars_app, chars_of_chars. cbn [app].
  rewrite split_lines_one by (apply json_print_line || done). cbn. by rewrite of_chars_chars.
Qed.

Lemma trim_print j : trim (json_print j) = json_print j.
Proof using JL.
  unfold trim. rewrite (trim_loop_stop _ white_space), trim_loop_stop by (apply json_print_start || apply json_print_end).
  by rewrite reverse_involutive, of_chars_chars.
Qed.

Lemma trim_print_line j : trim (unlines [json_print j]) = json_print j.
Proof using JL.
  assert (Hne : chars (json_print j) <> []).
  { intros H. apply (json_print_nonempty j). by rewrite <- (of_chars_chars (json_print j)), H. }
  assert (Hc : chars (unlines [json_print j]) = chars (json_print j) ++ [newline]) by (cbn [unlines]; by rewrite !chars_app, chars_of_chars).
  unfold trim. rewrite length_chars, Hc, length_app. cbn [length].
  rewrite (trim_loop_stop _ white_space) by (apply strip_one_newline; [done|apply json_print_start]).
  rewrite reverse_snoc, Nat.add_comm. cbn [Nat.add trim_loop]. rewrite strip_end_newline, trim_loop_stop by apply json_print_end.
  by rewrite reverse_involutive, of_chars_chars.
Qed.

Lemma first_line_print j : first_line (unlines [json_print j]) = Some (json_print j).
Proof using JL.
  unfold first_line. rewrite lines_print, filter_cons, decide_True; [done|]. rewrite trim_print. apply json_print_nonempty.
Qed.
End Laws.

(** ** A concrete instance *)

(** Trees as the digits of a number. *)
Fixpoint json_tree (j : Json) : gen_tree (bool + Z + string + string) :=
  match j with
  | JNull => GenNode 0 []
  | JBool b => GenLeaf (inl (inl (inl b)))
  | JInt n => GenLeaf (inl (inl (inr n)))
  | JFloat t => GenLeaf (inl (inr t))
  | JString s => GenLeaf (inr s)
  | JArray l => GenNode 1 (json_tree <$> l)
  | JObject ms => GenNode 2 (concat ((fun m => [GenLeaf (inr m.1); json_tree m.2]) <$> ms))
  end.
Fixpoint tree_json (t : gen_tree (bool + Z + string + string)) : Json :=
  match t with
  | GenLeaf (inl (inl (inl b))) => JBool b
  | GenLeaf (inl (inl (inr n))) => JInt n
  | GenLeaf (inl (inr t)) => JFloat t
  | GenLeaf (inr s) => JString s
  | GenNode 1 l => JArray (tree_json <$> l)
  | GenNode 2 l =>
      (fix members (l : list (gen_tree (bool + Z + string + string))) (acc : list (string * Json)) : Json :=
         match l with
         | GenLeaf (inr k) :: v :: l' => members l' (acc ++ [(k, tree_json v)])
         | _ => JObject acc
         end) l []
  | GenNode _ _ => JNull
  end.

Lemma tree_json_tree : forall j, tree_json (json_tree j) = j.
Proof.
  fix IH 1. intros [|b|n|t|s|l|ms]; try reflexivity; cbn [json_tree tree_json].
  - f_equal. induction l as [|x l IHl]; [reflexivity|]. cbn. f_equal; [apply IH | exact IHl].
  - match goal with |- ?f ?l [] = _ => enough (Hf : forall acc, f l acc = JObject (acc ++ ms)) by exact (Hf []) end.
    induction ms as [|[k v] ms IHms]; intros acc; cbn; [by rewrite app_nil_r|].
    rewrite IH, IHms. by rewrite <- app_assoc.
Qed.

#[local] Instance json_eq_dec : EqDecision Json.
Proof.
  refine (fun a b => cast_if (decide (json_tree a = json_tree b))).
  - abstract (rewrite <- (tree_json_tree a), <- (tree_json_tree b); congruence).
  - abstract congruence.
Defined.
#[local] Instance json_countable : Countable Json := inj_countable' json_tree tree_json tree_json_tree.

Fixpoint digits (p : positive) : list Ascii.ascii :=
  match p with
  | xH => []
  | xO q => Ascii.ascii_of_nat 48 :: digits q
  | xI q => Ascii.ascii_of_nat 49 :: digits q
  end.
(** The digits up to the closing bracket. *)
Fixpoint of_digits (l : list Ascii.ascii) : positive :=
  match l with
  | [] => 1
  | c :: l' => if bool_decide (c = Ascii.ascii_of_nat 48) then xO (of_digits l')
               else if bool_decide (c = Ascii.ascii_of_nat 49) then xI (of_digits l') else 1
  end%positive.
Lemma of_digits_app p rest : of_digits (digits p ++ Ascii.ascii_of_nat 93 :: rest) = p.
Proof. induction p as [p IH|p IH|]; cbn; [by rewrite IH..|done]. Qed.

Definition toy_text : SerdeText := {|
  json_print j := of_chars (Ascii.ascii_of_nat 91 :: digits (encode j) ++ [Ascii.ascii_of_nat 93]);
  json_parse s := ok_or "syntax" (decode (of_digits (drop 1 (chars s))))
|}.

Lemma strip_one_none ws c l :
  forallb (fun w => match w with [] => false | d :: _ => negb (bool_decide (d = c)) end) ws = true -> strip_one ws (c :: l) = None.
Proof.
  unfold strip_one. induction ws as [|w ws IH]; [done|]. cbn [forallb]. intros [Hw Hws]%andb_prop.
  rewrite filter_cons, decide_False; [by apply IH|]. destruct w as [|d w]; [done|]. cbn [length take].
  intros [= -> _]. by rewrite bool_decide_eq_true_2 in Hw.
Qed.

Lemma toy_text_laws : SerdeTextLaws toy_text.
Proof.
  split; intros j; cbn [json_print json_parse toy_text].
  - rewrite chars_of_chars. cbn [drop]. rewrite drop_0, of_digits_app, decode_encode. done.
  - rewrite chars_of_chars. apply strip_one_none. vm_compute. reflexivity.
  - rewrite chars_of_chars, reverse_cons, reverse_app. cbn [app]. apply strip_one_none. vm_compute. reflexivity.
  - done.
  - rewrite chars_of_chars. constructor; [split; discriminate|]. apply Forall_app. split.
    + induction (encode j) as [p IH|p IH|]; cbn; repeat constructor; try discriminate; apply IH.
    + repeat constructor; discriminate.
Qed.
