(* ===== verification/Os.v ===== *)
(** * What the programs use of the operating system

    The file system (class [FileSystem], with its laws), paths as
    [std::path::PathBuf] joins and splits them on Unix, the parsing of decimal
    numbers by [str::parse], and the text of a file as [serde_json] reads it.
    A program that prints a message and leaves with status 1 is [Err (Fails
    message)], one that panics [Err (Panics message)]. *)

From Stdlib Require Import Ascii.
From S2P Require Import Prelude Json.

(** ** Files *)

Class FileSystem := {
  files : Type;
  fs_read : files -> string -> result string bytes;
  fs_write : files -> string -> bytes -> result string files;
  fs_remove : files -> string -> files
}.
Class FileSystemLaws (F : FileSystem) : Prop := {
  fs_read_write f p b f' : fs_write f p b = Ok f' -> fs_read f' p = Ok b;
  fs_read_other f p b f' q : fs_write f p b = Ok f' -> q <> p -> fs_read f' q = fs_read f q
}.

(** [std::fs::create_dir_all]. *)
Class Directories {Fs : FileSystem} := {
  fs_create_dir_all : files -> string -> result string files
}.

(** ** Text *)

Definition ascii_of_u8 (b : u8) : ascii := ascii_of_N (Z.to_N (uval b)).
(** The characters of a byte string, one per byte. *)
Definition bytes_string (l : bytes) : string := String.string_of_list_ascii (ascii_of_u8 <$> l).

Lemma ascii_of_u8_of_ascii c : ascii_of_u8 (u8_of_ascii c) = c.
Proof.
  unfold ascii_of_u8, u8_of_ascii, byte. pose proof (N_ascii_bounded c).
  rewrite uval_of_Z_small by (change (2 ^ 8) with 256; lia). by rewrite N2Z.id, ascii_N_embedding.
Qed.
Lemma bytes_string_bytes s : bytes_string (string_bytes s) = s.
Proof.
  unfold bytes_string, string_bytes. rewrite <- list_fmap_compose.
  rewrite (list_fmap_ext _ id) by (intros; apply ascii_of_u8_of_ascii).
  rewrite list_fmap_id. apply String.string_of_list_ascii_of_string.
Qed.

(** [serde_json::from_slice] for a structure read by [read]. *)
Definition json_slice {J : SerdeText} {A} (read : Json -> result string A) (bs : bytes) : result string A :=
  j ← json_parse (bytes_string bs); read j.

(** [serde_json::to_string_pretty], which is parsed back. *)
Class SerdePretty (J : SerdeText) := {
  json_pretty : Json -> string;
  json_parse_pretty j : json_parse (json_pretty j) = Ok j
}.

(** [usize] in a derived structure. *)
Definition read_usize (v : Json) : result string usize := ok_or "invalid type" (as_u64 v).

(** ** [str::parse::<usize>] *)

Definition is_digit (c : ascii) : bool := (48 <=? Z.of_N (N_of_ascii c)) && (Z.of_N (N_of_ascii c) <=? 57).
Definition digits_value (l : list ascii) : Z :=
  foldl (fun acc c => acc * 10 + (Z.of_N (N_of_ascii c) - 48)) 0 l.
(** An optional plus sign, at least one digit, no overflow. *)
Definition parse_usize (s : string) : option usize :=
  let l := match chars s with
           | c :: rest => if bool_decide (c = "+"%char) then rest else c :: rest
           | [] => []
           end in
  if bool_decide (l = []) then None
  else if forallb is_digit l then
    let v := digits_value l in if v <? 2 ^ 64 then Some (u_of_Z 64 v) else None
  else None.

(** ** Paths *)

Definition slash : ascii := "/"%char.

Fixpoint split_on (c : ascii) (l cur : list ascii) : list (list ascii) :=
  match l with
  | [] => [reverse cur]
  | d :: l' => if bool_decide (d = c) then reverse cur :: split_on c l' [] else split_on c l' (d :: cur)
  end.
Fixpoint join_with (c : ascii) (segs : list (list ascii)) : list ascii :=
  match segs with
  | [] => []
  | [s] => s
  | s :: rest => s ++ c :: join_with c rest
  end.

(** [PathBuf::from(p).is_absolute()] *)
Definition is_absolute (p : string) : bool := bool_decide (head (chars p) = Some slash).

(** [dir.join(p)] *)
Definition path_join (dir p : string) : string :=
  if is_absolute p then p
  else match last (chars dir) with
       | None => p
       | Some c => if bool_decide (c = slash) then dir +:+ p else dir +:+ "/" +:+ p
       end.

(** Empty and current-directory segments after the first are no components. *)
Definition no_component (s : list ascii) : bool := bool_decide (s = []) || bool_decide (s = ["."%char]).
(** Trailing segments that are no components are dropped. *)
Definition trim_segments (segs : list (list ascii)) : list (list ascii) :=
  foldr (fun s acc => if no_component s && bool_decide (acc = []) then [] else s :: acc) [] segs.
Definition drop_last {A} (l : list A) : list A := take (length l - 1) l.

(** [Path::parent]: the text before the last component. *)
Definition parent (p : string) : option string :=
  match split_on slash (chars p) [] with
  | [] => None
  | first :: rest =>
      if is_absolute p then
        match trim_segments rest with
        | [] => None
        | body => Some (of_chars (slash :: join_with slash (trim_segments (drop_last body))))
        end
      else if bool_decide (p = "") then None
      else match trim_segments rest with
           | [] => Some ""
           | body => Some (of_chars (join_with slash (first :: trim_segments (drop_last body))))
           end
  end.

(** A file named in a configuration, relative to the configuration's directory. *)
Definition resolve (config_path file : string) : string :=
  if is_absolute file then file else path_join (default "." (parent config_path)) file.

(** ** Lemmas *)

(** Decimal numbers print as digits and are parsed back. *)
Lemma is_digit_char x : is_digit (pretty_N_char x) = true.
Proof. unfold pretty_N_char. by repeat case_match. Qed.
Lemma digit_char_value x : (x < 10)%N -> Z.of_N (N_of_ascii (pretty_N_char x)) - 48 = Z.of_N x.
Proof.
  intros Hx. assert (x = 0 \/ x = 1 \/ x = 2 \/ x = 3 \/ x = 4 \/ x = 5 \/ x = 6 \/ x = 7 \/ x = 8 \/ x = 9)%N by lia.
  naive_solver.
Qed.

Lemma digits_value_acc acc l :
  foldl (fun acc c => acc * 10 + (Z.of_N (N_of_ascii c) - 48)) acc l = acc * 10 ^ Z.of_nat (length l) + digits_value l.
Proof.
  unfold digits_value. revert acc. induction l as [|c l IH]; intros acc; cbn [foldl length].
  { change (10 ^ Z.of_nat 0) with 1. lia. }
  rewrite IH, (IH (0 * 10 + _)), Nat2Z.inj_succ, Z.pow_succ_r by lia. ring.
Qed.

Lemma pretty_N_go_spec x s :
  forallb is_digit (chars (pretty_N_go x s)) = forallb is_digit (chars s) /\
  (length (chars s) <= length (chars (pretty_N_go x s)))%nat /\
  digits_value (chars (pretty_N_go x s)) = Z.of_N x * 10 ^ Z.of_nat (length (chars s)) + digits_value (chars s).
Proof.
  revert s. induction (N.lt_wf_0 x) as [x _ IH]; intros s.
  assert (x = 0 \/ 0 < x)%N as [->|Hx] by lia; [by rewrite pretty_N_go_0|].
  rewrite pretty_N_go_step by done.
  destruct (IH (x `div` 10)%N (N.div_lt x 10 Hx eq_refl) (String (pretty_N_char (x `mod` 10)) s)) as (Hd & Hl & Hv).
  change (chars (String (pretty_N_char (x `mod` 10)) s)) with (pretty_N_char (x `mod` 10) :: chars s) in *.
  cbn [forallb length] in Hd, Hl. rewrite is_digit_char in Hd. split_and!; [done|lia|].
  rewrite Hv. unfold digits_value at 1. cbn [foldl]. rewrite digits_value_acc, digit_char_value by (by apply N.mod_lt).
  cbn [length]. rewrite Nat2Z.inj_succ, Z.pow_succ_r by lia.
  rewrite (N.div_mod x 10) at 3 by done. rewrite N2Z.inj_add, N2Z.inj_mul. ring.
Qed.

Lemma pretty_N_spec (x : N) :
  forallb is_digit (chars (pretty x)) = true /\ chars (pretty x) <> [] /\ digits_value (chars (pretty x)) = Z.of_N x.
Proof.
  unfold pretty, pretty_N. case_decide as Hx; [by subst|].
  destruct (pretty_N_go_spec x "") as (Hd & _ & Hv).
  change (10 ^ Z.of_nat (length (chars ""))) with 1 in Hv. change (digits_value (chars "")) with 0 in Hv.
  split_and!; [done| |lia]. intros E. rewrite E in Hv. change (digits_value []) with 0 in Hv. lia.
Qed.

Lemma pretty_N_go_length k x s : (x < 10 ^ N.of_nat k)%N ->
  (length (chars (pretty_N_go x s)) <= length (chars s) + k)%nat.
Proof.
  revert x s. induction k as [|k IH]; intros x s Hx.
  - replace x with 0%N by (change (10 ^ N.of_nat 0)%N with 1%N in Hx; lia). rewrite pretty_N_go_0. lia.
  - assert (x = 0 \/ 0 < x)%N as [->|Hx0] by lia; [rewrite pretty_N_go_0; lia|]. rewrite pretty_N_go_step by done.
    rewrite Nat2N.inj_succ, N.pow_succ_r' in Hx.
    specialize (IH (x `div` 10)%N (String (pretty_N_char (x `mod` 10)) s)).
    change (chars (String (pretty_N_char (x `mod` 10)) s)) with (pretty_N_char (x `mod` 10) :: chars s) in IH.
    cbn [length] in IH. assert (x `div` 10 < 10 ^ N.of_nat k)%N by (by apply N.Div0.div_lt_upper_bound). lia.
Qed.
Lemma pretty_N_length x k : (x < 10 ^ N.of_nat (S k))%N -> (length (chars (pretty x)) <= S k)%nat.
Proof.
  intros Hx. unfold pretty, pretty_N. case_decide; [cbn; lia|]. apply (pretty_N_go_length (S k) x ""). exact Hx.
Qed.

Lemma parse_usize_pretty (n : nat) : Z.of_nat n < 2 ^ 64 -> parse_usize (pretty n) = Some (u_of_Z 64 (Z.of_nat n)).
Proof.
  intros Hn. destruct (pretty_N_spec (N.of_nat n)) as (Hd & Hne & Hv). unfold parse_usize.
  change (pretty n) with (pretty (N.of_nat n)).
  destruct (chars (pretty (N.of_nat n))) as [|c l] eqn:E; [done|].
  rewrite (bool_decide_eq_false_2 (c = _)).
  2: { intros ->. cbn in Hd. done. }
  rewrite bool_decide_eq_false_2, Hd, Hv by done. rewrite nat_N_Z.
  by rewrite (proj2 (Z.ltb_lt _ _)) by done.
Qed.

Lemma trim_snoc segs s : no_component s = false -> trim_segments (segs ++ [s]) = segs ++ [s].
Proof.
  intros Hs. unfold trim_segments. rewrite foldr_app. cbn [foldr]. rewrite Hs. cbn [andb].
  induction segs as [|t segs IH]; [done|]. cbn [foldr app]. rewrite IH.
  rewrite (bool_decide_eq_false_2 (segs ++ [s] = [])) by (intros [_ ?]%app_nil; done).
  by rewrite andb_false_r.
Qed.

Lemma drop_last_snoc {A} (l : list A) x : drop_last (l ++ [x]) = l.
Proof. unfold drop_last. rewrite length_app. cbn. rewrite Nat.add_sub. apply take_app_length. Qed.

Lemma split_on_app c l m cur :
  split_on c (l ++ c :: m) cur = split_on c l cur ++ split_on c m [].
Proof.
  revert cur. induction l as [|d l IH]; intros cur; cbn [split_on app].
  - by rewrite bool_decide_eq_true_2.
  - destruct (bool_decide_reflect (d = c)); [|apply IH]. cbn [app]. f_equal. apply IH.
Qed.
Lemma split_on_none c l cur : c ∉ l -> split_on c l cur = [reverse cur ++ l].
Proof.
  revert cur. induction l as [|d l IH]; intros cur Hc; cbn [split_on].
  - by rewrite app_nil_r.
  - apply not_elem_of_cons in Hc as [Hd Hc]. rewrite bool_decide_eq_false_2 by done.
    rewrite IH by done. by rewrite reverse_cons, <- (assoc_L (++)).
Qed.
Lemma split_on_nonempty c l cur : split_on c l cur <> [].
Proof. revert cur. induction l as [|d l IH]; intros cur; cbn [split_on]; [done|]. by case_bool_decide. Qed.
Lemma join_split c l cur : join_with c (split_on c l cur) = reverse cur ++ l.
Proof.
  revert cur. induction l as [|d l IH]; intros cur; cbn [split_on]; [by rewrite app_nil_r|].
  case_bool_decide as Hd.
  - subst d. pose proof (split_on_nonempty c l []). specialize (IH []).
    destruct (split_on c l []) as [|s segs] eqn:E; [done|]. cbn [join_with]. f_equal. f_equal. exact IH.
  - rewrite IH, reverse_cons. by rewrite <- (assoc_L (++)).
Qed.

Lemma join_split_nil c l : join_with c (split_on c l []) = l.
Proof. by rewrite join_split. Qed.

(** ** A directory as the ceremony and its users name it *)

(** The last segment of the text is a component. *)
Definition tidy (dir : string) : bool :=
  match last (split_on slash (chars dir) []) with Some s => negb (no_component s) | None => false end.
(** A name without a separator. *)
Definition plain_name (name : string) : bool := negb (bool_decide (slash ∈ chars name)) && negb (no_component (chars name)).

Lemma tidy_segments dir : tidy dir = true ->
  exists segs s, split_on slash (chars dir) [] = segs ++ [s] /\ no_component s = false.
Proof.
  unfold tidy. destruct (last _) as [s|] eqn:E; [|done]. intros Hs%negb_true_iff.
  apply last_Some in E as [segs E]. by exists segs, s.
Qed.

Lemma join_with_cons c s segs : segs <> [] -> join_with c (s :: segs) = s ++ c :: join_with c segs.
Proof. by destruct segs. Qed.
Lemma join_with_snoc c segs s :
  join_with c (segs ++ [s]) = (if decide (segs = []) then [] else join_with c segs ++ [c]) ++ s.
Proof.
  induction segs as [|t segs IH]; [done|]. rewrite decide_False by done.
  cbn [app]. rewrite join_with_cons by (by destruct segs). rewrite IH.
  destruct (decide (segs = [])) as [->|]; [cbn [join_with app]; by rewrite <- (assoc_L (++))|].
  rewrite join_with_cons by done. by rewrite <- !(assoc_L (++)).
Qed.

Lemma tidy_last dir : tidy dir = true -> exists c, last (chars dir) = Some c /\ c <> slash.
Proof.
  intros (segs & s & E & Hs)%tidy_segments. pose proof (join_split_nil slash (chars dir)) as Hj.
  rewrite E, join_with_snoc in Hj.
  assert (Hne : s <> []) by (intros ->; done). apply exists_last in Hne as (s' & c & ->).
  exists c. split; [rewrite <- Hj, (assoc_L (++)); apply last_snoc|]. intros ->.
  assert (Hin : s' ++ [slash] ∈ split_on slash (chars dir) []) by (rewrite E; set_solver).
  assert (Hno : forall l cur t, slash ∉ cur -> t ∈ split_on slash l cur -> slash ∉ t).
  { induction l as [|d l IH]; intros cur t Hcur Ht; cbn [split_on] in Ht.
    - apply list_elem_of_singleton in Ht as ->. by rewrite elem_of_reverse.
    - case_bool_decide as Hd; [apply elem_of_cons in Ht as [->|Ht]|].
      + by rewrite elem_of_reverse.
      + eapply IH; [|done]. apply not_elem_of_nil.
      + eapply IH; [|done]. set_solver. }
  eapply Hno; [apply not_elem_of_nil|exact Hin|set_solver].
Qed.

Lemma plain_not_absolute name : plain_name name = true -> is_absolute name = false.
Proof.
  unfold plain_name, is_absolute. intros [Hn%negb_true_iff%bool_decide_eq_false _]%andb_prop.
  apply bool_decide_eq_false. intros Hh. apply Hn. destruct (chars name); [done|]. injection Hh as ->. by constructor.
Qed.

Lemma tidy_join dir name : tidy dir = true -> plain_name name = true ->
  path_join dir name = dir +:+ "/" +:+ name.
Proof.
  intros (c & Hl & Hc)%tidy_last Hn. unfold path_join.
  by rewrite plain_not_absolute, Hl, bool_decide_eq_false_2.
Qed.

(** The segments of a non-empty path after its root. *)
Lemma absolute_segments dir first segs : is_absolute dir = true ->
  split_on slash (chars dir) [] = first :: segs -> first = [] /\ segs <> [].
Proof.
  unfold is_absolute. intros Ha%bool_decide_eq_true E. destruct (chars dir) as [|d l]; [done|]. injection Ha as ->.
  cbn [split_on] in E. rewrite bool_decide_eq_true_2 in E by done. injection E as <- <-.
  split; [done|apply split_on_nonempty].
Qed.

Lemma trim_segments_tidy segs s rest : no_component s = false ->
  segs ++ [s] = rest \/ (exists t, segs ++ [s] = t :: rest) -> trim_segments rest = rest.
Proof.
  intros Hs [<-|[t E]]; [by apply trim_snoc|]. destruct segs as [|u segs]; injection E as <- <-; [done|].
  by apply trim_snoc.
Qed.

Lemma parent_join dir cfg : tidy dir = true -> plain_name cfg = true -> parent (path_join dir cfg) = Some dir.
Proof.
  intros Hd Hcfg. rewrite tidy_join by done. unfold parent, plain_name in *.
  apply andb_prop in Hcfg as [Hsl%negb_true_iff%bool_decide_eq_false Hnc%negb_true_iff].
  rewrite !chars_app. change (chars "/") with [slash]. cbn [app]. rewrite split_on_app.
  rewrite (split_on_none slash (chars cfg)) by done. change (reverse [] ++ chars cfg) with (chars cfg).
  destruct (tidy_segments _ Hd) as (segs & s & E & Hs). pose proof (tidy_last _ Hd) as (c & Hl & _).
  pose proof (join_split_nil slash (chars dir)) as Hj.
  destruct (split_on slash (chars dir) []) as [|first rest] eqn:Esp; [by destruct segs|]. cbn [app].
  assert (Htr : trim_segments rest = rest) by (eapply trim_segments_tidy; eauto).
  assert (is_absolute (dir +:+ "/" +:+ cfg) = is_absolute dir) as ->.
  { unfold is_absolute. rewrite chars_app. by destruct (chars dir). }
  rewrite (bool_decide_eq_false_2 (dir +:+ _ = "")).
  2: { intros Heq%(f_equal chars). rewrite chars_app in Heq. by destruct (chars dir). }
  rewrite trim_snoc by done.
  destruct (rest ++ [chars cfg]) as [|x l] eqn:Hx; [by apply app_nil in Hx as [_ ?]|].
  rewrite <- Hx, drop_last_snoc, Htr. destruct (is_absolute dir) eqn:Ha.
  - destruct (absolute_segments _ _ _ Ha Esp) as [-> Hne]. destruct rest as [|y rest]; [done|].
    rewrite join_with_cons in Hj by done. cbn [app] in Hj. rewrite Hj. f_equal. apply of_chars_chars.
  - rewrite Hj. f_equal. apply of_chars_chars.
Qed.

(** A file next to a configuration file is found by its name. *)
Lemma resolve_sibling dir cfg file :
  tidy dir = true -> plain_name cfg = true -> plain_name file = true ->
  resolve (path_join dir cfg) file = path_join dir file.
Proof. intros. unfold resolve. by rewrite plain_not_absolute, parent_join. Qed.

(** Different names are different files of a directory. *)
Lemma join_inj dir n1 n2 : tidy dir = true -> plain_name n1 = true -> plain_name n2 = true ->
  path_join dir n1 = path_join dir n2 -> n1 = n2.
Proof.
  intros Hd H1 H2. rewrite !tidy_join by done. intros Heq%(f_equal chars). rewrite !chars_app in Heq.
  apply app_inv_head in Heq. injection Heq as Heq. rewrite <- (of_chars_chars n1), <- (of_chars_chars n2). by f_equal.
Qed.

(** ** A concrete file system *)

Definition toy_files : FileSystem := {|
  files := gmap string bytes;
  fs_read f p := ok_or "not found" (f !! p);
  fs_write f p b := Ok (<[p := b]> f);
  fs_remove f p := delete p f
|}.
Lemma toy_files_laws : FileSystemLaws toy_files.
Proof.
  split.
  - intros f p b f' [= <-]. cbn. by rewrite lookup_insert_eq.
  - intros f p b f' q [= <-] Hq. cbn. by rewrite lookup_insert_ne.
Qed.
Lemma toy_writes f p b : exists f', fs_write (FileSystem:=toy_files) f p b = Ok f'.
Proof. by eexists. Qed.
Definition toy_directories : Directories (Fs:=toy_files) := {| fs_create_dir_all f _ := Ok f |}.
