(* ===== verification/Wire.v ===== *)
(** * JSON form of the node messages

    The derived [Serialize] and [Deserialize] of what the nodes exchange: the
    messages of [network/src/messages.rs], the tagged enumerations of
    [network/src/codec.rs] and the signed envelopes of
    [network/src/signed_envelope.rs] with their modules [verifier_id_serde],
    [bytes_base64] and [sig_serde]. [Wire] is a JSON form with its round trip; an
    instance gives the [SerdeJson] the frames and envelopes of Network are built
    on.

    As serde reads them, structures are objects with their members in any order,
    unknown members are skipped, repeated ones refused and members with a default
    may be missing; the base64 crate is the class [Base64]. *)

From S2P Require Import Prelude Core Threshold Registry Network Json Os.

Class Wire (A : Type) := {
  to_json : A -> Json;
  of_json : Json -> result string A;
  of_to_json a : of_json (to_json a) = Ok a
}.

Class Base64 := {
  b64_encode : bytes -> string;
  b64_decode : string -> result string bytes;
  b64_roundtrip b : b64_decode (b64_encode b) = Ok b
}.

(** ** Reading members *)

Lemma required_here {A} b v ms (read : Json -> result string A) n : required (b, (n, v) :: ms) read n = read v.
Proof. unfold required, member. cbn [snd]. by rewrite filter_cons, decide_True. Qed.
Lemma required_skip {A} b n' v ms (read : Json -> result string A) n :
  n' <> n -> required (b, (n', v) :: ms) read n = required (b, ms) read n.
Proof. intros Hn. unfold required, member. cbn [snd]. by rewrite filter_cons, decide_False. Qed.
Lemma defaulted_here {A} d b v ms (read : Json -> result string A) n : defaulted d (b, (n, v) :: ms) read n = read v.
Proof. unfold defaulted, member. cbn [snd]. by rewrite filter_cons, decide_True. Qed.
Lemma defaulted_skip {A} d b n' v ms (read : Json -> result string A) n :
  n' <> n -> defaulted d (b, (n', v) :: ms) read n = defaulted d (b, ms) read n.
Proof. intros Hn. unfold defaulted, member. cbn [snd]. by rewrite filter_cons, decide_False. Qed.

Lemma filter_key_le_1 (ms : list (string * Json)) f : NoDup ms.*1 -> (length (filter (fun m => m.1 = f) ms) <= 1)%nat.
Proof.
  induction ms as [|[k v] ms IH]; [cbn; lia|]. rewrite fmap_cons. cbn [fst]. intros [Hk Hms]%NoDup_cons.
  rewrite filter_cons. case_decide as Hf; [|by apply IH]. cbn in Hf. subst f.
  assert (filter (fun m : string * Json => m.1 = k) ms = []) as ->; [|cbn; lia].
  apply elem_of_nil_inv. intros [k' v'] [Heq Hin]%list_elem_of_filter. cbn in Heq. subst k'.
  apply Hk, list_elem_of_fmap. by exists (k, v').
Qed.

(** An object without repeated members. *)
Lemma struct_members_nodup fields ms : bool_decide (NoDup ms.*1) = true -> struct_members fields (JObject ms) = Ok (false, ms).
Proof.
  intros Hms%bool_decide_eq_true_1. unfold struct_members.
  assert (Hf : forallb (fun f => (length (filter (fun m => m.1 = f) ms) <=? 1)%nat) fields = true).
  { apply forallb_forall. intros f _. apply Nat.leb_le. by apply filter_key_le_1. }
  by rewrite Hf.
Qed.

Lemma struct_members_object fields ms r : struct_members fields (JObject ms) = Ok r -> r = (false, ms).
Proof. unfold struct_members. intros (u & _ & [= <-])%bind_Ok. done. Qed.

(** Reading back a structure just written. *)
Ltac read_members :=
  cbn [mbind result_bind];
  repeat (first
    [ rewrite required_here, ?of_to_json; cbn [mbind result_bind]
    | rewrite required_skip by discriminate
    | rewrite defaulted_here, ?of_to_json; cbn [mbind result_bind]
    | rewrite defaulted_skip by discriminate ]).
Ltac read_struct := rewrite struct_members_nodup by reflexivity; read_members.

(** ** Primitive values *)

Definition read_uint (w : positive) (v : Json) : result string (uint w) :=
  match v with
  | JInt n => if (0 <=? n) && (n <? 2 ^ Zpos w) then Ok (u_of_Z w n) else Err "invalid value"
  | _ => Err "invalid type"
  end.
Lemma read_uint_of w (x : uint w) : read_uint w (JInt (uval x)) = Ok x.
Proof.
  unfold read_uint. pose proof (uval_range x) as [H1 H2]. rewrite (proj2 (Z.leb_le _ _) H1), (proj2 (Z.ltb_lt _ _) H2). cbn [andb].
  f_equal. apply uint_eq. by rewrite uval_of_Z_small.
Qed.
#[export] Instance uint_wire w : Wire (uint w) := { to_json x := JInt (uval x); of_json := read_uint w; of_to_json := read_uint_of w }.
#[export] Instance string_wire : Wire string := { to_json := JString; of_json := read_string; of_to_json _ := eq_refl }.
#[export] Instance bool_wire : Wire bool := { to_json := JBool; of_json := read_bool; of_to_json _ := eq_refl }.

Lemma read_all_of {A} `{Wire A} (l : list A) : read_all of_json (to_json <$> l) = Ok l.
Proof. induction l as [|x l IH]; [done|]. rewrite fmap_cons. cbn [read_all]. rewrite of_to_json. cbn [mbind result_bind]. by rewrite IH. Qed.
#[export] Instance vec_wire {A} `{Wire A} : Wire (list A) :=
  { to_json l := JArray (to_json <$> l); of_json := read_vec of_json; of_to_json := read_all_of }.

(** [[u8; n]]: an array of exactly [n] numbers. *)
Definition read_array (n : nat) (v : Json) : result string (array n) :=
  l ← read_vec of_json v; ok_or "invalid length" (try_into n l).
#[export] Instance array_wire n : Wire (array n).
Proof.
  refine {| to_json a := to_json (arr a); of_json := read_array n |}.
  intros a. unfold read_array. change (read_vec of_json (to_json (arr a))) with (of_json (A:=bytes) (to_json (arr a))).
  rewrite of_to_json. cbn [mbind result_bind]. by rewrite try_into_arr.
Defined.

(** A tuple structure with one field is its field. *)
Definition newtype_wire {A B} `{Wire A} (proj : B -> A) (inj : A -> B) (Hinj : forall b, inj (proj b) = b) : Wire B.
Proof.
  refine {| to_json b := to_json (proj b); of_json v := inj <$> of_json v |}.
  intros b. rewrite of_to_json. cbn. by rewrite Hinj.
Defined.
#[export] Instance SessionId_wire : Wire SessionId := newtype_wire SessionId_0 MkSessionId ltac:(by intros []).
#[export] Instance VerifierId_wire : Wire VerifierId := newtype_wire VerifierId_0 MkVerifierId ltac:(by intros []).
#[export] Instance DigestBytes_wire : Wire DigestBytes := newtype_wire DigestBytes_0 MkDigestBytes ltac:(by intros []).
#[export] Instance UnixTimestamp_wire : Wire UnixTimestamp := newtype_wire UnixTimestamp_0 MkUnixTimestamp ltac:(by intros []).
#[export] Instance RegistryEpoch_wire : Wire RegistryEpoch := newtype_wire RegistryEpoch_0 MkRegistryEpoch ltac:(by intros []).

(** ** Messages (messages.rs) *)

Definition FrostRound1Request_fields : list string :=
  ["session_id"; "coordinator_id"; "signed_digest"; "envelope_digest"; "signer_set"; "round_expires_at"; "registry_epoch";
   "hsp_proof_bytes"; "hsp_pvk_bytes"; "dctls_evidence_bytes"; "rand_value_bytes"; "server_cert_hash_bytes"].
Definition FrostRound1Request_members (m : FrostRound1Request) : list (string * Json) :=
  [("session_id", to_json (f1_session_id m)); ("coordinator_id", to_json (f1_coordinator_id m));
   ("signed_digest", to_json (f1_signed_digest m)); ("envelope_digest", to_json (f1_envelope_digest m));
   ("signer_set", to_json (f1_signer_set m)); ("round_expires_at", to_json (f1_round_expires_at m));
   ("registry_epoch", to_json (f1_registry_epoch m)); ("hsp_proof_bytes", to_json (f1_hsp_proof_bytes m));
   ("hsp_pvk_bytes", to_json (f1_hsp_pvk_bytes m)); ("dctls_evidence_bytes", to_json (f1_dctls_evidence_bytes m));
   ("rand_value_bytes", to_json (f1_rand_value_bytes m)); ("server_cert_hash_bytes", to_json (f1_server_cert_hash_bytes m))].
Definition FrostRound1Request_of_members (ms : bool * list (string * Json)) : result string FrostRound1Request :=
  session_id ← required ms of_json "session_id";
  coordinator_id ← required ms of_json "coordinator_id";
  signed_digest ← required ms of_json "signed_digest";
  envelope_digest ← required ms of_json "envelope_digest";
  signer_set ← required ms of_json "signer_set";
  round_expires_at ← required ms of_json "round_expires_at";
  registry_epoch ← required ms of_json "registry_epoch";
  hsp_proof_bytes ← defaulted [] ms of_json "hsp_proof_bytes";
  hsp_pvk_bytes ← defaulted [] ms of_json "hsp_pvk_bytes";
  dctls_evidence_bytes ← defaulted [] ms of_json "dctls_evidence_bytes";
  rand_value_bytes ← defaulted [] ms of_json "rand_value_bytes";
  server_cert_hash_bytes ← defaulted [] ms of_json "server_cert_hash_bytes";
  Ok (MkFrostRound1Request session_id coordinator_id signed_digest envelope_digest signer_set round_expires_at registry_epoch
        hsp_proof_bytes hsp_pvk_bytes dctls_evidence_bytes rand_value_bytes server_cert_hash_bytes).
#[export] Instance FrostRound1Request_wire : Wire FrostRound1Request.
Proof.
  refine {| to_json m := JObject (FrostRound1Request_members m);
            of_json v := ms ← struct_members FrostRound1Request_fields v; FrostRound1Request_of_members ms |}.
  intros []. unfold FrostRound1Request_members, FrostRound1Request_of_members. by read_struct.
Defined.

(** The responses have three members. *)
Definition response_json (field : string) (s : SessionId) (v : VerifierId) (b : bytes) : Json :=
  JObject [("session_id", to_json s); ("verifier_id", to_json v); (field, to_json b)].
Definition read_response_members (field : string) (v : Json) : result string (SessionId * VerifierId * bytes) :=
  ms ← struct_members ["session_id"; "verifier_id"; field] v;
  session_id ← required ms of_json "session_id";
  verifier_id ← required ms of_json "verifier_id";
  b ← required ms of_json field;
  Ok (session_id, verifier_id, b).

(** The requests of the second round have four. *)
Definition round2_json (s : SessionId) (c : VerifierId) (b : bytes) (set : list VerifierId) : Json :=
  JObject [("session_id", to_json s); ("coordinator_id", to_json c); ("signing_package_bytes", to_json b);
           ("signer_set", to_json set)].
Definition read_round2 (v : Json) : result string (SessionId * VerifierId * bytes * list VerifierId) :=
  ms ← struct_members ["session_id"; "coordinator_id"; "signing_package_bytes"; "signer_set"] v;
  session_id ← required ms of_json "session_id";
  coordinator_id ← required ms of_json "coordinator_id";
  b ← required ms of_json "signing_package_bytes";
  signer_set ← required ms of_json "signer_set";
  Ok (session_id, coordinator_id, b, signer_set).

#[export] Instance FrostRound1Response_wire : Wire FrostRound1Response.
Proof.
  refine {| to_json m := response_json "commitment_bytes" (f1r_session_id m) (f1r_verifier_id m) (f1r_commitment_bytes m);
            of_json v := '(s, i, b) ← read_response_members "commitment_bytes" v; Ok (MkFrostRound1Response s i b) |}.
  intros []. unfold response_json, read_response_members. by read_struct.
Defined.
#[export] Instance FrostRound2Request_wire : Wire FrostRound2Request.
Proof.
  refine {| to_json m := round2_json (f2_session_id m) (f2_coordinator_id m) (f2_signing_package_bytes m) (f2_signer_set m);
            of_json v := '(s, c, b, set) ← read_round2 v; Ok (MkFrostRound2Request s c b set) |}.
  intros []. unfold round2_json, read_round2. by read_struct.
Defined.
#[export] Instance FrostRound2Response_wire : Wire FrostRound2Response.
Proof.
  refine {| to_json m := response_json "signature_share_bytes" (f2r_session_id m) (f2r_verifier_id m) (f2r_signature_share_bytes m);
            of_json v := '(s, i, b) ← read_response_members "signature_share_bytes" v; Ok (MkFrostRound2Response s i b) |}.
  intros []. unfold response_json, read_response_members. by read_struct.
Defined.
#[export] Instance HandshakeBindingRound1Request_wire : Wire HandshakeBindingRound1Request.
Proof.
  refine {| to_json m := JObject [("session_id", to_json (hb1_session_id m)); ("coordinator_id", to_json (hb1_coordinator_id m));
              ("binding_input", to_json (hb1_binding_input m)); ("signer_set", to_json (hb1_signer_set m));
              ("round_expires_at", to_json (hb1_round_expires_at m)); ("registry_epoch", to_json (hb1_registry_epoch m))];
            of_json v :=
              ms ← struct_members ["session_id"; "coordinator_id"; "binding_input"; "signer_set"; "round_expires_at"; "registry_epoch"] v;
              session_id ← required ms of_json "session_id";
              coordinator_id ← required ms of_json "coordinator_id";
              binding_input ← required ms of_json "binding_input";
              signer_set ← required ms of_json "signer_set";
              round_expires_at ← required ms of_json "round_expires_at";
              registry_epoch ← required ms of_json "registry_epoch";
              Ok (MkHandshakeBindingRound1Request session_id coordinator_id binding_input signer_set round_expires_at registry_epoch) |}.
  intros []. by read_struct.
Defined.
#[export] Instance HandshakeBindingRound1Response_wire : Wire HandshakeBindingRound1Response.
Proof.
  refine {| to_json m := response_json "commitment_bytes" (hb1r_session_id m) (hb1r_verifier_id m) (hb1r_commitment_bytes m);
            of_json v := '(s, i, b) ← read_response_members "commitment_bytes" v; Ok (MkHandshakeBindingRound1Response s i b) |}.
  intros []. unfold response_json, read_response_members. by read_struct.
Defined.
#[export] Instance HandshakeBindingRound2Request_wire : Wire HandshakeBindingRound2Request.
Proof.
  refine {| to_json m := round2_json (hb2_session_id m) (hb2_coordinator_id m) (hb2_signing_package_bytes m) (hb2_signer_set m);
            of_json v := '(s, c, b, set) ← read_round2 v; Ok (MkHandshakeBindingRound2Request s c b set) |}.
  intros []. unfold round2_json, read_round2. by read_struct.
Defined.
#[export] Instance HandshakeBindingRound2Response_wire : Wire HandshakeBindingRound2Response.
Proof.
  refine {| to_json m := response_json "signature_share_bytes" (hb2r_session_id m) (hb2r_verifier_id m) (hb2r_signature_share_bytes m);
            of_json v := '(s, i, b) ← read_response_members "signature_share_bytes" v; Ok (MkHandshakeBindingRound2Response s i b) |}.
  intros []. unfold response_json, read_response_members. by read_struct.
Defined.

(** ** Enumerations (codec.rs) *)

(** [#[serde(tag = "type", content = "payload")]] *)
Definition tagged_json (tag : string) (content : Json) : Json := JObject [("type", JString tag); ("payload", content)].
Definition read_tagged {A} (read : string -> Json -> result string A) (v : Json) : result string A :=
  ms ← struct_members ["type"; "payload"] v;
  tag ← required ms read_string "type";
  required ms (read tag) "payload".

Definition NodeRequest_content (tag : string) (v : Json) : result string NodeRequest :=
  if bool_decide (tag = "FrostRound1") then ReqFrostRound1 <$> of_json v
  else if bool_decide (tag = "FrostRound2") then ReqFrostRound2 <$> of_json v
  else if bool_decide (tag = "HandshakeBindingRound1") then ReqHandshakeBindingRound1 <$> of_json v
  else if bool_decide (tag = "HandshakeBindingRound2") then ReqHandshakeBindingRound2 <$> of_json v
  else Err "unknown variant".
Definition NodeRequest_json (r : NodeRequest) : Json :=
  match r with
  | ReqFrostRound1 m => tagged_json "FrostRound1" (to_json m)
  | ReqFrostRound2 m => tagged_json "FrostRound2" (to_json m)
  | ReqHandshakeBindingRound1 m => tagged_json "HandshakeBindingRound1" (to_json m)
  | ReqHandshakeBindingRound2 m => tagged_json "HandshakeBindingRound2" (to_json m)
  end.

Definition read_reason (v : Json) : result string NodeResponse :=
  ms ← struct_members ["reason"] v; reason ← required ms read_string "reason"; Ok (RespError reason).
Definition NodeResponse_content (tag : string) (v : Json) : result string NodeResponse :=
  if bool_decide (tag = "FrostRound1") then RespFrostRound1 <$> of_json v
  else if bool_decide (tag = "FrostRound2") then RespFrostRound2 <$> of_json v
  else if bool_decide (tag = "HandshakeBindingRound1") then RespHandshakeBindingRound1 <$> of_json v
  else if bool_decide (tag = "HandshakeBindingRound2") then RespHandshakeBindingRound2 <$> of_json v
  else if bool_decide (tag = "Error") then read_reason v
  else Err "unknown variant".
Definition NodeResponse_json (r : NodeResponse) : Json :=
  match r with
  | RespFrostRound1 m => tagged_json "FrostRound1" (to_json m)
  | RespFrostRound2 m => tagged_json "FrostRound2" (to_json m)
  | RespHandshakeBindingRound1 m => tagged_json "HandshakeBindingRound1" (to_json m)
  | RespHandshakeBindingRound2 m => tagged_json "HandshakeBindingRound2" (to_json m)
  | RespError reason => tagged_json "Error" (JObject [("reason", JString reason)])
  end.

Lemma read_tagged_of {A} (read : string -> Json -> result string A) tag v :
  read_tagged read (tagged_json tag v) = read tag v.
Proof. unfold read_tagged, tagged_json. rewrite struct_members_nodup by reflexivity. read_members. cbn [read_string as_str ok_or mbind result_bind]. by read_members. Qed.

#[export] Instance NodeRequest_wire : Wire NodeRequest.
Proof.
  refine {| to_json := NodeRequest_json; of_json := read_tagged NodeRequest_content |}.
  intros [m|m|m|m]; unfold NodeRequest_json; rewrite read_tagged_of; unfold NodeRequest_content;
    repeat (rewrite bool_decide_eq_true_2 by done || rewrite bool_decide_eq_false_2 by discriminate); by rewrite of_to_json.
Defined.
#[export] Instance NodeResponse_wire : Wire NodeResponse.
Proof.
  refine {| to_json := NodeResponse_json; of_json := read_tagged NodeResponse_content |}.
  intros [m|m|m|m|reason]; unfold NodeResponse_json; rewrite read_tagged_of; unfold NodeResponse_content;
    repeat (rewrite bool_decide_eq_true_2 by done || rewrite bool_decide_eq_false_2 by discriminate); [by rewrite of_to_json..|reflexivity].
Defined.

(** ** Signed envelopes (signed_envelope.rs) *)

Section Envelope.
Context {B64 : Base64}.

Definition verifier_id_serialize (id : VerifierId) : Json := JString (hex_encode (arr (as_bytes id))).
Definition verifier_id_deserialize (v : Json) : result string VerifierId :=
  s ← read_string v;
  bs ← hex_decode s;
  a ← ok_or "verifier_id must be 32 bytes" (try_into 32 bs);
  Ok (from_bytes a).

Definition bytes_base64_serialize (b : bytes) : Json := JString (b64_encode b).
Definition bytes_base64_deserialize (v : Json) : result string bytes := s ← read_string v; b64_decode s.

Definition sig_serialize (sig : array 64) : Json := JString (b64_encode (arr sig)).
Definition sig_deserialize (v : Json) : result string (array 64) :=
  s ← read_string v;
  bs ← b64_decode s;
  ok_or "signature must be 64 bytes" (try_into 64 bs).

Lemma verifier_id_of id : verifier_id_deserialize (verifier_id_serialize id) = Ok id.
Proof.
  unfold verifier_id_deserialize, verifier_id_serialize. cbn [read_string as_str ok_or mbind result_bind].
  rewrite hex_decode_encode. cbn [mbind result_bind]. rewrite try_into_arr. by destruct id.
Qed.
Lemma bytes_base64_of b : bytes_base64_deserialize (bytes_base64_serialize b) = Ok b.
Proof using B64. unfold bytes_base64_deserialize, bytes_base64_serialize. cbn [read_string as_str ok_or mbind result_bind]. apply b64_roundtrip. Qed.
Lemma sig_of sig : sig_deserialize (sig_serialize sig) = Ok sig.
Proof using B64.
  unfold sig_deserialize, sig_serialize. cbn [read_string as_str ok_or mbind result_bind].
  rewrite b64_roundtrip. cbn [mbind result_bind]. by rewrite try_into_arr.
Qed.

Definition SignedEnvelope_json (e : SignedEnvelope) : Json :=
  JObject [("sender_id", verifier_id_serialize (sender_id e)); ("timestamp", to_json (timestamp e));
           ("payload", bytes_base64_serialize (payload e)); ("signature", sig_serialize (signature e))].
Definition SignedEnvelope_of_json (v : Json) : result string SignedEnvelope :=
  ms ← struct_members ["sender_id"; "timestamp"; "payload"; "signature"] v;
  sender_id ← required ms verifier_id_deserialize "sender_id";
  timestamp ← required ms of_json "timestamp";
  payload ← required ms bytes_base64_deserialize "payload";
  signature ← required ms sig_deserialize "signature";
  Ok (MkSignedEnvelope sender_id timestamp payload signature).

#[export] Instance SignedEnvelope_wire : Wire SignedEnvelope.
Proof using B64.
  refine {| to_json := SignedEnvelope_json; of_json := SignedEnvelope_of_json |}.
  intros [id ts p sig]. unfold SignedEnvelope_json, SignedEnvelope_of_json. cbn [sender_id timestamp payload signature].
  rewrite struct_members_nodup by reflexivity. read_members. rewrite verifier_id_of. read_members.
  rewrite bytes_base64_of. read_members. by rewrite sig_of.
Defined.
End Envelope.

(** ** The text *)

(** [serde_json::to_vec] and [serde_json::from_slice] of a type with a JSON form. *)
Definition wire_serde {J : SerdeText} {JL : SerdeTextLaws J} {A} `{W : Wire A} : SerdeJson A.
Proof.
  refine {| json_to_vec v := Ok (string_bytes (json_print (to_json v))); json_from_slice := json_slice of_json |}.
  intros v b [= <-]. unfold json_slice. rewrite bytes_string_bytes, json_parse_print. apply of_to_json.
Defined.

(** ** Properties *)

Lemma member_in b ms f v : NoDup ms.*1 -> (f, v) ∈ ms -> member (b, ms) f = Some v.
Proof.
  intros Hms Hin. unfold member. cbn [snd]. pose proof (filter_key_le_1 ms f Hms) as Hlen.
  assert (Hf : (f, v) ∈ filter (fun m => m.1 = f) ms) by by apply list_elem_of_filter.
  destruct (filter _ ms) as [|x [|y l]]; [by apply not_elem_of_nil in Hf| |cbn in Hlen; lia].
  by apply list_elem_of_singleton in Hf as <-.
Qed.
Lemma member_absent b ms f : f ∉ ms.*1 -> member (b, ms) f = None.
Proof.
  intros Hf. unfold member. cbn [snd]. destruct (filter _ ms) as [|[k v] l] eqn:Hfl; [done|].
  assert (Hin : (k, v) ∈ filter (fun m => m.1 = f) ms) by (rewrite Hfl; apply list_elem_of_here).
  apply list_elem_of_filter in Hin as [Heq Hin]. cbn in Heq. subst k. destruct Hf. apply list_elem_of_fmap. by exists (f, v).
Qed.

Lemma required_in {A} b ms (read : Json -> result string A) f v :
  NoDup ms.*1 -> (f, v) ∈ ms -> required (b, ms) read f = read v.
Proof. intros Hms Hin. unfold required. by rewrite (member_in _ _ _ v). Qed.
Lemma defaulted_in {A} `{Wire A} b ms f (l : list A) :
  NoDup ms.*1 -> (f, to_json l) ∈ ms \/ (l = [] /\ f ∉ ms.*1) -> defaulted [] (b, ms) of_json f = Ok l.
Proof.
  intros Hms [Hin|[-> Hf]]; unfold defaulted.
  - rewrite (member_in _ _ _ (to_json l)) by done. apply of_to_json.
  - by rewrite member_absent.
Qed.

(** The members of a request that may be left out when empty. *)
Definition default_members : list string :=
  ["hsp_proof_bytes"; "hsp_pvk_bytes"; "dctls_evidence_bytes"; "rand_value_bytes"; "server_cert_hash_bytes"].

(** The members of a request in any order, among others, and without some of the
    empty ones that have a default. *)
Definition presents (m : FrostRound1Request) (ms : list (string * Json)) : Prop :=
  NoDup ms.*1 /\
  forall f v, (f, v) ∈ FrostRound1Request_members m -> (f, v) ∈ ms \/ (f ∈ default_members /\ v = JArray [] /\ f ∉ ms.*1).

Lemma presents_required m ms f v : presents m ms -> (f, v) ∈ FrostRound1Request_members m -> f ∉ default_members -> (f, v) ∈ ms.
Proof. intros [_ H] Hin Hf. by destruct (H _ _ Hin) as [|[? _]]. Qed.
Lemma presents_default m ms f (l : bytes) : presents m ms -> (f, to_json l) ∈ FrostRound1Request_members m ->
  (f, to_json l) ∈ ms \/ (l = [] /\ f ∉ ms.*1).
Proof.
  intros [_ H] Hin. destruct (H _ _ Hin) as [|(_ & Hv & Hf)]; [by left|right]. split; [|done].
  destruct l as [|x l]; [done|]. by injection Hv.
Qed.

Lemma presents_read m ms : presents m ms -> FrostRound1Request_of_members (false, ms) = Ok m.
Proof.
  intros Hp. pose proof (proj1 Hp) as Hms.
  assert (Hr : forall f v, (f, v) ∈ FrostRound1Request_members m -> f ∉ default_members ->
            forall A (read : Json -> result string A), required (false, ms) read f = read v).
  { intros f v Hin Hf A read. apply required_in; [done|]. by apply (presents_required m). }
  assert (Hd : forall f (l : bytes), (f, to_json l) ∈ FrostRound1Request_members m -> defaulted [] (false, ms) of_json f = Ok l).
  { intros f l Hin. apply defaulted_in; [done|]. by apply (presents_default m). }
  unfold FrostRound1Request_of_members, FrostRound1Request_members in *.
  repeat (erewrite Hr by (repeat constructor || (unfold default_members; set_solver)); rewrite of_to_json; cbn [mbind result_bind]).
  repeat (erewrite Hd by (repeat constructor); cbn [mbind result_bind]). by destruct m.
Qed.

(** An object that repeats a field is refused. *)
Lemma repeated_refused fields ms f v : f ∈ fields -> f ∈ ms.*1 ->
  struct_members fields (JObject (ms ++ [(f, v)])) = Err "duplicate field".
Proof.
  intros Hf ([k w] & Heq & Hin)%list_elem_of_fmap. cbn in Heq. subst k. unfold struct_members.
  destruct (forallb _ fields) eqn:Hall; [|done]. rewrite forallb_forall in Hall.
  assert (Hle := Hall f (proj1 (list_elem_of_In _ _) Hf)). apply Nat.leb_le in Hle. exfalso. revert Hle.
  rewrite filter_app, length_app, filter_cons, decide_True by done. cbn [length filter].
  assert (Hw : (f, w) ∈ filter (fun m => m.1 = f) ms) by by apply list_elem_of_filter.
  destruct (filter _ ms) as [|x l]; [by apply not_elem_of_nil in Hw|]. cbn [length]. lia.
Qed.

Lemma required_absent {A} b ms (read : Json -> result string A) f : f ∉ ms.*1 ->
  required (b, ms) read f = Err ("missing field `" +:+ f +:+ "`").
Proof. intros Hf. unfold required. by rewrite member_absent. Qed.

(** An object that lacks a field without a default is refused. *)
Lemma missing_refused ms f : f ∈ FrostRound1Request_fields -> f ∉ default_members -> f ∉ ms.*1 ->
  is_ok (FrostRound1Request_of_members (false, ms)) = false.
Proof.
  intros Hf Hd Hms. unfold FrostRound1Request_of_members.
  assert (Hr : forall A (read : Json -> result string A), required (false, ms) read f = Err ("missing field `" +:+ f +:+ "`"))
    by (intros; by apply required_absent).
  repeat (match goal with
    | |- is_ok (mbind _ (required (false, ms) ?r ?g)) = false =>
        destruct (required (false, ms) r g) eqn:?; cbn [mbind result_bind]; [|done]
    end).
  exfalso. unfold FrostRound1Request_fields, default_members in *.
  repeat (apply elem_of_cons in Hf as [->|Hf]; [first [by rewrite Hr in * | set_solver]|]). by apply not_elem_of_nil in Hf.
Qed.

(** C29. A round-1 request is read from every object that presents its members: in
    any order, with unknown members among them, and, as coordinators of earlier
    versions send it, without the evidence members when these are empty; the tag
    and the payload may come in either order. The message the code writes is one
    of them, and an object that repeats a member or lacks one without a default
    is refused. *)
Theorem round1_request_presentations m ms : presents m ms ->
  of_json (JObject [("type", JString "FrostRound1"); ("payload", JObject ms)]) = Ok (ReqFrostRound1 m) /\
  of_json (JObject [("payload", JObject ms); ("type", JString "FrostRound1")]) = Ok (ReqFrostRound1 m) /\
  presents m (FrostRound1Request_members m) /\
  (forall f v, f ∈ FrostRound1Request_fields -> f ∈ ms.*1 ->
     is_ok (of_json (A:=FrostRound1Request) (JObject (ms ++ [(f, v)]))) = false) /\
  (forall f, f ∈ FrostRound1Request_fields -> f ∉ default_members ->
     is_ok (of_json (A:=FrostRound1Request) (JObject (filter (fun kv => kv.1 <> f) ms))) = false).
Proof.
  intros Hp. assert (Hm : of_json (JObject ms) = Ok m).
  { cbn [of_json FrostRound1Request_wire]. rewrite struct_members_nodup by (apply bool_decide_eq_true_2, Hp).
    cbn [mbind result_bind]. by apply presents_read. }
  split_and!; [| |by split; [apply (bool_decide_eq_true_1 _)|left]|..].
  - cbn [of_json NodeRequest_wire]. change (JObject _) with (tagged_json "FrostRound1" (JObject ms)) at 1.
    rewrite read_tagged_of. unfold NodeRequest_content. rewrite bool_decide_eq_true_2 by done. by rewrite Hm.
  - cbn [of_json NodeRequest_wire]. unfold read_tagged. rewrite struct_members_nodup by reflexivity. read_members.
    cbn [read_string as_str ok_or mbind result_bind]. read_members.
    unfold NodeRequest_content. rewrite bool_decide_eq_true_2 by done. by rewrite Hm.
  - intros f v Hf Hin. cbn [of_json FrostRound1Request_wire]. by rewrite repeated_refused.
  - intros f Hf Hd. cbn [of_json FrostRound1Request_wire].
    destruct (struct_members _ _) as [r|e] eqn:Hr; [|done]. apply struct_members_object in Hr as ->.
    cbn [mbind result_bind]. apply (missing_refused _ f); [done|done|].
    intros ([k v] & Heq & [Hk _]%list_elem_of_filter)%list_elem_of_fmap. by subst f.
Qed.

(** *** Signed requests over the wire *)

Section Exchange.
Context {J : SerdeText} {JL : SerdeTextLaws J} {B64 : Base64} {Ed : Ed25519}.
#[local] Instance serde_of_wire {A} `{Wire A} : SerdeJson A := wire_serde.

(** A message sealed, framed, read and opened: whatever follows on the stream, a
    frame that fits is read back, and the envelope opens to the message exactly
    within the tolerance of the clocks. *)
Theorem sealed_message_over_wire {A} `{Wire A} ts sender sk (m : A) env reg out rest :
  seal ts sender sk m = Ok env -> write_frame env [] = (out, Ok tt) ->
  Z.of_nat (length out) < 2 ^ 32 -> lookup_key reg sender = Some (ed_verifying_key sk) ->
  read_frame (out ++ rest) = Ok (env, rest) /\
  forall now, Z.abs (uval now - uval ts) <= TIMESTAMP_TOLERANCE_SECS <-> open env reg now = Ok m.
Proof using All.
  intros Hseal Hw Hlen Hkey. split; [|intros now; by apply (sealed_open_iff ts sender sk m env reg now)].
  apply write_frame_Ok in Hw as (json & Hjson & Hmax & ->). cbn [app] in *.
  rewrite length_app, length_u32_be in Hlen. rewrite Z.mod_small in Hmax by lia.
  rewrite <- app_assoc. by apply read_write_frame.
Qed.
End Exchange.

(** ** Examples *)

Section WireExamples.
Definition ex_request : FrostRound1Request :=
  MkFrostRound1Request (sid 1) (vid 2) (digest 3) (digest 4) [vid 5] (MkUnixTimestamp (u_of_Z 64 60)) (MkRegistryEpoch (u_of_Z 64 0))
    [] [] [] [] [].
(** As a coordinator of an earlier version sends it, with a member of its own. *)
Definition ex_members : list (string * Json) :=
  ("version", JInt 1) :: reverse (take 7 (FrostRound1Request_members ex_request)).

Lemma ex_presents : presents ex_request ex_members.
Proof.
  split; [by apply (bool_decide_eq_true_1 _)|]. intros f v Hin. unfold ex_members.
  rewrite <- (take_drop 7 (FrostRound1Request_members ex_request)) in Hin. apply elem_of_app in Hin as [Hin|Hin].
  - left. right. by apply elem_of_reverse.
  - right. cbn [drop FrostRound1Request_members] in Hin.
    repeat (apply elem_of_cons in Hin as [[= -> ->]|Hin]; [split_and!; [unfold default_members; set_solver|done|by apply (bool_decide_eq_true_1 _)]|]).
    by apply not_elem_of_nil in Hin.
Qed.

Lemma round1_request_presentations_witness :
  of_json (JObject [("payload", JObject ex_members); ("type", JString "FrostRound1")]) = Ok (ReqFrostRound1 ex_request).
Proof. apply (round1_request_presentations ex_request ex_members). apply ex_presents. Defined.
End WireExamples.
