(* ===== verification/ProverCircuits.v ===== *)
(** * The circuits of the prover process

    Models [co-snark-prover/src/circuit.rs], [tls_prf_circuit.rs],
    [hmac_sha256.rs] and [sha256_gadget.rs]: the key-commitment circuit over the
    scalar field of BLS12-377, and the TLS-PRF circuit with its own SHA-256 and
    HMAC gadgets, written against another version of the circuit library.

    Variables of the circuit library are those of the class [ArkBits]; the crate
    [sha2] is the class [Sha256]. A circuit is the list of its public inputs and
    of the equalities it enforces, in the assignment the code computes. *)

From S2P Require Import Prelude Core Sha256Gadget HmacGadget CoSnark.

(** ** The scalar field *)

(** Integers modulo [m]. *)
Record Fp (m : positive) := MkFp { fp_val : Z; fp_ok : SIs_true ((0 <=? fp_val) && (fp_val <? Zpos m)) }.
Arguments MkFp {m} fp_val fp_ok.
Arguments fp_val {m} f.

Lemma fp_ok_mod (m : positive) z : (0 <=? z mod Zpos m) && (z mod Zpos m <? Zpos m) = true.
Proof. pose proof (Z.mod_pos_bound z (Zpos m)). lia. Qed.
Definition fp_of_Z {m} (z : Z) : Fp m := MkFp (z mod Zpos m) (SIs_true_intro _ (fp_ok_mod m z)).
Definition fp_add {m} (a b : Fp m) : Fp m := fp_of_Z (fp_val a + fp_val b).

Section FpProps.
Context {m : positive}.
Implicit Types a b c : Fp m.

Lemma Fp_eq a b : fp_val a = fp_val b -> a = b.
Proof. destruct a, b; simpl. by intros ->. Qed.
Lemma fp_of_Z_val a : fp_of_Z (fp_val a) = a.
Proof. apply Fp_eq. destruct a as [z Hz]. simpl. apply SIs_true_elim in Hz. apply Z.mod_small. lia. Qed.
Lemma fp_of_Z_eq x y : fp_of_Z (m:=m) x = fp_of_Z y <-> x mod Zpos m = y mod Zpos m.
Proof. split; [by intros [= ?] | intros; by apply Fp_eq]. Qed.
Lemma fp_add_of_Z x y : fp_add (fp_of_Z (m:=m) x) (fp_of_Z y) = fp_of_Z (x + y).
Proof. apply Fp_eq. simpl. symmetry. apply Zplus_mod. Qed.

(** Congruence as divisibility of the difference. *)
Lemma fp_of_Z_divide x y : fp_of_Z (m:=m) x = fp_of_Z y <-> (Zpos m | x - y).
Proof. rewrite fp_of_Z_eq, <- Z.mod_divide by done. split; intros H; [by apply Z.cong_iff_0 | by apply Z.cong_iff_0]. Qed.

#[export] Instance Fp_eq_dec : EqDecision (Fp m).
Proof.
  refine (fun a b => cast_if (decide (fp_val a = fp_val b))).
  - by apply Fp_eq.
  - abstract congruence.
Defined.
End FpProps.

Module Bls12_377.
Definition r : positive := 8444461749428370424248824938781546531375899335154063827935233455917409239041.
Definition Fr : Type := Fp r.
End Bls12_377.

(** ** The key-commitment circuit (circuit.rs) *)

Record TlsKeyCircuit := MkTlsKeyCircuit {
  tk_p_share : array 32;
  tk_v_share : array 32;
  tk_p_share_fe : option Bls12_377.Fr;
  tk_v_share_fe : option Bls12_377.Fr;
  tk_commitment : Bls12_377.Fr;
  tk_rand_binding : Bls12_377.Fr
}.

(** The shares of the other crate: [xor_shares] is the function of CoSnark.v. *)
Definition prover_xor_shares (a b : array 32) : array 32 := arr_xor a b.

Definition bytes32_to_field (bs : bytes) : Bls12_377.Fr := fp_of_Z (le_val bs).

Definition TlsKeyCircuit_new (p v rand_binding : array 32) : TlsKeyCircuit :=
  let k_mac := prover_xor_shares p v in
  let rand_fe := bytes32_to_field (arr rand_binding) in
  let k_mac_fe := bytes32_to_field (arr k_mac) in
  {| tk_p_share := p; tk_v_share := v; tk_p_share_fe := None; tk_v_share_fe := None;
     tk_commitment := fp_add k_mac_fe rand_fe; tk_rand_binding := rand_fe |}.
Definition TlsKeyCircuit_new_mpc (p_fe v_fe commitment rand_binding : Bls12_377.Fr) : TlsKeyCircuit :=
  {| tk_p_share := array_repeat 32 (byte 0); tk_v_share := array_repeat 32 (byte 0);
     tk_p_share_fe := Some p_fe; tk_v_share_fe := Some v_fe;
     tk_commitment := commitment; tk_rand_binding := rand_binding |}.
Definition TlsKeyCircuit_dummy : TlsKeyCircuit :=
  TlsKeyCircuit_new (array_repeat 32 (byte 0)) (array_repeat 32 (byte 0)) (array_repeat 32 (byte 0)).

(** Public inputs in order, and enforced equalities. *)
Record r1cs := MkR1cs { r1cs_inputs : list Bls12_377.Fr; r1cs_equalities : list (Bls12_377.Fr * Bls12_377.Fr) }.
Definition r1cs_satisfied (s : r1cs) : Prop := Forall (fun e => e.1 = e.2) (r1cs_equalities s).

Definition TlsKeyCircuit_generate_constraints (self : TlsKeyCircuit) : r1cs :=
  let p_packed := default (bytes32_to_field (arr (tk_p_share self))) (tk_p_share_fe self) in
  let v_packed := default (bytes32_to_field (arr (tk_v_share self))) (tk_v_share_fe self) in
  let k_mac_var := fp_add p_packed v_packed in
  let computed := fp_add k_mac_var (tk_rand_binding self) in
  {| r1cs_inputs := [tk_commitment self; tk_rand_binding self];
     r1cs_equalities := [(tk_commitment self, computed)] |}.

(** ** SHA-256 (sha256_gadget.rs) *)

Definition PROVER_SHA256_H : list u32 := u_of_Z 32 <$>
  [0x6a09e667; 0xbb67ae85; 0x3c6ef372; 0xa54ff53a; 0x510e527f; 0x9b05688c; 0x1f83d9ab; 0x5be0cd19].
Definition PROVER_SHA256_K : list u32 := u_of_Z 32 <$> concat [
   [0x428a2f98; 0x71374491; 0xb5c0fbcf; 0xe9b5dba5];
   [0x3956c25b; 0x59f111f1; 0x923f82a4; 0xab1c5ed5];
   [0xd807aa98; 0x12835b01; 0x243185be; 0x550c7dc3];
   [0x72be5d74; 0x80deb1fe; 0x9bdc06a7; 0xc19bf174];
   [0xe49b69c1; 0xefbe4786; 0x0fc19dc6; 0x240ca1cc];
   [0x2de92c6f; 0x4a7484aa; 0x5cb0a9dc; 0x76f988da];
   [0x983e5152; 0xa831c66d; 0xb00327c8; 0xbf597fc7];
   [0xc6e00bf3; 0xd5a79147; 0x06ca6351; 0x14292967];
   [0x27b70a85; 0x2e1b2138; 0x4d2c6dfc; 0x53380d13];
   [0x650a7354; 0x766a0abb; 0x81c2c92e; 0x92722c85];
   [0xa2bfe8a1; 0xa81a664b; 0xc24b8b70; 0xc76c51a3];
   [0xd192e819; 0xd6990624; 0xf40e3585; 0x106aa070];
   [0x19a4c116; 0x1e376c08; 0x2748774c; 0x34b0bcb5];
   [0x391c0cb3; 0x4ed8aa4a; 0x5b9cca4f; 0x682e6ff3];
   [0x748f82ee; 0x78a5636f; 0x84c87814; 0x8cc70208];
   [0x90befffa; 0xa4506ceb; 0xbef9a3f7; 0xc67178f2]].

(** Blocks of sixteen words; [usize] is 64 bits wide. *)
Definition prover_sha256_pad (msg : bytes) : list (list u32) :=
  let bit_len := u_of_Z 64 (Z.of_nat (length msg) * 8) in
  let padded := pad_zeros 64 (msg ++ [byte 0x80]) ++
    ((fun i => byte (Z.land (Z.shiftr (uval bit_len) (Z.of_nat i * 8)) 0xFF)) <$> rev (seq 0 8)) in
  (fun b => (fun i => u_of_Z 32 (be_val (word_at (block_at padded b) i))) <$> seq 0 16)
    <$> seq 0 (length padded / 64).

Section Sha.
Context {Ark : ArkBits}.

Definition prover_shr32 (x : UInt32) (n : nat) : UInt32 :=
  let bits := u32_to_bits_le x in
  u32_from_bits_le ((fun i => if (i <? 32 - n)%nat then nth (i + n) bits false else false) <$> seq 0 32).
Definition prover_and32 (a b : UInt32) : UInt32 :=
  u32_from_bits_le (zip_with andb (u32_to_bits_le a) (u32_to_bits_le b)).
Definition prover_not32 (x : UInt32) : UInt32 := u32_from_bits_le (negb <$> u32_to_bits_le x).

Definition ch32 (a b c : UInt32) : UInt32 :=
  let a_bits := u32_to_bits_le a in
  let b_bits := u32_to_bits_le b in
  let c_bits := u32_to_bits_le c in
  u32_from_bits_le ((fun i =>
    let ab := nth i a_bits false && nth i b_bits false in
    let nac := negb (nth i a_bits false) && nth i c_bits false in
    xorb ab nac) <$> seq 0 32).
Definition maj32 (a b c : UInt32) : UInt32 :=
  let a_bits := u32_to_bits_le a in
  let b_bits := u32_to_bits_le b in
  let c_bits := u32_to_bits_le c in
  u32_from_bits_le ((fun i =>
    let ab := nth i a_bits false && nth i b_bits false in
    let ac := nth i a_bits false && nth i c_bits false in
    let bc := nth i b_bits false && nth i c_bits false in
    xorb (xorb ab ac) bc) <$> seq 0 32).

Definition sigma0_big (a : UInt32) : UInt32 := u32_xor (u32_xor (u32_rotr a 2) (u32_rotr a 13)) (u32_rotr a 22).
Definition sigma1_big (e : UInt32) : UInt32 := u32_xor (u32_xor (u32_rotr e 6) (u32_rotr e 11)) (u32_rotr e 25).
Definition sigma0_small (x : UInt32) : UInt32 := u32_xor (u32_xor (u32_rotr x 7) (u32_rotr x 18)) (prover_shr32 x 3).
Definition sigma1_small (x : UInt32) : UInt32 := u32_xor (u32_xor (u32_rotr x 17) (u32_rotr x 19)) (prover_shr32 x 10).

Definition prover_schedule_step (w : list UInt32) (i : nat) : list UInt32 :=
  let s1 := sigma1_small (nth (i - 2) w zero32) in
  let s0 := sigma0_small (nth (i - 15) w zero32) in
  w ++ [u32_addmany [s1; nth (i - 7) w zero32; s0; nth (i - 16) w zero32]].
Definition prover_schedule (block : list UInt32) : list UInt32 := fold_left prover_schedule_step (seq 16 48) block.

Definition prover_round (w : list UInt32) (s : vars UInt32) (i : nat) : vars UInt32 :=
  let s1 := sigma1_big (ve s) in
  let ch := ch32 (ve s) (vf s) (vg s) in
  let k_i := u32_constant (nth i PROVER_SHA256_K (u_of_Z 32 0)) in
  let t1 := u32_addmany [vh s; s1; ch; k_i; nth i w zero32] in
  let s0 := sigma0_big (va s) in
  let maj := maj32 (va s) (vb s) (vc s) in
  let t2 := u32_addmany [s0; maj] in
  {| vh := vg s; vg := vf s; vf := ve s; ve := u32_addmany [vd s; t1];
     vd := vc s; vc := vb s; vb := va s; va := u32_addmany [t1; t2] |}.

Definition prover_sha256_compress (state : vars UInt32) (block : list UInt32) : vars UInt32 :=
  let w := prover_schedule block in
  let s := fold_left (prover_round w) (seq 0 64) state in
  MkVars (u32_addmany [va s; va state]) (u32_addmany [vb s; vb state])
    (u32_addmany [vc s; vc state]) (u32_addmany [vd s; vd state])
    (u32_addmany [ve s; ve state]) (u32_addmany [vf s; vf state])
    (u32_addmany [vg s; vg state]) (u32_addmany [vh s; vh state]).

Definition prover_initial_state : vars UInt32 :=
  let h i := u32_constant (nth i PROVER_SHA256_H (u_of_Z 32 0)) in
  MkVars (h 0%nat) (h 1%nat) (h 2%nat) (h 3%nat) (h 4%nat) (h 5%nat) (h 6%nat) (h 7%nat).

Definition alloc_block (block : list u32) : list UInt32 := u32_new_witness <$> block.

Definition sha256_circuit (msg : bytes) : vars UInt32 :=
  fold_left (fun state block_words => prover_sha256_compress state (alloc_block block_words))
    (prover_sha256_pad msg) prover_initial_state.

Definition state_to_u32_native (state : vars UInt32) : list u32 := u32_value <$> vars_list state.
Definition u32_arr_to_bytes (words : list u32) : bytes := concat (u32_be <$> words).

(** ** HMAC (hmac_sha256.rs) *)

Definition sha256_from_bytes (msg : bytes) : vars UInt32 :=
  fold_left (fun state block_words => prover_sha256_compress state (alloc_block block_words))
    (prover_sha256_pad msg) prover_initial_state.

Definition state_to_bytes_native (state : vars UInt32) : bytes :=
  concat ((fun word => u32_be (u32_value word)) <$> vars_list state).

Definition bytes_to_block (bs : bytes) : list UInt32 :=
  (fun i => u32_constant (u_of_Z 32 (be_val (word_at bs i)))) <$> seq 0 16.
Definition bytes_slice_to_u32x16 (bs : bytes) : list u32 :=
  (fun i => u_of_Z 32 (be_val (word_at bs i))) <$> seq 0 16.

(** [k_padded[..32].copy_from_slice(key)] *)
Definition k_padded (key : array 32) : bytes := arr key ++ replicate 32 (byte 0).

(** The state after the inner hash takes the place of the first eight words of
    the second block; the others are its padding. *)
Definition hmac_sha256_circuit (key : array 32) (msg : bytes) : vars UInt32 :=
  let ikey := (fun b => u8_xor b (byte 0x36)) <$> k_padded key in
  let okey := (fun b => u8_xor b (byte 0x5c)) <$> k_padded key in
  let inner_state := sha256_from_bytes (ikey ++ msg) in
  let outer_init_state := prover_sha256_compress prover_initial_state (bytes_to_block (take 64 okey)) in
  let inner_bytes_native := state_to_bytes_native inner_state in
  let padded := inner_bytes_native ++ [byte 0x80] in
  let second_block_bytes := padded ++ replicate (56 - length padded) (byte 0) ++
    ((fun i => byte (Z.land (Z.shiftr (96 * 8) (Z.of_nat i * 8)) 0xFF)) <$> rev (seq 0 8)) in
  let second_block_words := u32_new_witness <$> bytes_slice_to_u32x16 second_block_bytes in
  prover_sha256_compress outer_init_state (vars_list inner_state ++ drop 8 second_block_words).
End Sha.

Section Native.
Context {Hs : Sha256}.

Definition sha256_native (data : bytes) : bytes := arr (sha256_digest data).

Definition hmac_sha256_native (key : array 32) (msg : bytes) : bytes :=
  let ikey := (fun b => u8_xor b (byte 0x36)) <$> k_padded key in
  let okey := (fun b => u8_xor b (byte 0x5c)) <$> k_padded key in
  let inner_hash := sha256_native (ikey ++ msg) in
  sha256_native (okey ++ inner_hash).

(** The loop appends 32 bytes per iteration: [n_bytes] units of fuel. *)
Fixpoint prf_native_loop (fuel : nat) (secret : array 32) (full_seed a output : bytes) (n_bytes : nat) : bytes :=
  match fuel with
  | O => output
  | S f =>
      if (length output <? n_bytes)%nat then
        let a := hmac_sha256_native secret a in
        let output := output ++ hmac_sha256_native secret (a ++ full_seed) in
        prf_native_loop f secret full_seed a output n_bytes
      else output
  end.
Definition tls_prf_native (secret : array 32) (label seed : bytes) (n_bytes : nat) : bytes :=
  let full_seed := label ++ seed in
  take n_bytes (prf_native_loop n_bytes secret full_seed full_seed [] n_bytes).
End Native.

(** ** The TLS-PRF circuit (tls_prf_circuit.rs) *)

Definition k_mac_fe_248 (bs : array 32) : Bls12_377.Fr := fp_of_Z (le_val (take 31 (arr bs))).

Definition LABEL_MASTER_SECRET : bytes := string_bytes "master secret".
Definition LABEL_KEY_EXPANSION : bytes := string_bytes "key expansion".

Record ProverPrfCircuit := MkProverPrfCircuit {
  tp_p_share : array 32;
  tp_v_share : array 32;
  tp_pms_bytes : array 32;
  tp_client_random : array 32;
  tp_server_random : array 32;
  tp_commitment : Bls12_377.Fr;
  tp_rand_binding : Bls12_377.Fr
}.

Definition ProverPrfCircuit_new (p v pms client_random server_random rand_binding : array 32) : ProverPrfCircuit :=
  let rand_fe := bytes32_to_field (arr rand_binding) in
  let p_fe := k_mac_fe_248 p in
  let v_fe := k_mac_fe_248 v in
  {| tp_p_share := p; tp_v_share := v; tp_pms_bytes := pms; tp_client_random := client_random;
     tp_server_random := server_random; tp_commitment := fp_add (fp_add p_fe v_fe) rand_fe;
     tp_rand_binding := rand_fe |}.
Definition ProverPrfCircuit_dummy : ProverPrfCircuit :=
  let z := array_repeat 32 (byte 0) in ProverPrfCircuit_new z z z z z z.

(** [Boolean::le_bits_to_fp_var], for fewer bits than the modulus has. *)
Definition le_bits_to_fp_var (bits : list bool) : Bls12_377.Fr := fp_of_Z (bits_val bits).

Section PrfCircuit.
Context {Ark : ArkBits} {Hs : Sha256}.

(** The bytes of word [word_idx] that are packed, most significant first. *)
Definition packed_word_bits (word_idx : nat) (word : UInt32) : list bool :=
  let word_bits_le := u32_to_bits_le word in
  let start_byte := if (word_idx =? 7)%nat then 1%nat else 0%nat in
  concat ((fun byte_idx => take 8 (drop (byte_idx * 8) word_bits_le)) <$> rev (seq start_byte (4 - start_byte))).

Definition prf_k_mac_bits (k_mac_block : vars UInt32) : list bool :=
  concat (imap packed_word_bits (vars_list k_mac_block)).

(** The loop of the key expansion: five blocks. *)
Fixpoint expansion_loop (n : nat) (ms_key : array 32) (seed_ke a_native : bytes) (p_outputs : list (vars UInt32))
    : list (vars UInt32) :=
  match n with
  | O => p_outputs
  | S n' =>
      let a_state := hmac_sha256_circuit ms_key a_native in
      let a_i_bytes := state_to_bytes_native a_state in
      let p_state := hmac_sha256_circuit ms_key (a_i_bytes ++ seed_ke) in
      expansion_loop n' ms_key seed_ke a_i_bytes (p_outputs ++ [p_state])
  end.

(** The gadgets of the first phase constrain only their own witnesses: its second
    hash is not used, and the master secret is computed natively. *)
Definition ProverPrfCircuit_generate_constraints (self : ProverPrfCircuit) : r1cs :=
  let seed_ms := LABEL_MASTER_SECRET ++ arr (tp_client_random self) ++ arr (tp_server_random self) in
  let a1_native := state_to_bytes_native (hmac_sha256_circuit (tp_pms_bytes self) seed_ms) in
  let _p1_state := hmac_sha256_circuit (tp_pms_bytes self) (a1_native ++ seed_ms) in
  let cr_sr := arr (tp_client_random self) ++ arr (tp_server_random self) in
  let ms_key := to_array 32 (tls_prf_native (tp_pms_bytes self) LABEL_MASTER_SECRET cr_sr 32) in
  let seed_ke := LABEL_KEY_EXPANSION ++ arr (tp_server_random self) ++ arr (tp_client_random self) in
  let p_outputs := expansion_loop 5 ms_key seed_ke seed_ke [] in
  let k_mac_block := default prover_initial_state (head p_outputs) in
  let prf_k_mac_var := le_bits_to_fp_var (prf_k_mac_bits k_mac_block) in
  let p_fe := k_mac_fe_248 (tp_p_share self) in
  let v_fe := k_mac_fe_248 (tp_v_share self) in
  let k_mac_share_var := fp_add p_fe v_fe in
  let computed := fp_add k_mac_share_var (tp_rand_binding self) in
  {| r1cs_inputs := [tp_commitment self; tp_rand_binding self];
     r1cs_equalities := [(prf_k_mac_var, k_mac_share_var); (tp_commitment self, computed)] |}.
End PrfCircuit.

(** ** The key-commitment circuit *)

Lemma testbit_byte_cons x X i : 0 <= x < 256 -> 0 <= i ->
  Z.testbit (x + 256 * X) i = if i <? 8 then Z.testbit x i else Z.testbit X (i - 8).
Proof.
  intros Hx Hi. destruct (Z.ltb_spec i 8).
  - rewrite <- (Z.mod_pow2_bits_low (x + 256 * X) 8) by lia. f_equal. symmetry. apply (Z.mod_unique _ _ X); lia.
  - replace i with ((i - 8) + 8) at 1 by lia. rewrite <- Z.div_pow2_bits by lia. f_equal.
    symmetry. apply (Z.div_unique _ _ _ x); lia.
Qed.

Lemma le_val_xor l k : length l = length k -> le_val (zip_with u8_xor l k) = Z.lxor (le_val l) (le_val k).
Proof.
  revert k. induction l as [|x l IH]; intros [|y k] Hl; try done. injection Hl as Hl.
  unfold le_val in *. cbn [zip_with foldr]. rewrite IH by done. rewrite uval_xor.
  pose proof (uval_range x). pose proof (uval_range y).
  pose proof (lxor_range 8 (uval x) (uval y)). apply Z.bits_inj'. intros i Hi.
  rewrite Z.lxor_spec, !testbit_byte_cons by lia. destruct (i <? 8); by rewrite Z.lxor_spec.
Qed.

(** Twice a number is a multiple of the odd modulus exactly when the number is. *)
Lemma divide_double x : (Zpos Bls12_377.r | 2 * x) <-> (Zpos Bls12_377.r | x).
Proof.
  split; [|by apply Z.divide_mul_r]. intros H. apply (Z.gauss _ 2); [done|]. vm_compute. reflexivity.
Qed.

(** What the circuit for one pair of shares demands. *)
Lemma key_circuit_satisfied p v rb :
  r1cs_satisfied (TlsKeyCircuit_generate_constraints (TlsKeyCircuit_new p v rb)) <->
  (Zpos Bls12_377.r | Z.land (le_val (arr p)) (le_val (arr v))).
Proof.
  unfold r1cs_satisfied. cbn [TlsKeyCircuit_generate_constraints TlsKeyCircuit_new r1cs_equalities tk_commitment tk_rand_binding
    tk_p_share tk_v_share tk_p_share_fe tk_v_share_fe default].
  rewrite Forall_singleton. cbn [fst snd]. unfold bytes32_to_field, prover_xor_shares, default, Bls12_377.Fr. rewrite !fp_add_of_Z, fp_of_Z_divide.
  rewrite arr_arr_xor, le_val_xor by (by rewrite !length_arr).
  pose proof (Z.add_lxor_2land (le_val (arr p)) (le_val (arr v))) as Hadd.
  rewrite <- (divide_double (Z.land _ _)), <- (Z.divide_opp_r _ (2 * Z.land _ _)).
  match goal with |- (_ | ?a) <-> (_ | ?b) => replace a with b by lia end. done.
Qed.

(** The circuit of the two-party mode holds exactly for a commitment to the sum
    of the shares. *)
Lemma key_circuit_mpc_satisfied p_fe v_fe c rb :
  r1cs_satisfied (TlsKeyCircuit_generate_constraints (TlsKeyCircuit_new_mpc p_fe v_fe c rb)) <->
  c = fp_add (fp_add p_fe v_fe) rb.
Proof. unfold r1cs_satisfied. cbn. by rewrite Forall_singleton. Qed.

(** ** SHA-256 and HMAC *)

Lemma byte_land z : byte (Z.land z 0xFF) = byte z.
Proof. apply uint_eq. unfold byte. rewrite !uval_of_Z. change 255 with (Z.ones 8). rewrite Z.land_ones by lia. apply Zmod_mod. Qed.

(** The loop that pushes the length, most significant byte first. *)
Lemma length_bytes x :
  ((fun i => byte (Z.land (Z.shiftr x (Z.of_nat i * 8)) 0xFF)) <$> rev (seq 0 8)) = be_bytes 8 x.
Proof.
  rewrite (list_fmap_ext _ (fun i => byte (x / 256 ^ Z.of_nat i))); [done|]. intros _ i _.
  rewrite byte_land, Z.shiftr_div_pow2 by lia. change 256 with (2 ^ 8). rewrite <- Z.pow_mul_r by lia. f_equal. f_equal. f_equal. lia.
Qed.

Lemma prover_pad_blocks msg :
  prover_sha256_pad msg = (fun b => parse_block_native (block_at (Fips.pad msg) b)) <$> seq 0 (length (Fips.pad msg) / 64).
Proof. unfold prover_sha256_pad. rewrite length_bytes. change (be_bytes 8 (uval ?x)) with (u64_be x). fold (sha256_pad msg). by rewrite sha256_pad_fips. Qed.

Lemma fold_left_fmap {A B C} (f : A -> B -> A) (g : C -> B) l a :
  fold_left f (g <$> l) a = fold_left (fun a x => f a (g x)) l a.
Proof. revert a. induction l as [|x l IH]; intros a; csimpl; [done|]. by rewrite IH. Qed.

Section ShaProps.
Context {Ark : ArkBits}.

(** A word given bit by bit. *)
Lemma wval_bits (f : nat -> bool) x :
  0 <= x -> (forall i, (i < 32)%nat -> f i = Z.testbit x (Z.of_nat i)) -> x < 2 ^ 32 ->
  wval (u32_from_bits_le (f <$> seq 0 32)) = x.
Proof.
  intros Hx Hf Hb. unfold wval. rewrite u32_from_bits_value by (by rewrite length_fmap, length_seq).
  apply bits_val_ext; [done|]. intros i. rewrite nth_fmap_seq. destruct (Nat.ltb_spec i 32); [by apply Hf|].
  symmetry. destruct (decide (x = 0)) as [->|]; [apply Z.bits_0|]. apply Z.bits_above_log2; [done|].
  apply Z.log2_lt_pow2; [lia|]. eapply Z.lt_le_trans; [exact Hb|]. apply Z.pow_le_mono_r; lia.
Qed.

Lemma testbit_wval x i : Z.testbit (wval x) (Z.of_nat i) = nth i (u32_to_bits_le x) false.
Proof. unfold wval. by rewrite <- u32_bits_value, testbit_bits_val. Qed.

Lemma testbit_complement x i : (i < 32)%nat ->
  Z.testbit (2 ^ 32 - 1 - wval x) (Z.of_nat i) = negb (nth i (u32_to_bits_le x) false).
Proof.
  intros Hi. unfold wval. rewrite <- u32_bits_value.
  replace (2 ^ 32 - 1 - bits_val (u32_to_bits_le x)) with (bits_val (negb <$> u32_to_bits_le x))
    by (by rewrite bits_val_not, u32_bits_length).
  rewrite testbit_bits_val. rewrite (nth_indep _ false (negb false)) by (by rewrite length_fmap, u32_bits_length).
  apply nth_fmap_default.
Qed.

Lemma wval_complement_range x : 0 <= 2 ^ 32 - 1 - wval x < 2 ^ 32.
Proof. pose proof (wval_range x). lia. Qed.

Lemma land_range a b : 0 <= a < 2 ^ 32 -> 0 <= b -> 0 <= Z.land a b < 2 ^ 32.
Proof.
  intros Ha Hb. replace (Z.land a b) with (Z.land a b mod 2 ^ 32); [apply Z.mod_pos_bound; lia|].
  rewrite <- Z.land_ones by lia. rewrite <- Z.land_assoc, (Z.land_comm b), Z.land_assoc, Z.land_ones by lia.
  by rewrite Z.mod_small.
Qed.

Lemma wval_ch32 a b c : wval (ch32 a b c) = Fips.Ch (wval a) (wval b) (wval c).
Proof.
  pose proof (wval_range a). pose proof (wval_range b). pose proof (wval_range c). pose proof (wval_complement_range a).
  assert (0 <= Fips.Ch (wval a) (wval b) (wval c) < 2 ^ 32).
  { unfold Fips.Ch. apply lxor_range; [lia|..]; apply land_range; lia. }
  apply wval_bits; [lia | | lia].
  intros i Hi. unfold Fips.Ch. by rewrite Z.lxor_spec, !Z.land_spec, testbit_complement, !testbit_wval.
Qed.

Lemma wval_maj32 a b c : wval (maj32 a b c) = Fips.Maj (wval a) (wval b) (wval c).
Proof.
  pose proof (wval_range a). pose proof (wval_range b). pose proof (wval_range c).
  assert (0 <= Fips.Maj (wval a) (wval b) (wval c) < 2 ^ 32).
  { unfold Fips.Maj. apply lxor_range; [lia | apply lxor_range; [lia|..] | ]; apply land_range; lia. }
  apply wval_bits; [lia | | lia].
  intros i Hi. unfold Fips.Maj. by rewrite !Z.lxor_spec, !Z.land_spec, !testbit_wval.
Qed.

Lemma prover_round_value w s i :
  vars_map wval (prover_round w s i) = Fips.round (wval <$> w) (vars_map wval s) i.
Proof.
  rewrite <- round_step_value. unfold prover_round, round_step, vars_map. cbn [va vb vc vd ve vf vg vh].
  rewrite !wval_addmany by (simpl; lia). csimpl. rewrite !wval_addmany by (simpl; lia). csimpl.
  by rewrite wval_ch32, wval_maj32, wval_ch, wval_maj.
Qed.

Lemma prover_schedule_eq block : prover_schedule block = fold_left schedule_step (seq 16 48) block.
Proof. unfold prover_schedule. assert (Hstep : prover_schedule_step = schedule_step) by reflexivity. by rewrite Hstep. Qed.

Lemma fips_add_comm x y : Fips.add [x; y] = Fips.add [y; x].
Proof. unfold Fips.add, Z_sum. cbn [foldr]. f_equal. lia. Qed.

Lemma prover_compress_value state block :
  length block = 16%nat ->
  vars_map wval (prover_sha256_compress state block) = Fips.compress (vars_map wval state) (wval <$> block).
Proof.
  intros Hlen. pose proof (schedule_expand 48 block ltac:(lia)) as Hw. rewrite Hlen in Hw.
  unfold prover_sha256_compress, Fips.compress. rewrite <- Hw, <- prover_schedule_eq.
  assert (Hr : forall l s, vars_map wval (fold_left (prover_round (prover_schedule block)) l s)
                 = fold_left (Fips.round (wval <$> prover_schedule block)) l (vars_map wval s)).
  { induction l as [|i l IH]; intros s; cbn [fold_left]; [done|]. by rewrite IH, prover_round_value. }
  rewrite <- Hr. unfold vars_map. cbn [va vb vc vd ve vf vg vh]. rewrite !wval_addmany by (simpl; lia).
  f_equal; apply fips_add_comm.
Qed.

Lemma prover_initial_value : vars_map wval prover_initial_state = Fips.H0.
Proof. exact initial_state_value. Qed.

(** Hashing native bytes block by block. *)
Lemma prover_absorb_value msg : vars_map wval (sha256_from_bytes msg) = Fips.hash_state msg.
Proof.
  unfold sha256_from_bytes, Fips.hash_state. rewrite prover_pad_blocks.
  destruct (length_pad_fips msg) as (n & Hn & _). rewrite Hn, Nat.mul_comm, Nat.div_mul by done.
  rewrite fold_left_fmap. assert (Hk : (n <= n)%nat) by done. revert Hk. generalize n at 1 3 4 as k.
  induction k as [|k IH]; intros Hk; [apply prover_initial_value|].
  rewrite seq_S, !fold_left_app. cbn [fold_left]. rewrite Nat.add_0_l.
  rewrite prover_compress_value by (unfold alloc_block, parse_block_native; by rewrite !length_fmap, length_seq).
  unfold alloc_block at 2. rewrite parse_block_value by (apply (length_block_at _ n); [lia|lia]).
  f_equal. apply IH. lia.
Qed.

Lemma state_to_bytes_native_value state :
  state_to_bytes_native state = concat (be_bytes 4 <$> vars_list (vars_map wval state)).
Proof. done. Qed.

Lemma sha256_circuit_fips msg : state_to_bytes_native (sha256_circuit msg) = Fips.sha256 msg.
Proof.
  change (sha256_circuit msg) with (sha256_from_bytes msg).
  by rewrite state_to_bytes_native_value, prover_absorb_value.
Qed.

Lemma bytes_to_block_value bs : length bs = 64%nat -> wval <$> bytes_to_block bs = Fips.block_words bs.
Proof.
  intros Hl. rewrite <- (parse_block_value bs Hl). unfold bytes_to_block, parse_block_native. rewrite <- !list_fmap_compose.
  apply list_fmap_ext. intros _ i _. cbn [compose]. unfold compose, wval. by rewrite u32_constant_value, u32_witness_value.
Qed.

Lemma length_vars_list {W} (s : vars W) : length (vars_list s) = 8%nat.
Proof. done. Qed.

Lemma wval_vars_list s : wval <$> vars_list s = vars_list (vars_map wval s).
Proof. done. Qed.
End ShaProps.

Lemma word_at_concat ws rest i w :
  ws !! i = Some w -> word_at (concat (be_bytes 4 <$> ws) ++ rest) i = be_bytes 4 w.
Proof.
  revert i. induction ws as [|x ws IH]; intros [|i] Hi; try done.
  - injection Hi as ->. reflexivity.
  - rewrite <- (IH i Hi). unfold word_at. replace (4 * S i)%nat with (4 + 4 * i)%nat by lia. by rewrite <- drop_drop.
Qed.

Lemma block_words_state (ws : list Z) rest :
  length ws = 8%nat -> Forall (fun w => 0 <= w < 2 ^ 32) ws ->
  take 8 (Fips.block_words (concat (be_bytes 4 <$> ws) ++ rest)) = ws.
Proof.
  intros Hl Hr. unfold Fips.block_words. rewrite <- fmap_take. change (take 8 (seq 0 16)) with (seq 0 8).
  apply list_eq_same_length with 8%nat; [done|by rewrite length_fmap, length_seq|].
  intros i x y Hi Hx Hy. rewrite list_lookup_fmap, lookup_seq_lt in Hx by done. injection Hx as <-.
  cbn [Nat.add]. rewrite (word_at_concat _ _ _ y) by done. rewrite be_val_be_bytes. apply Z.mod_small.
  rewrite Forall_lookup in Hr. exact (Hr i y Hy).
Qed.

(** A message of a block and a half: two compressions. *)
Lemma hash_state_two key h :
  length key = 64%nat -> length h = 32%nat ->
  Fips.hash_state (key ++ h) = Fips.compress (Fips.compress Fips.H0 (Fips.block_words key))
    (Fips.block_words (h ++ [byte 0x80] ++ replicate 23 (byte 0) ++ be_bytes 8 768)).
Proof.
  intros Hk Hh. unfold Fips.hash_state.
  assert (Hp : Fips.pad (key ++ h) = key ++ h ++ [byte 0x80] ++ replicate 23 (byte 0) ++ be_bytes 8 768).
  { unfold Fips.pad. rewrite length_app, Hk, Hh, <- app_assoc. reflexivity. }
  rewrite Hp. replace (length _ / 64)%nat with 2%nat
    by (rewrite !length_app, length_replicate, length_be_bytes, Hk, Hh; done).
  cbn [seq fold_left]. unfold block_at. change (0 * 64)%nat with 0%nat. change (1 * 64)%nat with 64%nat.
  rewrite drop_0, take_app_length', drop_app_length' by done.
  rewrite take_ge; [done|]. rewrite !length_app, length_replicate, length_be_bytes, Hh. done.
Qed.

Lemma hmac_key_block_32 (key : array 32) : Rfc.hmac_key_block (arr key) = k_padded key.
Proof. unfold Rfc.hmac_key_block, k_padded. rewrite length_arr. change (64 <? 32)%nat with false. cbv iota zeta. by rewrite length_arr. Qed.

Section HmacProps.
Context {Ark : ArkBits}.

Lemma second_block_value inner rest :
  length (state_to_bytes_native inner ++ rest) = 64%nat ->
  wval <$> (vars_list inner ++ drop 8 (u32_new_witness <$> bytes_slice_to_u32x16 (state_to_bytes_native inner ++ rest))) =
  Fips.block_words (state_to_bytes_native inner ++ rest).
Proof.
  set (second := state_to_bytes_native inner ++ rest). intros Hls.
  rewrite fmap_app, fmap_drop. change (bytes_slice_to_u32x16 second) with (parse_block_native second).
  rewrite parse_block_value by done. rewrite wval_vars_list.
  assert (Ht : take 8 (Fips.block_words second) = vars_list (vars_map wval inner)).
  { unfold second. rewrite state_to_bytes_native_value, block_words_state; [done|apply length_vars_list|].
    rewrite <- wval_vars_list, Forall_fmap. apply Forall_true. intros x. apply wval_range. }
  rewrite <- Ht. apply take_drop.
Qed.

Lemma hmac_circuit_rfc key msg : state_to_bytes_native (hmac_sha256_circuit key msg) = Rfc.hmac (arr key) msg.
Proof.
  set (ikey := (fun b => u8_xor b (byte 0x36)) <$> k_padded key). set (okey := (fun b => u8_xor b (byte 0x5c)) <$> k_padded key).
  assert (Hlo : length okey = 64%nat).
  { unfold okey, k_padded. by rewrite length_fmap, length_app, length_replicate, length_arr. }
  assert (Hrfc : Rfc.hmac (arr key) msg = Fips.sha256 (okey ++ Fips.sha256 (ikey ++ msg))).
  { unfold Rfc.hmac. rewrite hmac_key_block_32. unfold okey, ikey. by rewrite <- !fmap_xor_comm. }
  rewrite Hrfc, state_to_bytes_native_value. unfold Fips.sha256 at 1. do 3 f_equal.
  rewrite hash_state_two by (done || apply length_fips_sha256).
  unfold hmac_sha256_circuit. fold ikey okey. set (inner := sha256_from_bytes (ikey ++ msg)).
  assert (Hin : state_to_bytes_native inner = Fips.sha256 (ikey ++ msg)).
  { unfold inner. rewrite state_to_bytes_native_value, prover_absorb_value. reflexivity. }
  rewrite length_bytes, length_app, Hin, length_fips_sha256. cbn [length Nat.add Nat.sub]. change (96 * 8) with 768.
  rewrite <- (assoc_L (++)). set (second := Fips.sha256 (ikey ++ msg) ++ _).
  assert (Hls : length second = 64%nat).
  { unfold second. rewrite !length_app, length_fips_sha256, length_replicate, length_be_bytes. done. }
  rewrite prover_compress_value; [|unfold bytes_slice_to_u32x16; by rewrite length_app, length_drop, !length_fmap, length_seq, length_vars_list].
  rewrite prover_compress_value by (unfold bytes_to_block; by rewrite length_fmap, length_seq).
  rewrite prover_initial_value, bytes_to_block_value, take_ge by (rewrite ?length_take; lia).
  unfold second. rewrite <- Hin. rewrite second_block_value; [done|]. rewrite Hin. exact Hls.
Qed.
End HmacProps.

(** ** The TLS-PRF circuit *)

(** Bit strings of whole bytes, one after the other. *)
Lemma bits_val_bytes (ls : list (list bool)) (bss : list bytes) :
  Forall2 (fun l bs => length l = (8 * length bs)%nat /\ bits_val l = le_val bs) ls bss ->
  length (concat ls) = (8 * length (concat bss))%nat /\ bits_val (concat ls) = le_val (concat bss).
Proof.
  induction 1 as [|l bs ls bss [Hl Hv] _ [IHl IHv]]; [done|]. cbn [concat].
  rewrite !length_app, bits_val_app, le_val_app, Hl, Hv, IHl, IHv. split; [lia|]. do 2 f_equal.
  change 256 with (2 ^ 8). rewrite <- Z.pow_mul_r by lia. f_equal. lia.
Qed.

Section PrfProps.
Context {Ark : ArkBits} {Hs : Sha256}.
Hypothesis sha2_is_fips : forall l, arr (sha256_digest l) = Fips.sha256 l.

Lemma word_byte_bits (w : UInt32) k :
  (k < 4)%nat -> length (take 8 (drop (k * 8) (u32_to_bits_le w))) = (8 * length [byte (wval w / 256 ^ Z.of_nat k)])%nat /\
    bits_val (take 8 (drop (k * 8) (u32_to_bits_le w))) = le_val [byte (wval w / 256 ^ Z.of_nat k)].
Proof.
  intros Hk. assert (Hl : (8 <= length (drop (k * 8) (u32_to_bits_le w)))%nat) by (rewrite length_drop, u32_bits_length; lia).
  split; [by rewrite length_take_le|]. rewrite bits_val_take, bits_val_drop, u32_bits_value.
  unfold le_val, byte. cbn [foldr]. rewrite Z.mul_0_r, Z.add_0_r, uval_of_Z. change 256 with (2 ^ 8).
  rewrite <- Z.pow_mul_r by lia. unfold wval. do 3 f_equal. lia.
Qed.

Lemma packed_word_value i (w : UInt32) :
  let bs := if (i =? 7)%nat then take 3 (u32_be (u32_value w)) else u32_be (u32_value w) in
  length (packed_word_bits i w) = (8 * length bs)%nat /\ bits_val (packed_word_bits i w) = le_val bs.
Proof.
  cbv zeta. unfold packed_word_bits.
  assert (Hb : forall ks, Forall (fun k => (k < 4)%nat) ks ->
    let bss := (fun k => [byte (wval w / 256 ^ Z.of_nat k)]) <$> ks in
    length (concat ((fun k => take 8 (drop (k * 8) (u32_to_bits_le w))) <$> ks)) = (8 * length (concat bss))%nat /\
    bits_val (concat ((fun k => take 8 (drop (k * 8) (u32_to_bits_le w))) <$> ks)) = le_val (concat bss)).
  { intros ks Hks. apply bits_val_bytes. induction Hks as [|k ks Hk _ IH]; constructor; [by apply word_byte_bits|exact IH]. }
  destruct (i =? 7)%nat.
  - apply (Hb [3; 2; 1]%nat). repeat constructor; lia.
  - apply (Hb [3; 2; 1; 0]%nat). repeat constructor; lia.
Qed.

Lemma prf_k_mac_packed st :
  le_bits_to_fp_var (prf_k_mac_bits st) = fp_of_Z (le_val (take 31 (state_to_bytes_native st))).
Proof.
  unfold le_bits_to_fp_var, prf_k_mac_bits. f_equal. unfold vars_list. cbn [imap].
  destruct (bits_val_bytes (imap packed_word_bits (vars_list st))
    (imap (fun i w => if (i =? 7)%nat then take 3 (u32_be (u32_value w)) else u32_be (u32_value w)) (vars_list st))) as [_ Hv].
  { unfold vars_list. repeat constructor; apply packed_word_value. }
  exact Hv.
Qed.

Lemma hmac_native_rfc key msg : hmac_sha256_native key msg = Rfc.hmac (arr key) msg.
Proof using sha2_is_fips.
  unfold hmac_sha256_native, sha256_native, Rfc.hmac. rewrite !sha2_is_fips, !fmap_xor_comm.
  by rewrite hmac_key_block_32.
Qed.

Lemma prf_native_loop_eq fuel secret seed a output n :
  prf_native_loop fuel secret seed a output n = p_loop (hmac_sha256_native secret) fuel seed a output n.
Proof. revert a output. induction fuel as [|f IH]; intros a output; cbn [prf_native_loop p_loop]; [done|]. by rewrite IH. Qed.

Lemma tls_prf_native_rfc secret label seed n :
  tls_prf_native secret label seed n = Rfc.P_sha256 (arr secret) (label ++ seed) n.
Proof using sha2_is_fips.
  unfold tls_prf_native. rewrite prf_native_loop_eq. apply p_loop_correct. intros d. apply hmac_native_rfc.
Qed.

Lemma expansion_loop_head n ms seed a x l : head (expansion_loop n ms seed a (x :: l)) = Some x.
Proof. revert a l. induction n as [|n IH]; intros a l; cbn [expansion_loop]; [done|]. apply (IH _ (l ++ _)). Qed.

Lemma expansion_first n ms seed :
  exists st, head (expansion_loop (S n) ms seed seed []) = Some st /\ state_to_bytes_native st = Rfc.P_sha256 (arr ms) seed 32.
Proof.
  cbn [expansion_loop app]. rewrite expansion_loop_head. eexists. split; [reflexivity|]. rewrite !hmac_circuit_rfc.
  rewrite (P_sha256_prefix _ _ 32 1) by lia. rewrite p_prefix_S. cbn [p_prefix fmap list_fmap seq concat app].
  rewrite take_ge; [done|]. unfold Rfc.P_block. by rewrite length_rfc_hmac.
Qed.

(** The key this circuit derives: as in TLS 1.2, from a premaster secret and a
    master secret of 32 bytes. *)
Definition prover_k_mac (pms client_random server_random : array 32) : bytes :=
  let master := Rfc.P_sha256 (arr pms) (LABEL_MASTER_SECRET ++ arr client_random ++ arr server_random) 32 in
  Rfc.P_sha256 master (LABEL_KEY_EXPANSION ++ arr server_random ++ arr client_random) 32.

Lemma prf_circuit_satisfied c :
  let k := le_val (take 31 (prover_k_mac (tp_pms_bytes c) (tp_client_random c) (tp_server_random c))) in
  r1cs_satisfied (ProverPrfCircuit_generate_constraints c) <->
  k = le_val (take 31 (arr (tp_p_share c))) + le_val (take 31 (arr (tp_v_share c))) /\
  tp_commitment c = fp_add (fp_of_Z k) (tp_rand_binding c).
Proof using sha2_is_fips.
  cbv zeta. unfold ProverPrfCircuit_generate_constraints, r1cs_satisfied. cbv zeta. cbn [r1cs_equalities].
  rewrite tls_prf_native_rfc. set (ms := to_array 32 _).
  assert (Hms : arr ms = Rfc.P_sha256 (arr (tp_pms_bytes c)) (LABEL_MASTER_SECRET ++ arr (tp_client_random c) ++ arr (tp_server_random c)) 32).
  { unfold ms. by rewrite arr_to_array by apply length_P_sha256. }
  set (seed := LABEL_KEY_EXPANSION ++ _). destruct (expansion_first 4 ms seed) as (st & -> & Hst). unfold default, id.
  rewrite prf_k_mac_packed, Hst, Hms. change (Rfc.P_sha256 _ seed 32) with (prover_k_mac (tp_pms_bytes c) (tp_client_random c) (tp_server_random c)).
  set (K := prover_k_mac _ _ _). clearbody K. rewrite Forall_cons, Forall_singleton. cbn [fst snd]. unfold k_mac_fe_248, Bls12_377.Fr.
  rewrite fp_add_of_Z. assert (Hsmall : forall l, 0 <= le_val (take 31 l) < 2 ^ 248).
  { intros l. pose proof (le_val_range (take 31 l)). split; [lia|]. eapply Z.lt_le_trans; [apply le_val_range|].
    change (2 ^ 248) with (256 ^ 31). apply Z.pow_le_mono_r; [lia|]. rewrite length_take. lia. }
  pose proof (Hsmall K). pose proof (Hsmall (arr (tp_p_share c))). pose proof (Hsmall (arr (tp_v_share c))).
  assert (Hr : 2 ^ 249 < Zpos Bls12_377.r) by reflexivity. change (2 ^ 249) with (2 ^ 248 * 2) in Hr.
  rewrite fp_of_Z_eq, !Z.mod_small by lia.
  split; intros [Hk Hc]; (split; [exact Hk|]); rewrite Hc, Hk; reflexivity.
Qed.

(** What the TLS-PRF circuit of the prover process demands, for arbitrary public
    inputs and witnesses: its gadgets compute HMAC-SHA256 of RFC 2104, and its two
    equalities hold exactly when the first 31 bytes of both shares, as integers,
    add up to the first 31 bytes of the key that the PRF derives from premaster
    secret and randoms, and the commitment is that sum plus the randomness
    binding. The circuit built by [new] satisfies the second part always. *)
Theorem prover_prf_circuit_relation c key msg :
  let k := le_val (take 31 (prover_k_mac (tp_pms_bytes c) (tp_client_random c) (tp_server_random c))) in
  let sum := le_val (take 31 (arr (tp_p_share c))) + le_val (take 31 (arr (tp_v_share c))) in
  state_to_bytes_native (hmac_sha256_circuit key msg) = Rfc.hmac (arr key) msg /\
  (r1cs_satisfied (ProverPrfCircuit_generate_constraints c) <->
   k = sum /\ tp_commitment c = fp_add (fp_of_Z k) (tp_rand_binding c)) /\
  forall rb, c = ProverPrfCircuit_new (tp_p_share c) (tp_v_share c) (tp_pms_bytes c) (tp_client_random c) (tp_server_random c) rb ->
    (r1cs_satisfied (ProverPrfCircuit_generate_constraints c) <-> k = sum).
Proof using sha2_is_fips.
  cbv zeta. split; [apply hmac_circuit_rfc|]. split; [by apply prf_circuit_satisfied|]. intros rb Hc.
  rewrite prf_circuit_satisfied. split; [tauto|]. intros Hk. split; [done|]. rewrite Hk, Hc.
  cbn [ProverPrfCircuit_new tp_commitment tp_rand_binding tp_p_share tp_v_share]. unfold k_mac_fe_248. by rewrite fp_add_of_Z.
Qed.

(** With the zero secrets of central proving, the circuit is satisfied for one
    value of the sum of the shares only, whatever the session. *)
Lemma central_prf_circuit_fixed_key p v rb :
  let z := array_repeat 32 (byte 0) in
  r1cs_satisfied (ProverPrfCircuit_generate_constraints (ProverPrfCircuit_new p v z z z rb)) ->
  le_val (take 31 (arr p)) + le_val (take 31 (arr v)) = le_val (take 31 (prover_k_mac z z z)).
Proof using sha2_is_fips. cbv zeta. intros [Hk _]%prf_circuit_satisfied. symmetry. exact Hk. Qed.
End PrfProps.

(** The key-commitment circuit against its statement. The circuit adds the packed
    shares where the key is their exclusive or. In central mode the commitment is
    to the key, and the circuit is satisfied exactly when the bitwise conjunction
    of the shares is a multiple of the field modulus: for shares below the modulus,
    when no bit is set in both. In two-party mode it is satisfied exactly by a
    commitment to the sum of the shares, which is the commitment to the key under
    the same condition. *)
Theorem key_circuit_relation p v rb c :
  let P := le_val (arr p) in let V := le_val (arr v) in
  let fe := bytes32_to_field in
  tk_commitment (TlsKeyCircuit_new p v rb) = fp_add (fe (arr (prover_xor_shares p v))) (fe (arr rb)) /\
  (r1cs_satisfied (TlsKeyCircuit_generate_constraints (TlsKeyCircuit_new p v rb)) <-> (Zpos Bls12_377.r | Z.land P V)) /\
  (P < Zpos Bls12_377.r -> (Zpos Bls12_377.r | Z.land P V) <-> Z.land P V = 0) /\
  (r1cs_satisfied (TlsKeyCircuit_generate_constraints (TlsKeyCircuit_new_mpc (fe (arr p)) (fe (arr v)) c (fe (arr rb)))) <->
   c = fp_add (fp_add (fe (arr p)) (fe (arr v))) (fe (arr rb))) /\
  (fp_add (fp_add (fe (arr p)) (fe (arr v))) (fe (arr rb)) = tk_commitment (TlsKeyCircuit_new p v rb) <->
   (Zpos Bls12_377.r | Z.land P V)).
Proof.
  cbv zeta. pose proof (key_circuit_satisfied p v rb) as Hk. split_and!; [done|done| |apply key_circuit_mpc_satisfied|].
  - intros Hp. split; [|intros ->; apply Z.divide_0_r]. intros Hd.
    pose proof (le_val_range (arr p)). pose proof (le_val_range (arr v)).
    pose proof (Z.add_lxor_2land (le_val (arr p)) (Z.land (le_val (arr p)) (le_val (arr v)))) as Hadd.
    assert (0 <= Z.land (le_val (arr p)) (le_val (arr v))) by (apply Z.land_nonneg; lia).
    assert (0 <= Z.lxor (le_val (arr p)) (Z.land (le_val (arr p)) (le_val (arr v)))) by (apply Z.lxor_nonneg; lia).
    rewrite Z.land_assoc, Z.land_diag in Hadd.
    destruct (decide (Z.land (le_val (arr p)) (le_val (arr v)) = 0)) as [|Hne]; [done|].
    apply Z.divide_pos_le in Hd; lia.
  - rewrite <- Hk. unfold r1cs_satisfied. cbn [TlsKeyCircuit_generate_constraints TlsKeyCircuit_new r1cs_equalities tk_commitment
      tk_rand_binding tk_p_share tk_v_share tk_p_share_fe tk_v_share_fe]. rewrite Forall_singleton. cbn [fst snd]. unfold default. done.
Qed.

(** Two shares with a common bit: the circuit of central mode is not satisfied. *)
Lemma central_key_circuit_unsatisfied :
  let s := array_repeat 32 (byte 1) in
  ~ r1cs_satisfied (TlsKeyCircuit_generate_constraints (TlsKeyCircuit_new s s (array_repeat 32 (byte 0)))).
Proof.
  cbv zeta. rewrite key_circuit_satisfied. intros Hd%Z.mod_divide; [|done]. revert Hd. vm_compute. discriminate.
Qed.

Lemma key_circuit_relation_witness :
  r1cs_satisfied (TlsKeyCircuit_generate_constraints
    (TlsKeyCircuit_new (array_repeat 32 (byte 1)) (array_repeat 32 (byte 2)) (array_repeat 32 (byte 7)))).
Proof.
  destruct (key_circuit_relation (array_repeat 32 (byte 1)) (array_repeat 32 (byte 2)) (array_repeat 32 (byte 7))
    (tk_commitment TlsKeyCircuit_dummy)) as (_ & Hsat & Hland & _).
  apply Hsat. apply Hland; vm_compute; reflexivity.
Defined.

(** The key derived from zero secrets, shared with zero. *)
Lemma prover_prf_circuit_relation_witness :
  exists p, r1cs_satisfied (ProverPrfCircuit_generate_constraints (Ark:=value_ark) (Hs:=fips_sha2)
    (ProverPrfCircuit_new p (array_repeat 32 (byte 0)) (array_repeat 32 (byte 0)) (array_repeat 32 (byte 0))
       (array_repeat 32 (byte 0)) (array_repeat 32 (byte 5)))).
Proof.
  pose (z := array_repeat 32 (byte 0)). exists (to_array 32 (prover_k_mac z z z)).
  apply (prover_prf_circuit_relation (Ark:=value_ark) (Hs:=fips_sha2) fips_sha2_law
    (ProverPrfCircuit_new (to_array 32 (prover_k_mac z z z)) z z z z (array_repeat 32 (byte 5))) z [])
    with (rb := array_repeat 32 (byte 5)); [reflexivity|].
  cbn [ProverPrfCircuit_new tp_p_share tp_v_share tp_pms_bytes tp_client_random tp_server_random].
  rewrite arr_to_array by apply length_P_sha256. replace (le_val (take 31 (arr z))) with 0 by reflexivity. lia.
Defined.
