(* ===== verification/ProverProcess.v ===== *)
(** * The prover process

    Models [co-snark-prover/src/types.rs], [main.rs] and [mpc_prover.rs]: the
    messages, the two modes of the process (one request, or a server that keeps
    the proving key), central proving, and two-party proving, where the process
    starts itself once per party.

    External are Groth16 over BLS12-377 (the class [Groth377]; randomness of the
    operating system is an argument), the file system (the class [FileSystem] of Os.v), the
    starting of processes and the proving protocol between two parties (arguments
    of the definitions). The proving protocol, which for party 0 comprises the opening
    and closing of the connection to the other party and the revealing of the proof,
    and the Groth16 prover return a result; panics inside these libraries are not
    represented. Diagnostics on standard error, the simulated latency and
    the failure of writing to standard output, which the code ignores, are left
    out. *)

From S2P Require Import Prelude Core Dctls Sha256Gadget HmacGadget CoSnark Json Os ProverCircuits.

(** ** Messages (types.rs) *)

Inductive Mode := Central | Distributed.

Record ProverRequest := MkProverRequest {
  rq_mode : Mode;
  rq_p_share_hex : string;
  rq_v_share_hex : string;
  rq_rand_binding_hex : string;
  rq_crs_hex : string;
  rq_crs_file : string;
  rq_include_vk : bool
}.
Record ProverResponse := MkProverResponse {
  rs_ok : bool;
  rs_error : option string;
  rs_proof_hex : option string;
  rs_public_inputs_hex : list string;
  rs_k_mac_hex : option string;
  rs_vk_hex : option string;
  rs_mode_used : string
}.
Record SetupResponse := MkSetupResponse {
  sr_ok : bool;
  sr_crs_hex : option string;
  sr_vk_hex : option string;
  sr_error : option string
}.

(** A unit variant is a string, or an object with the variant as its only key. *)
Definition read_mode (v : Json) : result string Mode :=
  name ← ok_or "invalid type" (match v with JString s | JObject [(s, JNull)] => Some s | _ => None end);
  if bool_decide (name = "central") then Ok Central
  else if bool_decide (name = "distributed") then Ok Distributed
  else Err "unknown variant".

Definition ProverRequest_from_json (v : Json) : result string ProverRequest :=
  ms ← struct_members ["mode"; "p_share_hex"; "v_share_hex"; "rand_binding_hex"; "crs_hex"; "crs_file"; "include_vk"] v;
  mode ← defaulted Central ms read_mode "mode";
  p ← required ms read_string "p_share_hex";
  v ← required ms read_string "v_share_hex";
  rb ← required ms read_string "rand_binding_hex";
  crs_hex ← defaulted "" ms read_string "crs_hex";
  crs_file ← defaulted "" ms read_string "crs_file";
  include_vk ← defaulted false ms read_bool "include_vk";
  Ok (MkProverRequest mode p v rb crs_hex crs_file include_vk).

Definition ProverResponse_to_json (r : ProverResponse) : Json :=
  JObject ([("ok", JBool (rs_ok r))] ++ skip_none "error" (rs_error r) ++ skip_none "proof_hex" (rs_proof_hex r) ++
    skip_empty_vec "public_inputs_hex" (rs_public_inputs_hex r) ++ skip_none "k_mac_hex" (rs_k_mac_hex r) ++
    skip_none "vk_hex" (rs_vk_hex r) ++ [("mode_used", JString (rs_mode_used r))]).
Definition ProverResponse_from_json (v : Json) : result string ProverResponse :=
  ms ← struct_members ["ok"; "error"; "proof_hex"; "public_inputs_hex"; "k_mac_hex"; "vk_hex"; "mode_used"] v;
  ok ← required ms read_bool "ok";
  error ← optional ms read_string "error";
  proof ← optional ms read_string "proof_hex";
  inputs ← required ms (read_vec read_string) "public_inputs_hex";
  k_mac ← optional ms read_string "k_mac_hex";
  vk ← optional ms read_string "vk_hex";
  mode ← required ms read_string "mode_used";
  Ok (MkProverResponse ok error proof inputs k_mac vk mode).
Definition SetupResponse_to_json (r : SetupResponse) : Json :=
  JObject [("ok", JBool (sr_ok r)); ("crs_hex", json_option (sr_crs_hex r)); ("vk_hex", json_option (sr_vk_hex r));
           ("error", json_option (sr_error r))].

(** ** External parts *)

Inductive prover_circuit := KeyCircuit (c : TlsKeyCircuit) | PrfCircuit (c : ProverPrfCircuit).

Class Groth377 := {
  ProvingKey : Type;
  VerifyingKey : Type;
  Proof377 : Type;
  OsRng : Type;
  pk_vk : ProvingKey -> VerifyingKey;
  generate_random_parameters : prover_circuit -> OsRng -> result string ProvingKey;
  create_random_proof : prover_circuit -> ProvingKey -> OsRng -> result string Proof377;
  pk_serialize : ProvingKey -> result string bytes;
  pk_deserialize : bytes -> result string ProvingKey;
  vk_serialize : VerifyingKey -> result string bytes;
  proof_serialize : Proof377 -> result string bytes;
  fr377_serialize : Bls12_377.Fr -> result string bytes;
  fr377_deserialize : bytes -> result string Bls12_377.Fr
}.
(** Serialization is total and inverted by deserialization; keys are not empty. *)
Class Groth377Laws (G : Groth377) : Prop := {
  pk_roundtrip k : exists b, pk_serialize k = Ok b /\ b <> [] /\ pk_deserialize b = Ok k;
  vk_total k : exists b, vk_serialize k = Ok b /\ b <> [];
  proof_total p : exists b, proof_serialize p = Ok b;
  fr377_roundtrip x : exists b, fr377_serialize x = Ok b /\ fr377_deserialize b = Ok x
}.

(** ** Helpers (main.rs) *)

Definition err (msg mode : string) : ProverResponse := MkProverResponse false (Some msg) None [] None None mode.
(** A handler that returns [err(e, mode)] at its first error. *)
Definition or_err (mode : string) (r : result string ProverResponse) : ProverResponse :=
  match r with Ok resp => resp | Err e => err e mode end.

Definition decode32 (s : string) : result string (array 32) :=
  b ← map_err (fun e => "hex: " +:+ e) (hex_decode s);
  ok_or ("want 32 bytes, got " +:+ pretty (length b)) (try_into 32 b).
Definition decode32_default (s : string) : array 32 :=
  if bool_decide (s = "") then array_repeat 32 (byte 0) else unwrap_or (array_repeat 32 (byte 0)) (decode32 s).

(** [std::env::var("COSNARK_FULL_CIRCUIT").as_deref() == Ok("1")] *)
Definition use_full_circuit (var : option string) : bool := bool_decide (var = Some "1").

Definition serialize_hex (serialized : result string bytes) : result string string :=
  hex_encode <$> map_err (fun e => "ser: " +:+ e) serialized.
(** [.ok()] *)
Definition ok_option {E A} (r : result E A) : option A := match r with Ok a => Some a | Err _ => None end.

Section Process.
Context {J : SerdeText} {G : Groth377} {Fs : FileSystem}.

(** The environment variable [COSNARK_FULL_CIRCUIT]. *)
Variable full_var : option string.

(** [writeln!] of a response: the line. *)
Definition emit (r : ProverResponse) : string := json_print (ProverResponse_to_json r).
Definition emit_err (msg : string) : string := emit (MkProverResponse false (Some msg) None [] None None "none").
Definition emit_setup (r : SetupResponse) : string := json_print (SetupResponse_to_json r).

Definition load_params_from_file (f : files) (path : string) : result string ProvingKey :=
  b ← map_err (fun e => "read crs_file " +:+ path +:+ ": " +:+ e) (fs_read f path);
  map_err (fun e => "deser crs_file: " +:+ e) (pk_deserialize b).
Definition deserialize_params (s : string) : result string ProvingKey :=
  b ← map_err (fun e => "hex: " +:+ e) (hex_decode s);
  map_err (fun e => "deser: " +:+ e) (pk_deserialize b).

(** ** Setup *)

Definition run_setup (force_key_circuit : bool) (rng : OsRng) : result string ProvingKey :=
  map_err (fun e => "setup: " +:+ e)
    (if negb force_key_circuit && use_full_circuit full_var
     then generate_random_parameters (PrfCircuit ProverPrfCircuit_dummy) rng
     else generate_random_parameters (KeyCircuit TlsKeyCircuit_dummy) rng).

Definition handle_setup_with_flag (force_key_circuit : bool) (rng : OsRng) : string :=
  emit_setup match run_setup force_key_circuit rng with
    | Ok params => MkSetupResponse true (ok_option (serialize_hex (pk_serialize params)))
                     (ok_option (serialize_hex (vk_serialize (pk_vk params)))) None
    | Err e => MkSetupResponse false None None (Some e)
    end.
Definition handle_setup (rng : OsRng) : string := handle_setup_with_flag false rng.

(** ** Central proving *)

(** The circuit, with the commitment and the randomness it makes public. *)
Definition central_circuit (p v rb : array 32) : prover_circuit * Bls12_377.Fr * Bls12_377.Fr :=
  let z := array_repeat 32 (byte 0) in
  if use_full_circuit full_var then
    let c := ProverPrfCircuit_new p v z z z rb in (PrfCircuit c, tp_commitment c, tp_rand_binding c)
  else
    let c := TlsKeyCircuit_new p v rb in (KeyCircuit c, tk_commitment c, tk_rand_binding c).

(** What both handlers do with a proving key: the tails of [handle_central] and
    [handle_central_with_params] are the same. *)
Definition central_proof (rng : OsRng) (p v rb : array 32) (include_vk : bool) (params : ProvingKey)
    : result string ProverResponse :=
  let '(circuit, commit_fe, rand_fe) := central_circuit p v rb in
  proof ← map_err (fun e => "prove: " +:+ e) (create_random_proof circuit params rng);
  proof_hex ← serialize_hex (proof_serialize proof);
  commit_hex ← serialize_hex (fr377_serialize commit_fe);
  rand_hex ← serialize_hex (fr377_serialize rand_fe);
  let vk_hex := if include_vk then ok_option (serialize_hex (vk_serialize (pk_vk params))) else None in
  Ok {| rs_ok := true; rs_error := None; rs_proof_hex := Some proof_hex;
        rs_public_inputs_hex := [commit_hex; rand_hex];
        rs_k_mac_hex := Some (hex_encode (arr (prover_xor_shares p v)));
        rs_vk_hex := vk_hex; rs_mode_used := "central" |}.

(** Randomness: for a setup, and for the proof. *)
Definition handle_central_with_params (rng : OsRng * OsRng) (f : files) (req : ProverRequest) (cached : option ProvingKey)
    : ProverResponse :=
  or_err "central"
    (p ← decode32 (rq_p_share_hex req);
     v ← decode32 (rq_v_share_hex req);
     rb ← decode32 (rq_rand_binding_hex req);
     params ← match cached with
              | Some c => Ok c
              | None =>
                  if negb (bool_decide (rq_crs_file req = "")) then load_params_from_file f (rq_crs_file req)
                  else if negb (bool_decide (rq_crs_hex req = "")) then deserialize_params (rq_crs_hex req)
                  else run_setup false rng.1
              end;
     central_proof rng.2 p v rb (rq_include_vk req) params).

Definition handle_central (rng : OsRng * OsRng) (f : files) (req : ProverRequest) : ProverResponse :=
  or_err "central"
    (p ← decode32 (rq_p_share_hex req);
     v ← decode32 (rq_v_share_hex req);
     rb ← decode32 (rq_rand_binding_hex req);
     params ← (if negb (bool_decide (rq_crs_file req = "")) then load_params_from_file f (rq_crs_file req)
               else if negb (bool_decide (rq_crs_hex req = "")) then deserialize_params (rq_crs_hex req)
               else run_setup false rng.1);
     central_proof rng.2 p v rb (rq_include_vk req) params).

(** ** Two-party proving: one party (mpc_prover.rs) *)

Definition compute_commitment (p v rb : array 32) : bytes :=
  let p_fe := bytes32_to_field (arr p) in
  let v_fe := bytes32_to_field (arr v) in
  let rb_fe := bytes32_to_field (arr rb) in
  unwrap_or [] (fr377_serialize (fp_add (fp_add p_fe v_fe) rb_fe)).

(** [into_repr().to_bytes_le()] *)
Definition fr377_le_bytes (x : Bls12_377.Fr) : bytes := reverse (be_bytes 32 (fp_val x)).

(** What the proving protocol with the other party returns to this one: the proof,
    revealed. Its arguments are the number of the party, the circuit with this
    party's additive shares and the proving key. *)
Definition mpc_protocol : Type := nat -> prover_circuit -> ProvingKey -> result string Proof377.

Definition party_params (rng : OsRng) (f : files) (full_circ : bool) (v : Json) : result string ProvingKey :=
  match index_str v "crs_file" with
  | Some path =>
      b ← map_err (fun e => "read crs_file: " +:+ e) (fs_read f path);
      map_err (fun e => "deser crs: " +:+ e) (pk_deserialize b)
  | None =>
      map_err (fun e => "setup: " +:+ e)
        (if full_circ then generate_random_parameters (PrfCircuit ProverPrfCircuit_dummy) rng
         else generate_random_parameters (KeyCircuit TlsKeyCircuit_dummy) rng)
  end.

(** [v[key].as_str().and_then(|s| decode32(s).ok()).unwrap_or([0u8; 32])] *)
Definition index_decode32 (v : Json) (key : string) : array 32 :=
  default (array_repeat 32 (byte 0)) (s ← index_str v key; ok_option (decode32 s)).

Definition party_circuit (party_id : nat) (full_circ : bool) (v : Json) (my_share rb : array 32) (commitment_fe : Bls12_377.Fr)
    : prover_circuit :=
  let zero := fp_of_Z 0 in
  let my_share_fe := bytes32_to_field (arr my_share) in
  let rb_fe := bytes32_to_field (arr rb) in
  if full_circ then
    PrfCircuit (ProverPrfCircuit_new my_share (array_repeat 32 (byte 0)) (index_decode32 v "pms_hex")
      (index_decode32 v "client_random_hex") (index_decode32 v "server_random_hex") rb)
  else if (party_id =? 0)%nat then KeyCircuit (TlsKeyCircuit_new_mpc my_share_fe zero commitment_fe rb_fe)
  else KeyCircuit (TlsKeyCircuit_new_mpc zero my_share_fe zero zero).

Definition run_as_party (mpc_create_proof : mpc_protocol) (rng : OsRng) (f : files) (v : Json) : ProverResponse :=
  let party_id := match index_u64 v "party_id" with Some n => Z.to_nat (uval n) | None => 0%nat end in
  or_err "distributed"
    (_ ← ok_or "missing net_config" (index_str v "net_config");
     my_share ← ok_or "missing my_share_hex" (index_str v "my_share_hex");
     rb_hex ← ok_or "missing rand_binding_hex" (index_str v "rand_binding_hex");
     cmt_hex ← ok_or "missing commitment_hex" (index_str v "commitment_hex");
     let full_circ := default false (index_bool v "full_circuit") in
     my_share_bytes ← decode32 my_share;
     rb_bytes ← decode32 rb_hex;
     params ← party_params rng f full_circ v;
     cmt_bytes ← map_err (fun e => "cmt hex: " +:+ e) (hex_decode cmt_hex);
     let commitment_fe := unwrap_or (bytes32_to_field (arr rb_bytes)) (fr377_deserialize cmt_bytes) in
     proof ← map_err (fun e => (if full_circ then "mpc prove (prf): " else "mpc prove: ") +:+ e)
       (mpc_create_proof party_id (party_circuit party_id full_circ v my_share_bytes rb_bytes commitment_fe) params);
     if (party_id =? 0)%nat then
       proof_hex ← serialize_hex (proof_serialize proof);
       Ok {| rs_ok := true; rs_error := None; rs_proof_hex := Some proof_hex;
             rs_public_inputs_hex := [hex_encode (fr377_le_bytes commitment_fe);
                                      hex_encode (fr377_le_bytes (bytes32_to_field (arr rb_bytes)))];
             rs_k_mac_hex := None; rs_vk_hex := ok_option (serialize_hex (vk_serialize (pk_vk params)));
             rs_mode_used := "distributed" |}
     else Ok (MkProverResponse true None None [] None None "mpc_party_1")).

Definition handle_mpc_party (mpc_create_proof : mpc_protocol) (rng : OsRng) (f : files) (v : Json) : string :=
  emit (run_as_party mpc_create_proof rng f v).

(** ** Two-party proving: the coordinator (mpc_prover.rs) *)

(** Code that changes files and returns at its first error. *)
Definition fsm (A : Type) : Type := files -> result string A * files.
#[local] Instance fsm_ret : MRet fsm := fun A a f => (Ok a, f).
#[local] Instance fsm_bind : MBind fsm := fun A B k m f =>
  match m f with (Ok a, f') => k a f' | (Err e, f') => (Err e, f') end.
Definition lift {A} (r : result string A) : fsm A := fun f => (r, f).
Definition get_files : fsm files := fun f => (Ok f, f).
Definition write_file (path : string) (b : bytes) : fsm unit := fun f =>
  match fs_write f path b with Ok f' => (Ok tt, f') | Err e => (Err e, f) end.
Definition remove_file (path : string) : fsm unit := fun f => (Ok tt, fs_remove f path).
Definition fsm_map_err {A} (g : string -> string) (m : fsm A) : fsm A := fun f => let '(r, f') := m f in (map_err g r, f').

(** The operating system: the process identifier, two free ports, and the two
    child processes, which are given their request and see the files. Waiting for
    party 0 returns its standard output. *)
Record coordinator_os := {
  os_id : string;
  find_two_ports : result string (u16 * u16);
  spawn_p1 : files -> string -> result string unit;
  spawn_p0 : files -> string -> result string unit;
  wait_p0 : files -> string -> string -> result string string
}.

Definition deserialize_params_from_hex (s : string) : result string ProvingKey :=
  b ← map_err (fun e => "hex: " +:+ e) (hex_decode s);
  map_err (fun e => "deser: " +:+ e) (pk_deserialize b).

Definition write_net_config (port0 port1 : u16) : fsm string :=
  let path := "/tmp/co-snark-mpc-" +:+ pretty (uval port0) +:+ "-" +:+ pretty (uval port1) +:+ ".cfg" in
  _ ← write_file path (string_bytes (unlines ["127.0.0.1:" +:+ pretty (uval port0); "127.0.0.1:" +:+ pretty (uval port1)]));
  mret path.

(** [serde_json::json!]: the members of the map in the order of their names. *)
Definition party_request (party_id : Z) (cfg_path share_hex crs_path rb_hex cmt_hex : string) : Json :=
  JObject [("action", JString "mpc_party"); ("commitment_hex", JString cmt_hex);
    ("cr_hex", JString (hex_encode (replicate 32 (byte 0xAA)))); ("crs_file", JString crs_path);
    ("full_circuit", JBool (use_full_circuit full_var)); ("my_share_hex", JString share_hex);
    ("net_config", JString cfg_path); ("party_id", JInt party_id);
    ("pms_hex", JString (hex_encode (replicate 32 (byte 0)))); ("rand_binding_hex", JString rb_hex);
    ("sr_hex", JString (hex_encode (replicate 32 (byte 0xBB))))].

Definition run_two_parties (os : coordinator_os) (p v rb k_mac : array 32) (params : ProvingKey) (crs_path : string)
    : fsm ProverResponse :=
  ports ← lift (map_err (fun e => "ports: " +:+ e) (find_two_ports os));
  cfg_path ← fsm_map_err (fun e => "netcfg: " +:+ e) (write_net_config ports.1 ports.2);
  let rb_hex := hex_encode (arr rb) in
  let cmt_hex := hex_encode (compute_commitment p v rb) in
  let req0 := json_print (party_request 0 cfg_path (hex_encode (arr p)) crs_path rb_hex cmt_hex) in
  let req1 := json_print (party_request 1 cfg_path (hex_encode (arr v)) crs_path rb_hex cmt_hex) in
  f ← get_files;
  _ ← lift (map_err (fun e => "spawn p1: " +:+ e) (spawn_p1 os f req1));
  _ ← lift (map_err (fun e => "spawn p0: " +:+ e) (spawn_p0 os f req0));
  stdout0 ← lift (map_err (fun e => "wait p0: " +:+ e) (wait_p0 os f req0 req1));
  _ ← remove_file crs_path;
  let line0 := default "" (first_line stdout0) in
  resp ← lift (map_err (fun e => "parse p0 resp: " +:+ e +:+ " (got: " +:+ str_debug line0 +:+ ")")
                 (j ← json_parse line0; ProverResponse_from_json j));
  mret {| rs_ok := rs_ok resp; rs_error := rs_error resp; rs_proof_hex := rs_proof_hex resp;
          rs_public_inputs_hex := rs_public_inputs_hex resp; rs_k_mac_hex := Some (hex_encode (arr k_mac));
          rs_vk_hex := match rs_vk_hex resp with
                       | None => ok_option (serialize_hex (vk_serialize (pk_vk params)))
                       | Some vk => Some vk
                       end;
          rs_mode_used := "distributed" |}.

Definition fsm_or_err (mode : string) (m : fsm ProverResponse) (f : files) : ProverResponse * files :=
  let '(r, f') := m f in (or_err mode r, f').

Definition write_params (crs_path : string) (params : ProvingKey) : fsm unit :=
  _ ← fsm_map_err (fun e => "crs file: " +:+ e) (write_file crs_path []);
  b ← lift (map_err (fun e => "crs serial: " +:+ e) (pk_serialize params));
  fsm_map_err (fun e => "crs serial: " +:+ e) (write_file crs_path b).

Definition distributed_params (rng : OsRng) (f : files) (req : ProverRequest) : result string ProvingKey :=
  if negb (bool_decide (rq_crs_file req = "")) then
    b ← map_err (fun e => "read crs_file " +:+ rq_crs_file req +:+ ": " +:+ e) (fs_read f (rq_crs_file req));
    map_err (fun e => "deser crs_file: " +:+ e) (pk_deserialize b)
  else if negb (bool_decide (rq_crs_hex req = "")) then deserialize_params_from_hex (rq_crs_hex req)
  else map_err (fun e => "setup: " +:+ e)
         (if negb (use_full_circuit full_var) then generate_random_parameters (KeyCircuit TlsKeyCircuit_dummy) rng
          else generate_random_parameters (PrfCircuit ProverPrfCircuit_dummy) rng).

Definition prove_distributed (os : coordinator_os) (rng : OsRng) (req : ProverRequest) : files -> ProverResponse * files :=
  fsm_or_err "distributed"
    (p ← lift (decode32 (rq_p_share_hex req));
     v ← lift (decode32 (rq_v_share_hex req));
     rb ← lift (decode32 (rq_rand_binding_hex req));
     f ← get_files;
     params ← lift (distributed_params rng f req);
     let crs_path := "/tmp/co-snark-crs-" +:+ os_id os +:+ ".bin" in
     _ ← write_params crs_path params;
     run_two_parties os p v rb (prover_xor_shares p v) params crs_path).

Definition prove_distributed_key_circuit (os : coordinator_os) (rng : OsRng) (p v rb k_mac : array 32)
    : files -> ProverResponse * files :=
  fsm_or_err "distributed"
    (params ← lift (map_err (fun e => "setup: " +:+ e) (generate_random_parameters (KeyCircuit TlsKeyCircuit_dummy) rng));
     let crs_path := "/tmp/co-snark-crs-key-" +:+ os_id os +:+ ".bin" in
     _ ← write_params crs_path params;
     run_two_parties os p v rb k_mac params crs_path).

(** ** The two modes of the process (main.rs) *)

Variable os : coordinator_os.
Variable mpc_create_proof : mpc_protocol.

Definition answer (rng : OsRng * OsRng) (f : files) (req : ProverRequest) (cached : option ProvingKey) (server : bool)
    : string * files :=
  match rq_mode req with
  | Central => (emit (if server then handle_central_with_params rng f req cached else handle_central rng f req), f)
  | Distributed => let '(resp, f') := prove_distributed os rng.1 req f in (emit resp, f')
  end.

(** The member [action] of a line, if it is JSON and has one. *)
Definition line_action (line : string) : option (string * Json) :=
  match json_parse line with Ok v => (fun a => (a, v)) <$> index_str v "action" | Err _ => None end.
Definition parse_request (line : string) : result string ProverRequest :=
  v ← json_parse line; ProverRequest_from_json v.

Definition single_request (rng : OsRng * OsRng) (f : files) (line : string) : list string * files :=
  match parse_request line with
  | Err e => ([emit_err ("JSON parse: " +:+ e)], f)
  | Ok req => let '(out, f') := answer rng f req None false in ([out], f')
  end.

(** The lines written, and the files afterwards. *)
Definition run_single (rng : OsRng * OsRng) (f : files) (input : result string string) : list string * files :=
  match input with
  | Err e => ([emit_err ("stdin read: " +:+ e)], f)
  | Ok text =>
      let line := trim text in
      match line_action line with
      | Some (action, v) =>
          if bool_decide (action = "setup") then
            ([handle_setup_with_flag (default false (index_bool v "force_key_circuit")) rng.1], f)
          else if bool_decide (action = "mpc_party") then ([handle_mpc_party mpc_create_proof rng.1 f v], f)
          else single_request rng f line
      | None => single_request rng f line
      end
  end.

Record server_state := MkServerState { cached_params : option ProvingKey; sv_files : files }.

Definition server_setup (s : server_state) (rng : OsRng) (v : Json) : list string * option server_state :=
  match run_setup (default false (index_bool v "force_key_circuit")) rng with
  | Err e => ([emit_setup (MkSetupResponse false None None (Some e))], Some s)
  | Ok params =>
      ([emit_setup (MkSetupResponse true None (ok_option (serialize_hex (vk_serialize (pk_vk params)))) None)],
       Some (MkServerState (Some params) (sv_files s)))
  end.
Definition server_request (s : server_state) (rng : OsRng * OsRng) (line : string) : list string * option server_state :=
  match parse_request line with
  | Err e => ([emit_err ("parse: " +:+ e)], Some s)
  | Ok req => let '(out, f') := answer rng (sv_files s) req (cached_params s) true in
              ([out], Some (MkServerState (cached_params s) f'))
  end.

(** One iteration of the loop: the lines written, and the state unless the loop
    ends. *)
Definition server_step (s : server_state) (rng : OsRng * OsRng) (input : result string string)
    : list string * option server_state :=
  match input with
  | Err e => ([emit_err ("stdin: " +:+ e)], None)
  | Ok text =>
      let line := trim text in
      if bool_decide (line = "") then ([], Some s) else
      match line_action line with
      | Some (action, v) =>
          if bool_decide (action = "setup") then server_setup s rng.1 v
          else if bool_decide (action = "shutdown") then ([], None)
          else if bool_decide (action = "mpc_party") then ([handle_mpc_party mpc_create_proof rng.1 (sv_files s) v], Some s)
          else server_request s rng line
      | None => server_request s rng line
      end
  end.

(** The lines of standard input, each with the randomness used while it is served. *)
Fixpoint server_loop (s : server_state) (input : list ((OsRng * OsRng) * result string string)) : list string * server_state :=
  match input with
  | [] => ([], s)
  | (rng, line) :: rest =>
      match server_step s rng line with
      | (out, Some s') => let '(outs, s'') := server_loop s' rest in (out ++ outs, s'')
      | (out, None) => (out, s)
      end
  end.
Definition run_server (f : files) (input : list ((OsRng * OsRng) * result string string)) : list string * server_state :=
  server_loop (MkServerState None f) input.

(** [main]: server mode for the first argument [--server]. One-request mode reads
    the first line only; standard input at its end gives an empty line. *)
Definition prover_main (args : list string) (f : files) (input : list ((OsRng * OsRng) * result string string)) (rng0 : OsRng * OsRng)
    : list string :=
  if bool_decide (args !! 1%nat = Some "--server") then (run_server f input).1
  else match input with
       | (rng, line) :: _ => (run_single rng f line).1
       | [] => (run_single rng0 f (Ok "")).1
       end.
End Process.

(** ** The server answers every line *)

Section ServerProps.
Context {J : SerdeText} {G : Groth377} {Fs : FileSystem}.
Variable full_var : option string.
Variable os : coordinator_os (Fs:=Fs).
Variable mpc_create_proof : mpc_protocol.
Implicit Types s : server_state (Fs:=Fs).

(** A response: one line, an object that says whether the request succeeded. *)
Definition is_response (line : string) : Prop :=
  exists j b, line = json_print j /\ value_get j "ok" = Some (JBool b).

Lemma emit_response r : is_response (emit r).
Proof. exists (ProverResponse_to_json r), (rs_ok r). split; [done|]. by destruct r as [ok [?|] [?|] [|??] [?|] [?|] ?]. Qed.
Lemma emit_setup_response r : is_response (emit_setup r).
Proof. by exists (SetupResponse_to_json r), (sr_ok r). Qed.
Lemma answer_response rng f req cached server : is_response (answer full_var os rng f req cached server).1.
Proof.
  unfold answer. destruct (rq_mode req); [apply emit_response|].
  destruct (prove_distributed _ _ _ _ _). apply emit_response.
Qed.

Definition blank (input : result string string) : bool :=
  match input with Ok text => bool_decide (trim text = "") | Err _ => false end.
(** A line that the server reads and that does not end it. *)
Definition served (input : result string string) : Prop :=
  match input with
  | Ok text => trim text <> "" -> forall v, line_action (trim text) <> Some ("shutdown", v)
  | Err _ => False
  end.
(** The key of a line that is a setup request and succeeds. *)
Definition setup_key (x : (OsRng * OsRng) * result string string) : option ProvingKey :=
  match x.2 with
  | Ok text =>
      av ← line_action (trim text);
      if negb (bool_decide (trim text = "")) && bool_decide (av.1 = "setup")
      then ok_option (run_setup full_var (default false (index_bool av.2 "force_key_circuit")) x.1.1) else None
  | Err _ => None
  end.

Lemma server_step_spec s rng input :
  served input ->
  exists out s', server_step full_var os mpc_create_proof s rng input = (out, Some s') /\
    length out = (if blank input then 0 else 1)%nat /\ Forall is_response out /\
    cached_params s' = match setup_key (rng, input) with Some k => Some k | None => cached_params s end.
Proof.
  destruct input as [text|]; [|done]. cbn [served server_step blank setup_key fst snd]. intros Hs.
  case_bool_decide as Hb.
  { exists [], s. split_and!; try done. by destruct (line_action (trim text)) as [[a v]|]. }
  assert (Hreq : (exists out s', server_request full_var os s rng (trim text) = (out, Some s') /\
    length out = 1%nat /\ Forall is_response out /\ cached_params s' = cached_params s)).
  { unfold server_request. destruct (parse_request (trim text)) as [req|e].
    - pose proof (answer_response rng (sv_files s) req (cached_params s) true) as Ha.
      destruct (answer _ _ _ _ _ _ _) as [out f']. eexists _, _. split; [done|]. split_and!; [done| |done]. by apply Forall_singleton.
    - eexists _, _. split; [done|]. split_and!; [done| |done]. apply Forall_singleton, emit_response. }
  destruct (line_action (trim text)) as [[a v]|] eqn:Ha; [|exact Hreq]. cbn [mbind option_bind fst snd negb andb].
  case_bool_decide as Hsetup; cbn [ok_option].
  { subst a. unfold server_setup. destruct (run_setup _ _ _) as [k|e]; eexists _, _;
      (split; [done|]); (split_and!; [done| |done]); apply Forall_singleton, emit_setup_response. }
  case_bool_decide as Hshut; [subst a; by destruct (Hs Hb v)|].
  case_bool_decide; [|exact Hreq]. eexists _, _. split; [done|]. split_and!; [done| |done]. apply Forall_singleton, emit_response.
Qed.

Lemma server_loop_spec input s :
  Forall (fun x => served x.2) input ->
  exists outs s', server_loop full_var os mpc_create_proof s input = (outs, s') /\
    length outs = length (filter (fun x => blank x.2 = false) input) /\ Forall is_response outs /\
    cached_params s' = match last (omap setup_key input) with Some k => Some k | None => cached_params s end.
Proof.
  revert s. induction input as [|[rng line] input IH]; intros s Hall; [by exists [], s|].
  apply Forall_cons in Hall as [Hserved Hall]. cbn [snd] in Hserved.
  destruct (server_step_spec s rng line Hserved) as (out & s1 & Hstep & Hlen & Hresp & Hc1).
  destruct (IH s1 Hall) as (outs & s2 & Hloop & Hlen' & Hresp' & Hc2).
  exists (out ++ outs), s2. cbn [server_loop]. rewrite Hstep, Hloop. split; [done|].
  rewrite length_app, Hlen, Hlen', filter_cons. cbn [snd]. split; [by destruct (blank line)|].
  split; [by apply Forall_app|]. rewrite Hc2, Hc1. cbn [omap list_omap].
  destruct (setup_key (rng, line)) as [k|]; [|done]. change (list_omap _ _ _ input) with (omap setup_key input).
  rewrite last_cons. by destruct (last (omap setup_key input)).
Qed.

(** C37. The server keeps the protocol of one answer per request: of lines that it can
    read and none of which is the shutdown request, every one that is not blank is
    answered by exactly one line, in order, each an object with a boolean [ok]; and
    the proving key in memory is that of the last setup request that succeeded, no
    other line changes it. *)
Theorem server_one_response_per_line f input :
  Forall (fun x => served x.2) input ->
  exists outs s', run_server full_var os mpc_create_proof f input = (outs, s') /\
    length outs = length (filter (fun x => blank x.2 = false) input) /\ Forall is_response outs /\
    cached_params s' = last (omap setup_key input).
Proof.
  intros Hall. destruct (server_loop_spec input (MkServerState None f) Hall) as (outs & s' & H & Hl & Hr & Hc).
  exists outs, s'. split_and!; [done..|]. rewrite Hc. by destruct (last _).
Qed.
End ServerProps.

(** ** Concrete instances *)

(** A proof system that proves everything, and a disk. *)
Definition toy_groth377 : Groth377 := {|
  ProvingKey := unit; VerifyingKey := unit; Proof377 := unit; OsRng := unit; pk_vk k := k;
  generate_random_parameters _ _ := Ok tt; create_random_proof _ _ _ := Ok tt;
  pk_serialize _ := Ok [byte 1]; pk_deserialize _ := Ok tt; vk_serialize _ := Ok [byte 2]; proof_serialize _ := Ok [byte 3];
  fr377_serialize x := Ok (be_bytes 32 (fp_val x)); fr377_deserialize b := Ok (fp_of_Z (be_val b))
|}.
Lemma toy_groth377_laws : Groth377Laws toy_groth377.
Proof.
  split.
  - intros []. by exists [byte 1].
  - intros []. by exists [byte 2].
  - intros []. by exists [byte 3].
  - intros x. exists (be_bytes 32 (fp_val x)). split; [done|]. cbn [fr377_deserialize toy_groth377].
    rewrite be_val_be_bytes. f_equal. rewrite <- (fp_of_Z_val x) at 2. f_equal. apply Z.mod_small.
    destruct x as [z Hz]. cbn [fp_val]. apply SIs_true_elim in Hz.
    assert (Zpos Bls12_377.r < 256 ^ Z.of_nat 32) by reflexivity. lia.
Qed.

Definition toy_mpc : mpc_protocol (G:=toy_groth377) := fun _ _ _ => Ok tt.
Definition toy_os : coordinator_os (Fs:=toy_files) := {|
  os_id := "1"; find_two_ports := Err "none"; spawn_p1 _ _ := Err "none"; spawn_p0 _ _ := Err "none"; wait_p0 _ _ _ := Err "none"
|}.

(** Two setups, a blank line and a line that is not JSON. *)
Lemma server_one_response_per_line_witness :
  exists outs s', run_server (J:=toy_text) (G:=toy_groth377) (Fs:=toy_files) None toy_os toy_mpc ∅
      [((tt, tt), Ok (json_print (SerdeText:=toy_text) (JObject [("action", JString "setup")]))); ((tt, tt), Ok " "); ((tt, tt), Ok "x")]
    = (outs, s') /\ length outs = 2%nat /\ cached_params s' = Some tt.
Proof.
  destruct (server_one_response_per_line (J:=toy_text) (G:=toy_groth377) (Fs:=toy_files) None toy_os toy_mpc ∅
      [((tt, tt), Ok (json_print (SerdeText:=toy_text) (JObject [("action", JString "setup")]))); ((tt, tt), Ok " "); ((tt, tt), Ok "x")])
    as (outs & s' & Hrun & Hlen & _ & Hc).
  - repeat constructor; intros Hb v; vm_compute; discriminate.
  - exists outs, s'. split; [exact Hrun|]. split; [rewrite Hlen; vm_compute; reflexivity|rewrite Hc; vm_compute; reflexivity].
Defined.
