(* ===== verification/ProverClient.v ===== *)
(** * Clients of the prover process

    Models [zk/src/co_snark_distributed.rs]: the client that starts a process per
    call, and the client of a server process, with their messages; and the
    composition of both with the process of ProverProcess.v.

    A process is what answers the client: for the first client a function from
    the text on its standard input to the outcome of running it, for the second a
    state machine over lines. *)

From S2P Require Import Prelude Core Dctls Sha256Gadget HmacGadget CoSnark Json Os ProverCircuits ProverProcess.

(** ** Messages *)

Inductive DistributedProverError :=
  | Spawn (path source : string)
  | StdinWrite (e : string)
  | NoOutput
  | ParseResponse (msg : string)
  | ProverError (msg : string)
  | HexDecode (e : string).

Inductive DistributedMode := DCentral | DDistributed.
Definition DistributedMode_as_str (m : DistributedMode) : string :=
  match m with DCentral => "central" | DDistributed => "distributed" end.

Record ClientRequest := MkClientRequest {
  cr_mode : string;
  cr_p_share_hex : string;
  cr_v_share_hex : string;
  cr_rand_binding_hex : string;
  cr_crs_hex : string;
  cr_crs_file : string;
  cr_include_vk : bool
}.
Definition ClientRequest_to_json (r : ClientRequest) : Json :=
  JObject ([("mode", JString (cr_mode r)); ("p_share_hex", JString (cr_p_share_hex r)); ("v_share_hex", JString (cr_v_share_hex r));
            ("rand_binding_hex", JString (cr_rand_binding_hex r))] ++
    skip_empty_str "crs_hex" (cr_crs_hex r) ++ skip_empty_str "crs_file" (cr_crs_file r) ++
    [("include_vk", JBool (cr_include_vk r))]).

Record SetupRequest := MkSetupRequest { sq_action : string; sq_force_key_circuit : bool }.
Definition SetupRequest_to_json (r : SetupRequest) : Json :=
  JObject [("action", JString (sq_action r)); ("force_key_circuit", JBool (sq_force_key_circuit r))].

Record RawProverResponse := MkRawProverResponse {
  rr_ok : bool;
  rr_error : option string;
  rr_proof_hex : option string;
  rr_public_inputs_hex : option (list string);
  rr_k_mac_hex : option string;
  rr_vk_hex : option string;
  rr_mode_used : option string
}.
Definition RawProverResponse_from_json (v : Json) : result string RawProverResponse :=
  ms ← struct_members ["ok"; "error"; "proof_hex"; "public_inputs_hex"; "k_mac_hex"; "vk_hex"; "mode_used"] v;
  ok ← required ms read_bool "ok";
  error ← optional ms read_string "error";
  proof ← optional ms read_string "proof_hex";
  inputs ← optional ms (read_vec read_string) "public_inputs_hex";
  k_mac ← optional ms read_string "k_mac_hex";
  vk ← optional ms read_string "vk_hex";
  mode ← optional ms read_string "mode_used";
  Ok (MkRawProverResponse ok error proof inputs k_mac vk mode).

Record RawSetupResponse := MkRawSetupResponse {
  rw_ok : bool;
  rw_crs_hex : option string;
  rw_vk_hex : option string;
  rw_error : option string
}.
Definition RawSetupResponse_from_json (v : Json) : result string RawSetupResponse :=
  ms ← struct_members ["ok"; "crs_hex"; "vk_hex"; "error"] v;
  ok ← required ms read_bool "ok";
  crs ← optional ms read_string "crs_hex";
  vk ← optional ms read_string "vk_hex";
  error ← optional ms read_string "error";
  Ok (MkRawSetupResponse ok crs vk error).

Record DistributedCrs := MkDistributedCrs { dc_crs_file : string; dc_crs_hex : string; dc_vk_hex : string }.
Record DistributedProof := MkDistributedProof {
  dp_proof_bytes : bytes;
  dp_public_inputs : list bytes;
  dp_k_mac : array 32;
  dp_vk_bytes : option bytes;
  dp_mode_used : string
}.

Fixpoint decode_all (l : list string) : result DistributedProverError (list bytes) :=
  match l with
  | [] => Ok []
  | h :: l' => b ← map_err HexDecode (hex_decode h); bs ← decode_all l'; Ok (b :: bs)
  end.

(** What both clients do with a response; they differ in the message for an error
    without one. *)
Definition proof_of_response (unknown : string) (resp : RawProverResponse) : result DistributedProverError DistributedProof :=
  _ ← ensure (ProverError (default unknown (rr_error resp))) (rr_ok resp);
  proof_bytes ← map_err HexDecode (hex_decode (default "" (rr_proof_hex resp)));
  public_inputs ← decode_all (default [] (rr_public_inputs_hex resp));
  k_mac_bytes ← map_err HexDecode (hex_decode (default "" (rr_k_mac_hex resp)));
  let k_mac := default (array_repeat 32 (byte 0)) (try_into 32 k_mac_bytes) in
  vk_bytes ← match rr_vk_hex resp with
             | Some s => if bool_decide (s = "") then Ok None else Some <$> map_err HexDecode (hex_decode s)
             | None => Ok None
             end;
  Ok (MkDistributedProof proof_bytes public_inputs k_mac vk_bytes (default "" (rr_mode_used resp))).

(** ** One process per call *)

(** The outcome of starting a process, writing its input and waiting for it; the
    output is that of [from_utf8_lossy]. *)
Inductive process_run :=
  | SpawnFails (e : string)
  | WriteFails (e : string)
  | WaitFails (e : string)
  | Exited (stdout : string).

Record CoSnarkDistributedClient := MkClient { cl_binary_path : string; cl_mode : DistributedMode }.
Definition CoSnarkDistributedClient_new (path : string) (mode : DistributedMode) : CoSnarkDistributedClient := MkClient path mode.

Section Client.
Context {J : SerdeText} {Fs : FileSystem}.

(** [process path input]: what a process started from [path] does with a request
    line. *)
Definition call_subprocess (process : string -> string -> process_run) (self : CoSnarkDistributedClient) (request_json : string)
    : result DistributedProverError string :=
  match process (cl_binary_path self) (unlines [request_json]) with
  | SpawnFails e => Err (Spawn (cl_binary_path self) e)
  | WriteFails e => Err (StdinWrite e)
  | WaitFails e => Err (StdinWrite e)
  | Exited stdout => ok_or NoOutput (first_line stdout)
  end.

(** The path, or the empty string on failure. *)
Definition write_crs_to_file (id crs_hex : string) (f : files) : string * files :=
  if bool_decide (crs_hex = "") then ("", f)
  else match hex_decode crs_hex with
       | Err _ => ("", f)
       | Ok b =>
           let path := "/tmp/co-snark-crs-client-" +:+ id +:+ ".bin" in
           match fs_write f path b with Ok f' => (path, f') | Err _ => ("", f) end
       end.

Definition client_setup (process : string -> string -> process_run) (id : string) (self : CoSnarkDistributedClient) (f : files)
    : result DistributedProverError DistributedCrs * files :=
  let req_json := json_print (SetupRequest_to_json (MkSetupRequest "setup" true)) in
  let parsed :=
    raw ← call_subprocess process self req_json;
    resp ← map_err ParseResponse (v ← json_parse raw; RawSetupResponse_from_json v);
    _ ← ensure (ProverError (default "unknown setup error" (rw_error resp))) (rw_ok resp);
    Ok resp in
  match parsed with
  | Err e => (Err e, f)
  | Ok resp =>
      let crs_hex := default "" (rw_crs_hex resp) in
      let vk_hex := default "" (rw_vk_hex resp) in
      let '(crs_file, f') := write_crs_to_file id crs_hex f in
      (Ok (MkDistributedCrs crs_file crs_hex vk_hex), f')
  end.

Definition client_prove (process : string -> string -> process_run) (self : CoSnarkDistributedClient)
    (p_share v_share rand_binding : array 32) (crs : option DistributedCrs) (include_vk : bool)
    : result DistributedProverError DistributedProof :=
  let crs_file := default "" (dc_crs_file <$> crs) in
  let crs_hex := if bool_decide (crs_file = "") then default "" (dc_crs_hex <$> crs) else "" in
  let req := {| cr_mode := DistributedMode_as_str (cl_mode self); cr_p_share_hex := hex_encode (arr p_share);
                cr_v_share_hex := hex_encode (arr v_share); cr_rand_binding_hex := hex_encode (arr rand_binding);
                cr_crs_hex := crs_hex; cr_crs_file := crs_file; cr_include_vk := include_vk |} in
  raw ← call_subprocess process self (json_print (ClientRequest_to_json req));
  resp ← map_err ParseResponse (v ← json_parse raw; RawProverResponse_from_json v);
  proof_of_response "unknown prove error" resp.

(** ** A server process *)

(** A process that reads lines: a line may be refused when the process is gone. *)
Record process := { pr_state : Type; pr_step : pr_state -> string -> option (pr_state * list string) }.

(** The child, the lines it has written and the client has not read, and the
    verifying key. *)
Record ProverServer (P : process) := MkProverServer { ps_child : pr_state P; ps_unread : list string; ps_vk_hex : string }.
Global Arguments MkProverServer {P} ps_child ps_unread ps_vk_hex.
Global Arguments ps_child {P} p.
Global Arguments ps_unread {P} p.
Global Arguments ps_vk_hex {P} p.

(** Write a line and read a line; at the end of the output [read_line] gives an
    empty one. *)
Definition exchange (P : process) (child : pr_state P) (unread : list string) (line : string)
    : result DistributedProverError (pr_state P * list string * string) :=
  match pr_step P child line with
  | None => Err (StdinWrite "broken pipe")
  | Some (child', out) =>
      match unread ++ out with
      | [] => Ok (child', [], "")
      | l :: rest => Ok (child', rest, l)
      end
  end.

Definition server_setup_line : string := json_print (JObject [("action", JString "setup")]).
Definition server_shutdown_line : string := json_print (JObject [("action", JString "shutdown")]).

Definition ProverServer_spawn (path : string) (P : process) (start : result string (pr_state P))
    : result DistributedProverError (ProverServer P) :=
  child ← map_err (Spawn path) start;
  r ← exchange P child [] server_setup_line;
  let '(child, unread, line) := r in
  resp ← map_err ParseResponse (v ← json_parse (trim line); RawSetupResponse_from_json v);
  _ ← ensure (ProverError (default "setup failed" (rw_error resp))) (rw_ok resp);
  Ok (MkProverServer child unread (default "" (rw_vk_hex resp))).

(** The request is built with [json!]: members in the order of their names. *)
Definition server_prove_request (p_share v_share rand_binding : array 32) (include_vk : bool) : Json :=
  JObject [("include_vk", JBool include_vk); ("mode", JString "central"); ("p_share_hex", JString (hex_encode (arr p_share)));
           ("rand_binding_hex", JString (hex_encode (arr rand_binding))); ("v_share_hex", JString (hex_encode (arr v_share)))].

(** The server is returned with the result: its child has moved on also when the
    response is an error. *)
Definition ProverServer_prove {P : process} (self : ProverServer P) (p_share v_share rand_binding : array 32) (include_vk : bool)
    : result DistributedProverError DistributedProof * ProverServer P :=
  match exchange P (ps_child self) (ps_unread self) (json_print (server_prove_request p_share v_share rand_binding include_vk)) with
  | Err e => (Err e, self)
  | Ok (child, unread, line) =>
      (resp ← map_err ParseResponse (v ← json_parse (trim line); RawProverResponse_from_json v);
       proof_of_response "prove failed" resp,
       MkProverServer child unread (ps_vk_hex self))
  end.

(** [drop] writes the shutdown line and ignores failures. *)
Definition ProverServer_drop {P : process} (self : ProverServer P) : pr_state P :=
  match pr_step P (ps_child self) server_shutdown_line with Some (child, _) => child | None => ps_child self end.
End Client.

(** ** Messages are understood *)

Lemma read_all_strings l : read_all read_string (JString <$> l) = Ok l.
Proof. induction l as [|s l IH]; [done|]. cbn. by rewrite IH. Qed.

(** Reading a response whose inputs are [x :: l]. *)
Ltac read_response x l :=
  unfold RawProverResponse_from_json, ProverResponse_from_json, ProverResponse_to_json;
  cbn [rs_ok rs_error rs_proof_hex rs_public_inputs_hex rs_k_mac_hex rs_vk_hex rs_mode_used];
  unfold skip_empty_vec; rewrite bool_decide_eq_false_2 by done;
  let Hr := fresh in pose proof (read_all_strings (x :: l)) as Hr; revert Hr; generalize (JString <$> x :: l); intros ? Hr;
  match goal with |- ?lhs = _ => let t := eval lazy -[read_all read_string] in lhs in change lhs with t end;
  rewrite Hr; reflexivity.

Lemma raw_response_of_response r :
  RawProverResponse_from_json (ProverResponse_to_json r) =
  Ok {| rr_ok := rs_ok r; rr_error := rs_error r; rr_proof_hex := rs_proof_hex r;
        rr_public_inputs_hex := match rs_public_inputs_hex r with [] => None | l => Some l end;
        rr_k_mac_hex := rs_k_mac_hex r; rr_vk_hex := rs_vk_hex r; rr_mode_used := Some (rs_mode_used r) |}.
Proof.
  destruct r as [ok [e|] [p|] [|x l] [k|] [v|] mode]; try reflexivity.
  all: read_response x l.
Qed.

(** A response with public inputs is read back by the process itself. *)
Lemma response_roundtrip r : rs_public_inputs_hex r <> [] -> ProverResponse_from_json (ProverResponse_to_json r) = Ok r.
Proof.
  destruct r as [ok [e|] [p|] [|x l] [k|] [v|] mode]; intros Hne; try done.
  all: read_response x l.
Qed.

Definition mode_of (m : DistributedMode) : Mode := match m with DCentral => Central | DDistributed => Distributed end.

Lemma request_of_client m p v rb ch cf vk :
  let j := ClientRequest_to_json (MkClientRequest (DistributedMode_as_str m) p v rb ch cf vk) in
  ProverRequest_from_json j = Ok (MkProverRequest (mode_of m) p v rb ch cf vk) /\ index_str j "action" = None.
Proof.
  cbv zeta. unfold ClientRequest_to_json, skip_empty_str. cbn [cr_mode cr_p_share_hex cr_v_share_hex cr_rand_binding_hex cr_crs_hex cr_crs_file cr_include_vk].
  split; destruct m; repeat case_bool_decide; subst; reflexivity.
Qed.

Lemma request_of_server_client p v rb vk :
  let j := server_prove_request p v rb vk in
  ProverRequest_from_json j = Ok (MkProverRequest Central (hex_encode (arr p)) (hex_encode (arr v)) (hex_encode (arr rb)) "" "" vk) /\
  index_str j "action" = None.
Proof. split; reflexivity. Qed.

Lemma raw_setup_of_setup r :
  RawSetupResponse_from_json (SetupResponse_to_json r) = Ok (MkRawSetupResponse (sr_ok r) (sr_crs_hex r) (sr_vk_hex r) (sr_error r)).
Proof. by destruct r as [ok [?|] [?|] [?|]]. Qed.

Lemma decode32_encode (a : array 32) : decode32 (hex_encode (arr a)) = Ok a.
Proof. unfold decode32. rewrite hex_decode_encode. cbn [map_err mbind result_bind]. by rewrite try_into_arr. Qed.

(** ** Both clients over the process *)

Section Composition.
Context {J : SerdeText} {JL : SerdeTextLaws J} {G : Groth377} {GL : Groth377Laws G} {Fs : FileSystem} {FL : FileSystemLaws Fs}.
Variable full_var : option string.
Variable os : coordinator_os (Fs:=Fs).
Variable mpc_create_proof : mpc_protocol.

(** The process in one-request mode. *)
Definition single_process (rng : OsRng * OsRng) (f : files) (path input : string) : process_run :=
  Exited (unlines (run_single full_var os mpc_create_proof rng f (Ok input)).1).

(** The process in server mode: its state counts the lines read, and is [None]
    when it has ended. *)
Definition server_process (rngs : nat -> OsRng * OsRng) : process := {|
  pr_state := option (nat * server_state (Fs:=Fs));
  pr_step st line :=
    match st with
    | None => None
    | Some (n, s) =>
        let '(out, s') := server_step full_var os mpc_create_proof s (rngs n) (Ok line) in
        Some ((fun s' => (S n, s')) <$> s', out)
    end
|}.

(** A setup result that gives the process the proving key [pk]. *)
Definition crs_holds (f : files) (crs : DistributedCrs) (pk : ProvingKey) : Prop :=
  if bool_decide (dc_crs_file crs = "") then dc_crs_hex crs <> "" /\ deserialize_params (dc_crs_hex crs) = Ok pk
  else load_params_from_file f (dc_crs_file crs) = Ok pk.

Lemma line_action_print j : index_str j "action" = None -> line_action (json_print j) = None.
Proof using JL. intros H. unfold line_action. rewrite json_parse_print, H. done. Qed.
Lemma parse_request_print j r : ProverRequest_from_json j = Ok r -> parse_request (json_print j) = Ok r.
Proof using JL. intros H. unfold parse_request. rewrite json_parse_print. exact H. Qed.

(** The line the process answers to a request in one-request mode. *)
Lemma single_answer rng f j r :
  ProverRequest_from_json j = Ok r -> index_str j "action" = None ->
  run_single full_var os mpc_create_proof rng f (Ok (unlines [json_print j])) =
  ([(answer full_var os rng f r None false).1], (answer full_var os rng f r None false).2).
Proof using JL.
  intros Hr Ha. unfold run_single. rewrite trim_print_line, line_action_print by done. unfold single_request.
  rewrite (parse_request_print _ _ Hr). by destruct (answer _ _ _ _ _ _ _).
Qed.

Lemma server_answer s rng j r :
  ProverRequest_from_json j = Ok r -> index_str j "action" = None ->
  server_step full_var os mpc_create_proof s rng (Ok (json_print j)) =
  ([(answer full_var os rng (sv_files s) r (cached_params s) true).1],
   Some (MkServerState (cached_params s) (answer full_var os rng (sv_files s) r (cached_params s) true).2)).
Proof using JL.
  intros Hr Ha. cbn [server_step]. rewrite trim_print, bool_decide_eq_false_2 by apply json_print_nonempty.
  rewrite line_action_print by done. unfold server_request. rewrite (parse_request_print _ _ Hr). by destruct (answer _ _ _ _ _ _ _).
Qed.

(** What a client makes of a response. *)
Definition result_of (r : ProverResponse) : result DistributedProverError DistributedProof :=
  proof_of_response "unknown prove error"
    {| rr_ok := rs_ok r; rr_error := rs_error r; rr_proof_hex := rs_proof_hex r;
       rr_public_inputs_hex := match rs_public_inputs_hex r with [] => None | l => Some l end;
       rr_k_mac_hex := rs_k_mac_hex r; rr_vk_hex := rs_vk_hex r; rr_mode_used := Some (rs_mode_used r) |}.

Lemma client_prove_answer rng f path m p v rb crs vk :
  let cf := default "" (dc_crs_file <$> crs) in
  let ch := if bool_decide (cf = "") then default "" (dc_crs_hex <$> crs) else "" in
  let req := MkProverRequest (mode_of m) (hex_encode (arr p)) (hex_encode (arr v)) (hex_encode (arr rb)) ch cf vk in
  client_prove (single_process rng f) (MkClient path m) p v rb crs vk =
  result_of (match m with
             | DCentral => handle_central full_var rng f req
             | DDistributed => (prove_distributed full_var os rng.1 req f).1
             end).
Proof using JL.
  cbv zeta. unfold client_prove, call_subprocess. cbn [cl_mode cl_binary_path]. set (cf := default "" _). set (ch := (if bool_decide (cf = "") then _ else _) : string).
  destruct (request_of_client m (hex_encode (arr p)) (hex_encode (arr v)) (hex_encode (arr rb)) ch cf vk) as [Hr Ha].
  unfold single_process. rewrite (single_answer rng f _ _ Hr Ha). cbn [fst].
  set (req := MkProverRequest _ _ _ _ _ _ _).
  assert (Hans : exists r, (answer full_var os rng f req None false).1 = emit r /\ r = match m with
             | DCentral => handle_central full_var rng f req
             | DDistributed => (prove_distributed full_var os rng.1 req f).1
             end).
  { unfold answer. destruct m; cbn [rq_mode req mode_of]; [by eexists|]. destruct (prove_distributed _ _ _ _ _). by eexists. }
  destruct Hans as (r & -> & ->). unfold emit. rewrite first_line_print. cbn [ok_or mbind result_bind].
  rewrite json_parse_print. cbn [mbind result_bind]. rewrite raw_response_of_response. done.
Qed.

Lemma server_prove_answer rngs n s vk_hex p v rb vk :
  let req := MkProverRequest Central (hex_encode (arr p)) (hex_encode (arr v)) (hex_encode (arr rb)) "" "" vk in
  ProverServer_prove (P:=server_process rngs) (MkProverServer (P:=server_process rngs) (Some (n, s)) [] vk_hex) p v rb vk =
  (proof_of_response "prove failed" (unwrap_or (MkRawProverResponse false None None None None None None)
     (RawProverResponse_from_json (ProverResponse_to_json (handle_central_with_params full_var (rngs n) (sv_files s) req (cached_params s))))),
   MkProverServer (P:=server_process rngs) (Some (S n, s)) [] vk_hex).
Proof using JL.
  cbv zeta. destruct (request_of_server_client p v rb vk) as [Hr Ha]. set (req := MkProverRequest _ _ _ _ _ _ _) in *.
  unfold ProverServer_prove, exchange. cbn [ps_child ps_unread pr_step server_process]. rewrite (server_answer s (rngs n) _ _ Hr Ha).
  cbn [app fmap option_fmap option_map]. unfold answer. cbn [rq_mode req fst snd]. unfold emit.
  rewrite trim_print, json_parse_print. cbn [mbind result_bind]. rewrite raw_response_of_response. cbn [map_err mbind result_bind unwrap_or ps_vk_hex].
  by destruct s.
Qed.

(** Central proving with a proving key at hand, whatever supplies it. *)
Lemma central_with_key rng f req p v rb pk :
  rq_p_share_hex req = hex_encode (arr p) -> rq_v_share_hex req = hex_encode (arr v) -> rq_rand_binding_hex req = hex_encode (arr rb) ->
  handle_central_with_params full_var rng f req (Some pk) = or_err "central" (central_proof full_var rng.2 p v rb (rq_include_vk req) pk).
Proof. intros Hp Hv Hrb. unfold handle_central_with_params. rewrite Hp, Hv, Hrb, !decode32_encode. done. Qed.

Lemma central_with_crs rng f req p v rb pk :
  rq_p_share_hex req = hex_encode (arr p) -> rq_v_share_hex req = hex_encode (arr v) -> rq_rand_binding_hex req = hex_encode (arr rb) ->
  (if bool_decide (rq_crs_file req = "") then rq_crs_hex req <> "" /\ deserialize_params (rq_crs_hex req) = Ok pk
   else load_params_from_file f (rq_crs_file req) = Ok pk) ->
  handle_central full_var rng f req = or_err "central" (central_proof full_var rng.2 p v rb (rq_include_vk req) pk).
Proof.
  intros Hp Hv Hrb Hcrs. unfold handle_central. rewrite Hp, Hv, Hrb, !decode32_encode. cbn [mbind result_bind].
  case_bool_decide as Hf; cbn [negb].
  - destruct Hcrs as [Hne Hd]. rewrite bool_decide_eq_false_2 by done. cbn [negb]. by rewrite Hd.
  - by rewrite Hcrs.
Qed.

Lemma decode_all_encode l : decode_all (hex_encode <$> l) = Ok l.
Proof. induction l as [|b l IH]; [done|]. cbn. rewrite hex_decode_encode. cbn. by rewrite IH. Qed.

Lemma hex_encode_nonempty b : b <> [] -> hex_encode b <> "".
Proof. by destruct b. Qed.

(** What a client gets from a successful response. *)
Lemma proof_of_success unknown pb ins k_mac vkb mode :
  (forall b, vkb = Some b -> b <> []) ->
  proof_of_response unknown
    {| rr_ok := true; rr_error := None; rr_proof_hex := Some (hex_encode pb); rr_public_inputs_hex := Some (hex_encode <$> ins);
       rr_k_mac_hex := Some (hex_encode (arr k_mac)); rr_vk_hex := hex_encode <$> vkb; rr_mode_used := Some mode |} =
  Ok (MkDistributedProof pb ins k_mac vkb mode).
Proof.
  intros Hvk. unfold proof_of_response. cbn [rr_ok rr_error rr_proof_hex rr_public_inputs_hex rr_k_mac_hex rr_vk_hex rr_mode_used ensure mbind result_bind].
  unfold default, id. rewrite !hex_decode_encode. cbn [map_err mbind result_bind]. rewrite decode_all_encode. cbn [mbind result_bind].
  rewrite try_into_arr. destruct vkb as [b|]; cbn [fmap option_fmap option_map]; [|done].
  rewrite bool_decide_eq_false_2 by (by apply hex_encode_nonempty, Hvk). by rewrite hex_decode_encode.
Qed.

(** The proof of central mode, as the client gets it. *)
Lemma central_result rng p v rb vk pk pf :
  create_random_proof (central_circuit full_var p v rb).1.1 pk rng = Ok pf ->
  exists pb cb rbb vkb, proof_serialize pf = Ok pb /\ fr377_serialize (central_circuit full_var p v rb).1.2 = Ok cb /\
    fr377_serialize (central_circuit full_var p v rb).2 = Ok rbb /\ vk_serialize (pk_vk pk) = Ok vkb /\
    forall unknown, proof_of_response unknown (unwrap_or (MkRawProverResponse false None None None None None None)
      (RawProverResponse_from_json (ProverResponse_to_json (or_err "central" (central_proof full_var rng p v rb vk pk))))) =
    Ok (MkDistributedProof pb [cb; rbb] (prover_xor_shares p v) (if vk then Some vkb else None) "central").
Proof using GL.
  destruct (central_circuit full_var p v rb) as [[c cf] rf] eqn:Hc. cbn [fst snd]. intros Hpf.
  destruct (proof_total pf) as [pb Hpb], (fr377_roundtrip cf) as (cb & Hcb & _), (fr377_roundtrip rf) as (rbb & Hrbb & _),
    (vk_total (pk_vk pk)) as (vkb & Hvkb & Hne).
  exists pb, cb, rbb, vkb. split_and!; [done..|]. intros unknown. unfold central_proof. rewrite Hc, Hpf. cbn [map_err mbind result_bind].
  unfold serialize_hex. rewrite Hpb, Hcb, Hrbb, Hvkb. cbn [map_err fmap result_fmap mbind result_bind or_err ok_option].
  rewrite raw_response_of_response. cbn [unwrap_or rs_ok rs_error rs_proof_hex rs_public_inputs_hex rs_k_mac_hex rs_vk_hex rs_mode_used].
  rewrite <- (proof_of_success unknown pb [cb; rbb] (prover_xor_shares p v) (if vk then Some vkb else None) "central")
    by (destruct vk; congruence). by destruct vk.
Qed.

(** C36. The two clients agree: a call that starts a process with a setup result for a
    proving key, and a call to a server that has this key in memory, return the
    same result, success or error, with the same randomness; the server is ready
    for the next call. A proof is returned with the serialized proof, the
    commitment and randomness binding of the circuit, the exclusive or of the shares
    and, on request, the verifying key; a failed proof with its message. *)
Theorem prover_clients_agree path rngs n f crs pk s vk_hex p v rb vk :
  crs_holds f crs pk -> cached_params s = Some pk ->
  let via_client := client_prove (single_process (rngs n) f) (MkClient path DCentral) p v rb (Some crs) vk in
  let via_server := ProverServer_prove (P:=server_process rngs) (MkProverServer (P:=server_process rngs) (Some (n, s)) [] vk_hex) p v rb vk in
  let '(circuit, commit_fe, rand_fe) := central_circuit full_var p v rb in
  via_client = via_server.1 /\ via_server.2 = MkProverServer (P:=server_process rngs) (Some (S n, s)) [] vk_hex /\
  match create_random_proof circuit pk (rngs n).2 with
  | Ok pf => exists pb cb rbb vkb, proof_serialize pf = Ok pb /\ fr377_serialize commit_fe = Ok cb /\ fr377_serialize rand_fe = Ok rbb /\
      vk_serialize (pk_vk pk) = Ok vkb /\
      via_client = Ok (MkDistributedProof pb [cb; rbb] (prover_xor_shares p v) (if vk then Some vkb else None) "central")
  | Err e => via_client = Err (ProverError ("prove: " +:+ e))
  end.
Proof using JL GL.
  intros Hcrs Hs. cbv zeta. rewrite client_prove_answer, server_prove_answer, Hs. cbn [fst snd].
  rewrite (central_with_key (rngs n) (sv_files s) _ p v rb pk) by done.
  rewrite (central_with_crs (rngs n) f _ p v rb pk); [|done..|].
  2:{ cbn [rq_crs_file rq_crs_hex]. unfold default, id. cbn [fmap option_fmap option_map]. unfold crs_holds in Hcrs.
      by destruct (bool_decide (dc_crs_file crs = "")). }
  cbn [rq_include_vk]. destruct (central_circuit full_var p v rb) as [[c cf] rf] eqn:Hc.
  destruct (create_random_proof c pk (rngs n).2) as [pf|e] eqn:Hpf.
  - destruct (central_result (rngs n).2 p v rb vk pk pf) as (pb & cb & rbb & vkb & H1 & H2 & H3 & H4 & H5); [by rewrite Hc|].
    rewrite Hc in H2, H3. cbn [fst snd] in H2, H3.
    assert (Hres : result_of (or_err "central" (central_proof full_var (rngs n).2 p v rb vk pk)) =
       Ok (MkDistributedProof pb [cb; rbb] (prover_xor_shares p v) (if vk then Some vkb else None) "central")).
    { rewrite <- (H5 "unknown prove error"), raw_response_of_response. done. }
    rewrite Hres, H5. split_and!; [done|done|]. exists pb, cb, rbb, vkb. done.
  - unfold central_proof. rewrite Hc, Hpf. done.
Qed.

(** The result of a setup gives later calls the key it generated, in the file or,
    if that could not be written, in the result itself. *)
Lemma client_setup_holds path m pid rng f pk :
  generate_random_parameters (KeyCircuit TlsKeyCircuit_dummy) rng.1 = Ok pk ->
  exists crs f' vkb, client_setup (single_process rng f) pid (MkClient path m) f = (Ok crs, f') /\ crs_holds f' crs pk /\
    vk_serialize (pk_vk pk) = Ok vkb /\ dc_vk_hex crs = hex_encode vkb.
Proof using JL GL FL.
  intros Hpk. unfold client_setup, call_subprocess, single_process. cbn [cl_binary_path].
  set (j := SetupRequest_to_json _). unfold run_single. rewrite trim_print_line. unfold line_action. rewrite json_parse_print.
  change (index_str j "action") with (Some "setup"). cbn [fmap option_fmap option_map]. rewrite bool_decide_eq_true_2 by done.
  change (index_bool j "force_key_circuit") with (Some true). unfold default, id. cbn [fst].
  unfold handle_setup_with_flag, run_setup. cbn [negb andb]. rewrite Hpk. cbn [map_err].
  destruct (pk_roundtrip pk) as (pb & Hpb & Hne & Hde), (vk_total (pk_vk pk)) as (vkb & Hvkb & _).
  unfold serialize_hex. rewrite Hpb, Hvkb. cbn [map_err fmap result_fmap ok_option]. unfold emit_setup.
  rewrite first_line_print. cbn [ok_or mbind result_bind]. rewrite json_parse_print. cbn [mbind result_bind].
  rewrite raw_setup_of_setup. cbn [map_err mbind result_bind rw_ok rw_crs_hex rw_vk_hex rw_error sr_ok sr_crs_hex sr_vk_hex sr_error ensure].
  unfold write_crs_to_file. rewrite bool_decide_eq_false_2 by (by apply hex_encode_nonempty). rewrite hex_decode_encode.
  destruct (fs_write f _ pb) as [f'|e] eqn:Hw; eexists _, _, vkb; (split; [reflexivity|]); (split_and!; [|done|done]);
    unfold crs_holds; cbn [dc_crs_file dc_crs_hex].
  - rewrite bool_decide_eq_false_2 by done. unfold load_params_from_file. rewrite (fs_read_write _ _ _ _ Hw).
    cbn [map_err mbind result_bind]. by rewrite Hde.
  - split; [by apply hex_encode_nonempty|]. unfold deserialize_params. rewrite hex_decode_encode. cbn [map_err mbind result_bind].
    by rewrite Hde.
Qed.

(** Setup and proof over separate processes: when the key generation for the
    key-commitment circuit succeeds, setup returns a result with the verifying key
    of the generated key; a later central call with this result proves with that
    key and returns the decoded proof, the public inputs and the key shared by the
    arguments. *)
Theorem client_setup_prove path pid rng0 rng f pk pf p v rb vk :
  generate_random_parameters (KeyCircuit TlsKeyCircuit_dummy) rng0.1 = Ok pk ->
  create_random_proof (central_circuit full_var p v rb).1.1 pk rng.2 = Ok pf ->
  let cl := MkClient path DCentral in
  exists crs f' pb cb rbb vkb, client_setup (single_process rng0 f) pid cl f = (Ok crs, f') /\
    dc_vk_hex crs = hex_encode vkb /\ vk_serialize (pk_vk pk) = Ok vkb /\ proof_serialize pf = Ok pb /\
    fr377_serialize (central_circuit full_var p v rb).1.2 = Ok cb /\ fr377_serialize (central_circuit full_var p v rb).2 = Ok rbb /\
    client_prove (single_process rng f') cl p v rb (Some crs) vk =
    Ok (MkDistributedProof pb [cb; rbb] (prover_xor_shares p v) (if vk then Some vkb else None) "central").
Proof using JL GL FL.
  intros Hpk Hpf. cbv zeta. destruct (client_setup_holds path DCentral pid rng0 f pk Hpk) as (crs & f' & vkb & Hset & Hcrs & Hvk & Hvh).
  destruct (central_result rng.2 p v rb vk pk pf Hpf) as (pb & cb & rbb & vkb' & H1 & H2 & H3 & H4 & H5).
  rewrite Hvk in H4. injection H4 as <-. exists crs, f', pb, cb, rbb, vkb. split_and!; [done..|].
  rewrite client_prove_answer, (central_with_crs rng f' _ p v rb pk); [|done..|].
  - cbn [rq_include_vk]. rewrite <- (H5 "unknown prove error"), raw_response_of_response. done.
  - cbn [rq_crs_file rq_crs_hex]. unfold default, id. cbn [fmap option_fmap option_map]. unfold crs_holds in Hcrs.
    by destruct (bool_decide (dc_crs_file crs = "")).
Qed.

(** With the full circuit selected, the key of that setup is for the
    key-commitment circuit while central proofs are made for the TLS-PRF circuit. *)
Lemma client_setup_other_circuit rng p v rb :
  full_var = Some "1" ->
  run_setup full_var true rng = map_err (fun e => "setup: " +:+ e) (generate_random_parameters (KeyCircuit TlsKeyCircuit_dummy) rng) /\
  exists c, (central_circuit full_var p v rb).1.1 = PrfCircuit c.
Proof. intros ->. split; [done|]. by eexists. Qed.
End Composition.

(** ** Concrete runs *)

Definition toy_crs : DistributedCrs := MkDistributedCrs "/tmp/crs" "" "".
Definition toy_disk : files (FileSystem:=toy_files) := {["/tmp/crs" := [byte 1]]}.
Definition a32 (n : Z) : array 32 := array_repeat 32 (byte n).

Lemma prover_clients_agree_witness :
  exists d, client_prove (J:=toy_text) (single_process (J:=toy_text) (G:=toy_groth377) (Fs:=toy_files) None toy_os toy_mpc (tt, tt) toy_disk)
    (MkClient "prover" DCentral) (a32 1) (a32 2) (a32 3) (Some toy_crs) true = Ok d.
Proof.
  destruct (prover_clients_agree (J:=toy_text) (JL:=toy_text_laws) (G:=toy_groth377) (GL:=toy_groth377_laws) (Fs:=toy_files)
    None toy_os toy_mpc "prover" (fun _ => (tt, tt)) 0%nat toy_disk toy_crs tt (MkServerState (G:=toy_groth377) (Fs:=toy_files) (Some tt) toy_disk) "" (a32 1) (a32 2) (a32 3) true)
    as (_ & _ & (pb & cb & rbb & vkb & _ & _ & _ & _ & Hc)).
  - reflexivity.
  - reflexivity.
  - eexists. exact Hc.
Defined.

Lemma client_setup_prove_witness :
  exists crs f', client_setup (J:=toy_text) (Fs:=toy_files) (single_process (J:=toy_text) (G:=toy_groth377) (Fs:=toy_files) None toy_os toy_mpc (tt, tt) toy_disk)
    "1" (MkClient "prover" DCentral) toy_disk = (Ok crs, f').
Proof.
  destruct (client_setup_prove (J:=toy_text) (JL:=toy_text_laws) (G:=toy_groth377) (GL:=toy_groth377_laws) (Fs:=toy_files) (FL:=toy_files_laws)
    None toy_os toy_mpc "prover" "1" (tt, tt) (tt, tt) toy_disk tt tt (a32 1) (a32 2) (a32 3) true eq_refl eq_refl)
    as (crs & f' & pb & cb & rbb & vkb & Hset & _).
  exists crs, f'. exact Hset.
Defined.
