(* ===== verification/ProverMpc.v ===== *)
(** * Two-party proving, composed

    The client of ProverClient.v in distributed mode, the coordinator process, and
    the process of party 0 it starts (ProverProcess.v), with the circuits of
    ProverCircuits.v: what the client gets, and what has been proved. The protocol
    between the parties and the operating system are arguments. *)

From S2P Require Import Prelude Core Dctls Sha256Gadget HmacGadget CoSnark Json Os ProverCircuits ProverProcess ProverClient.

Section Mpc.
Context {J : SerdeText} {JL : SerdeTextLaws J} {G : Groth377} {GL : Groth377Laws G} {Fs : FileSystem} {FL : FileSystemLaws Fs}.
Variable full_var : option string.
(** The operating system as the coordinator and as party 0 see it. *)
Variables os child_os : coordinator_os (Fs:=Fs).
Variable mpc_create_proof : mpc_protocol.

(** Children that run: ports are found, both processes start, and the output of
    party 0 is that of the process for its request. *)
Record children_run (rng : OsRng * OsRng) : Prop := {
  cr_ports : exists ports, find_two_ports os = Ok ports;
  cr_spawn1 f r : spawn_p1 os f r = Ok tt;
  cr_spawn0 f r : spawn_p0 os f r = Ok tt;
  cr_wait0 f r0 r1 : wait_p0 os f r0 r1 = Ok (unlines (run_single full_var child_os mpc_create_proof rng f (Ok (unlines [r0]))).1)
}.

(** The commitment of two-party mode: to the sum of the shares. *)
Definition sum_commitment (p v rb : array 32) : Bls12_377.Fr :=
  fp_add (fp_add (bytes32_to_field (arr p)) (bytes32_to_field (arr v))) (bytes32_to_field (arr rb)).

(** The circuit whose values are the sums of two parties' shares. *)
Definition open_shares (c0 c1 : TlsKeyCircuit) : TlsKeyCircuit :=
  let sum o0 o1 := fp_add (default (fp_of_Z 0) o0) (default (fp_of_Z 0) o1) in
  TlsKeyCircuit_new_mpc (sum (tk_p_share_fe c0) (tk_p_share_fe c1)) (sum (tk_v_share_fe c0) (tk_v_share_fe c1))
    (fp_add (tk_commitment c0) (tk_commitment c1)) (fp_add (tk_rand_binding c0) (tk_rand_binding c1)).

Definition share_circuit0 (p v rb : array 32) : TlsKeyCircuit :=
  TlsKeyCircuit_new_mpc (bytes32_to_field (arr p)) (fp_of_Z 0) (sum_commitment p v rb) (bytes32_to_field (arr rb)).
Definition share_circuit1 (v : array 32) : TlsKeyCircuit :=
  TlsKeyCircuit_new_mpc (fp_of_Z 0) (bytes32_to_field (arr v)) (fp_of_Z 0) (fp_of_Z 0).

Lemma fp_add_0_l (x : Bls12_377.Fr) : fp_add (fp_of_Z 0) x = x.
Proof. rewrite <- (fp_of_Z_val x). by rewrite fp_add_of_Z. Qed.
Lemma fp_add_0_r (x : Bls12_377.Fr) : fp_add x (fp_of_Z 0) = x.
Proof. rewrite <- (fp_of_Z_val x). rewrite fp_add_of_Z. by rewrite Z.add_0_r. Qed.

Lemma opened_circuit_satisfied p v rb :
  r1cs_satisfied (TlsKeyCircuit_generate_constraints (open_shares (share_circuit0 p v rb) (share_circuit1 v))).
Proof.
  unfold open_shares. cbn [share_circuit0 share_circuit1 TlsKeyCircuit_new_mpc tk_p_share_fe tk_v_share_fe tk_commitment tk_rand_binding].
  unfold default, id. rewrite !fp_add_0_r, !fp_add_0_l. by apply key_circuit_mpc_satisfied.
Qed.

(** ** Party 0 *)

Lemma party0_line rng f cfg sh crs rbh cmth :
  let j := party_request full_var 0 cfg sh crs rbh cmth in
  (run_single full_var child_os mpc_create_proof rng f (Ok (unlines [json_print j]))).1 = [handle_mpc_party mpc_create_proof rng.1 f j].
Proof using JL.
  cbv zeta. set (j := party_request _ _ _ _ _ _ _). unfold run_single. rewrite trim_print_line. unfold line_action. rewrite json_parse_print.
  change (index_str j "action") with (Some "mpc_party"). cbn [fmap option_fmap option_map].
  rewrite bool_decide_eq_false_2, bool_decide_eq_true_2 by done. done.
Qed.

Lemma party0_response rng f cfg crs p v rb pkb pk pf :
  use_full_circuit full_var = false -> fs_read f crs = Ok pkb -> pk_deserialize pkb = Ok pk ->
  mpc_create_proof 0%nat (KeyCircuit (share_circuit0 p v rb)) pk = Ok pf ->
  exists pb vkb, proof_serialize pf = Ok pb /\ vk_serialize (pk_vk pk) = Ok vkb /\ vkb <> [] /\
  run_as_party mpc_create_proof rng f
    (party_request full_var 0 cfg (hex_encode (arr p)) crs (hex_encode (arr rb)) (hex_encode (compute_commitment p v rb))) =
  MkProverResponse true None (Some (hex_encode pb))
    [hex_encode (fr377_le_bytes (sum_commitment p v rb)); hex_encode (fr377_le_bytes (bytes32_to_field (arr rb)))]
    None (Some (hex_encode vkb)) "distributed".
Proof using GL.
  intros Hfull Hread Hde Hpf. destruct (proof_total pf) as [pb Hpb], (vk_total (pk_vk pk)) as (vkb & Hvkb & Hne).
  exists pb, vkb. split_and!; [done..|]. set (j := party_request _ _ _ _ _ _ _). unfold run_as_party.
  change (index_u64 j "party_id") with (Some (u_of_Z 64 0)). change (index_str j "net_config") with (Some cfg).
  change (index_str j "my_share_hex") with (Some (hex_encode (arr p))). change (index_str j "rand_binding_hex") with (Some (hex_encode (arr rb))).
  change (index_str j "commitment_hex") with (Some (hex_encode (compute_commitment p v rb))).
  change (index_bool j "full_circuit") with (Some (use_full_circuit full_var)). cbn [ok_or mbind result_bind].
  unfold default, id. rewrite Hfull, !decode32_encode. cbn [mbind result_bind].
  unfold party_params. change (index_str j "crs_file") with (Some crs). cbn iota. rewrite Hread. cbn [map_err mbind result_bind].
  rewrite Hde. cbn [map_err mbind result_bind]. rewrite hex_decode_encode. cbn [map_err mbind result_bind].
  unfold compute_commitment. destruct (fr377_roundtrip (sum_commitment p v rb)) as (cb & Hcb & Hcd).
  unfold sum_commitment in Hcb at 1. rewrite Hcb. cbn [unwrap_or]. rewrite Hcd. cbn [unwrap_or].
  change (Z.to_nat (uval (u_of_Z 64 0))) with 0%nat. cbn [Nat.eqb].
  change (party_circuit 0 false j p rb (sum_commitment p v rb)) with (KeyCircuit (share_circuit0 p v rb)).
  rewrite Hpf. cbn [map_err mbind result_bind]. unfold serialize_hex. rewrite Hpb, Hvkb. done.
Qed.

(** ** The coordinator *)

Lemma crs_path_not_config pid a b :
  ("/tmp/co-snark-crs-" +:+ pid +:+ ".bin") <> ("/tmp/co-snark-mpc-" +:+ a +:+ "-" +:+ b +:+ ".cfg").
Proof. intros H. apply (f_equal (String.get 14)) in H. discriminate H. Qed.

Hypothesis writes : forall f q b, exists f', fs_write f q b = Ok f'.

Lemma write_params_ok crs pk f :
  exists pkb f', pk_serialize pk = Ok pkb /\ pk_deserialize pkb = Ok pk /\
    write_params crs pk f = (Ok tt, f') /\ fs_read f' crs = Ok pkb.
Proof using GL FL writes.
  destruct (pk_roundtrip pk) as (pkb & Hs & _ & Hd). destruct (writes f crs []) as [f1 H1], (writes f1 crs pkb) as [f2 H2].
  exists pkb, f2. split_and!; [done|done| |by eapply fs_read_write].
  unfold write_params, mbind, fsm_bind, fsm_map_err, write_file, lift. rewrite H1. cbn [map_err].
  rewrite Hs. cbn [map_err]. by rewrite H2.
Qed.

Lemma two_parties_response rng p v rb pk pkb pf pid f :
  use_full_circuit full_var = false -> children_run rng -> pk_deserialize pkb = Ok pk ->
  fs_read f ("/tmp/co-snark-crs-" +:+ pid +:+ ".bin") = Ok pkb ->
  mpc_create_proof 0%nat (KeyCircuit (share_circuit0 p v rb)) pk = Ok pf ->
  exists pb vkb f', proof_serialize pf = Ok pb /\ vk_serialize (pk_vk pk) = Ok vkb /\ vkb <> [] /\
    run_two_parties full_var os p v rb (prover_xor_shares p v) pk ("/tmp/co-snark-crs-" +:+ pid +:+ ".bin") f =
    (Ok (MkProverResponse true None (Some (hex_encode pb))
           [hex_encode (fr377_le_bytes (sum_commitment p v rb)); hex_encode (fr377_le_bytes (bytes32_to_field (arr rb)))]
           (Some (hex_encode (arr (prover_xor_shares p v)))) (Some (hex_encode vkb)) "distributed"), f').
Proof using JL GL FL writes.
  intros Hfull [[[p0 p1] Hports] Hsp1 Hsp0 Hw0] Hde Hread Hpf. set (crs := "/tmp/co-snark-crs-" +:+ pid +:+ ".bin") in *.
  set (cfg := "/tmp/co-snark-mpc-" +:+ pretty (uval p0) +:+ "-" +:+ pretty (uval p1) +:+ ".cfg").
  set (text := string_bytes (unlines ["127.0.0.1:" +:+ pretty (uval p0); "127.0.0.1:" +:+ pretty (uval p1)])).
  destruct (writes f cfg text) as [f1 H1].
  assert (Hr1 : fs_read f1 crs = Ok pkb) by (rewrite (fs_read_other _ _ _ _ _ H1); [done|apply crs_path_not_config]).
  destruct (party0_response rng.1 f1 cfg crs p v rb pkb pk pf Hfull Hr1 Hde Hpf) as (pb & vkb & Hpb & Hvkb & Hne & Hresp).
  exists pb, vkb, (fs_remove f1 crs). split_and!; [done..|]. unfold run_two_parties, write_net_config.
  unfold mbind, fsm_bind, fsm_map_err, write_file, lift, get_files, remove_file. rewrite Hports. cbn [map_err fst snd].
  fold cfg text. rewrite H1. cbn [mret fsm_ret map_err]. rewrite Hsp1, Hsp0. cbn [map_err]. rewrite Hw0. cbn [map_err].
  rewrite party0_line. unfold handle_mpc_party, emit. rewrite Hresp, first_line_print. unfold default, id. rewrite json_parse_print.
  unfold result_bind. rewrite response_roundtrip by done. done.
Qed.

(** The answer of the coordinator to a request with a proving key. *)
Lemma prove_distributed_response rng rngp f req p v rb pk pf :
  use_full_circuit full_var = false -> children_run rngp ->
  rq_p_share_hex req = hex_encode (arr p) -> rq_v_share_hex req = hex_encode (arr v) -> rq_rand_binding_hex req = hex_encode (arr rb) ->
  (if bool_decide (rq_crs_file req = "") then rq_crs_hex req <> "" /\ deserialize_params (rq_crs_hex req) = Ok pk
   else load_params_from_file f (rq_crs_file req) = Ok pk) ->
  mpc_create_proof 0%nat (KeyCircuit (share_circuit0 p v rb)) pk = Ok pf ->
  exists pb vkb, proof_serialize pf = Ok pb /\ vk_serialize (pk_vk pk) = Ok vkb /\ vkb <> [] /\
    (prove_distributed full_var os rng req f).1 =
    MkProverResponse true None (Some (hex_encode pb))
      [hex_encode (fr377_le_bytes (sum_commitment p v rb)); hex_encode (fr377_le_bytes (bytes32_to_field (arr rb)))]
      (Some (hex_encode (arr (prover_xor_shares p v)))) (Some (hex_encode vkb)) "distributed".
Proof using JL GL FL writes.
  intros Hfull Hch Hp Hv Hrb Hcrs Hpf.
  assert (Hparams : distributed_params full_var rng f req = Ok pk).
  { unfold distributed_params. case_bool_decide as Hf; cbn [negb].
    - destruct Hcrs as [Hne Hd]. rewrite bool_decide_eq_false_2 by done. exact Hd.
    - exact Hcrs. }
  destruct (write_params_ok ("/tmp/co-snark-crs-" +:+ os_id os +:+ ".bin") pk f) as (pkb & f1 & _ & Hde & Hw & Hread).
  destruct (two_parties_response rngp p v rb pk pkb pf (os_id os) f1 Hfull Hch Hde Hread Hpf) as (pb & vkb & f2 & H1 & H2 & H3 & Hrun).
  exists pb, vkb. split_and!; [done..|]. unfold prove_distributed, fsm_or_err, mbind, fsm_bind, lift, get_files.
  rewrite Hp, Hv, Hrb, !decode32_encode, Hparams, Hw, Hrun. done.
Qed.

(** What a client in distributed mode gets. *)
Lemma distributed_client_result path rng rngp f crs p v rb vk pk pf :
  use_full_circuit full_var = false -> children_run rngp -> crs_holds f crs pk ->
  mpc_create_proof 0%nat (KeyCircuit (share_circuit0 p v rb)) pk = Ok pf ->
  exists pb vkb, proof_serialize pf = Ok pb /\ vk_serialize (pk_vk pk) = Ok vkb /\
    client_prove (single_process full_var os mpc_create_proof rng f) (MkClient path DDistributed) p v rb (Some crs) vk =
    Ok (MkDistributedProof pb [fr377_le_bytes (sum_commitment p v rb); fr377_le_bytes (bytes32_to_field (arr rb))]
          (prover_xor_shares p v) (Some vkb) "distributed").
Proof using JL GL FL writes.
  intros Hfull Hch Hcrs Hpf. rewrite client_prove_answer. set (req := MkProverRequest _ _ _ _ _ _ _).
  destruct (prove_distributed_response rng.1 rngp f req p v rb pk pf) as (pb & vkb & H1 & H2 & H3 & ->); try done.
  { cbn [rq_crs_file rq_crs_hex req]. unfold default, id. cbn [fmap option_fmap option_map]. unfold crs_holds in Hcrs.
    by destruct (bool_decide (dc_crs_file crs = "")). }
  exists pb, vkb. split_and!; [done..|].
  apply (proof_of_success "unknown prove error" pb
    [fr377_le_bytes (sum_commitment p v rb); fr377_le_bytes (bytes32_to_field (arr rb))] (prover_xor_shares p v) (Some vkb) "distributed").
  by intros b [= <-].
Qed.


(** When party 0 fails, its message is lost: a response without public inputs is
    written without that member and cannot be read back. *)
Lemma party_error_unreadable msg mode :
  ProverResponse_from_json (ProverResponse_to_json (err msg mode)) = Err "missing field `public_inputs_hex`".
Proof. reflexivity. Qed.
End Mpc.

(** ** A concrete run *)

Definition toy_children : coordinator_os (Fs:=toy_files) := {|
  os_id := "7"; find_two_ports := Ok (u_of_Z 16 4001, u_of_Z 16 4002); spawn_p1 _ _ := Ok tt; spawn_p0 _ _ := Ok tt;
  wait_p0 f r0 _ := Ok (unlines (run_single (J:=toy_text) (G:=toy_groth377) (Fs:=toy_files) None toy_os toy_mpc (tt, tt) f (Ok (unlines [r0]))).1)
|}.

