(* ===== verification/Pipeline.v ===== *)
(** * The complete pipeline over secp256k1

    Models [bench/src/bin/bench_full_pipeline.rs]: key generation, distributed
    randomness, the DECO session with a proof of the MAC key by one of the
    executors, the threshold signature and the encoding for the contract, as one
    run, and the table of runs. It is where the components of that side of the
    system meet.

    A run returns what the code holds in local variables; measured times and the
    printed table are left out. Failures of [expect], [unwrap], [assert_eq!] and
    indexing end the program and are the error of a run. The executor is used
    through [&self] with state behind a mutex: [execute] maps a state to a result
    and the next state. *)

From S2P Require Import Prelude Core Session Attestation Threshold Randomness Registry Dctls Errors Frost Dkg DkgNode DkgCeremony FrostKeys.
From S2P Require Import Secp SecpDkg OnChain DxDctls TlsEngine RcPhase Sha256Gadget HmacGadget CoSnark Json Os.
From S2P Require Import ProverCircuits ProverProcess ProverClient ProverMpc.

(** ** Executors *)

Section Executors.
Context {J : SerdeText} {Fs : FileSystem}.
(** The server process and how it is started, the process of a single call, the
    number in the name of the file for its key, and [{path:?}]. *)
Context (P : process) (start : string -> result string (pr_state P)).
Context (run : files -> string -> string -> process_run) (pid : string) (debug : string -> string).

Definition DistributedProverError_to_string (e : DistributedProverError) : string :=
  match e with
  | Spawn path source => "failed to spawn co-snark-prover binary at " +:+ debug path +:+ ": " +:+ source
  | StdinWrite e => "failed to write request to subprocess stdin: " +:+ e
  | NoOutput => "subprocess produced no output on stdout"
  | ParseResponse e => "failed to parse subprocess response: " +:+ e
  | ProverError e => "subprocess returned error: " +:+ e
  | HexDecode e => "hex decode error: " +:+ e
  end.

Inductive RealCoSnarkExecutor :=
  | ExCentral (server : option (ProverServer P)) (binary : string)
  | ExDistributed (client : CoSnarkDistributedClient) (crs : option DistributedCrs).

Definition RealCoSnarkExecutor_new (binary : string) (mode : DistributedMode) : RealCoSnarkExecutor :=
  match mode with
  | DCentral => ExCentral None binary
  | DDistributed => ExDistributed (CoSnarkDistributedClient_new binary mode) None
  end.

Definition mode_label (self : RealCoSnarkExecutor) : string :=
  match self with ExCentral _ _ => "co-SNARK central" | ExDistributed _ _ => "co-SNARK 2-party MPC" end.

(** The state and the files afterwards; the error is the message of the panic. *)
Definition warmup (self : RealCoSnarkExecutor) (f : files) : result string (RealCoSnarkExecutor * files) :=
  match self with
  | ExCentral None binary =>
      srv ← map_err (fun _ => "server spawn failed") (ProverServer_spawn binary P (start binary));
      Ok (ExCentral (Some srv) binary, f)
  | ExDistributed client None =>
      let '(r, f') := client_setup (run f) pid client f in
      c ← map_err (fun _ => "co-SNARK setup failed") r;
      Ok (ExDistributed client (Some c), f')
  | _ => Ok (self, f)
  end.

Definition raw_output (rand_binding : array 32) (result : DistributedProof) : CoSnarkRawOutput :=
  {| raw_groth16_bytes := dp_proof_bytes result;
     raw_k_mac_commitment_bytes := default (replicate 32 (byte 0)) (head (dp_public_inputs result));
     raw_rand_binding_bytes := arr rand_binding;
     raw_k_mac := dp_k_mac result |}.

Definition real_execute (p_share v_share rand_binding : array 32) (st : RealCoSnarkExecutor * files)
    : result string CoSnarkRawOutput * (RealCoSnarkExecutor * files) :=
  let '(self, f) := st in
  match self with
  | ExCentral server binary =>
      match match server with Some srv => Ok srv | None => ProverServer_spawn binary P (start binary) end with
      | Err e => (Err (DistributedProverError_to_string e), st)
      | Ok srv =>
          let '(r, srv') := ProverServer_prove srv p_share v_share rand_binding false in
          (raw_output rand_binding <$> map_err DistributedProverError_to_string r, (ExCentral (Some srv') binary, f))
      end
  | ExDistributed client crs =>
      let '(r, f') := match crs with Some c => (Ok c, f) | None => client_setup (run f) pid client f end in
      match r with
      | Err e => (Err (DistributedProverError_to_string e), (self, f'))
      | Ok c =>
          (raw_output rand_binding <$> map_err DistributedProverError_to_string
             (client_prove (run f') client p_share v_share rand_binding (Some c) false), (ExDistributed client (Some c), f'))
      end
  end.
End Executors.

(** Without a prover. *)
Definition stub_execute (p_share v_share rand_binding : array 32) : result string CoSnarkRawOutput :=
  Ok {| raw_groth16_bytes := replicate 128 (byte 0); raw_k_mac_commitment_bytes := replicate 32 (byte 0);
        raw_rand_binding_bytes := arr rand_binding; raw_k_mac := arr_xor p_share v_share |}.

(** ** One run *)

(** [expect] and [unwrap]. *)
Definition unwrapped {E A} (msg : string) (r : result E A) : result string A := map_err (fun _ => msg) r.
Definition at_index {A} (l : list A) (i : nat) : result string A := ok_or "index out of bounds" (l !! i).

Section Run.
Context {Hs : Sha256} {Hm : HmacSha256} {Sp : FrostSecp256k1}.
Context (fill_bytes : array 32 -> array 32).
Context {ES : Type} (execute : array 32 -> array 32 -> array 32 -> ES -> result string CoSnarkRawOutput * ES).

(** [(0..n_verifiers as u8)], the number in the first byte. *)
Definition pipeline_ids (n_verifiers : usize) : list VerifierId :=
  (fun i => from_bytes (to_array 32 [byte (Z.of_nat i)])) <$> seq 0 (Z.to_nat (uval n_verifiers mod 256)).
Definition pipeline_alpha : DigestBytes := MkDigestBytes (array_repeat 32 (byte 66)).
Definition pipeline_message : DigestBytes := MkDigestBytes (array_repeat 32 (byte 238)).

Definition participant_at (outs : list Secp256k1DkgParticipantOutput) (i : nat) : result string Secp256k1FrostParticipant :=
  o ← at_index outs i; Ok (spo_participant o).
Definition first_group_key (outs : list Secp256k1DkgParticipantOutput) : result string Secp256k1GroupKey :=
  o ← at_index outs 0; Ok (spo_group_key o).

(** Partial evaluations of the first [threshold] participants, combined. *)
Definition pipeline_dvrf (outs : list Secp256k1DkgParticipantOutput) (threshold : usize) : result string Secp256k1DvrfOutput :=
  let input := MkSecp256k1DvrfInput pipeline_alpha in
  let firsts := seq 0 (Z.to_nat (uval threshold)) in
  partial_evals ← try_map (fun i => p ← participant_at outs i;
                    unwrapped "called `Result::unwrap()` on an `Err` value" (partial_eval p input)) firsts;
  participant_refs ← try_map (participant_at outs) firsts;
  gk ← first_group_key outs;
  unwrapped "called `Result::unwrap()` on an `Err` value" (dvrf_combine gk input partial_evals participant_refs).

(** The two rounds of the signature over the message. *)
Definition pipeline_sign (sign_rngs : nat -> SpRng) (outs : list Secp256k1DkgParticipantOutput) (threshold : usize)
    : result string Secp256k1ThresholdApproval :=
  let failed := "called `Result::unwrap()` on an `Err` value" in
  r1_results ← try_map (fun i => p ← participant_at outs i; unwrapped failed (secp_round1 p (sign_rngs i)))
                 (seq 0 (Z.to_nat (uval threshold)));
  pkg ← unwrapped failed (secp256k1_build_signing_package r1_results.*2 pipeline_message);
  shares ← try_map (fun '(i, n) => p ← participant_at outs i; unwrapped failed (secp_round2 p pkg n)) (enumerate r1_results.*1);
  gk ← first_group_key outs;
  unwrapped failed (secp256k1_aggregate_signature_shares pkg shares gk).

(** The slices [sig[1..33]], [sig[33..65]] and [gk[1..33]] are in range. *)
Definition pipeline_attestation (approval : Secp256k1ThresholdApproval) (rand : DigestBytes) (threshold n_verifiers : usize)
    : OnChainAttestationSecp256k1 :=
  let sig := arr (sa_aggregate_signature_bytes approval) in
  {| os_statement_digest := array_repeat 32 (byte 17); os_dvrf_value := as_bytes rand;
     os_envelope_digest := array_repeat 32 (byte 238);
     os_group_key_x := word 1 (arr (sa_group_verifying_key_bytes approval)); os_group_key_y := array_repeat 32 (byte 0);
     os_sig_R_x := word 1 sig; os_sig_s := word 33 sig;
     os_threshold := u_of_Z 8 (uval threshold); os_verifier_count := u_of_Z 8 (uval n_verifiers);
     os_alpha_commitment := array_repeat 32 (byte 66); os_session_id := array_repeat 32 (byte 0) |}.

Record PipelineRun := MkPipelineRun {
  pr_dkg_outputs : list Secp256k1DkgParticipantOutput;
  pr_dvrf_out : Secp256k1DvrfOutput;
  pr_proof : DecoDxDctlsProof;
  pr_approval : Secp256k1ThresholdApproval;
  pr_attestation : OnChainAttestationSecp256k1;
  pr_encoded : bytes
}.

(** The executor seen from one state. [deco_hsp] calls it once, with the two shares of
    the key, which gives the next state. *)
Definition executor_in (st : ES) : CoSnarkExecutor :=
  let e := fun p v rb => (execute p v rb st).1 in {| cs_execute := e; cs_execute_split := default_execute_split e |}.
Definition executor_after (sid : SessionId) (rand : DigestBytes) (st : ES) : ES :=
  let '(p, v) := split_k_mac fill_bytes (as_bytes (k_mac_seed rand sid)) (as_bytes (split_seed rand sid)) in
  (execute p v (as_bytes rand) st).2.

Definition pipeline_query : bytes := string_bytes "GET /price?asset=BTC".
(** The text of the response, with a carriage return, a line feed and quotes. *)
Definition pipeline_response : bytes :=
  string_bytes "HTTP/1.1 200 OK" ++ [byte 13; byte 10; byte 123; byte 34] ++ string_bytes "price" ++ [byte 34] ++ string_bytes ":67500}".
Definition pipeline_statement : bytes := string_bytes "price > 50000".
Definition pipeline_cert : DigestBytes := t12_server_cert_hash (mock_tls12_session "api.example.com" (byte 1)).

(** Randomness of key generation and signature, and the new session identifier. *)
Record RunRandom := MkRunRandom { rr_dkg : nat -> SpRng; rr_sign : nat -> SpRng; rr_session : SessionId }.

Definition run_pipeline (env : RunRandom) (threshold n_verifiers : usize) (st : ES) : result string PipelineRun * ES :=
  match (outs ← unwrapped "DKG" (run_secp256k1_dkg (rr_dkg env) (pipeline_ids n_verifiers) threshold);
         out ← pipeline_dvrf outs threshold; Ok (outs, out)) with
  | Err e => (Err e, st)
  | Ok (outs, dvrf_out) =>
      let rand := sp_rand dvrf_out in
      (session ← unwrapped "HSP" (deco_hsp (Ex:=executor_in st) fill_bytes (rr_session env) rand pipeline_cert);
       let proof := deco_pgp session (deco_qp session pipeline_query pipeline_response) pipeline_statement in
       approval ← pipeline_sign (rr_sign env) outs threshold;
       let att := pipeline_attestation approval rand threshold n_verifiers in
       let encoded := secp_abi_encode att in
       _ ← ensure "ABI encoding must be 352 bytes" (length encoded =? 352)%nat;
       Ok (MkPipelineRun outs dvrf_out proof approval att encoded),
       executor_after (rr_session env) rand st)
  end.

(** ** The table *)

Definition pipeline_configs : list (Z * Z) := [(3, 5); (5, 9); (7, 13); (10, 19); (15, 29); (20, 39); (30, 59); (50, 99)].

Fixpoint run_configs (env : nat -> RunRandom) (k : nat) (configs : list (Z * Z)) (st : ES) : result string (list PipelineRun) * ES :=
  match configs with
  | [] => (Ok [], st)
  | (t, n) :: rest =>
      match run_pipeline (env k) (u_of_Z 64 t) (u_of_Z 64 n) st with
      | (Err e, st') => (Err e, st')
      | (Ok r, st') => let '(rs, st'') := run_configs env (S k) rest st' in (cons r <$> rs, st'')
      end
  end.
Definition run_table (env : nat -> RunRandom) (st : ES) : result string (list PipelineRun) * ES :=
  run_configs env 0 pipeline_configs st.
End Run.

(** ** The program *)

(** The value after the first [--binary]. *)
Definition pipeline_binary (args : list string) : string :=
  default "co-snark-prover" (snd <$> List.find (fun w => bool_decide (w.1 = "--binary")) (zip args (tail args))).
Definition has_flag (args : list string) (flag : string) : bool := existsb (fun a => bool_decide (a = flag)) args.

(** [main]: the mode printed and the rows of the table. *)
Definition pipeline_main {J : SerdeText} {Fs : FileSystem} {Hs : Sha256} {Hm : HmacSha256} {Sp : FrostSecp256k1}
    (fill_bytes : array 32 -> array 32) (P : process) (start : string -> result string (pr_state P))
    (run : files -> string -> string -> process_run) (pid : string) (debug : string -> string)
    (args : list string) (env : nat -> RunRandom) (f : files) : result string (string * list PipelineRun) :=
  if has_flag args "--stub" then
    rs ← (run_table fill_bytes (fun p v rb (st : unit) => (stub_execute p v rb, st)) env tt).1; Ok ("stub", rs)
  else
    let mode := if has_flag args "--distributed" then DDistributed else DCentral in
    let executor := RealCoSnarkExecutor_new P (pipeline_binary args) mode in
    st ← warmup P start run pid executor f;
    rs ← (run_table fill_bytes (real_execute P start run pid debug) env st).1;
    Ok (mode_label P executor, rs).

(** ** Runs complete *)

Section Rounds.
Context {Hs : Sha256} {Sp : FrostSecp256k1} {Sg : SecpSigning}.
Abbreviation failed := "called `Result::unwrap()` on an `Err` value".

(** The participants at the positions from [j] on. *)
Definition are_at (outs : list Secp256k1DkgParticipantOutput) (j : nat) (ps : list Secp256k1FrostParticipant) : Prop :=
  forall k p, ps !! k = Some p -> participant_at outs (j + k) = Ok p.

Lemma are_at_tail outs j p ps : are_at outs j (p :: ps) -> participant_at outs j = Ok p /\ are_at outs (S j) ps.
Proof.
  intros H. split; [rewrite <- (Nat.add_0_r j); by apply (H 0%nat)|]. intros k q Hk.
  replace (S j + k)%nat with (j + S k)%nat by lia. by apply (H (S k)).
Qed.

(** A loop over positions is one over participants, when the body succeeds. *)
Lemma try_map_at {B} outs (f : nat -> Secp256k1FrostParticipant -> result string B) (g : nat -> Secp256k1FrostParticipant -> B) ps j :
  (forall i p, f i p = Ok (g i p)) -> are_at outs j ps ->
  try_map (fun i => p ← participant_at outs i; f i p) (seq j (length ps)) = Ok (zip_with g (seq j (length ps)) ps).
Proof.
  intros Hf. revert j. induction ps as [|p ps IH]; intros j Hat; [done|]. apply are_at_tail in Hat as [Hp Hat].
  cbn [length seq try_map zip_with]. rewrite Hp. cbn [mbind result_bind]. rewrite Hf. cbn [mbind result_bind]. by rewrite (IH _ Hat).
Qed.

Lemma participants_at outs ps j : are_at outs j ps -> try_map (participant_at outs) (seq j (length ps)) = Ok ps.
Proof.
  revert j. induction ps as [|p ps IH]; intros j Hat; [done|]. apply are_at_tail in Hat as [Hp Hat].
  cbn [length seq try_map]. rewrite Hp. cbn [mbind result_bind]. by rewrite (IH _ Hat).
Qed.
Lemma zip_with_second {A B} (g : A -> B) (l : list A) j : zip_with (fun _ => g) (seq j (length l)) l = g <$> l.
Proof. revert j. induction l as [|a l IH]; intros j; [done|]. cbn [length seq fmap list_fmap zip_with]. f_equal. apply IH. Qed.

(** A round-1 result. *)
Definition commit_of (pr : Secp256k1FrostParticipant * SpRng) : Secp256k1SigningNonces * Secp256k1Commitment :=
  let c := sp_commit (sp_key_package pr.1) pr.2 in
  (MkSpNonces c.1, MkSpCommitment (sp_key_identifier (sp_key_package pr.1)) c.2).

Lemma zip_with_positions {A B C} (g : A * B -> C) (r : nat -> B) (l : list A) j :
  zip_with (fun i a => g (a, r i)) (seq j (length l)) l = g <$> zip l (r <$> seq j (length l)).
Proof. revert j. induction l as [|a l IH]; intros j; [done|]. cbn [length seq fmap list_fmap zip_with zip]. f_equal. apply IH. Qed.

Lemma round1_results outs rngs ps : are_at outs 0 ps ->
  try_map (fun i => p ← participant_at outs i; unwrapped failed (secp_round1 p (rngs i))) (seq 0 (length ps))
  = Ok (commit_of <$> zip ps (rngs <$> seq 0 (length ps))).
Proof.
  intros Hat. rewrite <- (zip_with_positions commit_of rngs ps 0).
  apply (try_map_at outs (fun i p => unwrapped failed (secp_round1 p (rngs i)))); [|done].
  intros i p. unfold secp_round1, commit_of. cbn [fst snd]. by destruct (sp_commit _ _).
Qed.

Lemma round2_results outs pkg prs shares j : are_at outs j prs.*1 -> try_map (share_round2 pkg) prs = Ok shares ->
  try_map (fun '(i, n) => p ← participant_at outs i; unwrapped failed (secp_round2 p pkg n))
    (zip (seq j (length prs)) ((commit_of <$> prs).*1)) = Ok shares.
Proof.
  revert shares j. induction prs as [|pr prs IH]; intros shares j Hat Hr; [by injection Hr as <-|]. rewrite fmap_cons in Hat.
  apply are_at_tail in Hat as [Hp Hat]. cbn [try_map] in Hr. apply bind_Ok in Hr as (sh & Hsh & (shs & Hshs & [= <-])%bind_Ok).
  rewrite !fmap_cons. cbn [length seq zip_with try_map]. rewrite Hp. cbn [mbind result_bind].
  assert (secp_round2 pr.1 pkg (commit_of pr).1 = Ok sh) as -> by exact Hsh. cbn [unwrapped map_err mbind result_bind].
  by rewrite (IH shs (S j) Hat Hshs).
Qed.

Lemma round1_commitments prs :
  foldl (fun m c => <[sc_identifier c := sc_inner c]> m) ∅ ((commit_of <$> prs).*2) = signing_commitments (with_rng <$> prs).
Proof.
  unfold signing_commitments. generalize (∅ : gmap SpIdentifier SpSigningCommitments).
  induction prs as [|pr prs IH]; intros m; [done|]. apply IH.
Qed.

(** What key generation leaves: one group, shares of it in the order of the
    identifiers. *)
Definition dkg_done (outs : list Secp256k1DkgParticipantOutput) (gk : Secp256k1GroupKey) (threshold : usize) : Prop :=
  2 <= uval threshold <= Z.of_nat (length outs) /\ Z.of_nat (length outs) <= 65535 /\
  forall k o, outs !! k = Some o -> spo_group_key o = gk /\
    dkg_share (u_of_Z 16 (Z.of_nat (length outs))) (u_of_Z 16 (uval threshold)) (sg_pub_key_package gk)
      (sp_key_package (spo_participant o)) /\
    sp_try_from (u_of_Z 16 (Z.of_nat k + 1)) = Ok (sp_key_identifier (sp_key_package (spo_participant o))).

Section Group.
Context (outs : list Secp256k1DkgParticipantOutput) (gk : Secp256k1GroupKey) (threshold : usize).
Hypothesis ready : dkg_done outs gk threshold.
Abbreviation t := (Z.to_nat (uval threshold)).
Definition signers_of : list Secp256k1FrostParticipant := take (Z.to_nat (uval threshold)) (spo_participant <$> outs).

Lemma signers_length : length signers_of = t.
Proof using ready. destruct ready as (Ht & _). unfold signers_of. rewrite length_take, length_fmap. lia. Qed.
Lemma signers_at : are_at outs 0 signers_of.
Proof.
  intros k p Hk. unfold signers_of in Hk. apply lookup_take_Some in Hk as [Hk _]. apply list_lookup_fmap_Some in Hk as (o & -> & Ho).
  unfold participant_at, at_index. cbn [Nat.add]. by rewrite Ho.
Qed.
Lemma group_key_first : first_group_key outs = Ok gk.
Proof using ready.
  destruct ready as (Ht & _ & Hout). unfold first_group_key, at_index. destruct (lookup_lt_is_Some_2 outs 0) as [o Ho]; [lia|].
  rewrite Ho. cbn [ok_or mbind result_bind]. by destruct (Hout _ _ Ho) as (-> & _).
Qed.

Lemma signers_quorum (rngs : list SpRng) : length rngs = t ->
  signing_quorum (u_of_Z 16 (Z.of_nat (length outs))) (u_of_Z 16 (uval threshold)) (sg_pub_key_package gk) (with_rng <$> zip signers_of rngs).
Proof using ready.
  intros Hlen. pose proof ready as (Ht & Hmax & Hout). pose proof signers_length as Hl.
  assert (Hp : forall k p, signers_of !! k = Some p -> exists o, outs !! k = Some o /\ p = spo_participant o).
  { intros k p [Hk _]%lookup_take_Some. apply list_lookup_fmap_Some in Hk as (o & -> & Ho). eauto. }
  assert (H1 : (with_rng <$> zip signers_of rngs).*1 = sp_key_package <$> signers_of).
  { rewrite <- list_fmap_compose. change (fst ∘ with_rng) with (sp_key_package ∘ @fst Secp256k1FrostParticipant SpRng).
    rewrite list_fmap_compose, fst_zip by lia. done. }
  split_and!.
  - rewrite H1. apply Forall_fmap, Forall_forall. intros p (k & Hk)%list_elem_of_lookup.
    destruct (Hp k p Hk) as (o & Ho & ->). apply (Hout _ _ Ho).
  - rewrite H1, <- list_fmap_compose. apply (identifiers_distinct (seq 0 t)); [|apply NoDup_seq|].
    + apply Forall_forall. intros i Hi%elem_of_seq. lia.
    + apply Forall2_same_length_lookup_2; [by rewrite length_seq|]. intros k i p [-> _]%lookup_seq Hk.
      destruct (Hp k p Hk) as (o & Ho & ->). apply (Hout _ _ Ho).
  - rewrite uval_of_Z_small by (change (2 ^ 16) with 65536; lia). lia.
  - rewrite length_fmap, length_zip_with, Hl, Hlen. rewrite uval_of_Z_small by (change (2 ^ 16) with 65536; lia). lia.
Qed.

Lemma pipeline_dvrf_completes :
  exists out, pipeline_dvrf outs threshold = Ok out /\ dvrf_verify_output (MkSecp256k1DvrfInput pipeline_alpha) out = Ok tt /\
    sp_group_verifying_key (sp_proof out) = secp_verifying_key_bytes gk.
Proof using ready Sg.
  pose proof signers_length as Hl. unfold pipeline_dvrf. rewrite <- Hl, group_key_first.
  rewrite (try_map_at outs (fun _ p => unwrapped failed (partial_eval p (MkSecp256k1DvrfInput pipeline_alpha)))
    (fun _ => eval_of pipeline_alpha)); [|by intros i p; rewrite partial_eval_eq|apply signers_at].
  rewrite (participants_at outs signers_of 0) by apply signers_at. cbn [mbind result_bind]. rewrite zip_with_second.
  destruct (dvrf_combine_honest (u_of_Z 16 (Z.of_nat (length outs))) (u_of_Z 16 (uval threshold)) gk pipeline_alpha signers_of) as [out Hout].
  { replace (signer pipeline_alpha <$> signers_of) with (with_rng <$> zip signers_of ((fun p => (signer pipeline_alpha p).2) <$> signers_of)).
    - apply signers_quorum. by rewrite length_fmap.
    - generalize signers_of as ps. induction ps as [|p ps IH]; [done|]. rewrite !fmap_cons. cbn [zip_with zip]. rewrite fmap_cons. by rewrite <- IH. }
  rewrite Hout. exists out. split; [done|]. destruct (dvrf_combine_Ok _ _ _ _ _ Hout) as (Hver & Hvk & _). done.
Qed.

Lemma pipeline_sign_completes sign_rngs :
  exists approval, pipeline_sign sign_rngs outs threshold = Ok approval /\
    secp256k1_verify_approval approval pipeline_message = Ok tt /\ sa_group_verifying_key_bytes approval = secp_verifying_key_bytes gk.
Proof using ready Sg.
  pose proof signers_length as Hl. unfold pipeline_sign. rewrite <- Hl, group_key_first.
  rewrite round1_results by apply signers_at. cbn [mbind result_bind].
  set (prs := zip signers_of (sign_rngs <$> seq 0 (length signers_of))).
  assert (Hprs : length prs = t /\ prs.*1 = signers_of).
  { unfold prs. rewrite length_zip_with, length_fmap, length_seq. split; [lia|]. apply fst_zip. by rewrite length_fmap, length_seq. }
  assert (Hq := signers_quorum (sign_rngs <$> seq 0 (length signers_of))). fold prs in Hq.
  destruct (signing_honest _ _ gk (arr (as_bytes pipeline_message)) prs (Hq ltac:(by rewrite length_fmap, length_seq)))
    as (shares & a & Hsh & Ha).
  unfold secp256k1_build_signing_package. rewrite round1_commitments. cbn [unwrapped map_err mbind result_bind].
  fold (signing_package (with_rng <$> prs) (arr (as_bytes pipeline_message))). set (pkg := MkSpPackage _) in *.
  unfold enumerate. rewrite !length_fmap. rewrite (round2_results outs pkg prs shares 0); [|rewrite (proj2 Hprs); apply signers_at|done].
  cbn [mbind result_bind]. rewrite Ha. exists a. split; [done|].
  apply (secp_aggregate_Ok ((commit_of <$> prs).*2) pipeline_message pkg shares gk a); [|done].
  unfold secp256k1_build_signing_package. by rewrite round1_commitments.
Qed.
End Group.
End Rounds.

Section Completes.
Context {Hs : Sha256} {Hm : HmacSha256} {Sp : FrostSecp256k1} {Sg : SecpSigning}.
Context (fill_bytes : array 32 -> array 32).
Context {ES : Type} (execute : array 32 -> array 32 -> array 32 -> ES -> result string CoSnarkRawOutput * ES).

(** In the states [I], and from then on, the executor returns the key its arguments
    share. *)
Definition executor_sound (I : ES -> Prop) : Prop := forall p v rb st, I st ->
  exists raw, (execute p v rb st).1 = Ok raw /\ raw_k_mac raw = arr_xor p v /\ I (execute p v rb st).2.

(** What a run establishes: one group key; randomness that verifies; a DECO proof
    that verifies for it, over the key derived for the session; an approval that
    verifies; both under the group key; and an encoding that decodes. *)
Record run_good (env : RunRandom) (threshold n : usize) (r : PipelineRun) : Prop := {
  rg_outputs : length (pr_dkg_outputs r) = Z.to_nat (uval n);
  rg_group : exists gk, Forall (fun o => spo_group_key o = gk) (pr_dkg_outputs r) /\
    sp_group_verifying_key (sp_proof (pr_dvrf_out r)) = secp_verifying_key_bytes gk /\
    sa_group_verifying_key_bytes (pr_approval r) = secp_verifying_key_bytes gk;
  rg_dvrf : dvrf_verify_output (MkSecp256k1DvrfInput pipeline_alpha) (pr_dvrf_out r) = Ok tt;
  rg_proof : verify_deco_dx_dctls (pr_proof r) (sp_rand (pr_dvrf_out r)) pipeline_cert = Ok tt;
  rg_key : dh_k_mac (dx_pi_hsp (pr_proof r)) = as_bytes (k_mac_seed (sp_rand (pr_dvrf_out r)) (rr_session env));
  rg_approval : secp256k1_verify_approval (pr_approval r) pipeline_message = Ok tt;
  rg_encoded : secp_abi_decode (pr_encoded r) = Ok (pr_attestation r);
  rg_counts : uval (os_threshold (pr_attestation r)) = uval threshold /\ uval (os_verifier_count (pr_attestation r)) = uval n
}.

Lemma pipeline_dkg (env : RunRandom) (t n : usize) : 2 <= uval t <= uval n -> uval n <= 255 ->
  exists outs gk, run_secp256k1_dkg (rr_dkg env) (pipeline_ids n) t = Ok outs /\ length outs = Z.to_nat (uval n) /\ dkg_done outs gk t.
Proof.
  intros Ht Hn. assert (Hlen : length (pipeline_ids n) = Z.to_nat (uval n)).
  { unfold pipeline_ids. rewrite length_fmap, length_seq, Z.mod_small by lia. done. }
  destruct (run_completes (pipeline_ids n) t (rr_dkg env)) as (outs & gk & Hrun & Hl & Hout & _); [lia..|].
  exists outs, gk. rewrite Hlen in Hl. split_and!; [done|done|]. split; [lia|]. split; [lia|]. intros k o Ho.
  pose proof (lookup_lt_Some _ _ _ Ho) as Hk. destruct (lookup_lt_is_Some_2 (pipeline_ids n) k) as [v Hv]; [lia|].
  destruct (Hout k o v Ho Hv) as (Hg & _ & Hsh & Hid). rewrite Hlen, <- Hl in Hsh. done.
Qed.

Lemma hsp_completes I sid rand cert st : executor_sound I -> I st ->
  exists session, deco_hsp (Ex:=executor_in execute st) fill_bytes sid rand cert = Ok session /\
    (forall q r stmt, verify_deco_dx_dctls (deco_pgp session (deco_qp session q r) stmt) rand cert = Ok tt) /\
    dh_k_mac (spv_pi_hsp (ds_spv session)) = as_bytes (k_mac_seed rand sid) /\ I (executor_after fill_bytes execute sid rand st).
Proof.
  intros Hex Hst. unfold deco_hsp, executor_after, split_k_mac. cbn [cs_execute executor_in].
  set (p := fill_bytes _). set (v := arr_xor _ p). destruct (Hex p v (as_bytes rand) st Hst) as (raw & Hraw & Hk & HI).
  rewrite Hraw. cbn [map_err mbind result_bind]. eexists. split; [reflexivity|]. split_and!.
  - intros q r stmt. by apply verify_deco_Ok.
  - cbn [ds_spv spv_pi_hsp dh_k_mac]. rewrite Hk. apply arr_xor_cancel_m.
  - exact HI.
Qed.

Lemma run_completes_good I env t n st : executor_sound I -> I st -> 2 <= uval t <= uval n -> uval n <= 255 ->
  exists r st', run_pipeline fill_bytes execute env t n st = (Ok r, st') /\ run_good env t n r /\ I st'.
Proof using Sg.
  intros Hex Hst Ht Hn. destruct (pipeline_dkg env t n Ht Hn) as (outs & gk & Hdkg & Hlen & Hdone).
  destruct (pipeline_dvrf_completes outs gk t Hdone) as (out & Hout & Hver & Hvk).
  destruct (hsp_completes I (rr_session env) (sp_rand out) pipeline_cert st Hex Hst) as (session & Hsess & Hproof & Hkey & HI).
  destruct (pipeline_sign_completes outs gk t Hdone (rr_sign env)) as (a & Ha & Hav & Havk).
  set (att := pipeline_attestation a (sp_rand out) t n).
  destruct (proj1 secp_abi_format att) as [Hlength Hround].
  unfold run_pipeline. rewrite Hdkg. cbn [unwrapped map_err mbind result_bind]. rewrite Hout. cbn [mbind result_bind].
  rewrite Hsess. cbn [map_err mbind result_bind]. rewrite Ha. cbn [mbind result_bind]. fold att. rewrite Hlength. cbn [Nat.eqb ensure mbind result_bind Nat.mul Nat.add].
  exists (MkPipelineRun outs out (deco_pgp session (deco_qp session pipeline_query pipeline_response) pipeline_statement) a att (secp_abi_encode att)).
  exists (executor_after fill_bytes execute (rr_session env) (sp_rand out) st). split; [done|]. split; [|exact HI].
  split; cbn [pr_dkg_outputs pr_dvrf_out pr_proof pr_approval pr_attestation pr_encoded]; try done.
  - exists gk. split_and!; [|done|done]. apply Forall_forall. intros o (k & Hk)%list_elem_of_lookup. by apply (proj2 (proj2 Hdone) k o).
  - cbn [att pipeline_attestation os_threshold os_verifier_count]. rewrite !uval_of_Z_small by (change (2 ^ 8) with 256; lia). done.
Qed.

Lemma configs_complete I env configs k st : executor_sound I -> I st ->
  Forall (fun tn => 2 <= tn.1 <= tn.2 /\ tn.2 <= 255) configs ->
  exists rs st', run_configs fill_bytes execute env k configs st = (Ok rs, st') /\ I st' /\
    Forall2 (fun tn r => exists k', run_good (env k') (u_of_Z 64 tn.1) (u_of_Z 64 tn.2) r) configs rs.
Proof using Sg.
  intros Hex Hst Hall. revert k st Hst. induction Hall as [|[t n] configs [Ht Hn] _ IH]; intros k st Hst; [by exists [], st; repeat constructor|].
  cbn [fst snd] in *. assert (Hu : forall z, 0 <= z <= 255 -> uval (u_of_Z 64 z) = z).
  { intros z Hz. apply uval_of_Z_small. change (2 ^ 64) with 18446744073709551616. lia. }
  destruct (run_completes_good I (env k) (u_of_Z 64 t) (u_of_Z 64 n) st) as (r & st1 & Hr & Hgood & HI); try done; rewrite ?Hu; try lia.
  destruct (IH (S k) st1 HI) as (rs & st2 & Hrs & HI2 & Hgoods). exists (r :: rs), st2. cbn [run_configs]. rewrite Hr, Hrs.
  split_and!; [done|done|]. constructor; [by exists k|done].
Qed.

Lemma table_completes I env st : executor_sound I -> I st ->
  exists rs st', run_table fill_bytes execute env st = (Ok rs, st') /\
    Forall2 (fun tn r => exists k, run_good (env k) (u_of_Z 64 tn.1) (u_of_Z 64 tn.2) r) pipeline_configs rs.
Proof using Sg.
  intros Hex Hst. destruct (configs_complete I env pipeline_configs 0 st Hex Hst) as (rs & st' & Hrs & _ & Hgood); [|eauto].
  apply (bool_decide_unpack _). vm_compute. exact Logic.I.
Qed.

(** C6. The pipeline completes: with an executor that keeps returning the shared key,
    every run for a threshold from two to the number of verifiers, at most 255,
    ends without a panic and establishes what each phase promises: one group key,
    randomness and an approval that verify under it, a DECO proof that verifies for
    this randomness and is over the MAC key derived for the session, and an encoding
    that decodes to the attestation; in particular the table of all configurations
    is completed. *)
Theorem pipeline_completes I : executor_sound I ->
  (forall env t n st, I st -> 2 <= uval t <= uval n -> uval n <= 255 ->
     exists r st', run_pipeline fill_bytes execute env t n st = (Ok r, st') /\ run_good env t n r /\ I st') /\
  (forall env st, I st -> exists rs st', run_table fill_bytes execute env st = (Ok rs, st') /\
     Forall2 (fun tn r => exists k, run_good (env k) (u_of_Z 64 tn.1) (u_of_Z 64 tn.2) r) pipeline_configs rs).
Proof using Sg.
  intros Hex. split; [intros; by apply run_completes_good|]. intros env st Hst. by apply (table_completes I).
Qed.
End Completes.

(** ** The executors *)

(** The one without a prover. *)
Lemma stub_sound : executor_sound (fun p v rb (st : unit) => (stub_execute p v rb, st)) (fun _ => True).
Proof. intros p v rb st _. by eexists. Qed.

(** The program with [--stub], whatever else is on the command line. *)
Lemma main_stub {J : SerdeText} {Fs : FileSystem} {Hs : Sha256} {Hm : HmacSha256} {Sp : FrostSecp256k1} {Sg : SecpSigning}
    fill_bytes P start run pid debug args env f : "--stub" ∈ args ->
  exists rs, pipeline_main fill_bytes P start run pid debug args env f = Ok ("stub", rs) /\
    Forall2 (fun tn r => exists k, run_good (env k) (u_of_Z 64 tn.1) (u_of_Z 64 tn.2) r) pipeline_configs rs.
Proof.
  intros Hin. assert (Hflag : has_flag args "--stub" = true).
  { apply existsb_exists. exists "--stub". rewrite <- list_elem_of_In. by rewrite bool_decide_eq_true_2. }
  destruct (table_completes fill_bytes (fun p v rb (st : unit) => (stub_execute p v rb, st)) (fun _ => True) env tt stub_sound Logic.I)
    as (rs & st' & Hrs & Hgood).
  exists rs. split; [|done]. unfold pipeline_main. by rewrite Hflag, Hrs.
Qed.

Section RealExecutors.
Context {J : SerdeText} {JL : SerdeTextLaws J} {G : Groth377} {GL : Groth377Laws G} {Fs : FileSystem} {FL : FileSystemLaws Fs}.
Context (full_var : option string) (os child_os : coordinator_os (Fs:=Fs)) (mpc_create_proof : mpc_protocol).
Context (rngs : nat -> OsRng * OsRng).
Abbreviation SP := (server_process full_var os mpc_create_proof rngs).
Context (start : string -> result string (pr_state SP)) (run : files -> string -> string -> process_run) (pid : string) (debug : string -> string).
Context (pk : ProvingKey).

(** *** The server process in central mode *)

(** The server has the proving key, and nothing is left unread. *)
Definition server_has_key (st : RealCoSnarkExecutor SP * files) : Prop :=
  exists k s vk_hex binary, st.1 = ExCentral SP (Some (MkProverServer (P:=SP) (Some (k, s)) [] vk_hex)) binary /\ cached_params s = Some pk.

Lemma central_sound :
  (forall p v rb rng, is_ok (create_random_proof (central_circuit full_var p v rb).1.1 pk rng) = true) ->
  executor_sound (real_execute SP start run pid debug) server_has_key.
Proof using JL GL.
  intros Hproofs p v rb [self f] (k & s & vk_hex & binary & Hself & Hkey). cbn [fst] in Hself. subst self.
  destruct (is_ok_exists _ (Hproofs p v rb (rngs k).2)) as [pf Hpf].
  destruct (central_result full_var (rngs k).2 p v rb false pk pf Hpf) as (pb & cb & rbb & vkb & _ & _ & _ & _ & H5).
  cbn [real_execute]. rewrite server_prove_answer, Hkey.
  rewrite (central_with_key full_var (rngs k) (sv_files s) _ p v rb pk) by done. rewrite H5.
  cbn [map_err fmap result_fmap fst snd]. eexists. split; [reflexivity|]. split; [done|]. by exists (S k), s, vk_hex, binary.
Qed.

(** Starting the server and its setup give it the key. *)
Lemma warmup_central binary f f0 :
  start binary = Ok (Some (0%nat, MkServerState None f0)) -> run_setup full_var false (rngs 0%nat).1 = Ok pk ->
  exists st, warmup SP start run pid (RealCoSnarkExecutor_new SP binary DCentral) f = Ok st /\ server_has_key st.
Proof using JL GL.
  intros Hstart Hset. cbn [RealCoSnarkExecutor_new warmup]. unfold ProverServer_spawn. rewrite Hstart. cbn [map_err mbind result_bind].
  unfold exchange. cbn [pr_step server_process]. unfold server_setup_line, server_step.
  rewrite trim_print, bool_decide_eq_false_2 by apply json_print_nonempty. unfold line_action. rewrite json_parse_print.
  change (index_str (JObject [("action", JString "setup")]) "action") with (Some "setup"). cbn [fmap option_fmap option_map].
  rewrite bool_decide_eq_true_2 by done. unfold server_setup. change (default false (index_bool _ _)) with false. rewrite Hset.
  cbn [sv_files fst fmap option_fmap option_map app]. unfold emit_setup. cbn [mbind result_bind]. rewrite trim_print, json_parse_print. cbn [mbind result_bind].
  rewrite raw_setup_of_setup. cbn [map_err mbind result_bind rw_ok rw_error rw_vk_hex sr_ok ensure].
  eexists. split; [reflexivity|]. by eexists _, _, _, binary.
Qed.

(** The program without flags runs to the end of its table, when the server starts,
    its setup succeeds and the prover makes proofs with the key of the setup. *)
Lemma main_central {Hs : Sha256} {Hm : HmacSha256} {Sp : FrostSecp256k1} {Sg : SecpSigning} fill_bytes args env f f0 :
  has_flag args "--stub" = false -> has_flag args "--distributed" = false ->
  start (pipeline_binary args) = Ok (Some (0%nat, MkServerState None f0)) -> run_setup full_var false (rngs 0%nat).1 = Ok pk ->
  (forall p v rb rng, is_ok (create_random_proof (central_circuit full_var p v rb).1.1 pk rng) = true) ->
  exists rs, pipeline_main fill_bytes SP start run pid debug args env f = Ok ("co-SNARK central", rs) /\
    Forall2 (fun tn r => exists k, run_good (env k) (u_of_Z 64 tn.1) (u_of_Z 64 tn.2) r) pipeline_configs rs.
Proof using JL GL.
  intros Hstub Hdist Hstart Hset Hproofs. destruct (warmup_central _ f f0 Hstart Hset) as (st & Hwarm & Hst).
  destruct (table_completes fill_bytes (real_execute SP start run pid debug) server_has_key env st (central_sound Hproofs) Hst)
    as (rs & st' & Hrs & Hgood).
  exists rs. split; [|done]. unfold pipeline_main. rewrite Hstub, Hdist, Hwarm. cbn [mbind result_bind]. by rewrite Hrs.
Qed.

(** *** A process per call in two-party mode *)

Definition client_has_key (st : RealCoSnarkExecutor SP * files) : Prop :=
  exists path crs, st.1 = ExDistributed SP (MkClient path DDistributed) (Some crs) /\ crs_holds st.2 crs pk.

Lemma distributed_sound rngp :
  (forall f p b, exists f', fs_write f p b = Ok f') -> use_full_circuit full_var = false ->
  children_run full_var os child_os mpc_create_proof rngp ->
  (forall f path input, exists rng, run f path input = single_process full_var os mpc_create_proof rng f path input) ->
  (forall p v rb, is_ok (mpc_create_proof 0%nat (KeyCircuit (share_circuit0 p v rb)) pk) = true) ->
  executor_sound (real_execute SP start run pid debug) client_has_key.
Proof using JL GL FL.
  intros Hwrites Hfull Hch Hrun Hproofs p v rb [self f] (path & crs & Hself & Hkey). cbn [fst snd] in *. subst self.
  destruct (is_ok_exists _ (Hproofs p v rb)) as [pf Hpf]. cbn [real_execute].
  assert (Hcall : exists rng, client_prove (run f) (MkClient path DDistributed) p v rb (Some crs) false
    = client_prove (single_process full_var os mpc_create_proof rng f) (MkClient path DDistributed) p v rb (Some crs) false).
  { unfold client_prove, call_subprocess. set (input := unlines _). destruct (Hrun f path input) as [rng Heq]. exists rng.
    cbn [cl_binary_path]. by rewrite Heq. }
  destruct Hcall as [rng ->].
  destruct (distributed_client_result full_var os child_os mpc_create_proof Hwrites path rng rngp f crs p v rb false pk pf Hfull Hch Hkey Hpf)
    as (pb & vkb & _ & _ & ->).
  cbn [map_err fmap result_fmap fst snd]. eexists. split; [reflexivity|]. split; [done|]. by exists path, crs.
Qed.
End RealExecutors.

(** ** A concrete table *)

Section Demo.
#[local] Existing Instance toy_sha256.
#[local] Existing Instance toy_hmac.
#[local] Existing Instance toy_secp.
#[local] Existing Instance toy_secp_signing.
#[local] Existing Instance toy_text.
#[local] Existing Instance toy_text_laws.
#[local] Existing Instance toy_groth377.
#[local] Existing Instance toy_groth377_laws.
#[local] Existing Instance toy_files.

Definition demo_server : process := server_process None toy_os toy_mpc (fun _ => (tt, tt)).
Definition demo_start (_ : string) : result string (pr_state demo_server) := Ok (Some (0%nat, MkServerState None ∅)).
Definition demo_single (f : files) : string -> string -> process_run := single_process None toy_os toy_mpc (tt, tt) f.
Definition demo_env (k : nat) : RunRandom :=
  MkRunRandom (fun i => [byte (Z.of_nat i)]) (fun i => [byte (Z.of_nat (k + i))]) (sid (Z.of_nat k)).
Definition demo_execute := real_execute demo_server demo_start demo_single "1" id.

(** All configurations, with the server process. *)
Lemma pipeline_completes_witness :
  exists st rs st', warmup demo_server demo_start demo_single "1" (RealCoSnarkExecutor_new demo_server "co-snark-prover" DCentral) ∅ = Ok st /\
    run_table id demo_execute demo_env st = (Ok rs, st').
Proof.
  destruct (warmup_central None toy_os toy_mpc (fun _ => (tt, tt)) demo_start demo_single "1" tt "co-snark-prover" ∅ ∅)
    as (st & Hwarm & Hst); [reflexivity|reflexivity|].
  destruct (pipeline_completes id demo_execute (server_has_key None toy_os toy_mpc (fun _ => (tt, tt)) tt)) as [_ Htable].
  - apply (central_sound None toy_os toy_mpc (fun _ => (tt, tt)) demo_start demo_single "1" id tt). reflexivity.
  - destruct (Htable demo_env st Hst) as (rs & st' & Hrs & _). exists st, rs, st'. exact (conj Hwarm Hrs).
Defined.
End Demo.
