(* ===== verification/Ceremony.v ===== *)
(** * Key ceremony and start of the auxiliary nodes

    Models the binaries [node/src/bin/dkg_ceremony.rs], which deals the keys of
    a group and writes one key file and one configuration per node together with
    the group key, and [node/src/bin/aux_node.rs], which reads a configuration
    and the key file it names and starts the node.

    The command line is the list of arguments, program name first. The programs
    act on the files of [FileSystem]; a message on standard error followed by
    exit status 1 is [Fails], a panic [Panics]. Binding the listening socket is
    an argument; the heartbeat loop of the node, which only logs, is left out:
    what a running node does is the subject of [NodeTransport]. *)

From Stdlib Require Import Ascii.
From S2P Require Import Prelude Core Session Attestation Threshold Registry Errors Frost FrostAux Dkg DkgNode DkgCeremony.
From S2P Require Import FrostKeys Json Os.

(** ** dkg_ceremony.rs *)

Section Ceremony.
Context {Ed : Ed25519} {Fr : FrostEd25519} {Dk : FrostDkg} {De : FrostDealer} {Ib : IdentifierBytes}.
Context {Jg : SerdeJson GroupKeyExport} {Jp : SerdeJson ParticipantExport}.
Context {J : SerdeText} {Pp : SerdePretty J} {Fs : FileSystem} {Di : Directories}.
Local Open Scope stres_scope.

Definition ceremony_usage : string :=
  "Usage: dkg-ceremony --nodes N --threshold T --out-dir DIR".

(** The options from position 1; [args[i]] after the increment panics behind the
    last argument. *)
Fixpoint ceremony_options (args : list string) (nodes threshold : option usize) (out_dir : option string)
    : result (failure string) (option usize * option usize * option string) :=
  match args with
  | [] => Ok (nodes, threshold, out_dir)
  | a :: rest =>
      if bool_decide (a = "--nodes") then
        match rest with
        | [] => Err (Panics "index out of bounds")
        | v :: rest' => n ← ok_or (Fails ceremony_usage) (parse_usize v); ceremony_options rest' (Some n) threshold out_dir
        end
      else if bool_decide (a = "--threshold") then
        match rest with
        | [] => Err (Panics "index out of bounds")
        | v :: rest' => t ← ok_or (Fails ceremony_usage) (parse_usize v); ceremony_options rest' nodes (Some t) out_dir
        end
      else if bool_decide (a = "--out-dir") then
        match rest with
        | [] => Err (Panics "index out of bounds")
        | v :: rest' => ceremony_options rest' nodes threshold (Some v)
        end
      else Err (Fails ceremony_usage)
  end.
Definition ceremony_parse_args (args : list string) : result (failure string) (usize * usize * string) :=
  o ← ceremony_options (drop 1 args) None None None;
  let '(nodes, threshold, out_dir) := o in
  n ← ok_or (Fails ceremony_usage) nodes;
  t ← ok_or (Fails ceremony_usage) threshold;
  d ← ok_or (Fails ceremony_usage) out_dir;
  Ok (n, t, d).

(** The identifier of node [i]: its number, then the marker byte. *)
Definition ceremony_verifier_id (i : nat) : VerifierId :=
  from_bytes (to_array 32 (be_bytes 8 (Z.of_nat i) ++ [byte 171])).
Definition ceremony_verifier_ids (n : usize) : list VerifierId :=
  ceremony_verifier_id <$> seq 0 (Z.to_nat (uval n)).

Definition node_file (i : nat) : string := "node-" +:+ pretty i +:+ ".json".
Definition config_file (i : nat) : string := "node-" +:+ pretty i +:+ "-config.json".

(** [std::fs::write], the error with its context. *)
Definition write_file (context path : string) (bs : bytes) : stres files (failure string) unit := fun f =>
  match fs_write f path bs with
  | Ok f' => (f', Ok tt)
  | Err e => (f, Err (Fails ("ERROR: write " +:+ context +:+ ": " +:+ e)))
  end.

Definition write_participant (out_dir : string) (ip : nat * FrostParticipant) : stres files (failure string) unit :=
  let '(i, participant) := ip in
  let path := path_join out_dir (node_file i) in
  bs <-- slift (map_err (fun e => Fails ("ERROR: serialize participant " +:+ pretty i +:+ ": " +:+ CryptoError_to_string e))
           (participant_to_json_bytes participant)) ;;
  write_file path path bs.

(** [serde_json::json!]: members in the order of their names. *)
Definition node_config_json (n t : usize) (i : nat) : Json :=
  JObject [("group_key_file", JString "group-key.json");
           ("key_file", JString (node_file i));
           ("listen_addr", JString ("0.0.0.0:" +:+ pretty (8080 + Z.of_nat i)));
           ("node_index", JInt (Z.of_nat i));
           ("num_nodes", JInt (uval n));
           ("threshold", JInt (uval t))].
Definition write_config (n t : usize) (out_dir : string) (i : nat) : stres files (failure string) unit :=
  write_file ("config " +:+ pretty i) (path_join out_dir (config_file i))
    (string_bytes (json_pretty (node_config_json n t i))).

Definition create_dir (out_dir : string) : stres files (failure string) unit := fun f =>
  match fs_create_dir_all f out_dir with
  | Ok f' => (f', Ok tt)
  | Err e => (f, Err (Fails ("ERROR: cannot create output dir: " +:+ e)))
  end.

Definition ceremony_main (rng : Frost.Rng) (args : list string) : stres files (failure string) unit :=
  a <-- slift (ceremony_parse_args args) ;;
  let '(n, t, out_dir) := a in
  if uval t <? 2 then serr (Fails "ERROR: threshold must be >= 2 (FROST requirement)")
  else if uval n <? uval t then
    serr (Fails ("ERROR: threshold " +:+ pretty (uval t) +:+ " > nodes " +:+ pretty (uval n)))
  else
    create_dir out_dir ;;;
    output <-- slift (map_err (fun e => match e with
                             | Fails e => Fails ("ERROR: DKG failed: " +:+ CryptoError_to_string e)
                             | Panics m => Panics m
                             end)
             (frost_trusted_dealer_keygen rng (ceremony_verifier_ids n) t)) ;;
    sfor (enumerate (tdk_participants output)) (write_participant out_dir) ;;;
    group_bytes <-- slift (map_err (fun e => Fails ("ERROR: serialize group key: " +:+ CryptoError_to_string e))
             (group_key_to_json_bytes (tdk_group_key output))) ;;
    write_file (path_join out_dir "group-key.json") (path_join out_dir "group-key.json") group_bytes ;;;
    sfor (seq 0 (Z.to_nat (uval n))) (write_config n t out_dir).

(** ** aux_node.rs *)

Record NodeConfig := MkNodeConfig {
  nc_node_index : usize;
  nc_listen_addr : string;
  nc_key_file : string;
  nc_group_key_file : string;
  nc_threshold : usize;
  nc_num_nodes : usize
}.
Definition NodeConfig_from_json (v : Json) : result string NodeConfig :=
  (ms ← struct_members ["node_index"; "listen_addr"; "key_file"; "group_key_file"; "threshold"; "num_nodes"] v;
   node_index ← required ms read_usize "node_index";
   listen_addr ← required ms read_string "listen_addr";
   key_file ← required ms read_string "key_file";
   group_key_file ← required ms read_string "group_key_file";
   threshold ← required ms read_usize "threshold";
   num_nodes ← required ms read_usize "num_nodes";
   Ok (MkNodeConfig node_index listen_addr key_file group_key_file threshold num_nodes)).

Definition aux_usage : string := "Usage: aux-node --config CONFIG_FILE".

(** The single option of the node and of the coordinator. *)
Fixpoint config_option (usage : string) (args : list string) (config : option string)
    : result (failure string) (option string) :=
  match args with
  | [] => Ok config
  | a :: rest =>
      if bool_decide (a = "--config") then
        match rest with
        | [] => Err (Panics "index out of bounds")
        | v :: rest' => config_option usage rest' (Some v)
        end
      else Err (Fails usage)
  end.
Definition config_parse_args (usage : string) (args : list string) : result (failure string) string :=
  c ← config_option usage (drop 1 args) None; ok_or (Fails usage) c.

(** A started node: its configuration, its state and its address. *)
Record AuxProcess := MkAuxProcess {
  ap_config : NodeConfig;
  ap_node : FrostAuxiliaryNode;
  ap_addr : string
}.

Definition aux_main (bind_tcp : string -> result string string) (args : list string) (f : files)
    : result (failure string) AuxProcess :=
  config_path ← config_parse_args aux_usage args;
  config_bytes ← map_err (fun e => Fails ("ERROR: read config " +:+ config_path +:+ ": " +:+ e)) (fs_read f config_path);
  config ← map_err (fun e => Fails ("ERROR: parse config: " +:+ e)) (json_slice NodeConfig_from_json config_bytes);
  let key_path := resolve config_path (nc_key_file config) in
  key_bytes ← map_err (fun e => Fails ("ERROR: read key file " +:+ key_path +:+ ": " +:+ e)) (fs_read f key_path);
  participant ← map_err (fun e => Fails ("ERROR: load participant key: " +:+ CryptoError_to_string e))
                  (participant_from_json_bytes key_bytes);
  addr ← map_err (fun e => Fails ("ERROR: bind " +:+ nc_listen_addr config +:+ ": " +:+ e)) (bind_tcp (nc_listen_addr config));
  Ok (MkAuxProcess config (FrostAuxiliaryNode_new participant) addr).

(** ** File names *)

Lemma digit_chars (i : nat) c : c ∈ chars (pretty i) -> is_digit c = true.
Proof.
  destruct (pretty_N_spec (N.of_nat i)) as (Hd & _). intros Hc. rewrite forallb_forall in Hd.
  apply Hd. by apply list_elem_of_In.
Qed.

Lemma numbered_plain (i : nat) suffix : slash ∉ chars suffix -> plain_name ("node-" +:+ pretty i +:+ suffix) = true.
Proof.
  intros Hs. unfold plain_name. rewrite !chars_app. apply andb_true_intro. split; [|done].
  apply negb_true_iff, bool_decide_eq_false. rewrite !elem_of_app. intros [Hin|[Hin%digit_chars|Hin]]; [|done..].
  revert Hin. by apply (bool_decide_unpack _).
Qed.
Lemma node_file_plain i : plain_name (node_file i) = true.
Proof. apply numbered_plain. by apply (bool_decide_unpack _). Qed.
Lemma config_file_plain i : plain_name (config_file i) = true.
Proof. apply numbered_plain. by apply (bool_decide_unpack _). Qed.

Lemma numbered_file_inj (i j : nat) suffix : "node-" +:+ pretty i +:+ suffix = "node-" +:+ pretty j +:+ suffix -> i = j.
Proof.
  intros Heq%(f_equal chars). rewrite !chars_app in Heq. apply app_inv_head, app_inv_tail in Heq.
  apply (f_equal of_chars) in Heq. rewrite !of_chars_chars in Heq. by apply (inj pretty).
Qed.
Lemma node_not_config i j : node_file i <> config_file j.
Proof.
  intros Heq%(f_equal chars). unfold node_file, config_file in Heq. rewrite !chars_app in Heq. apply app_inv_head in Heq.
  assert (Hin : "-"%char ∈ chars (pretty i) ++ chars ".json").
  { rewrite Heq. apply elem_of_app. right. by apply (bool_decide_unpack _). }
  apply elem_of_app in Hin as [Hin%digit_chars|Hin]; [done|]. revert Hin. by apply (bool_decide_unpack _).
Qed.

(** ** The files after the ceremony *)

Context {FL : FileSystemLaws Fs}.

(** [f'] differs from [f] only in the files named by [names], of which each
    holds [content]. *)
Definition wrote (dir : string) (f f' : files) (names : list (string * bytes)) : Prop :=
  (forall nm b, (nm, b) ∈ names -> fs_read f' (path_join dir nm) = Ok b) /\
  (forall nm, plain_name nm = true -> nm ∉ names.*1 -> fs_read f' (path_join dir nm) = fs_read f (path_join dir nm)).

Lemma wrote_one dir f f' nm b context :
  tidy dir = true -> plain_name nm = true ->
  write_file context (path_join dir nm) b f = (f', Ok tt) -> wrote dir f f' [(nm, b)].
Proof using FL.
  intros Hd Hn. unfold write_file. destruct (fs_write _ _ _) as [g|] eqn:E; [|done]. intros [= <-]. split.
  - intros nm' b' [= -> ->]%list_elem_of_singleton. by eapply fs_read_write.
  - intros nm' Hp Hni. eapply fs_read_other; [done|]. intros Heq%join_inj; [|done..]. subst. apply Hni. by constructor.
Qed.

Lemma wrote_app dir f1 f2 f3 l1 l2 :
  Forall (fun x => plain_name x = true) l1.*1 -> (forall nm, nm ∈ l1.*1 -> nm ∉ l2.*1) ->
  wrote dir f1 f2 l1 -> wrote dir f2 f3 l2 -> wrote dir f1 f3 (l1 ++ l2).
Proof.
  intros Hp Hd [H1 K1] [H2 K2]. split.
  - intros nm b [Hin|Hin]%elem_of_app; [|by apply H2]. assert (Hf : nm ∈ l1.*1) by (by apply (list_elem_of_fmap_2 fst) in Hin).
    rewrite K2; [by apply H1|by eapply Forall_forall in Hp|by apply Hd].
  - intros nm Hn Hni. rewrite fmap_app, not_elem_of_app in Hni. rewrite K2, K1; naive_solver.
Qed.

(** A loop whose bodies each write one file of the directory. *)
Lemma wrote_for {A} dir (l : list A) (body : A -> stres files (failure string) unit) (nm : A -> string) (bs : A -> bytes) f f' :
  (forall x, x ∈ l -> plain_name (nm x) = true) -> NoDup (nm <$> l) ->
  (forall x g g', x ∈ l -> body x g = (g', Ok tt) -> wrote dir g g' [(nm x, bs x)]) ->
  sfor l body f = (f', Ok tt) -> wrote dir f f' ((fun x => (nm x, bs x)) <$> l).
Proof.
  revert f. induction l as [|x l IH]; intros f Hp Hnd Hb; cbn [sfor].
  - intros [= <-]. split; [by intros ? ? ?%elem_of_nil|done].
  - intros (g & [] & Hx & Hl)%sbind_Ok. apply NoDup_cons in Hnd as [Hni Hnd].
    change ((fun x => (nm x, bs x)) <$> x :: l) with ([(nm x, bs x)] ++ ((fun x => (nm x, bs x)) <$> l)).
    eapply wrote_app; [| |eapply Hb; [by constructor|done]|].
    + apply Forall_singleton. apply Hp. by constructor.
    + intros ? ->%list_elem_of_singleton. rewrite <- list_fmap_compose. exact Hni.
    + apply IH; [..|done]; intros; [apply Hp|exact Hnd|apply Hb]; try done; by constructor.
Qed.

(** ** The configuration of a node *)

Lemma node_config_read (n t : usize) i : Z.of_nat i < uval n ->
  json_slice NodeConfig_from_json (string_bytes (json_pretty (node_config_json n t i)))
  = Ok {| nc_node_index := u_of_Z 64 (Z.of_nat i); nc_listen_addr := "0.0.0.0:" +:+ pretty (8080 + Z.of_nat i);
          nc_key_file := node_file i; nc_group_key_file := "group-key.json"; nc_threshold := t; nc_num_nodes := n |}.
Proof.
  intros Hi. pose proof (uval_range n) as Hn. pose proof (uval_range t) as Ht.
  unfold json_slice. rewrite bytes_string_bytes, json_parse_pretty. cbn [mbind result_bind].
  assert (Hu : forall z, 0 <= z < 2 ^ 64 -> read_usize (JInt z) = Ok (u_of_Z 64 z)).
  { intros z Hz. unfold read_usize, as_u64. by rewrite (proj2 (Z.leb_le 0 z)), (proj2 (Z.ltb_lt z _)) by lia. }
  assert (Hcfg : NodeConfig_from_json (node_config_json n t i)
    = (x ← read_usize (JInt (Z.of_nat i)); y ← read_usize (JInt (uval t)); z ← read_usize (JInt (uval n));
       Ok (MkNodeConfig x ("0.0.0.0:" +:+ pretty (8080 + Z.of_nat i)) (node_file i) "group-key.json" y z)))
    by reflexivity.
  rewrite Hcfg, !Hu by lia. cbn [mbind result_bind]. by rewrite !u_of_Z_uval.
Qed.

(** ** Deployment *)

Definition participant_bytes (p : FrostParticipant) : bytes := unwrap_or [] (participant_to_json_bytes p).

Lemma enumerate_fst {A} (l : list A) : (enumerate l).*1 = seq 0 (length l).
Proof. unfold enumerate. apply fst_zip. by rewrite length_seq. Qed.
Lemma enumerate_lookup {A} (l : list A) i x : l !! i = Some x -> (i, x) ∈ enumerate l.
Proof.
  intros Hx. apply list_elem_of_lookup. exists i. unfold enumerate. apply lookup_zip_Some. split; [|done].
  apply lookup_seq. split; [done|]. by eapply lookup_lt_Some.
Qed.

Lemma wrote_participants dir ps f f' : tidy dir = true ->
  sfor (enumerate ps) (write_participant dir) f = (f', Ok tt) ->
  wrote dir f f' ((fun ip => (node_file ip.1, participant_bytes ip.2)) <$> enumerate ps) /\
  Forall (fun p => participant_to_json_bytes p = Ok (participant_bytes p)) ps.
Proof using FL.
  intros Hd Hrun. split.
  - apply (wrote_for dir _ (write_participant dir) (fun ip => node_file ip.1) (fun ip => participant_bytes ip.2)); [..|done].
    + intros. apply node_file_plain.
    + change (NoDup ((node_file ∘ fst) <$> enumerate ps)). rewrite (list_fmap_compose fst node_file), enumerate_fst.
      apply NoDup_fmap_2; [intros ? ?; apply numbered_file_inj|apply NoDup_seq].
    + intros [i p] g g' _ (g1 & bs & [-> Hbs%map_err_Ok]%slift_Ok & Hw)%sbind_Ok. cbn [fst snd]. unfold participant_bytes.
      rewrite Hbs. eapply wrote_one; [done|apply node_file_plain|done].
  - unfold enumerate in Hrun. revert Hrun. generalize 0%nat as k. revert f.
    induction ps as [|p ps IH]; intros f k; [done|]. cbn [length seq zip zip_with sfor].
    intros (g & [] & (g1 & bs & [-> Hbs%map_err_Ok]%slift_Ok & _)%sbind_Ok & Hl)%sbind_Ok.
    constructor; [unfold participant_bytes; by rewrite Hbs|by eapply IH].
Qed.

Lemma wrote_configs n t dir f f' : tidy dir = true ->
  sfor (seq 0 (Z.to_nat (uval n))) (write_config n t dir) f = (f', Ok tt) ->
  wrote dir f f' ((fun i => (config_file i, string_bytes (json_pretty (node_config_json n t i)))) <$> seq 0 (Z.to_nat (uval n))).
Proof using FL.
  intros Hd. apply (wrote_for dir _ _ config_file (fun i => string_bytes (json_pretty (node_config_json n t i)))).
  - intros. apply config_file_plain.
  - apply NoDup_fmap_2; [intros ? ?; apply numbered_file_inj|apply NoDup_seq].
  - intros i g g' _ Hw. eapply wrote_one; [done|apply config_file_plain|done].
Qed.

(** What a completed ceremony has left in its directory. *)
Lemma ceremony_files rng args n t dir f f' :
  ceremony_parse_args args = Ok (n, t, dir) -> tidy dir = true ->
  ceremony_main rng args f = (f', Ok tt) ->
  exists out gb, frost_trusted_dealer_keygen rng (ceremony_verifier_ids n) t = Ok out /\
    2 <= uval t <= uval n /\ group_key_to_json_bytes (tdk_group_key out) = Ok gb /\
    fs_read f' (path_join dir "group-key.json") = Ok gb /\
    (forall i p, tdk_participants out !! i = Some p ->
       exists bs, participant_to_json_bytes p = Ok bs /\ fs_read f' (path_join dir (node_file i)) = Ok bs) /\
    (forall i, (i < Z.to_nat (uval n))%nat ->
       fs_read f' (path_join dir (config_file i)) = Ok (string_bytes (json_pretty (node_config_json n t i)))).
Proof using FL.
  intros Hargs Hd. unfold ceremony_main. rewrite Hargs. intros (g & [[n' t'] dir'] & [-> [= <- <- <-]]%slift_Ok & Hrun)%sbind_Ok.
  destruct (Z.ltb_spec (uval t) 2); [done|]. destruct (Z.ltb_spec (uval n) (uval t)); [done|].
  apply sbind_Ok in Hrun as (f1 & [] & _ & (f2 & out & [-> Hout%map_err_Ok]%slift_Ok & Hrun)%sbind_Ok).
  apply sbind_Ok in Hrun as (f3 & [] & Hps & (f4 & gb & [-> Hgb%map_err_Ok]%slift_Ok & (f5 & [] & Hg & Hcs)%sbind_Ok)%sbind_Ok).
  destruct (wrote_participants _ _ _ _ Hd Hps) as [Wp Hser].
  assert (Wg : wrote dir f3 f5 [("group-key.json", gb)]) by (by eapply wrote_one).
  pose proof (wrote_configs _ _ _ _ _ Hd Hcs) as Wc.
  exists out, gb. split_and!; [done|lia|lia|done|..].
  - rewrite (proj2 Wc); [apply Wg; by constructor|done|]. rewrite <- list_fmap_compose. by intros (i & [=] & _)%list_elem_of_fmap.
  - intros i p Hi. exists (participant_bytes p). split; [by eapply Forall_lookup_1 in Hser|].
    rewrite (proj2 Wc), (proj2 Wg); [|apply node_file_plain| |apply node_file_plain|].
    + apply Wp. apply list_elem_of_fmap. exists (i, p). split; [done|]. by apply enumerate_lookup.
    + by intros [=]%list_elem_of_singleton.
    + rewrite <- list_fmap_compose. intros (j & E & _)%list_elem_of_fmap. by apply node_not_config in E.
  - intros i Hi. apply Wc. apply list_elem_of_fmap. exists i. split; [done|]. apply elem_of_seq. lia.
Qed.

Lemma ceremony_id_inj i j : Z.of_nat i < 2 ^ 64 -> Z.of_nat j < 2 ^ 64 ->
  ceremony_verifier_id i = ceremony_verifier_id j -> i = j.
Proof.
  intros Hi Hj Heq.
  assert (Hk : forall k, take 8 (arr (as_bytes (ceremony_verifier_id k))) = be_bytes 8 (Z.of_nat k)).
  { intros k. change (arr (as_bytes (ceremony_verifier_id k)))
      with (take 32 ((be_bytes 8 (Z.of_nat k) ++ [byte 171]) ++ replicate 32 (byte 0))).
    rewrite take_take. change (8 `min` 32)%nat with 8%nat. rewrite <- (assoc_L (++)).
    rewrite <- (length_be_bytes 8 (Z.of_nat k)) at 1. apply take_app_length. }
  apply (f_equal (fun v => take 8 (arr (as_bytes v)))) in Heq. rewrite !Hk in Heq.
  apply be_bytes_inj in Heq; change (256 ^ Z.of_nat 8) with (2 ^ 64); lia.
Qed.

Lemma ceremony_ids_NoDup n : NoDup (ceremony_verifier_ids n).
Proof.
  pose proof (uval_range n). apply NoDup_alt. intros i j v Hi Hj. unfold ceremony_verifier_ids in *.
  apply list_lookup_fmap_Some in Hi as (i' & Hv & [-> Hi]%lookup_seq). subst v.
  apply list_lookup_fmap_Some in Hj as (j' & Hv & [-> Hj]%lookup_seq).
  apply ceremony_id_inj in Hv; cbn [Nat.add] in *; change (2 ^ Z.pos 64) with (2 ^ 64) in *; lia.
Qed.
Lemma ceremony_ids_length n : length (ceremony_verifier_ids n) = Z.to_nat (uval n).
Proof. unfold ceremony_verifier_ids. by rewrite length_fmap, length_seq. Qed.

Lemma sfor_completes {A} (l : list A) (body : A -> stres files (failure string) unit) f :
  (forall x g, x ∈ l -> exists g', body x g = (g', Ok tt)) -> exists f', sfor l body f = (f', Ok tt).
Proof.
  revert f. induction l as [|x l IH]; intros f Hb; [by eexists|]. destruct (Hb x f) as [g Hg]; [by constructor|].
  destruct (IH g) as [f' Hf']; [intros; apply Hb; by constructor|]. exists f'. cbn [sfor]. apply sbind_Ok. eauto.
Qed.

Hypothesis writes_succeed : forall f p b, exists f', fs_write f p b = Ok f'.
Hypothesis dirs_succeed : forall f d, exists f', fs_create_dir_all f d = Ok f'.
Hypothesis participants_serialize : forall p, exists bs, participant_to_json_bytes p = Ok bs.
Hypothesis group_keys_serialize : forall gk, exists bs, group_key_to_json_bytes gk = Ok bs.

Lemma write_completes context p b f : exists f', write_file context p b f = (f', Ok tt).
Proof using writes_succeed. destruct (writes_succeed f p b) as [f' Hf]. exists f'. unfold write_file. by rewrite Hf. Qed.

Lemma key_ceremony_completes rng args n t dir f :
  ceremony_parse_args args = Ok (n, t, dir) -> 2 <= uval t <= uval n -> uval n <= 65535 ->
  exists f', ceremony_main rng args f = (f', Ok tt).
Proof using writes_succeed dirs_succeed participants_serialize group_keys_serialize.
  intros Hargs Ht Hn. unfold ceremony_main. rewrite Hargs. cbn [slift sbind].
  destruct (Z.ltb_spec (uval t) 2); [lia|]. destruct (Z.ltb_spec (uval n) (uval t)); [lia|].
  destruct (dirs_succeed f dir) as [f1 Hf1].
  destruct (dealer_keygen_completes rng (ceremony_verifier_ids n) t) as (out & Hout & _);
    [apply ceremony_ids_NoDup|rewrite ceremony_ids_length; lia..|].
  destruct (sfor_completes (enumerate (tdk_participants out)) (write_participant dir) f1) as [f2 Hf2].
  { intros [i p] g _. destruct (participants_serialize p) as [bs Hbs]. unfold write_participant. rewrite Hbs.
    apply write_completes. }
  destruct (group_keys_serialize (tdk_group_key out)) as [gb Hgb].
  destruct (write_completes (path_join dir "group-key.json") (path_join dir "group-key.json") gb f2) as [f3 Hf3].
  destruct (sfor_completes (seq 0 (Z.to_nat (uval n))) (write_config n t dir) f3) as [f4 Hf4].
  { intros. apply write_completes. }
  exists f4. apply sbind_Ok. exists f1, tt. split; [unfold create_dir; by rewrite Hf1|].
  apply sbind_Ok. exists f1, out. split; [rewrite Hout; done|]. apply sbind_Ok. exists f2, tt. split; [done|].
  apply sbind_Ok. exists f2, gb. split; [rewrite Hgb; done|]. apply sbind_Ok. eauto.
Qed.

(** A node started on its configuration in the directory of the ceremony. *)
Lemma aux_main_starts n t dir f i p bs bind_tcp addr prog :
  tidy dir = true -> Z.of_nat i < uval n ->
  fs_read f (path_join dir (config_file i)) = Ok (string_bytes (json_pretty (node_config_json n t i))) ->
  participant_to_json_bytes p = Ok bs -> fs_read f (path_join dir (node_file i)) = Ok bs ->
  bind_tcp ("0.0.0.0:" +:+ pretty (8080 + Z.of_nat i)) = Ok addr ->
  exists c, aux_main bind_tcp [prog; "--config"; path_join dir (config_file i)] f
    = Ok (MkAuxProcess c (FrostAuxiliaryNode_new p) addr) /\
    nc_node_index c = u_of_Z 64 (Z.of_nat i) /\ nc_threshold c = t /\ nc_num_nodes c = n /\
    resolve (path_join dir (config_file i)) (nc_group_key_file c) = path_join dir "group-key.json".
Proof.
  intros Hd Hi Hcfg Hbs Hkey Hb. unfold aux_main.
  change (config_parse_args aux_usage [prog; "--config"; path_join dir (config_file i)]) with
    (Ok (path_join dir (config_file i)) : result (failure string) string).
  cbn [mbind result_bind]. rewrite Hcfg. cbn [map_err mbind result_bind]. rewrite node_config_read by done.
  cbn [map_err mbind result_bind nc_key_file nc_listen_addr].
  rewrite resolve_sibling by (try done; apply config_file_plain || apply node_file_plain).
  rewrite Hkey. cbn [map_err mbind result_bind]. rewrite (participant_roundtrip p bs Hbs). cbn [map_err mbind result_bind].
  rewrite Hb. eexists. split; [done|]. split_and!; try done. cbn [nc_group_key_file].
  apply resolve_sibling; [done|apply config_file_plain|done].
Qed.

End Ceremony.

(** ** A concrete ceremony *)

Definition toy_id32 (k : u16) : array 32 := to_array 32 (be_bytes 2 (uval k)).
Lemma toy_id32_inj j k : uval j <> 0 -> toy_id32 j = toy_id32 k -> j = k.
Proof.
  intros _ Heq. apply (f_equal (fun a => take 2 (arr a))) in Heq.
  assert (Hk : forall i, take 2 (arr (toy_id32 i)) = be_bytes 2 (uval i)).
  { intros i. change (arr (toy_id32 i)) with (take 32 (be_bytes 2 (uval i) ++ replicate 32 (byte 0))).
    rewrite take_take. change (2 `min` 32)%nat with 2%nat. apply take_app_length'. symmetry. apply length_be_bytes. }
  rewrite !Hk in Heq. apply uint_eq, (be_bytes_inj 2); [exact (uval_range j)|exact (uval_range k)|done].
Qed.
Definition toy_dkg32 : FrostDkg (Fr:=toy_frost32) := toy_dkg_on (array 32) toy_id32 toy_id32_inj.
Definition toy_pretty : SerdePretty toy_text.
Proof. refine {| json_pretty := json_print (SerdeText:=toy_text) |}. apply toy_text_laws. Defined.

