(* ===== verification/Http.v ===== *)
(** * HTTP of the coordinator

    Models [read_http_body] and [send_json_response] of
    [node/src/bin/coordinator.rs], with what they use of [std::str]:
    [from_utf8], [find], [lines], [to_lowercase], [split], [trim] and [parse].

    A connection is the list of what the peer sends, one element per arrival: a
    piece of data or an error; after the last one the peer has closed. A read
    returns the next piece, up to the size of the buffer. Both read loops are
    bounded: the first by the size of its buffer, the second by the data that
    arrives; [read_http_body_total] shows that the bounds are never reached. *)

From Stdlib Require Import Ascii.
From S2P Require Import Prelude Json Os.

(** ** Streams *)

Definition stream : Type := list (result string bytes).

Definition stream_read (cap : nat) (s : stream) : stream * result string bytes :=
  match s with
  | [] => ([], Ok [])
  | Err e :: s' => (s', Err e)
  | Ok b :: s' => if (length b <=? cap)%nat then (s', Ok b) else (Ok (drop cap b) :: s', Ok (take cap b))
  end.

(** ** [std::str] *)

Definition u8_in (lo hi : Z) (b : u8) : bool := (lo <=? uval b) && (uval b <=? hi).
Definition cont (b : u8) : bool := u8_in 128 191 b.
(** Well-formed UTF-8 (Unicode, table 3-7). *)
Fixpoint utf8_valid (l : bytes) : bool :=
  match l with
  | [] => true
  | a :: l1 =>
      if u8_in 0 127 a then utf8_valid l1
      else if u8_in 194 223 a then match l1 with b :: l2 => cont b && utf8_valid l2 | _ => false end
      else match l1 with
           | b :: c :: l3 =>
               if u8_in 224 239 a then
                 (if uval a =? 224 then u8_in 160 191 b else if uval a =? 237 then u8_in 128 159 b else cont b)
                 && cont c && utf8_valid l3
               else match l3 with
                    | d :: l4 =>
                        u8_in 240 244 a
                        && (if uval a =? 240 then u8_in 144 191 b else if uval a =? 244 then u8_in 128 143 b else cont b)
                        && cont c && cont d && utf8_valid l4
                    | [] => false
                    end
           | _ => false
           end
  end.

(** [data.find(pattern)]: the first position. *)
Fixpoint find_sub {A} `{EqDecision A} (pat l : list A) : option nat :=
  if bool_decide (take (length pat) l = pat) then Some 0%nat
  else match l with [] => None | _ :: l' => S <$> find_sub pat l' end.

Definition lower (c : ascii) : ascii :=
  let n := N_of_ascii c in if ((65 <=? n) && (n <=? 90))%N then ascii_of_N (n + 32) else c.
(** [l.to_lowercase().starts_with(p)] for a lower-case ASCII text without k and i. *)
Definition starts_with_lower (p : string) (l : string) : bool :=
  bool_decide (take (length (chars p)) (lower <$> chars l) = chars p).

(** ** read_http_body *)

Definition BUF_LEN : nat := Z.to_nat 8192.
Definition CHUNK_LEN : nat := Z.to_nat 4096.
Definition header_end : bytes := string_bytes (of_chars [carriage_return; newline; carriage_return; newline]).

(** The first loop: headers, start of the body and what has been read. The
    position of the separator is searched in the text read so far, which is
    empty while it is not UTF-8. *)
Fixpoint read_head (fuel : nat) (buf : bytes) (s : stream) : option (stream * result string (string * nat * bytes)) :=
  match fuel with
  | O => None
  | S fuel' =>
      match stream_read (BUF_LEN - length buf) s with
      | (s', Err e) => Some (s', Err e)
      | (s', Ok []) => Some (s', Ok ("", 0%nat, buf))
      | (s', Ok d) =>
          let buf := buf ++ d in
          let data := if utf8_valid buf then buf else [] in
          match find_sub header_end data with
          | Some pos => Some (s', Ok (bytes_string (take pos data), (pos + 4)%nat, buf))
          | None => if (BUF_LEN <=? length buf)%nat then Some (s', Err "request too large")
                    else read_head fuel' buf s'
          end
      end
  end.

Definition content_length (headers : string) : usize :=
  default (u_of_Z 64 0) (
    l ← head (filter (fun l => starts_with_lower "content-length:" l = true) (lines headers));
    v ← split_on ":"%char (chars l) [] !! 1%nat;
    parse_usize (trim (of_chars v))).

Fixpoint read_body (fuel : nat) (content_length : usize) (body : bytes) (s : stream)
    : option (stream * result string bytes) :=
  if Z.of_nat (length body) <? uval content_length then
    match fuel with
    | O => None
    | S fuel' =>
        match stream_read CHUNK_LEN s with
        | (s', Err e) => Some (s', Err e)
        | (s', Ok []) => Some (s', Ok body)
        | (s', Ok d) => read_body fuel' content_length (body ++ d) s'
        end
    end
  else Some (s, Ok body).

(** More than the number of reads until the end of the stream. *)
Definition stream_size (s : stream) : nat :=
  foldr (fun x acc => match x with Ok b => S (length b) | Err _ => 1 end + acc)%nat 0%nat s.

Definition read_http_body (s : stream) : option (stream * result string bytes) :=
  match read_head (S BUF_LEN) [] s with
  | None => None
  | Some (s', Err e) => Some (s', Err e)
  | Some (s', Ok (headers, body_start, buf)) =>
      read_body (S (stream_size s')) (content_length headers) (drop body_start buf) s'
  end.

(** ** send_json_response *)

Definition crlf : string := of_chars [carriage_return; newline].
Definition response_headers (status : Z) (body : bytes) : string :=
  let phrase := if status =? 200 then "OK" else "Internal Server Error" in
  "HTTP/1.1 " +:+ pretty status +:+ " " +:+ phrase +:+ crlf +:+ "Content-Type: application/json" +:+ crlf +:+
  "Content-Length: " +:+ pretty (length body) +:+ crlf +:+ "Connection: close".
Definition response_head (status : Z) (body : bytes) : string := response_headers status body +:+ crlf +:+ crlf.
(** What is written; a failed write is ignored. *)
Definition send_json_response (status : Z) (body : bytes) : bytes := string_bytes (response_head status body) ++ body.

(** ** Searching *)

Lemma find_sub_bound {A} `{EqDecision A} (pat l : list A) p :
  find_sub pat l = Some p -> (p + length pat <= length l)%nat /\ take (length pat) (drop p l) = pat.
Proof.
  revert p. induction l as [|x l IH]; intros p; cbn [find_sub]; case_bool_decide as Hm.
  - intros [= <-]. split; [|done]. rewrite <- Hm, length_take. lia.
  - done.
  - intros [= <-]. split; [|done]. rewrite <- Hm, length_take. lia.
  - intros (q & [Hq Hd]%IH & ->)%fmap_Some. cbn [length]. split; [lia|done].
Qed.

Lemma find_sub_app {A} `{EqDecision A} (pat l k : list A) p :
  find_sub pat l = Some p -> find_sub pat (l ++ k) = Some p.
Proof.
  revert p. induction l as [|x l IH]; intros p Hp; pose proof (find_sub_bound _ _ _ Hp) as [Hb _]; cbn [find_sub] in *.
  - case_bool_decide as Hm; [|done]. injection Hp as <-. cbn in Hb. destruct pat as [|y pat]; [|cbn in Hb; lia].
    cbn [app]. destruct k; cbn; by rewrite bool_decide_eq_true_2.
  - cbn [app find_sub]. rewrite app_comm_cons, take_app_le by lia. case_bool_decide; [done|].
    apply fmap_Some in Hp as (q & Hq & ->). by rewrite (IH q).
Qed.

Lemma find_sub_prefix_None {A} `{EqDecision A} (pat l k : list A) p :
  find_sub pat (l ++ k) = Some p -> (length l < p + length pat)%nat -> find_sub pat l = None.
Proof.
  intros Hp Hlt. destruct (find_sub pat l) as [q|] eqn:Hq; [|done]. pose proof (find_sub_bound _ _ _ Hq) as [Hb _].
  apply (find_sub_app _ _ k) in Hq. rewrite Hp in Hq. injection Hq as ->. lia.
Qed.

(** ** ASCII *)

Definition ascii_only (l : bytes) : bool := forallb (u8_in 0 127) l.
Lemma ascii_utf8 l : ascii_only l = true -> utf8_valid l = true.
Proof. induction l as [|b l IH]; [done|]. cbn [ascii_only forallb utf8_valid]. intros [-> Hl]%andb_prop. by apply IH. Qed.
Lemma ascii_only_app l k : ascii_only (l ++ k) = true <-> ascii_only l = true /\ ascii_only k = true.
Proof. unfold ascii_only. rewrite forallb_app. apply andb_true_iff. Qed.

(** ** Streams of data *)

(** The peer sends data and closes. *)
Definition only_data (s : stream) : Prop := Forall (fun x => exists b, x = Ok b /\ b <> []) s.
Fixpoint stream_data (s : stream) : bytes :=
  match s with [] => [] | Ok b :: s' => b ++ stream_data s' | Err _ :: s' => stream_data s' end.

Lemma stream_size_cons b s : stream_size (Ok b :: s) = (S (length b) + stream_size s)%nat.
Proof. done. Qed.

Lemma stream_read_data cap s : only_data s -> (0 < cap)%nat -> s <> [] ->
  exists d s', stream_read cap s = (s', Ok d) /\ d <> [] /\ (length d <= cap)%nat /\ only_data s' /\
    stream_data s = d ++ stream_data s' /\ (stream_size s' < stream_size s)%nat.
Proof.
  intros Hs Hc Hne. destruct s as [|x s]; [done|]. apply Forall_cons in Hs as [(b & -> & Hb) Hs]. cbn [stream_read stream_data].
  destruct (Nat.leb_spec (length b) cap) as [Hle|Hgt].
  - exists b, s. split_and!; try done. rewrite stream_size_cons. lia.
  - exists (take cap b), (Ok (drop cap b) :: s). split_and!; try done.
    + intros E%(f_equal length). rewrite length_take, length_nil in E. lia.
    + rewrite length_take. lia.
    + constructor; [|done]. eexists. split; [done|]. intros E%(f_equal length). rewrite length_drop, length_nil in E. lia.
    + cbn [stream_data]. by rewrite (assoc_L (++)), take_drop.
    + rewrite !stream_size_cons, length_drop. lia.
Qed.
Lemma stream_data_nil s : only_data s -> stream_data s = [] -> s = [].
Proof. intros Hs. destruct s as [|x s]; [done|]. apply Forall_cons in Hs as [(b & -> & Hb) _]. cbn. by intros [-> _]%app_nil. Qed.

(** ** Both loops end *)

Lemma stream_read_shrinks cap s s' d : (0 < cap)%nat -> stream_read cap s = (s', Ok d) -> d <> [] ->
  (length d <= cap)%nat /\ (stream_size s' < stream_size s)%nat.
Proof.
  intros Hc. destruct s as [|[b|e] s]; cbn [stream_read]; [by intros [= <- <-]| |done].
  destruct (Nat.leb_spec (length b) cap); intros [= <- <-] Hd; rewrite ?stream_size_cons; [lia|].
  rewrite length_take, length_drop. lia.
Qed.

Lemma read_head_total fuel buf s : (length buf < BUF_LEN)%nat -> (BUF_LEN - length buf < fuel)%nat ->
  exists r, read_head fuel buf s = Some r.
Proof.
  revert buf s. induction fuel as [|fuel IH]; intros buf s Hb Hf; [lia|]. cbn [read_head].
  destruct (stream_read _ s) as [s' [d|e]] eqn:Hr; [|by eexists]. destruct d as [|x d]; [by eexists|].
  apply stream_read_shrinks in Hr as [Hd _]; [|lia|done]. destruct (find_sub _ _); [by eexists|].
  destruct (Nat.leb_spec BUF_LEN (length (buf ++ x :: d))) as [|Hlt]; [by eexists|]. apply IH; [done|].
  rewrite length_app in *. cbn [length] in *. lia.
Qed.

Lemma read_body_total fuel n body s : (stream_size s < fuel)%nat -> exists r, read_body fuel n body s = Some r.
Proof.
  revert body s. induction fuel as [|fuel IH]; intros body s Hf; [lia|]. cbn [read_body].
  destruct (_ <? _); [|by eexists]. destruct (stream_read _ s) as [s' [d|e]] eqn:Hr; [|by eexists].
  destruct d as [|x d]; [by eexists|].
  apply stream_read_shrinks in Hr as [_ Hs]; [|unfold CHUNK_LEN; lia|done]. apply IH. lia.
Qed.

(** Whatever the peer sends, reading a request ends. *)
Lemma read_http_body_total s : exists r, read_http_body s = Some r.
Proof.
  unfold read_http_body. destruct (read_head_total (S BUF_LEN) [] s) as [[s' [[[h k] buf]|e]] ->].
  - unfold BUF_LEN. cbn [length]. lia.
  - cbn [length]. lia.
  - apply read_body_total. lia.
  - by eexists.
Qed.

(** ** Requests in pieces *)

Section Request.
Context (head_text : string) (body : bytes).
Local Notation head := (string_bytes head_text).
Local Notation request := (head ++ header_end ++ body).
Hypothesis Hascii : ascii_only request = true.
Hypothesis Hfind : find_sub header_end (head ++ header_end) = Some (length head).
Hypothesis Hfit : (length head + 4 <= BUF_LEN)%nat.

Lemma read_head_request fuel buf s :
  only_data s -> buf ++ stream_data s = request -> (length buf < length head + 4)%nat ->
  (BUF_LEN - length buf < fuel)%nat ->
  exists s' rest, read_head fuel buf s = Some (s', Ok (head_text, (length head + 4)%nat, head ++ header_end ++ rest)) /\
    only_data s' /\ rest ++ stream_data s' = body.
Proof using Hascii Hfind Hfit.
  revert buf s. induction fuel as [|fuel IH]; intros buf s Hs Hdata Hlen Hf; [lia|]. cbn [read_head].
  assert (Hne : s <> []).
  { intros ->. cbn [stream_data] in Hdata. rewrite app_nil_r in Hdata. subst buf. rewrite !length_app in Hlen.
    change (length header_end) with 4%nat in Hlen. lia. }
  destruct (stream_read_data (BUF_LEN - length buf) s) as (d & s' & -> & Hd & Hdl & Hs' & Hsd & _); [done|lia|done|].
  destruct d as [|x d]; [done|]. rewrite Hsd, (assoc_L (++)) in Hdata. set (buf' := buf ++ x :: d) in *.
  assert (Hu : utf8_valid buf' = true).
  { apply ascii_utf8. rewrite <- Hdata in Hascii. by apply ascii_only_app in Hascii as [? _]. }
  rewrite Hu. destruct (decide (length head + 4 <= length buf')%nat) as [Hge|Hlt].
  - assert (Hbuf : exists rest, buf' = head ++ header_end ++ rest /\ rest ++ stream_data s' = body).
    { exists (drop (length head + 4) buf'). rewrite (assoc_L (++)) in Hdata. rewrite (assoc_L (++)).
      assert (Hl : length (head ++ header_end) = (length head + 4)%nat) by (rewrite length_app; done).
      assert (Ht : take (length head + 4) buf' = head ++ header_end).
      { apply (f_equal (take (length head + 4))) in Hdata. rewrite take_app_le in Hdata by done. by rewrite Hdata, <- Hl, take_app_length. }
      split; [by rewrite <- Ht, take_drop|]. apply (f_equal (drop (length head + 4))) in Hdata.
      rewrite drop_app_le in Hdata by done. by rewrite Hdata, <- Hl, drop_app_length. }
    destruct Hbuf as (rest & -> & Hrest). rewrite (assoc_L (++)), (find_sub_app _ _ _ _ Hfind). exists s', rest.
    rewrite <- (assoc_L (++)), take_app_length, bytes_string_bytes. done.
  - assert (find_sub header_end buf' = None) as ->.
    { apply (find_sub_prefix_None _ _ (stream_data s') (length head)); [|change (length header_end) with 4%nat; lia].
      rewrite Hdata, (assoc_L (++)). by apply find_sub_app. }
    destruct (Nat.leb_spec BUF_LEN (length buf')); [lia|]. apply IH; [done|done|lia|].
    unfold buf' in *. rewrite length_app in *. cbn [length] in *. lia.
Qed.

End Request.

Lemma read_body_request body fuel n acc s : uval n = Z.of_nat (length body) ->
  only_data s -> acc ++ stream_data s = body -> (stream_size s < fuel)%nat ->
  exists s', read_body fuel n acc s = Some (s', Ok body).
Proof.
  intros Hn. revert acc s. induction fuel as [|fuel IH]; intros acc s Hs Hdata Hf; [lia|]. cbn [read_body].
  destruct (Z.ltb_spec (Z.of_nat (length acc)) (uval n)) as [Hlt|Hge].
  - assert (Hne : s <> []). { intros ->. cbn in Hdata. rewrite app_nil_r in Hdata. subst acc. lia. }
    destruct (stream_read_data CHUNK_LEN s) as (d & s' & -> & Hd & _ & Hs' & Hsd & Hsz); [done|unfold CHUNK_LEN; lia|done|].
    destruct d as [|x d]; [done|]. apply IH; [done| |lia]. by rewrite <- (assoc_L (++)), <- Hsd.
  - exists s. assert (stream_data s = []) as E.
    { apply nil_length_inv. apply (f_equal length) in Hdata. rewrite length_app in Hdata. lia. }
    by rewrite E, app_nil_r in Hdata; subst acc.
Qed.
(** A request in ASCII whose headers fit the buffer and announce the length of
    its body is read back exactly, in whatever pieces it arrives. *)
Lemma http_body_in_pieces head_text body s :
  let head := string_bytes head_text in
  ascii_only (head ++ header_end ++ body) = true ->
  find_sub header_end (head ++ header_end) = Some (length head) -> (length head + 4 <= BUF_LEN)%nat ->
  uval (content_length head_text) = Z.of_nat (length body) ->
  only_data s -> stream_data s = head ++ header_end ++ body ->
  exists s', read_http_body s = Some (s', Ok body).
Proof.
  intros head Ha Hf Hfit Hc Hs Hd. unfold read_http_body.
  destruct (read_head_request head_text body Ha Hf Hfit (S BUF_LEN) [] s) as (s' & rest & -> & Hs' & Hrest);
    [done|done|cbn [length]; lia..|].
  assert (drop (length (string_bytes head_text) + 4) (string_bytes head_text ++ header_end ++ rest) = rest) as ->.
  { rewrite (assoc_L (++)). apply drop_app_length'. by rewrite length_app. }
  apply read_body_request; [done|done|done|lia].
Qed.

(** ** The response is a message of the same form *)

Lemma split_lines_crlf l rest : newline ∉ l ->
  split_lines (l ++ carriage_return :: newline :: rest) [] = l :: split_lines rest [].
Proof.
  intros Hl. assert (H : forall cur, split_lines (l ++ carriage_return :: newline :: rest) cur = (cur ++ l) :: split_lines rest []).
  { induction l as [|c l IH]; intros cur; cbn [app split_lines].
    - rewrite bool_decide_eq_false_2 by done. rewrite bool_decide_eq_true_2 by done. f_equal. unfold strip_cr.
      rewrite last_snoc, bool_decide_eq_true_2, app_nil_r, length_app by done. cbn [length]. rewrite Nat.add_sub. apply take_app_length.
    - apply not_elem_of_cons in Hl as [Hc Hl]. rewrite bool_decide_eq_false_2 by done. rewrite (IH Hl). by rewrite <- (assoc_L (++)). }
  apply H.
Qed.

Lemma digit_cases c : is_digit c = true -> c ∈ chars "0123456789".
Proof. destruct c as [[] [] [] [] [] [] [] []]; try done; intros _; by apply (bool_decide_unpack _). Qed.

Lemma digit_not_space ws c l :
  forallb (fun d => forallb (fun w => match w with [] => false | e :: _ => negb (bool_decide (e = d)) end) ws)
    (chars "0123456789") = true ->
  is_digit c = true -> strip_one ws (c :: l) = None.
Proof.
  intros Hall Hc%digit_cases. apply strip_one_none. rewrite forallb_forall in Hall. apply Hall. by apply list_elem_of_In.
Qed.

Lemma trim_loop_step fuel ws l l' : strip_one ws l = Some l' -> trim_loop (S fuel) ws l = trim_loop fuel ws l'.
Proof. intros H. cbn [trim_loop]. by rewrite H. Qed.

Lemma trim_number (n : nat) : trim (" " +:+ pretty n) = pretty n.
Proof.
  destruct (pretty_N_spec (N.of_nat n)) as (Hd & Hne & _). change (pretty (N.of_nat n)) with (pretty n) in *.
  unfold trim. change (chars (" " +:+ pretty n)) with (" "%char :: chars (pretty n)).
  assert (Hstop : forall ws l, l <> [] -> forallb is_digit l = true ->
    forallb (fun d => forallb (fun w => match w with [] => false | e :: _ => negb (bool_decide (e = d)) end) ws)
      (chars "0123456789") = true -> strip_one ws l = None).
  { intros ws [|c l] Hl Hdig Hws; [done|]. cbn [forallb] in Hdig. apply andb_prop in Hdig as [Hc _]. by apply digit_not_space. }
  change (String.length (" " +:+ pretty n)) with (S (String.length (pretty n))).
  rewrite (trim_loop_step _ white_space _ (chars (pretty n))) by reflexivity.
  rewrite (trim_loop_stop _ white_space) by (by apply Hstop).
  assert (Hrev : strip_one (reverse <$> white_space) (reverse (chars (pretty n))) = None).
  { apply Hstop; [|rewrite forallb_forall in Hd |- *|done].
    - intros E%(f_equal reverse). rewrite reverse_involutive in E. by rewrite E in Hne.
    - intros c Hc%list_elem_of_In. apply Hd, list_elem_of_In. by rewrite elem_of_reverse in Hc. }
  rewrite trim_loop_stop, reverse_involutive by done. apply of_chars_chars.
Qed.

Lemma number_no_newline (n : nat) c : is_digit c = false -> c ∉ chars (pretty n).
Proof.
  destruct (pretty_N_spec (N.of_nat n)) as (Hd & _). change (pretty (N.of_nat n)) with (pretty n) in Hd.
  intros Hc Hin. rewrite forallb_forall in Hd. specialize (Hd c (proj1 (list_elem_of_In _ _) Hin)). congruence.
Qed.

Lemma content_length_line (n : nat) pre post text :
  Z.of_nat n < 2 ^ 64 -> Forall (fun l => starts_with_lower "content-length:" l = false) pre ->
  lines text = pre ++ ("Content-Length: " +:+ pretty n) :: post ->
  content_length text = u_of_Z 64 (Z.of_nat n).
Proof.
  intros Hn Hpre Ht. unfold content_length. rewrite Ht, filter_app.
  assert (filter (fun l => starts_with_lower "content-length:" l = true) pre = []) as ->.
  { apply elem_of_nil_inv. intros l [Hl Hin]%list_elem_of_filter. rewrite Forall_forall in Hpre. rewrite Hpre in Hl; done. }
  cbn [app]. rewrite filter_cons, decide_True.
  2: { unfold starts_with_lower. rewrite chars_app, fmap_app. apply bool_decide_eq_true_2. reflexivity. }
  cbn [head mbind option_bind]. rewrite chars_app.
  change (chars "Content-Length: ") with (chars "Content-Length" ++ ":"%char :: [" "%char]).
  rewrite <- (assoc_L (++)), <- app_comm_cons, split_on_app.
  rewrite (split_on_none _ (chars "Content-Length")) by (by apply (bool_decide_unpack _)).
  rewrite split_on_none.
  2: { apply not_elem_of_app. split; [by apply (bool_decide_unpack _)|by apply number_no_newline]. }
  change (([reverse [] ++ chars "Content-Length"] ++ [reverse [] ++ [" "%char] ++ chars (pretty n)]) !! 1%nat)
    with (Some (chars (" " +:+ pretty n))).
  cbn [mbind option_bind]. rewrite of_chars_chars, trim_number, parse_usize_pretty by done. done.
Qed.

Lemma lines_crlf l rest : newline ∉ chars l -> lines (l +:+ crlf +:+ rest) = l :: lines rest.
Proof.
  intros Hl. unfold lines. rewrite !chars_app. change (chars crlf) with [carriage_return; newline]. cbn [app].
  rewrite split_lines_crlf by done. cbn [fmap list_fmap]. by rewrite of_chars_chars.
Qed.

Definition CR : u8 := u8_of_ascii carriage_return.
Definition LF : u8 := u8_of_ascii newline.

Lemma find_skip l r : CR ∉ l -> find_sub header_end (l ++ r) = Nat.add (length l) <$> find_sub header_end r.
Proof.
  intros Hl. induction l as [|c l IH]; [cbn; by destruct (find_sub _ _)|].
  apply not_elem_of_cons in Hl as [Hc Hl]. cbn [app find_sub].
  rewrite bool_decide_eq_false_2, (IH Hl); [by destruct (find_sub _ r)|]. intros [=]. done.
Qed.
Lemma find_line l c r : CR ∉ l -> c <> CR ->
  find_sub header_end (l ++ CR :: LF :: c :: r) = Nat.add (length l + 2) <$> find_sub header_end (c :: r).
Proof.
  intros Hl Hc. rewrite find_skip by done.
  assert (E : find_sub header_end (CR :: LF :: c :: r) = Nat.add 2 <$> find_sub header_end (c :: r)).
  { cbn [find_sub]. rewrite bool_decide_eq_false_2 by (by intros [= ?]). rewrite bool_decide_eq_false_2 by done.
    by destruct (if bool_decide _ then _ else _). }
  rewrite E. destruct (find_sub header_end (c :: r)) as [k|]; [|done]. apply (f_equal Some). lia.
Qed.
Lemma find_last l : CR ∉ l -> find_sub header_end (l ++ header_end) = Some (length l).
Proof. intros Hl. rewrite find_skip by done. apply (f_equal Some), Nat.add_0_r. Qed.

Lemma string_bytes_app s t : string_bytes (s +:+ t) = string_bytes s ++ string_bytes t.
Proof. unfold string_bytes. change (String.list_ascii_of_string (s +:+ t)) with (chars (s +:+ t)). by rewrite chars_app, fmap_app. Qed.

(** The status lines the coordinator sends. *)
Definition status_line (status : Z) : string :=
  "HTTP/1.1 " +:+ pretty status +:+ " " +:+ (if status =? 200 then "OK" else "Internal Server Error").

Lemma response_lines status body : status ∈ [200; 400; 500] ->
  response_headers status body
  = status_line status +:+ crlf +:+ "Content-Type: application/json" +:+ crlf +:+
    ("Content-Length: " +:+ pretty (length body)) +:+ crlf +:+ "Connection: close".
Proof. intros Hs. rewrite !elem_of_cons, elem_of_nil in Hs. by destruct Hs as [->|[->|[->|[]]]]. Qed.

Lemma status_line_plain status : status ∈ [200; 400; 500] ->
  (newline ∉ chars (status_line status)) /\ (CR ∉ string_bytes (status_line status)) /\
  starts_with_lower "content-length:" (status_line status) = false /\ ascii_only (string_bytes (status_line status)) = true.
Proof.
  intros Hs. rewrite !elem_of_cons, elem_of_nil in Hs.
  destruct Hs as [->|[->|[->|[]]]]; (split_and!; [by apply (bool_decide_unpack _)..|reflexivity|reflexivity]).
Qed.

Lemma response_content_length status body : status ∈ [200; 400; 500] -> Z.of_nat (length body) < 2 ^ 64 ->
  content_length (response_headers status body) = u_of_Z 64 (Z.of_nat (length body)).
Proof.
  intros Hs Hb. destruct (status_line_plain _ Hs) as (Hnl & _ & Hcl & _). rewrite response_lines by done.
  apply (content_length_line _ [status_line status; "Content-Type: application/json"] ["Connection: close"]); [done| |].
  - by repeat constructor.
  - rewrite lines_crlf by done. rewrite lines_crlf by (by apply (bool_decide_unpack _)). cbn [app]. do 2 f_equal.
    apply lines_crlf. rewrite chars_app. apply not_elem_of_app.
    split; [by apply (bool_decide_unpack _)|by apply number_no_newline].
Qed.

Lemma number_bytes (n : nat) : (CR ∉ string_bytes (pretty n)) /\ ascii_only (string_bytes (pretty n)) = true.
Proof.
  destruct (pretty_N_spec (N.of_nat n)) as (Hd & _). change (pretty (N.of_nat n)) with (pretty n) in Hd.
  unfold string_bytes. change (String.list_ascii_of_string (pretty n)) with (chars (pretty n)). split.
  - intros (c & Hc & Hin)%list_elem_of_fmap. apply u8_of_ascii_inj in Hc as <-. by apply number_no_newline in Hin.
  - unfold ascii_only. rewrite forallb_forall in Hd |- *. intros b (c & -> & Hin)%list_elem_of_In%list_elem_of_fmap.
    specialize (Hd c (proj1 (list_elem_of_In _ _) Hin)). apply digit_cases in Hd.
    assert (Hall : Forall (fun c => u8_in 0 127 (u8_of_ascii c) = true) (chars "0123456789")) by (by repeat constructor).
    rewrite Forall_forall in Hall. by apply Hall.
Qed.

Lemma find_line_string l r c : CR ∉ string_bytes l -> head (string_bytes r) = Some c -> c <> CR ->
  find_sub header_end (string_bytes (l +:+ crlf +:+ r) ++ header_end)
  = Nat.add (length (string_bytes l) + 2) <$> find_sub header_end (string_bytes r ++ header_end).
Proof.
  intros Hl Hr Hc. rewrite !string_bytes_app, <- !(assoc_L (++)). change (string_bytes crlf) with [CR; LF].
  destruct (string_bytes r) as [|c' r']; [done|]. injection Hr as ->. cbn [app]. by apply find_line.
Qed.
Lemma length_line l r :
  length (string_bytes (l +:+ crlf +:+ r)) = (length (string_bytes l) + 2 + length (string_bytes r))%nat.
Proof. rewrite !string_bytes_app, !length_app. change (length (string_bytes crlf)) with 2%nat. lia. Qed.

Lemma response_find status body : status ∈ [200; 400; 500] ->
  find_sub header_end (string_bytes (response_headers status body) ++ header_end)
  = Some (length (string_bytes (response_headers status body))).
Proof.
  intros Hs. destruct (status_line_plain _ Hs) as (_ & Hcr & _). destruct (number_bytes (length body)) as [Hnum _].
  rewrite response_lines by done. rewrite !length_line.
  rewrite (find_line_string _ _ (u8_of_ascii "C"%char)) by done.
  rewrite (find_line_string _ _ (u8_of_ascii "C"%char)) by (first [done | by apply (bool_decide_unpack _)]).
  rewrite (find_line_string _ _ (u8_of_ascii "C"%char)); [|rewrite string_bytes_app; apply not_elem_of_app; split; [by apply (bool_decide_unpack _)|done]|done|done].
  rewrite find_last by (by apply (bool_decide_unpack _)). apply (f_equal Some). lia.
Qed.

Lemma response_headers_fit status body : status ∈ [200; 400; 500] -> Z.of_nat (length body) < 2 ^ 64 ->
  (length (string_bytes (response_headers status body)) + 4 <= BUF_LEN)%nat.
Proof.
  intros Hs Hb. rewrite response_lines by done. rewrite !length_line, string_bytes_app, length_app.
  assert (Hn : (length (string_bytes (pretty (length body))) <= 20)%nat).
  { unfold string_bytes. rewrite length_fmap. apply (pretty_N_length (N.of_nat (length body)) 19). lia. }
  assert (Hst : (length (string_bytes (status_line status)) <= 40)%nat).
  { rewrite !elem_of_cons, elem_of_nil in Hs. destruct Hs as [->|[->|[->|[]]]]; apply Nat.leb_le; reflexivity. }
  change (length (string_bytes "Content-Type: application/json")) with 30%nat.
  change (length (string_bytes "Content-Length: ")) with 16%nat. change (length (string_bytes "Connection: close")) with 17%nat.
  unfold BUF_LEN. lia.
Qed.

(** A client that reads the response as the coordinator reads a request gets the
    body, in whatever pieces it arrives. *)
Lemma response_in_pieces status body s : status ∈ [200; 400; 500] ->
  ascii_only body = true -> Z.of_nat (length body) < 2 ^ 64 ->
  only_data s -> stream_data s = send_json_response status body ->
  exists s', read_http_body s = Some (s', Ok body).
Proof.
  intros Hs Hb Hl Hd Hdata. destruct (status_line_plain _ Hs) as (_ & _ & _ & Hst).
  destruct (number_bytes (length body)) as [_ Hnum].
  apply (http_body_in_pieces (response_headers status body)); [|by apply response_find| | |done|].
  - rewrite response_lines by done. rewrite !string_bytes_app, !ascii_only_app. done.
  - by apply response_headers_fit.
  - rewrite response_content_length by done. apply uval_of_Z_small. lia.
  - rewrite Hdata. unfold send_json_response, response_head. rewrite !string_bytes_app, <- !(assoc_L (++)). done.
Qed.

(** Requests and responses travel in whatever pieces the network makes of them:
    a request in ASCII whose headers fit the buffer and announce the length of
    its body is read back exactly, and so is every response the coordinator
    sends. *)
Theorem http_exchange_in_pieces head_text body status resp s s2 :
  let head := string_bytes head_text in
  ascii_only (head ++ header_end ++ body) = true ->
  find_sub header_end (head ++ header_end) = Some (length head) -> (length head + 4 <= BUF_LEN)%nat ->
  uval (content_length head_text) = Z.of_nat (length body) ->
  only_data s -> stream_data s = head ++ header_end ++ body ->
  status ∈ [200; 400; 500] -> ascii_only resp = true -> Z.of_nat (length resp) < 2 ^ 64 ->
  only_data s2 -> stream_data s2 = send_json_response status resp ->
  (exists s', read_http_body s = Some (s', Ok body)) /\ (exists s', read_http_body s2 = Some (s', Ok resp)).
Proof. intros head Ha Hf Hb Hc Hs Hd Hst Hr Hl Hs2 Hd2. split; [by eapply http_body_in_pieces|by eapply response_in_pieces]. Qed.

Lemma read_head_cut fuel b s : (BUF_LEN < length b)%nat -> utf8_valid (take BUF_LEN b) = false ->
  read_head (S fuel) [] (Ok b :: s) = Some (Ok (drop BUF_LEN b) :: s, Err "request too large").
Proof.
  intros Hb Hu. cbn [read_head stream_read]. rewrite length_nil, Nat.sub_0_r.
  destruct (Nat.leb_spec (length b) BUF_LEN); [lia|].
  assert (Hl : length (take BUF_LEN b) = BUF_LEN) by (rewrite length_take; lia).
  destruct (take BUF_LEN b) as [|x d] eqn:E; [rewrite length_nil in Hl; unfold BUF_LEN in Hl; lia|].
  cbn [app]. rewrite Hu. change (find_sub header_end []) with (@None nat). cbv iota. by rewrite Hl, Nat.leb_refl.
Qed.

(** When more than the buffer arrives at once and the end of the buffer cuts a
    character of several bytes, the request is rejected, however complete its
    headers are. *)
Lemma cut_character_rejected b s : (BUF_LEN < length b)%nat -> utf8_valid (take BUF_LEN b) = false ->
  exists s', read_http_body (Ok b :: s) = Some (s', Err "request too large").
Proof. intros. exists (Ok (drop BUF_LEN b) :: s). unfold read_http_body. by rewrite read_head_cut. Qed.

Definition demo_head : string := "POST /attest HTTP/1.1" +:+ crlf +:+ "content-length: 2".

Lemma http_exchange_in_pieces_witness :
  (exists s', read_http_body [Ok (string_bytes (demo_head +:+ of_chars [carriage_return])); Ok (drop 1 header_end); Ok [byte 123; byte 125]]
     = Some (s', Ok [byte 123; byte 125])) /\
  exists s', read_http_body [Ok (send_json_response 400 [byte 48])] = Some (s', Ok [byte 48]).
Proof.
  apply (http_exchange_in_pieces demo_head [byte 123; byte 125] 400 [byte 48]).
  - reflexivity.
  - vm_compute. reflexivity.
  - apply Nat.leb_le. vm_compute. reflexivity.
  - vm_compute. reflexivity.
  - by repeat (constructor; [eexists; split; [reflexivity|done]|]).
  - vm_compute. reflexivity.
  - apply (bool_decide_unpack _). vm_compute. exact I.
  - reflexivity.
  - reflexivity.
  - by repeat (constructor; [eexists; split; [reflexivity|done]|]).
  - cbn [stream_data]. apply app_nil_r.
Defined.
