(* ===== verification/CoordinatorMain.v ===== *)
(** * The coordinator process

    Models [node/src/bin/coordinator.rs]: the configuration, the start of the
    process (keys, transports, quorum, randomness engine) and the handling of
    one HTTP request, on top of [Http], [Coordinator] and [NodeTransport].

    Requests run in threads of their own over the shared store: their
    interleaving is the subject of [Requests], on top of the handling of one
    request here. Resolution of addresses and
    the listening socket are arguments; log output is left out. The feature
    [secp256k1] of the build is the argument [secp_feature]. *)

From Stdlib Require Import Ascii.
From S2P Require Import Prelude Core Session Storage Attestation Threshold Randomness Registry Dctls Network Errors.
From S2P Require Import Sha256Gadget HmacGadget CoSnark Frost FrostAux Dkg DkgNode DkgCeremony FrostKeys Secp Coordinator NodeTransport Json Os Http Ceremony.

(** [VerifyingKey::from_bytes] of ed25519-dalek. *)
Class Ed25519Bytes {Ed : Ed25519} := { ed_key_from_bytes : array 32 -> result string VerifyingKey }.

(** ** Requests *)

Definition dquote : string := of_chars [ascii_of_nat 34].
(** The text of the error responses; the message is inserted as it is. *)
Definition error_json (msg : string) : bytes :=
  string_bytes ("{" +:+ dquote +:+ "error" +:+ dquote +:+ ":" +:+ dquote +:+ msg +:+ dquote +:+ "}").

Section Handler.
Context {Hs : Sha256} {Ed : Ed25519} {R : RandomnessEngine} {Fr : FrostEd25519}.
Context `{St_ops : SessionStore St}.
Context {T NS : Type} {Tr : FrostNodeTransport T NS}.
Context {Jq : SerdeJson AttestationRequest} {Je : SerdeJson FrostAttestationEnvelope}.
#[local] Existing Instance PrototypeAttestationEngine.

(** The new state and what is written to the connection. *)
Definition handle_request (config : CoordinatorConfig) (fresh : Fresh) (transports : list T) (group_key : FrostGroupKey)
    (s : stream) (w : St * NS) : option ((St * NS) * bytes) :=
  match read_http_body s with
  | None => None
  | Some (_, Err e) => Some (w, send_json_response 500 (error_json ("read body: " +:+ e)))
  | Some (_, Ok body) =>
      match json_from_slice body with
      | Err e => Some (w, send_json_response 400 (error_json ("bad request: " +:+ e)))
      | Ok request =>
          let response_bytes := [] in
          match attest_frost_distributed_over_transport config fresh request response_bytes transports group_key w with
          | (w', Ok envelope) =>
              Some (w', match json_to_vec envelope with
                        | Ok json => send_json_response 200 json
                        | Err e => send_json_response 500 (error_json ("serialize: " +:+ e))
                        end)
          | (w', Err e) => Some (w', send_json_response 500 (error_json (NodeError_to_string e)))
          end
      end
  end.
End Handler.

(** *** Outcomes of a request *)

Section HandlerProps.
Context {Hs : Sha256} {Ed : Ed25519} {R : RandomnessEngine} {Fr : FrostEd25519}.
Context `{Spec : StoreSpec St}.
Context {T NS : Type} {Tr : FrostNodeTransport T NS}.
Context {Jq : SerdeJson AttestationRequest} {Je : SerdeJson FrostAttestationEnvelope}.
#[local] Existing Instance PrototypeAttestationEngine.

(** Every connection gets exactly one response, whatever arrives on it. Unless a
    request could be read, store and nodes are untouched and the status is 400
    or 500. For a request the store changes as one distributed FROST run
    changes it, and the status is 200 exactly when that run has succeeded with
    the envelope in the body: the session is finalized with the approvals of
    distinct, threshold many nodes, and the envelope carries a signature of the
    group that verifies and is bound to it. *)
Theorem coordinator_request_outcome config fresh (ts : list T) gk conn s ns m :
  store_rel s m ->
  exists s' ns' m' status body,
    handle_request config fresh ts gk conn (s, ns) = Some ((s', ns'), send_json_response status body) /\
    store_rel s' m' /\ status ∈ [200; 400; 500] /\
    ((s' = s /\ ns' = ns /\ m' = m /\ status <> 200) \/
     exists rest sent request r, read_http_body conn = Some (rest, Ok sent) /\ json_from_slice sent = Ok request /\
       frost_outcome config fresh request gk ((fun t => t_verifier_id t ns) <$> ts) m m' r /\
       (status = 200 -> exists e, r = Ok e /\ json_to_vec e = Ok body) /\
       (forall e, r = Ok e -> is_ok (json_to_vec e) = true -> status = 200)).
Proof.
  intros HR. unfold handle_request. destruct (read_http_body_total conn) as [[s1 [body|e]] Hread]; rewrite Hread.
  2: { eexists s, ns, m, 500, _. split_and!; [done|done|set_solver|]. by left. }
  destruct (json_from_slice body) as [request|e] eqn:Hreq.
  2: { eexists s, ns, m, 400, _. split_and!; [done|done|set_solver|]. by left. }
  destruct (attest_frost_distributed_over_transport _ _ _ _ _ _ _) as [[s' ns'] r] eqn:Hrun.
  destruct (attest_distributed_result _ _ _ _ _ _ _ _ _ _ _ _ _ _ HR Hrun) as (m' & HR' & Hout).
  destruct r as [e|e]; [destruct (json_to_vec e) as [json|err] eqn:Hj|].
  - eexists s', ns', m', 200, json. split_and!; [done|done|set_solver|]. right. exists s1, body, request, (Ok e).
    split_and!; [done..|eauto|done].
  - eexists s', ns', m', 500, _. split_and!; [done|done|set_solver|]. right. exists s1, body, request, (Ok e).
    split_and!; [done..|]. intros ? [= <-]. by rewrite Hj.
  - eexists s', ns', m', 500, _. split_and!; [done|done|set_solver|]. right. exists s1, body, request, (Err e). by split_and!.
Qed.
End HandlerProps.

(** ** Configuration *)

Record AuxNodeEntry := MkAuxNodeEntry { ae_verifier_id_hex : string; ae_addr : string }.
Record CoordConfig := MkCoordConfig {
  co_listen_addr : string;
  co_coordinator_id_hex : string;
  co_group_key_file : string;
  co_threshold : usize;
  co_aux_nodes : list AuxNodeEntry;
  co_db_path : string;
  co_dvrf_participant_files : list string
}.
Definition default_db : string := "coordinator.db".
Definition AuxNodeEntry_from_json (v : Json) : result string AuxNodeEntry :=
  ms ← struct_members ["verifier_id_hex"; "addr"] v;
  id ← required ms read_string "verifier_id_hex";
  addr ← required ms read_string "addr";
  Ok (MkAuxNodeEntry id addr).
Definition CoordConfig_from_json (v : Json) : result string CoordConfig :=
  ms ← struct_members ["listen_addr"; "coordinator_id_hex"; "group_key_file"; "threshold"; "aux_nodes"; "db_path";
                       "dvrf_participant_files"] v;
  listen ← required ms read_string "listen_addr";
  id ← required ms read_string "coordinator_id_hex";
  gk ← required ms read_string "group_key_file";
  t ← required ms read_usize "threshold";
  aux ← required ms (read_vec AuxNodeEntry_from_json) "aux_nodes";
  db ← defaulted default_db ms read_string "db_path";
  dvrf ← defaulted [] ms (read_vec read_string) "dvrf_participant_files";
  Ok (MkCoordConfig listen id gk t aux db dvrf).

(** ** Start *)

Section Start.
Context {Hs : Sha256} {Ed : Ed25519} {Eb : Ed25519Bytes} {Fr : FrostEd25519} {Ib : IdentifierBytes}.
Context {Sp : FrostSecp256k1}.
Context {Jg : SerdeJson GroupKeyExport} {Jsg : SerdeJson SpGroupExport} {Jsp : SerdeJson SpParticipantExport}.
Context {J : SerdeText} {Fs : FileSystem}.

(** A started coordinator. *)
Record CoordinatorProcess := MkCoordinatorProcess {
  cp_config : CoordinatorConfig;
  cp_engine : RandomnessEngine;
  cp_group_key : FrostGroupKey;
  cp_transports : list TcpNodeTransport;
  cp_addr : string
}.

Definition coordinator_usage : string := "Usage: coordinator --config CONFIG_FILE".
Definition coordinator_parse_args : list string -> result (failure string) string := config_parse_args coordinator_usage.

(** [hex::decode(..)] and [try_into::<[u8; 32]>()], with the two messages. *)
Definition id_of_hex (decode_msg size_msg : string) (s : string) : result (failure string) VerifierId :=
  bs ← map_err (fun e => Fails (decode_msg +:+ e)) (hex_decode s);
  a ← ok_or (Fails size_msg) (try_into 32 bs);
  Ok (from_bytes a).

Definition aux_transport (resolve_addr : string -> result string (list SocketAddr)) (entry : AuxNodeEntry)
    : result (failure string) TcpNodeTransport :=
  v ← id_of_hex "ERROR: verifier_id_hex: " "ERROR: verifier_id must be 32 bytes" (ae_verifier_id_hex entry);
  map_err (fun e => Fails ("ERROR: transport for " +:+ ae_addr entry +:+ ": " +:+ NetworkError_to_string e))
    (TcpNodeTransport_new v (resolve_addr (ae_addr entry))).

(** The keys of the verifiers: every verifier with the key of the group. *)
Definition aux_verifier_key (group_key : FrostGroupKey) (entry : AuxNodeEntry)
    : result (failure string) (VerifierId * VerifyingKey) :=
  v ← map_err (fun _ => Panics "called `Result::unwrap()` on an `Err` value")
        (id_of_hex "" "" (ae_verifier_id_hex entry));
  vk ← map_err (fun e => Fails ("ERROR: group verifying key: " +:+ e)) (ed_key_from_bytes (verifying_key_bytes group_key));
  Ok (v, vk).

(** Secrets of the prototype engine: the position of the verifier, big endian.
    The entries are collected into a map, later ones replacing earlier ones. *)
Definition prototype_secrets (verifier_ids : list VerifierId) : gmap VerifierId (array 32) :=
  foldl (fun m '(i, v) => <[v := to_array 32 (be_bytes 8 (Z.of_nat i))]> m) ∅ (enumerate verifier_ids).

Definition read_key_file (f : files) (path : string) : result CryptoError bytes :=
  map_err (fun e => InvalidKeyMaterial ("read " +:+ path +:+ ": " +:+ e)) (fs_read f path).

Definition select_engine (secp_feature : bool) (f : files) (config_path : string) (config : CoordConfig)
    (verifier_ids : list VerifierId) : result (failure string) RandomnessEngine :=
  if secp_feature && negb (bool_decide (co_dvrf_participant_files config = [])) then
    engine ← map_err (fun e => Fails ("ERROR: Secp256k1DvrfEngine init: " +:+ CryptoError_to_string e))
      (Secp256k1DvrfEngine_from_files (co_threshold config)
         ((fun p => read_key_file f (resolve config_path p)) <$> co_dvrf_participant_files config)
         (read_key_file f (resolve config_path (co_group_key_file config))));
    Ok (secp_engine engine)
  else Ok (PrototypeDvrf_engine (MkPrototypeDvrf (prototype_secrets verifier_ids))).

Definition coordinator_main (secp_feature : bool) (resolve_addr : string -> result string (list SocketAddr))
    (bind_tcp : string -> result string string) (args : list string) (f : files) : result (failure string) CoordinatorProcess :=
  config_path ← coordinator_parse_args args;
  config_bytes ← map_err (fun e => Fails ("ERROR: read config: " +:+ e)) (fs_read f config_path);
  config ← map_err (fun e => Fails ("ERROR: parse config: " +:+ e)) (json_slice CoordConfig_from_json config_bytes);
  let gk_path := resolve config_path (co_group_key_file config) in
  gk_bytes ← map_err (fun e => Fails ("ERROR: read group key " +:+ gk_path +:+ ": " +:+ e)) (fs_read f gk_path);
  group_key ← map_err (fun e => Fails ("ERROR: parse group key: " +:+ CryptoError_to_string e)) (group_key_from_json_bytes gk_bytes);
  coordinator_id ← id_of_hex "ERROR: coordinator_id_hex: " "ERROR: coordinator_id must be 32 bytes" (co_coordinator_id_hex config);
  transports ← try_map (aux_transport resolve_addr) (co_aux_nodes config);
  verifier_keys ← try_map (aux_verifier_key group_key) (co_aux_nodes config);
  let verifier_ids := tn_verifier_id <$> transports in
  let coord_config := {| cc_coordinator_id := coordinator_id; cc_epoch := MkEpoch (u_of_Z 64 1);
    cc_quorum := {| verifiers := verifier_ids; threshold := co_threshold config |};
    cc_default_ttl_secs := u_of_Z 64 3600; cc_verifier_public_keys := verifier_keys |} in
  engine ← select_engine secp_feature f config_path config verifier_ids;
  addr ← map_err (fun e => Fails ("ERROR: bind " +:+ co_listen_addr config +:+ ": " +:+ e)) (bind_tcp (co_listen_addr config));
  Ok (MkCoordinatorProcess coord_config engine group_key transports addr).

(** *** Start on the files of a ceremony *)

Lemma id_of_hex_encode m1 m2 v : id_of_hex m1 m2 (hex_encode (arr (as_bytes v))) = Ok v.
Proof. unfold id_of_hex. rewrite hex_decode_encode. cbn [map_err mbind result_bind]. rewrite try_into_arr. by destruct v. Qed.

Context {Dk : FrostDkg} {De : FrostDealer} {Jp : SerdeJson ParticipantExport}.
Context {Pp : SerdePretty J} {Di : Directories} {FL : FileSystemLaws Fs}.

(** The entry of node [i] of a ceremony at an address. *)
Definition entry_of (ia : nat * string) : AuxNodeEntry :=
  MkAuxNodeEntry (hex_encode (arr (as_bytes (ceremony_verifier_id ia.1)))) ia.2.

Lemma aux_transport_entry resolve_addr i a addr rest : resolve_addr a = Ok (addr :: rest) ->
  aux_transport resolve_addr (entry_of (i, a)) = Ok (MkTcpNodeTransport (ceremony_verifier_id i) addr 30).
Proof.
  intros Hr. unfold aux_transport, entry_of. cbn [ae_verifier_id_hex ae_addr fst snd]. rewrite id_of_hex_encode.
  cbn [mbind result_bind]. unfold TcpNodeTransport_new. by rewrite Hr.
Qed.
Lemma aux_verifier_key_entry gk vk i a : ed_key_from_bytes (verifying_key_bytes gk) = Ok vk ->
  aux_verifier_key gk (entry_of (i, a)) = Ok (ceremony_verifier_id i, vk).
Proof.
  intros Hvk. unfold aux_verifier_key, entry_of. cbn [ae_verifier_id_hex fst snd]. rewrite id_of_hex_encode.
  cbn [map_err mbind result_bind]. by rewrite Hvk.
Qed.

Lemma entries_start resolve_addr gk vk (picks : list (nat * string)) (addr_of : string -> SocketAddr) :
  ed_key_from_bytes (verifying_key_bytes gk) = Ok vk ->
  (forall i a, (i, a) ∈ picks -> exists rest, resolve_addr a = Ok (addr_of a :: rest)) ->
  try_map (aux_transport resolve_addr) (entry_of <$> picks)
    = Ok ((fun ia => MkTcpNodeTransport (ceremony_verifier_id ia.1) (addr_of ia.2) 30) <$> picks) /\
  try_map (aux_verifier_key gk) (entry_of <$> picks) = Ok ((fun ia => (ceremony_verifier_id ia.1, vk)) <$> picks).
Proof.
  intros Hvk Haddr. induction picks as [|[i a] picks IH]; [done|]. cbn [fmap list_fmap try_map fst snd].
  destruct IH as [IH1 IH2]; [intros; eapply Haddr; by apply elem_of_cons; right|].
  destruct (Haddr i a) as [rest Hr]; [by constructor|]. split.
  - rewrite (aux_transport_entry _ _ _ _ _ Hr). cbn [mbind result_bind]. by rewrite IH1.
  - rewrite (aux_verifier_key_entry _ _ _ _ Hvk). cbn [mbind result_bind]. by rewrite IH2.
Qed.

(** The coordinator of a group: its verifiers are the listed nodes. *)
Definition group_coordinator (c : CoordConfig) (cid : VerifierId) (gk : FrostGroupKey) (vk : VerifyingKey)
    (picks : list (nat * string)) (addr_of : string -> SocketAddr) (addr : string) : CoordinatorProcess :=
  let ids := (fun ia => ceremony_verifier_id ia.1) <$> picks in
  {| cp_config := {| cc_coordinator_id := cid; cc_epoch := MkEpoch (u_of_Z 64 1);
       cc_quorum := {| verifiers := ids; threshold := co_threshold c |};
       cc_default_ttl_secs := u_of_Z 64 3600; cc_verifier_public_keys := (fun v => (v, vk)) <$> ids |};
     cp_engine := PrototypeDvrf_engine (MkPrototypeDvrf (prototype_secrets ids)); cp_group_key := gk;
     cp_transports := (fun ia => MkTcpNodeTransport (ceremony_verifier_id ia.1) (addr_of ia.2) 30) <$> picks;
     cp_addr := addr |}.

(** A configuration in the directory of a completed ceremony that names its group
    key and lists nodes of the group. *)
Record group_config (dir nm : string) (f' f'' : files) (n : usize) (c : CoordConfig) (cid : VerifierId)
    (picks : list (nat * string)) : Prop := {
  gc_name : plain_name nm = true;
  gc_other : nm <> "group-key.json";
  gc_file : exists bs, fs_write f' (path_join dir nm) bs = Ok f'' /\ json_slice CoordConfig_from_json bs = Ok c;
  gc_group_key : co_group_key_file c = "group-key.json";
  gc_id : co_coordinator_id_hex c = hex_encode (arr (as_bytes cid));
  gc_nodes : co_aux_nodes c = entry_of <$> picks;
  gc_members : Forall (fun ia => (ia.1 < Z.to_nat (uval n))%nat) picks;
  gc_engine : co_dvrf_participant_files c = []
}.

Lemma coordinator_starts rng cargs n t dir f f' nm f'' c picks addr_of prog secp_feature resolve_addr bind_tcp addr cid out vk :
  ceremony_parse_args cargs = Ok (n, t, dir) -> tidy dir = true ->
  ceremony_main rng cargs f = (f', Ok tt) ->
  frost_trusted_dealer_keygen rng (ceremony_verifier_ids n) t = Ok out ->
  group_config dir nm f' f'' n c cid picks ->
  (forall i a, (i, a) ∈ picks -> exists rest, resolve_addr a = Ok (addr_of a :: rest)) ->
  ed_key_from_bytes (verifying_key_bytes (tdk_group_key out)) = Ok vk ->
  bind_tcp (co_listen_addr c) = Ok addr ->
  coordinator_main secp_feature resolve_addr bind_tcp [prog; "--config"; path_join dir nm] f''
  = Ok (group_coordinator c cid (tdk_group_key out) vk picks addr_of addr).
Proof using FL.
  intros Hargs Hd Hmain Hout [Hnm Hng (cfg & Hw & Hcfg) Hgkf Hcid Haux Hpicks Hdvrf] Haddr Hvk Hbind.
  destruct (ceremony_files _ _ _ _ _ _ _ Hargs Hd Hmain) as (out' & gb & Hout' & Ht & Hgb & Hgk & _).
  rewrite Hout in Hout'. injection Hout' as <-.
  assert (Hread : fs_read f'' (path_join dir "group-key.json") = Ok gb).
  { erewrite fs_read_other; [exact Hgk|exact Hw|]. intros E%join_inj; [|done..]. by subst. }
  unfold coordinator_main.
  change (coordinator_parse_args [prog; "--config"; path_join dir nm])
    with (Ok (path_join dir nm) : result (failure string) string). cbn [mbind result_bind].
  rewrite (fs_read_write _ _ _ _ Hw). cbn [map_err mbind result_bind]. rewrite Hcfg. cbn [map_err mbind result_bind].
  rewrite Hgkf, resolve_sibling by done. rewrite Hread. cbn [map_err mbind result_bind].
  rewrite (group_key_roundtrip _ _ Hgb). cbn [map_err mbind result_bind]. rewrite Hcid, id_of_hex_encode. cbn [mbind result_bind].
  destruct (entries_start resolve_addr _ vk picks addr_of Hvk Haddr) as [Htr Hvks]. rewrite Haux, Htr. cbn [mbind result_bind].
  rewrite Hvks. cbn [mbind result_bind]. unfold select_engine. rewrite Hdvrf, (bool_decide_eq_true_2 ([] = [])), andb_false_r by done.
  cbn [mbind result_bind]. rewrite Hbind. cbn [map_err mbind result_bind]. unfold group_coordinator.
  by rewrite <- !list_fmap_compose.
Qed.

(** Such a coordinator starts with the dealt group key; its quorum are exactly
    the listed verifiers, and the group key knows the identifier of each of them. *)
Theorem coordinator_joins_group rng cargs n t dir f f' nm f'' c picks addr_of prog
    secp_feature resolve_addr bind_tcp addr cid out vk :
  ceremony_parse_args cargs = Ok (n, t, dir) -> tidy dir = true -> uval n <= 65535 ->
  ceremony_main rng cargs f = (f', Ok tt) ->
  frost_trusted_dealer_keygen rng (ceremony_verifier_ids n) t = Ok out ->
  group_config dir nm f' f'' n c cid picks ->
  (forall i a, (i, a) ∈ picks -> exists rest, resolve_addr a = Ok (addr_of a :: rest)) ->
  ed_key_from_bytes (verifying_key_bytes (tdk_group_key out)) = Ok vk ->
  bind_tcp (co_listen_addr c) = Ok addr ->
  exists p, coordinator_main secp_feature resolve_addr bind_tcp [prog; "--config"; path_join dir nm] f'' = Ok p /\
    cp_group_key p = tdk_group_key out /\ cp_addr p = addr /\
    cc_coordinator_id (cp_config p) = cid /\ threshold (cc_quorum (cp_config p)) = co_threshold c /\
    verifiers (cc_quorum (cp_config p)) = (fun ia => ceremony_verifier_id ia.1) <$> picks /\
    tn_verifier_id <$> cp_transports p = verifiers (cc_quorum (cp_config p)) /\
    Forall (fun v => is_Some (verifier_to_identifier (cp_group_key p) v)) (verifiers (cc_quorum (cp_config p))).
Proof using FL.
  intros Hargs Hd Hn Hmain Hout Hcfg Haddr Hvk Hbind. destruct (ceremony_files _ _ _ _ _ _ _ Hargs Hd Hmain) as (_ & _ & _ & Ht & _).
  eexists. split; [by eapply coordinator_starts|].
  cbn [group_coordinator cp_config cp_engine cp_group_key cp_transports cp_addr cc_coordinator_id cc_quorum verifiers threshold].
  rewrite <- list_fmap_compose. split_and!; try done.
  apply Forall_fmap. eapply Forall_impl; [exact (gc_members _ _ _ _ _ _ _ _ Hcfg)|]. intros [i a] Hi. cbn [compose tn_verifier_id fst] in *.
  destruct (dealer_keygen_completes rng (ceremony_verifier_ids n) t) as (out' & Hout' & _ & _ & Hm);
    [apply ceremony_ids_NoDup|rewrite ceremony_ids_length; lia..|].
  rewrite Hout in Hout'. injection Hout' as <-. destruct (identifier_ok (u_of_Z 16 (Z.of_nat i + 1))) as [id Hid].
  { rewrite uval_of_Z_small by (change (2 ^ 16) with 65536; lia). lia. }
  exists id. apply (Hm i); [|exact Hid]. unfold ceremony_verifier_ids. rewrite list_lookup_fmap, lookup_seq_lt by done. done.
Qed.

(** With files for the other randomness engine the process never starts: the
    file of the group key is read once as a key over Ed25519 and once as one
    over secp256k1, and the two serializations name their ciphersuites. *)
Lemma dvrf_files_prevent_start resolve_addr bind_tcp args f p :
  (forall bs g g', group_key_from_json_bytes bs = Ok g -> secp_group_from_json_bytes bs <> Ok g') ->
  coordinator_main true resolve_addr bind_tcp args f = Ok p ->
  exists path bs c, coordinator_parse_args args = Ok path /\ fs_read f path = Ok bs /\
    json_slice CoordConfig_from_json bs = Ok c /\ co_dvrf_participant_files c = [].
Proof.
  intros Hsuite Hmain. unfold coordinator_main in Hmain.
  apply bind_Ok in Hmain as (path & Hpath & (bs & Hbs%map_err_Ok & (c & Hc%map_err_Ok & Hmain)%bind_Ok)%bind_Ok).
  exists path, bs, c. split_and!; [done..|].
  apply bind_Ok in Hmain as (gb & Hgb%map_err_Ok & (gk & Hgk%map_err_Ok & Hmain)%bind_Ok).
  apply bind_Ok in Hmain as (cid & _ & (tr & _ & (vks & _ & (eng & Heng & _)%bind_Ok)%bind_Ok)%bind_Ok).
  unfold select_engine in Heng. cbn [andb] in Heng. case_bool_decide as Hf; [done|]. cbn [negb] in Heng.
  apply bind_Ok in Heng as (e & He%map_err_Ok & _). unfold Secp256k1DvrfEngine_from_files in He.
  apply bind_Ok in He as (ps & _ & (gb' & Hgb'%map_err_Ok & (g' & Hg' & _)%bind_Ok)%bind_Ok).
  rewrite Hgb in Hgb'. injection Hgb' as <-. by apply (Hsuite _ _ g') in Hgk.
Qed.
End Start.

(** ** A concrete connection *)

Section Run.
#[local] Existing Instance toy_sha256.
#[local] Existing Instance toy_ed25519.
#[local] Existing Instance toy_frost.
#[local] Instance main_groth16 : Groth16 := toy_groth16 (Ark:=value_ark).
#[local] Instance main_json A : SerdeJson A := no_json A.
#[local] Instance main_randomness : RandomnessEngine := PrototypeDvrf_engine (MkPrototypeDvrf ∅).

Lemma coordinator_request_outcome_witness :
  exists s' ns' m' status body,
    handle_request run_config run_fresh run_transports (toy_group 3) [Ok (string_bytes "GET / HTTP/1.0")]
      (InMemorySessionStore_new, run_nodes) = Some ((s', ns'), send_json_response status body) /\
    mem_rel s' m' /\ status ∈ [200; 400; 500].
Proof.
  destruct (coordinator_request_outcome (Spec:=MemStoreSpec) run_config run_fresh run_transports (toy_group 3)
    [Ok (string_bytes "GET / HTTP/1.0")] InMemorySessionStore_new run_nodes ∅ mem_rel_new)
    as (s' & ns' & m' & status & body & Hh & HR & Hst & _).
  exists s', ns', m', status, body. exact (conj Hh (conj HR Hst)).
Defined.
End Run.
