(* ===== verification/Deployment.v ===== *)
(** * A deployed group serves requests

    Composes the processes: the key ceremony ([node/src/bin/dkg_ceremony.rs]), the
    auxiliary nodes started on its files ([aux_node.rs]) behind their plain TCP
    servers ([node/src/transport.rs]), and the coordinator started next to them
    ([coordinator.rs]) that answers attestation requests over HTTP. The components'
    files supply what each of them promises; here the promises meet. *)

From S2P Require Import Prelude Core Session Storage Attestation Threshold Randomness Registry Dctls Network Errors.
From S2P Require Import Sha256Gadget HmacGadget CoSnark Frost FrostAux Dkg DkgNode DkgCeremony FrostKeys Secp Coordinator.
From S2P Require Import NodeTransport FrostRun Json Os Http Ceremony CoordinatorMain.

(** ** The prototype engine of the coordinator *)

(** Every verifier has a secret. *)
Lemma prototype_secrets_total (ids : list VerifierId) v : v ∈ ids -> is_Some (prototype_secrets ids !! v).
Proof.
  unfold prototype_secrets, enumerate. set (step := fun (m : gmap VerifierId (array 32)) '(i, v) => _).
  assert (Hkeep : forall l k m, is_Some (m !! v) -> is_Some (foldl step m (zip (seq k (length l)) l) !! v)).
  { induction l as [|w l IH]; intros k m Hm; [done|]. apply IH. cbn [step]. destruct (decide (w = v)) as [->|Hne].
    - rewrite lookup_insert_eq. eauto.
    - by rewrite lookup_insert_ne. }
  assert (H : forall l k m, v ∈ l -> is_Some (foldl step m (zip (seq k (length l)) l) !! v)); [|apply H].
  induction l as [|w l IH]; intros k m Hv; [by apply elem_of_nil in Hv|]. apply elem_of_cons in Hv as [->|Hv]; [|by apply IH].
  apply (Hkeep l (S k)). unfold step. cbv beta iota. rewrite lookup_insert_eq. eauto.
Qed.

Lemma prototype_generates {Hs : Sha256} (ids : list VerifierId) rid sid n epoch :
  ids <> [] -> exists ro, dvrf_generate (MkPrototypeDvrf (prototype_secrets ids)) rid sid n epoch ids = Ok ro.
Proof. intros Hne. apply dvrf_generate_total; [done|]. apply prototype_secrets_total. Qed.

(** ** Started nodes *)

Section Nodes.
Context {Ed : Ed25519} {Fr : FrostEd25519} {Ib : IdentifierBytes} {Jp : SerdeJson ParticipantExport}.
Context {J : SerdeText} {Pp : SerdePretty J} {Fs : FileSystem}.

(** A node that came up on its files of the ceremony runs the dealt participant. *)
Lemma aux_main_participant n t dir f i p bs bind_tcp prog proc :
  tidy dir = true -> Z.of_nat i < uval n ->
  fs_read f (path_join dir (config_file i)) = Ok (string_bytes (json_pretty (node_config_json n t i))) ->
  participant_to_json_bytes p = Ok bs -> fs_read f (path_join dir (node_file i)) = Ok bs ->
  aux_main bind_tcp [prog; "--config"; path_join dir (config_file i)] f = Ok proc ->
  ap_node proc = FrostAuxiliaryNode_new p.
Proof.
  intros Hd Hi Hcfg Hbs Hkey Hrun. destruct (bind_tcp ("0.0.0.0:" +:+ pretty (8080 + Z.of_nat i))) as [addr|e] eqn:Hb.
  - destruct (aux_main_starts n t dir f i p bs bind_tcp addr prog Hd Hi Hcfg Hbs Hkey Hb) as (c & Hc & _).
    rewrite Hrun in Hc. by injection Hc as ->.
  - exfalso. unfold aux_main in Hrun. apply bind_Ok in Hrun as (path & Hpath & Hrun).
    change (config_parse_args _ _) with (Ok (path_join dir (config_file i)) : result (failure string) string) in Hpath.
    injection Hpath as <-. rewrite Hcfg in Hrun. cbn [map_err mbind result_bind] in Hrun. rewrite node_config_read in Hrun by done.
    cbn [map_err mbind result_bind nc_listen_addr] in Hrun. rewrite Hb in Hrun.
    apply bind_Ok in Hrun as (kb & _ & (part & _ & Hrun)%bind_Ok). discriminate Hrun.
Qed.
End Nodes.

(** ** The deployment *)

Section Deployed.
Context {Hs : Sha256} {Ed : Ed25519} {Eb : Ed25519Bytes} {Sp : FrostSecp256k1} {G : Groth16}.
Context {Fr : FrostEd25519} {Ib : IdentifierBytes} {Dk : FrostDkg} {De : FrostDealer} {Sg : FrostSigning} {Ds : DealtShares}.
Context {Jh : SerdeJson HspProof} {Je : SerdeJson DctlsEvidence} {Jq : SerdeJson NodeRequest} {Jr : SerdeJson NodeResponse}.
Context {Jg : SerdeJson GroupKeyExport} {Jp : SerdeJson ParticipantExport}.
Context {Jsg : SerdeJson SpGroupExport} {Jsp : SerdeJson SpParticipantExport}.
Context {Ja : SerdeJson AttestationRequest} {Jv : SerdeJson FrostAttestationEnvelope}.
Context {J : SerdeText} {Pp : SerdePretty J} {Fs : FileSystem} {Di : Directories} {FL : FileSystemLaws Fs}.
Context `{Spec : StoreSpec St}.
Context (net : SocketAddr -> Channel Nodes) (sv : nat -> ServerEnv) (addr_of : string -> SocketAddr).
#[local] Existing Instance PrototypeAttestationEngine.
#[local] Instance net_transport : FrostNodeTransport TcpNodeTransport Nodes := tcp_transport net.

(** The way from the coordinator to node [ia.1] at the address [ia.2]. *)
Definition aux_leg (ns : Nodes) (ia : nat * string) : Leg TcpNodeTransport :=
  MkLeg (MkTcpNodeTransport (ceremony_verifier_id ia.1) (addr_of ia.2) 30) ia.1 (fun _ => sv_now (sv ia.1)) (sv_env (sv ia.1))
    (participant (ns ia.1)).

(** The node came up on its configuration of the ceremony, is served at its
    address, and has not seen the session. *)
Record serving (dir : string) (f' : files) (fresh : Fresh) (ns : Nodes) (ia : nat * string) : Prop := {
  se_started : exists bind_tcp prog proc,
    aux_main bind_tcp [prog; "--config"; path_join dir (config_file ia.1)] f' = Ok proc /\
    participant (ns ia.1) = participant (ap_node proc) /\ node_registry (ns ia.1) = node_registry (ap_node proc);
  se_unused : pending (ns ia.1) !! fresh_session_id fresh = None;
  se_served : net (addr_of ia.2) = server_channel ia.1 (handle_connection (sv ia.1))
}.

(** The messages of the run fit into frames. *)
Definition messages_fit (p : CoordinatorProcess) (fresh : Fresh) (request : AttestationRequest) (legs : list (Leg TcpNodeTransport)) : Prop :=
  forall ro te,
    generate (RandomnessEngine:=cp_engine p) (fresh_randomness_id fresh) (fresh_session_id fresh) (fresh_nonce fresh)
      (cc_epoch (cp_config p)) (verifiers (cc_quorum (cp_config p))) = Ok ro ->
    execute (session_context_of (cp_config p) fresh request) (ro_value ro) (rq_query request) [] = Ok te ->
    Forall (leg_carries (cp_config p) (fun _ => fun q r => fits_frame q /\ fits_frame r)
      (assemble_prepared (cp_config p) fresh request [] (MkSession (session_context_of (cp_config p) fresh request) Attesting) ro te.1 te.2)
      RegistryEpoch_GENESIS legs) legs.

Section OneDeployment.
Context (rng : Frost.Rng) (cargs : list string) (n t : usize) (dir : string) (f f' f'' : files).
Context (nm : string) (c : CoordConfig) (cid : VerifierId) (picks : list (nat * string)) (out : TrustedDealerKeygenOutput).
Hypothesis ceremony_args : ceremony_parse_args cargs = Ok (n, t, dir).
Hypothesis dir_tidy : tidy dir = true.
Hypothesis few_nodes : uval n <= 65535.
Hypothesis ceremony : ceremony_main rng cargs f = (f', Ok tt).
Hypothesis dealt : frost_trusted_dealer_keygen rng (ceremony_verifier_ids n) t = Ok out.
Hypothesis config : group_config dir nm f' f'' n c cid picks.
Hypothesis picks_distinct : NoDup picks.*1.
Hypothesis enough : uval t <= Z.of_nat (length picks) /\ uval (co_threshold c) <= Z.of_nat (length picks).

(** A serving node of the group runs the participant dealt to it. *)
Lemma serving_participant fresh ns ia : ia ∈ picks -> serving dir f' fresh ns ia ->
  tdk_participants out !! ia.1 = Some (participant (ns ia.1)) /\ node_registry (ns ia.1) = None /\
  fp_verifier_id (participant (ns ia.1)) = ceremony_verifier_id ia.1.
Proof using ceremony_args dir_tidy few_nodes ceremony dealt config FL.
  intros Hin [(bind_tcp & prog & proc & Hstart & Hpart & Hreg) _ _].
  pose proof (gc_members _ _ _ _ _ _ _ _ config) as Hmem. rewrite Forall_forall in Hmem. specialize (Hmem ia Hin). cbn beta in Hmem.
  destruct (ceremony_files _ _ _ _ _ _ _ ceremony_args dir_tidy ceremony) as (out' & gb & Hout' & Ht & _ & _ & Hps & Hcfgs).
  rewrite dealt in Hout'. injection Hout' as <-.
  destruct (dealer_keygen_completes rng (ceremony_verifier_ids n) t) as (out' & Hout' & Hlen & Hp & _);
    [apply ceremony_ids_NoDup|rewrite ceremony_ids_length; lia..|].
  rewrite dealt in Hout'. injection Hout' as <-. rewrite ceremony_ids_length in Hlen.
  destruct (lookup_lt_is_Some_2 (tdk_participants out) ia.1) as [p Hpi]; [lia|].
  destruct (Hps _ _ Hpi) as (bs & Hbs & Hfile).
  assert (Hnode : ap_node proc = FrostAuxiliaryNode_new p).
  { eapply (aux_main_participant n t dir f' ia.1 p bs); try done; [lia|]. by apply Hcfgs. }
  rewrite Hpart, Hreg, Hnode. cbn [FrostAuxiliaryNode_new participant node_registry]. split_and!; [done|done|].
  destruct (Hp _ _ Hpi) as [Hv _]. unfold ceremony_verifier_ids in Hv.
  apply list_lookup_fmap_Some in Hv as (k & Hv & [-> _]%lookup_seq). exact Hv.
Qed.

(** The legs of a run. *)
Lemma serving_legs fresh ns : Forall (serving dir f' fresh ns) picks ->
  let legs := aux_leg ns <$> picks in
  signing_quorum (tdk_group_key out) (uval t) (signing_of <$> legs) /\
  Forall (fun l => reaches (fun q r => fits_frame q /\ fits_frame r) l) legs /\
  leg_id <$> legs = ceremony_verifier_id <$> picks.*1 /\ leg_node <$> legs = picks.*1.
Proof using All.
  intros Hserve legs. rewrite Forall_forall in Hserve.
  assert (Hpart : forall ia, ia ∈ picks -> _) by (intros ia Hin; exact (serving_participant fresh ns ia Hin (Hserve ia Hin))).
  split_and!.
  - apply (dealt_quorum rng (ceremony_verifier_ids n) t out dealt) with (ks := picks.*1); [|done| |].
    + rewrite ceremony_ids_length. pose proof (uval_range n). lia.
    + apply Forall2_fmap_r, Forall2_fmap_r, Forall2_fmap_l, Forall_Forall2_diag, Forall_forall. intros ia Hin. apply (Hpart ia Hin).
    + unfold legs. rewrite !length_fmap. apply enough.
  - apply Forall_forall. intros l (ia & -> & Hin)%list_elem_of_fmap.
    apply (remote_reaches _ _ _ (sv ia.1) _ "aux node rejected "); [apply tcp_behaves, (Hserve ia Hin)|].
    intros ns'. symmetry. apply (Hpart ia Hin).
  - unfold legs. rewrite <- !list_fmap_compose. apply list_fmap_ext. intros k ia Hk%list_elem_of_lookup_2. apply (Hpart ia Hk).
  - unfold legs. by rewrite <- list_fmap_compose.
Qed.

Lemma serving_ready fresh request (cc : CoordinatorConfig) ns : Forall (serving dir f' fresh ns) picks ->
  Forall (fun ia => uval (UnixTimestamp_0 (sv_now (sv ia.1))) <= uval (UnixTimestamp_0 (session_expiry cc fresh request))) picks ->
  Forall (leg_ready cc fresh request RegistryEpoch_GENESIS ns) (aux_leg ns <$> picks).
Proof.
  intros Hserve Htime. rewrite Forall_forall in Hserve, Htime. apply Forall_forall. intros l (ia & -> & Hin)%list_elem_of_fmap.
  split; [done|apply (Hserve ia Hin)|by right|apply (Htime ia Hin)].
Qed.

(** C3. A deployed group serves. After a completed ceremony for at most 65535
    nodes, take a coordinator configured in its directory for distinct nodes of
    the group, as many as the thresholds of the ceremony and of the configuration
    ask for. The coordinator starts, and every request it can read, for a session
    that is new to store and nodes, while the listed nodes are up on the files of
    the ceremony, serve their addresses, have clocks within the session and
    messages fit into frames, is answered with status 200 and an envelope that
    verifies under the dealt group key; the session is then finalized with the
    approvals of exactly the listed verifiers, and the nodes are ready for the
    next one. *)
Theorem deployed_group_serves secp_feature resolve_addr bind_tcp addr vk prog :
  (forall i a, (i, a) ∈ picks -> exists rest, resolve_addr a = Ok (addr_of a :: rest)) ->
  ed_key_from_bytes (verifying_key_bytes (tdk_group_key out)) = Ok vk ->
  bind_tcp (co_listen_addr c) = Ok addr ->
  (forall e : FrostAttestationEnvelope, is_ok (json_to_vec e) = true) ->
  exists p, coordinator_main secp_feature resolve_addr bind_tcp [prog; "--config"; path_join dir nm] f'' = Ok p /\
    forall fresh conn rest body request (s : St) m (ns : Nodes),
      read_http_body conn = Some (rest, Ok body) -> json_from_slice body = Ok request ->
      store_rel s m -> m !! fresh_session_id fresh = None ->
      Forall (serving dir f' fresh ns) picks ->
      Forall (fun ia => uval (UnixTimestamp_0 (sv_now (sv ia.1)))
                        <= uval (UnixTimestamp_0 (session_expiry (cp_config p) fresh request))) picks ->
      messages_fit p fresh request (aux_leg ns <$> picks) ->
      exists (s' : St) (ns' : Nodes) e json,
        handle_request (R:=cp_engine p) (cp_config p) fresh (cp_transports p) (cp_group_key p) conn (s, ns)
          = Some ((s', ns'), send_json_response 200 json) /\
        json_from_slice json = Ok e /\ frost_envelope_good (cp_config p) fresh request (tdk_group_key out) e /\
        store_rel s' (with_session (cp_config p) fresh request m Finalized (list_to_set (ceremony_verifier_id <$> picks.*1))) /\
        (forall i, i ∈ picks.*1 -> round_over (fresh_session_id fresh) (ns i) (ns' i)) /\
        (forall i, i ∉ picks.*1 -> ns' i = ns i).
Proof using All.
  intros Haddr Hvk Hbind Hjson. eexists. split; [by eapply coordinator_starts|].
  intros fresh conn rest body request s m ns Hread Hreq HR Hm Hserve Htime Hfit. set (p := group_coordinator _ _ _ _ _ _ _) in *.
  destruct (serving_legs fresh ns Hserve) as (Hq & Hreach & Hids & Hnodes).
  destruct (prototype_generates (verifiers (cc_quorum (cp_config p))) (fresh_randomness_id fresh) (fresh_session_id fresh)
    (fresh_nonce fresh) (cc_epoch (cp_config p))) as [ro Hro].
  { apply sq_size in Hq. destruct picks; [cbn in Hq; lia|done]. }
  destruct (honest_quorum_attests (R:=cp_engine p) (cp_config p) fresh request [] "transports" RegistryEpoch_GENESIS
    (fun _ => fun q r => fits_frame q /\ fits_frame r) (aux_leg ns <$> picks) (tdk_group_key out) (uval t) s m ns ro
    (TranscriptCommitments_build (fresh_session_id fresh) (ro_value ro) (rq_query request) [],
     ExportableEvidence_new PROTOTYPE_ENGINE_TAG (prototype_evidence_bytes (fresh_session_id fresh) (rq_query request) [])))
    as (s' & ns' & e & Hrun & HR' & Hgood & Hover & Hout); try done.
  - rewrite length_fmap. apply enough.
  - by rewrite Hnodes.
  - by apply serving_ready.
  - by apply Hfit.
  - destruct (is_ok_exists _ (Hjson e)) as [json Hj]. exists s', ns', e, json.
    rewrite Hnodes in Hout. rewrite Hids in HR'. split_and!; [|by apply Prelude.json_roundtrip|done|done| |done].
    + unfold handle_request. rewrite Hread, Hreq. unfold attest_frost_distributed_over_transport.
      replace (cp_transports p) with (leg_transport <$> (aux_leg ns <$> picks)) by (by rewrite <- list_fmap_compose).
      change (cp_group_key p) with (tdk_group_key out). rewrite Hrun. by rewrite Hj.
    + intros i (ia & -> & Hia)%list_elem_of_fmap. apply (Hover (aux_leg ns ia)). apply list_elem_of_fmap. by exists ia.
Qed.
End OneDeployment.
End Deployed.

(** ** A concrete deployment *)

(** Serializers for the messages of a list: a message is written as its position. *)
Definition few_json {A} `{EqDecision A} (l : list A) : SerdeJson A.
Proof.
  refine {| json_to_vec v := match list_find (v =.) l with Some (i, _) => Ok (replicate i (byte 1)) | None => Err "unsupported" end;
            json_from_slice b := ok_or "unsupported" (l !! length b) |}.
  intros v b. destruct (list_find _ l) as [[i w]|] eqn:Hf; [|done]. intros [= <-]. apply list_find_Some in Hf as (Hi & <- & _).
  rewrite length_replicate, Hi. done.
Defined.
Lemma few_json_fits {A} `{EqDecision A} (l : list A) v :
  v ∈ l -> Z.of_nat (length l) <= MAX_FRAME_BYTES -> fits_frame (J:=few_json l) v.
Proof.
  intros Hv Hl. destruct (list_find_elem_of (v =.) l v Hv eq_refl) as [[i w] Hf]. exists (replicate i (byte 1)).
  cbn [json_to_vec few_json]. rewrite Hf. split; [done|]. rewrite length_replicate.
  apply list_find_Some in Hf as (Hi%lookup_lt_Some & _). lia.
Qed.

#[export] Instance StatementPayload_eq_dec : EqDecision StatementPayload.
Proof. solve_decision. Defined.
#[export] Instance CoordinatorEvidence_eq_dec : EqDecision CoordinatorEvidence.
Proof. solve_decision. Defined.
#[export] Instance RandomnessBinding_eq_dec : EqDecision RandomnessBinding.
Proof. solve_decision. Defined.
#[export] Instance FrostThresholdApproval_eq_dec : EqDecision FrostThresholdApproval.
Proof. solve_decision. Defined.
#[export] Instance FrostAttestationEnvelope_eq_dec : EqDecision FrostAttestationEnvelope.
Proof. solve_decision. Defined.
#[export] Instance AttestationRequest_eq_dec : EqDecision AttestationRequest.
Proof. solve_decision. Defined.
#[export] Instance ProverId_countable : Countable ProverId := AsBytes_countable.
#[export] Instance RandomnessId_countable : Countable RandomnessId := AsBytes_countable.
#[export] Instance Nonce_countable : Countable Nonce := AsBytes_countable.
#[export] Instance DigestBytes_countable : Countable DigestBytes := AsBytes_countable.
#[export] Instance Epoch_countable : Countable Epoch := inj_countable' Epoch_0 MkEpoch (fun '(MkEpoch _) => eq_refl).
#[export] Instance UnixTimestamp_countable : Countable UnixTimestamp :=
  inj_countable' UnixTimestamp_0 MkUnixTimestamp (fun '(MkUnixTimestamp _) => eq_refl).
#[export] Instance QuorumSpec_countable : Countable QuorumSpec :=
  inj_countable' (fun q => (verifiers q, threshold q)) (fun '(v, t) => MkQuorumSpec v t) (fun '(MkQuorumSpec _ _) => eq_refl).
#[export] Instance SessionContext_countable : Countable SessionContext :=
  inj_countable' (fun c => (session_id c, prover_id c, coordinator_id c, quorum c, epoch c, (created_at c, expires_at c, nonce c, session_digest c)))
    (fun '(a, b, c, d, e, (f, g, h, i)) => MkSessionContext a b c d e f g h i) (fun '(MkSessionContext _ _ _ _ _ _ _ _ _) => eq_refl).
#[export] Instance TranscriptCommitment_countable : Countable TranscriptCommitment :=
  inj_countable' (fun c => (role c, tc_digest c)) (fun '(a, b) => MkTranscriptCommitment a b) (fun '(MkTranscriptCommitment _ _) => eq_refl).
#[export] Instance TranscriptCommitments_countable : Countable TranscriptCommitments :=
  inj_countable' (fun c => (tc_query c, tc_response c, session_transcript_digest c))
    (fun '(a, b, c) => MkTranscriptCommitments a b c) (fun '(MkTranscriptCommitments _ _ _) => eq_refl).
#[export] Instance RandomnessBinding_countable : Countable RandomnessBinding :=
  inj_countable' (fun c => (rb_id c, rb_value c, rb_epoch c, rb_session_binding c))
    (fun '(a, b, c, d) => MkRandomnessBinding a b c d) (fun '(MkRandomnessBinding _ _ _ _) => eq_refl).
#[export] Instance StatementPayload_countable : Countable StatementPayload :=
  inj_countable' (fun c => (content c, derivation_tag c, statement_digest c))
    (fun '(a, b, c) => MkStatementPayload a b c) (fun '(MkStatementPayload _ _ _) => eq_refl).
#[export] Instance CoordinatorEvidence_countable : Countable CoordinatorEvidence :=
  inj_countable' (fun c => (ce_engine_tag c, ce_evidence_digest c, ce_package_digest c))
    (fun '(a, b, c) => MkCoordinatorEvidence a b c) (fun '(MkCoordinatorEvidence _ _ _) => eq_refl).
#[export] Instance FrostThresholdApproval_countable : Countable FrostThresholdApproval :=
  inj_countable' (fun c => (fta_signed_digest c, aggregate_signature_bytes c, group_verifying_key_bytes c))
    (fun '(a, b, c) => MkFrostThresholdApproval a b c) (fun '(MkFrostThresholdApproval _ _ _) => eq_refl).
#[export] Instance FrostAttestationEnvelope_countable : Countable FrostAttestationEnvelope :=
  inj_countable' (fun c => (fae_session c, fae_randomness c, fae_transcript c, fae_statement c, (fae_coordinator_evidence c,
      fae_frost_approval c, fae_envelope_digest c)))
    (fun '(a, b, c, d, (e, f, g)) => MkFrostAttestationEnvelope a b c d e f g) (fun '(MkFrostAttestationEnvelope _ _ _ _ _ _ _) => eq_refl).
#[local] Instance NodeRequest_eq_dec : EqDecision NodeRequest.
Proof.
  assert (EqDecision FrostRound1Request) by solve_decision. assert (EqDecision FrostRound2Request) by solve_decision.
  assert (EqDecision HandshakeBindingRound1Request) by solve_decision. assert (EqDecision HandshakeBindingRound2Request) by solve_decision.
  solve_decision.
Defined.
#[local] Instance NodeResponse_eq_dec : EqDecision NodeResponse.
Proof.
  assert (EqDecision FrostRound1Response) by solve_decision. assert (EqDecision FrostRound2Response) by solve_decision.
  assert (EqDecision HandshakeBindingRound1Response) by solve_decision. assert (EqDecision HandshakeBindingRound2Response) by solve_decision.
  solve_decision.
Defined.

Section Demo.
#[local] Existing Instance toy_sha256.
#[local] Existing Instance toy_ed25519.
#[local] Existing Instance toy_frost32.
#[local] Existing Instance toy_dkg32.
#[local] Existing Instance toy_identifier_bytes.
#[local] Existing Instance toy_secp.
#[local] Existing Instance toy_text.
#[local] Existing Instance toy_pretty.
#[local] Existing Instance toy_files.
#[local] Existing Instance toy_directories.
#[local] Existing Instance toy_files_laws.
#[local] Existing Instance PrototypeAttestationEngine.
#[local] Instance demo_dealer : FrostDealer := toy_dealer_on (array 32).
#[local] Instance demo_signing : FrostSigning := toy_signing_on (array 32).
#[local] Instance demo_dealt : DealtShares.
Proof. by intros ?. Defined.
#[local] Instance demo_groth16 : Groth16 := toy_groth16 (Ark:=value_ark).
#[local] Instance demo_ed_bytes : Ed25519Bytes := {| ed_key_from_bytes a := Ok (a : VerifyingKey) |}.
#[local] Instance demo_hsp_json : SerdeJson HspProof := no_json _.
#[local] Instance demo_evidence_json : SerdeJson DctlsEvidence := no_json _.
#[local] Instance demo_group_json : SerdeJson GroupKeyExport := toy_json.
#[local] Instance demo_participant_json : SerdeJson ParticipantExport := toy_json.
#[local] Instance demo_sp_group_json : SerdeJson SpGroupExport := no_json _.
#[local] Instance demo_sp_participant_json : SerdeJson SpParticipantExport := no_json _.
#[local] Instance demo_request_json : SerdeJson AttestationRequest := one_json run_request.
#[local] Instance demo_envelope_json : SerdeJson FrostAttestationEnvelope := toy_json.

Definition demo_rng : Frost.Rng := [byte 7].

(** Three nodes, of whom the coordinator asks the first and the third. *)
Definition demo_keys : TrustedDealerKeygenOutput :=
  unwrap_or (MkTrustedDealerKeygenOutput [] toy_group32)
    (frost_trusted_dealer_keygen demo_rng (ceremony_verifier_ids (n64 3)) (n64 2)).
Definition demo_nodes : Nodes := fun i => FrostAuxiliaryNode_new (default toy_participant32 (tdk_participants demo_keys !! i)).
Definition demo_picks : list (nat * string) := [(0%nat, "10.0.0.1:8080"); (2%nat, "10.0.0.3:8082")].
Definition demo_sv (i : nat) : ServerEnv := MkServerEnv (n64 10) (MkUnixTimestamp (n64 10)) (n64 10) (MkEnv [byte (Z.of_nat i)] (n64 0) 0 0).
Definition demo_config : CoordConfig :=
  MkCoordConfig "0.0.0.0:9000" (hex_encode (arr (as_bytes (vid 9)))) "group-key.json" (n64 2) (entry_of <$> demo_picks) default_db [].
Definition demo_entry (e : AuxNodeEntry) : Json :=
  JObject [("verifier_id_hex", JString (ae_verifier_id_hex e)); ("addr", JString (ae_addr e))].
Definition demo_config_json : Json :=
  JObject [("listen_addr", JString (co_listen_addr demo_config)); ("coordinator_id_hex", JString (co_coordinator_id_hex demo_config));
           ("group_key_file", JString "group-key.json"); ("threshold", JInt 2);
           ("aux_nodes", JArray (demo_entry <$> co_aux_nodes demo_config))].
Definition demo_process : CoordinatorProcess :=
  group_coordinator demo_config (vid 9) (tdk_group_key demo_keys) (verifying_key_bytes (tdk_group_key demo_keys)) demo_picks id "0.0.0.0:9000".

(** The messages of the run. *)
Definition demo_legs : list (Leg TcpNodeTransport) := aux_leg demo_sv id demo_nodes <$> demo_picks.
Definition demo_randomness : RandomnessOutput :=
  unwrap_or (toy_randomness [])
    (generate (RandomnessEngine:=cp_engine demo_process) (fresh_randomness_id run_fresh) (fresh_session_id run_fresh)
       (fresh_nonce run_fresh) (cc_epoch (cp_config demo_process)) (verifiers (cc_quorum (cp_config demo_process)))).
Definition demo_prepared (te : TranscriptCommitments * ExportableEvidence) : PreparedSession :=
  assemble_prepared (cp_config demo_process) run_fresh run_request []
    (MkSession (session_context_of (cp_config demo_process) run_fresh run_request) Attesting) demo_randomness te.1 te.2.
Definition demo_te : TranscriptCommitments * ExportableEvidence :=
  (TranscriptCommitments_build (sid 4) (ro_value demo_randomness) (rq_query run_request) [],
   ExportableEvidence_new PROTOTYPE_ENGINE_TAG (prototype_evidence_bytes (sid 4) (rq_query run_request) [])).
Definition demo_requests : list NodeRequest :=
  [ReqFrostRound1 (request1 (cp_config demo_process) (demo_prepared demo_te) RegistryEpoch_GENESIS demo_legs);
   ReqFrostRound2 (request2 (cp_config demo_process) (demo_prepared demo_te) demo_legs)].
Definition demo_responses : list NodeResponse :=
  ((fun l => RespFrostRound1 (answer1 (demo_prepared demo_te) l)) <$> demo_legs) ++
  ((fun l => RespFrostRound2 (answer2 (demo_prepared demo_te) l (env_rng (leg_env l)))) <$> demo_legs).
#[local] Instance demo_request_wire : SerdeJson NodeRequest := few_json demo_requests.
#[local] Instance demo_response_wire : SerdeJson NodeResponse := few_json demo_responses.
Definition demo_net (a : SocketAddr) : Channel Nodes :=
  let i := if bool_decide (a = "10.0.0.1:8080") then 0%nat else 2%nat in server_channel i (handle_connection (demo_sv i)).

Lemma demo_messages_fit : messages_fit demo_process run_fresh run_request demo_legs.
Proof.
  intros ro te Hro [= <-]. assert (ro = demo_randomness) as -> by (unfold demo_randomness; by rewrite Hro).
  change (assemble_prepared _ _ _ _ _ _ _ _) with (demo_prepared demo_te). apply Forall_forall. intros l Hl.
  assert (Hlen : Z.of_nat (length demo_requests) <= MAX_FRAME_BYTES /\ Z.of_nat (length demo_responses) <= MAX_FRAME_BYTES).
  { split; vm_compute; discriminate. }
  split; [|intros sh [= <-]]; split; apply few_json_fits; try apply Hlen.
  - apply list_elem_of_here.
  - apply elem_of_app. left. apply list_elem_of_fmap. by exists l.
  - by right; left.
  - apply elem_of_app. right. apply list_elem_of_fmap. by exists l.
Qed.

Definition demo_dir : string := "./keys".
Definition demo_args : list string := ["dkg-ceremony"; "--nodes"; "3"; "--threshold"; "2"; "--out-dir"; demo_dir].
Definition demo_bytes : bytes := string_bytes (json_print demo_config_json).

Lemma demo_dealing : frost_trusted_dealer_keygen demo_rng (ceremony_verifier_ids (n64 3)) (n64 2) = Ok demo_keys.
Proof. apply is_ok_unwrap. vm_compute. reflexivity. Qed.

Lemma demo_group_config f' : group_config demo_dir "coordinator.json" f' (<["./keys/coordinator.json" := demo_bytes]> f') (n64 3)
  demo_config (vid 9) demo_picks.
Proof.
  split; try reflexivity; try discriminate.
  - exists demo_bytes. split; [reflexivity|]. unfold json_slice, demo_bytes. rewrite bytes_string_bytes.
    rewrite (json_parse_print (SerdeTextLaws:=toy_text_laws)). vm_compute. reflexivity.
  - repeat constructor; apply Nat.ltb_lt; vm_compute; reflexivity.
Qed.

(** Its nodes come up on the files of the ceremony. *)
Lemma demo_serving f f' : ceremony_main demo_rng demo_args f = (f', Ok tt) ->
  Forall (serving demo_net demo_sv id demo_dir f' run_fresh demo_nodes) demo_picks.
Proof.
  intros Hmain. assert (Hok : forall a b : TrustedDealerKeygenOutput, (Ok a : result (failure CryptoError) _) = Ok b -> b = a) by (by intros a b [= ->]).
  destruct (ceremony_files demo_rng demo_args (n64 3) (n64 2) demo_dir f f') as (out & gb & Hout & _ & _ & _ & Hps & Hcfgs);
    [reflexivity|reflexivity|exact Hmain|]. rewrite demo_dealing in Hout. apply Hok in Hout. subst out.
  assert (H : forall i a, (i = 0 \/ i = 2)%nat -> demo_net a = server_channel i (handle_connection (demo_sv i)) ->
    serving demo_net demo_sv id demo_dir f' run_fresh demo_nodes (i, a)).
  { intros i a Hi Hnet. assert (Hp : tdk_participants demo_keys !! i = Some (participant (demo_nodes i))).
    { destruct (lookup_lt_is_Some_2 (tdk_participants demo_keys) i) as [p Hp].
      - assert (length (tdk_participants demo_keys) = 3%nat) as -> by (vm_compute; reflexivity). lia.
      - change (participant (demo_nodes i)) with (default toy_participant32 (tdk_participants demo_keys !! i)). by rewrite Hp. }
    destruct (Hps _ _ Hp) as (bs & Hbs & Hfile).
    destruct (aux_main_starts (n64 3) (n64 2) demo_dir f' i (participant (demo_nodes i)) bs Ok ("0.0.0.0:" +:+ pretty (8080 + Z.of_nat i)) "aux-node")
      as (c & Hc & _); [reflexivity| | |done..|].
    - change (uval (n64 3)) with 3. lia.
    - apply Hcfgs. change (Z.to_nat (uval (n64 3))) with 3%nat. lia.
    - split; [|done|done]. eexists Ok, "aux-node", _. split; [exact Hc|]. by split. }
  constructor; [apply H; [by left|]|constructor; [apply H; [by right|]|constructor]]; unfold demo_net.
  - by rewrite bool_decide_eq_true_2.
  - by rewrite bool_decide_eq_false_2.
Qed.

(** A request over HTTP. *)
Definition demo_conn : stream := [Ok (string_bytes demo_head ++ header_end ++ [byte 123; byte 125])].

Lemma deployed_group_serves_witness :
  exists f' f'' p s' ns' e json,
    ceremony_main demo_rng demo_args ∅ = (f', Ok tt) /\
    coordinator_main false (fun a => Ok [a]) Ok ["coordinator"; "--config"; "./keys/coordinator.json"] f'' = Ok p /\
    handle_request (R:=cp_engine p) (Tr:=tcp_transport demo_net) (cp_config p) run_fresh (cp_transports p) (cp_group_key p) demo_conn
      (InMemorySessionStore_new, demo_nodes) = Some ((s', ns'), send_json_response 200 json) /\
    json_from_slice json = Ok e /\ frost_envelope_good (cp_config p) run_fresh run_request (tdk_group_key demo_keys) e.
Proof.
  assert (Hser : forall p : FrostParticipant, exists bs, participant_to_json_bytes p = Ok bs) by (intros p; eexists; reflexivity).
  assert (Hgk : forall gk : FrostGroupKey, exists bs, group_key_to_json_bytes gk = Ok bs) by (intros gk; eexists; reflexivity).
  assert (Hdirs : forall f d, exists f', fs_create_dir_all f d = Ok f') by (intros f d; exists f; reflexivity).
  destruct (key_ceremony_completes toy_writes Hdirs Hser Hgk demo_rng demo_args (n64 3) (n64 2) demo_dir ∅) as [f' Hmain].
  { reflexivity. } { vm_compute. split; discriminate. } { vm_compute. discriminate. }
  destruct (deployed_group_serves (Spec:=MemStoreSpec) demo_net demo_sv id demo_rng demo_args (n64 3) (n64 2) demo_dir ∅ f'
    (<["./keys/coordinator.json" := demo_bytes]> f') "coordinator.json" demo_config (vid 9) demo_picks demo_keys)
    with (secp_feature := false) (resolve_addr := fun a : string => Ok [a] : result string (list SocketAddr))
    (bind_tcp := fun a : string => Ok a : result string string) (addr := "0.0.0.0:9000") (vk := verifying_key_bytes (tdk_group_key demo_keys))
    (prog := "coordinator") as (p & Hp & Hserve).
  - reflexivity.
  - reflexivity.
  - vm_compute. discriminate.
  - exact Hmain.
  - exact demo_dealing.
  - apply demo_group_config.
  - apply (bool_decide_unpack _). vm_compute. exact I.
  - split; vm_compute; discriminate.
  - intros i a _. exists []. reflexivity.
  - reflexivity.
  - reflexivity.
  - reflexivity.
  - assert (Hproc : p = demo_process).
    { assert (Hok : forall a b : CoordinatorProcess, (Ok a : result (failure string) _) = Ok b -> a = b) by (by intros a b [= ->]).
      apply Hok. rewrite <- Hp. apply (coordinator_starts demo_rng demo_args (n64 3) (n64 2) demo_dir ∅ f' "coordinator.json");
        [reflexivity|reflexivity|exact Hmain|exact demo_dealing|apply demo_group_config|by exists []|reflexivity|reflexivity]. }
    destruct (Hserve run_fresh demo_conn [] [byte 123; byte 125] run_request InMemorySessionStore_new ∅ demo_nodes)
      as (s' & ns' & e & json & Hh & Hj & Hgood & _).
    + vm_compute. reflexivity.
    + reflexivity.
    + exact mem_rel_new.
    + reflexivity.
    + exact (demo_serving _ _ Hmain).
    + rewrite Hproc. repeat constructor; vm_compute; discriminate.
    + rewrite Hproc. exact demo_messages_fit.
    + exists f', (<["./keys/coordinator.json" := demo_bytes]> f'), p, s', ns', e, json.
      exact (conj Hmain (conj Hp (conj Hh (conj Hj Hgood)))).
Defined.
End Demo.
