(* ===== verification/Harness.v ===== *)
(** * The deterministic harness and the vectors for the contract

    Models [testing/src/fixtures.rs], which wires coordinator, verifier nodes and
    store from fixed seeds; the use of a verifier node as a signer
    ([node/src/auxiliary.rs]); and [node/src/bin/gen_test_vectors.rs], which makes a
    key pair and a Schnorr signature for the tests of the contract.

    The arithmetic of the crate [k256] is the class [K256Arithmetic]; printing is left
    out. *)

From S2P Require Import Prelude Core Session Storage Attestation Threshold Randomness Registry Dctls Errors Verify.
From S2P Require Import Frost Coordinator OnChain.

(** ** Verifier nodes as signers *)

(** [impl ThresholdSigner for AuxiliaryVerifierNode] *)
Definition node_as_signer {Ed : Ed25519} (self : AuxiliaryVerifierNode) : ThresholdSigner :=
  {| sign_partial := sign_partial (signer self); signer_verifier_id := signer_verifier_id (signer self) |}.

(** ** The harness *)

Record TestHarnessConfig := MkTestHarnessConfig {
  num_aux_verifiers : usize;
  tc_threshold : usize;
  tc_ttl_secs : u64
}.
Definition TestHarnessConfig_default : TestHarnessConfig := MkTestHarnessConfig (u_of_Z 64 3) (u_of_Z 64 2) (u_of_Z 64 3600).

Section Harness.
Context {Hs : Sha256} {Ed : Ed25519}.

Record TestHarness := MkTestHarness {
  th_config : CoordinatorConfig;
  th_store : InMemorySessionStore;
  th_dvrf : PrototypeDvrf;
  aux_nodes : list AuxiliaryVerifierNode;
  th_quorum : QuorumSpec
}.

(** [(1u8..=(n as u8)).map(|seed| VerifierKeyPair::from_seed([seed; 32]))] *)
Definition aux_key_pairs (n : usize) : list VerifierKeyPair :=
  (fun seed => VerifierKeyPair_from_seed (array_repeat 32 (byte (Z.of_nat seed)))) <$> seq 1 (Z.to_nat (uval n mod 256)).

(** Secrets collected into a map: each verifier's is its identifier. *)
Definition harness_secrets (ids : list VerifierId) : gmap VerifierId (array 32) :=
  foldl (fun m id => <[id := as_bytes id]> m) ∅ ids.

(** The error is the message of a panic. *)
Definition TestHarness_new (config : TestHarnessConfig) : result string TestHarness :=
  _ ← ensure "max 254 aux verifiers" (uval (num_aux_verifiers config) <=? 254);
  let coordinator_kp := VerifierKeyPair_from_seed (array_repeat 32 (byte 0)) in
  let aux_kps := aux_key_pairs (num_aux_verifiers config) in
  let aux_ids := kp_verifier_id <$> aux_kps in
  quorum ← map_err (fun _ => "invalid quorum in test harness config") (QuorumSpec_new aux_ids (tc_threshold config));
  Ok {| th_config := {| cc_coordinator_id := kp_verifier_id coordinator_kp; cc_epoch := Epoch_GENESIS; cc_quorum := quorum;
          cc_default_ttl_secs := tc_ttl_secs config;
          cc_verifier_public_keys := (fun kp => (kp_verifier_id kp, kp_verifying_key kp)) <$> aux_kps |};
        th_store := InMemorySessionStore_new;
        th_dvrf := MkPrototypeDvrf (harness_secrets aux_ids);
        aux_nodes := (fun kp => AuxiliaryVerifierNode_new (PrototypeThresholdSigner kp) VerificationPolicy_permissive) <$> aux_kps;
        th_quorum := quorum |}.

Definition aux_signers (self : TestHarness) : list ThresholdSigner := node_as_signer <$> aux_nodes self.
Definition coordinator_quorum_verifiers (self : TestHarness) : list VerifierId := verifiers (th_quorum self).

(** *** It attests *)

Lemma harness_secret ids v : v ∈ ids -> is_Some (harness_secrets ids !! v).
Proof.
  unfold harness_secrets. set (step := fun (m : gmap VerifierId (array 32)) id => _).
  assert (Hkeep : forall l m, is_Some (m !! v) -> is_Some (foldl step m l !! v)).
  { induction l as [|w l IH]; intros m Hm; [done|]. apply IH. unfold step. destruct (decide (w = v)) as [->|Hne].
    - rewrite lookup_insert_eq. eauto.
    - by rewrite lookup_insert_ne. }
  generalize (∅ : gmap VerifierId (array 32)) as m. induction ids as [|w ids IH]; intros m Hv; [by apply elem_of_nil in Hv|].
  apply elem_of_cons in Hv as [->|Hv]; [|by apply IH]. cbn [foldl]. apply Hkeep. unfold step. rewrite lookup_insert_eq. eauto.
Qed.

Lemma find_registered kps kp : NoDup (kp_verifier_id <$> kps) -> kp ∈ kps ->
  find_key ((fun kp => (kp_verifier_id kp, kp_verifying_key kp)) <$> kps) (kp_verifier_id kp) = Some (kp_verifying_key kp).
Proof.
  unfold find_key. induction kps as [|q kps IH]; intros Hnd Hin; [by apply elem_of_nil in Hin|].
  rewrite fmap_cons in Hnd. apply NoDup_cons in Hnd as [Hq Hnd]. cbn [fmap list_fmap List.find fst].
  apply elem_of_cons in Hin as [->|Hin]; [by rewrite bool_decide_eq_true_2|].
  rewrite bool_decide_eq_false_2; [by apply IH|]. intros Heq. apply Hq. rewrite Heq. by apply list_elem_of_fmap_2.
Qed.

#[local] Existing Instance PrototypeAttestationEngine.

(** The harness works: when it can be built and no two of its keys have the same
    identifier, attestation by all of its nodes succeeds, for every request, and
    finalizes the session with the approvals of exactly its quorum. *)
Theorem harness_attests config h fresh request response :
  TestHarness_new config = Ok h -> NoDup (coordinator_quorum_verifiers h) ->
  exists s' envelope,
    attest (R:=PrototypeDvrf_engine (th_dvrf h)) (th_config h) fresh request response (aux_signers h) (th_store h)
      = (s', Ok (Success envelope)) /\
    mem_rel s' (with_session (th_config h) fresh request ∅ Finalized (list_to_set (coordinator_quorum_verifiers h))).
Proof.
  intros Hnew Hnd. unfold TestHarness_new in Hnew. apply bind_Ok in Hnew as (_ & _ & (q & Hq%map_err_Ok & [= <-])%bind_Ok).
  set (kps := aux_key_pairs (num_aux_verifiers config)) in *. unfold QuorumSpec_new in Hq.
  destruct (Nat.eqb_spec (length (kp_verifier_id <$> kps)) 0) as [|Hne]; [done|]. destruct (Z.eqb_spec (uval (tc_threshold config)) 0); [done|].
  destruct (Z.ltb_spec (Z.of_nat (length (kp_verifier_id <$> kps))) (uval (tc_threshold config))); [done|]. injection Hq as <-.
  unfold coordinator_quorum_verifiers in *. cbn [th_config th_store th_dvrf aux_nodes th_quorum verifiers] in *.
  set (cc := MkCoordinatorConfig _ _ _ _ _).
  destruct (dvrf_generate_total (MkPrototypeDvrf (harness_secrets (kp_verifier_id <$> kps))) (fresh_randomness_id fresh)
    (fresh_session_id fresh) (fresh_nonce fresh) Epoch_GENESIS (kp_verifier_id <$> kps)) as [ro Hro].
  { by destruct (kp_verifier_id <$> kps). } { apply harness_secret. }
  assert (Hsig : aux_signers {| th_config := cc; th_store := InMemorySessionStore_new;
    th_dvrf := MkPrototypeDvrf (harness_secrets (kp_verifier_id <$> kps));
    aux_nodes := (fun kp => AuxiliaryVerifierNode_new (PrototypeThresholdSigner kp) VerificationPolicy_permissive) <$> kps;
    th_quorum := {| verifiers := kp_verifier_id <$> kps; threshold := tc_threshold config |} |} = PrototypeThresholdSigner <$> kps).
  { unfold aux_signers. cbn [aux_nodes]. by rewrite <- list_fmap_compose. }
  rewrite Hsig. eapply (attest_honest_succeeds (Spec:=MemStoreSpec) (R:=PrototypeDvrf_engine (MkPrototypeDvrf (harness_secrets (kp_verifier_id <$> kps)))) cc fresh request response InMemorySessionStore_new ∅ kps ro);
    [exact mem_rel_new|done|exact Hro|reflexivity|done| |].
  - apply Forall_forall. intros kp Hkp. by apply find_registered.
  - unfold is_satisfied_by. cbn [cc cc_quorum verifiers threshold]. rewrite filter_id; [by apply Z.leb_le|].
    intros v Hv. unfold contains. by apply bool_decide_eq_true.
Qed.
End Harness.

(** ** A signature for the contract's tests *)

(** What the program uses of [k256] besides [K256]. Scalars are a field and points a
    group of which the multiples of the generator are a homomorphic image; the
    identity is the only point without affine coordinates; a point and its opposite
    have the same first coordinate and second coordinates of different parity, since
    these add up to the odd prime of the field. *)
Class K256Arithmetic {K : K256} := {
  scalar_zero : Scalar;
  scalar_add : Scalar -> Scalar -> Scalar;
  scalar_mul : Scalar -> Scalar -> Scalar;
  scalar_neg : Scalar -> Scalar;
  scalar_to_bytes : Scalar -> array 32;
  reduce_bytes : array 32 -> Scalar;
  point_add : Point -> Point -> Point;
  point_neg : Point -> Point;
  affine : Point -> option (array 32 * array 32);
  scalar_mul_comm a b : scalar_mul a b = scalar_mul b a;
  scalar_bytes_roundtrip a : scalar_from_repr (scalar_to_bytes a) = Some a;
  generator_add a b : mul_by_generator (scalar_add a b) = point_add (mul_by_generator a) (mul_by_generator b);
  generator_mul a b : mul_by_generator (scalar_mul a b) = point_mul (mul_by_generator a) b;
  generator_neg a : mul_by_generator (scalar_neg a) = point_neg (mul_by_generator a);
  generator_affine a : a <> scalar_zero -> is_Some (affine (mul_by_generator a));
  affine_neg P x y : affine P = Some (x, y) ->
    exists y', affine (point_neg P) = Some (x, y') /\ Z.odd (be_val (arr y')) = negb (Z.odd (be_val (arr y)))
}.

(** The constants printed, and the challenge. *)
Record TestVectors := MkTestVectors {
  MSG_HASH : array 32;
  PK_X : array 32;
  PK_Y : array 32;
  SIG_R_X : array 32;
  SIG_S : array 32;
  tv_e : array 32
}.

Section TestVectors.
Context {Hs : Sha256} {Kk : Keccak256} {K : K256} {A : K256Arithmetic}.

(** The two coordinates of an uncompressed point: [x().unwrap()], [y().unwrap()]. *)
Definition uncompressed (P : Point) : result string (array 32 * array 32) :=
  ok_or "called `Option::unwrap()` on a `None` value" (affine P).

(** [r_y_bytes[31] & 1 == 1] *)
Definition y_is_odd (y : array 32) : bool := Z.land (uval (byte_at 31 (arr y))) 1 =? 1.

(** [main]: [sk] and [k] are the scalars drawn; the error is the message of a panic. *)
Definition gen_test_vectors (sk k : Scalar) : result string TestVectors :=
  let msg_bytes := sha256_digest (string_bytes "test attestation for dx-DCTLS") in
  pk ← uncompressed (mul_by_generator sk);
  r ← uncompressed (mul_by_generator k);
  let r_y_odd := y_is_odd r.2 in
  let k_final := if r_y_odd then scalar_neg k else k in
  let hash_bytes := keccak256 (arr r.1 ++ arr pk.1 ++ arr msg_bytes) in
  let e := reduce_bytes hash_bytes in
  let sig_s := scalar_add k_final (scalar_mul e sk) in
  Ok {| MSG_HASH := msg_bytes; PK_X := pk.1; PK_Y := pk.2; SIG_R_X := r.1; SIG_S := scalar_to_bytes sig_s;
        tv_e := scalar_to_bytes e |}.

Lemma y_is_odd_spec y : y_is_odd y = Z.odd (be_val (arr y)).
Proof.
  unfold y_is_odd, byte_at. pose proof (length_arr y) as Hl.
  generalize dependent (arr y). intros l0 Hl. destruct l0 as [|b l _] using rev_ind; [done|].
  rewrite length_app in Hl. cbn in Hl. rewrite lookup_app_r by lia. replace (31 - length l)%nat with 0%nat by lia.
  cbn [lookup list_lookup default from_option]. unfold be_val. rewrite fold_left_app. cbn [fold_left].
  change 1 with (Z.ones 1) at 1. rewrite Z.land_ones by lia. change (2 ^ 1) with 2.
  rewrite Z.odd_add, Z.odd_mul, andb_false_r, xorb_false_l, Zmod_odd. unfold id. by destruct (Z.odd (uval b)).
Qed.

(** For nonzero scalars the program prints a key and a Schnorr signature [(R_x, s)]
    on its message: [s·G = R + e·PK] for the point [R] with first coordinate
    [SIG_R_X] and even second coordinate, where [PK] is the point printed and [e]
    the digest of [R_x], [PK_X] and the message, reduced. *)
Theorem test_vectors_verify sk k : sk <> scalar_zero -> k <> scalar_zero ->
  exists v PK R R_y s e,
    gen_test_vectors sk k = Ok v /\ affine PK = Some (PK_X v, PK_Y v) /\ affine R = Some (SIG_R_X v, R_y) /\
    Z.even (be_val (arr R_y)) = true /\ scalar_from_repr (SIG_S v) = Some s /\ scalar_from_repr (tv_e v) = Some e /\
    e = reduce_bytes (keccak256 (arr (SIG_R_X v) ++ arr (PK_X v) ++ arr (MSG_HASH v))) /\
    mul_by_generator s = point_add R (point_mul PK e).
Proof using A.
  intros [[px py] Hpk]%generator_affine [[rx ry] Hr]%generator_affine. unfold gen_test_vectors, uncompressed.
  rewrite Hpk, Hr. cbn [ok_or mbind result_bind fst snd]. rewrite y_is_odd_spec.
  set (e := reduce_bytes _). set (kf := if Z.odd _ then _ else _).
  assert (exists R_y, affine (mul_by_generator kf) = Some (rx, R_y) /\ Z.even (be_val (arr R_y)) = true) as (R_y & HR & Hev).
  { unfold kf. destruct (Z.odd (be_val (arr ry))) eqn:Hodd.
    - destruct (affine_neg _ _ _ Hr) as (y' & Hy' & Hp). exists y'. rewrite generator_neg.
      split; [done|]. by rewrite <- Z.negb_odd, Hp, Hodd.
    - exists ry. by rewrite <- Z.negb_odd, Hodd. }
  do 2 eexists. exists (mul_by_generator kf), R_y. do 2 eexists.
  split; [reflexivity|]. cbn [PK_X PK_Y SIG_R_X SIG_S tv_e MSG_HASH]. split; [exact Hpk|]. split; [exact HR|]. split; [exact Hev|].
  split; [apply scalar_bytes_roundtrip|]. split; [apply scalar_bytes_roundtrip|]. split; [done|].
  by rewrite generator_add, (scalar_mul_comm e sk), generator_mul.
Qed.
End TestVectors.

(** *** A small curve *)

(** A group of five elements with a generator, in which the opposite elements [P]
    and [5 - P] have different parity. *)
Inductive F5 := F5_0 | F5_1 | F5_2 | F5_3 | F5_4.
Definition F5_Z (a : F5) : Z := match a with F5_0 => 0 | F5_1 => 1 | F5_2 => 2 | F5_3 => 3 | F5_4 => 4 end.
Definition F5_of (z : Z) : F5 :=
  match z mod 5 with 1 => F5_1 | 2 => F5_2 | 3 => F5_3 | 4 => F5_4 | _ => F5_0 end.
Definition word32 (z : Z) : array 32 := to_array 32 (be_bytes 32 z).

Definition toy_k256 : K256 :=
  {| Scalar := F5; Point := F5;
     scalar_from_repr b := if be_val (arr b) <? 5 then Some (F5_of (be_val (arr b))) else None;
     point_from_bytes b := Some (F5_of (be_val (arr b)));
     point_to_bytes P := be_bytes 33 (F5_Z P);
     mul_by_generator a := a;
     point_mul P a := F5_of (F5_Z P * F5_Z a);
     point_sub P Q := F5_of (F5_Z P - F5_Z Q) |}.

Definition toy_affine (P : F5) : option (array 32 * array 32) :=
  match P with F5_0 => None | _ => Some (word32 (Z.min (F5_Z P) (5 - F5_Z P)), word32 (F5_Z P)) end.

Definition toy_k256_arithmetic : K256Arithmetic (K:=toy_k256).
Proof.
  refine {| scalar_zero := F5_0 : Scalar (K256:=toy_k256); scalar_add a b := F5_of (F5_Z a + F5_Z b); scalar_mul a b := F5_of (F5_Z a * F5_Z b);
            scalar_neg a := F5_of (- F5_Z a); scalar_to_bytes a := word32 (F5_Z a);
            reduce_bytes b := F5_of (be_val (arr b)); point_add P Q := F5_of (F5_Z P + F5_Z Q);
            point_neg P := F5_of (- F5_Z P); affine := toy_affine : Point (K256:=toy_k256) -> _ |}.
  - by intros [] [].
  - by intros [].
  - by intros [] [].
  - by intros [] [].
  - by intros [].
  - intros [] Ha; [done|by eexists..].
  - intros [] x y Hxy; [done|injection Hxy as <- <-; eexists; split; reflexivity..].
Defined.

(** With secret 2 and nonce 3, whose point has an odd second coordinate: the nonce
    is negated. *)
Example test_vectors_toy : exists v,
  gen_test_vectors (Hs:=toy_sha256) (Kk:=fun b => word32 (be_val b)) (K:=toy_k256) (A:=toy_k256_arithmetic) F5_2 F5_3 = Ok v /\
  SIG_R_X v = word32 2 /\ PK_X v = word32 2 /\ y_is_odd (word32 3) = true.
Proof. eexists. split; [reflexivity|]. by vm_compute. Qed.
