(* ===== verification/Requests.v ===== *)
(** * Concurrent requests to the coordinator

    Models the accept loop of [node/src/bin/coordinator.rs]: every connection is
    handled by [handle_request] in a thread of its own, and the threads share the
    session store and the transports to the nodes.

    A thread is a program of type [prog], a finite tree of actions: one operation of
    the store or one call to a node. The binary uses the in-memory store, which
    executes every operation under its locks, but [record_approval] in two critical
    sections; since the other threads work on other sessions, these act as one
    operation ([Storage.approval_two_sections]). What happens between two actions is
    local to the thread. An
    execution is a sequence of events, in any order: a connection is accepted, or a
    thread performs its next action. Run without interruption the program of a
    request is [handle_request] ([handle_prog_exec]).

    Session identifiers are drawn at random by every request; that those of one
    execution are distinct is a hypothesis on the events. *)

From S2P Require Import Prelude Core Session Storage Attestation Threshold Randomness Registry Dctls Network Errors.
From S2P Require Import Sha256Gadget HmacGadget CoSnark Frost FrostAux DkgCeremony Coordinator NodeTransport Json Os Http Ceremony CoordinatorMain Deployment.

(** ** Programs *)

Section Programs.
Context {T : Type}.

Inductive action :=
  | AInsert (ss : Session)
  | AUpdate (id : SessionId) (st : SessionState)
  | AApprove (id : SessionId) (v : VerifierId)
  | ARound1 (t : T) (req : FrostRound1Request) (now : UnixTimestamp)
  | ARound2 (t : T) (req : FrostRound2Request).

Definition reply (a : action) : Type :=
  match a with
  | AInsert _ | AUpdate _ _ | AApprove _ _ => result StorageError unit
  | ARound1 _ _ _ => result NodeError FrostRound1Response
  | ARound2 _ _ => result NodeError FrostRound2Response
  end.

Inductive prog (B : Type) : Type :=
  | PDone (b : B)
  | PAct (a : action) (k : reply a -> prog B).
#[global] Arguments PDone {B} b.
#[global] Arguments PAct {B} a k.

Fixpoint pbind {B C} (p : prog B) (k : B -> prog C) : prog C :=
  match p with
  | PDone b => k b
  | PAct a k' => PAct a (fun r => pbind (k' r) k)
  end.

(** The operator [?]. *)
Definition ptry {E B C} (p : prog (result E B)) (k : B -> prog (result E C)) : prog (result E C) :=
  pbind p (fun r => match r with Ok b => k b | Err e => PDone (Err e) end).
End Programs.
Arguments action : clear implicits.
Arguments prog : clear implicits.

Declare Scope prog_scope.
Notation "x <-? p ;; k" := (ptry p (fun x => k)) (at level 60, p at next level, right associativity) : prog_scope.
Notation "p ;;? k" := (ptry p (fun _ => k)) (at level 60, right associativity) : prog_scope.

(** ** The program of a request *)

Section Requests.
Context {Hs : Sha256} {Ed : Ed25519} {R : RandomnessEngine} {A : AttestationEngine} {Fr : FrostEd25519}.
Context {T : Type} (tid : T -> VerifierId).
Context (config : CoordinatorConfig).
Local Open Scope prog_scope.
Abbreviation fallible B := (prog T (result NodeError B)).

Definition p_insert (ss : Session) : fallible unit := PAct (AInsert ss) (fun r => PDone (map_err NodeStorage r)).
Definition p_update (id : SessionId) (st : SessionState) : fallible unit :=
  PAct (AUpdate id st) (fun r => PDone (map_err NodeStorage r)).
Definition p_approve (id : SessionId) (v : VerifierId) : fallible unit :=
  PAct (AApprove id v) (fun r => PDone (map_err NodeStorage r)).
Definition p_round1 (req : FrostRound1Request) (now : UnixTimestamp) (t : T) : fallible FrostRound1Response :=
  PAct (ARound1 t req now) PDone.
Definition p_round2 (req : FrostRound2Request) (t : T) : fallible FrostRound2Response := PAct (ARound2 t req) PDone.

Definition p_advance (sid : SessionId) (session : Session) (next : SessionState) : fallible Session :=
  let '(session', r) := transition session next in
  PDone (map_err NodeAttestation r) ;;? p_update sid next ;;? PDone (Ok session').

Definition p_prepare (fresh : Fresh) (request : AttestationRequest) (response : bytes) : fallible PreparedSession :=
  let sid := fresh_session_id fresh in
  let session_ctx := session_context_of config fresh request in
  let session := Session_new session_ctx in
  p_insert session ;;?
  session <-? p_advance sid session Active ;;
  ro <-? PDone (map_err NodeCrypto (generate (fresh_randomness_id fresh) sid (fresh_nonce fresh) (cc_epoch config)
                                      (verifiers (cc_quorum config)))) ;;
  session <-? p_advance sid session Attesting ;;
  te <-? PDone (map_err NodeAttestation (execute session_ctx (ro_value ro) (rq_query request) response)) ;;
  PDone (Ok (assemble_prepared config fresh request response session ro te.1 te.2)).

Definition p_fail {B} (sid : SessionId) (reason : string) (e : NodeError) : fallible B :=
  p_update sid (Failed reason) ;;? PDone (Err e).

Definition p_check_count (sid : SessionId) (what : string) (n : nat) : fallible unit :=
  let required := uval (threshold (cc_quorum config)) in
  if Z.of_nat n <? required then
    p_fail sid ("insufficient " +:+ what +:+ ": need " +:+ pretty required +:+ ", got " +:+ pretty (Z.of_nat n))
      (QuorumNotMet (Z.of_nat n) required)
  else PDone (Ok tt).

Fixpoint p_run_round {B C} (sid : SessionId) (round : string) (call : T -> fallible B) (f : B -> C)
    (transports : list T) (acc : list C) : fallible (list C) :=
  match transports with
  | [] => PDone (Ok acc)
  | t :: rest => pbind (call t) (fun r =>
      match r with
      | Ok resp => p_run_round sid round call f rest (acc ++ [f resp])
      | Err e => p_fail sid (round +:+ " failed for verifier " +:+ VerifierId_to_string (tid t) +:+ ": " +:+ NodeError_to_string e) e
      end)
  end.

Fixpoint p_for {B} (l : list B) (f : B -> fallible unit) : fallible unit :=
  match l with
  | [] => PDone (Ok tt)
  | x :: l' => f x ;;? p_for l' f
  end.

Definition p_attest (fresh : Fresh) (request : AttestationRequest) (response : bytes) (transports : list T)
    (group_key : FrostGroupKey) : fallible FrostAttestationEnvelope :=
  p <-? p_prepare fresh request response ;;
  session <-? p_advance (ps_session_id p) (ps_session p) Collecting ;;
  p_check_count (ps_session_id p) "transports" (length transports) ;;?
  let signer_set := tid <$> transports in
  let round1_req := {| f1_session_id := ps_session_id p; f1_coordinator_id := cc_coordinator_id config;
    f1_signed_digest := ps_signed_digest p; f1_envelope_digest := ps_envelope_digest p;
    f1_signer_set := signer_set; f1_round_expires_at := ps_expires_at p; f1_registry_epoch := RegistryEpoch_GENESIS;
    f1_hsp_proof_bytes := []; f1_hsp_pvk_bytes := []; f1_dctls_evidence_bytes := [];
    f1_rand_value_bytes := []; f1_server_cert_hash_bytes := [] |} in
  round1_responses <-? p_run_round (ps_session_id p) "round-1" (p_round1 round1_req (ps_now p)) id transports [] ;;
  pkg <-? PDone (assemble_signing_package_from_responses round1_responses (ps_signed_digest p) group_key) ;;
  let round2_req := {| f2_session_id := ps_session_id p; f2_coordinator_id := cc_coordinator_id config;
    f2_signing_package_bytes := pkg.2; f2_signer_set := signer_set |} in
  share_entries <-? p_run_round (ps_session_id p) "round-2" (p_round2 round2_req)
                      (fun resp => (f2r_verifier_id resp, f2r_signature_share_bytes resp)) transports [] ;;
  frost_approval <-? PDone (map_err NodeCrypto
    (aggregate_signature_shares pkg.1 share_entries group_key (ps_signed_digest p))) ;;
  p_for signer_set (p_approve (ps_session_id p)) ;;?
  p_advance (ps_session_id p) session Finalized ;;?
  PDone (Ok (frost_envelope p frost_approval)).
End Requests.

Section Handler.
Context {Hs : Sha256} {Ed : Ed25519} {R : RandomnessEngine} {Fr : FrostEd25519}.
Context {T : Type} (tid : T -> VerifierId).
Context {Jq : SerdeJson AttestationRequest} {Je : SerdeJson FrostAttestationEnvelope}.
Context (config : CoordinatorConfig) (transports : list T) (group_key : FrostGroupKey).
#[local] Existing Instance PrototypeAttestationEngine.

(** What is written to the connection. *)
Definition handle_prog (fresh : Fresh) (conn : stream) : prog T (option bytes) :=
  match read_http_body conn with
  | None => PDone None
  | Some (_, Err e) => PDone (Some (send_json_response 500 (error_json ("read body: " +:+ e))))
  | Some (_, Ok body) =>
      match json_from_slice body with
      | Err e => PDone (Some (send_json_response 400 (error_json ("bad request: " +:+ e))))
      | Ok request =>
          pbind (p_attest tid config fresh request [] transports group_key) (fun r => PDone (Some
            match r with
            | Ok envelope =>
                match json_to_vec envelope with
                | Ok json => send_json_response 200 json
                | Err e => send_json_response 500 (error_json ("serialize: " +:+ e))
                end
            | Err e => send_json_response 500 (error_json (NodeError_to_string e))
            end))
      end
  end.

(** ** The process *)

(** A thread, with the number of its turns so far. *)
Record thread := MkThread {
  th_fresh : Fresh;
  th_conn : stream;
  th_turns : nat;
  th_prog : prog T (option bytes)
}.

Context `{St_ops : SessionStore St} {NS : Type} {Tr : FrostNodeTransport T NS}.

Definition run_action (a : action T) : St * NS -> (St * NS) * reply a :=
  match a with
  | AInsert ss => fun w => let '(s, r) := insert ss w.1 in ((s, w.2), r)
  | AUpdate id st => fun w => let '(s, r) := update_state id st w.1 in ((s, w.2), r)
  | AApprove id v => fun w => let '(s, r) := record_approval id v w.1 in ((s, w.2), r)
  | ARound1 t req now => fun w => let '(n, r) := t_frost_round1 t req now w.2 in ((w.1, n), r)
  | ARound2 t req => fun w => let '(n, r) := t_frost_round2 t req w.2 in ((w.1, n), r)
  end.

(** Without interruption. *)
Fixpoint exec {B} (p : prog T B) (w : St * NS) : (St * NS) * B :=
  match p with
  | PDone b => (w, b)
  | PAct a k => let '(w', r) := run_action a w in exec (k r) w'
  end.

Definition step_prog {B} (p : prog T B) (w : St * NS) : (St * NS) * prog T B :=
  match p with
  | PDone b => (w, PDone b)
  | PAct a k => let '(w', r) := run_action a w in (w', k r)
  end.

Record pool := MkPool { pl_shared : St * NS; pl_threads : list thread }.

(** What [incoming] returns, with the values the request will draw, or a turn. *)
Inductive event :=
  | Accept (result : result string stream) (fresh : Fresh)
  | Turn (i : nat).

Definition pool_event (e : event) (pl : pool) : pool :=
  match e with
  | Accept (Ok conn) fresh => MkPool (pl_shared pl) (pl_threads pl ++ [MkThread fresh conn 0 (handle_prog fresh conn)])
  | Accept (Err _) _ => pl
  | Turn i =>
      match pl_threads pl !! i with
      | None => pl
      | Some th =>
          let '(w, p) := step_prog (th_prog th) (pl_shared pl) in
          MkPool w (<[i := MkThread (th_fresh th) (th_conn th) (S (th_turns th)) p]> (pl_threads pl))
      end
  end.

Definition run_pool (es : list event) (pl : pool) : pool := foldl (fun pl e => pool_event e pl) pl es.

Definition accepted (es : list event) : list Fresh :=
  omap (fun e => match e with Accept (Ok _) fresh => Some fresh | _ => None end) es.
End Handler.
Arguments thread : clear implicits.
Arguments pool : clear implicits.

(** ** Uninterrupted programs are the functions of the coordinator *)

(** The identifier of a transport does not change, as for those that hold it in a
    field of their own. *)
Class FixedIds {T : Type} (tid : T -> VerifierId) (NS : Type) {Tr : FrostNodeTransport T NS} :=
  fixed_ids t ns : t_verifier_id t ns = tid t.

#[export] Instance tcp_fixed_ids {NS} {Jr : SerdeJson NodeRequest} {Jp : SerdeJson NodeResponse} (net : SocketAddr -> Channel NS) :
  FixedIds (Tr:=tcp_transport net) tn_verifier_id NS.
Proof. by intros t ns. Qed.

Section Uninterrupted.
Context {Hs : Sha256} {Ed : Ed25519} {R : RandomnessEngine} {Fr : FrostEd25519}.
Context {T : Type} (tid : T -> VerifierId).
Context `{St_ops : SessionStore St} {NS : Type} {Tr : FrostNodeTransport T NS} {Fi : FixedIds tid NS}.
Context (config : CoordinatorConfig).

Lemma exec_bind {B C} (p : prog T B) (k : B -> prog T C) (w : St * NS) :
  exec (pbind p k) w = let '(w', b) := exec p w in exec (k b) w'.
Proof. revert w. induction p as [b|a k' IH]; intros w; [done|]. cbn [pbind exec]. destruct (run_action a w). apply IH. Qed.

(** The program [p] behaves as the function [f]. *)
Definition implements {B} (p : prog T (result NodeError B)) (f : stres (St * NS) NodeError B) : Prop := forall w, exec p w = f w.

Lemma impl_done {B} (r : result NodeError B) : implements (PDone r) (slift r).
Proof. done. Qed.
Lemma impl_try {B C} p (f : stres (St * NS) NodeError B) k (g : B -> stres (St * NS) NodeError C) :
  implements p f -> (forall b, implements (k b) (g b)) -> implements (ptry p k) (sbind f g).
Proof.
  intros Hp Hk w. unfold ptry, sbind. rewrite exec_bind, Hp. destruct (f w) as [w' [b|e]]; [apply Hk|done].
Qed.
Lemma impl_store_try {B C} p (f : stres St NodeError B) k (g : B -> stres St NodeError C) :
  implements p (on_store f) -> (forall b, implements (k b) (on_store (g b))) -> implements (ptry p k) (on_store (sbind f g)).
Proof.
  intros Hp Hk w. unfold ptry. rewrite exec_bind, Hp. unfold on_store at 1 2, sbind. destruct (f w.1) as [s [b|e]]; [|done].
  rewrite Hk. done.
Qed.
Lemma impl_store_done {B} (r : result NodeError B) : implements (PDone r) (on_store (slift r)).
Proof. by intros []. Qed.

Lemma impl_insert ss : implements (p_insert ss) (on_store (store_call (insert ss))).
Proof. intros w. unfold on_store, store_call, smap_err. cbn. by destruct (insert ss w.1). Qed.
Lemma impl_update id st : implements (p_update id st) (on_store (store_call (update_state id st))).
Proof. intros w. unfold on_store, store_call, smap_err. cbn. by destruct (update_state id st w.1). Qed.
Lemma impl_approve id v : implements (p_approve id v) (on_store (store_call (record_approval id v))).
Proof. intros w. unfold on_store, store_call, smap_err. cbn. by destruct (record_approval id v w.1). Qed.

Lemma impl_advance sid session next : implements (p_advance sid session next) (on_store (advance sid session next)).
Proof.
  unfold p_advance, advance. destruct (transition session next) as [session' r].
  apply impl_store_try; [apply impl_store_done|]. intros []. apply impl_store_try; [apply impl_update|]. intros []. apply impl_store_done.
Qed.

Lemma impl_prepare `{A : AttestationEngine} fresh request response :
  implements (p_prepare config fresh request response) (on_store (prepare_session config fresh request response)).
Proof.
  unfold p_prepare, prepare_session. apply impl_store_try; [apply impl_insert|]. intros [].
  apply impl_store_try; [apply impl_advance|]. intros s1. apply impl_store_try; [apply impl_store_done|]. intros ro.
  apply impl_store_try; [apply impl_advance|]. intros s2. apply impl_store_try; [apply impl_store_done|]. intros te. apply impl_store_done.
Qed.

Lemma impl_fail {B} sid reason e : implements (p_fail (B:=B) sid reason e) (on_store (fail_session sid reason e)).
Proof. apply impl_store_try; [apply impl_update|]. intros []. apply impl_store_done. Qed.

Lemma impl_check_count sid what n : implements (p_check_count config sid what n) (on_store (check_count config sid what n)).
Proof. unfold p_check_count, check_count. destruct (_ <? _); [apply impl_fail|apply impl_store_done]. Qed.

Lemma impl_run_round {B C} sid round (call : T -> prog T (result NodeError B)) (call' : T -> stres NS NodeError B) (f : B -> C) ts acc :
  (forall t w, exec (call t) w = let '(n, r) := call' t w.2 in ((w.1, n), r)) ->
  implements (p_run_round tid sid round call f ts acc) (run_round sid round call' f ts acc).
Proof using Fi.
  intros Hcall. revert acc. induction ts as [|t ts IH]; intros acc w; [done|]. cbn [p_run_round run_round].
  rewrite exec_bind, Hcall. destruct (call' t w.2) as [n [resp|e]]; [apply IH|]. rewrite impl_fail, fixed_ids. done.
Qed.

Lemma impl_for {B} (l : list B) f g : (forall x, implements (f x) (on_store (g x))) -> implements (p_for l f) (on_store (sfor l g)).
Proof.
  intros Hf. induction l as [|x l IH]; [apply impl_store_done|]. apply impl_store_try; [apply Hf|]. intros []. apply IH.
Qed.

Lemma impl_attest `{A : AttestationEngine} fresh request response ts gk :
  implements (p_attest tid config fresh request response ts gk)
    (attest_frost_distributed_over_transport config fresh request response ts gk).
Proof using Fi.
  unfold p_attest, attest_frost_distributed_over_transport, attest_distributed.
  apply impl_try; [apply impl_prepare|]. intros p. apply impl_try; [apply impl_advance|]. intros session.
  apply impl_try; [apply impl_check_count|]. intros [] w. unfold sbind at 1.
  replace ((fun t => t_verifier_id t w.2) <$> ts) with (tid <$> ts) by (apply list_fmap_ext; intros; by rewrite fixed_ids).
  revert w. apply impl_try; [apply impl_run_round; intros t w; cbn; by destruct (t_frost_round1 _ _ _ _)|]. intros resps. apply impl_try; [apply impl_done|]. intros pkg.
  apply impl_try; [apply impl_run_round; intros t w; cbn; by destruct (t_frost_round2 _ _ _)|]. intros shares. apply impl_try; [apply impl_done|]. intros ap.
  apply impl_try; [apply impl_for; intros; apply impl_approve|]. intros []. apply impl_try; [apply impl_advance|].
  intros s'. apply impl_done.
Qed.

Context {Jq : SerdeJson AttestationRequest} {Je : SerdeJson FrostAttestationEnvelope}.

Lemma handle_prog_exec fresh ts gk conn (w : St * NS) :
  handle_request config fresh ts gk conn w
  = let '(w', out) := exec (handle_prog tid config ts gk fresh conn) w in (fun b => (w', b)) <$> out.
Proof using Fi.
  unfold handle_request, handle_prog. destruct (read_http_body_total conn) as [[s1 [body|e]] ->]; [|done].
  destruct (json_from_slice body) as [request|e]; [|done]. rewrite exec_bind, impl_attest.
  destruct (attest_frost_distributed_over_transport _ _ _ _ _ _ _) as [w' [e|e]]; done.
Qed.
End Uninterrupted.

(** ** One session per request, and a bounded number of actions *)

Section Bounds.
Context {T : Type} (sid : SessionId).

Definition own_action (a : action T) : Prop :=
  match a with
  | AInsert ss => session_id (context ss) = sid
  | AUpdate id _ | AApprove id _ => id = sid
  | ARound1 _ _ _ | ARound2 _ _ => True
  end.

(** Whatever the replies: [p] only uses the session [sid], ends after at most [n]
    actions, and its result satisfies [Q] with the number of actions left. *)
Fixpoint psafe {B} (n : nat) (p : prog T B) (Q : nat -> B -> Prop) {struct p} : Prop :=
  match p with
  | PDone b => Q n b
  | PAct a k => match n with O => False | S n' => own_action a /\ forall r, psafe n' (k r) Q end
  end.

Lemma psafe_bind {B C} n (p : prog T B) (k : B -> prog T C) Q :
  psafe n p (fun n' b => psafe n' (k b) Q) -> psafe n (pbind p k) Q.
Proof.
  revert n. induction p as [b|a k' IH]; intros n; [done|]. destruct n as [|n]; [by intros []|]. cbn [pbind psafe].
  intros [Ha Hk]. split; [done|]. intros r. by apply IH.
Qed.

Lemma psafe_mono {B} n (p : prog T B) (Q Q' : nat -> B -> Prop) :
  (forall n' b, Q n' b -> Q' n' b) -> psafe n p Q -> psafe n p Q'.
Proof.
  intros HQ. revert n. induction p as [b|a k IH]; intros n; [apply HQ|]. destruct n as [|n]; [by intros []|]. cbn [psafe].
  intros [Ha Hk]. split; [done|]. intros r. by apply IH.
Qed.

(** Success leaves [m] actions and a value with [P]. *)
Definition left_with {B} (m : nat) (P : B -> Prop) (n : nat) (r : result NodeError B) : Prop :=
  match r with Ok b => n = m /\ P b | Err _ => True end.
Abbreviation leaves m := (left_with m (fun _ => True)).

Lemma psafe_try {B C} n m (p : prog T (result NodeError B)) (k : B -> prog T (result NodeError C)) P (Q : nat -> result NodeError C -> Prop) :
  psafe n p (left_with m P) -> (forall b, P b -> psafe m (k b) Q) -> (forall n' e, Q n' (Err e)) -> psafe n (ptry p k) Q.
Proof.
  intros Hp Hk Herr. apply psafe_bind. eapply psafe_mono; [|exact Hp]. intros n' [b|e]; cbn; [|done]. intros [-> HP]. by apply Hk.
Qed.
End Bounds.
#[global] Arguments left_with {B} m P n r /.
Abbreviation leaves m := (left_with m (fun _ => True)).

Section AttestBound.
Context {Hs : Sha256} {Ed : Ed25519} {R : RandomnessEngine} {Fr : FrostEd25519}.
Context {T : Type} (tid : T -> VerifierId).
Context (config : CoordinatorConfig) (fresh : Fresh).
Abbreviation sid := (fresh_session_id fresh).

Lemma safe_update n st : psafe (T:=T) sid (S n) (p_update sid st) (leaves n).
Proof. cbn. split; [done|]. by intros [[]|e]. Qed.
Lemma safe_approve n v : psafe (T:=T) sid (S n) (p_approve sid v) (leaves n).
Proof. cbn. split; [done|]. by intros [[]|e]. Qed.
Lemma safe_done {B} n (r : result NodeError B) : psafe (T:=T) sid n (PDone r) (leaves n).
Proof. by destruct r. Qed.

Lemma safe_advance n session next : psafe (T:=T) sid (S n) (p_advance sid session next) (leaves n).
Proof.
  unfold p_advance. destruct (transition session next) as [session' r].
  eapply psafe_try; [apply safe_done|intros [] _|done]. eapply psafe_try; [apply safe_update|intros [] _|done]. apply safe_done.
Qed.

Lemma safe_fail {B} n reason e (Q : nat -> result NodeError B -> Prop) : (forall n' e, Q n' (Err e)) ->
  psafe (T:=T) sid (S n) (p_fail sid reason e) Q.
Proof. intros HQ. eapply psafe_try; [apply safe_update|intros [] _; apply HQ|done]. Qed.

Lemma safe_prepare `{A : AttestationEngine} n request response :
  psafe (T:=T) sid (3 + n) (p_prepare config fresh request response) (left_with n (fun p => ps_session_id p = sid)).
Proof.
  unfold p_prepare. eapply psafe_try with (m:=(2 + n)%nat) (P:=fun _ => True); [cbn; split; [done|]; by intros [[]|e]|intros [] _|done].
  eapply psafe_try; [apply safe_advance|intros s1 _|done]. eapply psafe_try; [apply safe_done|intros ro _|done].
  eapply psafe_try; [apply safe_advance|intros s2 _|done]. eapply psafe_try; [apply safe_done|intros te _|done]. done.
Qed.

Lemma safe_check_count n what k : psafe (T:=T) sid (S n) (p_check_count config sid what k) (leaves (S n)).
Proof. unfold p_check_count. destruct (_ <? _); [by apply safe_fail|done]. Qed.

Lemma safe_run_round {B C} n round (call : T -> prog T (result NodeError B)) (f : B -> C) ts acc :
  (forall t n Q, (forall r, Q n r) -> psafe sid (S n) (call t) Q) ->
  psafe sid (length ts + S n) (p_run_round tid sid round call f ts acc) (leaves (S n)).
Proof.
  intros Hcall. revert acc. induction ts as [|t ts IH]; intros acc; [done|]. cbn [p_run_round length Nat.add].
  apply psafe_bind, Hcall. intros [resp|e]; [apply IH|]. rewrite Nat.add_succ_r. by apply safe_fail.
Qed.

Lemma safe_for {B} n (l : list B) f : (forall x n, psafe sid (S n) (f x) (leaves n)) ->
  psafe (T:=T) sid (length l + n) (p_for l f) (leaves n).
Proof.
  intros Hf. induction l as [|x l IH]; [done|]. eapply psafe_try; [apply Hf|intros [] _; apply IH|done].
Qed.

(** The number of actions a request takes at most. *)
Definition max_turns (ts : list T) : nat := 5 + 3 * length ts.

Lemma safe_attest `{A : AttestationEngine} request response ts gk :
  psafe sid (max_turns ts) (p_attest tid config fresh request response ts gk) (fun _ _ => True).
Proof.
  unfold max_turns. set (n := length ts).
  replace (5 + 3 * n)%nat with (3 + (1 + S (n + (n + n))))%nat by lia.
  unfold p_attest. eapply psafe_try; [apply safe_prepare|intros p ->|done].
  eapply psafe_try; [apply safe_advance|intros session _|done].
  eapply psafe_try; [apply safe_check_count|intros [] _|done]. rewrite <- Nat.add_succ_r.
  eapply psafe_try; [by apply safe_run_round|intros resps _|done].
  eapply psafe_try; [apply safe_done|intros pkg _|done]. rewrite <- Nat.add_succ_r.
  eapply psafe_try; [by apply safe_run_round|intros shares _|done].
  eapply psafe_try; [apply safe_done|intros ap _|done].
  replace (S n) with (length (tid <$> ts) + 1)%nat by (rewrite length_fmap; unfold n; lia).
  eapply psafe_try; [apply safe_for; intros; apply safe_approve|intros [] _|done].
  eapply psafe_try; [apply safe_advance|intros s' _; done|done].
Qed.

Context {Jq : SerdeJson AttestationRequest} {Je : SerdeJson FrostAttestationEnvelope}.

Lemma safe_handle ts gk conn : psafe sid (max_turns ts) (handle_prog tid config ts gk fresh conn) (fun _ out => is_Some out).
Proof.
  unfold handle_prog. destruct (read_http_body_total conn) as [[s1 [body|e]] ->]; [|by eexists].
  destruct (json_from_slice body) as [request|e]; [|by eexists]. apply psafe_bind.
  eapply psafe_mono; [|apply safe_attest]. intros n' r _. cbn. by eexists.
Qed.
End AttestBound.

(** ** What a request sees *)

(** Runs of a program on the abstract store, with arbitrary replies of the nodes. *)
Definition act_spec {T} (a : action T) (m : store_spec) : reply a -> store_spec -> Prop :=
  match a with
  | AInsert ss => fun r m' => spec_insert ss m = (m', r)
  | AUpdate id st => fun r m' => spec_update_state id st m = (m', r)
  | AApprove id v => fun r m' => spec_record_approval id v m = (m', r)
  | ARound1 _ _ _ | ARound2 _ _ => fun _ m' => m' = m
  end.

Inductive prog_run {T B} : prog T B -> store_spec -> B -> store_spec -> Prop :=
  | run_done b m : prog_run (PDone b) m b m
  | run_act a k m r m' b m'' : act_spec a m r m' -> prog_run (k r) m' b m'' -> prog_run (PAct a k) m b m''.

(** The part of the store with one session. *)
Definition only (sid : SessionId) (m : store_spec) : store_spec :=
  match m !! sid with Some e => {[sid := e]} | None => ∅ end.

Lemma lookup_only sid m : only sid m !! sid = m !! sid.
Proof. unfold only. destruct (m !! sid); [apply lookup_singleton_eq|done]. Qed.
Lemma only_insert sid e m : <[sid := e]> (only sid m) = only sid (<[sid := e]> m).
Proof. unfold only. rewrite lookup_insert_eq. destruct (m !! sid); [apply insert_singleton_eq|apply insert_empty]. Qed.
Lemma only_ext sid m m' : m !! sid = m' !! sid -> only sid m = only sid m'.
Proof. unfold only. by intros ->. Qed.

(** An action on its own session sees and changes nothing else. *)
Lemma act_local {T} sid (a : action T) m r m' : own_action sid a -> act_spec a m r m' ->
  act_spec a (only sid m) r (only sid m') /\ forall x, x <> sid -> m' !! x = m !! x.
Proof.
  destruct a as [ss|id st|id v|t req now|t req]; cbn [own_action act_spec]; [intros <-|intros ->|intros ->|by intros _ ->..].
  - unfold spec_insert. rewrite lookup_only. destruct (m !! _); intros [= <- <-]; [done|]. rewrite only_insert. split; [done|].
    intros x Hx. by rewrite lookup_insert_ne.
  - unfold spec_update_state. rewrite lookup_only. destruct (m !! sid) as [[ss vs]|]; [|by intros [= <- <-]].
    destruct (is_terminal _); intros [= <- <-]; [done|]. rewrite only_insert. split; [done|]. intros x Hx. by rewrite lookup_insert_ne.
  - unfold spec_record_approval. rewrite lookup_only. destruct (m !! sid) as [[ss vs]|]; [|by intros [= <- <-]].
    destruct (is_terminal _); [by intros [= <- <-]|]. case_bool_decide; intros [= <- <-]; [done|]. rewrite only_insert. split; [done|].
    intros x Hx. by rewrite lookup_insert_ne.
Qed.

(** Actions on a store that implements the contract. *)
Lemma act_refines `{Spec : StoreSpec St} {T NS} {Tr : FrostNodeTransport T NS} (a : action T) (w : St * NS) m : store_rel w.1 m ->
  exists m', store_rel (run_action a w).1.1 m' /\ act_spec a m (run_action a w).2 m'.
Proof.
  intros HR. destruct a as [ss|id st|id v|t req now|t req]; cbn [run_action act_spec reply].
  - destruct (insert_spec ss w.1 m HR) as [HR' Hr]. destruct (insert ss w.1) as [s r], (spec_insert ss m) as [m' r'].
    cbn in *. subst. eauto.
  - destruct (update_state_spec id st w.1 m HR) as [HR' Hr]. destruct (update_state id st w.1) as [s r], (spec_update_state id st m) as [m' r'].
    cbn in *. subst. eauto.
  - destruct (record_approval_spec id v w.1 m HR) as [HR' Hr].
    destruct (record_approval id v w.1) as [s r], (spec_record_approval id v m) as [m' r']. cbn in *. subst. eauto.
  - destruct (t_frost_round1 t req now w.2). eauto.
  - destruct (t_frost_round2 t req w.2). eauto.
Qed.

(** *** Replies played back *)

Inductive node_reply :=
  | Reply1 (r : result NodeError FrostRound1Response)
  | Reply2 (r : result NodeError FrostRound2Response).

(** Transports that return given replies, in their order. *)
Section Replay.
Context {T : Type} (tid : T -> VerifierId).

Definition no_reply {B} : result NodeError B := Err (QuorumNotMet 0 0).
Definition replay_round1 : stres (list node_reply) NodeError FrostRound1Response := fun rs =>
  match rs with Reply1 r :: rest => (rest, r) | _ => (rs, no_reply) end.
Definition replay_round2 : stres (list node_reply) NodeError FrostRound2Response := fun rs =>
  match rs with Reply2 r :: rest => (rest, r) | _ => (rs, no_reply) end.
Definition replay_transport : FrostNodeTransport T (list node_reply) := {|
  t_verifier_id t _ := tid t;
  t_frost_round1 _ _ _ := replay_round1;
  t_frost_round2 _ _ := replay_round2;
  t_handshake_binding_round1 _ _ _ := fun rs => (rs, no_reply);
  t_handshake_binding_round2 _ _ := fun rs => (rs, no_reply)
|}.

Lemma prog_run_replay {B} (p : prog T B) m b m' : prog_run p m b m' ->
  exists replies, exec (St:=store_spec) (Tr:=replay_transport) p (m, replies) = ((m', []), b).
Proof.
  induction 1 as [b m|a k m r m' b m'' Hact _ [replies IH]]; [by exists []|].
  destruct a as [ss|id st|id v|t req now|t req]; cbn [act_spec] in Hact; cbn [exec run_action fst snd].
  - exists replies. change (insert ss m) with (spec_insert ss m). by rewrite Hact.
  - exists replies. change (update_state id st m) with (spec_update_state id st m). by rewrite Hact.
  - exists replies. change (record_approval id v m) with (spec_record_approval id v m). by rewrite Hact.
  - subst m'. by exists (Reply1 r :: replies).
  - subst m'. by exists (Reply2 r :: replies).
Qed.
End Replay.

(** The abstract store implements the contract. *)
Definition SpecStoreSpec : StoreSpec store_spec.
Proof. refine {| store_rel := eq |}; by intros; try intros ???; subst. Defined.

(** ** Executions *)

Section Pool.
Context {Hs : Sha256} {Ed : Ed25519} {R : RandomnessEngine} {Fr : FrostEd25519}.
Context {Jq : SerdeJson AttestationRequest} {Je : SerdeJson FrostAttestationEnvelope}.
Context {T NS : Type} (tid : T -> VerifierId) {Tr : FrostNodeTransport T NS} `{Spec : StoreSpec St}.
Context (config : CoordinatorConfig) (ts : list T) (gk : FrostGroupKey).
Abbreviation program := (handle_prog tid config ts gk).
Abbreviation run := (run_pool tid config ts gk).
Abbreviation th_sid th := (fresh_session_id (th_fresh th)).

(** The rest of a thread's program, on the session of the thread, completes runs of
    its whole program on an empty store, and the turns it has had count. *)
Record thread_inv (m : store_spec) (th : thread T) : Prop := {
  ti_safe : psafe (th_sid th) (max_turns ts - th_turns th) (th_prog th) (fun _ out => is_Some out);
  ti_run : forall out m', prog_run (th_prog th) (only (th_sid th) m) out m' -> prog_run (program (th_fresh th) (th_conn th)) ∅ out m'
}.

Record pool_inv (m0 m : store_spec) (pl : pool T St NS) : Prop := {
  pi_store : store_rel (pl_shared pl).1 m;
  pi_other : forall x, x ∉ (fun th => th_sid th) <$> pl_threads pl -> m !! x = m0 !! x;
  pi_threads : Forall (thread_inv m) (pl_threads pl)
}.

Lemma thread_inv_ext m m' th : m' !! th_sid th = m !! th_sid th -> thread_inv m th -> thread_inv m' th.
Proof. intros Heq [Hs' Hr]. split; [done|]. by rewrite (only_ext _ m' m). Qed.

(** One turn: the thread keeps its invariant, other sessions their entries. *)
Lemma turn_inv m th (w : St * NS) : store_rel w.1 m -> thread_inv m th ->
  let '(w', p) := step_prog (th_prog th) w in
  exists m', store_rel w'.1 m' /\ thread_inv m' (MkThread (th_fresh th) (th_conn th) (S (th_turns th)) p) /\
    forall x, x <> th_sid th -> m' !! x = m !! x.
Proof.
  intros HR [Hsafe Hrun]. destruct th as [fresh conn turns [b|a k]]; cbn [step_prog th_prog th_fresh th_conn th_turns] in *.
  { exists m. split_and!; [done| |done]. by split. }
  destruct (max_turns ts - turns)%nat as [|n] eqn:Hn; [done|]. destruct Hsafe as [Hown Hsafe].
  destruct (act_refines a w m HR) as (m' & HR' & Hact). destruct (run_action a w) as [w' r]. cbn [fst snd] in *.
  destruct (act_local _ _ _ _ _ Hown Hact) as [Hact' Hother]. exists m'. split_and!; [done| |done].
  split; cbn [th_prog th_fresh th_conn th_turns].
  - replace (max_turns ts - S turns)%nat with n by lia. apply Hsafe.
  - intros out m'' Hr. apply Hrun. by econstructor.
Qed.

Lemma threads_accepted es (pl : pool T St NS) :
  th_fresh <$> pl_threads (run es pl) = (th_fresh <$> pl_threads pl) ++ accepted es.
Proof.
  unfold run_pool. revert pl. induction es as [|e es IH]; intros pl; [by rewrite app_nil_r|]. cbn [foldl]. rewrite IH.
  destruct e as [[conn|err] fresh|i]; cbn [pool_event accepted omap list_omap].
  - cbn [pl_threads]. rewrite fmap_app. by rewrite <- (assoc_L (++)).
  - done.
  - destruct (pl_threads pl !! i) as [th|] eqn:Hi; [|done]. destruct (step_prog _ _) as [w p]. cbn [pl_threads].
    rewrite list_fmap_insert. cbn [th_fresh]. rewrite list_insert_id; [done|]. by rewrite list_lookup_fmap, Hi.
Qed.

Lemma event_inv m0 m e pl : pool_inv m0 m pl ->
  NoDup (fresh_session_id <$> (th_fresh <$> pl_threads (pool_event tid config ts gk e pl))) ->
  Forall (fun th => m0 !! th_sid th = None) (pl_threads (pool_event tid config ts gk e pl)) ->
  exists m', pool_inv m0 m' (pool_event tid config ts gk e pl).
Proof.
  intros [HR Hother Hths] Hnd Hfresh. destruct e as [[conn|err] fresh|i]; cbn [pool_event] in *.
  - exists m. cbn [pl_threads pl_shared] in *. rewrite !fmap_app, NoDup_app in Hnd. destruct Hnd as (_ & Hnd & _).
    apply Forall_app in Hfresh as [_ Hfresh]. inv Hfresh. cbn [th_fresh] in *. rewrite <- list_fmap_compose in Hnd.
    assert (Hm : m !! fresh_session_id fresh = None).
    { rewrite Hother; [done|]. intros Hin. apply (Hnd (fresh_session_id fresh)); [exact Hin|]. by constructor. }
    split; cbn [pl_threads pl_shared]; [done| |].
    + intros x Hx. apply Hother. rewrite fmap_app in Hx. set_solver.
    + apply Forall_app. split; [done|]. constructor; [|done]. split; cbn [th_prog th_fresh th_conn th_turns].
      * rewrite Nat.sub_0_r. apply safe_handle.
      * unfold only. by rewrite Hm.
  - by exists m.
  - destruct (pl_threads pl !! i) as [th|] eqn:Hi; [|by exists m].
    pose proof (turn_inv m th (pl_shared pl) HR (Forall_lookup_1 _ _ _ _ Hths Hi)) as Hturn.
    destruct (step_prog _ _) as [w p]. destruct Hturn as (m' & HR' & Hth & Hx). exists m'. cbn [pl_threads pl_shared] in *.
    rewrite list_fmap_insert in Hnd. cbn [th_fresh] in Hnd. rewrite list_insert_id in Hnd by (by rewrite list_lookup_fmap, Hi).
    split; cbn [pl_threads pl_shared]; [done| |].
    + intros x Hout. rewrite list_fmap_insert in Hout. cbn [th_fresh] in Hout.
      rewrite list_insert_id in Hout by (by rewrite list_lookup_fmap, Hi). rewrite Hx; [by apply Hother|]. intros ->. apply Hout.
      apply list_elem_of_fmap. exists th. split; [done|]. by eapply list_elem_of_lookup_2.
    + apply Forall_lookup. intros j th' Hj. destruct (decide (j = i)) as [->|Hne].
      * rewrite list_lookup_insert_eq in Hj by (by eapply lookup_lt_Some). by injection Hj as <-.
      * rewrite list_lookup_insert_ne in Hj by done. eapply thread_inv_ext; [|by eapply Forall_lookup_1]. apply Hx. intros Heq. apply Hne.
        eapply (NoDup_lookup _ j i (th_sid th')); [exact Hnd|by rewrite !list_lookup_fmap, Hj|by rewrite !list_lookup_fmap, Hi, Heq].
Qed.

Lemma execution_inv es (w : St * NS) m0 : store_rel w.1 m0 -> NoDup (fresh_session_id <$> accepted es) ->
  Forall (fun fresh => m0 !! fresh_session_id fresh = None) (accepted es) ->
  exists m, pool_inv m0 m (run es (MkPool w [])).
Proof.
  intros HR. induction es as [|e es IH] using rev_ind; intros Hnd Hfresh.
  { exists m0. by split; cbn. }
  assert (Hacc : accepted (es ++ [e]) = accepted es ++ accepted [e]) by apply omap_app.
  destruct IH as [m Hinv].
  { rewrite Hacc, fmap_app in Hnd. by apply NoDup_app in Hnd as [? _]. }
  { rewrite Hacc in Hfresh. by apply Forall_app in Hfresh as [? _]. }
  pose proof (threads_accepted (es ++ [e]) (MkPool w [])) as Hths. cbn [pl_threads fmap list_fmap app] in Hths.
  unfold run_pool in *. rewrite foldl_app in *. cbn [foldl] in *. eapply event_inv; [exact Hinv|by rewrite Hths|].
  rewrite <- Hths in Hfresh. by apply Forall_fmap in Hfresh.
Qed.

(** C5. Concurrent requests do not interfere. In every execution of the coordinator in
    which the sessions are new and distinct, whatever the nodes reply and however
    the actions of the threads interleave: the store implements some abstract
    store in which every session that is not of a request of this execution is as
    before; a thread has written its response after at most [5 + 3n] turns, for
    [n] transports; and a response that has been written is that of the request
    handled alone, on an empty store, with its own session as it is now in the
    shared one. So it has status 200 only if the session is finalized with the
    approvals of distinct, threshold many nodes and the body is an envelope with a
    signature of the group that verifies and is bound to it. *)
Theorem concurrent_requests_isolated es (w : St * NS) m0 :
  store_rel w.1 m0 -> NoDup (fresh_session_id <$> accepted es) ->
  Forall (fun fresh => m0 !! fresh_session_id fresh = None) (accepted es) ->
  let pl := run_pool tid config ts gk es (MkPool w []) in
  exists m, store_rel (pl_shared pl).1 m /\
    (forall x, x ∉ fresh_session_id <$> accepted es -> m !! x = m0 !! x) /\
    forall i th, pl_threads pl !! i = Some th ->
      ((max_turns ts <= th_turns th)%nat -> exists out, th_prog th = PDone out) /\
      forall out, th_prog th = PDone out ->
        exists status body, out = Some (send_json_response status body) /\ status ∈ [200; 400; 500] /\
        ((m !! th_sid th = None /\ status <> 200) \/
         exists rest sent request r, read_http_body (th_conn th) = Some (rest, Ok sent) /\ json_from_slice sent = Ok request /\
           frost_outcome config (th_fresh th) request gk (tid <$> ts) ∅ (only (th_sid th) m) r /\
           (status = 200 -> exists e, r = Ok e /\ json_to_vec e = Ok body) /\
           (forall e, r = Ok e -> is_ok (json_to_vec e) = true -> status = 200)).
Proof.
  intros HR Hnd Hfresh pl. destruct (execution_inv es w m0 HR Hnd Hfresh) as [m [Hst Hother Hths]]. fold pl in Hst, Hother, Hths.
  pose proof (threads_accepted es (MkPool w [])) as Hacc. fold pl in Hacc. cbn [pl_threads fmap list_fmap app] in Hacc.
  exists m. split_and!; [done| |].
  { intros x Hx. apply Hother. rewrite <- Hacc, <- list_fmap_compose in Hx. exact Hx. }
  intros i th Hi. destruct (Forall_lookup_1 _ _ _ _ Hths Hi) as [Hsafe Hrun]. split.
  - intros Hturns. replace (max_turns ts - th_turns th)%nat with 0%nat in Hsafe by lia. destruct (th_prog th); [eauto|done].
  - intros out Hdone. rewrite Hdone in Hrun. specialize (Hrun _ _ (run_done _ _)).
    destruct (prog_run_replay tid _ _ _ _ Hrun) as [replies Hexec].
    pose proof (handle_prog_exec (St:=store_spec) (Tr:=replay_transport tid) (Fi:=fun _ _ => eq_refl) tid config (th_fresh th) ts gk (th_conn th)
      (∅, replies)) as Halone. rewrite Hexec in Halone.
    destruct (coordinator_request_outcome (Spec:=SpecStoreSpec) (Tr:=replay_transport tid) config (th_fresh th) ts gk (th_conn th) ∅ replies ∅ eq_refl)
      as (s' & ns' & m' & status & body & Hh & HR' & Hstatus & Hcases).
    rewrite Halone in Hh. destruct out as [b|]; [|done]. injection Hh as <- <- ->. cbn in HR'. subst m'.
    exists status, body. split_and!; [done|done|]. destruct Hcases as [(Hs' & _ & _ & Hne)|Hcase]; [left|right; exact Hcase].
    rewrite <- lookup_only, Hs'. done.
Qed.
End Pool.

(** ** Two requests, turn by turn *)

Section TwoRequests.
#[local] Existing Instance toy_sha256.
#[local] Existing Instance toy_ed25519.
#[local] Existing Instance toy_frost.
#[local] Instance two_groth16 : Groth16 := toy_groth16 (Ark:=value_ark).
#[local] Instance two_json A : SerdeJson A := no_json A.
#[local] Instance two_envelope_json : SerdeJson FrostAttestationEnvelope := DkgCeremony.toy_json.
#[local] Instance two_request_json : SerdeJson AttestationRequest := one_json run_request.
#[local] Existing Instance run_randomness.

Definition two_id (t : InProcessTransport) : VerifierId := node_verifier_id (run_nodes (node_ref t)).
Definition other_fresh : Fresh := MkFresh (MkUnixTimestamp (n64 10)) (sid 5) toy_nonce toy_rid.
Definition two_events : list event :=
  [Accept (Ok demo_conn) run_fresh; Accept (Err "accept") run_fresh; Accept (Ok demo_conn) other_fresh] ++
  mjoin (replicate 11 [Turn 0; Turn 1]).
Abbreviation two_run :=
  (run_pool two_id run_config run_transports (toy_group 3) two_events (MkPool (InMemorySessionStore_new, run_nodes) [])).

(** Both are answered in their eleven turns, and both sessions are finalized. *)
Lemma concurrent_requests_isolated_witness :
  exists m, mem_rel (pl_shared two_run).1 m /\ (forall x, x ∉ [sid 4; sid 5] -> m !! x = None) /\
    Forall (fun th => exists status body, th_prog th = PDone (Some (send_json_response status body))) (pl_threads two_run) /\
    ((fun id => state <$> get id (pl_shared two_run).1) <$> [sid 4; sid 5]) = [Ok Finalized; Ok Finalized].
Proof.
  assert (Hturns : th_turns <$> pl_threads two_run = [11; 11]%nat) by (vm_compute; reflexivity).
  assert (Hfin : ((fun id => state <$> get id (pl_shared two_run).1) <$> [sid 4; sid 5]) = [Ok Finalized; Ok Finalized]) by (vm_compute; reflexivity).
  destruct (concurrent_requests_isolated (Spec:=MemStoreSpec) two_id run_config run_transports (toy_group 3) two_events
    (InMemorySessionStore_new, run_nodes) ∅) as (m & HR & Hother & Hths).
  - exact mem_rel_new.
  - apply (bool_decide_unpack _). vm_compute. exact I.
  - by repeat constructor.
  - exists m. split; [exact HR|]. split; [exact Hother|]. split; [|exact Hfin].
    apply Forall_lookup_2. intros i th Hi. destruct (Hths i th Hi) as [Hdone Hout]. destruct Hdone as [out Hdone].
    + assert (Hin : th_turns th ∈ [11; 11]%nat) by (rewrite <- Hturns; apply list_elem_of_fmap; exists th; split; [done|by eapply list_elem_of_lookup_2]).
      change (max_turns run_transports) with 11%nat. apply elem_of_cons in Hin as [->|[->|[]%not_elem_of_nil]%elem_of_cons]; done.
    + destruct (Hout out Hdone) as (status & body & -> & _). exists status, body. exact Hdone.
Defined.
End TwoRequests.
