(* ===== verification/VkExport.v ===== *)
(** * Export of verifying keys for the contracts

    Models [zk/src/vk_export.rs]: the conversion of a Groth16 verifying key over
    BN254 into the hexadecimal coordinates of the on-chain verifier, its JSON
    and its text form.

    A field element is its canonical representative; an affine point is a pair
    of coordinates, or [None] at infinity, as [AffineRepr::xy] shows it. The
    constructor [G1Affine::new] asserts that the point is on the curve (the
    group of G1 is the whole curve). Panics are [Panics]. *)

From Stdlib Require Import Ascii.
From S2P Require Import Prelude Json Os ProverCircuits.

Module Bn254.
Definition q : positive := 21888242871839275222246405745257275088696311157297823662689037894645226208583.
Definition Fq : Type := Fp q.
Record Fq2 := MkFq2 { c0 : Fq; c1 : Fq }.
Definition G1Affine : Type := option (Fq * Fq).
Definition G2Affine : Type := option (Fq2 * Fq2).
Definition fq_neg (x : Fq) : Fq := fp_of_Z (- fp_val x).
(** [y^2 = x^3 + 3] *)
Definition on_curve (p : Fq * Fq) : bool :=
  (fp_val p.2 * fp_val p.2 - (fp_val p.1 * fp_val p.1 * fp_val p.1 + 3)) mod Zpos q =? 0.
(** [G1Affine::new] *)
Definition g1_new (x y : Fq) : result (failure unit) G1Affine :=
  if on_curve (x, y) then Ok (Some (x, y)) else Err (Panics "assertion failed: p.is_on_curve()").
(** [serialize_uncompressed]: 32 bytes, little endian. *)
Definition serialize (x : Fq) : bytes := reverse (be_bytes 32 (fp_val x)).
End Bn254.
Import Bn254.

Record VerifyingKey := MkVerifyingKey {
  alpha_g1 : G1Affine;
  beta_g2 : G2Affine;
  gamma_g2 : G2Affine;
  delta_g2 : G2Affine;
  gamma_abc_g1 : list G1Affine
}.

(** ** Output types *)

Record G1Point := MkG1Point { g1_x : string; g1_y : string }.
Record G2Point := MkG2Point { g2_x0 : string; g2_x1 : string; g2_y0 : string; g2_y1 : string }.
Record SolidityVK := MkSolidityVK {
  sv_circuit : string;
  sv_num_public_inputs : usize;
  sv_alpha_neg : G1Point;
  sv_beta : G2Point;
  sv_gamma : G2Point;
  sv_delta : G2Point;
  sv_ic : list G1Point
}.

(** ** Conversion *)

Definition bytes_to_hex (bs : bytes) : string := hex_encode bs.

Definition fq_to_hex (f : Fq) : string := "0x" +:+ bytes_to_hex (reverse (serialize f)).

Definition g1_to_solidity (p : G1Affine) : result (failure unit) G1Point :=
  xy ← ok_or (Panics "G1 point must not be infinity") p;
  Ok {| g1_x := fq_to_hex xy.1; g1_y := fq_to_hex xy.2 |}.

Definition g1_neg (p : G1Affine) : result (failure unit) G1Affine :=
  match p with
  | None => Ok None
  | Some (x, y) => g1_new x (fq_neg y)
  end.

(** The imaginary coordinate comes first. *)
Definition g2_to_solidity (p : G2Affine) : result (failure unit) G2Point :=
  xy ← ok_or (Panics "G2 point must not be infinity") p;
  Ok {| g2_x0 := fq_to_hex (c1 xy.1); g2_x1 := fq_to_hex (c0 xy.1);
        g2_y0 := fq_to_hex (c1 xy.2); g2_y1 := fq_to_hex (c0 xy.2) |}.

Definition export_vk (vk : VerifyingKey) (circuit : string) (num_public_inputs : usize)
    : result (failure unit) SolidityVK :=
  ic ← try_map g1_to_solidity (gamma_abc_g1 vk);
  neg ← g1_neg (alpha_g1 vk);
  alpha_neg ← g1_to_solidity neg;
  beta ← g2_to_solidity (beta_g2 vk);
  gamma ← g2_to_solidity (gamma_g2 vk);
  delta ← g2_to_solidity (delta_g2 vk);
  Ok {| sv_circuit := circuit; sv_num_public_inputs := num_public_inputs; sv_alpha_neg := alpha_neg;
        sv_beta := beta; sv_gamma := gamma; sv_delta := delta; sv_ic := ic |}.

Definition G1Point_to_json (p : G1Point) : Json := JObject [("x", JString (g1_x p)); ("y", JString (g1_y p))].
Definition G2Point_to_json (p : G2Point) : Json :=
  JObject [("x0", JString (g2_x0 p)); ("x1", JString (g2_x1 p)); ("y0", JString (g2_y0 p)); ("y1", JString (g2_y1 p))].
Definition SolidityVK_to_json (vk : SolidityVK) : Json :=
  JObject [("circuit", JString (sv_circuit vk)); ("num_public_inputs", JInt (uval (sv_num_public_inputs vk)));
           ("alpha_neg", G1Point_to_json (sv_alpha_neg vk)); ("beta", G2Point_to_json (sv_beta vk));
           ("gamma", G2Point_to_json (sv_gamma vk)); ("delta", G2Point_to_json (sv_delta vk));
           ("ic", JArray (G1Point_to_json <$> sv_ic vk))].
Definition vk_to_json {J : SerdeText} {Pp : SerdePretty J} (vk : SolidityVK) : string := json_pretty (SolidityVK_to_json vk).

Definition nl : string := of_chars [newline].
Definition g1_comment (p : G1Point) : string := "(" +:+ g1_x p +:+ ", " +:+ g1_y p +:+ ")".
Definition g2_comment (p : G2Point) : string :=
  "(" +:+ g2_x0 p +:+ ", " +:+ g2_x1 p +:+ ", " +:+ g2_y0 p +:+ ", " +:+ g2_y1 p +:+ ")".
Definition vk_to_solidity_calldata (vk : SolidityVK) : string :=
  let out := "// Circuit: " +:+ sv_circuit vk +:+ " (" +:+ pretty (uval (sv_num_public_inputs vk)) +:+ " public inputs)" +:+ nl in
  let out := out +:+ "//   alpha_neg: " +:+ g1_comment (sv_alpha_neg vk) +:+ nl in
  let out := out +:+ "//   beta:  " +:+ g2_comment (sv_beta vk) +:+ nl in
  let out := out +:+ "//   gamma: " +:+ g2_comment (sv_gamma vk) +:+ nl in
  let out := out +:+ "//   delta: " +:+ g2_comment (sv_delta vk) +:+ nl in
  foldl (fun out '(i, pt) => out +:+ "//   IC[" +:+ pretty i +:+ "]: " +:+ g1_comment pt +:+ nl) out
    (zip (seq 0 (length (sv_ic vk))) (sv_ic vk)).

(** ** What the contract reads *)

(** A [uint256] literal. *)
Definition read_uint256 (s : string) : option Z :=
  match chars s with
  | z :: x :: rest =>
      if bool_decide (of_chars [z; x] = "0x") then
        match hex_decode (of_chars rest) with
        | Ok bs => if (length bs =? 32)%nat then Some (be_val bs) else None
        | Err _ => None
        end
      else None
  | _ => None
  end.
Definition read_g1 (p : G1Point) : option (Z * Z) := x ← read_uint256 (g1_x p); y ← read_uint256 (g1_y p); Some (x, y).
(** Pairs of coordinates, the imaginary one first (EIP-197). *)
Definition read_g2 (p : G2Point) : option (Z * Z * (Z * Z)) :=
  x0 ← read_uint256 (g2_x0 p); x1 ← read_uint256 (g2_x1 p);
  y0 ← read_uint256 (g2_y0 p); y1 ← read_uint256 (g2_y1 p); Some (x0, x1, (y0, y1)).

(** ** Properties *)

Lemma fq_range (x : Fq) : 0 <= fp_val x < Zpos q.
Proof. destruct x as [z Hz]. cbn [fp_val]. apply SIs_true_elim, andb_prop in Hz as [H1 H2]. lia. Qed.

Lemma read_fq f : read_uint256 (fq_to_hex f) = Some (fp_val f) /\ String.length (fq_to_hex f) = 66%nat.
Proof.
  assert (Hrev : reverse (serialize f) = be_bytes 32 (fp_val f)) by apply reverse_involutive.
  unfold fq_to_hex, bytes_to_hex. rewrite Hrev. split.
  - unfold read_uint256. rewrite chars_app. change (chars "0x") with ["0"%char; "x"%char]. cbn [app].
    rewrite bool_decide_eq_true_2 by done. rewrite of_chars_chars, hex_decode_encode, length_be_bytes. cbn [Nat.eqb].
    rewrite be_val_be_bytes, Z.mod_small; [done|]. pose proof (fq_range f).
    assert (Zpos q < 256 ^ Z.of_nat 32) by reflexivity. lia.
  - rewrite length_chars, chars_app, length_app. change (length (chars "0x")) with 2%nat.
    rewrite <- length_chars, length_hex_encode, length_be_bytes. done.
Qed.

Lemma neg_neg y : fq_neg (fq_neg y) = y.
Proof.
  apply Fp_eq. unfold fq_neg. cbn [fp_val fp_of_Z]. pose proof (fq_range y) as Hy.
  rewrite <- Z.sub_0_l, Zminus_mod_idemp_r, Z.sub_0_l, Z.opp_involutive. apply Z.mod_small. lia.
Qed.

Lemma on_curve_neg x y : on_curve (x, fq_neg y) = on_curve (x, y).
Proof.
  unfold on_curve, fq_neg. cbn [fst snd fp_val fp_of_Z]. f_equal.
  rewrite <- Zminus_mod_idemp_l, <- Z.mul_mod, Zminus_mod_idemp_l by done. f_equal. ring.
Qed.

Lemma g1_export p s : g1_to_solidity p = Ok s <-> exists x y, p = Some (x, y) /\ s = MkG1Point (fq_to_hex x) (fq_to_hex y).
Proof.
  unfold g1_to_solidity. destruct p as [[x y]|]; cbn; split.
  - intros [= <-]. by exists x, y.
  - by intros (? & ? & [= <- <-] & ->).
  - done.
  - by intros (? & ? & ? & _).
Qed.
Lemma g1_read x y : read_g1 (MkG1Point (fq_to_hex x) (fq_to_hex y)) = Some (fp_val x, fp_val y).
Proof. unfold read_g1. cbn [g1_x g1_y]. by rewrite (proj1 (read_fq x)), (proj1 (read_fq y)). Qed.

Lemma g2_export p s : g2_to_solidity p = Ok s ->
  exists x y, p = Some (x, y) /\ read_g2 s = Some (fp_val (c1 x), fp_val (c0 x), (fp_val (c1 y), fp_val (c0 y))).
Proof.
  unfold g2_to_solidity. destruct p as [[x y]|]; [|done]. intros [= <-]. exists x, y. split; [done|].
  unfold read_g2. cbn [g2_x0 g2_x1 g2_y0 g2_y1 fst snd].
  by rewrite (proj1 (read_fq (c1 x))), (proj1 (read_fq (c0 x))), (proj1 (read_fq (c1 y))), (proj1 (read_fq (c0 y))).
Qed.

(** All points of a key are finite, and its first one is on the curve. *)
Definition finite_key (vk : VerifyingKey) : Prop :=
  (exists p, alpha_g1 vk = Some p /\ on_curve p = true) /\
  is_Some (beta_g2 vk) /\ is_Some (gamma_g2 vk) /\ is_Some (delta_g2 vk) /\ Forall is_Some (gamma_abc_g1 vk).

(** What the contract reads from an export, against the key. *)
Definition reads_as (vk : VerifyingKey) (s : SolidityVK) : Prop :=
  (exists x y, alpha_g1 vk = Some (x, y) /\ on_curve (x, fq_neg y) = true /\
     read_g1 (sv_alpha_neg s) = Some (fp_val x, fp_val (fq_neg y))) /\
  Forall2 (fun p s => exists x y, p = Some (x, y) /\
    read_g2 s = Some (fp_val (c1 x), fp_val (c0 x), (fp_val (c1 y), fp_val (c0 y))))
    [beta_g2 vk; gamma_g2 vk; delta_g2 vk] [sv_beta s; sv_gamma s; sv_delta s] /\
  Forall2 (fun p s => exists x y, p = Some (x, y) /\ read_g1 s = Some (fp_val x, fp_val y)) (gamma_abc_g1 vk) (sv_ic s).

Lemma reads_g1_inj (l l' : list G1Affine) s :
  Forall2 (fun p s => exists x y, p = Some (x, y) /\ read_g1 s = Some (fp_val x, fp_val y)) l s ->
  Forall2 (fun p s => exists x y, p = Some (x, y) /\ read_g1 s = Some (fp_val x, fp_val y)) l' s -> l = l'.
Proof.
  intros H. revert l'. induction H as [|p s0 l s (x & y & -> & Hr) _ IH]; intros l'.
  - by intros ->%Forall2_nil_inv_r.
  - intros (p' & k & (x' & y' & -> & Hr') & Hk & ->)%Forall2_cons_inv_r. rewrite Hr in Hr'. injection Hr' as Hx Hy.
    apply Fp_eq in Hx as ->, Hy as ->. f_equal. by apply IH.
Qed.
Lemma reads_g2_inj (l l' : list G2Affine) s :
  Forall2 (fun p s => exists x y, p = Some (x, y) /\
    read_g2 s = Some (fp_val (c1 x), fp_val (c0 x), (fp_val (c1 y), fp_val (c0 y)))) l s ->
  Forall2 (fun p s => exists x y, p = Some (x, y) /\
    read_g2 s = Some (fp_val (c1 x), fp_val (c0 x), (fp_val (c1 y), fp_val (c0 y)))) l' s -> l = l'.
Proof.
  intros H. revert l'. induction H as [|p s0 l s ([x0 x1] & [y0 y1] & -> & Hr) _ IH]; intros l'.
  - by intros ->%Forall2_nil_inv_r.
  - intros (p' & k & ([x0' x1'] & [y0' y1'] & -> & Hr') & Hk & ->)%Forall2_cons_inv_r. rewrite Hr in Hr'.
    cbn [c0 c1] in Hr'. injection Hr' as H1 H2 H3 H4. apply Fp_eq in H1 as ->, H2 as ->, H3 as ->, H4 as ->. f_equal. by apply IH.
Qed.

Lemma reads_as_inj vk vk' s : reads_as vk s -> reads_as vk' s -> vk = vk'.
Proof.
  intros ((x & y & Ha & _ & Hr) & H2 & H1) ((x' & y' & Ha' & _ & Hr') & K2 & K1).
  rewrite Hr in Hr'. injection Hr' as Hx Hy. apply Fp_eq in Hx as <-.
  assert (Hn : fq_neg y = fq_neg y') by (by apply Fp_eq).
  assert (y = y') as <- by (rewrite <- (neg_neg y), <- (neg_neg y'), Hn; done).
  pose proof (reads_g1_inj _ _ _ H1 K1). pose proof (reads_g2_inj _ _ _ H2 K2) as Hl.
  destruct vk, vk'. cbn in *. congruence.
Qed.

Lemma export_reads_as vk circuit n s : export_vk vk circuit n = Ok s ->
  reads_as vk s /\ sv_circuit s = circuit /\ sv_num_public_inputs s = n.
Proof.
  intros Hs. unfold export_vk in Hs.
  apply bind_Ok in Hs as (ic & Hic%try_map_Ok & (ng & Hng & (a & Ha & Hs)%bind_Ok)%bind_Ok).
  apply bind_Ok in Hs as (b & Hb & (g & Hg & (d & Hd & [= <-])%bind_Ok)%bind_Ok).
  unfold reads_as. cbn [sv_circuit sv_num_public_inputs sv_alpha_neg sv_beta sv_gamma sv_delta sv_ic].
  split_and!; [| | |done|done].
  - apply g1_export in Ha as (x & y & -> & ->). destruct (alpha_g1 vk) as [[x' y']|]; [|done]. cbn [g1_neg] in Hng.
    unfold g1_new in Hng. destruct (on_curve _) eqn:Hc; [|done]. injection Hng as <- <-. exists x', y'.
    split_and!; [done|done|apply g1_read].
  - repeat constructor; by apply g2_export.
  - eapply Forall2_impl; [exact Hic|]. intros p s' (x & y & -> & ->)%g1_export. exists x, y. split; [done|apply g1_read].
Qed.

Lemma reads_as_finite vk s : reads_as vk s -> finite_key vk.
Proof.
  intros ((x & y & Ha & Hc & _) & H2 & Hic). rewrite on_curve_neg in Hc.
  apply Forall2_cons in H2 as [(? & ? & Hb & _) [(? & ? & Hg & _) [(? & ? & Hd & _) _]%Forall2_cons]%Forall2_cons].
  split_and!; [eauto|rewrite ?Hb, ?Hg, ?Hd; by eexists..|].
  clear -Hic. induction Hic as [|p s' l l' (x & y & -> & _) _ IH]; constructor; [by eexists|done].
Qed.

Lemma finite_key_exports vk circuit n : finite_key vk -> exists s, export_vk vk circuit n = Ok s.
Proof.
  intros ([[x y] [Ha Hc]] & [[bx bY] Hb] & [[gx gy] Hg] & [[dx dy] Hd] & Hic). unfold export_vk.
  assert (exists ic, try_map g1_to_solidity (gamma_abc_g1 vk) = Ok ic) as [ic ->].
  { induction Hic as [|p l [[x' y'] ->] _ [ic IH]]; [by eexists|]. cbn [try_map g1_to_solidity ok_or mbind result_bind].
    rewrite IH. by eexists. }
  cbn [mbind result_bind]. rewrite Ha, Hb, Hg, Hd. cbn [g1_neg]. unfold g1_new. rewrite on_curve_neg, Hc. by eexists.
Qed.

(** The export of a key succeeds exactly when none of its points is at infinity
    and the negated one is on the curve; otherwise it panics. What the contract
    reads from an export are the coordinates of the key: those of the first
    point negated, which is again on the curve, the imaginary parts of the G2
    points first, and the points of the public inputs in order; in particular
    the export determines the key. *)
Theorem exported_key_reads_back vk circuit n :
  (is_ok (export_vk vk circuit n) = true <-> finite_key vk) /\
  (forall s, export_vk vk circuit n = Ok s ->
     reads_as vk s /\ sv_circuit s = circuit /\ sv_num_public_inputs s = n) /\
  forall s vk', export_vk vk circuit n = Ok s -> export_vk vk' circuit n = Ok s -> vk = vk'.
Proof.
  split_and!; [split|by apply export_reads_as|].
  - intros [s Hs]%is_ok_exists. by apply export_reads_as in Hs as [Hs%reads_as_finite _].
  - intros Hf. by destruct (finite_key_exports vk circuit n Hf) as [s ->].
  - intros s vk' [H1 _]%export_reads_as [H2 _]%export_reads_as. by apply (reads_as_inj vk vk' s).
Qed.
