(* ===== verification/MpcGroth.v ===== *)
(** The Groth16 prover of the collaborative prover
    (crates/co-snark-prover/src/mpc_groth/prover.rs and r1cs_to_qap.rs).

    The two files are generic in the field and in the curve: with the plain
    field they are the ordinary prover, with the shared field of
    [mpc_algebra] every value is a sharing and the operations act on the
    reconstructed values.  The model is over an arbitrary field [F] and
    arbitrary [F]-modules [G1], [G2], [GT], so the theorems are about the
    reconstructed values of either use.

    What the sources only call is a parameter: the evaluation domain of
    [ark_poly] (class [EvaluationDomain], laws [EvaluationDomainLaws]), the
    multi-scalar multiplication of [ark_ec] and the batched product of
    [ark_ff] (class [ArkOps], laws [ArkOpsLaws]), the constraint system of
    [ark_relations] (the record [constraint_system], the assignments and
    matrices the code reads from it) and the pairing.  A panic (an index or a
    slice out of range, an [unwrap] of [None]) is the outcome [Panic]; an
    error of the synthesis is [Err].

    The theorems: the witness map returns the coefficients of the quotient
    polynomial of a satisfied system; a proof made for a satisfied system
    with a key of that system satisfies the Groth16 verification equation for
    every randomness; a rerandomised proof satisfies it whenever the original
    does. *)

From mathcomp Require Import boot.
From mathcomp Require Import ssralg poly polydiv zmodp ring_tactic.

Set Implicit Arguments.
Unset Strict Implicit.
Unset Printing Implicit Defensive.

Import GRing.Theory.
Local Open Scope ring_scope.

(** ** Outcomes *)

(** The errors of [ark_relations::r1cs::SynthesisError]. *)
Inductive SynthesisError :=
| MissingCS
| AssignmentMissing
| DivisionByZero
| Unsatisfiable
| PolynomialDegreeTooLarge
| UnexpectedIdentity
| MalformedVerifyingKey
| UnconstrainedVariable.

Inductive outcome (A : Type) :=
| Done of A
| Err of SynthesisError
| Panic.
Arguments Done {A}. Arguments Err {A}. Arguments Panic {A}.

Definition obind A B (x : outcome A) (f : A -> outcome B) : outcome B :=
  match x with Done a => f a | Err e => Err e | Panic => Panic end.

Declare Scope outcome_scope.
Delimit Scope outcome_scope with outcome.
Notation "'let!' x ':=' e1 'in' e2" := (obind e1 (fun x => e2))
  (at level 10, x name, e1 at level 100, e2 at level 200) : outcome_scope.
Local Open Scope outcome_scope.

Definition unwrap A (x : option A) : outcome A :=
  if x is Some a then Done a else Panic.

(** [s[i]] *)
Definition index_at A (s : seq A) (i : nat) : outcome A := unwrap (ohead (drop i s)).

Fixpoint omapM A B (f : A -> outcome B) (s : seq A) : outcome (seq B) :=
  match s with
  | [::] => Done [::]
  | x :: s' => let! y := f x in let! ys := omapM f s' in Done (y :: ys)
  end.

(** ** What the sources call *)

Record matrices (F : Type) := ConstraintMatrices
  { mat_a : seq (seq (F * nat));
    mat_b : seq (seq (F * nat));
    mat_c : seq (seq (F * nat)) }.

(** What the prover reads from a finalised [ConstraintSystem]. *)
Record constraint_system (F : Type) := ConstraintSystem
  { num_instance_variables : nat;
    num_constraints : nat;
    instance_assignment : seq F;
    witness_assignment : seq F;
    to_matrices : option (matrices F) }.

(** [ark_poly::EvaluationDomain]: [D::new(k)] and the transforms. *)
Class EvaluationDomain (F : Type) := {
  Domain : Type;
  D_new : nat -> option Domain;
  D_size : Domain -> nat;
  ifft_in_place : Domain -> seq F -> seq F;
  coset_fft_in_place : Domain -> seq F -> seq F;
  coset_ifft_in_place : Domain -> seq F -> seq F;
  divide_by_vanishing_poly_on_coset_in_place : Domain -> seq F -> seq F
}.

(** [Field::batch_product_in_place] and [AffineCurve::multi_scalar_mul]. *)
Class ArkOps (F : Type) := {
  batch_product_in_place : seq F -> seq F -> seq F;
}.
Class MultiScalar (F G : Type) := {
  multi_scalar_mul : seq G -> seq F -> G
}.

(** What the documentation of these operations promises. *)
Section Laws.
Variable F : fieldType.

(** A domain of size [n] is generated by a primitive [n]-th root of unity;
    the coset is shifted by a field element outside the group. *)
Record domain_ok (ED : EvaluationDomain F) (d : Domain) (w g : F) : Prop := DomainOk {
  dom_root : (D_size d).-primitive_root w;
  dom_shift : g != 0;
  dom_coset : g ^+ D_size d != 1;
  dom_ifft : forall v, size v = D_size d ->
    size (ifft_in_place d v) = D_size d /\
    forall i, (i < D_size d)%N -> (Poly (ifft_in_place d v)).[w ^+ i] = v`_i;
  dom_coset_fft : forall c, size c = D_size d ->
    size (coset_fft_in_place d c) = D_size d /\
    forall i, (i < D_size d)%N ->
      (coset_fft_in_place d c)`_i = (Poly c).[g * w ^+ i];
  dom_coset_ifft : forall v, size v = D_size d ->
    size (coset_ifft_in_place d v) = D_size d /\
    forall i, (i < D_size d)%N ->
      (Poly (coset_ifft_in_place d v)).[g * w ^+ i] = v`_i;
  dom_divide : forall v, size v = D_size d ->
    size (divide_by_vanishing_poly_on_coset_in_place d v) = D_size d /\
    forall i, (i < D_size d)%N ->
      (divide_by_vanishing_poly_on_coset_in_place d v)`_i =
      v`_i / ((g * w ^+ i) ^+ D_size d - 1)
}.

Class EvaluationDomainLaws (ED : EvaluationDomain F) := {
  domain_size_ge : forall k d, D_new k = Some d -> (k <= D_size d)%N;
  domain_laws : forall k d, D_new k = Some d -> exists w g, domain_ok d w g
}.

Class ArkOpsLaws (AO : ArkOps F) := {
  batch_product_spec : forall a b,
    batch_product_in_place a b = [seq x.1 * x.2 | x <- zip a b]
}.

(** The product runs over the shorter of the two slices. *)
Class MultiScalarLaws (G : lmodType F) (MS : MultiScalar F G) := {
  multi_scalar_mul_spec : forall (bases : seq G) (scalars : seq F),
    multi_scalar_mul bases scalars = \sum_(x <- zip bases scalars) x.2 *: x.1
}.
End Laws.
Arguments domain_size_ge {F ED EvaluationDomainLaws k d} _.
Arguments domain_laws {F ED EvaluationDomainLaws k d} _.

(** ** r1cs_to_qap.rs *)
Module R1CStoQAP.
Section Qap.
Context {F : fieldType} {ED : EvaluationDomain F} {AO : ArkOps F}.

(** The sum of the terms of a row at an assignment. *)
Definition evaluate_constraint (terms : seq (F * nat)) (assignment : seq F) : outcome F :=
  foldl (fun acc (t : F * nat) =>
           let! sum := acc in
           let! val := index_at assignment t.2 in
           Done (if t.1 == 1 then sum + val else sum + val * t.1))
        (Done 0) terms.

(** [v[start..start + size w].clone_from_slice(w)]. *)
Definition clone_from_slice (v w : seq F) (start : nat) : seq F :=
  take start v ++ w ++ drop (start + size w) v.

(** [ab.zip(c).for_each(|(ab_i, c_i)| *ab_i -= c_i)]. *)
Definition sub_in_place (ab c : seq F) : seq F :=
  [seq x.1 - x.2 | x <- zip ab c] ++ drop (size c) ab.

(** The coefficients of the quotient polynomial of the system. *)
Definition witness_map (prover : constraint_system F) : outcome (seq F) :=
  let! m := unwrap (to_matrices prover) in
  let num_inputs := num_instance_variables prover in
  let nc := num_constraints prover in
  let full_assignment := instance_assignment prover ++ witness_assignment prover in
  if D_new (nc + num_inputs) isn't Some domain then Err PolynomialDegreeTooLarge else
  let domain_size := D_size domain in
  if (domain_size < nc)%N then Panic else
  let rows := zip (take nc (mat_a m)) (mat_b m) in
  let! as_ := omapM (fun r => evaluate_constraint r.1 full_assignment) rows in
  let! bs := omapM (fun r => evaluate_constraint r.2 full_assignment) rows in
  let a := clone_from_slice (nseq domain_size 0) as_ 0 in
  let b := clone_from_slice (nseq domain_size 0) bs 0 in
  if (domain_size < nc + num_inputs)%N || (size full_assignment < num_inputs)%N
  then Panic else
  let a := clone_from_slice a (take num_inputs full_assignment) nc in
  let a := coset_fft_in_place domain (ifft_in_place domain a) in
  let b := coset_fft_in_place domain (ifft_in_place domain b) in
  let ab := batch_product_in_place a b in
  let! cs := omapM (fun i => let! row := index_at (mat_c m) i in
                             evaluate_constraint row full_assignment) (iota 0 nc) in
  let c := clone_from_slice (nseq domain_size 0) cs 0 in
  let c := coset_fft_in_place domain (ifft_in_place domain c) in
  let ab := sub_in_place ab c in
  let ab := divide_by_vanishing_poly_on_coset_in_place domain ab in
  Done (coset_ifft_in_place domain ab).

End Qap.
End R1CStoQAP.

(** ** prover.rs *)
Module Groth16Prover.
Export R1CStoQAP.

Record VerifyingKey (G1 G2 : Type) := mkVerifyingKey
  { alpha_g1 : G1; beta_g2 : G2; gamma_g2 : G2; delta_g2 : G2;
    gamma_abc_g1 : seq G1 }.

Record ProvingKey (G1 G2 : Type) := mkProvingKey
  { vk : VerifyingKey G1 G2;
    beta_g1 : G1; delta_g1 : G1;
    a_query : seq G1; b_g1_query : seq G1; b_g2_query : seq G2;
    h_query : seq G1; l_query : seq G1 }.

Record Groth16Proof (G1 G2 : Type) := mkProof { proof_a : G1; proof_b : G2; proof_c : G1 }.

Section Prover.
Context {F : fieldType} {ED : EvaluationDomain F} {AO : ArkOps F}.
Context {G1 G2 : lmodType F} {M1 : MultiScalar F G1} {M2 : MultiScalar F G2}.

(** [Fr::rand(rng)] *)
Variable Rng : Type.
Variable rand : Rng -> F * Rng.

Definition calculate_coeff (G : lmodType F) (M : MultiScalar F G)
    (initial : G) (query : seq G) (vk_param : G) (assignment : seq F) : outcome G :=
  let! el := index_at query 0 in
  let acc := multi_scalar_mul (behead query) assignment in
  Done (initial + el + acc + vk_param).

(** [circuit.generate_constraints(cs)?; cs.finalize()] is the argument
    [circuit], the system it leaves or the error of the synthesis. *)
Definition create_proof (circuit : outcome (constraint_system F))
    (pk : ProvingKey G1 G2) (r s : F) : outcome (Groth16Proof G1 G2) :=
  let! cs := circuit in
  let! h := witness_map cs in
  let h_acc := multi_scalar_mul (h_query pk) h in
  let l_aux_acc := multi_scalar_mul (l_query pk) (witness_assignment cs) in
  let r_s_delta_g1 := s *: (r *: delta_g1 pk) in
  if instance_assignment cs isn't _ :: inputs then Panic else
  let assignment := inputs ++ witness_assignment cs in
  let r_g1 := r *: delta_g1 pk in
  let! g_a := calculate_coeff M1 r_g1 (a_query pk) (alpha_g1 (vk pk)) assignment in
  let s_g_a := s *: g_a in
  let s_g1 := s *: delta_g1 pk in
  let! g1_b := calculate_coeff M1 s_g1 (b_g1_query pk) (beta_g1 pk) assignment in
  let s_g2 := s *: delta_g2 (vk pk) in
  let! g2_b := calculate_coeff M2 s_g2 (b_g2_query pk) (beta_g2 (vk pk)) assignment in
  let r_g1_b := r *: g1_b in
  let g_c := s_g_a + r_g1_b - r_s_delta_g1 + l_aux_acc + h_acc in
  Done (mkProof g_a g2_b g_c).

(** The randomness is drawn in the order [r], [s]. *)
Definition create_random_proof (circuit : outcome (constraint_system F))
    (pk : ProvingKey G1 G2) (rng : Rng) : outcome (Groth16Proof G1 G2) * Rng :=
  let: (r, rng) := rand rng in
  let: (s, rng) := rand rng in
  (create_proof circuit pk r s, rng).

Definition create_proof_no_zk (circuit : outcome (constraint_system F))
    (pk : ProvingKey G1 G2) : outcome (Groth16Proof G1 G2) :=
  create_proof circuit pk 0 0.

(** [while r1.is_zero() || r2.is_zero()]: the loop with at most [fuel]
    further rounds; [None] when they do not suffice. *)
Fixpoint sample_nonzero (fuel : nat) (r1 r2 : F) (rng : Rng) : option (F * F * Rng) :=
  if (r1 == 0) || (r2 == 0) then
    if fuel is fuel'.+1 then
      let: (r1, rng) := rand rng in
      let: (r2, rng) := rand rng in
      sample_nonzero fuel' r1 r2 rng
    else None
  else Some (r1, r2, rng).

Definition rerandomize_proof (fuel : nat) (rng : Rng) (vk : VerifyingKey G1 G2)
    (proof : Groth16Proof G1 G2) : option (Groth16Proof G1 G2 * Rng) :=
  if sample_nonzero fuel 0 0 rng isn't Some (r1, r2, rng) then None else
  let new_a := r1^-1 *: proof_a proof in
  let new_b := r1 *: proof_b proof + (r1 * r2) *: delta_g2 vk in
  let new_c := proof_c proof + r2 *: proof_a proof in
  Some (mkProof new_a new_b new_c, rng).

End Prover.

(** ** Specification *)

(** The Groth16 verification equation, the group of the pairing's target
    written additively:
    e(A, B) = e(alpha, beta) + e(sum of the inputs, gamma) + e(C, delta). *)
Section Spec.
Context {F : fieldType} {G1 G2 GT : lmodType F}.
Variable e : G1 -> G2 -> GT.

Definition bilinear_pairing : Prop :=
  (forall (k : F) P P' Q, e (k *: P + P') Q = k *: e P Q + e P' Q) /\
  (forall (k : F) P Q Q', e P (k *: Q + Q') = k *: e P Q + e P Q').

Definition prepare_inputs (vk : VerifyingKey G1 G2) (x : seq F) : G1 :=
  \sum_(p <- zip (gamma_abc_g1 vk) (1 :: x)) p.2 *: p.1.

Definition groth16_accepts (vk : VerifyingKey G1 G2) (x : seq F) (p : Groth16Proof G1 G2) : Prop :=
  e (proof_a p) (proof_b p) =
  e (alpha_g1 vk) (beta_g2 vk) + e (prepare_inputs vk x) (gamma_g2 vk)
  + e (proof_c p) (delta_g2 vk).
End Spec.

(** A satisfied system: the value of a row at an assignment, and the three
    values of each constraint in the relation [a * b = c]. *)
Section R1cs.
Context {F : fieldType}.

Definition row_value (z : seq F) (row : seq (F * nat)) : F := \sum_(t <- row) z`_t.2 * t.1.

Definition assignment (cs : constraint_system F) : seq F :=
  instance_assignment cs ++ witness_assignment cs.

Definition well_formed (cs : constraint_system F) (m : matrices F) : bool :=
  [&& size (mat_a m) == num_constraints cs, size (mat_b m) == num_constraints cs,
      size (mat_c m) == num_constraints cs,
      size (instance_assignment cs) == num_instance_variables cs &
      all (all (fun t : F * nat => t.2 < size (assignment cs))%N)
          (mat_a m ++ mat_b m ++ mat_c m)].

Definition satisfied (cs : constraint_system F) (m : matrices F) : bool :=
  all (fun j => row_value (assignment cs) (nth [::] (mat_a m) j)
                * row_value (assignment cs) (nth [::] (mat_b m) j)
                == row_value (assignment cs) (nth [::] (mat_c m) j))
      (iota 0 (num_constraints cs)).
End R1cs.

(** The quadratic arithmetic program of a system on a domain, and the
    reference string of Groth16 for it: the polynomials [u], [v], [w] of a
    variable interpolate its column of the matrices, the first one with the
    input rows below the constraints. *)
Section Crs.
Context {F : fieldType} {ED : EvaluationDomain F} {G1 G2 : lmodType F}.
Variables (cs : constraint_system F) (m : matrices F) (d : Domain).
Local Notation nc := (num_constraints cs).
Local Notation ni := (num_instance_variables cs).

Definition coef (row : seq (F * nat)) (i : nat) : F := \sum_(t <- row | t.2 == i) t.1.

Definition a_col (i j : nat) : F :=
  if (j < nc)%N then coef (nth [::] (mat_a m) j) i
  else if (j < nc + ni)%N then (j - nc == i)%N%:R else 0.
Definition row_col (rows : seq (seq (F * nat))) (i j : nat) : F :=
  if (j < nc)%N then coef (nth [::] rows j) i else 0.

Definition interp (v : seq F) : {poly F} := Poly (ifft_in_place d v).
Definition u_poly (i : nat) : {poly F} := interp (mkseq (a_col i) (D_size d)).
Definition v_poly (i : nat) : {poly F} := interp (mkseq (row_col (mat_b m) i) (D_size d)).
Definition w_poly (i : nat) : {poly F} := interp (mkseq (row_col (mat_c m) i) (D_size d)).

Record toxic_waste := ToxicWaste
  { tw_alpha : F; tw_beta : F; tw_gamma : F; tw_delta : F; tw_tau : F;
    tw_g1 : G1; tw_g2 : G2 }.

Variable t : toxic_waste.

Definition abc (i : nat) : F :=
  tw_beta t * (u_poly i).[tw_tau t] + tw_alpha t * (v_poly i).[tw_tau t]
  + (w_poly i).[tw_tau t].

Definition groth16_crs : ProvingKey G1 G2 :=
  let num_vars := size (assignment cs) in
  let num_wit := size (witness_assignment cs) in
  {| vk := {| alpha_g1 := tw_alpha t *: tw_g1 t;
              beta_g2 := tw_beta t *: tw_g2 t;
              gamma_g2 := tw_gamma t *: tw_g2 t;
              delta_g2 := tw_delta t *: tw_g2 t;
              gamma_abc_g1 := mkseq (fun i => (abc i / tw_gamma t) *: tw_g1 t) ni |};
     beta_g1 := tw_beta t *: tw_g1 t;
     delta_g1 := tw_delta t *: tw_g1 t;
     a_query := mkseq (fun i => (u_poly i).[tw_tau t] *: tw_g1 t) num_vars;
     b_g1_query := mkseq (fun i => (v_poly i).[tw_tau t] *: tw_g1 t) num_vars;
     b_g2_query := mkseq (fun i => (v_poly i).[tw_tau t] *: tw_g2 t) num_vars;
     h_query := mkseq (fun i => (tw_tau t ^+ i * ((tw_tau t ^+ D_size d - 1) / tw_delta t))
                                *: tw_g1 t) (D_size d).-1;
     l_query := mkseq (fun i => (abc (ni + i) / tw_delta t) *: tw_g1 t) num_wit |}.
End Crs.
End Groth16Prover.

(** ** Evaluation and interpolation *)
Module QapLemmas.
Import Groth16Prover.
Section Lemmas.
Context {F : fieldType}.

Lemma poly_eq_on (xs : seq F) (p q : {poly F}) :
  uniq xs -> (size p <= size xs)%N -> (size q <= size xs)%N ->
  {in xs, forall x, p.[x] = q.[x]} -> p = q.
Proof.
move=> Uxs sp sq Epq; apply/eqP; rw -subr_eq0; apply/eqP.
apply: (@roots_geq_poly_eq0 F _ xs) => //.
  by apply/allP => x xin; rw rootE hornerD hornerN Epq // subrr.
by rw (leq_trans (size_polyD _ _)) // size_polyN geq_max sp.
Qed.

Lemma mem_mkseqP (f : nat -> F) n x :
  reflect (exists2 i, (i < n)%N & x = f i) (x \in mkseq f n).
Proof.
apply: (iffP mapP) => [] [i]; rw ?mem_iota => lti ->; exists i => //.
by rw mem_iota.
Qed.

Lemma size_Poly_le (s : seq F) n : size s = n -> (size (Poly s) <= n)%N.
Proof. by move=> <-; exact: size_Poly. Qed.

Lemma omapM_done A B (f : A -> outcome B) (g : A -> B) (s : seq A) :
  (forall i, (i < size s)%N -> forall x0, f (nth x0 s i) = Done (g (nth x0 s i))) ->
  omapM f s = Done (map g s).
Proof.
elim: s => //= x s IH H; rw (H 0%N isT x) /= IH //.
by move=> i lti x0; exact: (H i.+1 lti x0).
Qed.

Lemma index_at_done A (x0 : A) (s : seq A) i : (i < size s)%N -> index_at s i = Done (nth x0 s i).
Proof. by elim: s i => [|x s IH] [|i] //= lti; exact: IH. Qed.

Lemma evaluate_constraint_done (row : seq (F * nat)) (z : seq F) :
  all (fun t => t.2 < size z)%N row ->
  evaluate_constraint row z = Done (row_value z row).
Proof.
rw /evaluate_constraint /row_value => Hall.
have H acc : foldl (fun acc (t : F * nat) =>
    obind acc (fun sum => obind (index_at z t.2) (fun val =>
      Done (if t.1 == 1 then sum + val else sum + val * t.1)))) (Done acc) row
  = Done (acc + \sum_(t <- row) z`_t.2 * t.1).
  elim: row Hall acc => [|t row IH] /= => [_ acc|/andP [lt Hall] acc].
    by rw big_nil addr0.
  rw (index_at_done 0 lt) /= IH // big_cons addrA.
  by case: eqP => [->|_]; rw ?mulr1.
by rw H add0r.
Qed.

(** Distinctness of the points of the domain and of its coset. *)
Section Domain.
Context {ED : EvaluationDomain F} (d : Domain) (w g : F).
Hypothesis Hd : domain_ok d w g.
Local Notation n := (D_size d).

Definition dom_points : seq F := mkseq (fun i => w ^+ i) n.
Definition coset_points : seq F := mkseq (fun i => g * w ^+ i) n.

Lemma dom_size_gt0 : (0 < n)%N.
Proof. exact: prim_order_gt0 (dom_root Hd). Qed.

Lemma dom_pow_inj : {in [pred i | i < n]%N &, injective (fun i : nat => w ^+ i)}.
Proof.
move=> i j /= lti ltj E; apply/eqP.
have := eq_prim_root_expr (dom_root Hd) i j.
by rw E eqxx !modn_small // => /esym.
Qed.

Lemma uniq_dom_points : uniq dom_points.
Proof. by apply/mkseq_uniqP => i j lti ltj; apply: dom_pow_inj. Qed.

Lemma uniq_coset_points : uniq coset_points.
Proof.
apply/mkseq_uniqP => i j lti ltj /(mulfI (dom_shift Hd)).
exact: dom_pow_inj.
Qed.

Lemma in_dom_points i : (i < n)%N -> w ^+ i \in dom_points.
Proof. by move=> lti; apply/mem_mkseqP; exists i. Qed.

Local Notation interp := (interp d).

Lemma size_interp v : size v = n -> (size (interp v) <= n)%N.
Proof. by move=> sv; apply: size_Poly_le; case: (dom_ifft Hd sv). Qed.

Lemma interp_at v i : size v = n -> (i < n)%N -> (interp v).[w ^+ i] = v`_i.
Proof. by move=> sv lti; case: (dom_ifft Hd sv) => _; apply. Qed.

Lemma coset_eval v i : size v = n -> (i < n)%N ->
  (coset_fft_in_place d (ifft_in_place d v))`_i = (interp v).[g * w ^+ i].
Proof.
move=> sv lti; case: (dom_ifft Hd sv) => si _.
by case: (dom_coset_fft Hd si) => _; apply.
Qed.

Lemma size_coset_eval v : size v = n ->
  size (coset_fft_in_place d (ifft_in_place d v)) = n.
Proof.
move=> sv; case: (dom_ifft Hd sv) => si _.
by case: (dom_coset_fft Hd si).
Qed.

Lemma interp_uniq v (p : {poly F}) : size v = n -> (size p <= n)%N ->
  (forall i, (i < n)%N -> p.[w ^+ i] = v`_i) -> interp v = p.
Proof.
move=> sv sp Hp; apply: (@poly_eq_on dom_points); rw ?size_mkseq ?size_interp //.
  exact: uniq_dom_points.
by move=> x /mem_mkseqP [i lti ->]; rw interp_at // Hp.
Qed.

(** A polynomial that vanishes on the domain is a multiple of [X^n - 1]. *)
Lemma vanishing_quotient (p : {poly F}) :
  (forall i, (i < n)%N -> p.[w ^+ i] = 0) ->
  exists q, p = q * ('X^n - 1).
Proof.
move=> Hp.
have Hall : all (root p) dom_points.
  by apply/allP => x /mem_mkseqP [i lti ->]; rw rootE Hp.
have Urs : uniq_roots dom_points by rw uniq_rootsE uniq_dom_points.
have [q ->] := uniq_roots_prod_XsubC Hall Urs.
exists q; congr (_ * _); rw -(factor_Xn_sub_1 (dom_root Hd)).
by rw big_map /index_iota subn0.
Qed.

Lemma quotient_size (p q : {poly F}) :
  (size p <= n + n.-1)%N -> p = q * ('X^n - 1) -> (size q <= n.-1)%N.
Proof.
move=> sp Ep; have [->|q0] := eqVneq q 0; first by rw size_poly0.
move: sp; rw Ep size_Mmonic ?monicXnsubC ?dom_size_gt0 //.
by rw size_XnsubC ?dom_size_gt0 // addnS /= addnC leq_add2l.
Qed.

(** Dividing on the coset recovers the quotient polynomial. *)
Lemma coset_division (p q : {poly F}) v :
  p = q * ('X^n - 1) -> (size q <= n)%N -> size v = n ->
  (forall i, (i < n)%N -> v`_i = p.[g * w ^+ i]) ->
  Poly (coset_ifft_in_place d (divide_by_vanishing_poly_on_coset_in_place d v)) = q.
Proof.
move=> Ep sq sv Hv; case: (dom_divide Hd sv) => sdv Hdv.
case: (dom_coset_ifft Hd sdv) => sh Hh.
apply: (@poly_eq_on coset_points); rw ?size_mkseq ?size_Poly_le //.
  exact: uniq_coset_points.
move=> x /mem_mkseqP [i lti ->]; rw Hh // Hdv // Hv // Ep.
rw hornerM !hornerE mulfK // subr_eq0 exprMn exprAC.
by rw (prim_expr_order (dom_root Hd)) expr1n mulr1 (dom_coset Hd).
Qed.

(** ** The evaluation vectors of a system *)
Section Vectors.
Variables (cs : constraint_system F) (m : matrices F).
Local Notation z := (assignment cs).
Local Notation nc := (num_constraints cs).
Local Notation ni := (num_instance_variables cs).

(** Value [j] of the vector [a]: the row [j] below [nc], then the inputs. *)
Definition a_eval (j : nat) : F :=
  if (j < nc)%N then row_value z (nth [::] (mat_a m) j)
  else if (j < nc + ni)%N then z`_(j - nc) else 0.
Definition row_eval (rows : seq (seq (F * nat))) (j : nat) : F :=
  if (j < nc)%N then row_value z (nth [::] rows j) else 0.
Definition a_vec : seq F := mkseq a_eval n.
Definition b_vec : seq F := mkseq (row_eval (mat_b m)) n.
Definition c_vec : seq F := mkseq (row_eval (mat_c m)) n.

Hypothesis Hwf : well_formed cs m.
Hypothesis Hfit : (nc + ni <= n)%N.

Lemma wf_row_bound rows j : rows \in [:: mat_a m; mat_b m; mat_c m] -> (j < nc)%N ->
  all (fun t : F * nat => t.2 < size z)%N (nth [::] rows j).
Proof.
case/and5P: Hwf => /eqP sA /eqP sB /eqP sC _; rw !all_cat => /and3P [hA hB hC].
rw !inE => /or3P [] /eqP -> ltj.
- by rw (allP hA) // mem_nth // sA.
- by rw (allP hB) // mem_nth // sB.
- by rw (allP hC) // mem_nth // sC.
Qed.

Lemma wf_rows rows : rows \in [:: mat_a m; mat_b m; mat_c m] ->
  size rows = nc /\
  forall j, (j < nc)%N -> evaluate_constraint (nth [::] rows j) z
                          = Done (row_value z (nth [::] rows j)).
Proof.
move=> Hin; split => [|j ltj]; last exact/evaluate_constraint_done/wf_row_bound.
by move: Hin; case/and5P: Hwf => /eqP sA /eqP sB /eqP sC _ _; rw !inE => /or3P [] /eqP ->.
Qed.

Lemma nc_le_n : (nc <= n)%N.
Proof. exact: leq_trans (leq_addr _ _) Hfit. Qed.

Lemma clone_rows (f : nat -> F) :
  clone_from_slice (nseq n 0) (mkseq f nc) 0
  = mkseq (fun j => if (j < nc)%N then f j else 0) n.
Proof.
have lec := nc_le_n; rw /clone_from_slice take0 add0n size_mkseq cat0s.
apply: (@eq_from_nth _ 0); rw size_cat !size_mkseq size_drop size_nseq subnKC // => i lti.
rw [RHS]nth_mkseq // nth_cat size_mkseq; case: ifP => ltc; first by rw nth_mkseq.
by rw nth_drop nth_nseq; case: ifP.
Qed.

Lemma clone_inputs :
  clone_from_slice (mkseq (row_eval (mat_a m)) n) (take ni z) nc = a_vec.
Proof.
have lec := nc_le_n.
have sni : size (take ni z) = ni.
  rw size_take size_cat; case/and5P: Hwf => _ _ _ /eqP -> _.
  by case: ltnP => // le; apply/eqP; rw eqn_leq le leq_addr.
rw /clone_from_slice sni; apply: (@eq_from_nth _ 0);
  rw !size_cat size_drop sni size_takel ?size_mkseq // addnA subnKC // => i lti.
rw !nth_cat size_takel ?size_mkseq // sni /a_vec nth_mkseq // /a_eval.
case: ltnP => [ltc|gec]; first by rw nth_take // nth_mkseq // /row_eval ltc.
rw ltn_subLR //; case: ltnP => [lt|ge]; first by rw nth_take // ltn_subLR.
rw nth_drop addnC -subnDA subnK // nth_mkseq // /row_eval.
by rw ltnNge gec.
Qed.

Lemma rows_done (A : Type) (f : A -> seq (F * nat)) (s : seq A) rows :
  map f s = rows -> rows \in [:: mat_a m; mat_b m; mat_c m] ->
  omapM (fun r => evaluate_constraint (f r) z) s
  = Done (mkseq (fun j => row_value z (nth [::] rows j)) nc).
Proof.
move=> Es Hin; case: (wf_rows Hin) => sr Hr.
have ss : size s = nc by rw -sr -Es size_map.
rw (@omapM_done _ _ _ (fun r => row_value z (f r))) => [i lti x0|].
  by rw -(nth_map x0 [::]) // Es Hr // -ss.
congr Done; rw (map_comp (row_value z) f) Es -{1}(mkseq_nth [::] rows) sr.
by rw /mkseq -map_comp.
Qed.

Lemma c_rows_done :
  omapM (fun i => obind (index_at (mat_c m) i) (fun row => evaluate_constraint row z)) (iota 0 nc)
  = Done (mkseq (fun j => row_value z (nth [::] (mat_c m) j)) nc).
Proof.
case: (@wf_rows (mat_c m)) => [|sr Hr]; first by rw !inE eqxx !orbT.
rw (@omapM_done _ _ _ (fun j => row_value z (nth [::] (mat_c m) j))) // => i.
rw size_iota => lti x0; rw (set_nth_default 0%N) ?size_iota // nth_iota // add0n.
by rw (index_at_done [::]) ?sr //= Hr.
Qed.

Lemma rows_zip :
  [/\ map fst (zip (take nc (mat_a m)) (mat_b m)) = mat_a m
    & map snd (zip (take nc (mat_a m)) (mat_b m)) = mat_b m].
Proof.
case/and5P: Hwf => /eqP sA /eqP sB _ _ _.
by rw -sA take_size -/(unzip1 _) -/(unzip2 _) unzip1_zip ?unzip2_zip ?sA ?sB.
Qed.

Context {AO : ArkOps F} {AOL : ArkOpsLaws AO}.

(** The values on the coset of [A B - C]. *)
Definition coset_values : seq F :=
  sub_in_place
    (batch_product_in_place (coset_fft_in_place d (ifft_in_place d a_vec))
                            (coset_fft_in_place d (ifft_in_place d b_vec)))
    (coset_fft_in_place d (ifft_in_place d c_vec)).

Lemma witness_map_value :
  to_matrices cs = Some m -> D_new (nc + ni) = Some d ->
  witness_map cs
  = Done (coset_ifft_in_place d (divide_by_vanishing_poly_on_coset_in_place d coset_values)).
Proof.
move=> Em Ed; rw /witness_map Em /= Ed ltnNge nc_le_n /=.
case: rows_zip => EA EB.
rw (rows_done EA) ?inE ?eqxx //= (rows_done EB) ?inE ?eqxx ?orbT //=.
rw ltnNge Hfit /=.
have -> : (size (instance_assignment cs ++ witness_assignment cs) < ni)%N = false.
  by rw size_cat; case/and5P: Hwf => _ _ _ /eqP -> _; rw ltnNge leq_addr.
by rw /= c_rows_done /= !clone_rows clone_inputs.
Qed.

Lemma size_coset_values : size coset_values = n.
Proof.
rw /coset_values /sub_in_place batch_product_spec.
rw size_cat size_drop !size_map !size_zip !size_map !size_zip.
by rw !size_coset_eval ?size_mkseq // !minnn subnn addn0.
Qed.

Lemma coset_values_at i : (i < n)%N ->
  coset_values`_i = (interp a_vec * interp b_vec - interp c_vec).[g * w ^+ i].
Proof.
move=> lti; rw /coset_values /sub_in_place batch_product_spec.
have sE v : size v = n -> size (coset_fft_in_place d (ifft_in_place d v)) = n.
  exact: size_coset_eval.
rw nth_cat !size_map !size_zip !size_map !size_zip !sE ?size_mkseq // !minnn lti.
rw (nth_map (0, 0)) ?size_zip ?size_map ?size_zip ?sE ?size_mkseq ?minnn //.
rw nth_zip ?size_map ?size_zip ?sE ?size_mkseq ?minnn //=.
rw (nth_map (0, 0)) ?size_zip ?sE ?size_mkseq ?minnn //.
rw nth_zip ?sE ?size_mkseq //=.
by rw !coset_eval ?size_mkseq // hornerD hornerN hornerM.
Qed.

Lemma product_size : (size (interp a_vec * interp b_vec - interp c_vec)%R <= n + n.-1)%N.
Proof.
have sE v : size v = n -> (size (interp v) <= n)%N by exact: size_interp.
rw (leq_trans (size_polyD _ _)) // size_polyN geq_max; apply/andP; split.
  rw (leq_trans (size_polyMleq _ _)) //.
  rw -subn1 leq_subLR -[X in (_ <= X)%N]addnC -addnA addn1 prednK ?dom_size_gt0 //.
  by rw leq_add // sE ?size_mkseq.
by rw (leq_trans (sE _ _)) ?size_mkseq // leq_addr.
Qed.

Lemma system_vanishes i : satisfied cs m -> (i < n)%N ->
  (interp a_vec * interp b_vec - interp c_vec).[w ^+ i] = 0.
Proof.
move=> Hsat lti; rw hornerD hornerN hornerM !interp_at ?size_mkseq //.
rw !nth_mkseq // /a_eval /row_eval; case: ltnP => [lt|_]; last by rw mulr0 subrr.
by rw (eqP (allP Hsat i _)) ?subrr // mem_iota.
Qed.

(** The witness map of a satisfied system, against the polynomials. *)
Lemma witness_map_division :
  to_matrices cs = Some m -> D_new (nc + ni) = Some d -> satisfied cs m ->
  exists h, [/\ witness_map cs = Done h, size h = n, (size (Poly h) <= n.-1)%N &
    Poly h * ('X^n - 1) = interp a_vec * interp b_vec - interp c_vec].
Proof.
move=> Em Ed Hsat; have [q Eq] := vanishing_quotient (fun i => system_vanishes Hsat).
have sq := quotient_size product_size Eq.
have Eh := coset_division Eq (leq_trans sq (leq_pred _)) size_coset_values
             coset_values_at.
eexists; split; [exact: witness_map_value| | |].
- by case: (dom_divide Hd size_coset_values) => sd _; case: (dom_coset_ifft Hd sd).
- by rw Eh.
- by rw Eh Eq.
Qed.

(** ** The vectors as combinations of the columns *)
Local Notation N := (size z).

Lemma row_value_coef row : all (fun t : F * nat => t.2 < N)%N row ->
  row_value z row = \sum_(0 <= i < N) z`_i * coef row i.
Proof.
move=> Hall; rw /row_value /coef.
rw (eq_bigr (fun i => \sum_(t <- row) (if t.2 == i then z`_i * t.1 else 0))) => [i _|].
  by rw big_distrr big_mkcond.
rw exchange_big /= big_seq [RHS]big_seq; apply: eq_bigr => t tin.
rw (bigD1_seq t.2) ?iota_uniq ?mem_index_iota ?(allP Hall t tin) //= eqxx.
by rw big1 ?addr0 // => i /negPf; rw eq_sym => ->.
Qed.

Lemma interp_columns (f : nat -> F) (col : nat -> nat -> F) :
  (forall j, (j < n)%N -> f j = \sum_(0 <= i < N) z`_i * col i j) ->
  interp (mkseq f n) = \sum_(0 <= i < N) z`_i *: interp (mkseq (col i) n).
Proof.
move=> Hf; apply: interp_uniq; rw ?size_mkseq //.
  rw (leq_trans (size_sum _ _ _)) //; apply/bigmax_leqP_seq => i _ _.
  by rw (leq_trans (size_scale_leq _ _)) // size_interp // size_mkseq.
move=> j ltj; rw horner_sum nth_mkseq // Hf //; apply: eq_bigr => i _.
by rw hornerZ interp_at ?size_mkseq // nth_mkseq.
Qed.

Lemma row_interp rows : rows \in [:: mat_a m; mat_b m; mat_c m] ->
  interp (mkseq (row_eval rows) n)
  = \sum_(0 <= i < N) z`_i *: interp (mkseq (row_col cs rows i) n).
Proof.
move=> Hin; apply: interp_columns => j ltj; rw /row_eval /row_col.
case: ifP => ltc; last by rw big1 // => i _; rw mulr0.
by rw row_value_coef // wf_row_bound.
Qed.

Lemma inputs_le : (ni <= N)%N.
Proof. by rw size_cat; case/and5P: Hwf => _ _ _ /eqP -> _; exact: leq_addr. Qed.

Lemma a_interp : interp a_vec = \sum_(0 <= i < N) z`_i *: u_poly cs m d i.
Proof.
apply: interp_columns => j ltj; rw /a_eval /a_col.
case: ifP => ltc; first by rw row_value_coef // wf_row_bound // !inE eqxx.
case: ifP => lti; last by rw big1 // => i _; rw mulr0.
have gec : (nc <= j)%N by rw leqNgt ltc.
have ltN : (j - nc < N)%N by rw (leq_trans _ inputs_le) // ltn_subLR.
rw (bigD1_seq (j - nc)%N) ?iota_uniq ?mem_index_iota //= eqxx mulr1.
by rw big1 ?addr0 // => i /negPf; rw eq_sym => ->; rw mulr0.
Qed.

Lemma witness_map_columns :
  to_matrices cs = Some m -> D_new (nc + ni) = Some d -> satisfied cs m ->
  exists h, [/\ witness_map cs = Done h, size h = n, (size (Poly h) <= n.-1)%N &
    Poly h * ('X^n - 1) = (\sum_(0 <= i < N) z`_i *: u_poly cs m d i)
                          * (\sum_(0 <= i < N) z`_i *: v_poly cs m d i)
                          - \sum_(0 <= i < N) z`_i *: w_poly cs m d i].
Proof.
move=> Em Ed Hsat; have [h [Eh sh dh Hh]] := witness_map_division Em Ed Hsat.
exists h; split=> //; rw Hh a_interp /b_vec /c_vec.
by rw (@row_interp (mat_b m)) ?(@row_interp (mat_c m)) // !inE eqxx ?orbT.
Qed.
End Vectors.
End Domain.

(** ** Multi-scalar products of scaled generators *)
Section Msm.
Context (G : lmodType F) (M : MultiScalar F G) {ML : MultiScalarLaws M}.

Lemma zip_mkseq_sum (q : nat -> F) (P : G) (k : nat) (v : seq F) :
  \sum_(x <- zip (mkseq (fun i => q i *: P) k) v) x.2 *: x.1
  = (\sum_(0 <= i < minn k (size v)) v`_i * q i) *: P.
Proof.
elim: v k q => [|a v IH] k q; first by rw minn0 big_geq // scale0r; case: mkseq => *; rw big_nil.
case: k => [|k]; first by rw min0n big_geq // big_nil scale0r.
rw /mkseq /= big_cons /= minnSS big_nat_recl //= scalerDl scalerA; congr (_ + _).
by rw -[in map _ _]add1n iotaDl -map_comp IH.
Qed.

Lemma msm_value (q : nat -> F) (P : G) (k : nat) (v : seq F) :
  multi_scalar_mul (mkseq (fun i => q i *: P) k) v
  = (\sum_(0 <= i < minn k (size v)) v`_i * q i) *: P.
Proof. by rw multi_scalar_mul_spec zip_mkseq_sum. Qed.

Lemma calculate_coeff_value (i0 : G) (q : nat -> F) (P : G) (p : F) (v : seq F) :
  calculate_coeff M i0 (mkseq (fun i => q i *: P) (size v).+1) (p *: P) v
  = Done (i0 + (p + \sum_(0 <= i < (size v).+1) (1 :: v)`_i * q i) *: P).
Proof.
rw /calculate_coeff /mkseq /= -[in map _ _]add1n iotaDl -map_comp.
rw (msm_value (fun i => q i.+1)) minnn big_nat_recl //= mul1r.
by congr Done; rw -!addrA !scalerDl; congr (_ + _); rw addrA addrC.
Qed.
End Msm.
End Lemmas.
End QapLemmas.

(** ** Completeness *)
Module Completeness.
Import Groth16Prover QapLemmas.

Section Pairing.
Context {F : fieldType} {G1 G2 GT : lmodType F} (e : G1 -> G2 -> GT).
Hypothesis He : bilinear_pairing e.

Lemma pairing_addl P P' Q : e (P + P') Q = e P Q + e P' Q.
Proof. by case: He => Hl _; rw -{1}(scale1r P) Hl scale1r. Qed.

Lemma pairing_addr P Q Q' : e P (Q + Q') = e P Q + e P Q'.
Proof. by case: He => _ Hr; rw -{1}(scale1r Q) Hr scale1r. Qed.

Lemma pairing_0l Q : e 0 Q = 0.
Proof. by apply: (@addrI _ (e 0 Q)); rw -pairing_addl !addr0. Qed.

Lemma pairing_0r P : e P 0 = 0.
Proof. by apply: (@addrI _ (e P 0)); rw -pairing_addr !addr0. Qed.

Lemma pairing_scalel k P Q : e (k *: P) Q = k *: e P Q.
Proof. by case: He => Hl _; rw -{1}(addr0 (k *: P)) Hl pairing_0l addr0. Qed.

Lemma pairing_scaler k P Q : e P (k *: Q) = k *: e P Q.
Proof. by case: He => _ Hr; rw -{1}(addr0 (k *: Q)) Hr pairing_0r addr0. Qed.

Lemma pairing_exponents a b P Q : e (a *: P) (b *: Q) = (a * b) *: e P Q.
Proof. by rw pairing_scalel pairing_scaler scalerA. Qed.
End Pairing.

Section Complete.
Context {F : fieldType} {ED : EvaluationDomain F} {EDL : EvaluationDomainLaws ED}.
Context {AO : ArkOps F} {AOL : ArkOpsLaws AO}.

(** C39. On a well-formed satisfied system whose size the domain accepts, the
    witness map returns [n] coefficients of a polynomial of degree below
    [n - 1] whose product with the vanishing polynomial of the domain is
    [A B - C], for [A], [B], [C] the combinations of the columns of the
    system with the assignment. *)
Theorem witness_map_quotient (cs : constraint_system F) (m : matrices F) (d : Domain) :
  to_matrices cs = Some m ->
  D_new (num_constraints cs + num_instance_variables cs) = Some d ->
  well_formed cs m -> satisfied cs m ->
  exists h, [/\ witness_map cs = Done h, size h = D_size d,
    (size (Poly h) <= (D_size d).-1)%N &
    Poly h * ('X^(D_size d) - 1)
    = (\sum_(0 <= i < size (assignment cs)) (assignment cs)`_i *: u_poly cs m d i)
      * (\sum_(0 <= i < size (assignment cs)) (assignment cs)`_i *: v_poly cs m d i)
      - \sum_(0 <= i < size (assignment cs)) (assignment cs)`_i *: w_poly cs m d i].
Proof.
move=> Em Ed Hwf Hsat; have [w [g Hd]] := domain_laws Ed.
have Hfit := @domain_size_ge _ _ EDL _ _ Ed.
exact (witness_map_columns Hd Hwf Hfit Em Ed Hsat).
Qed.

Context {G1 G2 GT : lmodType F} (e : G1 -> G2 -> GT).
Context {M1 : MultiScalar F G1} {M1L : MultiScalarLaws M1}.
Context {M2 : MultiScalar F G2} {M2L : MultiScalarLaws M2}.

(** The identity in the exponents behind the verification equation. *)
Lemma groth16_identity (al be ga de r s U V W Ux Vx Wx Uw Vw Ww H Z : F) :
  ga != 0 -> de != 0 -> U = Ux + Uw -> V = Vx + Vw -> W = Wx + Ww ->
  H * Z = U * V - W ->
  (r * de + (al + U)) * (s * de + (be + V))
  = al * be + (be * Ux + al * Vx + Wx) / ga * ga
    + (s * (r * de + (al + U)) + r * (s * de + (be + V)) - s * (r * de)
       + (be * Uw + al * Vw + Ww) / de + H * (Z / de)) * de.
Proof.
move=> ga0 de0 EU EV EW HZ.
have -> : H * (Z / de) = (U * V - W) / de by rw mulrA HZ.
rw divfK // [in RHS]mulrDl [in RHS]mulrDl divfK // [(_ / de) * de]divfK //.
rw EU EV EW; ring.
Qed.

Lemma sum_assignment (f : nat -> F) (x y : seq F) :
  \sum_(0 <= i < size (x ++ y)) (x ++ y)`_i * f i
  = \sum_(0 <= i < size x) x`_i * f i + \sum_(0 <= i < size y) y`_i * f (size x + i)%N.
Proof.
rw size_cat (@big_cat_nat _ _ _ (size x)) ?leq_addr //=; congr (_ + _).
  by apply: eq_big_nat => i /andP [_ lti]; rw nth_cat lti.
rw -{1}[size x]add0n big_addn addKn; apply: eq_bigr => i _.
by rw nth_cat ltnNge leq_addl addnK /= addnC.
Qed.

Lemma abc_sum (cs : constraint_system F) m d (t : @toxic_waste F G1 G2) (y : seq F) (k o : nat) (c : F) :
  \sum_(0 <= i < k) y`_i * (abc cs m d t (o + i) / c)
  = (tw_beta t * (\sum_(0 <= i < k) y`_i * (u_poly cs m d (o + i)).[tw_tau t])
     + tw_alpha t * (\sum_(0 <= i < k) y`_i * (v_poly cs m d (o + i)).[tw_tau t])
     + \sum_(0 <= i < k) y`_i * (w_poly cs m d (o + i)).[tw_tau t]) / c.
Proof.
rw !big_distrr /= -!big_split /= big_distrl /=; apply: eq_bigr => i _.
rw /abc; ring.
Qed.

Lemma h_value (h : seq F) (k : nat) (x c : F) :
  (size (Poly h) <= k)%N ->
  \sum_(0 <= i < k) h`_i * (x ^+ i * c) = (Poly h).[x] * c.
Proof.
move=> sh; rw (horner_coef_wide _ sh) big_distrl big_mkord /=.
by apply: eq_bigr => i _; rw coef_Poly mulrA.
Qed.

Lemma horner_columns (z : seq F) (p : nat -> {poly F}) (x : F) :
  (\sum_(0 <= i < size z) z`_i *: p i).[x] = \sum_(0 <= i < size z) z`_i * (p i).[x].
Proof. by rw horner_sum; apply: eq_bigr => i _; rw hornerZ. Qed.

(** The proof of a satisfied system, in the exponents of the generators. *)
Lemma create_proof_value (cs : constraint_system F) m d (t : @toxic_waste F G1 G2) x h (r s : F) :
  instance_assignment cs = 1 :: x -> size (1 :: x) = num_instance_variables cs ->
  witness_map cs = Done h -> (size (Poly h) <= (D_size d).-1)%N -> size h = D_size d ->
  let S p := \sum_(0 <= i < size (assignment cs))
               (assignment cs)`_i * (p cs m d i : {poly F}).[tw_tau t] in
  let Sw p := \sum_(0 <= i < size (witness_assignment cs))
     (witness_assignment cs)`_i * (p cs m d (num_instance_variables cs + i)%N : {poly F}).[tw_tau t] in
  let ga := r * tw_delta t + (tw_alpha t + S u_poly) in
  let gb := s * tw_delta t + (tw_beta t + S v_poly) in
  create_proof (Done cs) (groth16_crs cs m d t) r s
  = Done (mkProof (ga *: tw_g1 t) (gb *: tw_g2 t)
      ((s * ga + r * gb - s * (r * tw_delta t)
        + (tw_beta t * Sw u_poly + tw_alpha t * Sw v_poly + Sw w_poly) / tw_delta t
        + (Poly h).[tw_tau t] * ((tw_tau t ^+ D_size d - 1) / tw_delta t)) *: tw_g1 t)).
Proof.
move=> Ex sx Eh dh sh S Sw ga gb; rw /create_proof /= Eh /= Ex /=.
have Ez : assignment cs = 1 :: (x ++ witness_assignment cs) by rw /assignment Ex.
rw !msm_value minnn (minn_idPl _) ?sh ?leq_pred // h_value // abc_sum -/(Sw u_poly).
have sz : size (assignment cs) = (size (x ++ witness_assignment cs)).+1 by rw Ez.
rw sz !calculate_coeff_value /obind -Ez -sz.
congr Done; rw !scalerA -!scalerDl -/(S u_poly) -/(S v_poly) -/ga -/gb.
by rw !scalerA -scalerDl -scalerBl -!scalerDl.
Qed.

Lemma prepare_inputs_value (cs : constraint_system F) m d (t : @toxic_waste F G1 G2) x :
  size (1 :: x) = num_instance_variables cs ->
  prepare_inputs (vk (groth16_crs cs m d t)) x
  = (\sum_(0 <= i < size (1 :: x)) (1 :: x)`_i * (abc cs m d t (0 + i) / tw_gamma t)) *: tw_g1 t.
Proof.
move=> sx; rw /prepare_inputs.
rw -[gamma_abc_g1 _]/(mkseq (fun i => (abc cs m d t i / tw_gamma t) *: tw_g1 t) _).
by rw zip_mkseq_sum -sx minnn.
Qed.

(** The proof of a satisfied system, for whatever randomness. *)
Lemma create_proof_verifies (cs : constraint_system F) (m : matrices F) (d : Domain)
    (t : @toxic_waste F G1 G2) (x : seq F) (r s : F) :
  bilinear_pairing e ->
  to_matrices cs = Some m ->
  D_new (num_constraints cs + num_instance_variables cs) = Some d ->
  well_formed cs m -> satisfied cs m -> instance_assignment cs = 1 :: x ->
  tw_gamma t != 0 -> tw_delta t != 0 ->
  exists p, create_proof (Done cs) (groth16_crs cs m d t) r s = Done p
    /\ groth16_accepts e (vk (groth16_crs cs m d t)) x p.
Proof.
move=> He Em Ed Hwf Hsat Ex ga0 de0; have [w [g Hd]] := domain_laws Ed.
have [h [Eh sh dh Hh]] := witness_map_columns Hd Hwf (domain_size_ge Ed) Em Ed Hsat.
have sx : size (1 :: x) = num_instance_variables cs.
  by rw -Ex; case/and5P: Hwf => _ _ _ /eqP.
have := create_proof_value m t r s Ex sx Eh dh sh; move=> /= ->; eexists; split=> //.
rw /groth16_accepts /= !(pairing_exponents He).
rw prepare_inputs_value // (pairing_exponents He) abc_sum -!scalerDl; congr (_ *: _).
have Esum p : \sum_(0 <= i < size (assignment cs)) (assignment cs)`_i * (p i : {poly F}).[tw_tau t]
  = \sum_(0 <= i < size (1 :: x)) (1 :: x)`_i * (p (0 + i)%N).[tw_tau t]
    + \sum_(0 <= i < size (witness_assignment cs))
        (witness_assignment cs)`_i * (p (num_instance_variables cs + i)%N).[tw_tau t].
  by rw -sx /assignment Ex (sum_assignment (fun i => (p i).[tw_tau t])).
apply: groth16_identity => //; try exact: Esum.
have := congr1 (fun q : {poly F} => q.[tw_tau t]) Hh.
by rw hornerM !hornerD !hornerN hornerM !horner_columns hornerXn hornerC.
Qed.

(** C38. With a key of the system, the random proof of a satisfied system, and
    the one without randomness, are returned and satisfy the Groth16
    verification equation for the inputs of the system; the random proof
    draws exactly two field elements. *)
Theorem create_random_proof_complete (Rng : Type) (rand : Rng -> F * Rng) (rng : Rng)
    (cs : constraint_system F) (m : matrices F) (d : Domain)
    (t : @toxic_waste F G1 G2) (x : seq F) :
  bilinear_pairing e ->
  to_matrices cs = Some m ->
  D_new (num_constraints cs + num_instance_variables cs) = Some d ->
  well_formed cs m -> satisfied cs m -> instance_assignment cs = 1 :: x ->
  tw_gamma t != 0 -> tw_delta t != 0 ->
  (exists p, create_random_proof rand (Done cs) (groth16_crs cs m d t) rng
             = (Done p, (rand (rand rng).2).2)
     /\ groth16_accepts e (vk (groth16_crs cs m d t)) x p)
  /\ exists p, create_proof_no_zk (Done cs) (groth16_crs cs m d t) = Done p
     /\ groth16_accepts e (vk (groth16_crs cs m d t)) x p.
Proof.
move=> He Em Ed Hwf Hsat Ex ga0 de0; split; last exact: create_proof_verifies.
rw /create_random_proof; case: (rand rng) => r rng1.
rw -[(r, rng1).2]/rng1; case: (rand rng1) => s rng2.
have [p [Ep Hp]] : exists p, create_proof (Done cs) (groth16_crs cs m d t) r s = Done p
    /\ groth16_accepts e (vk (groth16_crs cs m d t)) x p by exact: create_proof_verifies.
by exists p; rw Ep.
Qed.

Section Rerandomise.
Variable Rng : Type.
Variable rand : Rng -> F * Rng.

(** The [k]-th pair the loop draws. *)
Definition draw_pair (rng : Rng) : F * F * Rng :=
  let: (r1, rng) := rand rng in let: (r2, rng) := rand rng in (r1, r2, rng).
Definition nth_pair (k : nat) (rng : Rng) : F * F * Rng :=
  draw_pair (iter k (fun g => (draw_pair g).2) rng).

Definition usable (p : F * F * Rng) : bool := (p.1.1 != 0) && (p.1.2 != 0).

Lemma sample_nonzero_done fuel r1 r2 rng :
  r1 != 0 -> r2 != 0 -> sample_nonzero rand fuel r1 r2 rng = Some (r1, r2, rng).
Proof. by case: fuel => [|f] /= /negPf -> /negPf ->. Qed.

Lemma sample_nonzero_step fuel r1 r2 rng : (r1 == 0) || (r2 == 0) ->
  sample_nonzero rand fuel.+1 r1 r2 rng
  = let p := draw_pair rng in sample_nonzero rand fuel p.1.1 p.1.2 p.2.
Proof. by move=> /= ->; rw /draw_pair; case: (rand rng) => a g1; case: (rand g1). Qed.

Lemma nth_pairS k rng : nth_pair k.+1 rng = nth_pair k (draw_pair rng).2.
Proof. by rw /nth_pair iterSr. Qed.

Lemma sample_nonzero_draw fuel k rng r1 r2 :
  (r1 == 0) || (r2 == 0) ->
  usable (nth_pair k rng) -> (forall j, (j < k)%N -> ~~ usable (nth_pair j rng)) ->
  (k < fuel)%N -> sample_nonzero rand fuel r1 r2 rng = Some (nth_pair k rng).
Proof.
elim: k fuel rng r1 r2 => [|k IH] [|fuel] // rng r1 r2 Hz Hu Hlt ltk;
  rw sample_nonzero_step //=.
  case/andP: Hu => h1 h2; rw sample_nonzero_done //.
  by rw /nth_pair /=; case: draw_pair => [[]].
rw nth_pairS; apply: IH => //; first by have := Hlt 0%N isT; rw negb_and !negbK.
  by rw -nth_pairS.
by move=> j ltj; rw -nth_pairS; exact: Hlt.
Qed.

(** Once the generator yields a pair of non-zero factors, the loop of
    the rerandomisation ends with the first such pair, and the new proof
    satisfies the verification equation whenever the given one does. *)
Theorem rerandomize_proof_accepts (vk0 : VerifyingKey G1 G2) (x : seq F) (p : Groth16Proof G1 G2)
    (rng : Rng) (k fuel : nat) :
  bilinear_pairing e ->
  groth16_accepts e vk0 x p ->
  usable (nth_pair k rng) -> (forall j, (j < k)%N -> ~~ usable (nth_pair j rng)) ->
  (k < fuel)%N ->
  exists p', rerandomize_proof rand fuel rng vk0 p = Some (p', (nth_pair k rng).2)
    /\ groth16_accepts e vk0 x p'
    /\ proof_a p' = (nth_pair k rng).1.1^-1 *: proof_a p.
Proof.
move=> He Hp Hu Hlt ltk; rw /rerandomize_proof.
rw (@sample_nonzero_draw _ k) ?eqxx //; case: (nth_pair k rng) Hu => [[r1 r2] rng'].
case/andP=> /= r10 r20; eexists; split=> //; split=> //.
rw /groth16_accepts /= (pairing_addr He) (pairing_addl He).
rw !(pairing_scalel He) !(pairing_scaler He) !scalerA !mulrA mulVf //.
by rw scale1r mul1r Hp -!addrA.
Qed.
End Rerandomise.
End Complete.
End Completeness.

(** ** A concrete field, domain and system *)
Module Reference.
Import Groth16Prover QapLemmas Completeness.

Section RefDomain.
Context {F : fieldType}.
Variables (n : nat) (w g : F).

(** Newton interpolation through the points of a list. *)
Fixpoint newton (ps : seq (F * F)) : {poly F} :=
  if ps is (x, v) :: ps' then
    let p := newton ps' in
    let q := \prod_(y <- unzip1 ps') ('X - y%:P) in
    p + ((v - p.[x]) / q.[x]) *: q
  else 0.

Lemma size_newton ps : (size (newton ps) <= size ps)%N.
Proof.
elim: ps => [|[x v] ps IH] /=; first by rw size_poly0.
rw (leq_trans (size_polyD _ _)) // geq_max (leq_trans IH) //=.
by rw (leq_trans (size_scale_leq _ _)) // size_prod_XsubC size_map.
Qed.

Lemma newton_at ps p : uniq (unzip1 ps) -> p \in ps -> (newton ps).[p.1] = p.2.
Proof.
elim: ps => //= [[x v]] ps IH /= /andP [Hx Hu]; rw inE hornerD hornerZ.
set q := \prod_(_ <- _) _.
have Hq y : root q y = (y \in unzip1 ps) by rw root_prod_XsubC.
case/predU1P => [-> /=|Hin].
  have q0 : q.[x] != 0 by rw -rootE Hq.
  by rw divfK // addrC subrK.
have /rootP -> : root q p.1 by rw Hq; apply: map_f.
by rw mulr0 addr0 IH.
Qed.

Definition coefs (p : {poly F}) : seq F := mkseq (fun i => p`_i) n.

Lemma coefsK (p : {poly F}) : (size p <= n)%N -> Poly (coefs p) = p.
Proof.
move=> sp; apply/polyP => i; rw coef_Poly; case: (ltnP i n) => [lti|gei].
  by rw nth_mkseq.
by rw !nth_default ?size_mkseq // (leq_trans sp).
Qed.

#[export] Instance ref_domain : EvaluationDomain F := {
  Domain := unit;
  D_new k := if (k <= n)%N then Some tt else None;
  D_size _ := n;
  ifft_in_place _ v := coefs (newton (zip (mkseq (fun i => w ^+ i) n) v));
  coset_fft_in_place _ c := mkseq (fun i => (Poly c).[g * w ^+ i]) n;
  coset_ifft_in_place _ v := coefs (newton (zip (mkseq (fun i => g * w ^+ i) n) v));
  divide_by_vanishing_poly_on_coset_in_place _ v :=
    mkseq (fun i => v`_i / ((g * w ^+ i) ^+ n - 1)) n
}.

Lemma newton_mkseq (f : nat -> F) (v : seq F) : uniq (mkseq f n) -> size v = n ->
  size (coefs (newton (zip (mkseq f n) v))) = n /\
  forall i, (i < n)%N -> (Poly (coefs (newton (zip (mkseq f n) v)))).[f i] = v`_i.
Proof.
move=> Hu sv; split=> [|i lti]; first by rw size_mkseq.
rw coefsK; first by rw (leq_trans (size_newton _)) // size_zip size_mkseq sv minnn.
rw -[f i]/((f i, v`_i).1) newton_at // ?unzip1_zip ?size_mkseq ?sv //.
rw -(nth_mkseq 0 f lti) -nth_zip ?size_mkseq ?sv // mem_nth //.
by rw size_zip size_mkseq sv minnn.
Qed.

Hypothesis Hw : n.-primitive_root w.
Hypothesis Hg0 : g != 0.
Hypothesis Hg : g ^+ n != 1.

Lemma pow_uniq : uniq (mkseq (fun i => w ^+ i) n).
Proof.
apply/mkseq_uniqP => i j lti ltj E; apply/eqP.
by have := eq_prim_root_expr Hw i j; rw E eqxx !modn_small // => /esym.
Qed.

Lemma coset_uniq : uniq (mkseq (fun i => g * w ^+ i) n).
Proof.
apply/mkseq_uniqP => i j lti ltj /(mulfI Hg0).
by move/mkseq_uniqP: pow_uniq; apply.
Qed.

Lemma ref_domain_ok : domain_ok (ED := ref_domain) tt w g.
Proof.
split=> //= v sv; try by apply: newton_mkseq; rw ?pow_uniq ?coset_uniq.
all: by split=> [|i lti]; rw ?size_mkseq ?nth_mkseq.
Qed.

Lemma ref_domain_laws : EvaluationDomainLaws ref_domain.
Proof.
split=> [k d|k [] _]; first by rw /=; case: ifP.
by exists w, g; exact: ref_domain_ok.
Qed.
End RefDomain.

Section RefOps.
Context {F : fieldType}.

#[export] Instance ref_ops : ArkOps F :=
  { batch_product_in_place a b := [seq x.1 * x.2 | x <- zip a b] }.
#[export] Instance ref_ops_laws : ArkOpsLaws ref_ops.
Proof. by []. Qed.

#[export] Instance ref_msm (G : lmodType F) : MultiScalar F G :=
  { multi_scalar_mul bases scalars := \sum_(x <- zip bases scalars) x.2 *: x.1 }.
#[export] Instance ref_msm_laws (G : lmodType F) : MultiScalarLaws (ref_msm G).
Proof. by []. Qed.
End RefOps.

(** The field of 13 elements, the domain generated by 5 with the coset of 2,
    and the system [x * x = y] with the input [y = 9] and the witness
    [x = 3]. *)
Definition K : fieldType := 'F_13.

Lemma K_root : 4.-primitive_root (5 : K).
Proof.
apply/andP; split=> //; apply/forallP => -[[|[|[|[|]]]] //= H].
all: by rw unity_rootE.
Qed.

#[export] Instance K_domain : EvaluationDomain K := ref_domain 4 5 2.
#[export] Instance K_domain_laws : EvaluationDomainLaws K_domain :=
  @ref_domain_laws K 4 5 2 K_root isT isT.

Definition square_matrices : matrices K :=
  {| mat_a := [:: [:: (1, 2%N)]]; mat_b := [:: [:: (1, 2%N)]];
     mat_c := [:: [:: (1, 1%N)]] |}.
Definition square_system : constraint_system K :=
  {| num_instance_variables := 2; num_constraints := 1;
     instance_assignment := [:: 1; 9]; witness_assignment := [:: 3];
     to_matrices := Some square_matrices |}.

Lemma square_satisfied : satisfied square_system square_matrices.
Proof. by rw /satisfied /= /row_value !big_cons !big_nil. Qed.

Definition K_pairing (a b : K^o) : K^o := a * b.

Lemma K_bilinear : bilinear_pairing K_pairing.
Proof.
by split=> k P Q R; rw /K_pairing /GRing.scale /=; [rw mulrDl mulrA | rw mulrDr mulrCA].
Qed.

Definition K_waste : @toxic_waste K K^o K^o :=
  {| tw_alpha := (2 : K); tw_beta := 3; tw_gamma := 4; tw_delta := 5; tw_tau := 6;
     tw_g1 := (1 : K^o); tw_g2 := (1 : K^o) |}.

(** A generator that counts. *)
Definition count_rand (i : nat) : K * nat := (i%:R, i.+1).

Lemma witness_map_quotient_witness :
  exists h, [/\ witness_map square_system = Done h, size h = 4%N, (size (Poly h) <= 3)%N &
    Poly h * ('X^4 - 1)
    = (\sum_(0 <= i < 3) (assignment square_system)`_i *: u_poly square_system square_matrices tt i)
      * (\sum_(0 <= i < 3) (assignment square_system)`_i *: v_poly square_system square_matrices tt i)
      - \sum_(0 <= i < 3) (assignment square_system)`_i *: w_poly square_system square_matrices tt i].
Proof.
exact (@witness_map_quotient K K_domain K_domain_laws ref_ops ref_ops_laws
         square_system square_matrices tt erefl erefl isT square_satisfied).
Defined.

Lemma create_random_proof_complete_witness :
  (exists p, create_random_proof count_rand (Done square_system)
               (groth16_crs square_system square_matrices tt K_waste) 0%N = (Done p, 2%N)
     /\ groth16_accepts K_pairing
          (vk (groth16_crs square_system square_matrices tt K_waste)) [:: 9] p)
  /\ exists p, create_proof_no_zk (Done square_system)
               (groth16_crs square_system square_matrices tt K_waste) = Done p
     /\ groth16_accepts K_pairing
          (vk (groth16_crs square_system square_matrices tt K_waste)) [:: 9] p.
Proof.
exact (@create_random_proof_complete K K_domain K_domain_laws ref_ops ref_ops_laws
         K^o K^o K^o K_pairing (ref_msm K^o) (ref_msm_laws K^o) (ref_msm K^o) (ref_msm_laws K^o)
         nat count_rand 0%N square_system square_matrices tt K_waste [:: 9]
         K_bilinear erefl erefl isT square_satisfied erefl isT isT).
Defined.

Definition small_vk : VerifyingKey K^o K^o :=
  {| alpha_g1 := (1 : K^o); beta_g2 := (2 : K^o); gamma_g2 := (1 : K^o); delta_g2 := (1 : K^o);
     gamma_abc_g1 := [::] |}.
Definition small_proof : Groth16Proof K^o K^o := mkProof (3 : K^o) (2 : K^o) (4 : K^o).

Lemma small_accepts : groth16_accepts K_pairing small_vk [::] small_proof.
Proof.
apply/eqP; rw /prepare_inputs /= big_nil /K_pairing mul0r addr0.
by apply/eqP/val_inj.
Qed.

Lemma rerandomize_proof_accepts_witness :
  exists p', rerandomize_proof count_rand 2 0%N small_vk small_proof = Some (p', 4%N)
    /\ groth16_accepts K_pairing small_vk [::] p'
    /\ proof_a p' = (2 : K)^-1 *: proof_a small_proof.
Proof.
apply: (@rerandomize_proof_accepts K K^o K^o K^o K_pairing nat count_rand small_vk [::]
          small_proof 0%N 1 2 K_bilinear small_accepts) => //.
by case.
Defined.
End Reference.
